(* ===== verification/_CoqProject ===== *)
-Q . S2P
Prelude.v
Ring.v
Histogram.v
DataModel.v
StdText.v
ConfigParse.v
Producer.v
AccessLog.v
Traceparent.v
Slots.v
SpanRecord.v
Processor.v
Coalesce.v
CoalesceRace.v
ShmLayout.v
CertTable.v
Endpoint.v
Config.v
ErrorLog.v
LogChain.v
Collect.v
Outcome.v
Backoff.v
Control.v
Finalize.v
Location.v
Directives.v
SpanStart.v
Process.v
Request.v
Aggregate.v
Encoder.v
Conn.v
Bio.v
Tls.v
SslQueue.v
Transport.v
Smoke.v
Drain.v
Sources.v
Run.v
Ledger.v
Export.v
Peer.v
Registration.v
System.v
Serve.v
Meter.v
Lines.v
Errors.v
