(* ===== verification/Prelude.v ===== *)
(** * ngx-otel-rust: a verification development

    ** The program

    ngx-otel-rust (sources under src/src/) is an nginx module that exports
    metrics, logs and traces over OTLP.  Three kinds of process take part.

    - The master reads the configuration ([config/], [metric_source/location_conf.rs]),
      checks it, creates the shared-memory zones ([shm/]) and starts the exporter; on a
      reload it starts a successor.  A control page in shared memory
      ([exporter/control_shm.rs]) tells the old exporter to stop draining, counts
      crashes, and carries the heartbeat the workers check ([liveness.rs]).
    - Worker processes serve requests.  A request may start a span when it is first rewritten
      ([metric_source/span_start.rs], [traces/ctx.rs]); when it ends, the log phase
      ([metric_source/instrumented.rs]) increments counters and histograms in the
      worker's block of the metrics zone and serialises access-log records
      ([logs/access.rs]) and spans ([traces/mod.rs]) into per-worker
      single-producer single-consumer byte rings ([logs/ring.rs]); nginx's error log reaches
      its ring through a callback ([logs/error_writer.rs], after [logs/coalesce.rs]).
    - One exporter process ([exporter/], [drain/]) drains all blocks and rings at a
      fixed interval, rebuilds the internal data model ([data_model/mod.rs]),
      assembles the metrics of all sources ([metric_source/], [drain/self_metrics.rs]),
      encodes the batches ([encoder/]) and sends them to a collector ([transport/]), over HTTP or gRPC, with or without TLS.  It keeps
      a bounded retry queue and a backoff per signal, and drains everything once more on quit.

    ** The files, in dependency order

    - [Prelude] (this file): automation, machine integers as [Z] with explicit
      wrap-around ([wrap]), bytes as [Z] in [0, 256), big-endian fields, list
      and sum lemmas.
    - [Ring]: logs/ring.rs.  [ring] is the 32-byte header plus the payload,
      [push] and [pop_into] are the two operations with their split copies.  The
      step relation [step] has every shared access of both sides as a step of
      its own; before a payload copy completes it may leave any bytes in its
      target range, so the other side can observe it half done.
    - [Histogram]: shm/histogram.rs.  Both histogram kinds, [exp_record] and
      [hist_record], the snapshots, and a step relation for a snapshot taken while
      the worker records.
    - [DataModel]: data_model/mod.rs and logs/severity.rs, with [from_utf8_lossy].
    - [StdText]: the functions of the standard library on strings that the other files use.
    - [ConfigParse]: config/parse.rs, the grammars of numbers, durations and sizes.
    - [Producer]: the [LogProducer] trait of logs/mod.rs as a class whose law
      is the FIFO contract; the worker's ring is its instance.
    - [AccessLog]: logs/access.rs (the writer) and the parser of drain/mod.rs.
    - [Traceparent]: the W3C header parser of logs/access.rs and the builder
      of metric_source/span_start.rs.
    - [Slots]: the attribute enumerations, the combination table and the exemplar
      reservoir of shm/mod.rs.
    - [SpanRecord]: the span writer and parser of traces/mod.rs.
    - [Processor]: processor/mod.rs, the processors a batch passes before it is
      encoded, over a class of JSON accessors.
    - [Coalesce]: logs/coalesce.rs, the key extraction and the open-addressed table.
    - [CoalesceRace]: the same two operations access by access, a worker and the
      exporter interleaved.
    - [ShmLayout]: the zone sizes, accessors and init callbacks of shm/mod.rs, on
      a byte memory.
    - [CertTable]: cert_table.rs and metric_source/tls_cert.rs, the table of serving
      certificates and its gauges.
    - [Endpoint]: the check of the collector's endpoint in config/mod.rs and the parser of
      transport/hyper_http.rs.
    - [Config]: [MainConfig] of config/mod.rs, its accessors, lookup tables and capacity checks.
    - [ErrorLog]: the writer callback of logs/error_writer.rs and the parser of
      drain/mod.rs.
    - [LogChain]: the insertion into and the walks over nginx's linked list of
      logs in logs/error_writer.rs, on a heap of nodes.
    - [Collect]: [collect_log_records] and [collect_span_records] of drain/mod.rs.
    - [Outcome]: the classification of HTTP and gRPC answers in transport/mod.rs,
      transport/hyper_http.rs and transport/grpc/status_adapter.rs, with the
      [Retry-After] date parser.
    - [Backoff]: drain/backoff.rs, the retry queue of drain/graceful.rs and the
      counters of drain/self_metrics.rs.
    - [Control]: exporter/control_shm.rs, the start-up check of exporter/mod.rs
      and liveness.rs.
    - [Finalize]: [postconfiguration] and the zone registrations of config/mod.rs, and
      [init_module] of lib.rs with the announcement of a successor exporter.
    - [Location]: metric_source/location_conf.rs, settings and their inheritance.
    - [Directives]: config/directives.rs with the command tables of config/mod.rs.
    - [SpanStart]: traces/ctx.rs and metric_source/span_start.rs, the rewrite-phase handler and the
      module's variables.
    - [Process]: the exporter process from fork to exit (exporter/mod.rs, exporter/channel.rs) and
      the process hooks of lib.rs.
    - [Request]: the log-phase handler of metric_source/instrumented.rs.
    - [Aggregate]: the exporter's side of metric_source/instrumented.rs.
    - [Encoder]: encoder/mod.rs, batches as the messages of the [.proto] files.
    - [Conn]: the outgoing connection and the connector of transport/hyper_http.rs.
    - [Bio]: the registry of BIO methods of transport/tls.rs.
    - [Tls]: the rest of transport/tls.rs, and [wrap_tls_io].  An [SSL_*] call is a program of calls
      to the BIO callbacks, which are the code's own.
    - [SslQueue]: the thread's queue of OpenSSL errors, which [Tls] takes to be empty before each call: [openssl_err] and the operations that keep it so.
    - [Transport]: the HTTP transport of transport/hyper_http.rs, the gRPC transport of
      transport/grpc/transport.rs and the start of [export_loop].  A gRPC client is a handle on a connection that belongs to a detached task of the
      event loop ([driver]); when such a task ends is an input.
    - [Smoke]: transport/grpc/smoke.rs and the harness in lib.rs that runs it: a unary export, a bidirectional exchange, and a run against a slow
      server, on the transport's connector.
    - [Drain]: [periodic_tick], the retry pass, the fresh send and the graceful
      drain of drain/mod.rs and drain/graceful.rs, over a [World].
    - [Sources]: the remaining metric sources and [collect_all_sources].
    - [Run]: the loop of [Drain] as step relations, and the class [WorldKeeps] of what a run preserves.
    - [Ledger]: a world that writes down each collection and each send; maps of worlds ([WorldHom])
      that the loop cannot see.
    - [Export]: the [World] of the real exporter: transports with their deadlines, encoder, metric sources and
      settings, with the network and the other processes as inputs.
    - [Peer]: the addresses of transport/hyper_http.rs, from the text of the configuration to the bytes
      given to the kernel.
    - [Registration]: the module's hooks, variables and phase handlers in lib.rs, and the load of a configuration
      through all of them.
    - [System]: workers that write spans and access records while the exporter of [Export] waits; what they promise is the class
      [Workers].
    - [Serve]: the workers of [System] as those that finish requests through the handler of [Request].
    - [Meter]: the same system seen from the metrics: the blocks of the workers and the batches made of them.
    - [Lines]: one worker's error log, what becomes of a line ([ErrorLog], [Coalesce]) and of what a collection takes ([Collect]).
    - [Errors]: the workers of [Serve] that also log error lines, and the exporter that drains them.

    Each definition that translates code names its source file and symbol in
    the comment before it, as [[src/src/...: symbol]].  Process-wide atomics
    are record fields threaded through the operations; a mutable buffer the
    caller passes in is an argument and a result; fallible code returns an
    option or a result type with the source's constructors; a pending future is [None] or
    [Pending].

    ** What the theorems show

    - The whole way (C2-C8, C13, C14): each access record and span of a finished request is dropped and counted by its ring, still in it, or in one batch, and
      the records of a worker stay in order; each batch is settled, given up in the final drain, counted as dropped or queued; what the
      collector settles are the requests of exactly the batches collected; every error line is counted or recorded or refused and counted, and the exported records report each
      template as often as it was logged; the metrics of each batch count exactly the requests finished and the lines logged before it; the counters of the exporter are the collector's answers; a run of any length
      leaks no context and, over HTTP, no session and no connection, and over gRPC every session is that of a connection whose driver still runs.
    - Records through shared memory (C1, C18, C19): the ring is a FIFO
      of byte records under every interleaving of its two sides; every record kind
      survives the trip through bytes exactly, up to the documented truncations,
      and fits the writer's stack buffer.
    - Error logs (C4, C8, C9): C4 and C8 take a call of the writer and the drain of a worker's table and ring as atomic
      with respect to each other; C9 interleaves their accesses: nothing is counted twice even when the drain overlaps a writer, which
      can lose any number of occurrences.
    - The exporter (C10-C12, C34, C39, C40): a retry pass neither loses, duplicates nor reorders; an interval always
      terminates; an exporter that has seen its successor does not touch a ring in any later interval; a crash
      loop is bounded; the process never works as root and always stops when told to.
    - The way to the collector (C15-C17, C29-C33, C38): batches are well formed and
      the requests read back; no batch leaves in clear or unverified against
      the configuration; a request is routed and classified exactly, and goes to the address that is written; connections
      are neither leaked nor closed twice, a gRPC client is used as long as its calls succeed, a waiting operation is woken, a truncated answer is
      never taken for a complete one.
    - Requests and traces (C20-C23, C35-C37): what one finished request leaves behind; the header parser accepts exactly what
      the builder prints; a request has one span or none, contexts propagate; bucket search is
      the OpenTelemetry bucket, concurrent snapshots are consistent in the direction the code promises and exemplars are of the
      current cycle.
    - Configuration (C24-C28): workers never leave their zones, bad configurations are refused exactly, the module is loaded completely or
      starts nothing, an endpoint that passes the check is the one that is used, handlers neither panic nor fail without a message.

    The files hold further theorems on the same components, such as the inheritance of
    location settings, directives that are decided once, the sorted log chain, the ring's calls as a queue, the coalescer over one interval, the error queue of OpenSSL, the smoke test's counts, the bounded retry queue, the processors, the zones as they are
    initialised and kept over a reload, the connector's errors and the wake-ups of a plain connection.

    ** Fuel and bounds

    Loops that are not structural take fuel.  The scans of [stable_core] take
    the buffer length, which bounds the cursor ([scan_end_core],
    [scan_digits_run]); [probe_loop] takes the table's 256 slots and
    [coalesce_sample_once] shows that it never runs out; [insert_walk] takes the chain's length
    ([log_insert_sorted]); [dec_digits] takes 20, the number of digits of the largest [u64];
    [read_groups] takes the eight groups of an IPv6 address; the identifier generator tries as often as the
    code ([MAX_ID_RETRIES]);
    the wake-up loop of [periodic_tick] takes one more than the number of 250 ms
    chunks in the interval, enough by [periodic_tick_total].  [export_iterations] counts the
    intervals of a loop that ends only on a signal; every theorem on it holds for any number of them, and by [iterations_total] it
    always has a result, which is [Running] while no signal has come.  Ring offsets are [u64] that the code lets wrap only after 2^64 bytes;
    theorems on [push] assume the write offset stays below that.  Zone sizes are integers without
    the wrap of [usize]; sums of counters wrap at 64 bits; a double is the quotient it rounds.

    ** Parameters

    Code that is not in the repository is a parameter: nginx's slab-pool header
    size ([data_offset]), allocator, configuration reader and event loop, the generated protobuf decoders ([decode_response],
    [decode_status], [decode_retry_info]), the JSON library's accessors
    ([JsonValue]), hyper's header and URI parsers ([http_lib]), OpenSSL ([OpenSsl], with the laws of its manual in
    [OpenSslLaws]), random numbers, the clock, the signal flags, the
    network and the other processes ([World]).  Inside [Drain] the OTLP encoder
    ([encode]) and the metric collection ([collect_all_sources]) are parameters too,
    because no theorem there looks inside a batch's bytes; [Export] puts in those of [Encoder] and [Sources].  The serialisation that prost
    generates is the class [Prost], with its promise to read what it wrote in [ProstLaws].

    ** Not modelled

    The logging and binding shims (log.rs, shim/), the two adapters of transport/grpc/ that only delegate, and what is compiled for
    tests only (fault injection, the quit-deferral hook, the spinning connector), but for the smoke test.  In [Serve] and [Errors]
    a handler runs as a whole while the exporter waits; [Ring], [Histogram] and [CoalesceRace] interleave single accesses.  [Errors] assumes that lines of two
    severities do not collide in the hash of severity and text, since a collection keeps one count per hash.  The texts of errors are kept only where a theorem reads them.
    Memory-order weakness is not modelled: a step relation interleaves
    single accesses in program order, which is what the release/acquire pairs of
    the code provide for the accesses concerned.
*)
From stdpp Require Export base numbers list option decidable.
From Stdlib Require Export ZArith Lia Zquot.

#[global] Open Scope Z_scope.

(** ** Automation *)

(** Arithmetic with [/] and [mod] by literals. *)
Ltac zdiv := Z.to_euclidean_division_equations; lia.

(** Case analysis on the first [if]/[match] scrutinee of the goal, keeping
    its equation, and turning boolean comparisons into propositions. *)
Ltac zify_bool :=
  repeat match goal with
  | H : (_ <? _) = true |- _ => apply Z.ltb_lt in H
  | H : (_ <? _) = false |- _ => apply Z.ltb_ge in H
  | H : (_ <=? _) = true |- _ => apply Z.leb_le in H
  | H : (_ <=? _) = false |- _ => apply Z.leb_gt in H
  | H : (_ =? _) = true |- _ => apply Z.eqb_eq in H
  | H : (_ =? _) = false |- _ => apply Z.eqb_neq in H
  | H : (_ && _)%bool = true |- _ => apply andb_prop in H; destruct H
  | H : (_ || _)%bool = false |- _ => apply orb_false_elim in H; destruct H
  | H : negb _ = true |- _ => apply negb_true_iff in H
  | H : negb _ = false |- _ => apply negb_false_iff in H
  end.

Ltac case_if :=
  match goal with
  | |- context [if ?b then _ else _] =>
      match b with
      | context [if _ then _ else _] => fail 1
      | _ => let E := fresh "E" in destruct b eqn:E
      end
  end; zify_bool.

Ltac case_ifs := repeat (case_if; try (exfalso; lia)).

Create HintDb otel discriminated.

(** ** Machine integers

    A [w]-bit unsigned integer is a [Z] in [0, 2^w); a conversion [as uW] and
    every release-mode operation wraps with [wrap]. *)
Definition wrap (w z : Z) : Z := z mod 2 ^ w.
Abbreviation u8 := (wrap 8).
Abbreviation u16 := (wrap 16).
Abbreviation u32 := (wrap 32).
Abbreviation u64 := (wrap 64).

Definition u32_max : Z := 4294967295.
Definition u64_max : Z := 18446744073709551615.
Definition i64_max : Z := 9223372036854775807.

Declare Scope otel_scope.
Delimit Scope otel_scope with otel.
Notation "a +w64 b" := (wrap 64 (a + b)) (at level 50, left associativity) : otel_scope.
Notation "a -w64 b" := (wrap 64 (a - b)) (at level 50, left associativity) : otel_scope.
Notation "a +w32 b" := (wrap 32 (a + b)) (at level 50, left associativity) : otel_scope.
#[global] Open Scope otel_scope.

(** [saturating_sub], [saturating_add] and [saturating_mul] on [u64]. *)
Definition sat_sub (a b : Z) : Z := Z.max 0 (a - b).
Definition sat_add64 (a b : Z) : Z := Z.min u64_max (a + b).
Definition sat_mul64 (a b : Z) : Z := Z.min u64_max (a * b).
Definition sat_add32 (a b : Z) : Z := Z.min u32_max (a + b).

(** [checked_mul]/[checked_add] on [u64]. *)
Definition checked64 (z : Z) : option Z :=
  if (0 <=? z) && (z <=? u64_max) then Some z else None.

Definition in_u (w z : Z) : Prop := 0 <= z < 2 ^ w.

Lemma wrap_small w z : in_u w z -> wrap w z = z.
Proof. unfold in_u, wrap. apply Z.mod_small. Qed.

Lemma wrap_range w z : 0 <= w -> in_u w (wrap w z).
Proof. intros; unfold in_u, wrap; apply Z.mod_pos_bound; lia. Qed.

Lemma wrap_wrap w z : wrap w (wrap w z) = wrap w z.
Proof. unfold wrap. apply Zmod_mod. Qed.

Lemma u64_small z : 0 <= z <= u64_max -> u64 z = z.
Proof. intros; apply wrap_small; unfold in_u, u64_max in *; lia. Qed.

Lemma u32_small z : 0 <= z <= u32_max -> u32 z = z.
Proof. intros; apply wrap_small; unfold in_u, u32_max in *; lia. Qed.

Lemma u16_small z : 0 <= z < 65536 -> u16 z = z.
Proof. intros; apply wrap_small; unfold in_u; lia. Qed.

Lemma u64_range z : 0 <= u64 z < 2 ^ 64.
Proof. apply wrap_range; lia. Qed.

(** ** Bytes

    A byte is a [Z] in [0, 256); a byte string is a list of them. *)
Definition is_byte (b : Z) : Prop := 0 <= b < 256.
Definition bytes_ok (l : list Z) : Prop := Forall is_byte l.
Definition is_byteb (b : Z) : bool := (0 <=? b) && (b <? 256).

Definition blen (l : list Z) : Z := Z.of_nat (length l).

Lemma blen_nonneg l : 0 <= blen l.
Proof. unfold blen; lia. Qed.
#[export] Hint Resolve blen_nonneg : otel.

Lemma blen_app l k : blen (l ++ k) = blen l + blen k.
Proof. unfold blen; rewrite length_app; lia. Qed.

Lemma blen_cons x l : blen (x :: l) = 1 + blen l.
Proof. unfold blen; simpl; lia. Qed.

Lemma blen_nil : blen [] = 0.
Proof. reflexivity. Qed.

Lemma blen_take n l : 0 <= n -> blen (take (Z.to_nat n) l) = Z.min n (blen l).
Proof. unfold blen; intros; rewrite length_take; lia. Qed.

Lemma blen_drop n l : 0 <= n -> blen (drop (Z.to_nat n) l) = Z.max 0 (blen l - n).
Proof. unfold blen; intros; rewrite length_drop; lia. Qed.

Lemma bytes_ok_app l k : bytes_ok (l ++ k) <-> bytes_ok l /\ bytes_ok k.
Proof. apply Forall_app. Qed.

Lemma bytes_ok_take n l : bytes_ok l -> bytes_ok (take n l).
Proof. apply Forall_take. Qed.

Lemma bytes_ok_drop n l : bytes_ok l -> bytes_ok (drop n l).
Proof. apply Forall_drop. Qed.
#[export] Hint Resolve bytes_ok_take bytes_ok_drop : otel.

Lemma bytes_ok_bool l : forallb is_byteb l = true -> bytes_ok l.
Proof.
  induction l as [|b l IH]; simpl; intros H; constructor.
  - unfold is_byteb, is_byte in *; zify_bool; lia.
  - apply IH; zify_bool; assumption.
Qed.

(** A decidable property of every byte, by evaluation. *)
Lemma byte_forall (P : Z -> bool) :
  forallb (fun n => P (Z.of_nat n)) (seq 0 256) = true -> forall b, is_byte b -> P b = true.
Proof.
  intros H b Hb. unfold is_byte in Hb. rewrite forallb_forall in H.
  rewrite <- (Z2Nat.id b) by lia. apply H, in_seq. lia.
Qed.

(** *** Big- and little-endian encodings ([to_be_bytes] and friends) *)
Fixpoint be_bytes (n : nat) (z : Z) : list Z :=
  match n with
  | O => []
  | S n' => (z / 256 ^ Z.of_nat n') mod 256 :: be_bytes n' z
  end.

Definition be_val (l : list Z) : Z := foldl (fun acc b => acc * 256 + b) 0 l.

Definition le_bytes (n : nat) (z : Z) : list Z := reverse (be_bytes n z).
Definition le_val (l : list Z) : Z := be_val (reverse l).

Lemma length_be_bytes n z : length (be_bytes n z) = n.
Proof. induction n; simpl; congruence. Qed.

Lemma blen_be_bytes n z : blen (be_bytes n z) = Z.of_nat n.
Proof. unfold blen; rewrite length_be_bytes; reflexivity. Qed.

Lemma be_bytes_ok n z : bytes_ok (be_bytes n z).
Proof.
  induction n; simpl; constructor; auto.
  apply Z.mod_pos_bound; lia.
Qed.
#[export] Hint Resolve be_bytes_ok : otel.

Lemma foldl_be_acc l acc :
  foldl (fun acc b => acc * 256 + b) acc l = acc * 256 ^ blen l + be_val l.
Proof.
  unfold be_val. revert acc. induction l as [|b l IH]; intros acc; cbn [foldl].
  - rewrite blen_nil. lia.
  - rewrite IH, (IH (0 * 256 + b)), blen_cons, Z.pow_add_r by (auto using blen_nonneg; lia). lia.
Qed.

Lemma be_val_cons b l : be_val (b :: l) = b * 256 ^ blen l + be_val l.
Proof. unfold be_val at 1; simpl. apply foldl_be_acc. Qed.

Lemma be_val_app l k : be_val (l ++ k) = be_val l * 256 ^ blen k + be_val k.
Proof. unfold be_val at 1. rewrite foldl_app. apply foldl_be_acc. Qed.

Lemma be_val_range l : bytes_ok l -> 0 <= be_val l < 256 ^ blen l.
Proof.
  induction 1 as [|b l Hb Hl IH].
  - rewrite blen_nil; unfold be_val; simpl; lia.
  - rewrite be_val_cons, blen_cons, Z.pow_add_r by (auto using blen_nonneg; lia).
    unfold is_byte in Hb. nia.
Qed.

Lemma be_val_be_bytes n z : be_val (be_bytes n z) = z mod 256 ^ Z.of_nat n.
Proof.
  induction n as [|n IH]; simpl be_bytes.
  - rewrite Z.mod_1_r; reflexivity.
  - rewrite be_val_cons, IH, blen_be_bytes.
    replace (Z.of_nat (S n)) with (Z.of_nat n + 1) by lia.
    rewrite Z.pow_add_r, Z.pow_1_r by lia.
    rewrite Z.rem_mul_r by lia. lia.
Qed.

Lemma be_val_be_bytes_small n z :
  0 <= z < 256 ^ Z.of_nat n -> be_val (be_bytes n z) = z.
Proof. intros; rewrite be_val_be_bytes; apply Z.mod_small; assumption. Qed.

Lemma be_bytes_mod n z : be_bytes n (z mod 256 ^ Z.of_nat n) = be_bytes n z.
Proof.
  assert (H : forall k, (k <= n)%nat ->
              be_bytes k (z mod 256 ^ Z.of_nat n) = be_bytes k z).
  { induction k as [|k IH]; intros Hk; simpl; [reflexivity|].
    rewrite IH by lia. f_equal.
    replace (Z.of_nat n) with (Z.of_nat k + (1 + Z.of_nat (n - S k))) by lia.
    rewrite !Z.pow_add_r, Z.pow_1_r by lia.
    rewrite Z.rem_mul_r by lia.
    rewrite (Z.mul_comm (256 ^ Z.of_nat k)), Z.div_add by lia.
    rewrite Z.div_small by (apply Z.mod_pos_bound; lia).
    rewrite Z.add_0_l, Z.rem_mul_r by lia.
    rewrite Z.mul_comm, Z.mod_add by lia. apply Zmod_mod. }
  apply H; lia.
Qed.

Lemma be_bytes_be_val l : bytes_ok l -> be_bytes (length l) (be_val l) = l.
Proof.
  induction 1 as [|b l Hb Hl IH]; simpl; [reflexivity|].
  rewrite be_val_cons. fold (blen l).
  pose proof (be_val_range l Hl) as Hr.
  assert (H0 : 0 < 256 ^ blen l) by (apply Z.pow_pos_nonneg; auto using blen_nonneg; lia).
  f_equal.
  - rewrite Z.add_comm, Z.div_add, Z.div_small by lia.
    rewrite Z.add_0_l. apply Z.mod_small; exact Hb.
  - rewrite <- (be_bytes_mod (length l)). fold (blen l).
    rewrite Z.add_comm, Z.mod_add, Z.mod_small by lia. exact IH.
Qed.

Lemma length_le_bytes n z : length (le_bytes n z) = n.
Proof. unfold le_bytes; rewrite length_reverse; apply length_be_bytes. Qed.

Lemma le_val_le_bytes_small n z :
  0 <= z < 256 ^ Z.of_nat n -> le_val (le_bytes n z) = z.
Proof.
  intros; unfold le_val, le_bytes; rewrite reverse_involutive.
  apply be_val_be_bytes_small; assumption.
Qed.

#[global] Arguments be_bytes : simpl never.
#[global] Arguments be_val : simpl never.

(** ** Slices

    [slice l a b] is [&l[a..b]]; [sub l pos n] is [&l[pos..pos+n]].  Every use
    is behind the bounds check of the source. *)
Definition sub (l : list Z) (pos n : Z) : list Z :=
  take (Z.to_nat n) (drop (Z.to_nat pos) l).
Definition slice (l : list Z) (a b : Z) : list Z := sub l a (b - a).

(** [l[i]] with the caller's bounds check; [0] outside. *)
Definition byte_at (l : list Z) (i : Z) : Z := nth (Z.to_nat i) l 0.

Lemma sub_app_r l k pos n :
  blen l <= pos -> sub (l ++ k) pos n = sub k (pos - blen l) n.
Proof.
  unfold sub, blen; intros H. rewrite drop_app_ge by lia. f_equal. f_equal. lia.
Qed.

Lemma sub_app_exact l k n : blen l = n -> sub (l ++ k) 0 n = l.
Proof.
  unfold sub, blen; intros <-. simpl. rewrite drop_0. apply take_app_length'. lia.
Qed.

Lemma blen_sub l pos n :
  0 <= pos -> 0 <= n -> pos + n <= blen l -> blen (sub l pos n) = n.
Proof.
  unfold sub, blen; intros. rewrite length_take, length_drop. lia.
Qed.

Lemma bytes_ok_sub l pos n : bytes_ok l -> bytes_ok (sub l pos n).
Proof. intros; apply bytes_ok_take, bytes_ok_drop; assumption. Qed.
#[export] Hint Resolve bytes_ok_sub : otel.

Lemma byte_at_app_r l k i :
  blen l <= i -> byte_at (l ++ k) i = byte_at k (i - blen l).
Proof.
  unfold byte_at, blen; intros. rewrite app_nth2 by lia. f_equal. lia.
Qed.

Lemma byte_at_range l i : bytes_ok l -> is_byte (byte_at l i).
Proof.
  intros H. unfold byte_at.
  destruct (Nat.lt_ge_cases (Z.to_nat i) (length l)) as [Hl|Hl].
  - eapply (proj1 (List.Forall_forall _ _) H), nth_In; assumption.
  - rewrite nth_overflow by lia. unfold is_byte; lia.
Qed.

(** ** Cursors

    The parsers of the program advance an index [pos] over a buffer.  [cursor
    buf pos rest]: [pos] is in range and [rest] is what is left from there. *)
Definition cursor (buf : list Z) (pos : Z) (rest : list Z) : Prop :=
  0 <= pos <= blen buf /\ drop (Z.to_nat pos) buf = rest.

Lemma cursor_start buf : cursor buf 0 buf.
Proof. split; [pose proof (blen_nonneg buf); lia|reflexivity]. Qed.

Lemma cursor_len buf pos rest : cursor buf pos rest -> blen buf = pos + blen rest.
Proof. intros [H <-]. unfold blen in *. rewrite length_drop. lia. Qed.

Lemma cursor_next buf pos f m : cursor buf pos (f ++ m) -> cursor buf (pos + blen f) m.
Proof.
  intros Hc. pose proof (cursor_len _ _ _ Hc) as Hl. rewrite blen_app in Hl.
  pose proof (blen_nonneg f). pose proof (blen_nonneg m).
  destruct Hc as [Hp E]. split; [lia|].
  replace (Z.to_nat (pos + blen f)) with (Z.to_nat pos + length f)%nat by (unfold blen; lia).
  rewrite <- drop_drop, E. apply drop_app_length.
Qed.

Lemma cursor_sub buf pos f m : cursor buf pos (f ++ m) -> sub buf pos (blen f) = f.
Proof.
  intros [H E]. unfold sub. rewrite E. unfold blen. rewrite Nat2Z.id. apply take_app_length.
Qed.

Lemma cursor_byte buf pos b m :
  cursor buf pos (b :: m) -> byte_at buf pos = b /\ cursor buf (pos + 1) m.
Proof.
  intros Hc. split; [|apply (cursor_next buf pos [b] m Hc)].
  destruct Hc as [H E]. unfold byte_at.
  rewrite <- (Nat.add_0_r (Z.to_nat pos)), <- nth_skipn.
  change (skipn (Z.to_nat pos) buf) with (drop (Z.to_nat pos) buf). rewrite E. reflexivity.
Qed.

(** Consecutive fixed-width and variable-width reads. *)
Lemma cursor_be buf pos n z m :
  cursor buf pos (be_bytes n z ++ m) -> 0 <= z < 256 ^ Z.of_nat n ->
  be_val (sub buf pos (Z.of_nat n)) = z /\ cursor buf (pos + Z.of_nat n) m /\
  pos + Z.of_nat n + blen m = blen buf.
Proof.
  intros Hc Hz. pose proof (cursor_sub _ _ _ _ Hc) as Hs. pose proof (cursor_next _ _ _ _ Hc) as Hn.
  rewrite blen_be_bytes in *. rewrite Hs. pose proof (cursor_len _ _ _ Hn).
  split; [apply be_val_be_bytes_small; assumption|split; [assumption|lia]].
Qed.

(** ** Counting and sums over lists *)
Definition zsum (l : list Z) : Z := foldr Z.add 0 l.

Lemma zsum_app l k : zsum (l ++ k) = zsum l + zsum k.
Proof. induction l; simpl; lia. Qed.

Lemma zsum_nonneg l : Forall (fun z => 0 <= z) l -> 0 <= zsum l.
Proof. induction 1; simpl; lia. Qed.

Lemma zsum_ge_In l x : Forall (fun z => 0 <= z) l -> In x l -> x <= zsum l.
Proof.
  induction 1 as [|z l Hz HF IH]; simpl; [contradiction|].
  pose proof (zsum_nonneg _ HF). intros [<-|Hin]; [lia|]. specialize (IH Hin). lia.
Qed.

Lemma zsum_replicate n z : zsum (replicate n z) = Z.of_nat n * z.
Proof. induction n; simpl zsum; lia. Qed.

Lemma alter_ge {A} (f : A -> A) (l : list A) i : (length l <= i)%nat -> alter f i l = l.
Proof.
  intros. apply list_eq. intros j. destruct (decide (j = i)) as [->|].
  - rewrite list_lookup_alter_eq, lookup_ge_None_2 by lia. reflexivity.
  - rewrite list_lookup_alter_ne by lia. reflexivity.
Qed.

Lemma zsum_alter (l : list Z) i f x :
  l !! i = Some x -> zsum (alter f i l) = zsum l + (f x - x).
Proof.
  revert i; induction l as [|y l IH]; intros [|i] H; simplify_eq/=; [lia|].
  specialize (IH i H). unfold alter, list_alter in *. lia.
Qed.

(** [partition_point p l]: the number of leading elements that satisfy [p]
    (the slice method's contract on a slice partitioned by [p], which every
    ascending table of the program is). *)
Fixpoint partition_point (p : Z -> bool) (l : list Z) : nat :=
  match l with
  | [] => O
  | x :: l' => if p x then S (partition_point p l') else O
  end.

Lemma partition_point_le p l : (partition_point p l <= length l)%nat.
Proof. induction l as [|x l IH]; simpl; [lia|destruct (p x); lia]. Qed.

Lemma partition_point_before p l i x :
  (i < partition_point p l)%nat -> l !! i = Some x -> p x = true.
Proof.
  revert i; induction l as [|y l IH]; intros i Hi Hx; simpl in *; [lia|].
  destruct (p y) eqn:E; [|lia].
  destruct i as [|i]; simplify_eq/=; [assumption|apply (IH i); [lia|assumption]].
Qed.

Lemma partition_point_at p l x :
  l !! partition_point p l = Some x -> p x = false.
Proof.
  induction l as [|y l IH]; simpl; [discriminate|].
  destruct (p y) eqn:E; simpl; [exact IH|congruence].
Qed.

(** ** Strict ascending order of a table, as a decision procedure *)
Fixpoint ascb (l : list Z) : bool :=
  match l with
  | [] => true
  | x :: l' => match l' with [] => true | y :: _ => (x <? y) && ascb l' end
  end.

Lemma ascb_tail x l : ascb (x :: l) = true -> ascb l = true.
Proof. destruct l; simpl; [reflexivity|intros; zify_bool; assumption]. Qed.

Lemma ascb_lt l : ascb l = true ->
  forall i j x y, (i < j)%nat -> l !! i = Some x -> l !! j = Some y -> x < y.
Proof.
  induction l as [|a l IH]; intros Ha i j x y Hij Hx Hy; [discriminate|].
  pose proof (ascb_tail _ _ Ha) as Ht.
  destruct j as [|j]; [lia|]. destruct i as [|i]; simplify_eq/=.
  - destruct l as [|b l]; [discriminate|]. zify_bool.
    destruct j as [|j]; simplify_eq/=; [lia|].
    assert (b < y) by (apply (IH Ht 0%nat (S j)); [lia|reflexivity|assumption]). lia.
  - apply (IH Ht i j); [lia|assumption|assumption].
Qed.
