(* ===== verification/Ring.v ===== *)
(** * The per-worker SPSC byte ring (src/src/logs/ring.rs)

    A ring is a 32-byte header in shared memory followed by [cap] payload
    bytes.  The model keeps the header fields as [u64] values and the payload
    as the list of its bytes; [push] and [pop_into] are translated with the
    split copies of [write_wrap]/[read_wrap].  The second half of the file
    refines the ring to a FIFO queue of records and proves the refinement for
    every interleaving of one producer and one consumer, whose shared-memory
    accesses are separate steps. *)
From stdpp Require Import relations.
From S2P Require Import Prelude.

(** ** The code *)

(** Default capacity. [src/src/logs/ring.rs: DEFAULT_LOG_RING_CAP] *)
Definition DEFAULT_LOG_RING_CAP : Z := 512 * 1024.

(** The header fields with the payload that follows it in the zone.
    [src/src/logs/ring.rs: WorkerSignalRingHeader] *)
Record ring := mk_ring {
  write_offset : Z;
  read_offset : Z;
  dropped : Z;
  cap : Z;
  payload : list Z
}.

(** Four [AtomicU64]s. [src/src/logs/ring.rs: RING_HEADER_SIZE] *)
Definition RING_HEADER_SIZE : Z := 4 * 8.

(** [src/src/logs/ring.rs: ring_size_bytes] *)
Definition ring_size_bytes (c : Z) : Z := RING_HEADER_SIZE + c.

(** [copy_nonoverlapping(data, base + start, data.len())]. *)
Definition copy_at (base : list Z) (start : Z) (data : list Z) : list Z :=
  list_inserts (Z.to_nat start) data base.

(** [src/src/logs/ring.rs: write_wrap] *)
Definition write_wrap (base : list Z) (c offset : Z) (data : list Z) : list Z :=
  if blen data =? 0 then base else
  let start := offset mod c in
  let end_space := c - start in
  if blen data <=? end_space then copy_at base start data
  else copy_at (copy_at base start (take (Z.to_nat end_space) data))
         0 (drop (Z.to_nat end_space) data).

(** The bytes stored into a destination of length [n].
    [src/src/logs/ring.rs: read_wrap] *)
Definition read_wrap (base : list Z) (c offset n : Z) : list Z :=
  if n =? 0 then [] else
  let start := offset mod c in
  let end_space := c - start in
  if n <=? end_space then sub base start n
  else sub base start end_space ++ sub base 0 (n - end_space).

Definition set_dropped (r : ring) (d : Z) : ring :=
  mk_ring (write_offset r) (read_offset r) d (cap r) (payload r).
Definition set_payload (r : ring) (p : list Z) : ring :=
  mk_ring (write_offset r) (read_offset r) (dropped r) (cap r) p.
Definition set_write (r : ring) (w : Z) : ring :=
  mk_ring w (read_offset r) (dropped r) (cap r) (payload r).
Definition set_read (r : ring) (o : Z) : ring :=
  mk_ring (write_offset r) o (dropped r) (cap r) (payload r).

(** The bytes left by the two [write_wrap] calls of [push] at [write_off].
    [src/src/logs/ring.rs: 141-147 WorkerSignalRing::push] *)
Definition write_record (p : list Z) (c write_off : Z) (record : list Z) : list Z :=
  write_wrap (write_wrap p c write_off (be_bytes 4 (u32 (blen record))))
    c (write_off +w64 4) record.

(** [src/src/logs/ring.rs: WorkerSignalRing::push] *)
Definition push (r : ring) (record : list Z) : bool * ring :=
  if cap r =? 0 then (false, r) else
  let total := 4 + blen record in
  let write_off := write_offset r in
  let used := write_off -w64 read_offset r in
  if cap r <? used +w64 total
  then (false, set_dropped r (dropped r +w64 1))
  else (true, set_write (set_payload r (write_record (payload r) (cap r) write_off record))
                (write_off +w64 total)).

(** [src/src/logs/ring.rs: WorkerSignalRing::pop_into] *)
Definition pop_into (r : ring) (out : list Z) : bool * ring * list Z :=
  if cap r =? 0 then (false, r, out) else
  let read_off := read_offset r in
  let available := write_offset r -w64 read_off in
  if available <? 4 then (false, r, out) else
  let record_len := be_val (read_wrap (payload r) (cap r) read_off 4) in
  if available <? 4 + record_len then (false, r, out) else
  (true, set_read r (read_off +w64 (4 + record_len)),
   out ++ read_wrap (payload r) (cap r) (read_off +w64 4) record_len).

(** [src/src/logs/ring.rs: WorkerSignalRing::drop_count] *)
Definition drop_count (r : ring) : Z := dropped r.

(** A ring as zone init leaves it: zeroed header and payload, [cap] stored. *)
Definition fresh_ring (c : Z) : ring := mk_ring 0 0 0 c (replicate (Z.to_nat c) 0).

(** ** Logical view of the payload

    Offsets grow without bound; offset [k] lives at payload index [k mod cap]. *)
Definition region (p : list Z) (c off n : Z) : list Z :=
  map (fun i => byte_at p ((off + Z.of_nat i) mod c)) (seq 0 (Z.to_nat n)).

Lemma blen_region p c off n : 0 <= n -> blen (region p c off n) = n.
Proof. unfold blen, region; intros. rewrite length_map, length_seq. lia. Qed.

Lemma region_app p c off n m :
  0 <= n -> 0 <= m ->
  region p c off (n + m) = region p c off n ++ region p c (off + n) m.
Proof.
  intros Hn Hm. unfold region.
  rewrite Z2Nat.inj_add, seq_app, map_app by lia. f_equal.
  rewrite Nat.add_comm, <- fmap_add_seq. change fmap with (@map nat nat).
  rewrite map_map.
  apply map_ext; intros i. do 2 f_equal. lia.
Qed.

Lemma region_ext p p' c off n :
  (forall k, off <= k < off + n -> byte_at p (k mod c) = byte_at p' (k mod c)) ->
  region p c off n = region p' c off n.
Proof.
  intros H. apply map_ext_in. intros i Hi%in_seq. apply H. lia.
Qed.

Lemma map_byte_at_seq (l : list Z) (s n : nat) :
  (s + n <= length l)%nat ->
  map (fun i => byte_at l (Z.of_nat s + Z.of_nat i)) (seq 0 n) = take n (drop s l).
Proof.
  revert s; induction n as [|n IH]; intros s H; simpl; [reflexivity|].
  rewrite <- seq_shift, map_map.
  destruct (drop s l) as [|x d] eqn:E.
  { apply (f_equal length) in E. rewrite length_drop in E. simpl in E. lia. }
  assert (Hx : nth s l 0 = x).
  { rewrite <- (Nat.add_0_r s), <- nth_skipn. change (skipn s l) with (drop s l).
    rewrite E. reflexivity. }
  cbn [firstn]. f_equal.
  - unfold byte_at. rewrite <- Hx, Z.add_0_r, Nat2Z.id. reflexivity.
  - replace d with (drop (S s) l).
    + rewrite <- IH by lia. apply map_ext; intros i.
      replace (Z.of_nat s + Z.of_nat (S i)) with (Z.of_nat (S s) + Z.of_nat i) by lia. reflexivity.
    + rewrite <- Nat.add_1_r, <- drop_drop, E. reflexivity.
Qed.

Lemma map_byte_at_sub (l : list Z) (s n : Z) :
  0 <= s -> 0 <= n -> s + n <= blen l ->
  map (fun i => byte_at l (s + Z.of_nat i)) (seq 0 (Z.to_nat n)) = sub l s n.
Proof.
  unfold blen; intros. unfold sub. rewrite <- map_byte_at_seq by lia.
  apply map_ext; intros; f_equal; lia.
Qed.

(** Reducing an offset that is at most one lap ahead of [off]. *)
Lemma mod_ahead c off d :
  0 < c -> 0 <= d < c ->
  (off + d) mod c =
    if d <? c - off mod c then off mod c + d else off mod c + d - c.
Proof.
  intros Hc Hd. pose proof (Z.mod_pos_bound off c Hc).
  rewrite <- Z.add_mod_idemp_l by lia.
  case_if; [apply Z.mod_small; lia|].
  rewrite <- (Z.mod_small (off mod c + d - c) c) by lia.
  rewrite <- (Z.mod_add (off mod c + d - c) 1 c) by lia. f_equal. lia.
Qed.

Lemma region_no_wrap p c off n :
  0 < c -> blen p = c -> 0 <= n <= c - off mod c ->
  region p c off n = sub p (off mod c) n.
Proof.
  intros Hc Hp Hn. pose proof (Z.mod_pos_bound off c Hc).
  rewrite <- map_byte_at_sub by lia. apply map_ext_in. intros i Hi%in_seq.
  f_equal. rewrite mod_ahead by lia. case_ifs. reflexivity.
Qed.

(** [read_wrap] reads the logical region, whether or not it wraps. *)
Lemma read_wrap_region p c off n :
  0 < c -> blen p = c -> 0 <= n <= c -> read_wrap p c off n = region p c off n.
Proof.
  intros Hc Hp Hn. pose proof (Z.mod_pos_bound off c Hc).
  unfold read_wrap. case_ifs.
  - subst; reflexivity.
  - symmetry; apply region_no_wrap; lia.
  - set (e := c - off mod c) in *.
    replace n with (e + (n - e)) at 2 by lia.
    rewrite region_app by lia.
    assert (H0 : (off + e) mod c = 0).
    { unfold e. rewrite (Z.div_mod off c) at 1 by lia.
      replace (c * (off / c) + off mod c + (c - off mod c)) with (0 + (off / c + 1) * c) by lia.
      rewrite Z.mod_add by lia. apply Z.mod_0_l. lia. }
    f_equal; [symmetry; apply region_no_wrap; lia|].
    rewrite region_no_wrap by lia. rewrite H0. reflexivity.
Qed.

Lemma blen_copy_at b s d : blen (copy_at b s d) = blen b.
Proof. unfold blen, copy_at. rewrite length_inserts. reflexivity. Qed.

Lemma byte_at_copy_at b s d j :
  0 <= s -> s + blen d <= blen b -> 0 <= j ->
  byte_at (copy_at b s d) j =
    if (s <=? j) && (j <? s + blen d) then byte_at d (j - s) else byte_at b j.
Proof.
  unfold byte_at, copy_at, blen. intros Hs Hb Hj.
  rewrite !nth_lookup. case_if.
  - rewrite list_lookup_inserts by lia. do 2 f_equal. lia.
  - destruct (Z.lt_ge_cases j s).
    + rewrite list_lookup_inserts_lt by lia. reflexivity.
    + rewrite list_lookup_inserts_ge; [reflexivity|].
      apply andb_false_elim in E as [E|E]; zify_bool; lia.
Qed.

Lemma byte_at_take l n j : 0 <= j < n -> byte_at (take (Z.to_nat n) l) j = byte_at l j.
Proof. intros. unfold byte_at. rewrite !nth_lookup, lookup_take_lt by lia. reflexivity. Qed.

Lemma byte_at_drop l n j :
  0 <= n -> 0 <= j -> byte_at (drop (Z.to_nat n) l) j = byte_at l (n + j).
Proof.
  intros. unfold byte_at. rewrite !nth_lookup, lookup_drop. do 2 f_equal. lia.
Qed.

Lemma blen_write_wrap p c off d : blen (write_wrap p c off d) = blen p.
Proof. unfold write_wrap. case_ifs; rewrite ?blen_copy_at; reflexivity. Qed.

(** [write_wrap] writes exactly the logical region [off, off + len): every
    other offset of the lap that starts at [off] keeps its byte. *)
Lemma byte_at_write_wrap p c off d k :
  0 < c -> blen p = c -> blen d <= c -> off <= k < off + c ->
  byte_at (write_wrap p c off d) (k mod c) =
    if k - off <? blen d then byte_at d (k - off) else byte_at p (k mod c).
Proof.
  intros Hc Hp Hd Hk. pose proof (Z.mod_pos_bound off c Hc) as Hm.
  pose proof (blen_nonneg d).
  replace k with (off + (k - off)) at 1 4 by lia.
  rewrite (mod_ahead c off (k - off)) by lia.
  set (e := c - off mod c) in *. unfold write_wrap; fold e.
  destruct (blen d =? 0) eqn:E0; zify_bool.
  { case_ifs; reflexivity. }
  destruct (blen d <=? e) eqn:E1; zify_bool.
  { case_ifs; rewrite byte_at_copy_at by lia;
      repeat case_if; try (exfalso; lia); try reflexivity; f_equal; lia. }
  rewrite !byte_at_copy_at; rewrite ?blen_copy_at, ?blen_take, ?blen_drop by lia;
    try (case_ifs; lia).
  case_ifs; rewrite ?byte_at_take, ?byte_at_drop by lia; f_equal; lia.
Qed.

Lemma region_write_same p c off d :
  0 < c -> blen p = c -> blen d <= c ->
  region (write_wrap p c off d) c off (blen d) = d.
Proof.
  intros Hc Hp Hd. pose proof (blen_nonneg d).
  transitivity (map (fun i => byte_at d (0 + Z.of_nat i)) (seq 0 (Z.to_nat (blen d)))).
  - apply map_ext_in. intros i Hi%in_seq.
    rewrite byte_at_write_wrap by lia. case_ifs. f_equal. lia.
  - rewrite map_byte_at_sub by lia. unfold sub, blen. rewrite Nat2Z.id.
    simpl. rewrite drop_0. apply firstn_all.
Qed.

Lemma region_write_other p c off d off' n :
  0 < c -> blen p = c -> blen d <= c ->
  off' <= off -> off' + n <= off -> off + blen d <= off' + c ->
  region (write_wrap p c off d) c off' n = region p c off' n.
Proof.
  intros Hc Hp Hd H1 H2 H3. pose proof (blen_nonneg d). apply region_ext. intros k Hk.
  replace (k mod c) with ((k + c) mod c)
    by (rewrite <- (Z.mod_add k 1 c) by lia; f_equal; lia).
  rewrite byte_at_write_wrap by lia. case_ifs. reflexivity.
Qed.

(** ** Specification: a bounded FIFO queue of records *)

Definition enc_record (rec : list Z) : list Z := be_bytes 4 (blen rec) ++ rec.
Definition enc (q : list (list Z)) : list Z := concat (map enc_record q).

Lemma blen_enc_record rec : blen (enc_record rec) = 4 + blen rec.
Proof. unfold enc_record. rewrite blen_app, blen_be_bytes. lia. Qed.

Lemma enc_app q q' : enc (q ++ q') = enc q ++ enc q'.
Proof. unfold enc. rewrite map_app, concat_app. reflexivity. Qed.

Lemma enc_cons rec q : enc (rec :: q) = enc_record rec ++ enc q.
Proof. reflexivity. Qed.

(** The ring [r] holds the queue [q]: the live bytes are the encoding of [q].
    Offsets stay below [2^64], the horizon of the monotone counters. *)
Record ring_ok (r : ring) (q : list (list Z)) : Prop := {
  ok_cap : 0 < cap r <= u32_max;
  ok_len : blen (payload r) = cap r;
  ok_off : 0 <= read_offset r <= write_offset r;
  ok_horizon : write_offset r <= u64_max;
  ok_live : region (payload r) (cap r) (read_offset r)
              (write_offset r - read_offset r) = enc q;
  ok_used : write_offset r - read_offset r <= cap r
}.

Lemma ring_ok_blen r q :
  ring_ok r q -> blen (enc q) = write_offset r - read_offset r.
Proof. intros [? ? ? ? E ?]. rewrite <- E. apply blen_region. lia. Qed.

Lemma ring_used r q :
  ring_ok r q -> write_offset r -w64 read_offset r = write_offset r - read_offset r.
Proof. intros []. apply u64_small. lia. Qed.

Lemma fresh_ring_ok c : 0 < c <= u32_max -> ring_ok (fresh_ring c) [].
Proof.
  intros Hc. split; simpl; try (unfold u64_max; lia); try reflexivity.
  unfold blen. rewrite length_replicate. lia.
Qed.

(** The bytes of a record written by [push] at the write offset, and the
    bytes it leaves alone. *)
Section write_record.
Context (p : list Z) (c w : Z) (rec : list Z).
Hypothesis Hc : 0 < c <= u32_max.
Hypothesis Hp : blen p = c.
Hypothesis Hw : 0 <= w.
Hypothesis Hfit : 4 + blen rec <= c.
Hypothesis Hhor : w + (4 + blen rec) <= u64_max.

Lemma prefix_u32 : be_bytes 4 (u32 (blen rec)) = be_bytes 4 (blen rec).
Proof. pose proof (blen_nonneg rec). rewrite u32_small by lia. reflexivity. Qed.

Lemma region_write_record :
  region (write_record p c w rec) c w (4 + blen rec) = enc_record rec.
Proof.
  pose proof (blen_nonneg rec). unfold write_record, enc_record.
  rewrite prefix_u32, u64_small by lia.
  rewrite region_app by lia. f_equal.
  - rewrite region_write_other by (rewrite ?blen_write_wrap; lia).
    pose proof (region_write_same p c w (be_bytes 4 (blen rec))) as H4.
    rewrite blen_be_bytes in H4. apply H4; lia.
  - apply region_write_same; rewrite ?blen_write_wrap; lia.
Qed.

Lemma region_write_record_other o n :
  o <= w -> o + n <= w -> w + (4 + blen rec) <= o + c ->
  region (write_record p c w rec) c o n = region p c o n.
Proof.
  intros. pose proof (blen_nonneg rec). unfold write_record.
  rewrite u64_small by lia.
  rewrite !region_write_other; rewrite ?blen_write_wrap, ?blen_be_bytes; lia || reflexivity.
Qed.
End write_record.

(** Publishing a record whose bytes are in place appends it to the queue. *)
Lemma publish_write r q rec p :
  ring_ok r q -> write_offset r + (4 + blen rec) <= u64_max ->
  write_offset r - read_offset r + (4 + blen rec) <= cap r ->
  blen p = cap r ->
  region p (cap r) (read_offset r) (write_offset r - read_offset r)
    = region (payload r) (cap r) (read_offset r) (write_offset r - read_offset r) ->
  region p (cap r) (write_offset r) (4 + blen rec) = enc_record rec ->
  ring_ok (set_write (set_payload r p) (write_offset r + (4 + blen rec))) (q ++ [rec]).
Proof.
  intros [] Hh Hf Hp Hold Hnew. pose proof (blen_nonneg rec).
  split; simpl; try lia.
  replace (write_offset r + (4 + blen rec) - read_offset r)
    with ((write_offset r - read_offset r) + (4 + blen rec)) by lia.
  rewrite region_app, Hold, ok_live0 by lia.
  replace (read_offset r + (write_offset r - read_offset r)) with (write_offset r) by lia.
  rewrite Hnew, enc_app. unfold enc at 3. simpl. rewrite app_nil_r. reflexivity.
Qed.

(** Advancing the read offset over the head record removes it. *)
Lemma publish_read r q rec :
  ring_ok r (rec :: q) ->
  ring_ok (set_read r (read_offset r + (4 + blen rec))) q.
Proof.
  intros Hok. pose proof (ring_ok_blen _ _ Hok) as Hl. destruct Hok.
  rewrite enc_cons, blen_app, blen_enc_record in Hl.
  pose proof (blen_nonneg rec). pose proof (blen_nonneg (enc q)).
  split; simpl; try lia.
  replace (write_offset r - read_offset r)
    with ((4 + blen rec) + (write_offset r - (read_offset r + (4 + blen rec)))) in ok_live0 by lia.
  rewrite region_app, enc_cons in ok_live0 by lia.
  apply app_inj_1 in ok_live0 as [_ E]; [exact E|].
  apply Nat2Z.inj. fold (blen (enc_record rec)).
  rewrite blen_enc_record. apply blen_region. lia.
Qed.

(** The consumer's two reads at the head of the queue. *)
Lemma read_head r q rec :
  ring_ok r (rec :: q) ->
  be_val (read_wrap (payload r) (cap r) (read_offset r) 4) = blen rec /\
  read_wrap (payload r) (cap r) (read_offset r +w64 4) (blen rec) = rec /\
  4 + blen rec <= write_offset r - read_offset r.
Proof.
  intros Hok. pose proof (ring_ok_blen _ _ Hok) as Hl. destruct Hok.
  rewrite enc_cons, blen_app, blen_enc_record in Hl.
  pose proof (blen_nonneg rec). pose proof (blen_nonneg (enc q)).
  rewrite u64_small, !read_wrap_region by lia.
  replace (write_offset r - read_offset r)
    with (4 + (blen rec + (write_offset r - (read_offset r + (4 + blen rec))))) in ok_live0 by lia.
  rewrite !region_app, enc_cons in ok_live0 by lia. unfold enc_record in ok_live0.
  rewrite <- app_assoc in ok_live0.
  apply app_inj_1 in ok_live0 as [E1 E2];
    [|apply Nat2Z.inj; fold (blen (be_bytes 4 (blen rec))); rewrite blen_be_bytes; apply blen_region; lia].
  apply app_inj_1 in E2 as [E2 _]; [|apply Nat2Z.inj; apply blen_region; lia].
  rewrite E1, E2. split; [|split; [reflexivity|lia]].
  apply be_val_be_bytes_small. unfold u32_max in *. simpl. lia.
Qed.

(** ** Sequential refinement *)

(** What the queue specification says of a push: accept and append when
    prefix and record fit in the free bytes, else count a drop. *)
Definition push_spec (r : ring) (q : list (list Z)) (rec : list Z) (res : bool * ring) : Prop :=
  if blen (enc q) + (4 + blen rec) <=? cap r
  then fst res = true /\ ring_ok (snd res) (q ++ [rec]) /\
       cap (snd res) = cap r /\ dropped (snd res) = dropped r
  else res = (false, set_dropped r (dropped r +w64 1)) /\ ring_ok (snd res) q.

Lemma push_refines_queue r q rec :
  ring_ok r q -> write_offset r + (4 + blen rec) <= u64_max ->
  push_spec r q rec (push r rec).
Proof.
  intros Hok Hh. pose proof (ring_used _ _ Hok) as Hu.
  pose proof (ring_ok_blen _ _ Hok) as Hl. pose proof (blen_nonneg rec).
  unfold push_spec, push. rewrite Hu, Hl. pose proof Hok as [].
  rewrite (u64_small (write_offset r + _)) by lia.
  rewrite (u64_small (write_offset r - read_offset r + _)) by lia.
  case_ifs; simpl.
  - split_and!; try reflexivity. apply publish_write; try assumption.
    + unfold write_record. rewrite !blen_write_wrap. assumption.
    + apply region_write_record_other; lia.
    + apply region_write_record; lia.
  - split; [reflexivity|split; assumption].
Qed.

Definition pop_spec (r : ring) (q : list (list Z)) (out : list Z) (res : bool * ring * list Z) : Prop :=
  match q with
  | [] => res = (false, r, out)
  | rec :: q' => exists r', res = (true, r', out ++ rec) /\ ring_ok r' q' /\
                            cap r' = cap r /\ dropped r' = dropped r
  end.

Lemma pop_refines_queue r q out :
  ring_ok r q -> pop_spec r q out (pop_into r out).
Proof.
  intros Hok. pose proof (ring_used _ _ Hok) as Hu.
  pose proof (ring_ok_blen _ _ Hok) as Hl. pose proof Hok as [].
  unfold pop_spec, pop_into. rewrite Hu.
  destruct q as [|rec q].
  - unfold enc in Hl; simpl in Hl. rewrite blen_nil in Hl. case_ifs; reflexivity.
  - destruct (read_head _ _ _ Hok) as (E1 & E2 & E3).
    pose proof (blen_nonneg rec). rewrite E1, E2. case_ifs.
    rewrite (u64_small (_ + (4 + _))) by lia.
    eexists; split_and!; try reflexivity. apply publish_read; assumption.
Qed.

(** Popping until the ring reports empty, as the exporter's drain loop does:
    [n] bounds the number of records. *)
Fixpoint pop_all (n : nat) (r : ring) : list (list Z) * ring :=
  match n with
  | O => ([], r)
  | S n' =>
      match pop_into r [] with
      | (true, r', rec) => let '(recs, r'') := pop_all n' r' in (rec :: recs, r'')
      | (false, r', _) => ([], r')
      end
  end.

Lemma pop_all_drains n r q :
  ring_ok r q -> fst (pop_all n r) = take n q /\ ring_ok (snd (pop_all n r)) (drop n q).
Proof.
  revert r q. induction n as [|n IH]; intros r q Hok; [split; [reflexivity|assumption]|].
  pose proof (pop_refines_queue r q [] Hok) as Hp. simpl.
  destruct q as [|rec q]; unfold pop_spec in Hp.
  - rewrite Hp. split; [reflexivity|assumption].
  - destruct Hp as (r' & -> & Hok' & _). simpl app.
    destruct (IH r' q Hok') as [E1 E2].
    destruct (pop_all n r') as [recs r'']; simpl in *. subst. split; [reflexivity|assumption].
Qed.

(** ** Interleavings of the producer and the consumer

    Each shared-memory access is its own step.  [PReady] follows the two
    offset loads and the capacity check of [push]; [PLen]/[PBody] follow the
    two [write_wrap] calls.  While a copy is in progress its target bytes may
    hold anything: the [partial] steps overwrite them with arbitrary bytes.
    The consumer's program points are those of [pop_into]. *)
Inductive ppc :=
  | PIdle
  | PReady (rec : list Z) (w : Z)
  | PLen (rec : list Z) (w : Z)
  | PBody (rec : list Z) (w : Z).

Inductive cpc :=
  | CIdle
  | CAvail (o available : Z)
  | CLen (o record_len : Z)
  | CBody (o record_len : Z) (data : list Z).

Record sys := mk_sys {
  shm : ring;
  prod : ppc;
  cons : cpc;
  pushed : list (list Z);
  popped : list (list Z)
}.

Inductive pstep : sys -> sys -> Prop :=
  | step_full r c pu po rec :
      cap r <> 0 ->
      cap r < (write_offset r -w64 read_offset r) +w64 (4 + blen rec) ->
      pstep (mk_sys r PIdle c pu po)
           (mk_sys (set_dropped r (dropped r +w64 1)) PIdle c pu po)
  | step_accept r c pu po rec :
      cap r <> 0 ->
      (write_offset r -w64 read_offset r) +w64 (4 + blen rec) <= cap r ->
      write_offset r + (4 + blen rec) <= u64_max ->
      pstep (mk_sys r PIdle c pu po) (mk_sys r (PReady rec (write_offset r)) c pu po)
  | step_len_partial r c pu po rec w junk :
      blen junk = 4 ->
      pstep (mk_sys r (PReady rec w) c pu po)
           (mk_sys (set_payload r (write_wrap (payload r) (cap r) w junk)) (PReady rec w) c pu po)
  | step_len r c pu po rec w :
      pstep (mk_sys r (PReady rec w) c pu po)
           (mk_sys (set_payload r (write_wrap (payload r) (cap r) w
                      (be_bytes 4 (u32 (blen rec))))) (PLen rec w) c pu po)
  | step_body_partial r c pu po rec w junk :
      blen junk = blen rec ->
      pstep (mk_sys r (PLen rec w) c pu po)
           (mk_sys (set_payload r (write_wrap (payload r) (cap r) (w +w64 4) junk))
              (PLen rec w) c pu po)
  | step_body r c pu po rec w :
      pstep (mk_sys r (PLen rec w) c pu po)
           (mk_sys (set_payload r (write_wrap (payload r) (cap r) (w +w64 4) rec))
              (PBody rec w) c pu po)
  | step_publish r c pu po rec w :
      pstep (mk_sys r (PBody rec w) c pu po)
           (mk_sys (set_write r (w +w64 (4 + blen rec))) PIdle c (pu ++ [rec]) po).

Inductive cstep : sys -> sys -> Prop :=
  | step_avail r p pu po :
      cap r <> 0 -> 4 <= write_offset r -w64 read_offset r ->
      cstep (mk_sys r p CIdle pu po)
           (mk_sys r p (CAvail (read_offset r) (write_offset r -w64 read_offset r)) pu po)
  | step_read_len r p pu po o a n :
      n = be_val (read_wrap (payload r) (cap r) o 4) ->
      cstep (mk_sys r p (CAvail o a) pu po)
           (mk_sys r p (if a <? 4 + n then CIdle else CLen o n) pu po)
  | step_read_body r p pu po o n :
      cstep (mk_sys r p (CLen o n) pu po)
           (mk_sys r p (CBody o n (read_wrap (payload r) (cap r) (o +w64 4) n)) pu po)
  | step_consume r p pu po o n data :
      cstep (mk_sys r p (CBody o n data) pu po)
           (mk_sys (set_read r (o +w64 (4 + n))) p CIdle pu (po ++ [data])).

Definition step (s s' : sys) : Prop := pstep s s' \/ cstep s s'.

Definition init_sys (c : Z) : sys := mk_sys (fresh_ring c) PIdle CIdle [] [].

Definition room (r : ring) (rec : list Z) (w : Z) : Prop :=
  w = write_offset r /\ w - read_offset r + (4 + blen rec) <= cap r /\
  w + (4 + blen rec) <= u64_max.

Definition prod_ok (r : ring) (p : ppc) : Prop :=
  match p with
  | PIdle => True
  | PReady rec w => room r rec w
  | PLen rec w => room r rec w /\ region (payload r) (cap r) w 4 = be_bytes 4 (blen rec)
  | PBody rec w => room r rec w /\ region (payload r) (cap r) w (4 + blen rec) = enc_record rec
  end.

Definition cons_ok (r : ring) (q : list (list Z)) (c : cpc) : Prop :=
  match c with
  | CIdle => True
  | CAvail o a => o = read_offset r /\ exists rec q', q = rec :: q' /\ 4 + blen rec <= a
  | CLen o n => o = read_offset r /\ exists rec q', q = rec :: q' /\ n = blen rec
  | CBody o n d => o = read_offset r /\ (exists q', q = d :: q') /\ n = blen d
  end.

Record inv_at (r : ring) (p : ppc) (c : cpc) (pu po q : list (list Z)) : Prop := {
  inv_q : pu = po ++ q;
  inv_ring : ring_ok r q;
  inv_prod : prod_ok r p;
  inv_cons : cons_ok r q c
}.

Definition inv (s : sys) : Prop :=
  exists q, inv_at (shm s) (prod s) (cons s) (pushed s) (popped s) q.

(** A copy inside the producer's reserved bytes leaves the queue alone. *)
Lemma ring_ok_reserved r q rec w off d :
  ring_ok r q -> room r rec w -> w <= off -> off + blen d <= w + (4 + blen rec) ->
  ring_ok (set_payload r (write_wrap (payload r) (cap r) off d)) q.
Proof.
  intros [] (-> & Hf & Hh) H1 H2. pose proof (blen_nonneg d).
  split; simpl; try assumption; [rewrite blen_write_wrap; assumption|].
  rewrite region_write_other; try assumption; lia.
Qed.

Lemma inv_producer_copy r q rec w c pu po p off d :
  ring_ok r q -> room r rec w -> w <= off -> off + blen d <= w + (4 + blen rec) ->
  pu = po ++ q -> cons_ok r q c ->
  let r' := set_payload r (write_wrap (payload r) (cap r) off d) in
  prod_ok r' p -> inv (mk_sys r' p c pu po).
Proof.
  intros Hok Hr H1 H2 Hq Hc r' Hp. exists q.
  split; simpl; try assumption. eapply ring_ok_reserved; eassumption.
Qed.

Lemma inv_publish r q rec w c pu po :
  pu = po ++ q -> ring_ok r q -> prod_ok r (PBody rec w) -> cons_ok r q c ->
  inv (mk_sys (set_write r (w +w64 (4 + blen rec))) PIdle c (pu ++ [rec]) po).
Proof.
  intros -> Hok [(-> & Hf & Hh) Hreg] Hc. pose proof (blen_nonneg rec).
  exists (q ++ [rec]). pose proof Hok as []. rewrite u64_small by lia.
  split; simpl; trivial; [rewrite <- app_assoc; reflexivity| |].
  - replace (set_write r _) with
      (set_write (set_payload r (payload r)) (write_offset r + (4 + blen rec)))
      by (destruct r; reflexivity).
    apply publish_write; assumption || reflexivity.
  - destruct c; simpl in *; trivial;
      [destruct Hc as (-> & ? & ? & -> & ?)|destruct Hc as (-> & ? & ? & -> & ?)
      |destruct Hc as (-> & [? ->] & ?)]; simpl; eauto 6.
Qed.

Lemma inv_pstep s s' : inv s -> pstep s s' -> inv s'.
Proof.
  intros [q [Hq Hok Hp Hc]] Hs. pose proof (ring_used _ _ Hok) as Hu.
  inversion Hs as [ | r ? ? ? rec | r ? ? ? rec | r ? ? ? rec | r ? ? ? rec
                  | r ? ? ? rec | r ? ? ? rec ]; subst; clear Hs; simpl in *;
    try (pose proof (blen_nonneg rec)); pose proof Hok as [].
  - exists q; split; simpl; trivial. split; assumption.
  - exists q; split; simpl; trivial. rewrite Hu in *.
    rewrite u64_small in * by lia. split_and!; trivial.
  - eapply inv_producer_copy; simpl; try eassumption; lia.
  - pose proof Hp as (-> & Hf & Hh).
    eapply inv_producer_copy; simpl; try eassumption; rewrite ?blen_be_bytes; try lia.
    split; [exact Hp|]. rewrite prefix_u32 with (c := cap r) by lia.
    pose proof (region_write_same (payload r) (cap r) (write_offset r) (be_bytes 4 (blen rec))) as H4.
    rewrite blen_be_bytes in H4. apply H4; lia.
  - destruct Hp as [Hp Hreg]. pose proof Hp as (-> & Hf & Hh). rewrite u64_small by lia.
    eapply inv_producer_copy; simpl; try eassumption; try lia.
    split; [exact Hp|]. rewrite region_write_other; lia || assumption.
  - destruct Hp as [Hp Hreg]. pose proof Hp as (-> & Hf & Hh). rewrite u64_small by lia.
    eapply inv_producer_copy; simpl; try eassumption; try lia.
    split; [exact Hp|]. unfold enc_record. rewrite region_app by lia. f_equal.
    + rewrite region_write_other; lia || assumption.
    + apply region_write_same; lia.
  - eapply inv_publish; eassumption || reflexivity.
Qed.

Lemma inv_cstep s s' : inv s -> cstep s s' -> inv s'.
Proof.
  intros [q [Hq Hok Hp Hc]] Hs. pose proof (ring_used _ _ Hok) as Hu.
  pose proof (ring_ok_blen _ _ Hok) as Hl.
  inversion Hs; subst; clear Hs; simpl in *.
  - exists q; split; simpl; trivial. split; [reflexivity|]. rewrite Hu in *.
    destruct q as [|rec q]; [unfold enc in Hl; simpl in Hl; rewrite blen_nil in Hl; lia|].
    exists rec, q; split; [reflexivity|]. apply (read_head _ _ _ Hok).
  - exists q; split; simpl; trivial. destruct Hc as (-> & rec & q' & -> & Ha).
    destruct (read_head _ _ _ Hok) as (-> & _ & _). case_ifs; simpl; eauto.
  - exists q; split; simpl; trivial. destruct Hc as (-> & rec & q' & -> & ->).
    destruct (read_head _ _ _ Hok) as (_ & -> & _). eauto.
  - destruct Hc as (-> & (q' & ->) & ->). exists q'. pose proof Hok as [].
    destruct (read_head _ _ _ Hok) as (_ & _ & E3). pose proof (blen_nonneg data).
    rewrite u64_small by lia.
    split; simpl; trivial; [rewrite Hq, <- app_assoc; reflexivity| |].
    + apply publish_read; assumption.
    + destruct p; simpl in *; unfold room in *; simpl; intuition lia.
Qed.

Lemma inv_reachable s s' : inv s -> rtc step s s' -> inv s'.
Proof.
  intros Hi Hs. induction Hs as [|x y z [H|H] _ IH]; eauto using inv_pstep, inv_cstep.
Qed.

Lemma inv_init c : 0 < c <= u32_max -> inv (init_sys c).
Proof. intros; exists []; split; simpl; trivial. apply fresh_ring_ok; assumption. Qed.

Lemma push_steps r c pu po rec :
  cap r <> 0 -> write_offset r + (4 + blen rec) <= u64_max ->
  rtc pstep (mk_sys r PIdle c pu po)
    (mk_sys (snd (push r rec)) PIdle c (if fst (push r rec) then pu ++ [rec] else pu) po).
Proof.
  intros Hc Hh. unfold push.
  destruct (cap r =? 0) eqn:E0; zify_bool; [contradiction|].
  destruct (_ <? _) eqn:E; zify_bool; simpl.
  - apply rtc_once. eapply step_full; eassumption.
  - eapply rtc_l; [apply step_accept; eassumption|].
    eapply rtc_l; [apply step_len|]. eapply rtc_l; [apply step_body|].
    eapply rtc_l; [apply step_publish|]. apply rtc_refl.
Qed.

Lemma pop_steps r p pu po :
  cap r <> 0 ->
  let '(b, r', out) := pop_into r [] in
  rtc cstep (mk_sys r p CIdle pu po)
    (mk_sys r' p CIdle pu (if b : bool then po ++ [out] else po)).
Proof.
  intros Hc. unfold pop_into. case_ifs; [apply rtc_refl| |].
  - eapply rtc_l; [apply step_avail; assumption|].
    eapply rtc_l; [eapply step_read_len; reflexivity|].
    case_ifs. apply rtc_refl.
  - eapply rtc_l; [apply step_avail; assumption|].
    eapply rtc_l; [eapply step_read_len; reflexivity|].
    case_ifs. eapply rtc_l; [apply step_read_body|].
    apply rtc_once, step_consume.
Qed.

(** ** Properties *)

(** C1 (refinement). Under every interleaving of one producer and one consumer, with
    payload copies that may be observed half done, the records popped so far
    are a prefix of the records pushed, in order and byte for byte, and the
    ring holds exactly the records still pending.
    About: push, pop_into, write_wrap, read_wrap, ring. *)
Theorem spsc_fifo c s :
  0 < c <= u32_max -> rtc step (init_sys c) s ->
  exists q, pushed s = popped s ++ q /\ ring_ok (shm s) q.
Proof.
  intros Hc Hs. destruct (inv_reachable _ _ (inv_init c Hc) Hs) as [q []]. eauto.
Qed.

(** On a ring that holds queue [q], [push] appends the record when
    prefix and record fit in the free bytes and otherwise only counts one drop;
    [pop_into] returns the oldest record, appended to the caller's buffer, and leaves the
    rest, and on an empty ring it returns [false] and changes nothing. *)
Theorem ring_calls_refine r q rec out :
  ring_ok r q ->
  (write_offset r + (4 + blen rec) <= u64_max -> push_spec r q rec (push r rec)) /\
  pop_spec r q out (pop_into r out).
Proof. intros Hok. split; [apply push_refines_queue|apply pop_refines_queue]; exact Hok. Qed.

(** The sequential [push] and [pop_into] are runs of the interleaving
    model's producer and consumer steps: the step relation has the code's
    accesses, in the code's order. *)
Theorem calls_are_steps r p c pu po rec :
  cap r <> 0 -> write_offset r + (4 + blen rec) <= u64_max ->
  rtc pstep (mk_sys r PIdle c pu po)
    (mk_sys (snd (push r rec)) PIdle c (if fst (push r rec) then pu ++ [rec] else pu) po) /\
  let '(b, r', out) := pop_into r [] in
  rtc cstep (mk_sys r p CIdle pu po)
    (mk_sys r' p CIdle pu (if b : bool then po ++ [out] else po)).
Proof.
  intros Hc Hh. split; [apply push_steps; assumption|apply pop_steps; assumption].
Qed.

(** *** Witnesses *)

(** A ring of 10 bytes in its second lap, so that both copies wrap. *)
Definition lap_ring : ring :=
  snd (push (snd (fst (pop_into (snd (push (fresh_ring 10) [7; 8; 9])) []))) [1; 2]).

Lemma lap_ring_ok : ring_ok lap_ring [[1; 2]].
Proof. split; vm_compute; repeat split; congruence. Qed.

Lemma ring_calls_refine_witness :
  push_spec lap_ring [[1; 2]] [5] (push lap_ring [5]) /\ fst (push lap_ring [5]) = false /\
  pop_spec lap_ring [[1; 2]] [0] (pop_into lap_ring [0]) /\ snd (pop_into lap_ring [0]) = [0; 1; 2].
Proof.
  destruct (ring_calls_refine lap_ring [[1; 2]] [5] [0] lap_ring_ok) as [H1 H2].
  split_and!; [apply H1; vm_compute; congruence|vm_compute; reflexivity|exact H2|vm_compute; reflexivity].
Defined.

(** One record pushed and popped, with a torn intermediate length prefix. *)
Definition one_run : sys :=
  mk_sys (mk_ring 6 6 0 16 (copy_at (replicate 16 0) 0 [0; 0; 0; 2; 1; 2]))
    PIdle CIdle [[1; 2]] [[1; 2]].

Ltac run_l c := eapply rtc_l; [left; apply c; vm_compute; congruence|].
Ltac run_r c := eapply rtc_l; [right; apply c; vm_compute; congruence|].

Lemma one_run_reachable : rtc step (init_sys 16) one_run.
Proof.
  run_l (step_accept (fresh_ring 16) CIdle [] [] [1; 2]).
  eapply rtc_l; [left; apply (step_len_partial _ _ _ _ _ _ [9; 9; 9; 9]); reflexivity|].
  eapply rtc_l; [left; apply step_len|].
  eapply rtc_l; [left; apply step_body|].
  eapply rtc_l; [left; apply step_publish|].
  run_r step_avail.
  eapply rtc_l; [right; eapply step_read_len; reflexivity|].
  eapply rtc_l; [right; apply step_read_body|].
  eapply rtc_l; [right; apply step_consume|].
  match goal with |- rtc _ ?a ?b => replace a with b by (vm_compute; reflexivity) end.
  apply rtc_refl.
Qed.

Lemma spsc_fifo_witness :
  popped one_run = [[1; 2]] /\
  exists q, pushed one_run = popped one_run ++ q /\ ring_ok (shm one_run) q.
Proof.
  split; [reflexivity|].
  apply (spsc_fifo 16 one_run); [unfold u32_max; lia|exact one_run_reachable].
Defined.

Lemma calls_are_steps_witness :
  rtc pstep (mk_sys lap_ring PIdle CIdle [] [])
    (mk_sys (snd (push lap_ring [5])) PIdle CIdle [] []) /\
  rtc cstep (mk_sys lap_ring PIdle CIdle [] [])
    (mk_sys (snd (fst (pop_into lap_ring []))) PIdle CIdle [] [[1; 2]]).
Proof.
  apply (calls_are_steps lap_ring PIdle CIdle [] [] [5]); vm_compute; congruence.
Defined.
