(* ===== verification/Histogram.v ===== *)
(** * Histograms in shared memory (src/src/shm/histogram.rs)

    Slots of atomic counters that one worker increments and the exporter
    snapshots.  [ExpHistogramSlot] is an OpenTelemetry exponential histogram
    of scale 3 whose bucket search is an integer table; [Histogram] has
    explicit boundaries.  The file proves the bucket search exact, the counters
    conservative, and the snapshot consistent when it runs concurrently with
    the worker. *)
From stdpp Require Import relations.
From S2P Require Import Prelude.

(** ** Constants *)

(** [src/src/shm/histogram.rs: DURATION_BOUNDS_MS] *)
Definition DURATION_BOUNDS_MS : list Z :=
  [5; 10; 25; 50; 75; 100; 250; 500; 750; 1000; 2500; 5000; 7500; 10000].

(** [src/src/shm/histogram.rs: N_DURATION_BUCKETS] *)
Definition N_DURATION_BUCKETS : Z := 15.

(** [src/src/shm/histogram.rs: EXP_HISTOGRAM_SCALE] *)
Definition EXP_HISTOGRAM_SCALE : Z := 3.

(** [src/src/shm/histogram.rs: N_EXP_BUCKETS] *)
Definition N_EXP_BUCKETS : nat := 192.

(** [src/src/shm/histogram.rs: EXP_HISTOGRAM_BUCKET_OFFSET] *)
Definition EXP_HISTOGRAM_BUCKET_OFFSET : Z := -160.

(** [src/src/shm/histogram.rs: SECONDS_BUCKET_UPPER_US] *)
Definition SECONDS_BUCKET_UPPER_US : list Z :=
  [1; 1; 1; 1; 1; 1; 1; 1;
   2; 2; 2; 2; 2; 3; 3; 3;
   4; 4; 4; 5; 5; 6; 6; 7;
   8; 9; 9; 10; 11; 12; 13; 15;
   16; 18; 19; 21; 23; 25; 27; 30;
   33; 36; 39; 43; 47; 51; 55; 61;
   66; 72; 79; 86; 94; 102; 111; 122;
   133; 145; 158; 172; 188; 205; 223; 244;
   266; 290; 316; 345; 376; 410; 447; 488;
   532; 580; 633; 690; 753; 821; 895; 976;
   1064; 1161; 1266; 1381; 1506; 1642; 1791; 1953;
   2129; 2322; 2532; 2762; 3012; 3284; 3582; 3906;
   4259; 4645; 5065; 5524; 6024; 6569; 7164; 7812;
   8519; 9290; 10131; 11048; 12048; 13139; 14328; 15625;
   17039; 18581; 20263; 22097; 24097; 26278; 28656; 31250;
   34078; 37162; 40526; 44194; 48194; 52556; 57312; 62500;
   68156; 74325; 81052; 88388; 96388; 105112; 114625; 125000;
   136313; 148650; 162104; 176776; 192776; 210224; 229251; 250000;
   272626; 297301; 324209; 353553; 385552; 420448; 458502; 500000;
   545253; 594603; 648419; 707106; 771105; 840896; 917004; 1000000;
   1090507; 1189207; 1296839; 1414213; 1542210; 1681792; 1834008; 2000000;
   2181015; 2378414; 2593679; 2828427; 3084421; 3363585; 3668016; 4000000;
   4362030; 4756828; 5187358; 5656854; 6168843; 6727171; 7336032; 8000000;
   8724061; 9513656; 10374716; 11313708; 12337686; 13454342; 14672064; 16000000].

(** [src/src/shm/histogram.rs: BYTES_BOUNDS] *)
Definition BYTES_BOUNDS : list Z := [128; 512; 4096; 65536; 524288; 4194304].

(** [src/src/shm/histogram.rs: N_BYTES_BUCKETS] *)
Definition N_BYTES_BUCKETS : Z := 7.

(** ** The exponential slot *)

(** [src/src/shm/histogram.rs: ExpHistogramSlot] *)
Record exp_slot := mk_exp {
  buckets : list Z;
  zero_count : Z;
  e_sum : Z;
  e_count : Z
}.

Definition exp_zero : exp_slot := mk_exp (replicate N_EXP_BUCKETS 0) 0 0 0.

(** Index of the bucket incremented for a positive duration.
    [src/src/shm/histogram.rs: 148-153 ExpHistogramSlot::record] *)
Definition exp_bucket_idx (value_us : Z) : nat :=
  Nat.min (partition_point (fun t => t <? value_us) SECONDS_BUCKET_UPPER_US)
    (N_EXP_BUCKETS - 1).

(** [fetch_add(1)]. *)
Definition incr64 (z : Z) : Z := z +w64 1.

(** The three [fetch_add]s of [ExpHistogramSlot::record], in program order.
    [src/src/shm/histogram.rs: 145-154 ExpHistogramSlot::record] *)
Definition exp_bump_bucket (h : exp_slot) (v : Z) : exp_slot :=
  if v =? 0 then mk_exp (buckets h) (incr64 (zero_count h)) (e_sum h) (e_count h)
  else mk_exp (alter incr64 (exp_bucket_idx v) (buckets h)) (zero_count h) (e_sum h) (e_count h).
(** [src/src/shm/histogram.rs: 155-155 ExpHistogramSlot::record] *)
Definition exp_bump_sum (h : exp_slot) (v : Z) : exp_slot :=
  mk_exp (buckets h) (zero_count h) (e_sum h +w64 v) (e_count h).
(** [src/src/shm/histogram.rs: 160-160 ExpHistogramSlot::record] *)
Definition exp_bump_count (h : exp_slot) : exp_slot :=
  mk_exp (buckets h) (zero_count h) (e_sum h) (incr64 (e_count h)).

(** [src/src/shm/histogram.rs: ExpHistogramSlot::record] *)
Definition exp_record (h : exp_slot) (value_us : Z) : exp_slot :=
  exp_bump_count (exp_bump_sum (exp_bump_bucket h value_us) value_us).

(** Read with no concurrent writer.
    [src/src/shm/histogram.rs: ExpHistogramSlot::snapshot] *)
Definition exp_snapshot (h : exp_slot) : list Z * Z * Z * Z :=
  (buckets h, zero_count h, e_sum h, e_count h).

(** ** The explicit-boundary histogram *)

(** [src/src/shm/histogram.rs: Histogram] *)
Record histogram := mk_hist {
  bucket : list Z;
  h_sum : Z;
  h_count : Z
}.

Definition hist_zero (n : nat) : histogram := mk_hist (replicate n 0) 0 0.

(** [src/src/shm/histogram.rs: Histogram::record] *)
Definition hist_record (h : histogram) (value : Z) (bounds : list Z) : histogram :=
  let idx := partition_point (fun b => b <? value) bounds in
  mk_hist (alter incr64 idx (bucket h)) (h_sum h +w64 value) (incr64 (h_count h)).

(** [src/src/shm/histogram.rs: Histogram::snapshot] *)
Definition hist_snapshot (h : histogram) : list Z * Z * Z :=
  (bucket h, h_sum h, h_count h).

(** ** The bucket search *)

(** Every table entry is [floor(1e6 * 2^((i - 159)/8))]: both sides raised to
    the eighth power and scaled by [2^160] to stay in the integers. *)
Definition table_entry_ok (i : nat) (u : Z) : bool :=
  (u ^ 8 * 2 ^ 160 <=? 10 ^ 48 * 2 ^ (Z.of_nat i + 1)) &&
  (10 ^ 48 * 2 ^ (Z.of_nat i + 1) <? (u + 1) ^ 8 * 2 ^ 160).

Lemma table_ok i u : SECONDS_BUCKET_UPPER_US !! i = Some u -> table_entry_ok i u = true.
Proof.
  assert (H : forallb (fun p => table_entry_ok (fst p) (snd p))
                (zip (seq 0 192) SECONDS_BUCKET_UPPER_US) = true) by (vm_compute; reflexivity).
  intros Hu. rewrite forallb_forall in H.
  specialize (H (i, u)). apply H. apply list_elem_of_In.
  apply list_elem_of_lookup_2 with i.
  apply lookup_zip_Some. split; [|exact Hu].
  apply lookup_seq. split; [reflexivity|].
  apply lookup_lt_Some in Hu. exact Hu.
Qed.

(** The seconds bucket of the OpenTelemetry data model at scale 3, upper
    inclusive: [2^((i-160)/8) < v/1e6 <= 2^((i-159)/8)]. *)
Definition otel_bucket (i : Z) (v : Z) : Prop :=
  10 ^ 48 * 2 ^ i < v ^ 8 * 2 ^ 160 <= 10 ^ 48 * 2 ^ (i + 1).

Lemma pow8_le a b : 0 <= a <= b -> a ^ 8 <= b ^ 8.
Proof. intros; apply Z.pow_le_mono_l; assumption. Qed.

Lemma exp_bucket_idx_lt v : (exp_bucket_idx v < N_EXP_BUCKETS)%nat.
Proof. unfold exp_bucket_idx, N_EXP_BUCKETS. lia. Qed.

Lemma exp_idx_exact v :
  1 <= v <= 16000000 -> otel_bucket (Z.of_nat (exp_bucket_idx v)) v.
Proof.
  intros Hv. unfold exp_bucket_idx. set (pt := partition_point _ _).
  assert (Hlt : (pt < 192)%nat).
  { destruct (Nat.lt_ge_cases pt 192) as [|Hge]; [assumption|exfalso].
    assert (E : (16000000 <? v) = true)
      by (apply (partition_point_before (fun t => t <? v) SECONDS_BUCKET_UPPER_US 191);
          [fold pt; lia|reflexivity]). zify_bool; lia. }
  replace (Nat.min pt (N_EXP_BUCKETS - 1)) with pt by (unfold N_EXP_BUCKETS; lia).
  destruct (lookup_lt_is_Some_2 SECONDS_BUCKET_UPPER_US pt) as [u Hu]; [exact Hlt|].
  pose proof (partition_point_at _ _ _ Hu) as Hub; cbv beta in Hub. pose proof (table_ok _ _ Hu) as Ht.
  unfold table_entry_ok in Ht. zify_bool. unfold otel_bucket. split.
  - destruct pt as [|k] eqn:Ek.
    + assert (1 ^ 8 <= v ^ 8) by (apply pow8_le; lia). simpl Z.of_nat. lia.
    + destruct (lookup_lt_is_Some_2 SECONDS_BUCKET_UPPER_US k) as [u' Hu'];
        [change (k < 192)%nat; lia|].
      assert (Hlo : (u' <? v) = true)
        by (apply (partition_point_before (fun t => t <? v) SECONDS_BUCKET_UPPER_US k);
            [fold pt; lia|assumption]).
      pose proof (table_ok _ _ Hu') as Ht'. unfold table_entry_ok in Ht'. zify_bool.
      assert (Hu0 : 0 <= u').
      { assert (HF : Forall (fun z => 0 <= z) SECONDS_BUCKET_UPPER_US)
          by (repeat constructor; discriminate).
        eapply Forall_lookup_1 in HF; eassumption. }
      assert ((u' + 1) ^ 8 <= v ^ 8) by (apply pow8_le; lia).
      replace (Z.of_nat (S k)) with (Z.of_nat k + 1) by lia. nia.
  - assert (v ^ 8 <= u ^ 8) by (apply pow8_le; lia). nia.
Qed.

Lemma exp_idx_overflow v : 16000000 < v -> exp_bucket_idx v = 191%nat.
Proof.
  intros Hv. unfold exp_bucket_idx, N_EXP_BUCKETS. set (pt := partition_point _ _).
  destruct (Nat.lt_ge_cases pt 191) as [Hlt|Hge]; [exfalso|lia].
  assert (H : forall p l, (forall x, x ∈ l -> p x = true) -> partition_point p l = length l).
  { induction l as [|x l IH]; intros Hp; simpl; [reflexivity|].
    rewrite Hp by left. f_equal. apply IH. intros; apply Hp; right; assumption. }
  assert (Hpt : pt = 192%nat); [|lia]. unfold pt. rewrite H; [reflexivity|].
  intros x Hx. apply Z.ltb_lt.
  assert (HF : Forall (fun z => z <= 16000000) SECONDS_BUCKET_UPPER_US)
    by (repeat constructor; discriminate).
  rewrite List.Forall_forall in HF. apply list_elem_of_In, HF in Hx. lia.
Qed.

(** ** Counter conservation *)

(** A slot whose [count] recorded observations are all in some bucket; [k]
    extra observations are in a bucket but not yet counted. *)
Record exp_ok (h : exp_slot) (k : Z) : Prop := {
  eo_len : length (buckets h) = N_EXP_BUCKETS;
  eo_nonneg : Forall (fun z => 0 <= z) (buckets h);
  eo_zero : 0 <= zero_count h;
  eo_count : 0 <= e_count h;
  eo_total : zsum (buckets h) + zero_count h = e_count h + k
}.

Lemma alter_incr_nonneg i l :
  Forall (fun z => 0 <= z) l -> Forall (fun z => 0 <= z) (alter incr64 i l).
Proof.
  intros HF. apply Forall_alter; [assumption|]. intros. apply u64_range.
Qed.

(** One more observation in the cells, while the total stays below [2^64]. *)
Lemma zsum_alter_incr l i :
  Forall (fun z => 0 <= z) l -> (i < length l)%nat -> zsum l < u64_max ->
  zsum (alter incr64 i l) = zsum l + 1.
Proof.
  intros HF Hi Hb. destruct (lookup_lt_is_Some_2 l i Hi) as [x Hx].
  rewrite (zsum_alter _ _ _ _ Hx). pose proof (zsum_ge_In _ x HF (proj1 (list_elem_of_In _ _) (list_elem_of_lookup_2 _ _ _ Hx))).
  eapply Forall_lookup_1 in HF; [|exact Hx]. simpl in HF.
  unfold incr64. rewrite u64_small by lia. lia.
Qed.

Lemma exp_bump_bucket_ok h v :
  exp_ok h 0 -> e_count h < u64_max -> exp_ok (exp_bump_bucket h v) 1.
Proof.
  intros [Hl Hn Hz Hc Ht] Hb. pose proof (zsum_nonneg _ Hn).
  unfold exp_bump_bucket. case_if; split; simpl; try assumption.
  - apply u64_range.
  - unfold incr64. rewrite u64_small by lia. lia.
  - rewrite length_alter. assumption.
  - apply alter_incr_nonneg; assumption.
  - rewrite zsum_alter_incr; try assumption; try lia.
    rewrite Hl. apply exp_bucket_idx_lt.
Qed.

Lemma exp_bump_sum_ok h v k : exp_ok h k -> exp_ok (exp_bump_sum h v) k.
Proof. intros []; split; assumption. Qed.

Lemma exp_bump_count_ok h : exp_ok h 1 -> e_count h < u64_max -> exp_ok (exp_bump_count h) 0.
Proof.
  intros [] Hb. split; simpl; try assumption; unfold incr64; rewrite u64_small by lia; lia.
Qed.

Lemma exp_zero_ok : exp_ok exp_zero 0.
Proof. split; vm_compute; try congruence. repeat constructor; discriminate. Qed.

Lemma e_count_bump_bucket h v : e_count (exp_bump_bucket h v) = e_count h.
Proof. unfold exp_bump_bucket. case_if; reflexivity. Qed.

Lemma e_sum_bump_bucket h v : e_sum (exp_bump_bucket h v) = e_sum h.
Proof. unfold exp_bump_bucket. case_if; reflexivity. Qed.

Lemma exp_record_ok h v : exp_ok h 0 -> e_count h < u64_max -> exp_ok (exp_record h v) 0.
Proof.
  intros Hok Hb. apply exp_bump_count_ok;
    [apply exp_bump_sum_ok, exp_bump_bucket_ok; assumption|].
  simpl. rewrite e_count_bump_bucket. assumption.
Qed.

Lemma exp_records h vs :
  exp_ok h 0 -> Forall (fun v => 0 <= v) vs ->
  0 <= e_sum h -> e_count h + Z.of_nat (length vs) <= u64_max -> e_sum h + zsum vs <= u64_max ->
  let h' := foldl exp_record h vs in
  exp_ok h' 0 /\ e_count h' = e_count h + Z.of_nat (length vs) /\
  e_sum h' = e_sum h + zsum vs.
Proof.
  intros Hok HF. revert h Hok. induction HF as [|v vs Hv HF IH]; intros h Hok H0 Hc Hs;
    simpl in *; [split_and!; try assumption; lia|].
  pose proof (zsum_nonneg _ HF) as Hnn. pose proof (eo_count _ _ Hok).
  assert (E1 : e_count (exp_record h v) = e_count h + 1).
  { unfold exp_record; simpl. rewrite e_count_bump_bucket. apply u64_small. lia. }
  assert (E2 : e_sum (exp_record h v) = e_sum h + v).
  { unfold exp_record; simpl. rewrite e_sum_bump_bucket. apply u64_small. lia. }
  destruct (IH (exp_record h v)) as (I1 & I2 & I3).
  - apply exp_record_ok; [assumption|lia].
  - lia.
  - lia.
  - lia.
  - split_and!; [assumption|lia|lia].
Qed.

(** The explicit histogram: bucket [i] receives the values in
    [(bounds[i-1], bounds[i]]]. *)
Definition explicit_bucket (bounds : list Z) (i : nat) (v : Z) : Prop :=
  (forall lo, (0 < i)%nat -> bounds !! (i - 1)%nat = Some lo -> lo < v) /\
  (forall hi, bounds !! i = Some hi -> v <= hi).

Record hist_ok (n : nat) (h : histogram) : Prop := {
  ho_len : length (bucket h) = n;
  ho_nonneg : Forall (fun z => 0 <= z) (bucket h);
  ho_total : zsum (bucket h) = h_count h
}.

Lemma hist_zero_ok n : hist_ok n (hist_zero n).
Proof.
  split; simpl; [apply length_replicate| |rewrite zsum_replicate; lia].
  apply Forall_replicate; lia.
Qed.

Lemma hist_record_explicit n h v bounds :
  hist_ok n h -> n = S (length bounds) -> h_count h < u64_max ->
  hist_ok n (hist_record h v bounds) /\
  h_count (hist_record h v bounds) = h_count h + 1 /\
  exists i, (i < n)%nat /\ explicit_bucket bounds i v /\
            bucket (hist_record h v bounds) = alter incr64 i (bucket h).
Proof.
  intros [Hl Hn Ht] -> Hb. unfold hist_record. set (i := partition_point _ bounds).
  pose proof (partition_point_le (fun b => b <? v) bounds) as Hi. fold i in Hi.
  pose proof (zsum_nonneg _ Hn).
  assert (Hc : incr64 (h_count h) = h_count h + 1) by (apply u64_small; lia).
  split_and!; simpl; [split; simpl| |].
  - rewrite length_alter; assumption.
  - apply alter_incr_nonneg; assumption.
  - rewrite zsum_alter_incr; try assumption; lia.
  - assumption.
  - exists i. split_and!; [lia| |reflexivity]. split.
    + intros lo H1 H2. apply Z.ltb_lt.
      apply (partition_point_before (fun b => b <? v) bounds (i - 1)); [fold i; lia|assumption].
    + intros hi H1. apply (partition_point_at (fun b => b <? v)) in H1. zify_bool. assumption.
Qed.

Lemma explicit_bucket_unique bounds v i j :
  ascb bounds = true -> (i <= length bounds)%nat -> (j <= length bounds)%nat ->
  explicit_bucket bounds i v -> explicit_bucket bounds j v -> i = j.
Proof.
  intros Ha. assert (H : forall i j, (i < j)%nat -> (j <= length bounds)%nat ->
    explicit_bucket bounds i v -> explicit_bucket bounds j v -> False).
  { clear i j. intros i j Hij Hj [_ Hi] [Hj' _].
    destruct (lookup_lt_is_Some_2 bounds i) as [hi Ehi]; [lia|].
    destruct (lookup_lt_is_Some_2 bounds (j - 1)) as [lo Elo]; [lia|].
    specialize (Hi _ Ehi). specialize (Hj' lo ltac:(lia) Elo).
    destruct (decide (i = (j - 1)%nat)) as [->|]; [simplify_eq; lia|].
    pose proof (ascb_lt _ Ha i (j - 1) hi lo ltac:(lia) Ehi Elo). lia. }
  intros Hi Hj Bi Bj. destruct (Nat.lt_trichotomy i j) as [L|[E|L]]; [|exact E|];
    exfalso; [apply (H i j)|apply (H j i)]; assumption.
Qed.

(** ** The snapshot concurrent with the worker

    The worker's [record] is three atomic increments; the exporter's
    [snapshot] loads [count] first, then the buckets in order, then
    [zero_count] and [sum].  Any interleaving is allowed. *)
Inductive wpc := WIdle | WBucketed (v : Z) | WSummed (v : Z).

Inductive rpc :=
  | RIdle
  | RBuckets (cnt : Z) (acc : list Z)
  | RZero (cnt : Z) (acc : list Z) (z : Z)
  | RDone (snap : list Z * Z * Z * Z).

Inductive hstep : exp_slot * wpc * rpc -> exp_slot * wpc * rpc -> Prop :=
  | w_bucket h r v :
      0 <= v -> e_count h < u64_max ->
      hstep (h, WIdle, r) (exp_bump_bucket h v, WBucketed v, r)
  | w_sum h r v : hstep (h, WBucketed v, r) (exp_bump_sum h v, WSummed v, r)
  | w_count h r v : hstep (h, WSummed v, r) (exp_bump_count h, WIdle, r)
  | r_count h w : hstep (h, w, RIdle) (h, w, RBuckets (e_count h) [])
  | r_bucket h w cnt acc b :
      buckets h !! length acc = Some b ->
      hstep (h, w, RBuckets cnt acc) (h, w, RBuckets cnt (acc ++ [b]))
  | r_zero h w cnt acc :
      length acc = N_EXP_BUCKETS ->
      hstep (h, w, RBuckets cnt acc) (h, w, RZero cnt acc (zero_count h))
  | r_sum h w cnt acc z :
      hstep (h, w, RZero cnt acc z) (h, w, RDone (acc, z, e_sum h, cnt))
  | r_again h w snap : hstep (h, w, RDone snap) (h, w, RIdle).

Definition winv (h : exp_slot) (w : wpc) : Prop :=
  match w with
  | WIdle => exp_ok h 0
  | _ => exp_ok h 1 /\ e_count h < u64_max
  end.

(** What the reader has loaded plus what it will still load covers [cnt]. *)
Definition rinv (h : exp_slot) (r : rpc) : Prop :=
  match r with
  | RIdle => True
  | RBuckets cnt acc => cnt <= zsum acc + zsum (drop (length acc) (buckets h)) + zero_count h
  | RZero cnt acc z => cnt <= zsum acc + z
  | RDone (acc, z, _, cnt) => cnt <= zsum acc + z
  end.

Definition hinv (s : exp_slot * wpc * rpc) : Prop :=
  let '(h, w, r) := s in winv h w /\ rinv h r.

Lemma winv_ok h w : winv h w -> exists k, 0 <= k /\ exp_ok h k.
Proof.
  destruct w; simpl; [exists 0|intros []; exists 1|intros []; exists 1]; split; lia || assumption.
Qed.

(** Incrementing a cell cannot lower the sum of the cells still to be read. *)
Lemma zsum_drop_alter l i n :
  Forall (fun z => 0 <= z) l -> zsum l < u64_max ->
  zsum (drop n l) <= zsum (drop n (alter incr64 i l)).
Proof.
  intros HF Hb. destruct (Nat.lt_ge_cases i n) as [Hi|Hi].
  - rewrite drop_alter_lt by assumption. lia.
  - rewrite drop_alter_ge by lia.
    rewrite <- (take_drop n l) in HF, Hb. rewrite zsum_app in Hb.
    apply Forall_app in HF as [H1 H2]. pose proof (zsum_nonneg _ H1).
    destruct (Nat.lt_ge_cases i (length l)) as [Hl|Hl].
    + rewrite zsum_alter_incr; [lia|assumption|rewrite length_drop; lia|lia].
    + rewrite alter_ge by (rewrite length_drop; lia). lia.
Qed.

Lemma rinv_bump h v r :
  exp_ok h 0 -> e_count h < u64_max -> rinv h r -> rinv (exp_bump_bucket h v) r.
Proof.
  intros [Hl Hn Hz Hc Ht] Hb Hr. destruct r as [|cnt acc|cnt acc z|[[[acc z] s] cnt]]; trivial.
  unfold exp_bump_bucket; simpl in *. pose proof (zsum_nonneg _ Hn). case_if; simpl.
  - unfold incr64. rewrite u64_small by lia. lia.
  - pose proof (zsum_drop_alter (buckets h) (exp_bucket_idx v) (length acc) Hn). lia.
Qed.

Lemma hinv_step s s' : hinv s -> hstep s s' -> hinv s'.
Proof.
  intros Hi Hs. destruct Hs as [h r v Hv Hb|h r v|h r v|h w|h w cnt acc b Hb|h w cnt acc Ha|
    h w cnt acc z|h w snap]; destruct Hi as [Hw Hr]; split; simpl in *; trivial.
  - split; [apply exp_bump_bucket_ok; assumption|rewrite e_count_bump_bucket; assumption].
  - apply rinv_bump; assumption.
  - destruct Hw; split; [apply exp_bump_sum_ok|]; assumption.
  - destruct Hw; apply exp_bump_count_ok; assumption.
  - destruct (winv_ok _ _ Hw) as (k & Hk & []). rewrite drop_0. lia.
  - rewrite zsum_app, length_app. simpl.
    rewrite (drop_S _ _ _ Hb) in Hr. simpl in Hr. rewrite Nat.add_1_r. lia.
  - destruct (winv_ok _ _ Hw) as (k & Hk & []). rewrite Ha, <- eo_len0, drop_all in Hr.
    simpl in Hr. lia.
Qed.

(** ** Properties *)

(** C36 (equivalence). For every positive duration up to the table's top (16 s) the integer
    table search picks exactly the OpenTelemetry scale-3 bucket
    [2^(i/8) < seconds <= 2^((i+1)/8)] at spec index [i = idx - 160]; longer durations go to the
    last bucket, zero durations to [zero_count], and exactly one cell changes.
    About: exp_record, SECONDS_BUCKET_UPPER_US, exp_slot. *)
Theorem exp_record_bucket h v :
  0 <= v ->
  (v = 0 -> zero_count (exp_record h v) = incr64 (zero_count h) /\
            buckets (exp_record h v) = buckets h) /\
  (1 <= v -> zero_count (exp_record h v) = zero_count h /\
     exists i, (i < N_EXP_BUCKETS)%nat /\
       buckets (exp_record h v) = alter incr64 i (buckets h) /\
       (v <= 16000000 -> otel_bucket (Z.of_nat i) v) /\
       (16000000 < v -> i = (N_EXP_BUCKETS - 1)%nat)).
Proof.
  intros Hv. unfold exp_record, exp_bump_bucket. split; intros; case_ifs; simpl.
  - split; reflexivity.
  - split; [reflexivity|]. exists (exp_bucket_idx v). split_and!.
    + apply exp_bucket_idx_lt.
    + reflexivity.
    + intros; apply exp_idx_exact; lia.
    + intros; apply exp_idx_overflow; assumption.
Qed.

(** After any sequence of observations on a fresh slot, the buckets and
    [zero_count] add up to [count], [count] is the number of observations and
    [sum] their sum, as long as neither exceeds [u64]. *)
Theorem exp_record_conserves vs bs z s c :
  Forall (fun v => 0 <= v) vs ->
  Z.of_nat (length vs) <= u64_max -> zsum vs <= u64_max ->
  exp_snapshot (foldl exp_record exp_zero vs) = (bs, z, s, c) ->
  zsum bs + z = c /\ c = Z.of_nat (length vs) /\ s = zsum vs /\ length bs = N_EXP_BUCKETS.
Proof.
  intros HF Hl Hs. destruct (exp_records exp_zero vs exp_zero_ok HF) as (Hok & E1 & E2);
    simpl; try lia.
  unfold exp_snapshot. intros [= <- <- <- <-].
  destruct Hok. split_and!; [lia|exact E1|exact E2|assumption].
Qed.

(** C35 (safety). A snapshot that interleaves with the worker in any way never reports
    more observations than its buckets hold: [sum of buckets + zero_count >= count].
    About: exp_record, exp_snapshot, exp_slot. *)
Theorem exp_snapshot_consistent h w bs z s c :
  rtc hstep (exp_zero, WIdle, RIdle) (h, w, RDone (bs, z, s, c)) ->
  c <= zsum bs + z.
Proof.
  intros Hs. assert (H0 : hinv (exp_zero, WIdle, RIdle)) by (split; [apply exp_zero_ok|exact I]).
  assert (H1 : forall s1 s2, rtc hstep s1 s2 -> hinv s1 -> hinv s2).
  { intros s1 s2 H. induction H; eauto using hinv_step. }
  apply (H1 _ _ Hs H0).
Qed.

(** With ascending boundaries, every value belongs to exactly one
    bucket, lower bound exclusive and upper bound inclusive; an explicit-boundary
    histogram increments that bucket and no other, and keeps the bucket counts
    adding up to [count]. *)
Theorem hist_record_bucket n h v bounds :
  hist_ok n h -> n = S (length bounds) -> ascb bounds = true -> h_count h < u64_max ->
  hist_ok n (hist_record h v bounds) /\
  h_count (hist_record h v bounds) = h_count h + 1 /\
  exists i, (i < n)%nat /\ explicit_bucket bounds i v /\
            (forall j, (j < n)%nat -> explicit_bucket bounds j v -> j = i) /\
            bucket (hist_record h v bounds) = alter incr64 i (bucket h).
Proof.
  intros Hok Hn Ha Hc. destruct (hist_record_explicit n h v bounds Hok Hn Hc) as (H1 & H2 & i & Hi & Hb & He).
  split_and!; auto. exists i. split_and!; auto. intros j Hj Bj. subst n.
  apply (explicit_bucket_unique bounds v); auto; lia.
Qed.

(** *** Witnesses *)

Lemma exp_record_bucket_witness :
  exists i, (i < N_EXP_BUCKETS)%nat /\
    buckets (exp_record exp_zero 1000000) = alter incr64 i (buckets exp_zero) /\
    otel_bucket (Z.of_nat i) 1000000.
Proof.
  destruct (exp_record_bucket exp_zero 1000000) as [_ H1]; [lia|].
  destruct H1 as (_ & i & Hi & E & Ho & _); [lia|]. exists i. split_and!; auto. apply Ho. lia.
Defined.

Lemma exp_record_conserves_witness :
  exists bs, exp_snapshot (foldl exp_record exp_zero [0; 1; 250000; 99000000]) = (bs, 1, 99250001, 4) /\
  zsum bs + 1 = 4.
Proof.
  eexists. split; [vm_compute; reflexivity|].
  eapply (exp_record_conserves [0; 1; 250000; 99000000]);
    [repeat constructor; lia|vm_compute; congruence|vm_compute; congruence|vm_compute; reflexivity].
Defined.

Lemma read_buckets h w cnt n :
  (n <= length (buckets h))%nat ->
  rtc hstep (h, w, RBuckets cnt []) (h, w, RBuckets cnt (take n (buckets h))).
Proof.
  induction n as [|n IH]; intros Hn; [apply rtc_refl|].
  eapply rtc_r; [apply IH; lia|].
  destruct (lookup_lt_is_Some_2 (buckets h) n) as [b Hb]; [lia|].
  rewrite (take_S_r _ _ _ Hb). apply r_bucket. rewrite length_take_le by lia. assumption.
Qed.

(** A snapshot that reads [count] before a record and the buckets after its
    first increment: one more observation in the buckets than counted. *)
Lemma exp_snapshot_consistent_witness :
  exists h w bs z s c, rtc hstep (exp_zero, WIdle, RIdle) (h, w, RDone (bs, z, s, c)) /\
    zsum bs + z = 1 /\ c = 0 /\ c <= zsum bs + z.
Proof.
  set (h := exp_bump_bucket exp_zero 5).
  assert (Hr : rtc hstep (exp_zero, WIdle, RIdle)
                 (h, WBucketed 5, RDone (take 192 (buckets h), 0, 0, 0))).
  { eapply rtc_l; [apply r_count|]. eapply rtc_l; [apply (w_bucket _ _ 5); vm_compute; congruence|].
    etrans; [apply (read_buckets _ _ _ 192); vm_compute; lia|].
    eapply rtc_l; [apply r_zero; vm_compute; reflexivity|].
    eapply rtc_l; [apply r_sum|]. apply rtc_refl. }
  exists h, (WBucketed 5), (take 192 (buckets h)), 0, 0, 0. split; [exact Hr|].
  split; [vm_compute; reflexivity|]. split; [reflexivity|].
  exact (exp_snapshot_consistent _ _ _ _ _ _ Hr).
Defined.

Lemma hist_record_bucket_witness :
  let h := hist_record (hist_zero 7) 512 BYTES_BOUNDS in
  bucket h = [0; 1; 0; 0; 0; 0; 0] /\ hist_ok 7 h.
Proof.
  split; [vm_compute; reflexivity|].
  apply (hist_record_bucket 7 (hist_zero 7) 512 BYTES_BOUNDS);
    [apply hist_zero_ok|reflexivity|reflexivity|vm_compute; congruence].
Defined.
