(* ===== verification/DataModel.v ===== *)
(** * The internal data model (src/src/data_model/mod.rs, src/src/logs/severity.rs)

    The types that the exporter's parsers produce and its encoder consumes.
    A Rust [String] is its list of UTF-8 bytes.  A [f64] of the pipeline is
    always the quotient of an integer by a power of ten, and is kept as that
    quotient.  [from_utf8_lossy] is the standard library's decoder, with the
    replacement of each maximal invalid prefix by U+FFFD. *)
From Stdlib Require Import String Ascii.
Export String.StringSyntax.
From S2P Require Import Prelude.

(** ** Byte strings *)

Definition bytes_of_string (s : string) : list Z :=
  map (fun a => Z.of_nat (nat_of_ascii a)) (list_ascii_of_string s).

Notation "'$' s" := (bytes_of_string s%string) (at level 1, format "'$' s") : otel_scope.

Definition bytes_eqb (a b : list Z) : bool := bool_decide (a = b).

Lemma bytes_eqb_eq a b : bytes_eqb a b = true <-> a = b.
Proof. apply bool_decide_eq_true. Qed.

(** *** Decimal formatting of an integer of at most 64 bits, [format!]

    Twenty digits are enough for [u64::MAX]. *)
Fixpoint dec_digits (fuel : nat) (n : Z) (acc : list Z) : list Z :=
  match fuel with
  | O => acc
  | S fuel' =>
      let acc := (48 + n mod 10) :: acc in
      if n / 10 =? 0 then acc else dec_digits fuel' (n / 10) acc
  end.
Definition fmt_dec (n : Z) : list Z :=
  if n <? 0 then 45 :: dec_digits 20 (- n) [] else dec_digits 20 n [].

(** *** UTF-8, lossy *)

Definition FFFD : list Z := [239; 191; 189].
Definition between (lo hi b : Z) : bool := (lo <=? b) && (b <=? hi).
Definition is_cont (b : Z) : bool := between 128 191 b.

(** Second-byte range of a three- or four-byte sequence. *)
Definition second3 (b c : Z) : bool :=
  if b =? 224 then between 160 191 c
  else if b =? 237 then between 128 159 c
  else is_cont c.
Definition second4 (b c : Z) : bool :=
  if b =? 240 then between 144 191 c
  else if b =? 244 then between 128 143 c
  else is_cont c.

Fixpoint from_utf8_lossy (l : list Z) : list Z :=
  match l with
  | [] => []
  | b :: l1 =>
      if b <? 128 then b :: from_utf8_lossy l1
      else if between 194 223 b then
        match l1 with
        | c :: l2 => if is_cont c then b :: c :: from_utf8_lossy l2
                     else FFFD ++ from_utf8_lossy l1
        | [] => FFFD
        end
      else if between 224 239 b then
        match l1 with
        | c :: l2 =>
            if second3 b c then
              match l2 with
              | d :: l3 => if is_cont d then b :: c :: d :: from_utf8_lossy l3
                           else FFFD ++ from_utf8_lossy l2
              | [] => FFFD
              end
            else FFFD ++ from_utf8_lossy l1
        | [] => FFFD
        end
      else if between 240 244 b then
        match l1 with
        | c :: l2 =>
            if second4 b c then
              match l2 with
              | d :: l3 =>
                  if is_cont d then
                    match l3 with
                    | e :: l4 => if is_cont e then b :: c :: d :: e :: from_utf8_lossy l4
                                 else FFFD ++ from_utf8_lossy l3
                    | [] => FFFD
                    end
                  else FFFD ++ from_utf8_lossy l2
              | [] => FFFD
              end
            else FFFD ++ from_utf8_lossy l1
        | [] => FFFD
        end
      else FFFD ++ from_utf8_lossy l1
  end.

Definition is_ascii (l : list Z) : Prop := Forall (fun b => 0 <= b < 128) l.

Lemma from_utf8_lossy_ascii l : is_ascii l -> from_utf8_lossy l = l.
Proof.
  induction 1 as [|b l Hb Hl IH]; [reflexivity|].
  simpl. rewrite IH. destruct (b <? 128) eqn:E; zify_bool; [reflexivity|lia].
Qed.

(** ** Values *)

(** [num as f64 / den as f64]. *)
Inductive f64 := F64 (num den : Z).

(** [src/src/data_model/mod.rs: AnyValue] *)
#[warnings="-register-all"]
Inductive any_value :=
  | VString (s : list Z)
  | VBool (b : bool)
  | VInt (i : Z)
  | VDouble (d : f64)
  | VBytes (b : list Z)
  | VArray (l : list any_value).

(** [src/src/data_model/mod.rs: KeyValue] *)
Record key_value := KV { kv_key : list Z; kv_value : any_value }.

(** [u as i64]. *)
Definition as_i64 (u : Z) : Z := if u <=? i64_max then u else u - 2 ^ 64.

(** [src/src/data_model/mod.rs: Resource] *)
Record resource := mk_resource { res_attributes : list key_value }.

(** [src/src/data_model/mod.rs: Scope] *)
Record scope := mk_scope { sc_name : list Z; sc_version : list Z }.

(** ** Metrics *)

(** [src/src/data_model/mod.rs: AggregationTemporality] *)
Inductive aggregation_temporality := TUnspecified | TDelta | TCumulative.

(** [src/src/data_model/mod.rs: NumberValue] *)
Inductive number_value := AsInt (i : Z) | AsDouble (d : f64).

(** [src/src/data_model/mod.rs: NumberDataPoint] *)
Record number_data_point := mk_ndp {
  ndp_attributes : list key_value;
  ndp_start : Z;
  ndp_time : Z;
  ndp_value : number_value
}.

(** [src/src/data_model/mod.rs: HistogramDataPoint] *)
Record histogram_data_point := mk_hdp {
  hdp_attributes : list key_value;
  hdp_start : Z;
  hdp_time : Z;
  hdp_count : Z;
  hdp_sum : f64;
  hdp_bucket_counts : list Z;
  hdp_explicit_bounds : list f64
}.

(** [src/src/data_model/mod.rs: Exemplar] *)
Record exemplar := mk_exemplar {
  ex_value : f64;
  ex_time : Z;
  ex_trace_id : list Z;
  ex_span_id : list Z;
  ex_has_trace : bool;
  ex_filtered_attributes : list key_value
}.

(** [src/src/data_model/mod.rs: ExponentialHistogramDataPoint] *)
Record exp_data_point := mk_edp {
  edp_attributes : list key_value;
  edp_start : Z;
  edp_time : Z;
  edp_count : Z;
  edp_sum : f64;
  edp_scale : Z;
  edp_zero_count : Z;
  edp_positive_offset : Z;
  edp_positive_bucket_counts : list Z;
  edp_exemplars : list exemplar
}.

(** [src/src/data_model/mod.rs: MetricData] *)
Inductive metric_data :=
  | MHistogram (t : aggregation_temporality) (pts : list histogram_data_point)
  | MExponentialHistogram (t : aggregation_temporality) (pts : list exp_data_point)
  | MSum (t : aggregation_temporality) (is_monotonic : bool) (pts : list number_data_point)
  | MGauge (pts : list number_data_point).

(** [src/src/data_model/mod.rs: Metric] *)
Record metric := mk_metric {
  m_name : list Z;
  m_description : list Z;
  m_unit : list Z;
  m_data : metric_data
}.

(** [src/src/data_model/mod.rs: Batch] *)
Record batch := mk_batch {
  b_resource : resource;
  b_scope : scope;
  b_metrics : list metric
}.

(** ** Logs *)

(** [src/src/data_model/mod.rs: SeverityNumber] *)
Inductive severity_number :=
  | SevUnspecified
  | SevTrace | SevTrace2 | SevTrace3 | SevTrace4
  | SevDebug | SevDebug2 | SevDebug3 | SevDebug4
  | SevInfo | SevInfo2 | SevInfo3 | SevInfo4
  | SevWarn | SevWarn2 | SevWarn3 | SevWarn4
  | SevError | SevError2 | SevError3 | SevError4
  | SevFatal | SevFatal2 | SevFatal3 | SevFatal4.

(** [src/src/logs/severity.rs: nginx_to_otel] *)
Definition nginx_to_otel (ngx_level : Z) : severity_number * list Z :=
  match ngx_level with
  | 1 => (SevFatal4, $"emerg")
  | 2 => (SevFatal2, $"alert")
  | 3 => (SevFatal, $"crit")
  | 4 => (SevError, $"error")
  | 5 => (SevWarn, $"warn")
  | 6 => (SevInfo2, $"notice")
  | 7 => (SevInfo, $"info")
  | 8 => (SevDebug, $"debug")
  | _ => (SevUnspecified, [])
  end.

(** [src/src/data_model/mod.rs: LogRecord] *)
Record log_record := mk_log {
  lr_time : Z;
  lr_observed : Z;
  lr_severity : severity_number;
  lr_severity_text : list Z;
  lr_body : any_value;
  lr_attributes : list key_value;
  lr_event_name : list Z;
  lr_trace_id : list Z;
  lr_span_id : list Z
}.

(** [src/src/data_model/mod.rs: LogsBatch] *)
Record logs_batch := mk_logs_batch {
  lb_resource : resource;
  lb_scope : scope;
  lb_logs : list log_record
}.

(** ** Traces *)

(** [src/src/data_model/mod.rs: SpanKind] *)
Inductive span_kind :=
  KindUnspecified | KindInternal | KindServer | KindClient | KindProducer | KindConsumer.

(** [src/src/data_model/mod.rs: StatusCode] *)
Inductive status_code := StUnset | StOk | StError.

(** [src/src/data_model/mod.rs: SpanStatus] *)
Record span_status := mk_status { st_code : status_code; st_message : list Z }.

(** [src/src/data_model/mod.rs: SpanEvent] *)
Record span_event := mk_event {
  ev_time : Z;
  ev_name : list Z;
  ev_attributes : list key_value
}.

(** [src/src/data_model/mod.rs: SpanLink] *)
Record span_link := mk_link {
  lk_trace_id : list Z;
  lk_span_id : list Z;
  lk_flags : Z;
  lk_attributes : list key_value
}.

(** [src/src/data_model/mod.rs: Span] *)
Record span := mk_span {
  sp_trace_id : list Z;
  sp_span_id : list Z;
  sp_parent_span_id : list Z;
  sp_flags : Z;
  sp_name : list Z;
  sp_kind : span_kind;
  sp_start : Z;
  sp_end : Z;
  sp_attributes : list key_value;
  sp_events : list span_event;
  sp_links : list span_link;
  sp_status : span_status
}.

(** [src/src/data_model/mod.rs: SpansBatch] *)
Record spans_batch := mk_spans_batch {
  sb_resource : resource;
  sb_scope : scope;
  sb_spans : list span
}.

(** [src/src/data_model/mod.rs: Pdata] *)
Inductive pdata :=
  | PMetrics (b : batch)
  | PLogs (b : logs_batch)
  | PSpans (b : spans_batch).
