(* ===== verification/StdText.v ===== *)
(** * Byte-string functions of the standard library

    The functions of [core::str], [slice] and [u8] that the configuration
    code, the transports and the header parsers call.  A [str] is its UTF-8
    bytes; every pattern the program searches for is ASCII, so a search in
    bytes is a search in characters. *)
From S2P Require Import Prelude DataModel.

(** [core::str::from_utf8]: lossy decoding changes exactly the invalid strings. *)
Definition from_utf8 (b : list Z) : option (list Z) :=
  if bytes_eqb (from_utf8_lossy b) b then Some b else None.

(** [from_utf8(b).unwrap_or("")]. *)
Definition utf8_or_empty (b : list Z) : list Z := default [] (from_utf8 b).

(** ** Characters *)

Definition is_digit (b : Z) : bool := (48 <=? b) && (b <=? 57).
Definition is_upper (b : Z) : bool := (65 <=? b) && (b <=? 90).
Definition is_lower (b : Z) : bool := (97 <=? b) && (b <=? 122).
Definition is_alpha (b : Z) : bool := is_upper b || is_lower b.
Definition to_lower (b : Z) : Z := if is_upper b then b + 32 else b.

(** [eq_ignore_ascii_case]. *)
Definition eq_ignore_case (a b : list Z) : bool := bytes_eqb (map to_lower a) (map to_lower b).

(** ASCII part of [str::trim] (header values are ASCII). *)
Definition is_space (b : Z) : bool := ((9 <=? b) && (b <=? 13)) || (b =? 32).

Fixpoint trim_start (l : list Z) : list Z :=
  match l with
  | b :: l' => if is_space b then trim_start l' else l
  | [] => []
  end.
Definition trim (l : list Z) : list Z := reverse (trim_start (reverse (trim_start l))).

(** ** Numbers *)

(** Decimal digits, failing above [max]. *)
Fixpoint digits_val (max acc : Z) (l : list Z) : option Z :=
  match l with
  | [] => Some acc
  | c :: l' =>
      if is_digit c then
        let v := acc * 10 + (c - 48) in
        if max <? v then None else digits_val max v l'
      else None
  end.

(** [str::parse] of an unsigned type: an optional [+], then at least one digit. *)
Definition parse_unsigned (max : Z) (l : list Z) : option Z :=
  let d := match l with 43 :: l' => l' | _ => l end in
  match d with [] => None | _ => digits_val max 0 d end.
Definition parse_u64 (l : list Z) : option Z := parse_unsigned u64_max l.
Definition parse_u16 (l : list Z) : option Z := parse_unsigned 65535 l.

(** [str::parse::<i64>]: as above with an optional sign. *)
Definition parse_i64 (l : list Z) : option Z :=
  match l with
  | 45 :: d => match d with [] => None | _ => Z.opp <$> digits_val (i64_max + 1) 0 d end
  | 43 :: d => match d with [] => None | _ => digits_val i64_max 0 d end
  | [] => None
  | d => digits_val i64_max 0 d
  end.

(** The number a digit string denotes. *)
Definition dec_val (l : list Z) : Z := foldl (fun a b => a * 10 + (b - 48)) 0 l.

Lemma foldl_dec_ge l a : 0 <= a -> forallb is_digit l = true ->
  a <= foldl (fun a b => a * 10 + (b - 48)) a l.
Proof.
  revert a. induction l as [|c l IH]; intros a Ha; simpl; [lia|].
  unfold is_digit at 1. intros H. zify_bool.
  specialize (IH (a * 10 + (c - 48)) ltac:(lia) ltac:(assumption)). lia.
Qed.

Lemma digits_val_spec max l acc v : 0 <= acc <= max ->
  digits_val max acc l = Some v <->
  forallb is_digit l = true /\ v = foldl (fun a b => a * 10 + (b - 48)) acc l /\ v <= max.
Proof.
  revert acc. induction l as [|c l IH]; intros acc Ha; simpl.
  - split; [intros [= <-]; auto with lia|intros (_ & -> & _); reflexivity].
  - destruct (is_digit c) eqn:Ec; simpl; [|split; [discriminate|intros (H & _); discriminate]].
    assert (0 <= acc * 10 + (c - 48)) by (unfold is_digit in Ec; zify_bool; lia).
    destruct (max <? acc * 10 + (c - 48)) eqn:Em; zify_bool.
    + split; [discriminate|]. intros (H1 & H2 & H3).
      pose proof (foldl_dec_ge l (acc * 10 + (c - 48)) ltac:(lia) H1). lia.
    + apply IH. lia.
Qed.

(** ** Patterns *)

Definition starts_with (p l : list Z) : bool := bytes_eqb (take (length p) l) p.

(** [str::strip_prefix]. *)
Definition strip_prefix (p l : list Z) : option (list Z) :=
  if starts_with p l then Some (drop (length p) l) else None.

(** [str::find] and [str::rfind] of a character: the byte index. *)
Fixpoint find_byte (c : Z) (l : list Z) : option Z :=
  match l with
  | [] => None
  | b :: l' => if b =? c then Some 0 else Z.succ <$> find_byte c l'
  end.
Definition rfind_byte (c : Z) (l : list Z) : option Z :=
  (fun i => blen l - 1 - i) <$> find_byte c (reverse l).

(** First piece of [str::split] on a character. *)
Fixpoint split_first (c : Z) (l : list Z) : list Z :=
  match l with
  | [] => []
  | b :: l' => if b =? c then [] else b :: split_first c l'
  end.

(** [l.windows(3).any(|w| w == p)] and the like: [p] occurs in [l]. *)
Fixpoint contains (p l : list Z) : bool :=
  starts_with p l || match l with [] => false | _ :: l' => contains p l' end.

Lemma starts_with_spec p l : starts_with p l = true <-> exists r, l = p ++ r.
Proof.
  unfold starts_with. rewrite bytes_eqb_eq. split.
  - intros E. exists (drop (length p) l). rewrite <- E at 1. symmetry. apply take_drop.
  - intros [r ->]. apply take_app_length.
Qed.

Lemma strip_prefix_spec p l r : strip_prefix p l = Some r <-> l = p ++ r.
Proof.
  unfold strip_prefix. destruct (starts_with p l) eqn:E.
  - apply starts_with_spec in E as [r' ->]. rewrite drop_app_length.
    split; [intros [= ->]; reflexivity|]. intros E. apply app_inv_head in E. congruence.
  - split; [discriminate|]. intros ->.
    assert (starts_with p (p ++ r) = true) by (apply starts_with_spec; eauto). congruence.
Qed.

Lemma contains_spec p l : contains p l = true <-> exists a b, l = a ++ p ++ b.
Proof.
  induction l as [|c l IH]; cbn [contains].
  - rewrite orb_false_r, starts_with_spec. split.
    + intros [r E]. exists [], r. exact E.
    + intros (a & b & E). destruct a; [eauto|discriminate].
  - rewrite orb_true_iff, starts_with_spec, IH. split.
    + intros [[r E]|(a & b & E)]; [exists [], r; exact E|exists (c :: a), b; rewrite E; reflexivity].
    + intros ([|a0 a] & b & E); [left; eauto|right]. injection E as -> E. eauto.
Qed.

Lemma split_first_spec c l : exists r, l = split_first c l ++ r /\ ~ In c (split_first c l) /\
  (r = [] \/ exists r', r = c :: r').
Proof.
  induction l as [|b l (r & E & Hn & Hr)]; cbn [split_first].
  - exists []. auto.
  - destruct (b =? c) eqn:Eb; zify_bool.
    + exists (b :: l). subst. split; [reflexivity|]. split; [intros []|eauto].
    + exists r. cbn. rewrite <- E. split; [reflexivity|]. split; [|exact Hr]. intros [->|H]; auto.
Qed.

Lemma find_byte_spec c l i : find_byte c l = Some i ->
  0 <= i < blen l /\ l = take (Z.to_nat i) l ++ c :: drop (Z.to_nat (i + 1)) l /\ split_first c l = take (Z.to_nat i) l.
Proof.
  revert i. induction l as [|b l IH]; intros i; cbn [find_byte split_first]; [discriminate|].
  rewrite blen_cons. pose proof (blen_nonneg l). destruct (b =? c) eqn:E; zify_bool.
  - intros [= <-]. subst. change (Z.to_nat (0 + 1)) with 1%nat. cbn. split_and!; [lia|lia|reflexivity|reflexivity].
  - destruct (find_byte c l) as [j|]; [|discriminate]. intros [= <-].
    destruct (IH j eq_refl) as (Hj & E1 & E2). split; [lia|].
    replace (Z.to_nat (Z.succ j)) with (S (Z.to_nat j)) by lia.
    replace (Z.to_nat (Z.succ j + 1)) with (S (Z.to_nat (j + 1))) by lia. cbn.
    split; [f_equal; exact E1|f_equal; exact E2].
Qed.

Lemma find_byte_None c l : find_byte c l = None -> split_first c l = l /\ ~ In c l.
Proof.
  induction l as [|b l IH]; cbn [find_byte split_first]; [auto|].
  destruct (b =? c) eqn:E; [discriminate|]. zify_bool.
  destruct (find_byte c l); [discriminate|]. intros _. destruct (IH eq_refl) as [E1 E2].
  split; [f_equal; exact E1|]. intros [->|H]; auto.
Qed.

Lemma take_drop_middle_at (c : Z) x y l i : l = x ++ c :: y -> 0 <= i -> Z.to_nat i = length x ->
  l = take (Z.to_nat i) l ++ c :: drop (Z.to_nat (i + 1)) l.
Proof.
  intros -> H0 Hi. replace (Z.to_nat (i + 1)) with (length (x ++ [c])) by (rewrite length_app; cbn; lia).
  rewrite Hi, take_app_length. change (x ++ c :: y) with (x ++ [c] ++ y).
  rewrite app_assoc, drop_app_length, <- app_assoc. reflexivity.
Qed.

Lemma rfind_byte_spec c l i : rfind_byte c l = Some i ->
  0 <= i < blen l /\ l = take (Z.to_nat i) l ++ c :: drop (Z.to_nat (i + 1)) l.
Proof.
  unfold rfind_byte. destruct (find_byte c (reverse l)) as [j|] eqn:E; [|discriminate].
  intros [= <-]. apply find_byte_spec in E as (Hj & E & _).
  unfold blen in *. rewrite length_reverse in Hj. split; [lia|].
  set (a := take _ (reverse l)) in E. set (b := drop _ (reverse l)) in E.
  assert (La : length a = Z.to_nat j) by (unfold a; rewrite length_take, length_reverse; lia).
  apply (f_equal reverse) in E. rewrite reverse_involutive, reverse_app, reverse_cons, <- app_assoc in E. cbn in E.
  assert (Lb : length (reverse b) = Z.to_nat (Z.of_nat (length l) - 1 - j)).
  { apply (f_equal length) in E. rewrite length_app in E. cbn in E. rewrite !length_reverse in *. lia. }
  apply (take_drop_middle_at c (reverse b) (reverse a)); [exact E|lia|lia].
Qed.
