(* ===== verification/ConfigParse.v ===== *)
(** * Values of configuration directives (src/src/config/parse.rs)

    The decimal, duration and size grammars, and that each accepts exactly
    the strings of its grammar whose value fits the machine word ([usize] is
    64 bits wide). *)
From S2P Require Import Prelude DataModel StdText.

(** ** The parsers *)

Definition checked_add64 (a b : Z) : option Z := checked64 (a + b).
Definition checked_mul64 (a b : Z) : option Z := checked64 (a * b).

(** The loop: [v.checked_mul(10)?.checked_add(d)?].
    [src/src/config/parse.rs: 71-78 parse_u64_ascii] *)
Fixpoint ascii_loop (v : Z) (s : list Z) : option Z :=
  match s with
  | [] => Some v
  | b :: s' =>
      if negb (is_digit b) then None
      else v1 ← checked_mul64 v 10; v2 ← checked_add64 v1 (b - 48); ascii_loop v2 s'
  end.

(** [src/src/config/parse.rs: parse_u64_ascii] *)
Definition parse_u64_ascii (s : list Z) : option Z :=
  match s with [] => None | _ => ascii_loop 0 s end.

Definition ends_with_ms (s : list Z) : bool := bytes_eqb (drop (length s - 2) s) $"ms".

(** The number part and the factor of a duration that does not end in [ms].
    [src/src/config/parse.rs: 22-28 parse_duration_ms] *)
Definition duration_unit (s : list Z) : list Z * Z :=
  let body := take (length s - 1) s in
  match list.last s with
  | Some 115 => (body, 1000)
  | Some 109 => (body, 60000)
  | Some 104 => (body, 3600000)
  | Some 100 => (body, 86400000)
  | _ => (s, 1000)
  end.

(** [src/src/config/parse.rs: parse_duration_ms] *)
Definition parse_duration_ms (s : list Z) : option Z :=
  match s with
  | [] => None
  | _ =>
      if ends_with_ms s then
        n ← parse_u64_ascii (take (length s - 2) s); checked_mul64 n 1
      else
        let '(num_bytes, suffix) := duration_unit s in
        n ← parse_u64_ascii num_bytes; checked_mul64 n suffix
  end.

(** [src/src/config/parse.rs: 38-50 parse_size_bytes] *)
Definition size_unit (s : list Z) : option (list Z * Z) :=
  match list.last s with
  | Some c =>
      if is_alpha c then
        match to_lower c with
        | 107 => Some (take (length s - 1) s, 1024)
        | 109 => Some (take (length s - 1) s, 1024 * 1024)
        | 103 => Some (take (length s - 1) s, 1024 * 1024 * 1024)
        | _ => None
        end
      else Some (s, 1)
  | None => Some (s, 1)
  end.

(** [src/src/config/parse.rs: parse_size_bytes] *)
Definition parse_size_bytes (s : list Z) : option Z :=
  match s with
  | [] => None
  | _ => '(num_bytes, mult) ← size_unit s; n ← parse_u64_ascii num_bytes; checked_mul64 n mult
  end.

(** [checked_next_multiple_of(8)].
    [src/src/config/parse.rs: align_ring_size] *)
Definition align_ring_size (n : Z) : option Z :=
  if n mod 8 =? 0 then Some n else checked64 (n + (8 - n mod 8)).

(** ** The grammars *)

Inductive time_unit := Millis | Seconds | Minutes | Hours | Days | Bare.
#[global] Instance time_unit_eq_dec : EqDecision time_unit.
Proof. solve_decision. Defined.
Definition unit_suffix (u : time_unit) : list Z :=
  match u with
  | Millis => $"ms" | Seconds => $"s" | Minutes => $"m" | Hours => $"h" | Days => $"d" | Bare => []
  end.
Definition unit_ms (u : time_unit) : Z :=
  match u with
  | Millis => 1 | Seconds => 1000 | Minutes => 60000 | Hours => 3600000 | Days => 86400000 | Bare => 1000
  end.

Inductive size_suffix := Kilo (upper : bool) | Mega (upper : bool) | Giga (upper : bool) | Bytes.
Definition size_text (u : size_suffix) : list Z :=
  match u with
  | Kilo true => $"K" | Kilo false => $"k" | Mega true => $"M" | Mega false => $"m"
  | Giga true => $"G" | Giga false => $"g" | Bytes => []
  end.
Definition size_factor (u : size_suffix) : Z :=
  match u with Kilo _ => 2 ^ 10 | Mega _ => 2 ^ 20 | Giga _ => 2 ^ 30 | Bytes => 1 end.

(** A non-empty digit string with its value. *)
Definition numeral (d : list Z) (v : Z) : Prop :=
  d <> [] /\ forallb is_digit d = true /\ v = dec_val d.

Lemma checked64_spec z v : checked64 z = Some v <-> v = z /\ 0 <= z <= u64_max.
Proof.
  unfold checked64. destruct ((0 <=? z) && (z <=? u64_max)) eqn:E; zify_bool.
  - split; [intros [= <-]; auto|intros [-> _]; reflexivity].
  - split; [discriminate|]. intros [_ H]. rewrite andb_false_iff in E. destruct E; zify_bool; lia.
Qed.

Lemma ascii_loop_digits s v : 0 <= v <= u64_max -> ascii_loop v s = digits_val u64_max v s.
Proof.
  revert v. induction s as [|b s IH]; intros v Hv; [reflexivity|]. cbn [ascii_loop digits_val].
  destruct (is_digit b) eqn:Eb; cbn [negb]; [|reflexivity].
  assert (0 <= b - 48 <= 9) by (unfold is_digit in Eb; zify_bool; lia).
  unfold checked_mul64, checked_add64, checked64.
  destruct (u64_max <? v * 10 + (b - 48)) eqn:E; zify_bool; cbn.
  - destruct ((0 <=? v * 10) && (v * 10 <=? u64_max)) eqn:E1; cbn; [|reflexivity].
    rewrite (proj2 (Z.leb_gt (v * 10 + (b - 48)) u64_max)) by lia. rewrite andb_false_r. reflexivity.
  - rewrite (proj2 (Z.leb_le 0 (v * 10))), (proj2 (Z.leb_le (v * 10) u64_max)) by lia. cbn.
    rewrite (proj2 (Z.leb_le 0 _)), (proj2 (Z.leb_le _ u64_max)) by lia. cbn. apply IH. lia.
Qed.

Lemma parse_u64_ascii_spec s v : parse_u64_ascii s = Some v <-> numeral s v /\ v <= u64_max.
Proof.
  unfold parse_u64_ascii, numeral. destruct s as [|b s]; [split; [discriminate|intros [[[] _] _]; reflexivity]|].
  rewrite ascii_loop_digits, digits_val_spec by (unfold u64_max; lia). unfold dec_val. intuition congruence.
Qed.

Lemma numeral_nonneg d v : numeral d v -> 0 <= v.
Proof. intros (_ & H & ->). apply (foldl_dec_ge d 0 ltac:(lia) H). Qed.

(** The number parser followed by a checked factor. *)
Lemma scaled_spec s m v : 1 <= m ->
  (n ← parse_u64_ascii s; checked_mul64 n m) = Some v <->
  exists n, numeral s n /\ v = n * m /\ v <= u64_max.
Proof.
  intros Hm. rewrite bind_Some. unfold checked_mul64. split.
  - intros (n & Hn & Hv). apply parse_u64_ascii_spec in Hn as [Hn _].
    apply checked64_spec in Hv as [-> Hv]. exists n. auto with lia.
  - intros (n & Hn & -> & Hv). pose proof (numeral_nonneg _ _ Hn).
    exists n. rewrite parse_u64_ascii_spec, checked64_spec. split; [split; [exact Hn|nia]|]. split; [reflexivity|nia].
Qed.

Lemma last_digit d v : numeral d v -> exists c, list.last d = Some c /\ 48 <= c <= 57.
Proof.
  intros (Hne & Hd & _). destruct (list.last d) as [c|] eqn:E; [|apply last_None in E; contradiction].
  exists c. split; [reflexivity|]. apply last_Some in E as [d' ->].
  rewrite forallb_app in Hd. unfold is_digit in Hd. cbn in Hd. zify_bool. lia.
Qed.

Lemma take_pred_snoc (d : list Z) c : take (length (d ++ [c]) - 1) (d ++ [c]) = d.
Proof. rewrite length_app. cbn. rewrite Nat.add_sub. apply take_app_length. Qed.

Lemma ends_with_ms_app d : ends_with_ms (d ++ $"ms") = true /\
  take (length (d ++ $"ms") - 2) (d ++ $"ms") = d.
Proof.
  assert (E : (length (d ++ $"ms") - 2)%nat = length d) by (rewrite length_app; cbn; lia).
  unfold ends_with_ms. rewrite E, drop_app_length, take_app_length. split; reflexivity.
Qed.

Lemma snoc_last (s : list Z) c : list.last s = Some c -> s = take (length s - 1) s ++ [c].
Proof. intros E. apply last_Some in E as [d ->]. rewrite take_pred_snoc. reflexivity. Qed.

Lemma ends_with_ms_inv s : ends_with_ms s = true -> s = take (length s - 2) s ++ $"ms".
Proof. unfold ends_with_ms. rewrite bytes_eqb_eq. intros E. rewrite <- E. symmetry. apply take_drop. Qed.

Ltac solve_unit u E := solve [exists u; split_and!; [discriminate|exact E|reflexivity]].

Lemma duration_unit_inv s num k : duration_unit s = (num, k) ->
  exists u, u <> Millis /\ s = num ++ unit_suffix u /\ k = unit_ms u.
Proof.
  unfold duration_unit.
  assert (Hb : (s, 1000) = (num, k) -> exists u, u <> Millis /\ s = num ++ unit_suffix u /\ k = unit_ms u)
    by (intros [= <- <-]; exists Bare; split_and!; [discriminate|symmetry; apply app_nil_r|reflexivity]).
  destruct (list.last s) as [c|] eqn:E; [|exact Hb].
  apply snoc_last in E.
  repeat case_match; try exact Hb; intros [= <- <-];
    first [solve_unit Days E|solve_unit Hours E|solve_unit Minutes E|solve_unit Seconds E].
Qed.

(** A digit string followed by a suffix of the grammar is read back. *)
Lemma duration_unit_of d v u : numeral d v -> u <> Millis ->
  duration_unit (d ++ unit_suffix u) = (d, unit_ms u) /\ ends_with_ms (d ++ unit_suffix u) = false.
Proof.
  intros Hd Hu. destruct (last_digit d v Hd) as (c & Hc & Hr). split.
  - destruct u; try contradiction; unfold duration_unit; cbn [unit_suffix];
      try (rewrite app_nil_r, Hc; assert (In c [48;49;50;51;52;53;54;55;56;57]) as Hi by (simpl; lia);
           simpl in Hi; repeat destruct Hi as [<-|Hi]; reflexivity || contradiction);
      match goal with |- context [$?t] => change $t with [byte_at $t 0] end;
      rewrite last_snoc, take_pred_snoc; reflexivity.
  - destruct (ends_with_ms _) eqn:E; [exfalso|reflexivity]. apply ends_with_ms_inv in E.
    set (r := take _ _) in E. clearbody r. apply (f_equal reverse) in E.
    apply last_Some in Hc as [d' ->]. rewrite !reverse_app in E.
    destruct u; try contradiction; cbn in E; injection E; intros;
      match goal with H : c = _ |- _ => vm_compute in H; lia | _ => idtac end.
Qed.

Lemma size_unit_inv s num k : size_unit s = Some (num, k) ->
  exists u, s = num ++ size_text u /\ k = size_factor u.
Proof.
  unfold size_unit.
  assert (Hb : Some (s, 1) = Some (num, k) -> exists u, s = num ++ size_text u /\ k = size_factor u)
    by (intros [= <- <-]; exists Bytes; split; [symmetry; apply app_nil_r|reflexivity]).
  destruct (list.last s) as [c|] eqn:E; [|exact Hb]. apply snoc_last in E.
  destruct (is_alpha c) eqn:Ea; [|exact Hb]. unfold to_lower.
  destruct (is_upper c) eqn:Eu; intros H.
  - assert (c + 32 = 107 \/ c + 32 = 109 \/ c + 32 = 103) as Hc by (repeat case_match; try discriminate; auto).
    destruct Hc as [Hc|[Hc|Hc]]; rewrite Hc in H; injection H as <- <-;
      [exists (Kilo true)|exists (Mega true)|exists (Giga true)]; (split; [|reflexivity]);
      [assert (c = 75) by lia|assert (c = 77) by lia|assert (c = 71) by lia]; subst c; exact E.
  - repeat case_match; try discriminate; injection H as <- <-;
      first [solve [exists (Giga false); split; [exact E|reflexivity]]
            |solve [exists (Kilo false); split; [exact E|reflexivity]]
            |exists (Mega false); split; [exact E|reflexivity]].
Qed.

Lemma size_unit_of d v u : numeral d v -> size_unit (d ++ size_text u) = Some (d, size_factor u).
Proof.
  intros Hd. destruct (last_digit d v Hd) as (c & Hc & Hr). unfold size_unit.
  destruct u as [[]|[]|[]|]; cbn [size_text];
    try (match goal with |- context [$?t] => change $t with [byte_at $t 0] end;
         rewrite last_snoc, take_pred_snoc; reflexivity).
  rewrite app_nil_r, Hc. replace (is_alpha c) with false; [reflexivity|].
  unfold is_alpha, is_upper, is_lower. symmetry. apply orb_false_iff. split; apply andb_false_iff; left; lia.
Qed.

(** ** The parsers accept exactly their grammars *)

(** A duration is a numeral followed by [ms], [s], [m], [h], [d] or nothing
    (seconds); a size is a numeral followed by one of [kKmMgG] or nothing.  A
    string is accepted exactly when it has that form and its value fits 64
    bits, and the value is the numeral times the unit: nothing is truncated or
    wrapped.  Rounding a ring size up gives the least multiple of 8. *)
Lemma config_values_grammar s v :
  (parse_duration_ms s = Some v <->
     exists d n u, s = d ++ unit_suffix u /\ numeral d n /\ v = n * unit_ms u /\ v <= u64_max) /\
  (parse_size_bytes s = Some v <->
     exists d n u, s = d ++ size_text u /\ numeral d n /\ v = n * size_factor u /\ v <= u64_max).
Proof.
  split; split.
  - unfold parse_duration_ms. destruct s as [|b s]; [discriminate|]. set (l := b :: s).
    destruct (ends_with_ms l) eqn:E.
    + intros H. apply scaled_spec in H as (n & Hn & -> & Hv); [|lia].
      exists (take (length l - 2) l), n, Millis. split_and!; auto. apply ends_with_ms_inv, E.
    + destruct (duration_unit l) as [num k] eqn:Eu. apply duration_unit_inv in Eu as (u & _ & El & ->).
      intros H. apply scaled_spec in H as (n & Hn & -> & Hv); [|destruct u; cbn; lia]. exists num, n, u. auto.
  - intros (d & n & u & -> & Hn & Hv & Hb). unfold parse_duration_ms.
    destruct (d ++ unit_suffix u) as [|b s] eqn:El; [exfalso; destruct Hn as [Hd _]; destruct d; [auto|discriminate]|].
    rewrite <- El. destruct (decide (u = Millis)) as [->|Hu].
    + cbn [unit_suffix]. destruct (ends_with_ms_app d) as [-> ->]. apply scaled_spec; [lia|]. exists n. auto.
    + destruct (duration_unit_of d n u Hn Hu) as [-> ->]. apply scaled_spec; [destruct u; cbn; lia|]. exists n. auto.
  - unfold parse_size_bytes. destruct s as [|b s]; [discriminate|]. set (l := b :: s). intros H.
    apply bind_Some in H as ([num k] & Eu & H). apply size_unit_inv in Eu as (u & El & ->).
    apply scaled_spec in H as (n & Hn & -> & Hv); [|destruct u; cbn; lia]. exists num, n, u. auto.
  - intros (d & n & u & -> & Hn & Hv & Hb). unfold parse_size_bytes.
    destruct (d ++ size_text u) as [|b s] eqn:El; [exfalso; destruct Hn as [Hd _]; destruct d; [auto|discriminate]|].
    rewrite <- El, (size_unit_of d n u Hn). cbn. apply scaled_spec; [destruct u; cbn; lia|]. exists n. auto.
Qed.

Lemma align_ring_size_spec n m : 0 <= n -> align_ring_size n = Some m ->
  n <= m < n + 8 /\ m mod 8 = 0.
Proof.
  intros Hn. unfold align_ring_size. case_if; [intros [= <-]; lia|].
  rewrite checked64_spec. intros [-> _]. zdiv.
Qed.
