(* ===== verification/Producer.v ===== *)
(** * The producer interface (src/src/logs/mod.rs)

    [LogProducer] is the trait the record writers are compiled against.  The
    class states what they rely on: a push either appends the record to what
    the producer holds or leaves it alone.  [WorkerRingProducer] implements
    it with a worker's ring; the law is discharged by the ring's refinement
    theorem. *)
From S2P Require Import Prelude Ring.

(** [src/src/logs/mod.rs: LogProducer] *)
Class LogProducer (P : Type) := {
  lp_push : P -> list Z -> bool * P;
  lp_holds : P -> list (list Z) -> Prop;
  lp_ready : P -> list Z -> Prop;
  lp_push_law : forall p q rec,
    lp_holds p q -> lp_ready p rec ->
    lp_holds (snd (lp_push p rec)) (if fst (lp_push p rec) then q ++ [rec] else q)
}.

(** [src/src/logs/mod.rs: WorkerRingProducer] *)
Record worker_ring_producer := mk_producer { wrp_ring : ring }.

(** [src/src/logs/mod.rs: WorkerRingProducer::push] *)
Definition worker_ring_push (p : worker_ring_producer) (rec : list Z) : bool * worker_ring_producer :=
  let '(ok, r) := push (wrp_ring p) rec in (ok, mk_producer r).

Lemma worker_ring_push_law p q rec :
  ring_ok (wrp_ring p) q -> write_offset (wrp_ring p) + (4 + blen rec) <= u64_max ->
  ring_ok (wrp_ring (snd (worker_ring_push p rec)))
    (if fst (worker_ring_push p rec) then q ++ [rec] else q).
Proof.
  intros Hok Hh. pose proof (push_refines_queue _ _ _ Hok Hh) as Hs.
  unfold worker_ring_push, push_spec in *.
  destruct (push (wrp_ring p) rec) as [ok r]. simpl in *.
  destruct (_ <=? _).
  - destruct Hs as (-> & Hs & _). exact Hs.
  - destruct Hs as [[= -> ->] Hs]. exact Hs.
Qed.

#[export] Instance ring_log_producer : LogProducer worker_ring_producer := {
  lp_push := worker_ring_push;
  lp_holds := fun p q => ring_ok (wrp_ring p) q;
  lp_ready := fun p rec => write_offset (wrp_ring p) + (4 + blen rec) <= u64_max;
  lp_push_law := worker_ring_push_law
}.
