(* ===== verification/AccessLog.v ===== *)
(** * Access-log records (src/src/logs/access.rs and the parser of
    src/src/drain/mod.rs)

    The worker serialises a sampled request into its ring; the exporter pops
    the bytes and rebuilds a [log_record].  The writer appends fields in the
    order of the wire format; the fixed stack buffer is never exceeded
    ([access_bytes_bound]).  The parser keeps the code's index arithmetic. *)
From S2P Require Import Prelude Ring DataModel Producer.

(** ** Caps *)

(** [src/src/logs/access.rs: MAX_ACCESS_RECORD] *)
Definition MAX_ACCESS_RECORD : Z := 336.
(** [src/src/logs/access.rs: MAX_URL_PATH] *)
Definition MAX_URL_PATH : Z := 64.
(** [src/src/logs/access.rs: MAX_USER_AGENT] *)
Definition MAX_USER_AGENT : Z := 128.
(** [src/src/logs/access.rs: MAX_CLIENT_ADDR] *)
Definition MAX_CLIENT_ADDR : Z := 46.
(** [src/src/logs/access.rs: MAX_METHOD] *)
Definition MAX_METHOD : Z := 16.

(** [src/src/logs/access.rs: ACCESS_RECORD_WORST_CASE] *)
Definition ACCESS_RECORD_WORST_CASE : Z :=
  1 + 8 + 1 + (2 + MAX_METHOD) + 2 + 8 + 8 + (2 + MAX_CLIENT_ADDR) + (1 + 16 + 8)
  + (2 + MAX_URL_PATH) + (2 + MAX_USER_AGENT) + 8.

(** [src/src/logs/access.rs: KIND_ACCESS] *)
Definition KIND_ACCESS : Z := 0.
(** [src/src/logs/access.rs: NGX_LEVEL_INFO] *)
Definition NGX_LEVEL_INFO : Z := 7.

(** [src/src/logs/access.rs: SampledRequest] *)
Record sampled_request := mk_req {
  rq_ts_unix_nano : Z;
  rq_trace : option (list Z * list Z);
  rq_url_path : list Z;
  rq_user_agent : list Z;
  rq_duration_us : Z;
  rq_combo_idx : Z;
  rq_method : list Z;
  rq_status : Z;
  rq_request_length : Z;
  rq_response_bytes : Z;
  rq_client_addr : list Z
}.

(** ** The writer *)

(** The macro [write_bytes_with_u16_len!].
    [src/src/logs/access.rs: 176-183 write_bytes_with_u16_len!] *)
Definition with_u16_len (data : list Z) (max : Z) : list Z :=
  let len := Z.min (blen data) max in
  be_bytes 2 (u16 len) ++ take (Z.to_nat len) data.

(** [src/src/logs/access.rs: 199-210 emit_access_record] *)
Definition trace_bytes (trace : option (list Z * list Z)) : list Z :=
  match trace with
  | Some (trace_id, span_id) => 1 :: trace_id ++ span_id
  | None => [0]
  end.

(** The buffer [buf[..pos]] that [emit_access_record] pushes.
    [src/src/logs/access.rs: emit_access_record] *)
Definition access_bytes (req : sampled_request) : list Z :=
  [KIND_ACCESS] ++ be_bytes 8 (rq_ts_unix_nano req) ++ [NGX_LEVEL_INFO] ++
  with_u16_len (rq_method req) MAX_METHOD ++
  be_bytes 2 (rq_status req) ++
  be_bytes 8 (rq_request_length req) ++
  be_bytes 8 (rq_response_bytes req) ++
  with_u16_len (rq_client_addr req) MAX_CLIENT_ADDR ++
  trace_bytes (rq_trace req) ++
  with_u16_len (rq_url_path req) MAX_URL_PATH ++
  with_u16_len (rq_user_agent req) MAX_USER_AGENT ++
  be_bytes 8 (rq_duration_us req).

(** [src/src/logs/access.rs: emit_access_record] *)
Definition emit_access_record {P} `{LogProducer P} (producer : P) (req : sampled_request) : bool * P :=
  lp_push producer (access_bytes req).

(** ** The parser *)

(** [src/src/drain/mod.rs: read_u16_prefixed] *)
Definition read_u16_prefixed (buf : list Z) (pos : Z) : list Z * Z :=
  if blen buf <? pos + 2 then ([], pos) else
  let len := be_val (sub buf pos 2) in
  let pos := pos + 2 in
  if blen buf <? pos + len then ([], pos) else (sub buf pos len, pos + len).

(** The trace-context bytes after the client address.
    [src/src/drain/mod.rs: 1991-2002 parse_access_record] *)
Definition read_trace (buf : list Z) (pos : Z) : list Z * list Z * Z :=
  if pos <? blen buf then
    let has_trace := byte_at buf pos in
    let pos := pos + 1 in
    if (has_trace =? 1) && (pos + 24 <=? blen buf)
    then (sub buf pos 16, sub buf (pos + 16) 8, pos + 24)
    else ([], [], pos)
  else ([], [], pos).

(** [src/src/drain/mod.rs: 2017-2050 parse_access_record] *)
Definition access_attributes (meth : list Z) (status req_len resp_bytes : Z)
    (client_addr url_path user_agent : list Z) (duration_us : option Z) : list key_value :=
  [KV $"http.request.method" (VString meth);
   KV $"http.response.status_code" (VInt status);
   KV $"http.server.request.body.size" (VInt (as_i64 req_len));
   KV $"http.server.response.body.size" (VInt (as_i64 resp_bytes));
   KV $"client.address" (VString client_addr)] ++
  (if blen url_path =? 0 then []
   else [KV $"url.path" (VString (from_utf8_lossy url_path))]) ++
  (if blen user_agent =? 0 then []
   else [KV $"user_agent.original" (VString (from_utf8_lossy user_agent))]) ++
  match duration_us with
  | Some d => [KV $"http.server.request.duration" (VDouble (F64 d 1000000))]
  | None => []
  end.

(** [src/src/drain/mod.rs: parse_access_record] *)
Definition parse_access_record (buf : list Z) (observed_now_ns : Z) : option log_record :=
  if blen buf <? 32 then None else
  if negb (byte_at buf 0 =? KIND_ACCESS) then None else
  let ts := be_val (sub buf 1 8) in
  let '(severity_number, severity_text) := nginx_to_otel (byte_at buf 9) in
  let method_len := be_val (sub buf 10 2) in
  let pos := 12 in
  if blen buf <? pos + method_len then None else
  let meth := from_utf8_lossy (sub buf pos method_len) in
  let pos := pos + method_len in
  if blen buf <? pos + 2 then None else
  let status := be_val (sub buf pos 2) in
  let pos := pos + 2 in
  if blen buf <? pos + 8 then None else
  let req_len := be_val (sub buf pos 8) in
  let pos := pos + 8 in
  if blen buf <? pos + 8 then None else
  let resp_bytes := be_val (sub buf pos 8) in
  let pos := pos + 8 in
  if blen buf <? pos + 2 then None else
  let addr_len := be_val (sub buf pos 2) in
  let pos := pos + 2 in
  let '(client_addr, pos) :=
    if pos + addr_len <=? blen buf
    then (from_utf8_lossy (sub buf pos addr_len), pos + addr_len)
    else ([], pos) in
  let '(trace_id, span_id, pos) := read_trace buf pos in
  let '(url_path, pos) := read_u16_prefixed buf pos in
  let '(user_agent, pos) := read_u16_prefixed buf pos in
  let duration_us := if pos + 8 <=? blen buf then Some (be_val (sub buf pos 8)) else None in
  Some {| lr_time := ts;
          lr_observed := observed_now_ns;
          lr_severity := severity_number;
          lr_severity_text := severity_text;
          lr_body := VString [];
          lr_attributes := access_attributes meth status req_len resp_bytes client_addr
                             url_path user_agent duration_us;
          lr_event_name := $"http.access";
          lr_trace_id := trace_id;
          lr_span_id := span_id |}.

(** ** Length-prefixed fields *)

Definition capped (data : list Z) (max : Z) : list Z := take (Z.to_nat max) data.

Lemma with_u16_len_capped data max :
  0 <= max < 65536 ->
  with_u16_len data max = be_bytes 2 (blen (capped data max)) ++ capped data max.
Proof.
  intros H. unfold with_u16_len, capped. pose proof (blen_nonneg data).
  rewrite blen_take, u16_small by lia. rewrite (Z.min_comm max). f_equal.
  destruct (Z.le_ge_cases (blen data) max).
  - rewrite Z.min_l by lia. rewrite !take_ge; unfold blen in *; reflexivity || lia.
  - rewrite Z.min_r by lia. reflexivity.
Qed.

Lemma blen_capped data max : 0 <= max -> 0 <= blen (capped data max) <= max.
Proof. intros. pose proof (blen_nonneg data). unfold capped. rewrite blen_take by lia. lia. Qed.

Lemma blen_with_u16_len data max :
  0 <= max < 65536 -> blen (with_u16_len data max) = 2 + blen (capped data max).
Proof. intros. rewrite with_u16_len_capped, blen_app, blen_be_bytes by lia. lia. Qed.

Lemma cursor_u16_len buf pos data max m :
  cursor buf pos (with_u16_len data max ++ m) -> 0 <= max < 65536 ->
  be_val (sub buf pos 2) = blen (capped data max) /\
  sub buf (pos + 2) (blen (capped data max)) = capped data max /\
  cursor buf (pos + 2 + blen (capped data max)) m /\
  pos + 2 + blen (capped data max) + blen m = blen buf.
Proof.
  intros Hc Hm. pose proof (blen_capped data max ltac:(lia)).
  rewrite with_u16_len_capped, <- app_assoc in Hc by lia.
  apply cursor_be in Hc as (E1 & Hc & E2); [|simpl; lia].
  split; [exact E1|]. split; [exact (cursor_sub _ _ _ _ Hc)|].
  split; [exact (cursor_next _ _ _ _ Hc)|]. rewrite blen_app in E2. lia.
Qed.

Lemma read_u16_prefixed_spec buf pos data max m :
  cursor buf pos (with_u16_len data max ++ m) -> 0 <= max < 65536 ->
  read_u16_prefixed buf pos = (capped data max, pos + 2 + blen (capped data max)) /\
  cursor buf (pos + 2 + blen (capped data max)) m.
Proof.
  intros Hc Hm. destruct (cursor_u16_len _ _ _ _ _ Hc Hm) as (E1 & E2 & E3 & E4).
  pose proof (blen_capped data max ltac:(lia)). pose proof (blen_nonneg m).
  split; [|exact E3]. unfold read_u16_prefixed. rewrite E1, E2. case_ifs. reflexivity.
Qed.

(** ** What a record must decode to *)

(** Field ranges of the Rust types. *)
Record req_wf (req : sampled_request) : Prop := {
  wf_ts : in_u 64 (rq_ts_unix_nano req);
  wf_status : in_u 16 (rq_status req);
  wf_reqlen : in_u 64 (rq_request_length req);
  wf_resp : in_u 64 (rq_response_bytes req);
  wf_dur : in_u 64 (rq_duration_us req);
  wf_trace : match rq_trace req with
             | Some (t, s) => blen t = 16 /\ blen s = 8
             | None => True
             end
}.

Definition access_log_record (req : sampled_request) (now : Z) : log_record :=
  {| lr_time := rq_ts_unix_nano req;
     lr_observed := now;
     lr_severity := SevInfo;
     lr_severity_text := $"info";
     lr_body := VString [];
     lr_attributes :=
       access_attributes (from_utf8_lossy (capped (rq_method req) MAX_METHOD))
         (rq_status req) (rq_request_length req) (rq_response_bytes req)
         (from_utf8_lossy (capped (rq_client_addr req) MAX_CLIENT_ADDR))
         (capped (rq_url_path req) MAX_URL_PATH) (capped (rq_user_agent req) MAX_USER_AGENT)
         (Some (rq_duration_us req));
     lr_event_name := $"http.access";
     lr_trace_id := match rq_trace req with Some (t, _) => t | None => [] end;
     lr_span_id := match rq_trace req with Some (_, s) => s | None => [] end |}.

Lemma read_trace_spec buf pos trace m :
  cursor buf pos (trace_bytes trace ++ m) ->
  match trace with Some (t, s) => blen t = 16 /\ blen s = 8 | None => True end ->
  exists pos', cursor buf pos' m /\
    read_trace buf pos =
      (match trace with Some (t, _) => t | None => [] end,
       match trace with Some (_, s) => s | None => [] end, pos').
Proof.
  intros Hc Hwf. pose proof (cursor_len _ _ _ Hc) as Hl.
  destruct trace as [[t s]|]; simpl in Hc, Hl.
  - destruct Hwf as [Ht Hs]. rewrite <- app_assoc in Hc, Hl.
    apply cursor_byte in Hc as [E1 Hc].
    pose proof (cursor_sub _ _ _ _ Hc) as E2. apply cursor_next in Hc.
    pose proof (cursor_sub _ _ _ _ Hc) as E3. apply cursor_next in Hc.
    rewrite Ht, Hs in *. rewrite blen_cons, !blen_app, Ht, Hs in Hl.
    pose proof (blen_nonneg m). exists (pos + 1 + 24). split.
    + replace (pos + 1 + 24) with (pos + 1 + 16 + 8) by lia. exact Hc.
    + unfold read_trace. rewrite E1, E2, E3. case_ifs. reflexivity.
  - apply cursor_byte in Hc as [E1 Hc]. exists (pos + 1). split; [exact Hc|].
    rewrite blen_cons in Hl. pose proof (blen_nonneg m).
    unfold read_trace. rewrite E1. case_ifs; reflexivity.
Qed.

Lemma blen_access_bytes req :
  req_wf req ->
  32 <= blen (access_bytes req) <= ACCESS_RECORD_WORST_CASE.
Proof.
  intros [_ _ _ _ _ Ht]. unfold access_bytes.
  rewrite !blen_app, !blen_be_bytes, !blen_with_u16_len by (vm_compute; intuition congruence).
  unfold ACCESS_RECORD_WORST_CASE, MAX_METHOD, MAX_CLIENT_ADDR, MAX_URL_PATH, MAX_USER_AGENT.
  pose proof (blen_capped (rq_method req) 16). pose proof (blen_capped (rq_client_addr req) 46).
  pose proof (blen_capped (rq_url_path req) 64). pose proof (blen_capped (rq_user_agent req) 128).
  assert (1 <= blen (trace_bytes (rq_trace req)) <= 25).
  { unfold trace_bytes. destruct (rq_trace req) as [[t s]|]; rewrite ?blen_cons, ?blen_app, ?blen_nil; lia. }
  change (blen [KIND_ACCESS]) with 1. change (blen [NGX_LEVEL_INFO]) with 1. lia.
Qed.

Lemma pow256_8 z : in_u 64 z -> 0 <= z < 256 ^ Z.of_nat 8.
Proof. intros H. exact H. Qed.

Lemma parse_access_bytes req now :
  req_wf req ->
  parse_access_record (access_bytes req) now = Some (access_log_record req now).
Proof.
  intros Hwf. pose proof (blen_access_bytes req Hwf) as Hb.
  destruct Hwf as [H1 H2 H3 H4 H5 H6].
  set (buf := access_bytes req) in *. pose proof (cursor_start buf) as Hc.
  unfold buf at 2 in Hc. unfold access_bytes in Hc.
  apply cursor_byte in Hc as [E0 Hc].
  apply cursor_be in Hc as (E1 & Hc & L1); [|exact (pow256_8 _ H1)].
  apply cursor_byte in Hc as [E2 Hc].
  apply cursor_u16_len in Hc as (E3 & E3' & Hc & L3); [|vm_compute; intuition congruence].
  apply cursor_be in Hc as (E4 & Hc & L4); [|exact H2].
  apply cursor_be in Hc as (E5 & Hc & L5); [|exact (pow256_8 _ H3)].
  apply cursor_be in Hc as (E6 & Hc & L6); [|exact (pow256_8 _ H4)].
  apply cursor_u16_len in Hc as (E7 & E7' & Hc & L7); [|vm_compute; intuition congruence].
  apply read_trace_spec in Hc as (p8 & Hc & E8); [|exact H6].
  apply read_u16_prefixed_spec in Hc as (E9 & Hc); [|vm_compute; intuition congruence].
  apply read_u16_prefixed_spec in Hc as (E10 & Hc); [|vm_compute; intuition congruence].
  rewrite <- (app_nil_r (be_bytes 8 _)) in Hc.
  apply cursor_be in Hc as (E11 & _ & L11); [|exact (pow256_8 _ H5)].
  rewrite blen_nil in L11.
  change (0 + 1) with 1 in *. change (1 + Z.of_nat 8) with 9 in *. change (9 + 1) with 10 in *.
  change (10 + 2) with 12 in *. change (Z.of_nat 2) with 2 in *. change (Z.of_nat 8) with 8 in *.
  pose proof (blen_capped (rq_method req) MAX_METHOD ltac:(vm_compute; congruence)).
  pose proof (blen_capped (rq_client_addr req) MAX_CLIENT_ADDR ltac:(vm_compute; congruence)).
  repeat match goal with L : _ + blen ?m = blen buf |- _ =>
    pose proof (blen_nonneg m); generalize dependent (blen m); intros end.
  unfold parse_access_record. rewrite E0, E1, E2, E3, E3', E4, E5, E6, E7, E7'.
  cbn [nginx_to_otel NGX_LEVEL_INFO].
  case_ifs. rewrite E8, E9, E10. case_ifs. rewrite E11. reflexivity.
Qed.

(** The record fits the writer's stack buffer. *)
Lemma access_record_bound req : req_wf req -> blen (access_bytes req) <= MAX_ACCESS_RECORD.
Proof.
  intros Hwf. pose proof (blen_access_bytes req Hwf) as [_ H]. eapply Z.le_trans; [exact H|]. vm_compute. discriminate.
Qed.

(** Whatever a producer accepts is handed to the exporter unchanged. *)
Lemma emit_access_holds {P} `{LogProducer P} (p : P) q req :
  lp_holds p q -> lp_ready p (access_bytes req) ->
  lp_holds (snd (emit_access_record p req))
    (if fst (emit_access_record p req) then q ++ [access_bytes req] else q).
Proof. apply lp_push_law. Qed.

(** ** Properties *)


(** End to end through the worker's ring: after the worker emits
    a request into a ring holding [q], draining the ring yields [q] followed by the
    record exactly when the push was accepted, and nothing else. *)
Theorem access_emit_drain p q req :
  ring_ok (wrp_ring p) q ->
  write_offset (wrp_ring p) + (4 + blen (access_bytes req)) <= u64_max ->
  fst (pop_all (S (length q)) (wrp_ring (snd (emit_access_record p req)))) =
    q ++ (if fst (emit_access_record p req) then [access_bytes req] else []).
Proof.
  intros Hok Hh. pose proof (emit_access_holds p q req Hok Hh) as Hq.
  destruct (emit_access_record p req) as [ok p']. cbn [fst snd] in *.
  destruct (pop_all_drains (S (length q)) _ _ Hq) as [-> _].
  destruct ok; [apply take_ge; rewrite length_app; simpl; lia|].
  rewrite app_nil_r. apply take_ge. lia.
Qed.

(** *** Witnesses *)

Definition sample_req : sampled_request :=
  mk_req 1700000000000000000 (Some (replicate 16 171, replicate 8 205)) $"/index.html"
    (replicate 200 65) 1500 21 $"GET" 200 512 4096 $"127.0.0.1".

Lemma sample_req_wf : req_wf sample_req.
Proof. split; vm_compute; intuition congruence. Qed.


Lemma access_emit_drain_witness :
  fst (pop_all 1 (wrp_ring (snd (emit_access_record (mk_producer (fresh_ring 1024)) sample_req))))
  = [access_bytes sample_req].
Proof.
  apply (access_emit_drain (mk_producer (fresh_ring 1024)) [] sample_req);
    [apply fresh_ring_ok; unfold u32_max; lia|vm_compute; congruence].
Defined.
