(* ===== verification/Traceparent.v ===== *)
(** * W3C trace context headers (src/src/logs/access.rs,
    src/src/metric_source/span_start.rs)

    The parser of an inbound [traceparent] value and the encoder of the
    outbound one.  They are shown to be inverse to each other, so the parser
    accepts exactly the canonical version-00 headers with non-zero ids. *)
From S2P Require Import Prelude DataModel.

Definition DASH : Z := 45.
Definition ZERO_CHAR : Z := 48.

(** [src/src/logs/access.rs: hex_nibble] *)
Definition hex_nibble (c : Z) : option Z :=
  if (48 <=? c) && (c <=? 57) then Some (c - 48)
  else if (97 <=? c) && (c <=? 102) then Some (c - 97 + 10)
  else None.

(** The loop shared by [decode_hex16] and [decode_hex8]: [n] pairs.
    [src/src/logs/access.rs: 294-302 decode_hex16] *)
Fixpoint decode_hex (n : nat) (hex : list Z) : option (list Z) :=
  match n with
  | O => Some []
  | S n' =>
      match hex with
      | h :: l :: rest =>
          match hex_nibble h, hex_nibble l with
          | Some h, Some l => cons (Z.lor (Z.shiftl h 4) l) <$> decode_hex n' rest
          | _, _ => None
          end
      | _ => None
      end
  end.

(** [src/src/logs/access.rs: decode_hex16] *)
Definition decode_hex16 (hex : list Z) : option (list Z) :=
  if blen hex <? 32 then None else decode_hex 16 hex.

(** [src/src/logs/access.rs: decode_hex8] *)
Definition decode_hex8 (hex : list Z) : option (list Z) :=
  if blen hex <? 16 then None else decode_hex 8 hex.

(** [src/src/logs/access.rs: parse_traceparent_full] *)
Definition parse_traceparent_full (header : list Z) : option (list Z * list Z * Z) :=
  if blen header <? 55 then None else
  if negb (byte_at header 0 =? ZERO_CHAR) || negb (byte_at header 1 =? ZERO_CHAR)
     || negb (byte_at header 2 =? DASH) then None else
  match decode_hex16 (sub header 3 32) with
  | None => None
  | Some trace_id =>
    if negb (byte_at header 35 =? DASH) then None else
    match decode_hex8 (sub header 36 16) with
    | None => None
    | Some parent_span_id =>
      if negb (byte_at header 52 =? DASH) then None else
      match hex_nibble (byte_at header 53), hex_nibble (byte_at header 54) with
      | Some hi, Some lo =>
          let flags := Z.lor (Z.shiftl hi 4) lo in
          if negb (blen header =? 55) then None else
          if bytes_eqb trace_id (replicate 16 0) then None else
          if bytes_eqb parent_span_id (replicate 8 0) then None else
          Some (trace_id, parent_span_id, flags)
      | _, _ => None
      end
    end
  end.

(** [src/src/logs/access.rs: parse_traceparent] *)
Definition parse_traceparent (header : list Z) : option (list Z * list Z) :=
  (fun r : list Z * list Z * Z => fst r) <$> parse_traceparent_full header.

Definition HEX : list Z := $"0123456789abcdef".

(** [src/src/metric_source/span_start.rs: hex_encode_into_slice] *)
Definition hex_encode (src : list Z) : list Z :=
  concat (map (fun byte => [byte_at HEX (Z.shiftr byte 4); byte_at HEX (Z.land byte 15)]) src).

(** [src/src/metric_source/span_start.rs: build_traceparent_value] *)
Definition build_traceparent_value (trace_id span_id : list Z) (trace_flags : Z) : list Z :=
  [ZERO_CHAR; ZERO_CHAR; DASH] ++ hex_encode trace_id ++ [DASH] ++
  hex_encode span_id ++ [DASH] ++ hex_encode [trace_flags].

(** ** Hex digits *)

Definition nibble_char_ok (v : Z) : bool :=
  bool_decide (hex_nibble (byte_at HEX v) = Some v).

Lemma hex_nibble_HEX v : 0 <= v < 16 -> hex_nibble (byte_at HEX v) = Some v.
Proof.
  intros Hv. pose proof (byte_forall (fun v => (16 <=? v) || nibble_char_ok v) eq_refl v) as H.
  unfold is_byte in H. specialize (H ltac:(lia)). apply orb_prop in H as [H|H]; zify_bool; [lia|].
  apply bool_decide_eq_true in H. exact H.
Qed.

Lemma hex_nibble_Some c v : hex_nibble c = Some v -> 0 <= v < 16 /\ byte_at HEX v = c.
Proof.
  unfold hex_nibble. intros H.
  assert (Hc : 48 <= c < 103 /\ 0 <= v < 16 /\ (c = v + 48 \/ c = v + 87 /\ 10 <= v)).
  { destruct ((48 <=? c) && (c <=? 57)) eqn:E1; zify_bool; [simplify_eq; lia|].
    destruct ((97 <=? c) && (c <=? 102)) eqn:E2; zify_bool; [simplify_eq; lia|discriminate]. }
  destruct Hc as (_ & Hv & _). split; [assumption|].
  pose proof (hex_nibble_HEX v Hv) as H1. unfold hex_nibble in H1.
  destruct ((48 <=? c) && (c <=? 57)) eqn:E1;
  destruct ((48 <=? byte_at HEX v) && (byte_at HEX v <=? 57)) eqn:E2;
  destruct ((97 <=? c) && (c <=? 102)) eqn:E3;
  destruct ((97 <=? byte_at HEX v) && (byte_at HEX v <=? 102)) eqn:E4;
  zify_bool; simplify_eq; lia.
Qed.

Lemma nibbles_lor h l : 0 <= h < 16 -> 0 <= l < 16 ->
  let b := Z.lor (Z.shiftl h 4) l in
  is_byte b /\ Z.shiftr b 4 = h /\ Z.land b 15 = l.
Proof.
  intros Hh Hl.
  assert (Hb : is_byte (16 * h + l)) by (unfold is_byte; lia).
  pose proof (byte_forall (fun b => (Z.lor (Z.shiftl (b / 16) 4) (b mod 16) =? b) &&
    (Z.shiftr b 4 =? b / 16) && (Z.land b 15 =? b mod 16)) eq_refl _ Hb) as H.
  cbv beta in H. replace ((16 * h + l) / 16) with h in H by zdiv.
  replace ((16 * h + l) mod 16) with l in H by zdiv. zify_bool.
  cbv zeta. rewrite H. auto.
Qed.

Lemma byte_nibbles b : is_byte b ->
  0 <= Z.shiftr b 4 < 16 /\ 0 <= Z.land b 15 < 16 /\
  Z.lor (Z.shiftl (Z.shiftr b 4) 4) (Z.land b 15) = b.
Proof.
  intros Hb.
  pose proof (byte_forall (fun b => (0 <=? Z.shiftr b 4) && (Z.shiftr b 4 <? 16) &&
    (0 <=? Z.land b 15) && (Z.land b 15 <? 16) &&
    (Z.lor (Z.shiftl (Z.shiftr b 4) 4) (Z.land b 15) =? b)) eq_refl b Hb) as H.
  cbv beta in H. zify_bool. lia.
Qed.

(** Decoding reads back what the encoder writes. *)
Lemma decode_hex_encode l m :
  bytes_ok l -> decode_hex (length l) (hex_encode l ++ m) = Some l.
Proof.
  induction 1 as [|b l Hb Hl IH]; simpl; [reflexivity|].
  destruct (byte_nibbles b Hb) as (H1 & H2 & H3).
  rewrite !hex_nibble_HEX by assumption. fold (hex_encode l). rewrite IH. simpl. rewrite H3.
  reflexivity.
Qed.

Lemma blen_hex_encode l : blen (hex_encode l) = 2 * blen l.
Proof.
  induction l as [|b l IH]; [reflexivity|].
  unfold hex_encode in *. simpl. rewrite !blen_cons, IH. lia.
Qed.

Lemma hex_encode_cons b l :
  hex_encode (b :: l) =
    byte_at HEX (Z.shiftr b 4) :: byte_at HEX (Z.land b 15) :: hex_encode l.
Proof. reflexivity. Qed.

(** Whatever decodes was written by the encoder. *)
Lemma decode_hex_inv n hex out :
  decode_hex n hex = Some out ->
  length out = n /\ bytes_ok out /\ take (2 * n) hex = hex_encode out.
Proof.
  revert hex out. induction n as [|n IH]; intros hex out H.
  - simpl in H. simplify_eq. repeat split. constructor.
  - simpl in H. destruct hex as [|h [|l rest]]; try discriminate.
    destruct (hex_nibble h) as [vh|] eqn:Eh; [|discriminate].
    destruct (hex_nibble l) as [vl|] eqn:El; [|discriminate].
    destruct (decode_hex n rest) as [o|] eqn:Eo; [|discriminate].
    simpl in H. simplify_eq. destruct (IH _ _ Eo) as (I1 & I2 & I3).
    apply hex_nibble_Some in Eh as [Hh Ch]. apply hex_nibble_Some in El as [Hl Cl].
    destruct (nibbles_lor vh vl Hh Hl) as (B1 & B2 & B3). cbv zeta in *.
    split_and!; [simpl; congruence|constructor; assumption|].
    replace (2 * S n)%nat with (S (S (2 * n)))%nat by lia.
    rewrite hex_encode_cons, B2, B3, Ch, Cl, <- I3. reflexivity.
Qed.

Definition nonzero_id (n : nat) (id : list Z) : Prop :=
  length id = n /\ bytes_ok id /\ id <> replicate n 0.

Lemma parse_build_traceparent t s f :
  nonzero_id 16 t -> nonzero_id 8 s -> is_byte f ->
  parse_traceparent_full (build_traceparent_value t s f) = Some (t, s, f).
Proof.
  intros (Lt & Bt & Nt) (Ls & Bs & Ns) Hf.
  set (h := build_traceparent_value t s f).
  assert (Ht : blen (hex_encode t) = 32) by (rewrite blen_hex_encode; unfold blen; lia).
  assert (Hs : blen (hex_encode s) = 16) by (rewrite blen_hex_encode; unfold blen; lia).
  assert (Hlen : blen h = 55).
  { unfold h, build_traceparent_value. rewrite !blen_app, !blen_hex_encode.
    unfold blen in *. simpl in *. lia. }
  pose proof (cursor_start h) as Hc. unfold h at 2 in Hc. unfold build_traceparent_value in Hc.
  apply cursor_byte in Hc as [E0 Hc]. apply cursor_byte in Hc as [E1 Hc].
  apply cursor_byte in Hc as [E2 Hc]. change (0 + 1 + 1 + 1) with 3 in Hc.
  pose proof (cursor_sub _ _ _ _ Hc) as E3. apply cursor_next in Hc. rewrite Ht in *.
  apply cursor_byte in Hc as [E4 Hc]. change (3 + 32 + 1) with 36 in Hc.
  pose proof (cursor_sub _ _ _ _ Hc) as E5. apply cursor_next in Hc. rewrite Hs in *.
  apply cursor_byte in Hc as [E6 Hc]. change (36 + 16 + 1) with 53 in Hc.
  rewrite hex_encode_cons in Hc. apply cursor_byte in Hc as [E7 Hc].
  apply cursor_byte in Hc as [E8 _].
  change (0 + 1 + 1) with 2 in *. change (0 + 1) with 1 in *. change (3 + 32) with 35 in *.
  change (36 + 16) with 52 in *. change (53 + 1) with 54 in *.
  destruct (byte_nibbles f Hf) as (F1 & F2 & F3).
  unfold parse_traceparent_full, decode_hex16, decode_hex8.
  rewrite Hlen, E0, E1, E2, E3, E4, E5, E6, E7, E8, Ht, Hs, !hex_nibble_HEX, F3 by assumption.
  pose proof (decode_hex_encode t [] Bt) as D1. rewrite app_nil_r, Lt in D1.
  pose proof (decode_hex_encode s [] Bs) as D2. rewrite app_nil_r, Ls in D2.
  cbn [Z.ltb Z.compare Pos.compare Pos.compare_cont]. rewrite D1, D2.
  unfold bytes_eqb. rewrite !bool_decide_eq_false_2 by assumption. reflexivity.
Qed.

Lemma split_55 (h : list Z) :
  blen h = 55 ->
  h = [byte_at h 0; byte_at h 1; byte_at h 2] ++ sub h 3 32 ++ [byte_at h 35] ++
      sub h 36 16 ++ [byte_at h 52] ++ [byte_at h 53; byte_at h 54].
Proof.
  intros Hl. unfold blen in Hl.
  do 55 (destruct h as [|? h]; [discriminate|]). destruct h; [reflexivity|simpl in Hl; lia].
Qed.

Lemma parse_traceparent_inv h t s f :
  parse_traceparent_full h = Some (t, s, f) ->
  nonzero_id 16 t /\ nonzero_id 8 s /\ is_byte f /\ h = build_traceparent_value t s f.
Proof.
  unfold parse_traceparent_full, decode_hex16, decode_hex8. intros H.
  destruct (blen h <? 55); [discriminate|].
  destruct (negb (byte_at h 0 =? ZERO_CHAR) || _ || _) eqn:E0; [discriminate|].
  destruct (blen (sub h 3 32) <? 32); [discriminate|].
  destruct (decode_hex 16 (sub h 3 32)) as [t'|] eqn:Et; [|discriminate].
  destruct (negb (byte_at h 35 =? DASH)) eqn:E1; [discriminate|].
  destruct (blen (sub h 36 16) <? 16); [discriminate|].
  destruct (decode_hex 8 (sub h 36 16)) as [s'|] eqn:Es; [|discriminate].
  destruct (negb (byte_at h 52 =? DASH)) eqn:E2; [discriminate|].
  destruct (hex_nibble (byte_at h 53)) as [hi|] eqn:Eh; [|discriminate].
  destruct (hex_nibble (byte_at h 54)) as [lo|] eqn:El; [|discriminate].
  destruct (negb (blen h =? 55)) eqn:E3; [discriminate|].
  destruct (bytes_eqb t' _) eqn:Nt; [discriminate|].
  destruct (bytes_eqb s' _) eqn:Ns; [discriminate|]. injection H as <- <- <-.
  apply bool_decide_eq_false in Nt, Ns. zify_bool.
  apply decode_hex_inv in Et as (T1 & T2 & T3). apply decode_hex_inv in Es as (S1 & S2 & S3).
  apply hex_nibble_Some in Eh as [Hh Ch]. apply hex_nibble_Some in El as [Hl Cl].
  destruct (nibbles_lor hi lo Hh Hl) as (B1 & B2 & B3). cbv zeta in *.
  split_and!; try assumption; try (split_and!; assumption).
  rewrite (split_55 h) by assumption. unfold build_traceparent_value.
  rewrite take_ge in T3, S3 by (unfold sub; rewrite length_take; lia).
  rewrite hex_encode_cons, B2, B3, Ch, Cl. change (hex_encode []) with (@nil Z). congruence.
Qed.

(** ** Properties *)

(** C20 (roundtrip). Parsing inverts building and accepts nothing else: a header
    parses to [(trace_id, span_id, flags)] exactly when it is the 55-byte version-00 header
    built from them and both ids are non-zero, so upper-case digits, trailing characters,
    other versions and zero ids are all rejected.
    About: parse_traceparent_full, build_traceparent_value, hex_encode, hex_nibble, decode_hex16, decode_hex8. *)
Theorem traceparent_exact h t s f :
  parse_traceparent_full h = Some (t, s, f) <->
  nonzero_id 16 t /\ nonzero_id 8 s /\ is_byte f /\ h = build_traceparent_value t s f.
Proof.
  split; [apply parse_traceparent_inv|].
  intros (Ht & Hs & Hf & ->). apply parse_build_traceparent; assumption.
Qed.
