(* ===== verification/Slots.v ===== *)
(** * Per-worker metric slots (src/src/shm/mod.rs)

    The closed attribute enumerations with the index of the base histogram
    table, the exemplar reservoir of a data point, and the block of counters a
    worker owns in the metrics zone. *)
From S2P Require Import Prelude DataModel Histogram AccessLog.

(** ** Closed dimensions *)

(** [src/src/shm/mod.rs: HttpMethod] *)
Inductive http_method := MGet | MHead | MPost | MPut | MDelete | MPatch | MOptions | MOther.

(** [src/src/shm/mod.rs: HttpMethod::from_bytes] *)
Definition method_from_bytes (m : list Z) : http_method :=
  if bytes_eqb m $"GET" then MGet else if bytes_eqb m $"HEAD" then MHead
  else if bytes_eqb m $"POST" then MPost else if bytes_eqb m $"PUT" then MPut
  else if bytes_eqb m $"DELETE" then MDelete else if bytes_eqb m $"PATCH" then MPatch
  else if bytes_eqb m $"OPTIONS" then MOptions else MOther.

(** The discriminant, [method as usize].
    [src/src/shm/mod.rs: 46-55 HttpMethod] *)
Definition method_idx (m : http_method) : Z :=
  match m with
  | MGet => 0 | MHead => 1 | MPost => 2 | MPut => 3
  | MDelete => 4 | MPatch => 5 | MOptions => 6 | MOther => 7
  end.

(** [src/src/shm/mod.rs: HttpMethod::from_index] *)
Definition method_from_index (idx : Z) : http_method :=
  match idx with
  | 0 => MGet | 1 => MHead | 2 => MPost | 3 => MPut
  | 4 => MDelete | 5 => MPatch | 6 => MOptions | _ => MOther
  end.

(** [src/src/shm/mod.rs: HttpMethod::as_str] *)
Definition method_as_str (m : http_method) : list Z :=
  match m with
  | MGet => $"GET" | MHead => $"HEAD" | MPost => $"POST" | MPut => $"PUT"
  | MDelete => $"DELETE" | MPatch => $"PATCH" | MOptions => $"OPTIONS" | MOther => $"_OTHER"
  end.

(** [src/src/shm/mod.rs: StatusClass] *)
Inductive status_class := S1xx | S2xx | S3xx | S4xx | S5xx.

(** [src/src/shm/mod.rs: StatusClass::from_status] *)
Definition class_from_status (status : Z) : status_class :=
  if (100 <=? status) && (status <=? 199) then S1xx
  else if (200 <=? status) && (status <=? 299) then S2xx
  else if (300 <=? status) && (status <=? 399) then S3xx
  else if (400 <=? status) && (status <=? 499) then S4xx
  else S5xx.

(** The discriminant, [status_class as usize].
    [src/src/shm/mod.rs: 108-114 StatusClass] *)
Definition class_idx (c : status_class) : Z :=
  match c with S1xx => 0 | S2xx => 1 | S3xx => 2 | S4xx => 3 | S5xx => 4 end.

(** [src/src/shm/mod.rs: StatusClass::from_index] *)
Definition class_from_index (idx : Z) : status_class :=
  match idx with 0 => S1xx | 1 => S2xx | 2 => S3xx | 3 => S4xx | _ => S5xx end.

(** [src/src/shm/mod.rs: StatusClass::as_str] *)
Definition class_as_str (c : status_class) : list Z :=
  match c with
  | S1xx => $"1xx" | S2xx => $"2xx" | S3xx => $"3xx" | S4xx => $"4xx" | S5xx => $"5xx"
  end.

(** [src/src/shm/mod.rs: ProtoVersion] *)
Inductive proto_version := Http10 | Http11 | Http2 | Http3.

(** [src/src/shm/mod.rs: ProtoVersion::from_ngx] *)
Definition proto_from_ngx (http_version : Z) : proto_version :=
  match http_version with
  | 1000 => Http10 | 1001 => Http11 | 2000 => Http2 | 3000 => Http3 | _ => Http11
  end.

(** The discriminant, [proto as usize].
    [src/src/shm/mod.rs: 181-186 ProtoVersion] *)
Definition proto_idx (p : proto_version) : Z :=
  match p with Http10 => 0 | Http11 => 1 | Http2 => 2 | Http3 => 3 end.

(** [src/src/shm/mod.rs: ProtoVersion::from_index] *)
Definition proto_from_index (idx : Z) : proto_version :=
  match idx with 0 => Http10 | 1 => Http11 | 2 => Http2 | _ => Http3 end.

(** [src/src/shm/mod.rs: ProtoVersion::as_str] *)
Definition proto_as_str (p : proto_version) : list Z :=
  match p with Http10 => $"1.0" | Http11 => $"1.1" | Http2 => $"2" | Http3 => $"3" end.

(** [src/src/shm/mod.rs: N_HTTP_METHODS] *)
Definition N_HTTP_METHODS : Z := 8.
(** [src/src/shm/mod.rs: N_STATUS_CLASSES] *)
Definition N_STATUS_CLASSES : Z := 5.
(** [src/src/shm/mod.rs: N_PROTO_VERSIONS] *)
Definition N_PROTO_VERSIONS : Z := 4.
(** [src/src/shm/mod.rs: ROUTE_CAP] *)
Definition ROUTE_CAP : Z := 64.
(** [src/src/shm/mod.rs: N_ROUTE_SLOTS] *)
Definition N_ROUTE_SLOTS : Z := ROUTE_CAP + 1.
(** [src/src/shm/mod.rs: UPSTREAM_CAP] *)
Definition UPSTREAM_CAP : Z := 32.
(** [src/src/shm/mod.rs: N_UPSTREAM_SLOTS] *)
Definition N_UPSTREAM_SLOTS : Z := UPSTREAM_CAP + 1.
(** [src/src/shm/mod.rs: N_COMBOS] *)
Definition N_COMBOS : Z := N_HTTP_METHODS * N_STATUS_CLASSES * N_PROTO_VERSIONS.

(** [src/src/shm/mod.rs: combo_index] *)
Definition combo_index (m : http_method) (c : status_class) (p : proto_version) : Z :=
  method_idx m * N_STATUS_CLASSES * N_PROTO_VERSIONS + class_idx c * N_PROTO_VERSIONS + proto_idx p.

(** ** Exemplar reservoir *)

(** [src/src/shm/mod.rs: EXEMPLAR_RESERVOIR_SIZE] *)
Definition EXEMPLAR_RESERVOIR_SIZE : Z := 2.

(** [src/src/shm/mod.rs: ExemplarEntry] *)
Record exemplar_entry := mk_entry {
  ee_value_us : Z;
  ee_trace_id_lo : Z;
  ee_trace_id_hi : Z;
  ee_span_id : Z;
  ee_ts_unix_nano : Z;
  ee_combo_idx : Z;
  ee_has_trace : Z
}.

Definition zero_entry : exemplar_entry := mk_entry 0 0 0 0 0 0 0.

(** [src/src/shm/mod.rs: ExemplarReservoir] *)
Record exemplar_reservoir := mk_reservoir {
  seen : Z;
  entries : list exemplar_entry
}.

(** [src/src/shm/mod.rs: ExemplarSnapshot] *)
Record exemplar_snapshot := mk_snapshot {
  sn_value_us : Z;
  sn_combo_idx : Z;
  sn_has_trace : bool;
  sn_trace_id : list Z;
  sn_span_id : list Z;
  sn_ts_unix_nano : Z
}.

(** SplitMix64 finaliser.
    [src/src/shm/mod.rs: ExemplarReservoir::rand_index] *)
Definition rand_index (n : Z) : Z :=
  let z := n +w64 11400714819323198485 in
  let z := u64 (Z.lxor z (Z.shiftr z 30) * 13787848793156543929) in
  let z := u64 (Z.lxor z (Z.shiftr z 27) * 10723151780598845931) in
  Z.lxor z (Z.shiftr z 31).

(** The stores into the chosen entry: a request without trace context leaves
    the entry's ids as they were.
    [src/src/shm/mod.rs: 480-493 ExemplarReservoir::write] *)
Definition store_entry (e : exemplar_entry) (req : sampled_request) : exemplar_entry :=
  match rq_trace req with
  | Some (tid, sid) =>
      mk_entry (rq_duration_us req) (be_val (slice tid 0 8)) (be_val (slice tid 8 16)) (be_val sid)
        (rq_ts_unix_nano req) (rq_combo_idx req) 1
  | None =>
      mk_entry (rq_duration_us req) (ee_trace_id_lo e) (ee_trace_id_hi e) (ee_span_id e)
        (rq_ts_unix_nano req) (rq_combo_idx req) 0
  end.

(** Slot chosen for the [n]-th measurement of the cycle.
    [src/src/shm/mod.rs: 475-476 ExemplarReservoir::write] *)
Definition reservoir_bucket (n : Z) : Z :=
  if n <? EXEMPLAR_RESERVOIR_SIZE then n else rand_index n mod (n + 1).

(** [src/src/shm/mod.rs: ExemplarReservoir::write] *)
Definition reservoir_write (r : exemplar_reservoir) (req : sampled_request) : exemplar_reservoir :=
  let n := seen r in
  let bucket := reservoir_bucket n in
  mk_reservoir (n +w64 1)
    (if EXEMPLAR_RESERVOIR_SIZE <=? bucket then entries r
     else alter (fun e => store_entry e req) (Z.to_nat bucket) (entries r)).

(** [src/src/shm/mod.rs: 528-546 ExemplarReservoir::snapshot] *)
Definition snapshot_entry (e : exemplar_entry) : exemplar_snapshot :=
  mk_snapshot (ee_value_us e) (ee_combo_idx e) (negb (ee_has_trace e =? 0))
    (be_bytes 8 (ee_trace_id_lo e) ++ be_bytes 8 (ee_trace_id_hi e)) (be_bytes 8 (ee_span_id e))
    (ee_ts_unix_nano e).

(** [src/src/shm/mod.rs: ExemplarReservoir::snapshot] *)
Definition reservoir_snapshot (r : exemplar_reservoir) : list exemplar_snapshot :=
  let filled := Z.min (seen r) EXEMPLAR_RESERVOIR_SIZE in
  map snapshot_entry (take (Z.to_nat filled) (entries r)).

(** [src/src/shm/mod.rs: ExemplarReservoir::reset] *)
Definition reservoir_reset (r : exemplar_reservoir) : exemplar_reservoir := mk_reservoir 0 (entries r).

(** ** The worker's block *)

(** [src/src/shm/mod.rs: WorkerSlots] *)
Record worker_slots := mk_slots {
  request_duration_combos : list exp_slot;
  route_duration_combos : list exp_slot;
  upstream_duration_combos : list exp_slot;
  request_body_bytes : histogram;
  response_body_bytes : histogram;
  upstream_response_ms : histogram;
  upstream_header_ms : histogram;
  upstream_connect_ms : histogram;
  upstream_bytes_received : histogram;
  upstream_bytes_sent : histogram;
  exemplar_reservoirs : list exemplar_reservoir;
  error_rate_counters : list Z
}.

(** ** Properties of the index *)

Lemma method_idx_inv i : 0 <= i < 8 -> method_idx (method_from_index i) = i.
Proof. intros Hi. assert (In i [0;1;2;3;4;5;6;7]) as H by (simpl; lia).
  simpl in H. repeat destruct H as [<-|H]; reflexivity || contradiction. Qed.

Lemma class_idx_inv i : 0 <= i < 5 -> class_idx (class_from_index i) = i.
Proof. intros Hi. assert (In i [0;1;2;3;4]) as H by (simpl; lia).
  simpl in H. repeat destruct H as [<-|H]; reflexivity || contradiction. Qed.

Lemma proto_idx_inv i : 0 <= i < 4 -> proto_idx (proto_from_index i) = i.
Proof. intros Hi. assert (In i [0;1;2;3]) as H by (simpl; lia).
  simpl in H. repeat destruct H as [<-|H]; reflexivity || contradiction. Qed.

(** The base table index of a (method, status class, protocol)
    triple is in bounds, and the table is a bijection: the exporter's
    [from_index] decoders recover the triple from the index, and every one of
    the [N_COMBOS] slots belongs to exactly one triple. *)
Theorem combo_index_bijective :
  (forall m c p, let i := combo_index m c p in
     0 <= i < N_COMBOS /\
     method_from_index (i / (N_STATUS_CLASSES * N_PROTO_VERSIONS)) = m /\
     class_from_index (i / N_PROTO_VERSIONS mod N_STATUS_CLASSES) = c /\
     proto_from_index (i mod N_PROTO_VERSIONS) = p) /\
  (forall i, 0 <= i < N_COMBOS ->
     combo_index (method_from_index (i / (N_STATUS_CLASSES * N_PROTO_VERSIONS)))
       (class_from_index (i / N_PROTO_VERSIONS mod N_STATUS_CLASSES))
       (proto_from_index (i mod N_PROTO_VERSIONS)) = i).
Proof.
  split.
  - intros [] [] []; vm_compute; intuition congruence.
  - unfold N_COMBOS, N_HTTP_METHODS, N_STATUS_CLASSES, N_PROTO_VERSIONS. intros i Hi.
    unfold combo_index. rewrite method_idx_inv, class_idx_inv, proto_idx_inv by zdiv.
    unfold N_STATUS_CLASSES, N_PROTO_VERSIONS. zdiv.
Qed.

(** ** The reservoir holds samples of the current cycle *)

(** Trace ids are [[u8; 16]] and [[u8; 8]]. *)
Definition trace_ok (req : sampled_request) : Prop :=
  match rq_trace req with
  | Some (t, s) => blen t = 16 /\ blen s = 8 /\ bytes_ok t /\ bytes_ok s
  | None => True
  end.

(** The exported snapshot is exactly the measurement of [req]. *)
Definition snapshot_of (s : exemplar_snapshot) (req : sampled_request) : Prop :=
  sn_value_us s = rq_duration_us req /\ sn_combo_idx s = rq_combo_idx req /\
  sn_ts_unix_nano s = rq_ts_unix_nano req /\
  match rq_trace req with
  | Some (t, sid) => sn_has_trace s = true /\ sn_trace_id s = t /\ sn_span_id s = sid
  | None => sn_has_trace s = false
  end.

Definition writes (r : exemplar_reservoir) (reqs : list sampled_request) : exemplar_reservoir :=
  foldl reservoir_write r reqs.

Lemma be_split8 t : blen t = 16 -> bytes_ok t ->
  be_bytes 8 (be_val (slice t 0 8)) ++ be_bytes 8 (be_val (slice t 8 16)) = t.
Proof.
  intros Hl Hb. unfold slice, sub. change (Z.to_nat 0) with 0%nat.
  change (8 - 0) with 8. change (16 - 8) with 8. change (Z.to_nat 8) with 8%nat. rewrite drop_0.
  unfold blen in Hl.
  assert (L1 : length (take 8 t) = 8%nat) by (rewrite length_take; lia).
  assert (L2 : length (take 8 (drop 8 t)) = 8%nat) by (rewrite length_take, length_drop; lia).
  pose proof (be_bytes_be_val (take 8 t)) as E1. pose proof (be_bytes_be_val (take 8 (drop 8 t))) as E2.
  rewrite L1 in E1. rewrite L2 in E2. rewrite E1, E2 by auto with otel.
  rewrite (take_ge (drop 8 t)) by (rewrite length_drop; lia). apply take_drop.
Qed.

Lemma store_entry_snapshot e req : trace_ok req -> snapshot_of (snapshot_entry (store_entry e req)) req.
Proof.
  unfold trace_ok, snapshot_of, store_entry. destruct (rq_trace req) as [[t s]|]; [|cbn; auto].
  intros (Ht & Hs & Bt & Bs). cbn -[be_bytes be_val slice].
  rewrite (be_split8 t Ht Bt). unfold blen in Hs.
  pose proof (be_bytes_be_val s Bs) as E. replace (length s) with 8%nat in E by lia. rewrite E. split_and!; reflexivity.
Qed.

(** After [k] measurements the first [min k 2] entries are measurements of the cycle. *)
Definition reservoir_inv (r : exemplar_reservoir) (reqs : list sampled_request) : Prop :=
  seen r = Z.of_nat (length reqs) /\ length (entries r) = 2%nat /\
  forall i e, (i < length reqs)%nat -> entries r !! i = Some e ->
    exists req, In req reqs /\ snapshot_of (snapshot_entry e) req.

Lemma reservoir_bucket_nonneg n : 0 <= n -> 0 <= reservoir_bucket n.
Proof. intros. unfold reservoir_bucket. case_if; [lia|]. apply Z.mod_pos_bound. lia. Qed.

Lemma reservoir_write_inv r reqs req :
  reservoir_inv r reqs -> trace_ok req -> Z.of_nat (length reqs) < u64_max ->
  reservoir_inv (reservoir_write r req) (reqs ++ [req]).
Proof.
  intros (Hn & Hl & Hi) Ht Hb. unfold reservoir_inv, reservoir_write. cbn [seen entries].
  rewrite length_app. cbn [length]. split; [rewrite u64_small; lia|].
  split; [case_if; rewrite ?length_alter; assumption|].
  pose proof (reservoir_bucket_nonneg (seen r)) as Hb0.
  intros i e Hlt He.
  assert (Hold : (i < length reqs)%nat -> entries r !! i = Some e ->
                 exists q, In q (reqs ++ [req]) /\ snapshot_of (snapshot_entry e) q).
  { intros L E. destruct (Hi i e L E) as (q & Q1 & Q2). exists q. rewrite in_app_iff. auto. }
  destruct (EXEMPLAR_RESERVOIR_SIZE <=? reservoir_bucket (seen r)) eqn:E; zify_bool.
  - apply Hold; [|exact He]. pose proof (lookup_lt_Some _ _ _ He).
    assert (Z.of_nat i <> seen r); [|lia]. intros E'.
    unfold reservoir_bucket in *. unfold EXEMPLAR_RESERVOIR_SIZE in *.
    rewrite (proj2 (Z.ltb_lt (seen r) 2)) in * by lia. lia.
  - destruct (decide (i = Z.to_nat (reservoir_bucket (seen r)))) as [->|Hne].
    + rewrite list_lookup_alter_eq in He. destruct (entries r !! _) as [e0|]; [|discriminate].
      injection He as <-. exists req. split; [apply in_app_iff; simpl; auto|].
      apply store_entry_snapshot. exact Ht.
    + rewrite list_lookup_alter_ne in He by congruence.
      apply Hold; [|exact He].
      assert (i <> length reqs); [|lia]. intros ->.
      pose proof (lookup_lt_Some _ _ _ He). apply Hne.
      unfold reservoir_bucket, EXEMPLAR_RESERVOIR_SIZE.
      rewrite (proj2 (Z.ltb_lt (seen r) 2)) by lia. lia.
Qed.

Lemma writes_inv reqs r : length (entries r) = 2%nat -> Forall trace_ok reqs ->
  Z.of_nat (length reqs) <= u64_max -> reservoir_inv (writes (reservoir_reset r) reqs) reqs.
Proof.
  intros Hl. induction reqs as [|q reqs IH] using rev_ind; intros Ht Hn.
  - unfold reservoir_inv, writes. cbn. split_and!; auto. lia.
  - apply Forall_app in Ht as [Ht Hq]. rewrite length_app in Hn. cbn in Hn.
    unfold writes. rewrite foldl_app. cbn. apply reservoir_write_inv.
    + apply IH; [exact Ht|lia].
    + inversion Hq; auto.
    + lia.
Qed.

(** What a snapshot of such a reservoir holds. *)
Lemma reservoir_inv_snapshot r reqs : reservoir_inv r reqs ->
  Z.of_nat (length (reservoir_snapshot r)) = Z.min (Z.of_nat (length reqs)) EXEMPLAR_RESERVOIR_SIZE /\
  Forall (fun s => exists req, In req reqs /\ snapshot_of s req) (reservoir_snapshot r).
Proof.
  intros (I1 & I2 & I3). unfold reservoir_snapshot. rewrite length_map, length_take, I1, I2.
  unfold EXEMPLAR_RESERVOIR_SIZE. split; [lia|].
  apply Forall_map, Forall_lookup. intros i e He. apply lookup_take_Some in He as [He Hlt].
  apply (I3 i e); [lia|exact He].
Qed.

(** C37 (invariant). After a reset, whatever requests are recorded, a snapshot
    of a data point's reservoir has [min k 2] exemplars and each one is a
    measurement of a request recorded since that reset, with that request's
    duration, time, data point and trace ids; nothing stale is exported.
    About: reservoir_write, reservoir_snapshot, reservoir_reset, rand_index, exemplar_reservoir, exemplar_entry, exemplar_snapshot. *)
Theorem reservoir_exports_current_cycle r reqs :
  length (entries r) = 2%nat -> Forall trace_ok reqs -> Z.of_nat (length reqs) <= u64_max ->
  let snap := reservoir_snapshot (writes (reservoir_reset r) reqs) in
  Z.of_nat (length snap) = Z.min (Z.of_nat (length reqs)) EXEMPLAR_RESERVOIR_SIZE /\
  Forall (fun s => exists req, In req reqs /\ snapshot_of s req) snap.
Proof.
  intros Hl Ht Hn. apply reservoir_inv_snapshot, writes_inv; assumption.
Qed.

Definition sample_measure (d : Z) (tr : option (list Z * list Z)) : sampled_request :=
  mk_req (d * 7) tr [] [] d 3 [] 200 0 0 [].

Lemma reservoir_exports_current_cycle_witness :
  map sn_value_us (reservoir_snapshot (writes (mk_reservoir 0 [zero_entry; zero_entry])
    (map (fun d => sample_measure d None) [10; 11; 12; 13; 14; 15; 16; 17]))) = [10; 13] /\
  Z.of_nat (length (reservoir_snapshot (writes (reservoir_reset (mk_reservoir 9 [zero_entry; zero_entry]))
    [sample_measure 5 (Some (replicate 16 7, replicate 8 9))]))) = 1.
Proof.
  split; [vm_compute; reflexivity|].
  refine (proj1 (reservoir_exports_current_cycle (mk_reservoir 9 [zero_entry; zero_entry])
    [sample_measure 5 (Some (replicate 16 7, replicate 8 9))] _ _ _)).
  - reflexivity.
  - repeat constructor; vm_compute; congruence.
  - vm_compute. discriminate.
Defined.
