(* ===== verification/SpanRecord.v ===== *)
(** * Span records (src/src/traces/mod.rs)

    The worker serialises a finished server span into its spans ring; the
    exporter parses it back into an OTLP span.  The parser is written in a small
    reader monad over the buffer and the code's cursor [pos], whose failure is
    the code's [return None]. *)
From S2P Require Import Prelude Ring DataModel Producer AccessLog Slots.

(** ** Caps *)

(** [src/src/traces/mod.rs: MAX_SPAN_NAME] *)
Definition MAX_SPAN_NAME : Z := 64.
(** [src/src/traces/mod.rs: MAX_URL_QUERY] *)
Definition MAX_URL_QUERY : Z := 128.
(** [src/src/traces/mod.rs: MAX_SPAN_ROUTE] *)
Definition MAX_SPAN_ROUTE : Z := 64.
(** [src/src/traces/mod.rs: MAX_SERVER_ADDR] *)
Definition MAX_SERVER_ADDR : Z := 64.
(** [src/src/traces/mod.rs: MAX_SPAN_EXTRA_ATTRS] *)
Definition MAX_SPAN_EXTRA_ATTRS : Z := 4.
(** [src/src/traces/mod.rs: MAX_SPAN_ATTR_KEY] *)
Definition MAX_SPAN_ATTR_KEY : Z := 32.
(** [src/src/traces/mod.rs: MAX_SPAN_ATTR_VAL] *)
Definition MAX_SPAN_ATTR_VAL : Z := 64.

(** [src/src/traces/mod.rs: SPAN_RECORD_FIXED_HDR] *)
Definition SPAN_RECORD_FIXED_HDR : Z := 16 + 8 + 8 + 4 + 8 + 8 + 1 + 1.

(** [src/src/traces/mod.rs: SPAN_RECORD_WORST_CASE] *)
Definition SPAN_RECORD_WORST_CASE : Z :=
  SPAN_RECORD_FIXED_HDR + (2 + MAX_SPAN_NAME) + (2 + MAX_METHOD) + 2 + (2 + MAX_URL_PATH) + 8
  + 1 + 1 + 2 + 2 + 2 + 8 + 8
  + (2 + MAX_URL_QUERY) + (2 + MAX_SPAN_ROUTE) + (2 + MAX_USER_AGENT) + (2 + MAX_SERVER_ADDR)
  + (2 + MAX_CLIENT_ADDR) + (2 + MAX_CLIENT_ADDR) + 2
  + MAX_SPAN_EXTRA_ATTRS * (1 + MAX_SPAN_ATTR_KEY + 2 + MAX_SPAN_ATTR_VAL).

(** [src/src/traces/mod.rs: MAX_SPAN_RECORD] *)
Definition MAX_SPAN_RECORD : Z := Z.land (SPAN_RECORD_WORST_CASE + 15) (Z.lnot 15).

(** [src/src/traces/mod.rs: SpanRecord] *)
Record span_record := mk_sr {
  sr_trace_id : list Z;
  sr_span_id : list Z;
  sr_parent_span_id : list Z;
  sr_flags : Z;
  sr_start : Z;
  sr_end : Z;
  sr_status_code : Z;
  sr_kind : Z;
  sr_name : list Z;
  sr_method : list Z;
  sr_http_status : Z;
  sr_url_path : list Z;
  sr_duration_us : Z;
  sr_proto : Z;
  sr_scheme_https : bool;
  sr_server_port : Z;
  sr_client_port : Z;
  sr_peer_port : Z;
  sr_req_body_size : Z;
  sr_resp_body_size : Z;
  sr_url_query : list Z;
  sr_route : list Z;
  sr_user_agent : list Z;
  sr_server_address : list Z;
  sr_client_address : list Z;
  sr_peer_address : list Z;
  sr_extra_attrs : list (list Z * list Z)
}.

(** ** The writer *)

(** One extra attribute.
    [src/src/traces/mod.rs: 312-317 emit_span_record] *)
Definition attr_bytes (kv : list Z * list Z) : list Z :=
  let k := capped (fst kv) MAX_SPAN_ATTR_KEY in
  let v := capped (snd kv) MAX_SPAN_ATTR_VAL in
  [u8 (blen k)] ++ k ++ be_bytes 2 (u16 (blen v)) ++ v.

(** [src/src/traces/mod.rs: 309-311 emit_span_record] *)
Definition used_attrs (rec : span_record) : list (list Z * list Z) :=
  take (Z.to_nat (Z.min (Z.of_nat (length (sr_extra_attrs rec))) MAX_SPAN_EXTRA_ATTRS))
    (sr_extra_attrs rec).

(** The buffer [buf[..pos]] that [emit_span_record] pushes.
    [src/src/traces/mod.rs: emit_span_record] *)
Definition span_bytes (rec : span_record) : list Z :=
  sr_trace_id rec ++ sr_span_id rec ++ sr_parent_span_id rec ++
  be_bytes 4 (sr_flags rec) ++ be_bytes 8 (sr_start rec) ++ be_bytes 8 (sr_end rec) ++
  [sr_status_code rec] ++ [sr_kind rec] ++
  with_u16_len (sr_name rec) MAX_SPAN_NAME ++
  with_u16_len (sr_method rec) MAX_METHOD ++
  be_bytes 2 (sr_http_status rec) ++
  with_u16_len (sr_url_path rec) MAX_URL_PATH ++
  be_bytes 8 (sr_duration_us rec) ++
  [sr_proto rec] ++ [if sr_scheme_https rec then 1 else 0] ++
  be_bytes 2 (sr_server_port rec) ++ be_bytes 2 (sr_client_port rec) ++ be_bytes 2 (sr_peer_port rec) ++
  be_bytes 8 (sr_req_body_size rec) ++ be_bytes 8 (sr_resp_body_size rec) ++
  with_u16_len (sr_url_query rec) MAX_URL_QUERY ++
  with_u16_len (sr_route rec) MAX_SPAN_ROUTE ++
  with_u16_len (sr_user_agent rec) MAX_USER_AGENT ++
  with_u16_len (sr_server_address rec) MAX_SERVER_ADDR ++
  with_u16_len (sr_client_address rec) MAX_CLIENT_ADDR ++
  with_u16_len (sr_peer_address rec) MAX_CLIENT_ADDR ++
  be_bytes 2 (u16 (Z.of_nat (length (used_attrs rec)))) ++
  concat (map attr_bytes (used_attrs rec)).

(** [src/src/traces/mod.rs: emit_span_record] *)
Definition emit_span_record {P} `{LogProducer P} (producer : P) (rec : span_record) : bool * P :=
  lp_push producer (span_bytes rec).

(** ** The reader *)

(** A reader takes the buffer and the cursor; [None] is [return None]. *)
Definition reader (A : Type) : Type := list Z -> Z -> option (A * Z).
Definition rret {A} (a : A) : reader A := fun _ pos => Some (a, pos).
Definition rbind {A B} (m : reader A) (f : A -> reader B) : reader B :=
  fun buf pos => match m buf pos with Some (a, pos') => f a buf pos' | None => None end.
Notation "x <~ m ;; f" := (rbind m (fun x => f)) (at level 100, m at next level, right associativity).

(** [if pos + n > buf.len() { return None; }] *)
Definition need (n : Z) : reader unit :=
  fun buf pos => if blen buf <? pos + n then None else Some (tt, pos).
(** [buf[pos..pos + n]], then [pos += n]. *)
Definition raw (n : Z) : reader (list Z) := fun buf pos => Some (sub buf pos n, pos + n).
(** [uN::from_be_bytes] of the next [n] bytes. *)
Definition rbe (n : Z) : reader Z := b <~ raw n ;; rret (be_val b).
Definition rbyte : reader Z := fun buf pos => Some (byte_at buf pos, pos + 1).

(** [src/src/traces/mod.rs: 433-447 read_capped_str!] *)
Definition read_capped_str : reader (list Z) :=
  _ <~ need 2 ;; len <~ rbe 2 ;; _ <~ need len ;; b <~ raw len ;; rret (from_utf8_lossy b).

(** The loop over the extra attributes; [break] keeps what was read.
    [src/src/traces/mod.rs: 498-520 parse_span_record] *)
Fixpoint read_attrs (n : nat) (buf : list Z) (pos : Z) : list key_value :=
  match n with
  | O => []
  | S n' =>
      match (_ <~ need 1 ;; k_len <~ rbyte ;; _ <~ need k_len ;; k <~ raw k_len ;;
             _ <~ need 2 ;; v_len <~ rbe 2 ;; _ <~ need v_len ;; v <~ raw v_len ;;
             rret (KV (from_utf8_lossy k) (VString (from_utf8_lossy v)))) buf pos with
      | Some (kv, pos') => kv :: read_attrs n' buf pos'
      | None => []
      end
  end.

Definition attr_if (b : bool) (k : list Z) (v : any_value) : list key_value :=
  if b then [KV k v] else [].
Definition nonempty (l : list Z) : bool := negb (blen l =? 0).

(** The attributes built from the decoded fields, in order.
    [src/src/traces/mod.rs: 521-618 parse_span_record] *)
Definition span_attributes (extra : list key_value) (meth : list Z) (http_status : Z)
    (url_path : list Z) (duration_us : Z) (url_query route : list Z) (scheme_https : bool)
    (proto : Z) (user_agent : list Z) (req_body resp_body : Z) (server_address : list Z)
    (server_port : Z) (client_address : list Z) (client_port : Z) (peer_address : list Z)
    (peer_port : Z) : list key_value :=
  extra ++
  attr_if (nonempty meth) $"http.request.method" (VString meth) ++
  attr_if (0 <? http_status) $"http.response.status_code" (VInt http_status) ++
  attr_if (nonempty url_path) $"url.path" (VString url_path) ++
  attr_if (0 <? duration_us) $"http.server.request.duration" (VDouble (F64 duration_us 1000000)) ++
  attr_if (nonempty url_query) $"url.query" (VString url_query) ++
  attr_if (nonempty route) $"http.route" (VString route) ++
  [KV $"url.scheme" (VString (if scheme_https then $"https" else $"http"));
   KV $"network.protocol.version" (VString (proto_as_str (proto_from_index proto)))] ++
  attr_if (nonempty user_agent) $"user_agent.original" (VString user_agent) ++
  [KV $"http.request.body.size" (VInt (as_i64 req_body));
   KV $"http.response.body.size" (VInt (as_i64 resp_body))] ++
  attr_if (nonempty server_address) $"server.address" (VString server_address) ++
  attr_if (0 <? server_port) $"server.port" (VInt server_port) ++
  attr_if (nonempty client_address) $"client.address" (VString client_address) ++
  attr_if (0 <? client_port) $"client.port" (VInt client_port) ++
  attr_if (nonempty peer_address) $"network.peer.address" (VString peer_address) ++
  attr_if (0 <? peer_port) $"network.peer.port" (VInt peer_port) ++
  attr_if (500 <=? http_status) $"error.type" (VString (fmt_dec http_status)).

(** [src/src/traces/mod.rs: 365-369 parse_span_record] *)
Definition status_of (raw : Z) : status_code :=
  match raw with 1 => StOk | 2 => StError | _ => StUnset end.
(** [src/src/traces/mod.rs: 371-378 parse_span_record] *)
Definition kind_of (raw : Z) : span_kind :=
  match raw with
  | 1 => KindInternal | 2 => KindServer | 3 => KindClient | 4 => KindProducer
  | 5 => KindConsumer | _ => KindUnspecified
  end.

(** [src/src/traces/mod.rs: parse_span_record] *)
Definition parse_span_record (buf : list Z) (observed_ns : Z) : option span :=
  if blen buf <? SPAN_RECORD_FIXED_HDR + 2 then None else
  fst <$> (
  trace_id <~ raw 16 ;; span_id <~ raw 8 ;; parent <~ raw 8 ;;
  flags <~ rbe 4 ;; start <~ rbe 8 ;; end_ <~ rbe 8 ;;
  status_raw <~ rbyte ;; kind_raw <~ rbyte ;;
  name <~ read_capped_str ;; meth <~ read_capped_str ;;
  _ <~ need 2 ;; http_status <~ rbe 2 ;;
  url_path <~ read_capped_str ;;
  _ <~ need 8 ;; duration_us <~ rbe 8 ;;
  _ <~ need 2 ;; proto <~ rbyte ;; scheme <~ rbyte ;;
  _ <~ need 6 ;; server_port <~ rbe 2 ;; client_port <~ rbe 2 ;; peer_port <~ rbe 2 ;;
  _ <~ need 16 ;; req_body <~ rbe 8 ;; resp_body <~ rbe 8 ;;
  url_query <~ read_capped_str ;; route <~ read_capped_str ;; user_agent <~ read_capped_str ;;
  server_address <~ read_capped_str ;; client_address <~ read_capped_str ;;
  peer_address <~ read_capped_str ;;
  extra <~ (fun buf pos =>
    Some (if pos + 2 <=? blen buf
          then read_attrs (Z.to_nat (Z.min (be_val (sub buf pos 2)) MAX_SPAN_EXTRA_ATTRS)) buf (pos + 2)
          else [], pos)) ;;
  rret {| sp_trace_id := trace_id;
          sp_span_id := span_id;
          sp_parent_span_id := if bytes_eqb parent (replicate 8 0) then [] else parent;
          sp_flags := flags;
          sp_name := name;
          sp_kind := kind_of kind_raw;
          sp_start := start;
          sp_end := end_;
          sp_attributes := span_attributes extra meth http_status url_path duration_us url_query
            route (negb (scheme =? 0)) proto user_agent req_body resp_body server_address server_port
            client_address client_port peer_address peer_port;
          sp_events := [];
          sp_links := [];
          sp_status := mk_status (status_of status_raw) [] |}) buf 0.

(** ** Reader specifications

    [reads m f a]: wherever the cursor stands before the field [f], [m] yields
    [a] and moves past it.  [yields m f a]: [m] yields [a] on the remaining
    bytes [f]. *)
Definition reads {A} (m : reader A) (f : list Z) (a : A) : Prop :=
  forall buf pos rest, cursor buf pos (f ++ rest) -> m buf pos = Some (a, pos + blen f).
Definition yields {A} (m : reader A) (f : list Z) (a : A) : Prop :=
  forall buf pos, cursor buf pos f -> fst <$> m buf pos = Some a.

Lemma reads_bind {A B} (m : reader A) (k : A -> reader B) f g a b :
  reads m f a -> reads (k a) g b -> reads (rbind m k) (f ++ g) b.
Proof.
  intros Hm Hk buf pos rest Hc. unfold rbind. rewrite <- app_assoc in Hc.
  rewrite (Hm _ _ _ Hc). apply cursor_next in Hc. rewrite (Hk _ _ _ Hc), blen_app. do 2 f_equal; lia.
Qed.

Lemma yields_bind {A B} (m : reader A) (k : A -> reader B) f g a b :
  reads m f a -> yields (k a) g b -> yields (rbind m k) (f ++ g) b.
Proof.
  intros Hm Hk buf pos Hc. unfold rbind. rewrite (Hm _ _ _ Hc).
  apply cursor_next in Hc. exact (Hk _ _ Hc).
Qed.

Lemma yields_need {B} (k : reader B) n f b :
  n <= blen f -> yields k f b -> yields (rbind (need n) (fun _ => k)) f b.
Proof.
  intros Hn Hk buf pos Hc. unfold rbind, need. rewrite (cursor_len _ _ _ Hc).
  rewrite (proj2 (Z.ltb_ge _ _)) by lia. exact (Hk _ _ Hc).
Qed.

Lemma reads_need {B} (k : reader B) n f b :
  n <= blen f -> reads k f b -> reads (rbind (need n) (fun _ => k)) f b.
Proof.
  intros Hn Hk buf pos rest Hc. unfold rbind, need. rewrite (cursor_len _ _ _ Hc), blen_app.
  pose proof (blen_nonneg rest). rewrite (proj2 (Z.ltb_ge _ _)) by lia. exact (Hk _ _ _ Hc).
Qed.

Lemma reads_ret {A} (a : A) : reads (rret a) [] a.
Proof. intros buf pos rest _. unfold rret. rewrite blen_nil, Z.add_0_r. reflexivity. Qed.

Lemma reads_raw f n : n = blen f -> reads (raw n) f f.
Proof. intros -> buf pos rest Hc. unfold raw. rewrite (cursor_sub _ _ _ _ Hc). reflexivity. Qed.

Lemma reads_be (k : nat) n z : n = Z.of_nat k -> 0 <= z < 256 ^ Z.of_nat k ->
  reads (rbe n) (be_bytes k z) z.
Proof.
  intros -> Hz. unfold rbe. rewrite <- (app_nil_r (be_bytes k z)).
  eapply reads_bind; [apply reads_raw; rewrite blen_be_bytes; reflexivity|].
  rewrite be_val_be_bytes_small by exact Hz. apply reads_ret.
Qed.

Lemma reads_byte b : reads rbyte [b] b.
Proof. intros buf pos rest Hc. unfold rbyte. apply cursor_byte in Hc as [-> _]. reflexivity. Qed.

Lemma reads_str data max : 0 <= max < 65536 ->
  reads read_capped_str (with_u16_len data max) (from_utf8_lossy (capped data max)).
Proof.
  intros Hm. pose proof (blen_capped data max ltac:(lia)).
  rewrite with_u16_len_capped by lia. unfold read_capped_str.
  apply reads_need; [rewrite blen_app, blen_be_bytes; lia|].
  eapply reads_bind; [apply reads_be; [reflexivity|lia]|].
  apply reads_need; [lia|]. rewrite <- (app_nil_r (capped data max)) at 2.
  eapply reads_bind; [apply reads_raw; reflexivity|]. apply reads_ret.
Qed.
#[export] Hint Resolve reads_byte reads_raw reads_be reads_str : otel.

(** ** What a record must decode to *)

(** Field ranges of the Rust types. *)
Record span_wf (rec : span_record) : Prop := {
  sw_trace : blen (sr_trace_id rec) = 16;
  sw_span : blen (sr_span_id rec) = 8;
  sw_parent : blen (sr_parent_span_id rec) = 8;
  sw_flags : in_u 32 (sr_flags rec);
  sw_start : in_u 64 (sr_start rec);
  sw_end : in_u 64 (sr_end rec);
  sw_http : in_u 16 (sr_http_status rec);
  sw_dur : in_u 64 (sr_duration_us rec);
  sw_ports : in_u 16 (sr_server_port rec) /\ in_u 16 (sr_client_port rec) /\ in_u 16 (sr_peer_port rec);
  sw_req : in_u 64 (sr_req_body_size rec);
  sw_resp : in_u 64 (sr_resp_body_size rec)
}.

Definition attr_kv (kv : list Z * list Z) : key_value :=
  KV (from_utf8_lossy (capped (fst kv) MAX_SPAN_ATTR_KEY))
     (VString (from_utf8_lossy (capped (snd kv) MAX_SPAN_ATTR_VAL))).

(** The span the exporter must rebuild. *)
Definition expected_span (r : span_record) : span :=
  let str f max := from_utf8_lossy (capped f max) in
  {| sp_trace_id := sr_trace_id r;
     sp_span_id := sr_span_id r;
     sp_parent_span_id := if bytes_eqb (sr_parent_span_id r) (replicate 8 0) then [] else sr_parent_span_id r;
     sp_flags := sr_flags r;
     sp_name := str (sr_name r) MAX_SPAN_NAME;
     sp_kind := kind_of (sr_kind r);
     sp_start := sr_start r;
     sp_end := sr_end r;
     sp_attributes := span_attributes (map attr_kv (take 4 (sr_extra_attrs r)))
       (str (sr_method r) MAX_METHOD) (sr_http_status r) (str (sr_url_path r) MAX_URL_PATH)
       (sr_duration_us r) (str (sr_url_query r) MAX_URL_QUERY) (str (sr_route r) MAX_SPAN_ROUTE)
       (sr_scheme_https r) (sr_proto r) (str (sr_user_agent r) MAX_USER_AGENT) (sr_req_body_size r)
       (sr_resp_body_size r) (str (sr_server_address r) MAX_SERVER_ADDR) (sr_server_port r)
       (str (sr_client_address r) MAX_CLIENT_ADDR) (sr_client_port r)
       (str (sr_peer_address r) MAX_CLIENT_ADDR) (sr_peer_port r);
     sp_events := [];
     sp_links := [];
     sp_status := mk_status (status_of (sr_status_code r)) [] |}.

Lemma used_attrs_take rec : used_attrs rec = take 4 (sr_extra_attrs rec).
Proof.
  unfold used_attrs, MAX_SPAN_EXTRA_ATTRS.
  destruct (Z.le_ge_cases (Z.of_nat (length (sr_extra_attrs rec))) 4).
  - rewrite !take_ge by lia. reflexivity.
  - rewrite Z.min_r by lia. reflexivity.
Qed.

Lemma reads_attr kv :
  reads (_ <~ need 1 ;; k_len <~ rbyte ;; _ <~ need k_len ;; k <~ raw k_len ;;
         _ <~ need 2 ;; v_len <~ rbe 2 ;; _ <~ need v_len ;; v <~ raw v_len ;;
         rret (KV (from_utf8_lossy k) (VString (from_utf8_lossy v)))) (attr_bytes kv) (attr_kv kv).
Proof.
  unfold attr_bytes, attr_kv. cbv zeta.
  pose proof (blen_capped (fst kv) MAX_SPAN_ATTR_KEY ltac:(vm_compute; congruence)) as Hk.
  pose proof (blen_capped (snd kv) MAX_SPAN_ATTR_VAL ltac:(vm_compute; congruence)) as Hv.
  set (k := capped (fst kv) _) in *. set (v := capped (snd kv) _) in *.
  unfold MAX_SPAN_ATTR_KEY, MAX_SPAN_ATTR_VAL in *.
  rewrite wrap_small by (unfold in_u; lia). rewrite wrap_small by (unfold in_u; lia).
  apply reads_need; [rewrite !blen_app, blen_be_bytes; change (blen [blen k]) with 1; lia|].
  eapply reads_bind; [apply reads_byte|].
  apply reads_need; [rewrite !blen_app, blen_be_bytes; lia|].
  eapply reads_bind; [apply reads_raw; reflexivity|].
  apply reads_need; [rewrite !blen_app, blen_be_bytes; lia|].
  eapply reads_bind; [apply reads_be; [reflexivity|lia]|].
  apply reads_need; [lia|]. rewrite <- (app_nil_r v) at 2.
  eapply reads_bind; [apply reads_raw; reflexivity|]. apply reads_ret.
Qed.

Lemma read_attrs_spec l : forall buf pos rest, cursor buf pos (concat (map attr_bytes l) ++ rest) ->
  read_attrs (length l) buf pos = map attr_kv l.
Proof.
  induction l as [|kv l IH]; intros buf pos rest Hc; [reflexivity|].
  cbn [length read_attrs map concat] in *. rewrite <- app_assoc in Hc.
  rewrite (reads_attr kv _ _ _ Hc). f_equal. apply cursor_next in Hc. exact (IH _ _ _ Hc).
Qed.

(** Length goals over a concatenation of fields. *)
Ltac blens :=
  rewrite ?blen_app, ?blen_be_bytes, ?blen_cons, ?blen_nil;
  repeat match goal with |- context [blen ?l] =>
    let H := fresh "Hl" in pose proof (blen_nonneg l) as H; revert H; generalize (blen l); intros end;
  lia.

Lemma span_extra_yields (rec : span_record) {B} (k : list key_value -> reader B) b :
  (forall buf pos, fst <$> k (map attr_kv (used_attrs rec)) buf pos = Some b) ->
  yields (extra <~ (fun buf pos =>
    Some (if pos + 2 <=? blen buf
          then read_attrs (Z.to_nat (Z.min (be_val (sub buf pos 2)) MAX_SPAN_EXTRA_ATTRS)) buf (pos + 2)
          else [], pos)) ;; k extra)
    (be_bytes 2 (u16 (Z.of_nat (length (used_attrs rec)))) ++ concat (map attr_bytes (used_attrs rec))) b.
Proof.
  intros Hk buf pos Hc. unfold rbind.
  assert (Hlen : (length (used_attrs rec) <= 4)%nat) by (rewrite used_attrs_take, length_take; lia).
  rewrite u16_small in Hc by lia.
  pose proof (blen_nonneg (concat (map attr_bytes (used_attrs rec)))).
  apply cursor_be in Hc as (E & Hc & L); [|cbn; lia].
  rewrite (proj2 (Z.leb_le _ _)) by (change (Z.of_nat 2) with 2 in *; lia).
  change (Z.of_nat 2) with 2 in *. rewrite E. unfold MAX_SPAN_EXTRA_ATTRS.
  rewrite Z.min_l, Nat2Z.id by lia.
  rewrite <- (app_nil_r (concat _)) in Hc. rewrite (read_attrs_spec _ _ _ _ Hc). apply Hk.
Qed.

Lemma blen_attr_bytes kv : 3 <= blen (attr_bytes kv) <= 99.
Proof.
  unfold attr_bytes. cbv zeta.
  pose proof (blen_capped (fst kv) MAX_SPAN_ATTR_KEY ltac:(vm_compute; congruence)) as Hk.
  pose proof (blen_capped (snd kv) MAX_SPAN_ATTR_VAL ltac:(vm_compute; congruence)) as Hv.
  rewrite !blen_app, blen_be_bytes. unfold MAX_SPAN_ATTR_KEY, MAX_SPAN_ATTR_VAL in *.
  rewrite blen_cons, blen_nil. lia.
Qed.

Lemma blen_attrs l : 0 <= blen (concat (map attr_bytes l)) <= 99 * Z.of_nat (length l).
Proof.
  induction l as [|kv l IH]; cbn [map concat length]; [rewrite blen_nil; lia|].
  rewrite blen_app. pose proof (blen_attr_bytes kv). lia.
Qed.

Lemma blen_span_bytes rec : span_wf rec -> 56 <= blen (span_bytes rec) <= SPAN_RECORD_WORST_CASE.
Proof.
  intros [H1 H2 H3 _ _ _ _ _ _ _ _]. unfold span_bytes.
  rewrite !blen_app, !blen_be_bytes, !blen_with_u16_len by (vm_compute; intuition congruence).
  rewrite H1, H2, H3. rewrite !blen_cons, !blen_nil.
  pose proof (blen_attrs (used_attrs rec)).
  assert ((length (used_attrs rec) <= 4)%nat) by (rewrite used_attrs_take, length_take; lia).
  repeat match goal with |- context [blen (capped ?d ?m)] =>
    pose proof (blen_capped d m ltac:(vm_compute; congruence)); generalize dependent (blen (capped d m)); intros end.
  unfold SPAN_RECORD_WORST_CASE, SPAN_RECORD_FIXED_HDR, MAX_SPAN_NAME, MAX_METHOD, MAX_URL_PATH,
    MAX_URL_QUERY, MAX_SPAN_ROUTE, MAX_USER_AGENT, MAX_SERVER_ADDR, MAX_CLIENT_ADDR,
    MAX_SPAN_EXTRA_ATTRS, MAX_SPAN_ATTR_KEY, MAX_SPAN_ATTR_VAL in *. lia.
Qed.

Ltac rd := eapply yields_bind; [first
  [ apply reads_byte
  | apply reads_raw; symmetry; assumption
  | apply reads_be; [reflexivity | assumption]
  | apply reads_str; vm_compute; intuition congruence ] |].

Lemma parse_span_bytes rec now : span_wf rec ->
  parse_span_record (span_bytes rec) now = Some (expected_span rec).
Proof.
  intros Hwf. pose proof (blen_span_bytes rec Hwf) as Hb.
  destruct Hwf as [H1 H2 H3 H4 H5 H6 H7 H8 (H9 & H10 & H11) H12 H13].
  unfold parse_span_record. rewrite (proj2 (Z.ltb_ge _ _)) by (unfold SPAN_RECORD_FIXED_HDR; lia).
  match goal with |- fst <$> ?m ?b 0 = ?r => enough (Y : yields m b (expected_span rec))
    by (exact (Y _ _ (cursor_start _))) end.
  unfold span_bytes.
  do 10 rd. apply yields_need; [blens|]. rd. rd. apply yields_need; [blens|]. rd.
  apply yields_need; [blens|]. do 2 rd. apply yields_need; [blens|]. do 3 rd.
  apply yields_need; [blens|]. do 8 rd.
  apply span_extra_yields. intros buf pos. cbn [fmap option_fmap option_map rret fst].
  unfold expected_span. rewrite used_attrs_take. do 2 f_equal.
  destruct (sr_scheme_https rec); reflexivity.
Qed.

(** The record fits the writer's stack buffer. *)
Lemma span_record_bound rec : span_wf rec -> blen (span_bytes rec) <= MAX_SPAN_RECORD.
Proof.
  intros Hwf. pose proof (blen_span_bytes rec Hwf) as [_ H]. eapply Z.le_trans; [exact H|]. vm_compute. discriminate.
Qed.

(** ** Properties *)

(** Whatever finished span a worker serialises, the record
    fits the stack buffer, and the exporter's parser rebuilds exactly that
    span: ids, times, kind and status, every attribute in order, long strings
    cut at their caps, at most four extra attributes, and an all-zero parent id
    exported as no parent. *)
Theorem span_record_roundtrip rec now :
  span_wf rec ->
  blen (span_bytes rec) <= MAX_SPAN_RECORD /\
  parse_span_record (span_bytes rec) now = Some (expected_span rec).
Proof.
  intros Hwf. split; [apply span_record_bound|apply parse_span_bytes]; assumption.
Qed.

Definition sample_span : span_record :=
  mk_sr (replicate 16 17) (replicate 8 34) (replicate 8 0) 1 1000 2000 2 2 $"GET /health" $"GET" 503
    $"/health" 1500 2 true 443 51000 51000 12 345 $"q=1" $"/" $"curl" $"example.org" $"10.0.0.1"
    $"10.0.0.2" [($"tenant", $"a"); ($"zone", $"b")].

Lemma span_record_roundtrip_witness :
  blen (span_bytes sample_span) = 182 /\
  map kv_key (sp_attributes (expected_span sample_span)) =
    [$"tenant"; $"zone"; $"http.request.method"; $"http.response.status_code"; $"url.path";
     $"http.server.request.duration"; $"url.query"; $"http.route"; $"url.scheme";
     $"network.protocol.version"; $"user_agent.original"; $"http.request.body.size";
     $"http.response.body.size"; $"server.address"; $"server.port"; $"client.address";
     $"client.port"; $"network.peer.address"; $"network.peer.port"; $"error.type"] /\
  parse_span_record (span_bytes sample_span) 0 = Some (expected_span sample_span).
Proof.
  split; [vm_compute; reflexivity|]. split; [vm_compute; reflexivity|].
  refine (proj2 (span_record_roundtrip sample_span 0 _)).
  split; vm_compute; intuition congruence.
Defined.
