(* ===== verification/Processor.v ===== *)
(** * The processor stage (src/src/processor/mod.rs)

    Between collection and encoding every batch passes a processor that is
    built once from a JSON configuration.  [serde_json::Value] enters through
    the four accessors the code calls.  The file proves which spans a
    configured processor drops, stated on the configuration, and that a probe
    request's span is recognised after its trip through the spans ring. *)
From stdpp Require Import list.
From S2P Require Import Prelude DataModel AccessLog Slots SpanRecord.
#[local] Set Warnings "-clear-no-such-hyp".

(** The accessors of [serde_json::Value]. *)
Class JsonValue (J : Type) := {
  get : J -> list Z -> option J;
  as_str : J -> option (list Z);
  as_bool : J -> option bool;
  as_array : J -> option (list J)
}.

(** [src/src/processor/mod.rs: NoopProcessor] *)
Inductive noop_processor := NoopProcessor.
(** [src/src/processor/mod.rs: StatusFilterProcessor] *)
Record status_filter_processor := mk_status_filter { drop_errors : bool }.
(** [src/src/processor/mod.rs: ProbeDropProcessor] *)
Record probe_drop_processor := mk_probe_drop { probe_paths : list (list Z) }.

(** [src/src/processor/mod.rs: 165-175 Processor] *)
Inductive processor :=
  | Noop (p : noop_processor)
  | StatusFilter (p : status_filter_processor)
  | ProbeDrop (p : probe_drop_processor).

(** [src/src/processor/mod.rs: DEFAULT_PATHS] *)
Definition DEFAULT_PATHS : list (list Z) :=
  [$"/healthz"; $"/readyz"; $"/livez"; $"/ping"; $"/metrics"].

Section from_config.
Context {J : Type} `{JsonValue J}.

(** [src/src/processor/mod.rs: StatusFilterProcessor::from_config] *)
Definition status_filter_from_config (cfg : J) : status_filter_processor :=
  mk_status_filter (default false (v ← get cfg $"drop_errors"; as_bool v)).

(** [src/src/processor/mod.rs: 123-130 ProbeDropProcessor::from_config] *)
Definition probe_drop_from_config (cfg : J) : probe_drop_processor :=
  mk_probe_drop (match (v ← get cfg $"paths"; as_array v) with
                 | Some arr => omap as_str arr
                 | None => DEFAULT_PATHS
                 end).

(** [src/src/processor/mod.rs: 181-187 Processor::from_config] *)
Definition from_config (cfg : J) : processor :=
  let type := default $"noop" (v ← get cfg $"type"; as_str v) in
  if bytes_eqb type $"status_filter" then StatusFilter (status_filter_from_config cfg)
  else if bytes_eqb type $"probe_drop" then ProbeDrop (probe_drop_from_config cfg)
  else Noop NoopProcessor.
End from_config.

(** [batch.spans.retain(f)] on a spans payload; the other signals pass.
    [src/src/processor/mod.rs: 82-90 StatusFilterProcessor::process] *)
Definition retain_spans (f : span -> bool) (data : pdata) : pdata :=
  match data with
  | PSpans b => PSpans (mk_spans_batch (sb_resource b) (sb_scope b) (List.filter f (sb_spans b)))
  | _ => data
  end.

(** [src/src/processor/mod.rs: StatusFilterProcessor::process] *)
Definition status_filter_process (p : status_filter_processor) (data : pdata) : pdata :=
  if drop_errors p
  then retain_spans (fun s => match st_code (sp_status s) with StError => false | _ => true end) data
  else data.

(** The first [url.path] attribute whose value is a string.
    [src/src/processor/mod.rs: 135-142 find_map] *)
Fixpoint find_url_path (attrs : list key_value) : option (list Z) :=
  match attrs with
  | [] => None
  | KV k v :: rest =>
      if bytes_eqb k $"url.path"
      then match v with VString s => Some s | _ => find_url_path rest end
      else find_url_path rest
  end.

(** [src/src/processor/mod.rs: 132-151 ProbeDropProcessor::process] *)
Definition probe_drop_process (p : probe_drop_processor) (data : pdata) : pdata :=
  retain_spans (fun s =>
    match find_url_path (sp_attributes s) with
    | Some path => negb (existsb (fun q => bytes_eqb q path) (probe_paths p))
    | None => true
    end) data.

(** [src/src/processor/mod.rs: 191-197 Processor::process] *)
Definition process (p : processor) (data : pdata) : pdata :=
  match p with
  | Noop _ => data
  | StatusFilter p => status_filter_process p data
  | ProbeDrop p => probe_drop_process p data
  end.

(** ** What a configuration means *)

Section meaning.
Context {J : Type} `{JsonValue J}.

(** [cfg["key"]] is the string [s]. *)
Definition configured_type (cfg : J) (s : list Z) : Prop := exists v, get cfg $"type" = Some v /\ as_str v = Some s.

(** The probe paths of a configuration: the strings of its [paths] array, the
    defaults when it has none. *)
Definition is_probe_path (cfg : J) (path : list Z) : Prop :=
  match (v ← get cfg $"paths"; as_array v) with
  | Some arr => exists v, v ∈ arr /\ as_str v = Some path
  | None => path ∈ DEFAULT_PATHS
  end.

(** The spans a configuration drops. *)
Definition dropped_by (cfg : J) (s : span) : Prop :=
  configured_type cfg $"status_filter" /\
    (exists v, get cfg $"drop_errors" = Some v /\ as_bool v = Some true) /\
    st_code (sp_status s) = StError \/
  configured_type cfg $"probe_drop" /\
    exists path, find_url_path (sp_attributes s) = Some path /\ is_probe_path cfg path.
End meaning.

(** The spans a processor keeps. *)
Definition keeps (p : processor) (s : span) : bool :=
  match p with
  | Noop _ => true
  | StatusFilter p => negb (drop_errors p && match st_code (sp_status s) with StError => true | _ => false end)
  | ProbeDrop p =>
      match find_url_path (sp_attributes s) with
      | Some path => negb (existsb (fun q => bytes_eqb q path) (probe_paths p))
      | None => true
      end
  end.

Lemma retain_spans_ext f g data : (forall s, f s = g s) -> retain_spans f data = retain_spans g data.
Proof. intros E. destruct data; try reflexivity. cbn. do 2 f_equal. apply filter_ext. exact E. Qed.

Lemma retain_spans_true data : retain_spans (fun _ => true) data = data.
Proof.
  destruct data as [| |[r sc l]]; try reflexivity. cbn. do 2 f_equal.
  induction l as [|x l IH]; cbn; congruence.
Qed.

Lemma process_retain p data : process p data = retain_spans (keeps p) data.
Proof.
  destruct p as [p|[d]|p]; cbn -[retain_spans]; [symmetry; apply retain_spans_true| |reflexivity].
  unfold status_filter_process. cbn [drop_errors]. destruct d.
  - apply retain_spans_ext. intros s. cbn. destruct (st_code (sp_status s)); reflexivity.
  - symmetry. rewrite (retain_spans_ext _ (fun _ => true)) by reflexivity. apply retain_spans_true.
Qed.

Lemma retain_spans_idem f data : retain_spans f (retain_spans f data) = retain_spans f data.
Proof.
  destruct data as [| |[r sc l]]; try reflexivity. cbn. do 2 f_equal.
  induction l as [|x l IH]; cbn; [reflexivity|]. destruct (f x) eqn:E; cbn; rewrite ?E; congruence.
Qed.

Section configured.
Context {J : Type} `{JsonValue J}.

Lemma configured_type_default cfg t : t <> $"noop" ->
  configured_type cfg t <-> default $"noop" (v ← get cfg $"type"; as_str v) = t.
Proof.
  intros Ht. unfold configured_type. destruct (get cfg $"type") as [v|]; cbn -[bytes_of_string].
  - destruct (as_str v) as [x|] eqn:E; cbn -[bytes_of_string]; split; intros Hx.
    + destruct Hx as (v' & [= <-] & E'). congruence.
    + subst x. eauto.
    + destruct Hx as (v' & [= <-] & E'). congruence.
    + congruence.
  - split; [intros (v & [=] & _)|congruence].
Qed.

Lemma probe_paths_spec (cfg : J) path :
  existsb (fun q => bytes_eqb q path) (probe_paths (probe_drop_from_config cfg)) = true <-> is_probe_path cfg path.
Proof.
  unfold is_probe_path, probe_drop_from_config. cbn [probe_paths].
  rewrite existsb_exists. setoid_rewrite bytes_eqb_eq.
  destruct (get cfg $"paths" ≫= fun v => as_array v) as [arr|].
  - split.
    + intros (q & Hq & ->). apply list_elem_of_In, list_elem_of_omap in Hq. exact Hq.
    + intros Hv. exists path. split; [|reflexivity]. apply list_elem_of_In, list_elem_of_omap. exact Hv.
  - split; [intros (q & Hq & ->); apply list_elem_of_In; exact Hq|].
    intros Hv. exists path. split; [apply list_elem_of_In; exact Hv|reflexivity].
Qed.

Lemma keeps_dropped (cfg : J) s : keeps (from_config cfg) s = false <-> dropped_by cfg s.
Proof.
  unfold dropped_by. rewrite !configured_type_default by discriminate.
  unfold from_config. set (type := default _ _).
  destruct (bytes_eqb type $"status_filter") eqn:E1; [apply bytes_eqb_eq in E1|].
  - cbn -[bytes_of_string]. assert (type <> $"probe_drop") by (rewrite E1; discriminate).
    destruct (get cfg $"drop_errors") as [v|] eqn:Eg; cbn -[bytes_of_string].
    + destruct (as_bool v) as [[]|] eqn:Eb; cbn -[bytes_of_string];
        destruct (st_code (sp_status s)); naive_solver.
    + naive_solver.
  - assert (type <> $"status_filter") by (intros E; apply bytes_eqb_eq in E; congruence).
    destruct (bytes_eqb type $"probe_drop") eqn:E2; [apply bytes_eqb_eq in E2|].
    + cbn -[bytes_of_string probe_drop_from_config]. pose proof (probe_paths_spec cfg) as P.
      destruct (find_url_path (sp_attributes s)) as [path|] eqn:Ef; [|naive_solver].
      rewrite negb_false_iff, P. naive_solver.
    + assert (type <> $"probe_drop") by (intros E; apply bytes_eqb_eq in E; congruence).
      cbn -[bytes_of_string]. naive_solver.
Qed.
End configured.

(** ** The url path of a span that came through the ring *)

Lemma find_url_path_app a b :
  find_url_path (a ++ b) = match find_url_path a with Some p => Some p | None => find_url_path b end.
Proof.
  induction a as [|[k v] a IH]; cbn; [reflexivity|]. destruct (bytes_eqb k _); [destruct v|]; auto.
Qed.

Lemma find_url_path_absent l : Forall (fun kv => kv_key kv <> $"url.path") l -> find_url_path l = None.
Proof.
  induction 1 as [|[k v] l Hk Hl IH]; cbn -[bytes_of_string] in *; [reflexivity|].
  destruct (bytes_eqb k $"url.path") eqn:E; [apply bytes_eqb_eq in E; contradiction|exact IH].
Qed.

(** The decoded path of a record. *)
Definition record_url_path (rec : span_record) : list Z := from_utf8_lossy (capped (sr_url_path rec) MAX_URL_PATH).

Lemma nonempty_spec l : nonempty l = true <-> l <> [].
Proof.
  unfold nonempty. destruct l as [|z l]; [split; [discriminate|congruence]|].
  rewrite blen_cons. pose proof (blen_nonneg l). rewrite (proj2 (Z.eqb_neq _ _)) by lia.
  split; [discriminate|reflexivity].
Qed.

Lemma find_url_path_if b k v l : k <> $"url.path" ->
  find_url_path (attr_if b k v ++ l) = find_url_path l.
Proof.
  intros Hk. unfold attr_if. destruct b; [|reflexivity]. cbn -[bytes_of_string].
  destruct (bytes_eqb k $"url.path") eqn:E; [apply bytes_eqb_eq in E; contradiction|reflexivity].
Qed.

Lemma expected_span_url_path rec :
  Forall (fun kv => kv_key (attr_kv kv) <> $"url.path") (take 4 (sr_extra_attrs rec)) ->
  find_url_path (sp_attributes (expected_span rec)) =
    if nonempty (record_url_path rec) then Some (record_url_path rec) else None.
Proof.
  intros Hx. unfold expected_span, span_attributes. cbn [sp_attributes].
  rewrite find_url_path_app, find_url_path_absent by (apply Forall_map; exact Hx).
  rewrite !find_url_path_if by discriminate. rewrite find_url_path_app. fold (record_url_path rec).
  unfold attr_if at 1. destruct (nonempty (record_url_path rec)); [reflexivity|].
  cbn [find_url_path]. rewrite !find_url_path_if by discriminate.
  rewrite find_url_path_app. cbn [find_url_path]. rewrite find_url_path_if by discriminate.
  rewrite find_url_path_app. cbn [find_url_path]. rewrite !find_url_path_if by discriminate.
  rewrite <- (app_nil_r (attr_if _ _ _)), find_url_path_if by discriminate. reflexivity.
Qed.

(** ** Properties *)

(** A processor drops exactly the spans its configuration names (error
    spans for a status filter with [drop_errors], spans of a probe path for a probe filter)
    and keeps the others, the batch's resource and scope, and every other signal unchanged;
    processing twice changes nothing more, and an empty configuration changes nothing at all.
    A span that a worker wrote into the ring is dropped by a probe filter exactly when its
    decoded url path is non-empty and one of the configured paths, unless one of
    its extra attributes is named [url.path]. *)
Theorem processor_exact {J} `{JsonValue J} (cfg : J) data rec now s :
  let p := from_config cfg in
  match data with
  | PSpans b => exists keep, (forall s, keep s = false <-> dropped_by cfg s) /\
      process p data = PSpans (mk_spans_batch (sb_resource b) (sb_scope b) (List.filter keep (sb_spans b)))
  | _ => process p data = data
  end /\
  process p (process p data) = process p data /\
  (get cfg $"type" = None -> process p data = data) /\
  (span_wf rec -> Forall (fun kv => kv_key (attr_kv kv) <> $"url.path") (take 4 (sr_extra_attrs rec)) ->
   configured_type cfg $"probe_drop" -> parse_span_record (span_bytes rec) now = Some s ->
   dropped_by cfg s <-> record_url_path rec <> [] /\ is_probe_path cfg (record_url_path rec)).
Proof.
  cbv zeta. rewrite !process_retain. split_and!.
  - destruct data; try reflexivity. exists (keeps (from_config cfg)).
    split; [apply keeps_dropped|reflexivity].
  - apply retain_spans_idem.
  - intros E. unfold from_config. rewrite E. apply (retain_spans_true data).
  - intros Hwf Hx Ht. rewrite parse_span_bytes by exact Hwf. intros [= <-]. unfold dropped_by.
    rewrite expected_span_url_path by exact Hx.
    pose proof (nonempty_spec (record_url_path rec)) as Hn.
    assert (Hs : ~ configured_type cfg $"status_filter").
    { intros (v & E1 & E2). destruct Ht as (v' & E1' & E2'). rewrite E1 in E1'. injection E1' as <-.
      rewrite E2 in E2'. discriminate E2'. }
    destruct (nonempty (record_url_path rec)); naive_solver.
Qed.

(** *** Witnesses *)

(** JSON values. *)
#[warnings="-register-all"]
Inductive json := JNull | JBool (b : bool) | JString (s : list Z) | JArray (l : list json) | JObject (l : list (list Z * json)).

#[export] Instance json_value : JsonValue json := {
  get := fun j k => match j with
                    | JObject l => snd <$> List.find (fun e => bytes_eqb (fst e) k) l
                    | _ => None
                    end;
  as_str := fun j => match j with JString s => Some s | _ => None end;
  as_bool := fun j => match j with JBool b => Some b | _ => None end;
  as_array := fun j => match j with JArray l => Some l | _ => None end
}.

Definition probe_cfg : json := JObject [($"type", JString $"probe_drop"); ($"paths", JArray [JString $"/health"])].

(** The sample span's path is configured, so it is dropped after its trip. *)
Lemma processor_exact_witness :
  dropped_by probe_cfg (expected_span sample_span) /\
  process (from_config probe_cfg) (PSpans (mk_spans_batch (mk_resource []) (mk_scope [] []) [expected_span sample_span]))
    = PSpans (mk_spans_batch (mk_resource []) (mk_scope [] []) []).
Proof.
  split; [|vm_compute; reflexivity].
  destruct (processor_exact probe_cfg (PLogs (mk_logs_batch (mk_resource []) (mk_scope [] []) []))
    sample_span 0 (expected_span sample_span)) as (_ & _ & _ & W).
  apply W.
  - split; vm_compute; intuition congruence.
  - repeat constructor; vm_compute; congruence.
  - exists (JString $"probe_drop"). split; reflexivity.
  - vm_compute. reflexivity.
  - split; [vm_compute; congruence|]. exists (JString $"/health"). split; [left|vm_compute; reflexivity].
Defined.
