(* ===== verification/Coalesce.v ===== *)
(** * The error-log coalescer (src/src/logs/coalesce.rs)

    [stable_core] cuts the variable prefix and the request context off an
    nginx error line; [coalesce] counts repetitions of the rest in an
    open-addressed table of 256 slots and tells the writer whether to emit a
    verbatim sample; [drain_coalesce_table] hands the counts to the exporter
    and empties the table.  Loops whose bound the code leaves to their
    conditions carry fuel, shown sufficient. *)
From S2P Require Import Prelude DataModel.

(** ** Extraction of the stable core *)

Definition RBRACKET : Z := 93.
Definition COLON : Z := 58.
Definition SPACE : Z := 32.
Definition STAR : Z := 42.
Definition NEWLINE : Z := 10.
Definition WHILE_MARK : list Z := $" while ".
Definition CLIENT_MARK : list Z := $", client:".

Definition is_ascii_digit (b : Z) : bool := (48 <=? b) && (b <=? 57).

(** The loops of steps 1 and 2: stop after the first pair [a b], or at the
    last byte.  [src/src/logs/coalesce.rs: 141-157 stable_core] *)
Fixpoint scan_pair (fuel : nat) (a b : Z) (buf : list Z) (pos : Z) : Z :=
  match fuel with
  | O => pos
  | S fuel' =>
      if pos + 1 <? blen buf then
        if (byte_at buf pos =? a) && (byte_at buf (pos + 1) =? b) then pos + 2
        else scan_pair fuel' a b buf (pos + 1)
      else pos
  end.

(** [src/src/logs/coalesce.rs: 163-165 stable_core] *)
Fixpoint scan_digits (fuel : nat) (buf : list Z) (pos : Z) : Z :=
  match fuel with
  | O => pos
  | S fuel' =>
      if (pos <? blen buf) && is_ascii_digit (byte_at buf pos)
      then scan_digits fuel' buf (pos + 1) else pos
  end.

(** Step 3: the optional connection number.
    [src/src/logs/coalesce.rs: 161-169 stable_core] *)
Definition skip_conn (buf : list Z) (pos : Z) : Z :=
  if (pos <? blen buf) && (byte_at buf pos =? STAR) then
    let pos := scan_digits (length buf) buf (pos + 1) in
    if (pos <? blen buf) && (byte_at buf pos =? SPACE) then pos + 1 else pos
  else pos.

(** Step 4: the loop over [i] that may lower [end].
    [src/src/logs/coalesce.rs: 180-193 stable_core] *)
Fixpoint scan_end (fuel : nat) (buf : list Z) (i e : Z) : Z :=
  match fuel with
  | O => e
  | S fuel' =>
      if i <? e then
        if (i + 7 <=? e) && bytes_eqb (sub buf i 7) WHILE_MARK then i
        else if (i + 9 <=? e) && bytes_eqb (sub buf i 9) CLIENT_MARK then i
        else scan_end fuel' buf (i + 1) e
      else e
  end.

(** [src/src/logs/coalesce.rs: 138-171 stable_core] *)
Definition core_start (buf : list Z) : Z :=
  let n := length buf in
  skip_conn buf (scan_pair n COLON SPACE buf (scan_pair n RBRACKET SPACE buf 0)).

(** [src/src/logs/coalesce.rs: 175-178 stable_core] *)
Definition trim_end (buf : list Z) : Z :=
  let len := blen buf in
  if (0 <? len) && (byte_at buf (len - 1) =? NEWLINE) then len - 1 else len.

(** [src/src/logs/coalesce.rs: stable_core] *)
Definition stable_core (buf : list Z) : list Z :=
  let start := core_start buf in
  let e := scan_end (length buf) buf start (trim_end buf) in
  let core := slice buf start e in
  if blen core =? 0 then buf else core.

(** ** The key *)

(** [src/src/logs/coalesce.rs: 211-211 OFFSET_BASIS] *)
Definition FNV_OFFSET : Z := 14695981039346656037.
(** [src/src/logs/coalesce.rs: 212-212 PRIME] *)
Definition FNV_PRIME : Z := 1099511628211.
(** [src/src/logs/coalesce.rs: 217-218 coalesce_key] *)
Definition fnv_step (h b : Z) : Z := u64 (Z.lxor h b * FNV_PRIME).

(** [src/src/logs/coalesce.rs: coalesce_key] *)
Definition coalesce_key (severity : Z) (core : list Z) : Z :=
  let h := foldl fnv_step (fnv_step FNV_OFFSET severity) core in
  if h =? 0 then 1 else h.

(** ** The table *)

(** [src/src/logs/coalesce.rs: COALESCE_CAPACITY] *)
Definition COALESCE_CAPACITY : nat := 256.

(** [src/src/logs/coalesce.rs: CoalesceSlot] *)
Record slot := mk_slot {
  key_hash : Z;
  severity : Z;
  count : Z;
  sample_emitted : bool
}.

(** [src/src/logs/coalesce.rs: CoalesceResult] *)
Inductive coalesce_result :=
  | Coalesced
  | EmitVerbatim (template_hash : Z).

Definition empty_slot : slot := mk_slot 0 0 0 false.
Definition empty_table : list slot := replicate COALESCE_CAPACITY empty_slot.

(** [src/src/logs/coalesce.rs: HIGH_SEVERITY_THRESHOLD] *)
Definition HIGH_SEVERITY_THRESHOLD : Z := 3.

Definition slot_at (t : list slot) (i : nat) : slot := nth i t empty_slot.

(** [src/src/logs/coalesce.rs: 277-277 coalesce] *)
Definition mask (z : Z) : nat := Z.to_nat (Z.land z 255).

(** The probe loop; [None] is running out of fuel.
    [src/src/logs/coalesce.rs: 281-330 coalesce] *)
Fixpoint probe_loop (fuel : nat) (t : list slot) (sev key : Z) (start probe probes : nat)
    : option (coalesce_result * list slot) :=
  match fuel with
  | O => None
  | S fuel' =>
      let s := slot_at t probe in
      if key_hash s =? 0 then
        Some (EmitVerbatim key, <[probe := mk_slot key sev 1 true]> t)
      else if (key_hash s =? key) && (severity s =? sev) then
        if sample_emitted s then
          Some (Coalesced,
                <[probe := mk_slot (key_hash s) (severity s) (count s +w32 1) true]> t)
        else
          Some (EmitVerbatim key,
                <[probe := mk_slot (key_hash s) (severity s) (count s +w32 1) true]> t)
      else
        let probe := mask (Z.of_nat probe + 1) in
        let probes := S probes in
        if (COALESCE_CAPACITY <=? probes)%nat then Some (EmitVerbatim 0, t)
        else if (probe =? start)%nat then Some (EmitVerbatim 0, t)
        else probe_loop fuel' t sev key start probe probes
  end.

(** [src/src/logs/coalesce.rs: coalesce] *)
Definition coalesce (t : list slot) (sev : Z) (buf : list Z) (coalesce_enabled : bool)
    : option (coalesce_result * list slot) :=
  if negb coalesce_enabled then Some (EmitVerbatim 0, t) else
  if sev <=? HIGH_SEVERITY_THRESHOLD then Some (EmitVerbatim 0, t) else
  let key := coalesce_key sev (stable_core buf) in
  probe_loop COALESCE_CAPACITY t sev key (mask key) (mask key) 0.

(** [src/src/logs/coalesce.rs: coalesce_table_bytes] *)
Definition coalesce_table_bytes : Z := Z.of_nat COALESCE_CAPACITY * 24.

(** One iteration of the drain: the evicted slot and its report.
    [src/src/logs/coalesce.rs: 377-399 drain_coalesce_table] *)
Definition drain_slot (s : slot) : slot * list (Z * Z * Z) :=
  if key_hash s =? 0 then (s, [])
  else (mk_slot 0 0 0 false,
        if 0 <? count s then [(key_hash s, severity s, count s)] else []).

(** [src/src/logs/coalesce.rs: drain_coalesce_table] *)
Definition drain_coalesce_table (t : list slot) : list slot * list (Z * Z * Z) :=
  (map (fun s => fst (drain_slot s)) t, concat (map (fun s => snd (drain_slot s)) t)).

(** ** The core is a slice of the line *)

(** A scan ends in range; if it reaches the end, a byte it consumed is last. *)
Lemma scan_pair_range fuel a b buf pos :
  0 <= pos <= blen buf ->
  let p := scan_pair fuel a b buf pos in
  pos <= p <= blen buf /\ (p = blen buf -> p = pos \/ byte_at buf (p - 1) = b).
Proof.
  revert pos. induction fuel as [|fuel IH]; intros pos Hp; simpl; [lia|].
  case_if; [|lia]. case_if.
  - split; [lia|]. intros _. right. replace (pos + 2 - 1) with (pos + 1) by lia. assumption.
  - destruct (IH (pos + 1)) as [H1 H2]; [lia|]. split; [lia|].
    intros He. destruct (H2 He) as [H3|]; [lia|right; assumption].
Qed.

Lemma scan_digits_range fuel buf pos :
  0 <= pos <= blen buf ->
  let p := scan_digits fuel buf pos in
  pos <= p <= blen buf /\ (p = pos \/ is_ascii_digit (byte_at buf (p - 1)) = true).
Proof.
  revert pos. induction fuel as [|fuel IH]; intros pos Hp; simpl; [lia|].
  destruct ((pos <? blen buf) && is_ascii_digit (byte_at buf pos)) eqn:E; [|lia].
  zify_bool. destruct (IH (pos + 1)) as [H1 H2]; [lia|]. split; [lia|]. right.
  destruct H2 as [->|H2]; [|assumption]. replace (pos + 1 - 1) with pos by lia. assumption.
Qed.

Lemma skip_conn_range buf pos :
  0 <= pos <= blen buf ->
  let p := skip_conn buf pos in
  pos <= p <= blen buf /\ (p = pos \/ byte_at buf (p - 1) <> NEWLINE).
Proof.
  intros Hp. unfold skip_conn.
  destruct ((pos <? blen buf) && (byte_at buf pos =? STAR)) eqn:E; [|lia]. zify_bool.
  destruct (scan_digits_range (length buf) buf (pos + 1)) as [H1 H2]; [lia|].
  set (q := scan_digits _ _ _) in *. cbv zeta.
  destruct ((q <? blen buf) && (byte_at buf q =? SPACE)) eqn:E2; zify_bool.
  - split; [lia|right]. replace (q + 1 - 1) with q by lia. intros Hn. rewrite Hn in *. discriminate.
  - split; [lia|right]. destruct H2 as [->|H2].
    + replace (pos + 1 - 1) with pos by lia. intros Hn. rewrite Hn in *. discriminate.
    + unfold is_ascii_digit in H2. zify_bool. unfold NEWLINE. lia.
Qed.

Lemma core_start_range buf :
  0 <= core_start buf <= blen buf /\
  (core_start buf = blen buf -> 0 < blen buf -> byte_at buf (blen buf - 1) <> NEWLINE).
Proof.
  pose proof (blen_nonneg buf). unfold core_start.
  destruct (scan_pair_range (length buf) RBRACKET SPACE buf 0) as [A1 A2]; [lia|].
  set (p1 := scan_pair _ RBRACKET _ _ _) in *.
  destruct (scan_pair_range (length buf) COLON SPACE buf p1) as [B1 B2]; [lia|].
  set (p2 := scan_pair _ COLON _ _ _) in *.
  destruct (skip_conn_range buf p2) as [C1 C2]; [lia|].
  cbv zeta in *. split; [lia|]. intros He Hpos.
  destruct C2 as [C2|C2]; [|rewrite He in C2; exact C2].
  rewrite C2 in He. destruct (B2 He) as [B3|B3]; [|rewrite <- He, B3; discriminate].
  rewrite B3 in He. destruct (A2 He) as [A3|A3]; [lia|rewrite <- He, A3; discriminate].
Qed.

Lemma trim_end_range buf :
  core_start buf <= trim_end buf <= blen buf.
Proof.
  destruct (core_start_range buf) as [H1 H2]. unfold trim_end.
  destruct ((0 <? blen buf) && _) eqn:E; zify_bool; [|lia].
  destruct (Z.eq_dec (core_start buf) (blen buf)) as [He|]; [|lia].
  exfalso. apply (H2 He); assumption.
Qed.

Lemma scan_end_range fuel buf i e : i <= e -> i <= scan_end fuel buf i e <= e.
Proof.
  revert i. induction fuel as [|fuel IH]; intros i Hi; simpl; [lia|].
  repeat (case_if; try lia). specialize (IH (i + 1) ltac:(lia)). lia.
Qed.

(** ** What the scans find *)

(** No adjacent pair [a b] in [l]. *)
Fixpoint no_pair (a b : Z) (l : list Z) : bool :=
  match l with
  | [] => true
  | x :: l' => negb ((x =? a) && (match l' with y :: _ => y =? b | [] => false end))
               && no_pair a b l'
  end.

Lemma scan_pair_hit a b x buf pos m fuel :
  a <> b -> no_pair a b x = true -> cursor buf pos (x ++ a :: b :: m) ->
  (length x < fuel)%nat -> scan_pair fuel a b buf pos = pos + blen x + 2.
Proof.
  intros Hab. revert pos fuel. induction x as [|c x IH]; intros pos fuel Hn Hc Hf;
    destruct fuel as [|fuel]; try (simpl in Hf; lia); simpl scan_pair; simpl app in Hc;
    pose proof (cursor_len _ _ _ Hc) as Hl; rewrite !blen_cons in *.
  - apply cursor_byte in Hc as [E1 Hc]. apply cursor_byte in Hc as [E2 _].
    pose proof (blen_nonneg m). rewrite E1, E2, !Z.eqb_refl, blen_nil. simpl. case_ifs. lia.
  - apply cursor_byte in Hc as [E1 Hc]. pose proof (blen_nonneg (x ++ a :: b :: m)) as Hnn.
    simpl in Hn. apply andb_prop in Hn as [Hn1 Hn2].
    assert (E2 : (byte_at buf pos =? a) && (byte_at buf (pos + 1) =? b) = false).
    { rewrite E1. destruct x as [|y x]; apply cursor_byte in Hc as [E2 _]; rewrite E2.
      - apply andb_false_intro2, Z.eqb_neq. assumption.
      - apply negb_true_iff in Hn1. exact Hn1. }
    assert (IH' : scan_pair fuel a b buf (pos + 1) = pos + 1 + blen x + 2)
      by (apply IH; [assumption|assumption|simpl in Hf; lia]).
    rewrite E2, IH'.
    rewrite blen_app, !blen_cons in *. pose proof (blen_nonneg x). pose proof (blen_nonneg m).
    case_ifs. lia.
Qed.

Lemma scan_digits_run d buf pos m fuel :
  forallb is_ascii_digit d = true ->
  match m with c :: _ => is_ascii_digit c = false | [] => True end ->
  cursor buf pos (d ++ m) -> (length d < fuel)%nat ->
  scan_digits fuel buf pos = pos + blen d.
Proof.
  revert pos fuel. induction d as [|c d IH]; intros pos fuel Hd Hm Hc Hf;
    (destruct fuel as [|fuel]; [simpl in Hf; lia|]); simpl scan_digits; simpl app in Hc;
    pose proof (cursor_len _ _ _ Hc) as Hl.
  - rewrite blen_nil, Z.add_0_r. destruct m as [|c m].
    + rewrite blen_nil in Hl. case_ifs. reflexivity.
    + apply cursor_byte in Hc as [-> _]. rewrite Hm, andb_false_r. reflexivity.
  - simpl in Hd. apply andb_prop in Hd as [Hd1 Hd2]. rewrite blen_cons in *.
    apply cursor_byte in Hc as [-> Hc]. rewrite Hd1, (IH (pos + 1)) by (assumption || simpl in Hf; lia).
    pose proof (blen_nonneg (d ++ m)). pose proof (blen_nonneg d).
    destruct ((pos <? blen buf) && true) eqn:E; [lia|]. rewrite andb_true_r in E. zify_bool. lia.
Qed.

(** No context marker starts at any offset of [core] in [core ++ rest]. *)
Definition marker_at (l : list Z) : bool :=
  bytes_eqb (take 7 l) WHILE_MARK || bytes_eqb (take 9 l) CLIENT_MARK.

Fixpoint no_marker (core rest : list Z) : bool :=
  match core with
  | [] => true
  | x :: core' => negb (marker_at (core ++ rest)) && no_marker core' rest
  end.

(** A context: empty, or text that starts with one of the two markers. *)
Definition is_context (ctx : list Z) : bool :=
  bytes_eqb ctx [] || marker_at ctx.

Lemma bytes_eqb_false a b : bytes_eqb a b = false <-> a <> b.
Proof. apply bool_decide_eq_false. Qed.

Lemma take_app_prefix (l k : list Z) (n : nat) (w : list Z) :
  take n l = w -> length w = n -> take n (l ++ k) = w.
Proof.
  intros E Hw. assert (n <= length l)%nat.
  { apply (f_equal length) in E. rewrite length_take in E. lia. }
  rewrite take_app_le by lia. exact E.
Qed.

Lemma sub_cursor buf pos rest n : cursor buf pos rest -> sub buf pos n = take (Z.to_nat n) rest.
Proof. intros [_ <-]. reflexivity. Qed.

(** [core] then [ctx] then at most a trailing newline [nl]: the scan from the
    start of [core] stops where [ctx] starts. *)
Lemma scan_end_core core ctx nl buf i fuel :
  cursor buf i (core ++ ctx ++ nl) -> no_marker core ctx = true -> is_context ctx = true ->
  (length core < fuel)%nat ->
  scan_end fuel buf i (i + blen core + blen ctx) = i + blen core.
Proof.
  revert i fuel. induction core as [|c core IH]; intros i fuel Hc Hn Hx Hf;
    (destruct fuel as [|fuel]; [simpl in Hf; lia|]); simpl scan_end.
  - rewrite blen_nil, Z.add_0_r. pose proof (blen_nonneg ctx).
    unfold is_context in Hx. apply orb_prop in Hx as [Hx|Hx].
    { apply bytes_eqb_eq in Hx. subst ctx. rewrite blen_nil. case_ifs. lia. }
    rewrite !(sub_cursor _ _ _ _ Hc). simpl app. unfold marker_at in Hx.
    change (Z.to_nat 7) with 7%nat. change (Z.to_nat 9) with 9%nat.
    assert (Hlen : forall w n, take n ctx = w -> length w = n -> Z.of_nat n <= blen ctx).
    { intros w n E Hw. apply (f_equal length) in E. rewrite length_take in E. unfold blen. lia. }
    apply orb_prop in Hx as [Hx|Hx]; apply bytes_eqb_eq in Hx.
    + pose proof (Hlen _ _ Hx eq_refl). rewrite (take_app_prefix _ nl _ _ Hx eq_refl).
      case_ifs; try reflexivity. change (bytes_eqb WHILE_MARK WHILE_MARK) with true in *.
      rewrite andb_true_r in *. zify_bool. lia.
    + pose proof (Hlen _ _ Hx eq_refl). rewrite (take_app_prefix _ nl _ _ Hx eq_refl).
      change (bytes_eqb CLIENT_MARK CLIENT_MARK) with true.
      case_ifs; reflexivity.
  - rewrite blen_cons. pose proof (blen_nonneg ctx). pose proof (blen_nonneg core).
    simpl in Hn. apply andb_prop in Hn as [Hm Hn]. unfold marker_at in Hm.
    apply negb_true_iff in Hm. apply orb_false_elim in Hm as [M1 M2].
    apply bytes_eqb_false in M1, M2.
    assert (Hneq : forall n w, take n (c :: core ++ ctx) <> w -> length w = n ->
              (i + Z.of_nat n <=? i + (1 + blen core) + blen ctx) &&
              bytes_eqb (sub buf i (Z.of_nat n)) w = false).
    { intros n w Hw Hl. destruct (_ <=? _) eqn:E; [|reflexivity]. zify_bool.
      apply bytes_eqb_false. rewrite (sub_cursor _ _ _ _ Hc), Nat2Z.id.
      rewrite app_assoc, take_app_le; [exact Hw|].
      rewrite length_app; simpl. unfold blen in E. lia. }
    apply Hneq in M1; [|reflexivity]. apply Hneq in M2; [|reflexivity].
    change (Z.of_nat 7) with 7 in M1. change (Z.of_nat 9) with 9 in M2. rewrite M1, M2.
    simpl app in Hc. apply cursor_byte in Hc as [_ Hc].
    replace (i + (1 + blen core) + blen ctx) with (i + 1 + blen core + blen ctx) by lia.
    rewrite (IH (i + 1) fuel Hc Hn Hx) by (simpl in Hf; lia). case_ifs; lia.
Qed.

(** The shape of an nginx error line: time and level up to [] ], process ids
    up to [: ], an optional connection number, the message, its context and
    an optional newline. *)
Definition conn_part (digits : option (list Z)) : list Z :=
  match digits with Some d => STAR :: d ++ [SPACE] | None => [] end.

Definition error_line (time_level pid_tid : list Z) (conn : option (list Z))
    (core ctx nl : list Z) : list Z :=
  time_level ++ RBRACKET :: SPACE :: pid_tid ++ COLON :: SPACE ::
  conn_part conn ++ core ++ ctx ++ nl.

Record line_wf (time_level pid_tid : list Z) (conn : option (list Z))
    (core ctx nl : list Z) : Prop := {
  lw_time : no_pair RBRACKET SPACE time_level = true;
  lw_pid : no_pair COLON SPACE pid_tid = true;
  lw_conn : match conn with
            | Some d => forallb is_ascii_digit d = true
            | None => match core with c :: _ => c <> STAR | [] => True end
            end;
  lw_core : core <> [];
  lw_no_marker : no_marker core ctx = true;
  lw_ctx : is_context ctx = true;
  lw_nl : nl = [NEWLINE] \/ nl = [] /\ list.last (core ++ ctx) <> Some NEWLINE
}.

Lemma skip_conn_spec buf pos conn rest :
  cursor buf pos (conn_part conn ++ rest) ->
  match conn with
  | Some d => forallb is_ascii_digit d = true
  | None => match rest with c :: _ => c <> STAR | [] => True end
  end ->
  skip_conn buf pos = pos + blen (conn_part conn) /\
  cursor buf (pos + blen (conn_part conn)) rest.
Proof.
  intros Hc Hd. split; [|apply (cursor_next _ _ _ _ Hc)].
  pose proof (cursor_len _ _ _ Hc) as Hl. rewrite blen_app in Hl.
  pose proof (blen_nonneg rest). unfold skip_conn. destruct conn as [d|]; simpl in *.
  - rewrite <- app_assoc in Hc. apply cursor_byte in Hc as [E1 Hc].
    rewrite blen_cons, blen_app in *. change (blen [SPACE]) with 1 in *.
    pose proof (blen_nonneg d). rewrite E1. simpl in Hc.
    rewrite (scan_digits_run d buf (pos + 1) (SPACE :: rest) (length buf) Hd);
      [|reflexivity|assumption|destruct Hc; unfold blen in *; lia].
    apply cursor_next in Hc. apply cursor_byte in Hc as [E2 _].
    rewrite E2. simpl Z.eqb. rewrite !andb_true_r. case_ifs. lia.
  - rewrite blen_nil in *. destruct rest as [|c rest].
    + rewrite blen_nil in Hl. case_ifs; lia.
    + apply cursor_byte in Hc as [-> _]. apply Z.eqb_neq in Hd.
      rewrite Hd, andb_false_r. lia.
Qed.

Lemma trim_end_spec buf i body nl :
  cursor buf i (body ++ nl) -> body <> [] ->
  nl = [NEWLINE] \/ nl = [] /\ list.last body <> Some NEWLINE ->
  trim_end buf = i + blen body.
Proof.
  intros Hc Hb Hnl. pose proof (cursor_len _ _ _ Hc) as Hl. rewrite blen_app in Hl.
  pose proof Hc as [Hi _]. unfold trim_end. destruct Hnl as [->|[-> Hnl]].
  - change (blen [NEWLINE]) with 1 in Hl. pose proof (blen_nonneg body).
    apply cursor_next in Hc. apply cursor_byte in Hc as [E _].
    replace (blen buf - 1) with (i + blen body) by lia. rewrite E.
    case_ifs; reflexivity.
  - rewrite blen_nil in Hl. rewrite app_nil_r in Hc.
    destruct (exists_last Hb) as (l & x & ->). rewrite last_snoc in Hnl.
    apply cursor_next in Hc. apply cursor_byte in Hc as [E _].
    rewrite blen_app in *. change (blen [x]) with 1 in *.
    replace (blen buf - 1) with (i + blen l) by lia. rewrite E.
    destruct (x =? NEWLINE) eqn:Ex; zify_bool; [congruence|].
    rewrite andb_false_r. lia.
Qed.

Lemma stable_core_line tl pt conn core ctx nl :
  line_wf tl pt conn core ctx nl -> stable_core (error_line tl pt conn core ctx nl) = core.
Proof.
  intros [H1 H2 H3 H4 H5 H6 H7]. set (buf := error_line tl pt conn core ctx nl).
  pose proof (cursor_start buf) as Hc. unfold buf at 2 in Hc. unfold error_line in Hc.
  pose proof (cursor_len _ _ _ Hc) as Hl. rewrite !blen_app, !blen_cons, !blen_app, !blen_cons, !blen_app in Hl.
  unfold stable_core, core_start.
  rewrite (scan_pair_hit RBRACKET SPACE tl buf 0 _ _ ltac:(discriminate) H1 Hc)
    by (unfold blen in Hl; lia).
  apply cursor_next in Hc. apply cursor_byte in Hc as [_ Hc]. apply cursor_byte in Hc as [_ Hc].
  replace (0 + blen tl + 1 + 1) with (0 + blen tl + 2) in Hc by lia.
  rewrite (scan_pair_hit COLON SPACE pt buf _ _ _ ltac:(discriminate) H2 Hc)
    by (unfold blen in Hl; lia).
  apply cursor_next in Hc. apply cursor_byte in Hc as [_ Hc]. apply cursor_byte in Hc as [_ Hc].
  match type of Hc with cursor _ ?p _ =>
    replace p with (0 + blen tl + 2 + blen pt + 2) in Hc by lia end.
  apply skip_conn_spec in Hc as [-> Hc];
    [|destruct conn; [assumption|]; destruct core as [|c core]; [contradiction|exact H3]].
  set (st := 0 + blen tl + 2 + blen pt + 2 + blen (conn_part conn)) in *. cbv zeta.
  pose proof Hc as Hc'. rewrite app_assoc in Hc'.
  rewrite (trim_end_spec buf st (core ++ ctx) nl Hc'); [|destruct core; [contradiction|discriminate]|assumption].
  rewrite blen_app, Z.add_assoc.
  rewrite (scan_end_core core ctx nl buf st _ Hc H5 H6) by (unfold blen in Hl; lia).
  unfold slice. replace (st + blen core - st) with (blen core) by lia.
  rewrite (cursor_sub _ _ _ _ Hc).
  destruct core as [|c core]; [contradiction|]. rewrite blen_cons.
  pose proof (blen_nonneg core). case_ifs. reflexivity.
Qed.

(** ** The table invariant *)

(** The [d]-th slot of the probe sequence of [key]. *)
Definition probe_idx (key : Z) (d : nat) : nat := ((mask key + d) mod 256)%nat.

Definition occupied (t : list slot) (i : nat) : Prop := key_hash (slot_at t i) <> 0.
Definition matches (t : list slot) (key sev : Z) (i : nat) : Prop :=
  key_hash (slot_at t i) = key /\ severity (slot_at t i) = sev.

(** Linear probing: an occupied slot is reached from its key's home without
    crossing an empty one; no entry is stored twice; every entry has its
    sample out. *)
Record table_ok (t : list slot) : Prop := {
  to_len : length t = COALESCE_CAPACITY;
  to_reach : forall i, (i < 256)%nat -> occupied t i ->
    exists d, (d < 256)%nat /\ i = probe_idx (key_hash (slot_at t i)) d /\
              forall e, (e < d)%nat -> occupied t (probe_idx (key_hash (slot_at t i)) e);
  to_unique : forall i j, (i < 256)%nat -> (j < 256)%nat -> occupied t i ->
    matches t (key_hash (slot_at t i)) (severity (slot_at t i)) j -> i = j;
  to_sampled : forall i, (i < 256)%nat -> occupied t i -> sample_emitted (slot_at t i) = true;
  to_count : forall i, (i < 256)%nat -> 0 <= count (slot_at t i);
  to_empty : forall i, (i < 256)%nat -> ~ occupied t i -> count (slot_at t i) = 0
}.

Lemma mask_mod z : 0 <= z -> mask z = (Z.to_nat z mod 256)%nat.
Proof.
  intros Hz. unfold mask. change 255 with (Z.ones 8). rewrite Z.land_ones by lia.
  change (2 ^ 8) with 256. rewrite Z2Nat.inj_mod by lia. reflexivity.
Qed.

Lemma mask_lt z : 0 <= z -> (mask z < 256)%nat.
Proof. intros. rewrite mask_mod by lia. apply Nat.mod_upper_bound. lia. Qed.

Lemma probe_idx_lt key d : (probe_idx key d < 256)%nat.
Proof. apply Nat.mod_upper_bound. lia. Qed.

Lemma probe_idx_0 key : 0 <= key -> probe_idx key 0 = mask key.
Proof.
  intros. unfold probe_idx. rewrite Nat.add_0_r. apply Nat.mod_small, mask_lt. assumption.
Qed.

Lemma probe_idx_S key d : mask (Z.of_nat (probe_idx key d) + 1) = probe_idx key (S d).
Proof.
  rewrite mask_mod by lia.
  replace (Z.to_nat (Z.of_nat (probe_idx key d) + 1)) with (probe_idx key d + 1)%nat by lia.
  unfold probe_idx. rewrite Nat.Div0.add_mod_idemp_l. f_equal. lia.
Qed.

Lemma probe_idx_inj key d e :
  (d < 256)%nat -> (e < 256)%nat -> probe_idx key d = probe_idx key e -> d = e.
Proof.
  unfold probe_idx. intros. pose proof (Nat.div_mod_eq (mask key + d) 256).
  pose proof (Nat.div_mod_eq (mask key + e) 256). lia.
Qed.

Lemma slot_at_insert t i s j :
  (i < length t)%nat -> slot_at (<[i := s]> t) j = if decide (i = j) then s else slot_at t j.
Proof.
  intros Hi. unfold slot_at. rewrite !nth_lookup. case_decide as E.
  - subst. rewrite list_lookup_insert_eq by assumption. reflexivity.
  - rewrite list_lookup_insert_ne by assumption. reflexivity.
Qed.

(** What the probe loop does, by the first slot that stops it. *)
Inductive probe_outcome (t : list slot) (sev key : Z)
    : coalesce_result -> list slot -> Prop :=
  | po_new d :
      (d < 256)%nat ->
      (forall e, (e < d)%nat -> occupied t (probe_idx key e) /\ ~ matches t key sev (probe_idx key e)) ->
      ~ occupied t (probe_idx key d) ->
      probe_outcome t sev key (EmitVerbatim key)
        (<[probe_idx key d := mk_slot key sev 1 true]> t)
  | po_hit d :
      (d < 256)%nat ->
      (forall e, (e < d)%nat -> occupied t (probe_idx key e) /\ ~ matches t key sev (probe_idx key e)) ->
      occupied t (probe_idx key d) -> matches t key sev (probe_idx key d) ->
      probe_outcome t sev key
        (if sample_emitted (slot_at t (probe_idx key d)) then Coalesced else EmitVerbatim key)
        (<[probe_idx key d :=
             mk_slot key sev (count (slot_at t (probe_idx key d)) +w32 1) true]> t)
  | po_full :
      (forall e, (e < 256)%nat -> occupied t (probe_idx key e) /\ ~ matches t key sev (probe_idx key e)) ->
      probe_outcome t sev key (EmitVerbatim 0) t.

Lemma probe_loop_outcome t sev key d fuel :
  0 <= key -> (d < 256)%nat -> (256 - d <= fuel)%nat ->
  (forall e, (e < d)%nat -> occupied t (probe_idx key e) /\ ~ matches t key sev (probe_idx key e)) ->
  exists res t', probe_loop fuel t sev key (mask key) (probe_idx key d) d = Some (res, t') /\
                 probe_outcome t sev key res t'.
Proof.
  intros Hk. revert d. induction fuel as [|fuel IH]; intros d Hd Hf Hbefore; [lia|].
  cbn [probe_loop]. cbv zeta. set (s := slot_at t (probe_idx key d)).
  destruct (key_hash s =? 0) eqn:E0; zify_bool.
  { eexists _, _; split; [reflexivity|]. apply po_new; auto. }
  destruct ((key_hash s =? key) && (severity s =? sev)) eqn:E1.
  { apply andb_prop in E1 as [K1 K2]. zify_bool. rewrite K1, K2.
    eexists _, _; split; [|apply (po_hit t sev key d); auto; split; assumption].
    fold s. destruct (sample_emitted s); reflexivity. }
  assert (Hext : forall e, (e < S d)%nat ->
            occupied t (probe_idx key e) /\ ~ matches t key sev (probe_idx key e)).
  { intros e He. destruct (decide (e = d)) as [->|]; [|apply Hbefore; lia].
    split; [assumption|]. intros [M1 M2]. fold s in M1, M2.
    rewrite M1, M2, !Z.eqb_refl in E1. discriminate. }
  rewrite probe_idx_S. unfold COALESCE_CAPACITY.
  destruct (256 <=? S d)%nat eqn:E2.
  { apply Nat.leb_le in E2. eexists _, _; split; [reflexivity|].
    apply po_full. intros e He. apply Hext. lia. }
  apply Nat.leb_gt in E2. destruct (probe_idx key (S d) =? mask key)%nat eqn:E3.
  { apply Nat.eqb_eq in E3. rewrite <- probe_idx_0 in E3 by assumption.
    apply probe_idx_inj in E3; lia. }
  apply IH; [lia|lia|exact Hext].
Qed.

#[global] Arguments probe_loop : simpl never.

(** Sum of the counts of the slots selected by [f]. *)
Definition wsum (f : slot -> bool) (t : list slot) : Z :=
  zsum (map (fun s => if f s then count s else 0) t).

Definition is_entry (k s : Z) (sl : slot) : bool := (key_hash sl =? k) && (severity sl =? s).
Definition count_of (t : list slot) (k s : Z) : Z := wsum (is_entry k s) t.

Lemma wsum_insert f t i s :
  (i < length t)%nat ->
  wsum f (<[i := s]> t) =
    wsum f t - (if f (slot_at t i) then count (slot_at t i) else 0) + (if f s then count s else 0).
Proof.
  unfold wsum, slot_at. revert i. induction t as [|a t IH]; intros [|i] Hi; simpl in *; try lia.
  rewrite IH by lia. lia.
Qed.

Lemma slot_le_wsum t i :
  table_ok t -> (i < 256)%nat -> count (slot_at t i) <= wsum (fun _ => true) t.
Proof.
  intros [Hl _ _ _ Hc _] Hi.
  assert (HF : Forall (fun z => 0 <= z) (map count t)).
  { apply List.Forall_forall. intros z Hz. apply in_map_iff in Hz as (s & <- & Hs).
    apply (In_nth _ _ empty_slot) in Hs as (j & Hj & <-).
    apply Hc. unfold COALESCE_CAPACITY in Hl. lia. }
  apply zsum_ge_In; [exact HF|].
  apply (in_map count), nth_In. unfold COALESCE_CAPACITY in Hl. lia.
Qed.

Lemma occupied_insert t i s j :
  (i < length t)%nat ->
  occupied (<[i := s]> t) j <-> (i = j /\ key_hash s <> 0) \/ (i <> j /\ occupied t j).
Proof.
  intros Hi. unfold occupied. rewrite slot_at_insert by assumption.
  case_decide; simpl; intuition congruence.
Qed.

Section insert_ok.
Context (t : list slot) (key sev c : Z) (d : nat).
Hypothesis Hok : table_ok t.
Hypothesis Hkey : key <> 0.
Hypothesis Hc : 0 <= c.
Hypothesis Hd : (d < 256)%nat.
Hypothesis Hbefore : forall e, (e < d)%nat ->
  occupied t (probe_idx key e) /\ ~ matches t key sev (probe_idx key e).

(** Either the slot is empty, or it already holds this entry. *)
Hypothesis Hslot : ~ occupied t (probe_idx key d) \/ matches t key sev (probe_idx key d).

Let t' := <[probe_idx key d := mk_slot key sev c true]> t.

Lemma idx_in : (probe_idx key d < length t)%nat.
Proof. destruct Hok as [-> _ _ _ _ _]. apply probe_idx_lt. Qed.

Lemma occupied_grows j : occupied t j -> occupied t' j.
Proof.
  intros Hj. apply occupied_insert; [apply idx_in|].
  destruct (decide (probe_idx key d = j)); [left|right]; auto.
Qed.

(** No other slot holds the entry [(key, sev)]. *)
Lemma entry_elsewhere j :
  (j < 256)%nat -> matches t key sev j -> j = probe_idx key d.
Proof.
  intros Hj [M1 M2]. destruct Hok as [Hl Hr Hu _ _ _].
  assert (Oj : occupied t j) by (unfold occupied; rewrite M1; assumption).
  destruct (Hr j Hj Oj) as (e & He & Ej & Hpath). rewrite M1 in Ej, Hpath.
  destruct (Nat.lt_trichotomy e d) as [Hlt|[->|Hgt]]; [|assumption|].
  - exfalso. destruct (Hbefore e Hlt) as [_ Hn]. apply Hn. rewrite <- Ej. split; assumption.
  - specialize (Hpath d Hgt). destruct Hslot as [Hn|Hm]; [contradiction|].
    symmetry. apply Hu; [apply probe_idx_lt|assumption|assumption|].
    destruct Hm as [-> ->]. split; assumption.
Qed.

Lemma insert_table_ok : table_ok t'.
Proof.
  pose proof idx_in as Hi. pose proof Hok as [Hl Hr Hu Hs Hcn He].
  split.
  - unfold t'. rewrite length_insert. assumption.
  - intros i Hi256 Hocc.
    assert (Es : slot_at t' i = if decide (probe_idx key d = i) then mk_slot key sev c true
                                else slot_at t i) by (apply slot_at_insert; assumption).
    rewrite Es. case_decide as E; simpl.
    + subst i. exists d. split_and!; [assumption|reflexivity|].
      intros e Hed. apply occupied_grows. apply Hbefore. assumption.
    + apply occupied_insert in Hocc as [[? _]|[_ Hocc]]; [congruence| |assumption].
      destruct (Hr i Hi256 Hocc) as (e & He1 & He2 & He3).
      exists e. split_and!; auto using occupied_grows.
  - intros i j Hi256 Hj256 Hocc Hm.
    unfold t' in Hm. unfold matches in Hm. rewrite !slot_at_insert in Hm by assumption.
    destruct (decide (probe_idx key d = i)) as [Ei|Ei];
    destruct (decide (probe_idx key d = j)) as [Ej|Ej]; simpl in Hm; [congruence| | |].
    + subst i. symmetry. destruct Hm. apply entry_elsewhere; [assumption|split; congruence].
    + exfalso. apply occupied_insert in Hocc as [[? _]|[_ Hocc]]; [congruence| |assumption].
      apply Ei. symmetry. apply entry_elsewhere; [assumption|].
      destruct Hm as [M1 M2]. split; congruence.
    + apply occupied_insert in Hocc as [[? _]|[_ Hocc]]; [congruence| |assumption].
      apply Hu; assumption.
  - intros i Hi256 Hocc. unfold t'. rewrite slot_at_insert by assumption. case_decide; [reflexivity|].
    apply Hs; [assumption|]. apply occupied_insert in Hocc as [[? _]|[_ Hocc]]; trivial. congruence.
  - intros i Hi256. unfold t'. rewrite slot_at_insert by assumption. case_decide; simpl; auto.
  - intros i Hi256 Hn. unfold t'. rewrite slot_at_insert by assumption. case_decide as E.
    + exfalso. apply Hn. apply occupied_insert; [assumption|]. left; auto.
    + apply He; [assumption|]. intros Ho. apply Hn, occupied_grows. assumption.
Qed.
End insert_ok.

(** ** Counting *)

Definition tracked (t : list slot) (key sev : Z) : Prop :=
  exists i, (i < 256)%nat /\ occupied t i /\ matches t key sev i.

Lemma coalesce_key_range sev core : 0 < coalesce_key sev core < 2 ^ 64.
Proof.
  unfold coalesce_key. set (h := foldl _ _ _).
  assert (0 <= h < 2 ^ 64).
  { unfold h. destruct core as [|b core] using rev_ind; [apply u64_range|].
    rewrite foldl_app. apply u64_range. }
  case_if; lia.
Qed.

(** One probe run keeps the invariant and counts the event once, on its own
    entry, unless it degraded to an untracked verbatim record. *)
Lemma probe_outcome_counts t sev key res t' :
  table_ok t -> 0 < key -> wsum (fun _ => true) t < u32_max ->
  probe_outcome t sev key res t' ->
  table_ok t' /\
  ((res = EmitVerbatim 0 /\ t' = t /\ ~ tracked t key sev) \/
   ((res = Coalesced /\ tracked t key sev \/ res = EmitVerbatim key /\ ~ tracked t key sev) /\
    forall f : slot -> bool,
      (forall s1 s2, key_hash s1 = key_hash s2 -> severity s1 = severity s2 -> f s1 = f s2) ->
      wsum f t' = wsum f t + (if f (mk_slot key sev 0 false) then 1 else 0))).
Proof.
  intros Hok Hk Hb Ho. pose proof Hok as [Hl Hr Hu Hs Hcn He].
  destruct Ho as [d Hd Hbefore Hfree|d Hd Hbefore Hocc Hm|Hfull].
  - split; [apply insert_table_ok; auto; lia|]. right. split.
    + right. split; [reflexivity|]. intros (i & Hi & Oi & Mi).
      assert (Ei : i = probe_idx key d)
        by (apply (entry_elsewhere t key sev d); auto; lia).
      subst i. contradiction.
    + intros f Hf. rewrite wsum_insert by (rewrite Hl; apply probe_idx_lt).
      rewrite (He _ (probe_idx_lt key d) Hfree). simpl.
      rewrite (Hf (mk_slot key sev 1 true) (mk_slot key sev 0 false)) by reflexivity.
      case_ifs; lia.
  - pose proof (slot_le_wsum t _ Hok (probe_idx_lt key d)) as Hle.
    pose proof (Hcn _ (probe_idx_lt key d)) as Hnn.
    assert (Ec : count (slot_at t (probe_idx key d)) +w32 1 = count (slot_at t (probe_idx key d)) + 1)
      by (apply u32_small; lia).
    rewrite Ec, (Hs _ (probe_idx_lt key d) Hocc).
    split; [apply insert_table_ok; auto; lia|]. right. split.
    + left. split; [reflexivity|]. exists (probe_idx key d). auto using probe_idx_lt.
    + intros f Hf. rewrite wsum_insert by (rewrite Hl; apply probe_idx_lt). simpl.
      destruct Hm as [M1 M2].
      rewrite (Hf (slot_at t (probe_idx key d)) (mk_slot key sev 0 false)) by assumption.
      rewrite (Hf (mk_slot key sev _ true) (mk_slot key sev 0 false)) by reflexivity.
      destruct (f (mk_slot key sev 0 false)); lia.
  - split; [assumption|]. left. split_and!; try reflexivity. intros (i & Hi & Oi & Mi).
    destruct (Hr i Hi Oi) as (d & Hd & E & _). destruct Mi as [M1 M2]. rewrite M1 in E.
    destruct (Hfull d Hd) as [_ Hn]. apply Hn. rewrite <- E. split; assumption.
Qed.

Lemma coalesce_total t sev buf en :
  exists res t', coalesce t sev buf en = Some (res, t').
Proof.
  unfold coalesce. destruct en; cbn [negb]; [|eauto]. destruct (sev <=? _); [eauto|].
  pose proof (coalesce_key_range sev (stable_core buf)).
  set (key := coalesce_key _ _) in *.
  destruct (probe_loop_outcome t sev key 0 COALESCE_CAPACITY) as (res & t' & E & _);
    try lia; [unfold COALESCE_CAPACITY; lia|].
  rewrite probe_idx_0 in E by lia. eauto.
Qed.

Lemma coalesce_counts t sev buf res t' :
  table_ok t -> HIGH_SEVERITY_THRESHOLD < sev -> wsum (fun _ => true) t < u32_max ->
  coalesce t sev buf true = Some (res, t') ->
  let key := coalesce_key sev (stable_core buf) in
  table_ok t' /\
  ((res = EmitVerbatim 0 /\ t' = t /\ ~ tracked t key sev) \/
   ((res = Coalesced /\ tracked t key sev \/ res = EmitVerbatim key /\ ~ tracked t key sev) /\
    forall f : slot -> bool,
      (forall s1 s2, key_hash s1 = key_hash s2 -> severity s1 = severity s2 -> f s1 = f s2) ->
      wsum f t' = wsum f t + (if f (mk_slot key sev 0 false) then 1 else 0))).
Proof.
  intros Hok Hs Hb H. cbv zeta. pose proof (coalesce_key_range sev (stable_core buf)).
  unfold coalesce in H. simpl in H. destruct (sev <=? _) eqn:E; zify_bool; [lia|].
  set (key := coalesce_key _ _) in *.
  destruct (probe_loop_outcome t sev key 0 COALESCE_CAPACITY) as (res1 & t1 & E1 & Ho);
    try lia; [unfold COALESCE_CAPACITY; lia|].
  rewrite probe_idx_0 in E1 by lia. rewrite E1 in H. injection H as -> ->.
  apply probe_outcome_counts; trivial. lia.
Qed.

(** ** The drain *)

Definition reported (out : list (Z * Z * Z)) (k s : Z) : Z :=
  zsum (map (fun e => if (fst (fst e) =? k) && (snd (fst e) =? s) then snd e else 0) out).

Lemma slot_at_ge t i : (length t <= i)%nat -> slot_at t i = empty_slot.
Proof. intros. apply nth_overflow. assumption. Qed.

Lemma drain_key_zero t i : key_hash (slot_at (fst (drain_coalesce_table t)) i) = 0.
Proof.
  unfold slot_at, drain_coalesce_table. simpl.
  pose proof (map_nth (fun s => fst (drain_slot s)) t empty_slot i) as E.
  cbv beta in E. change (fst (drain_slot empty_slot)) with empty_slot in E. rewrite E.
  unfold drain_slot. case_if; [assumption|reflexivity].
Qed.

Lemma empty_keys_ok t :
  length t = COALESCE_CAPACITY -> (forall i, key_hash (slot_at t i) = 0) ->
  (forall i, count (slot_at t i) = 0) -> table_ok t.
Proof.
  intros Hl Hk Hc. split; try assumption; unfold occupied; intros; try (rewrite Hk in *; congruence).
  rewrite Hc; lia.
Qed.

Lemma drain_reports t k s :
  (forall sl, In sl t -> 0 <= count sl) -> (forall sl, In sl t -> key_hash sl = 0 -> count sl = 0) ->
  reported (snd (drain_coalesce_table t)) k s = count_of t k s.
Proof.
  unfold reported, count_of, wsum, drain_coalesce_table. simpl.
  induction t as [|a t IH]; intros Hn He; [reflexivity|].
  simpl. rewrite map_app, zsum_app, IH by (intros; first [apply Hn|apply He]; simpl; auto).
  f_equal. unfold drain_slot, is_entry. specialize (Hn a (or_introl eq_refl)).
  specialize (He a (or_introl eq_refl)).
  case_if; simpl; [rewrite He by assumption; case_if; reflexivity|].
  destruct (0 <? count a) eqn:Ec; simpl; [lia|]. zify_bool. case_if; lia.
Qed.

(** ** One export interval *)

(** The events of an interval; [Some key] for each that was tracked. *)
Fixpoint run_events (t : list slot) (evs : list (Z * list Z)) {struct evs} : option (list (Z * option Z) * list slot) :=
  match evs with
  | [] => Some ([], t)
  | (sev, buf) :: evs' =>
      match coalesce t sev buf true with
      | None => None
      | Some (res, t') =>
          match run_events t' evs' with
          | None => None
          | Some (rs, t'') =>
              let key := coalesce_key sev (stable_core buf) in
              let r := match res with
                       | Coalesced => Some key
                       | EmitVerbatim h => if h =? 0 then None else Some key
                       end in
              Some ((sev, r) :: rs, t'')
          end
      end
  end.

Definition occurrences (rs : list (Z * option Z)) (k s : Z) : Z :=
  zsum (map (fun r => match snd r with
                      | Some key => if (key =? k) && (fst r =? s) then 1 else 0
                      | None => 0
                      end) rs).

Lemma run_events_count evs t :
  table_ok t -> Forall (fun e => HIGH_SEVERITY_THRESHOLD < fst e) evs ->
  wsum (fun _ => true) t + Z.of_nat (length evs) <= u32_max ->
  exists rs t', run_events t evs = Some (rs, t') /\ table_ok t' /\
    forall k s, count_of t' k s = count_of t k s + occurrences rs k s.
Proof.
  revert t. induction evs as [|[sev buf] evs IH]; intros t Hok HF Hb; simpl.
  { exists [], t. split_and!; try reflexivity; [assumption|]. intros. unfold occurrences. simpl. lia. }
  inversion HF as [|? ? Hsev HF']; subst. simpl in Hsev, Hb.
  destruct (coalesce_total t sev buf true) as (res & t1 & E). rewrite E.
  pose proof (coalesce_counts t sev buf res t1 Hok Hsev ltac:(lia) E) as [Hok1 Hcase].
  pose proof (coalesce_key_range sev (stable_core buf)).
  set (key := coalesce_key _ _) in *.
  assert (Htot : wsum (fun _ => true) t1 <= wsum (fun _ => true) t + 1).
  { destruct Hcase as [(_ & -> & _)|[_ Hw]]; [lia|].
    rewrite (Hw (fun _ => true) ltac:(reflexivity)). lia. }
  destruct (IH t1 Hok1 HF' ltac:(lia)) as (rs & t' & E' & Hok' & Hcnt). rewrite E'.
  eexists _, t'. split; [reflexivity|]. split; [assumption|]. intros k s. rewrite Hcnt.
  unfold occurrences. simpl. fold (occurrences rs k s).
  destruct Hcase as [(-> & -> & _)|[Hres Hw]]; [simpl; lia|].
  unfold count_of at 1. rewrite Hw by (intros ? ? E1 E2; unfold is_entry; rewrite E1, E2; reflexivity).
  fold (count_of t k s). unfold is_entry. simpl.
  destruct Hres as [[-> _]|[-> _]]; simpl; [lia|].
  destruct (key =? 0) eqn:E0; zify_bool; lia.
Qed.

Lemma drain_slot_empty s : count (fst (drain_slot s)) = if key_hash s =? 0 then count s else 0.
Proof. unfold drain_slot. case_if; reflexivity. Qed.

Lemma drain_table_ok t : table_ok t -> table_ok (fst (drain_coalesce_table t)).
Proof.
  intros [Hl _ _ _ _ He]. apply empty_keys_ok.
  - simpl. rewrite length_map. assumption.
  - apply drain_key_zero.
  - intros i. unfold slot_at, drain_coalesce_table. simpl.
    pose proof (map_nth (fun s => fst (drain_slot s)) t empty_slot i) as E.
    cbv beta in E. change (fst (drain_slot empty_slot)) with empty_slot in E. rewrite E.
    rewrite drain_slot_empty. destruct (key_hash _ =? 0) eqn:Ek; [|reflexivity]. zify_bool.
    destruct (Nat.lt_ge_cases i 256) as [Hi|Hi].
    + apply He; [assumption|]. unfold occupied, slot_at. lia.
    + rewrite nth_overflow; [reflexivity|]. unfold COALESCE_CAPACITY in Hl. lia.
Qed.

Lemma table_ok_In t sl :
  table_ok t -> In sl t -> 0 <= count sl /\ (key_hash sl = 0 -> count sl = 0).
Proof.
  intros [Hl _ _ _ Hc He] Hin. apply (In_nth _ _ empty_slot) in Hin as (i & Hi & <-).
  unfold COALESCE_CAPACITY in Hl. rewrite Hl in Hi. split; [apply Hc; assumption|].
  intros Hk. apply He; [assumption|]. unfold occupied, slot_at. lia.
Qed.

Lemma empty_table_ok : table_ok empty_table.
Proof.
  apply empty_keys_ok; [reflexivity|..]; intros i; unfold slot_at, empty_table;
    rewrite nth_lookup; destruct (decide (i < COALESCE_CAPACITY)%nat);
    rewrite ?lookup_replicate_2, ?lookup_ge_None_2 by (rewrite ?length_replicate; lia || assumption);
    reflexivity.
Qed.

(** ** Properties *)

(** Error lines that differ only in time, process ids, connection
    number, request context or trailing newline have the same stable core: the
    message text itself.  On every input whatsoever the slice taken by [stable_core] has its
    bounds in order and inside the buffer, so it cannot panic, and the key is never
    the empty-slot sentinel. *)
Theorem stable_core_exact tl pt conn core ctx nl buf sev :
  (line_wf tl pt conn core ctx nl -> stable_core (error_line tl pt conn core ctx nl) = core) /\
  let st := core_start buf in
  let e := scan_end (length buf) buf st (trim_end buf) in
  0 <= st <= e /\ e <= blen buf /\ 0 < coalesce_key sev (stable_core buf) < 2 ^ 64.
Proof.
  split; [apply stable_core_line|].
  cbv zeta. destruct (core_start_range buf) as [H1 _]. pose proof (trim_end_range buf).
  pose proof (scan_end_range (length buf) buf (core_start buf) (trim_end buf)).
  pose proof (coalesce_key_range sev (stable_core buf)). lia.
Qed.

(** [coalesce] always returns, keeps the table's linear-probing invariant, emits
    one verbatim sample for a new template and none for one already counted in
    this interval, and otherwise leaves the table alone and emits the record untracked. *)
Theorem coalesce_sample_once t sev buf :
  table_ok t -> HIGH_SEVERITY_THRESHOLD < sev -> wsum (fun _ => true) t < u32_max ->
  let key := coalesce_key sev (stable_core buf) in
  exists res t', coalesce t sev buf true = Some (res, t') /\ table_ok t' /\
    (res = Coalesced /\ tracked t key sev \/
     res = EmitVerbatim key /\ ~ tracked t key sev \/
     res = EmitVerbatim 0 /\ t' = t /\ ~ tracked t key sev).
Proof.
  intros Hok Hs Hb. cbv zeta. destruct (coalesce_total t sev buf true) as (res & t' & E).
  exists res, t'. split; [exact E|].
  destruct (coalesce_counts t sev buf res t' Hok Hs Hb E) as [Hok' Hc].
  split; [assumption|]. destruct Hc as [Hc|[Hc _]]; tauto.
Qed.

(** Over a whole export interval no tracked occurrence is lost or counted
    twice: starting from the table a drain leaves, after any events the next
    drain reports for every (key, severity) exactly the number of tracked events with that
    key, and leaves an empty table again. *)
Theorem interval_counts_exact t0 evs :
  table_ok t0 -> Forall (fun e => HIGH_SEVERITY_THRESHOLD < fst e) evs ->
  Z.of_nat (length evs) <= u32_max ->
  exists rs t', run_events (fst (drain_coalesce_table t0)) evs = Some (rs, t') /\
    (forall k s, reported (snd (drain_coalesce_table t')) k s = occurrences rs k s) /\
    forall i, key_hash (slot_at (fst (drain_coalesce_table t')) i) = 0.
Proof.
  intros Hok HF Hb. pose proof (drain_table_ok t0 Hok) as Hd.
  set (t := fst (drain_coalesce_table t0)) in *.
  assert (Hz : forall f, wsum f t = 0).
  { intros f. unfold wsum.
    assert (HF0 : forall sl, In sl t -> count sl = 0).
    { intros sl Hin. apply (table_ok_In t sl Hd Hin).
      apply (In_nth _ _ empty_slot) in Hin as (i & _ & <-). apply drain_key_zero. }
    clear -HF0. induction t as [|a l IH]; [reflexivity|]. simpl.
    rewrite IH by (intros; apply HF0; simpl; auto). rewrite (HF0 a) by (simpl; auto).
    case_if; reflexivity. }
  destruct (run_events_count evs t Hd HF) as (rs & t' & E & Hok' & Hc); [rewrite Hz; lia|].
  exists rs, t'. split_and!; [exact E| |apply drain_key_zero].
  intros k s. rewrite drain_reports.
  - rewrite Hc. unfold count_of. rewrite Hz. lia.
  - intros sl Hin. apply (table_ok_In t' sl Hok' Hin).
  - intros sl Hin. apply (table_ok_In t' sl Hok' Hin).
Qed.

(** *** Witnesses *)

Lemma stable_core_exact_witness :
  line_wf $"2024/01/01 00:00:00 [error" $"12#12" (Some $"7") $"connect() failed"
    $", client: 1.2.3.4" [NEWLINE] /\
  stable_core (error_line $"2024/01/01 00:00:00 [error" $"12#12" (Some $"7") $"connect() failed"
    $", client: 1.2.3.4" [NEWLINE]) = $"connect() failed".
Proof.
  assert (H : line_wf $"2024/01/01 00:00:00 [error" $"12#12" (Some $"7") $"connect() failed"
    $", client: 1.2.3.4" [NEWLINE]).
  { split; try (vm_compute; reflexivity); [discriminate|left; reflexivity]. }
  split; [exact H|]. exact (proj1 (stable_core_exact _ _ _ _ _ _ [] 4) H).
Defined.

Definition line_a : list Z := $"2024/01/01 00:00:00 [error] 12#12: *7 a, client: 1.2.3.4".
Definition line_b : list Z := $"2024/01/01 00:00:09 [error] 12#12: *8 a, client: 5.6.7.8".

Lemma coalesce_sample_once_witness :
  exists t1, coalesce empty_table 4 line_a true
    = Some (EmitVerbatim (coalesce_key 4 $"a"), t1) /\
  exists res t2, coalesce t1 4 line_b true = Some (res, t2) /\ res = Coalesced /\ table_ok t2.
Proof.
  assert (H0 : HIGH_SEVERITY_THRESHOLD < 4) by reflexivity.
  destruct (coalesce_sample_once empty_table 4 line_a empty_table_ok H0) as (r1 & t1 & E1 & Hok1 & _);
    [vm_compute; reflexivity|].
  vm_compute in E1. injection E1 as <- Et1.
  exists t1. split; [vm_compute; rewrite Et1; reflexivity|].
  destruct (coalesce_sample_once t1 4 line_b Hok1 H0) as (r2 & t2 & E2 & Hok2 & _);
    [subst t1; vm_compute; reflexivity|].
  exists r2, t2. split; [exact E2|split; [|exact Hok2]].
  subst t1. vm_compute in E2. injection E2 as <- _. reflexivity.
Defined.

Lemma interval_counts_exact_witness :
  exists rs t', run_events (fst (drain_coalesce_table empty_table)) [(4, line_a); (4, line_b); (5, line_a)]
    = Some (rs, t') /\
    forall k s, reported (snd (drain_coalesce_table t')) k s = occurrences rs k s.
Proof.
  destruct (interval_counts_exact empty_table [(4, line_a); (4, line_b); (5, line_a)])
    as (rs & t' & E & H & _).
  - exact empty_table_ok.
  - repeat constructor.
  - vm_compute. discriminate.
  - exists rs, t'. split; [exact E|exact H].
Defined.
