(* ===== verification/CoalesceRace.v ===== *)
(** * The coalescer table shared by a worker and the exporter (src/src/logs/coalesce.rs)

    [Coalesce] treats [coalesce] and [drain_coalesce_table] as atomic.  Here each
    of their loads, stores and read-modify-writes is a step of its own, and the
    worker and the exporter interleave freely.  Run alone, the steps are
    exactly the two functions.  Interleaved, the counts reported never exceed the
    occurrences, but a sweep can lose any number of them.  The interleaving is
    sequentially consistent, so the runs that lose are runs of the code, and the
    upper bound holds as far as the accesses take effect in program order. *)
From stdpp Require Import relations.
From S2P Require Import Prelude DataModel Coalesce.

(** ** The steps of the code *)

(** Where the worker stands in [coalesce]; each constructor names its next access.
    [src/src/logs/coalesce.rs: 281-330 coalesce] *)
Inductive wpc :=
  | WIdle
  | WLoadKey (sev key : Z) (start probe probes : nat)
  | WStoreKey (sev key : Z) (probe : nat)
  | WStoreSev (sev key : Z) (probe : nat)
  | WStoreCount (key : Z) (probe : nat)
  | WStoreEmitted (key : Z) (probe : nat)
  | WLoadSev (sev key : Z) (start probe probes : nat)
  | WLoadEmitted (key : Z) (probe : nat)
  | WAdd (key : Z) (probe : nat) (already_emitted : bool)
  | WRet (r : coalesce_result).

Definition with_key (k : Z) (s : slot) : slot := mk_slot k (severity s) (count s) (sample_emitted s).
Definition with_sev (v : Z) (s : slot) : slot := mk_slot (key_hash s) v (count s) (sample_emitted s).
Definition with_count (c : Z) (s : slot) : slot := mk_slot (key_hash s) (severity s) c (sample_emitted s).
Definition with_emitted (b : bool) (s : slot) : slot := mk_slot (key_hash s) (severity s) (count s) b.

(** After a collision: the next probe, or giving up.
    [src/src/logs/coalesce.rs: 314-329 coalesce] *)
Definition next_probe (sev key : Z) (start probe probes : nat) : wpc :=
  let probe := mask (Z.of_nat probe + 1) in
  let probes := S probes in
  if (COALESCE_CAPACITY <=? probes)%nat then WRet (EmitVerbatim 0)
  else if (probe =? start)%nat then WRet (EmitVerbatim 0)
  else WLoadKey sev key start probe probes.

(** One access of the worker; the flag marks the access that counts the event.
    [src/src/logs/coalesce.rs: 286-330 coalesce] *)
Definition wstep (t : list slot) (pc : wpc) : list slot * wpc * bool :=
  match pc with
  | WIdle | WRet _ => (t, pc, false)
  | WLoadKey sev key start probe probes =>
      let slot_key := key_hash (slot_at t probe) in
      (t, if slot_key =? 0 then WStoreKey sev key probe
          else if slot_key =? key then WLoadSev sev key start probe probes
          else next_probe sev key start probe probes, false)
  | WStoreKey sev key probe => (alter (with_key key) probe t, WStoreSev sev key probe, false)
  | WStoreSev sev key probe => (alter (with_sev sev) probe t, WStoreCount key probe, false)
  | WStoreCount key probe => (alter (with_count 1) probe t, WStoreEmitted key probe, true)
  | WStoreEmitted key probe => (alter (with_emitted true) probe t, WRet (EmitVerbatim key), false)
  | WLoadSev sev key start probe probes =>
      (t, if severity (slot_at t probe) =? sev then WLoadEmitted key probe
          else next_probe sev key start probe probes, false)
  | WLoadEmitted key probe => (t, WAdd key probe (sample_emitted (slot_at t probe)), false)
  | WAdd key probe already_emitted =>
      (alter (fun s => with_count (count s +w32 1) s) probe t,
       if already_emitted then WRet Coalesced else WStoreEmitted key probe, true)
  end.

(** Where the exporter stands in [drain_coalesce_table]: slot [i], report so far,
    and what it has read of the slot.
    [src/src/logs/coalesce.rs: 371-402 drain_coalesce_table] *)
Inductive dpc :=
  | DIdle
  | DLoad (i : nat) (out : list (Z * Z * Z))
  | DSwap (i : nat) (out : list (Z * Z * Z))
  | DKey (i : nat) (out : list (Z * Z * Z)) (c : Z)
  | DSev (i : nat) (out : list (Z * Z * Z)) (c k : Z)
  | DClearKey (i : nat) (out : list (Z * Z * Z)) (c k s : Z)
  | DClearSev (i : nat) (out : list (Z * Z * Z)) (c k s : Z)
  | DClearEmitted (i : nat) (out : list (Z * Z * Z)) (c k s : Z)
  | DRet (out : list (Z * Z * Z)).

(** One access of the exporter.  [src/src/logs/coalesce.rs: 373-401 drain_coalesce_table] *)
Definition dstep (t : list slot) (pc : dpc) : list slot * dpc :=
  match pc with
  | DIdle | DRet _ => (t, pc)
  | DLoad i out =>
      (t, if (COALESCE_CAPACITY <=? i)%nat then DRet out
          else if key_hash (slot_at t i) =? 0 then DLoad (S i) out else DSwap i out)
  | DSwap i out => (alter (with_count 0) i t, DKey i out (count (slot_at t i)))
  | DKey i out c => (t, DSev i out c (key_hash (slot_at t i)))
  | DSev i out c k => (t, DClearKey i out c k (severity (slot_at t i)))
  | DClearKey i out c k s => (alter (with_key 0) i t, DClearSev i out c k s)
  | DClearSev i out c k s => (alter (with_sev 0) i t, DClearEmitted i out c k s)
  | DClearEmitted i out c k s =>
      (alter (with_emitted false) i t, DLoad (S i) (if 0 <? c then out ++ [(k, s, c)] else out))
  end.

(** ** The two processes together *)

(** [events] occurrences have been counted into the table; [sweeps] are the
    reports of the finished sweeps. *)
Record sys := mk_sys {
  tbl : list slot;
  wp : wpc;
  dp : dpc;
  events : Z;
  sweeps : list (list (Z * Z * Z))
}.

Inductive step : sys -> sys -> Prop :=
  | step_event t dp n l sev buf :
      HIGH_SEVERITY_THRESHOLD < sev ->
      let key := coalesce_key sev (stable_core buf) in
      step (mk_sys t WIdle dp n l) (mk_sys t (WLoadKey sev key (mask key) (mask key) 0) dp n l)
  | step_worker t wp dp n l t' wp' b :
      wstep t wp = (t', wp', b) ->
      step (mk_sys t wp dp n l) (mk_sys t' wp' dp (if b then n + 1 else n) l)
  | step_return t r dp n l : step (mk_sys t (WRet r) dp n l) (mk_sys t WIdle dp n l)
  | step_sweep t wp n l : step (mk_sys t wp DIdle n l) (mk_sys t wp (DLoad 0 []) n l)
  | step_exporter t wp dp n l t' dp' :
      dstep t dp = (t', dp') -> step (mk_sys t wp dp n l) (mk_sys t' wp dp' n l)
  | step_report t wp out n l : step (mk_sys t wp (DRet out) n l) (mk_sys t wp DIdle n (l ++ [out])).

Definition init : sys := mk_sys empty_table WIdle DIdle 0 [].

Definition total (out : list (Z * Z * Z)) : Z := zsum (map snd out).

(** Counts the exporter has taken out of the table in the current sweep. *)
Definition in_hand (pc : dpc) : Z :=
  match pc with
  | DIdle => 0
  | DLoad _ out | DSwap _ out | DRet out => total out
  | DKey _ out c | DSev _ out c _ | DClearKey _ out c _ _ | DClearSev _ out c _ _
  | DClearEmitted _ out c _ _ => total out + c
  end.

Definition reported_total (s : sys) : Z := zsum (map total (sweeps s)).

(** ** Run alone, the steps are the functions *)

Definition wrel (p q : list slot * wpc) : Prop := exists b, wstep (fst p) (snd p) = (fst q, snd q, b).
Definition drel (p q : list slot * dpc) : Prop := dstep (fst p) (snd p) = q.

Lemma wrel_step t pc t' pc' b : wstep t pc = (t', pc', b) -> wrel (t, pc) (t', pc').
Proof. intros E. exists b. exact E. Qed.

(** Storing a function of the slot's contents is altering the slot. *)
Lemma insert_slot_at f t i : <[i := f (slot_at t i)]> t = alter f i t.
Proof.
  unfold slot_at. revert i. induction t as [|s t IH]; intros [|i]; cbn; try reflexivity.
  f_equal. exact (IH i).
Qed.

Ltac wstep1 := eapply rtc_l; [eapply wrel_step; cbn; try reflexivity|].

Lemma worker_insert sev key probe t :
  rtc wrel (t, WStoreKey sev key probe)
    (<[probe := mk_slot key sev 1 true]> t, WRet (EmitVerbatim key)).
Proof.
  do 4 wstep1. rewrite !list_alter_alter_eq, list_insert_alter. apply rtc_refl.
Qed.

Lemma worker_match key probe t :
  let s := slot_at t probe in
  rtc wrel (t, WLoadEmitted key probe)
    (<[probe := mk_slot (key_hash s) (severity s) (count s +w32 1) true]> t,
     WRet (if sample_emitted s then Coalesced else EmitVerbatim key)).
Proof.
  cbv zeta. set (f := fun s => mk_slot (key_hash s) (severity s) (count s +w32 1) true).
  change (mk_slot _ _ _ true) with (f (slot_at t probe)). rewrite insert_slot_at.
  wstep1. destruct (sample_emitted (slot_at t probe)) eqn:E.
  - wstep1. replace (alter f probe t) with (alter (fun s => with_count (count s +w32 1) s) probe t);
      [apply rtc_refl|]. rewrite <- !insert_slot_at. f_equal. unfold with_count, f. rewrite E. reflexivity.
  - do 2 wstep1. rewrite list_alter_alter_eq. apply rtc_refl.
Qed.

Lemma worker_runs_probe fuel sev key start : forall t probe probes res t',
  probe_loop fuel t sev key start probe probes = Some (res, t') ->
  rtc wrel (t, WLoadKey sev key start probe probes) (t', WRet res).
Proof.
  induction fuel as [|fuel IH]; intros t probe probes res t'; [discriminate|].
  assert (Hn : forall pc,
    (let probe := mask (Z.of_nat probe + 1) in
     if (COALESCE_CAPACITY <=? S probes)%nat then Some (EmitVerbatim 0, t)
     else if (probe =? start)%nat then Some (EmitVerbatim 0, t)
     else probe_loop fuel t sev key start probe (S probes)) = Some (res, t') ->
    wrel (t, pc) (t, next_probe sev key start probe probes) -> rtc wrel (t, pc) (t', WRet res)).
  { intros pc. cbv zeta. unfold next_probe.
    destruct (COALESCE_CAPACITY <=? S probes)%nat; [intros E Hw; injection E as <- <-; apply rtc_once, Hw|].
    destruct (_ =? start)%nat; [intros E Hw; injection E as <- <-; apply rtc_once, Hw|].
    intros E Hw. eapply rtc_l; [exact Hw|]. apply IH. exact E. }
  revert Hn. change (probe_loop (S fuel) t sev key start probe probes) with
    (if key_hash (slot_at t probe) =? 0 then
       Some (EmitVerbatim key, <[probe := mk_slot key sev 1 true]> t) else
     if (key_hash (slot_at t probe) =? key) && (severity (slot_at t probe) =? sev) then
       let t' := <[probe := mk_slot (key_hash (slot_at t probe)) (severity (slot_at t probe))
                              (count (slot_at t probe) +w32 1) true]> t in
       if sample_emitted (slot_at t probe) then Some (Coalesced, t') else Some (EmitVerbatim key, t')
     else
       let probe := mask (Z.of_nat probe + 1) in
       if (COALESCE_CAPACITY <=? S probes)%nat then Some (EmitVerbatim 0, t)
       else if (probe =? start)%nat then Some (EmitVerbatim 0, t)
       else probe_loop fuel t sev key start probe (S probes)). cbv zeta. intros Hn.
  destruct (key_hash (slot_at t probe) =? 0) eqn:E0.
  { intros E. injection E as <- <-. wstep1. rewrite E0. apply worker_insert. }
  destruct (key_hash (slot_at t probe) =? key) eqn:E1; cbn [andb].
  - destruct (severity (slot_at t probe) =? sev) eqn:E2.
    + intros E. wstep1. rewrite E0, E1. wstep1. rewrite E2.
      pose proof (worker_match key probe t) as M. cbv zeta in M.
      destruct (sample_emitted (slot_at t probe)); injection E as <- <-; exact M.
    + intros E. wstep1. rewrite E0, E1. apply Hn; [exact E|].
      eapply wrel_step. cbn. rewrite E2. reflexivity.
  - intros E. apply Hn; [exact E|]. eapply wrel_step. cbn. rewrite E0, E1. reflexivity.
Qed.

Ltac dstep1 := eapply rtc_l; [unfold drel; cbn; reflexivity|].

Lemma slot_at_middle pre s suf : slot_at (pre ++ s :: suf) (length pre) = s.
Proof. unfold slot_at. apply nth_middle. Qed.

Lemma alter_middle f pre (s : slot) suf : alter f (length pre) (pre ++ s :: suf) = pre ++ f s :: suf.
Proof. rewrite alter_app_r_alt, Nat.sub_diag by lia. reflexivity. Qed.

Lemma exporter_runs_drain suf : forall pre out, (length pre + length suf = COALESCE_CAPACITY)%nat ->
  rtc drel (pre ++ suf, DLoad (length pre) out)
    (pre ++ fst (drain_coalesce_table suf), DRet (out ++ snd (drain_coalesce_table suf))).
Proof.
  induction suf as [|s suf IH]; intros pre out Hl.
  - cbn. rewrite !app_nil_r. eapply rtc_l; [|apply rtc_refl]. unfold drel. cbn [fst snd dstep].
    cbn [length] in Hl. rewrite (proj2 (Nat.leb_le _ _)) by lia. reflexivity.
  - cbn [length] in Hl. change (drain_coalesce_table (s :: suf)) with
      (fst (drain_slot s) :: fst (drain_coalesce_table suf), snd (drain_slot s) ++ snd (drain_coalesce_table suf)).
    cbn [fst snd].
    specialize (IH (pre ++ [fst (drain_slot s)]) (out ++ snd (drain_slot s))).
    rewrite length_app, <- !app_assoc, Nat.add_1_r in IH. cbn [length app] in IH.
    eapply rtc_l.
    { unfold drel. cbn [fst snd dstep]. rewrite slot_at_middle, (proj2 (Nat.leb_gt _ _)) by lia. reflexivity. }
    revert IH. unfold drain_slot. destruct (key_hash s =? 0); cbn [fst snd]; intros IH.
    { rewrite app_nil_r in IH. apply IH. lia. }
    do 6 (eapply rtc_l; [unfold drel; cbn [fst snd dstep]; rewrite ?slot_at_middle, ?alter_middle; reflexivity|]).
    cbn. destruct (0 <? count s); [|rewrite app_nil_r in IH]; apply IH; lia.
Qed.

Lemma worker_lift p q : rtc wrel p q -> forall d n l,
  exists n', rtc step (mk_sys (fst p) (snd p) d n l) (mk_sys (fst q) (snd q) d n' l).
Proof.
  induction 1 as [p|p q r [b Hb] _ IH]; intros d n l; [exists n; apply rtc_refl|].
  destruct (IH d (if b then n + 1 else n) l) as [n' Hn]. exists n'.
  eapply rtc_l; [apply step_worker, Hb|exact Hn].
Qed.

Lemma exporter_lift p q : rtc drel p q -> forall w n l,
  rtc step (mk_sys (fst p) w (snd p) n l) (mk_sys (fst q) w (snd q) n l).
Proof.
  induction 1 as [p|p q r Hpq _ IH]; intros w n l; [apply rtc_refl|].
  eapply rtc_l; [|apply IH]. apply step_exporter. rewrite Hpq. apply surjective_pairing.
Qed.

(** ** Nothing is counted twice *)

Definition table_total (t : list slot) : Z := zsum (map count t).
Definition counts_nonneg (t : list slot) : Prop := Forall (fun s => 0 <= count s) t.

Lemma table_total_alter g t i : 0 <= count (g empty_slot) ->
  table_total (alter g i t) + count (slot_at t i) <= table_total t + count (g (slot_at t i)).
Proof.
  intros Hg. unfold table_total, slot_at. revert i.
  induction t as [|s t IH]; intros [|i]; try (cbn; lia).
  specialize (IH i). change (alter g (S i) (s :: t)) with (s :: alter g i t).
  unfold zsum in *. cbn [map foldr nth] in *. lia.
Qed.

Lemma counts_alter g t i : (forall s, 0 <= count s -> 0 <= count (g s)) ->
  counts_nonneg t -> counts_nonneg (alter g i t).
Proof. intros Hg Ht. apply Forall_alter; [exact Ht|intros; apply Hg; assumption]. Qed.

Lemma slot_count_nonneg t i : counts_nonneg t -> 0 <= count (slot_at t i).
Proof.
  intros Ht. unfold slot_at. revert i.
  induction Ht as [|s t Hs Ht IH]; intros [|i]; cbn; try lia. apply IH.
Qed.

Lemma wadd32_le c : 0 <= c -> 0 <= c +w32 1 <= c + 1.
Proof. intros Hc. unfold wrap. split; [apply Z.mod_pos_bound|apply Z.mod_le]; lia. Qed.

(** A worker access adds at most the event it counts. *)
Lemma wstep_total t pc t' pc' b : wstep t pc = (t', pc', b) -> counts_nonneg t ->
  counts_nonneg t' /\ table_total t' <= table_total t + (if b then 1 else 0).
Proof.
  intros E Ht. destruct pc; cbn in E; injection E as <- <- <-;
    try (split; [exact Ht|lia]);
    (split; [apply counts_alter; [intros s Hs; cbn; try apply wadd32_le; lia|exact Ht]|]);
    match goal with |- table_total (alter ?g ?i t) <= _ =>
      pose proof (table_total_alter g t i) as A; pose proof (slot_count_nonneg t i Ht) as B;
      pose proof (wadd32_le _ B); cbn in A; specialize (A ltac:(first [lia|apply wadd32_le; lia])); lia end.
Qed.

(** What the exporter holds is never negative. *)
Definition hand_ok (pc : dpc) : Prop :=
  match pc with
  | DIdle => True
  | DLoad _ out | DSwap _ out | DRet out => 0 <= total out
  | DKey _ out c | DSev _ out c _ | DClearKey _ out c _ _ | DClearSev _ out c _ _
  | DClearEmitted _ out c _ _ => 0 <= total out /\ 0 <= c
  end.

Lemma total_app out o : total (out ++ o) = total out + total o.
Proof. unfold total. rewrite map_app. apply zsum_app. Qed.

(** An exporter access only moves counts from the table into the report. *)
Lemma dstep_total t pc t' pc' : dstep t pc = (t', pc') -> counts_nonneg t -> hand_ok pc ->
  counts_nonneg t' /\ hand_ok pc' /\ table_total t' + in_hand pc' <= table_total t + in_hand pc.
Proof.
  intros E Ht Hh. destruct pc as [|i out|i out|i out c|i out c k|i out c k s|i out c k s|i out c k s|out];
    cbn [dstep hand_ok in_hand] in E, Hh |- *; apply pair_equal_spec in E as [<- <-];
    (split; [first [exact Ht|apply counts_alter; [intros s' Hs'; cbn; lia|exact Ht]]|]); cbn [hand_ok in_hand]; try lia.
  - destruct (COALESCE_CAPACITY <=? i)%nat, (key_hash (slot_at t i) =? 0); cbn [hand_ok in_hand]; lia.
  - pose proof (table_total_alter (with_count 0) t i) as A. cbn in A.
    pose proof (slot_count_nonneg t i Ht). lia.
  - pose proof (table_total_alter (with_key 0) t i) as A. cbn in A. lia.
  - pose proof (table_total_alter (with_sev 0) t i) as A. cbn in A. lia.
  - pose proof (table_total_alter (with_emitted false) t i) as A. cbn in A.
    case_if; rewrite ?total_app; cbn; lia.
Qed.

Lemma table_total_nonneg t : counts_nonneg t -> 0 <= table_total t.
Proof. intros Ht. apply zsum_nonneg, Forall_map. exact Ht. Qed.

Lemma in_hand_nonneg pc : hand_ok pc -> 0 <= in_hand pc.
Proof. destruct pc; cbn; lia. Qed.

(** The invariant: every count in the table, in the exporter's hands or
    reported stands for an occurrence of its own. *)
Definition counted_once (s : sys) : Prop :=
  counts_nonneg (tbl s) /\ hand_ok (dp s) /\ 0 <= reported_total s /\
  table_total (tbl s) + in_hand (dp s) + reported_total s <= events s.

Lemma step_counted_once s s' : step s s' -> counted_once s -> counted_once s'.
Proof.
  unfold counted_once, reported_total.
  intros [| ? ? ? ? ? ? ? b E | | | ? ? ? ? ? ? ? E |]; cbn [tbl wp dp events sweeps];
    intros (Ht & Hh & Hr & Hi).
  - auto.
  - destruct (wstep_total _ _ _ _ _ E Ht). repeat split; auto. destruct b; lia.
  - auto.
  - repeat split; auto. cbn. lia.
  - destruct (dstep_total _ _ _ _ E Ht Hh) as (? & ? & ?). repeat split; auto. lia.
  - rewrite map_app, zsum_app. cbn [hand_ok in_hand map zsum foldr] in *. repeat split; auto; lia.
Qed.

Lemma reachable_counted_once s : rtc step init s -> counted_once s.
Proof.
  intros H. apply rtc_ind_r with (P := counted_once) in H; [exact H| |].
  - unfold counted_once. vm_compute. repeat split; try discriminate. repeat constructor; discriminate.
  - intros y z _ Hs. apply step_counted_once, Hs.
Qed.

(** ** Schedules *)

Inductive action :=
  | AEvent (sev : Z) (buf : list Z)
  | AWorker
  | AReturn
  | ASweep
  | AExporter
  | AReport.

(** One scheduled action; [None] if it is not enabled. *)
Definition act (s : sys) (a : action) : option sys :=
  match a, s with
  | AEvent sev buf, mk_sys t WIdle dp n l =>
      if HIGH_SEVERITY_THRESHOLD <? sev then
        let key := coalesce_key sev (stable_core buf) in
        Some (mk_sys t (WLoadKey sev key (mask key) (mask key) 0) dp n l)
      else None
  | AWorker, mk_sys t wp dp n l =>
      let '(t', wp', b) := wstep t wp in Some (mk_sys t' wp' dp (if b then n + 1 else n) l)
  | AReturn, mk_sys t (WRet _) dp n l => Some (mk_sys t WIdle dp n l)
  | ASweep, mk_sys t wp DIdle n l => Some (mk_sys t wp (DLoad 0 []) n l)
  | AExporter, mk_sys t wp dp n l => let '(t', dp') := dstep t dp in Some (mk_sys t' wp dp' n l)
  | AReport, mk_sys t wp (DRet out) n l => Some (mk_sys t wp DIdle n (l ++ [out]))
  | _, _ => None
  end.

Fixpoint run (s : sys) (l : list action) : option sys :=
  match l with
  | [] => Some s
  | a :: l' => match act s a with Some s' => run s' l' | None => None end
  end.

Lemma act_step s a s' : act s a = Some s' -> step s s'.
Proof.
  destruct s as [t wp dp n l]. destruct a; cbn [act].
  - destruct wp; try discriminate. destruct (HIGH_SEVERITY_THRESHOLD <? sev) eqn:E; [|discriminate].
    intros [= <-]. constructor. apply Z.ltb_lt, E.
  - destruct (wstep t wp) as [[t' wp'] b] eqn:E. intros [= <-]. apply step_worker, E.
  - destruct wp; try discriminate. intros [= <-]. constructor.
  - destruct dp; try discriminate. intros [= <-]. constructor.
  - destruct (dstep t dp) as [t' dp'] eqn:E. intros [= <-]. apply step_exporter, E.
  - destruct dp; try discriminate. intros [= <-]. constructor.
Qed.

Lemma run_reaches l : forall s s', run s l = Some s' -> rtc step s s'.
Proof.
  induction l as [|a l IH]; intros s s'; cbn [run]; [intros [= <-]; apply rtc_refl|].
  destruct (act s a) as [s1|] eqn:E; [|discriminate].
  intros Hr. eapply rtc_l; [apply (act_step _ _ _ E)|apply IH, Hr].
Qed.

(** *** A race that loses any number of occurrences *)

Definition race_line : list Z := $"2024/01/01 12:00:00 [error] 12#34: *1 no live upstreams".
Definition race_key : Z := Eval vm_compute in coalesce_key 4 (stable_core race_line).
Definition race_slot : nat := Eval vm_compute in mask race_key.

(** A repetition of the line while its slot is registered. *)
Definition repetition : list action := AEvent 4 race_line :: replicate 4 AWorker ++ [AReturn].
(** An occurrence that finds the slot empty. *)
Definition registration : list action := AEvent 4 race_line :: replicate 5 AWorker ++ [AReturn].

(** The worker has registered the line; the exporter has swapped its count out
    and not yet cleared the key.  Since then [c] occurrences were added. *)
Definition swapped (c e : Z) : sys :=
  mk_sys (<[race_slot := mk_slot race_key 4 c true]> empty_table) WIdle (DKey race_slot [] 1) e [].

Lemma swapped_reached : rtc step init (swapped 0 1).
Proof.
  apply (run_reaches (registration ++ ASweep :: replicate race_slot AExporter ++ [AExporter; AExporter])).
  vm_compute. reflexivity.
Qed.

(** One more repetition in that window. *)
Lemma swapped_repetition c e : rtc step (swapped c e) (swapped (c +w32 1) (e + 1)).
Proof.
  assert (Hp : run (swapped c e) (AEvent 4 race_line :: replicate 3 AWorker) =
    Some (mk_sys (tbl (swapped c e)) (WAdd race_key race_slot true) (dp (swapped c e)) e []))
    by (vm_compute; reflexivity).
  etransitivity; [apply (run_reaches _ _ _ Hp)|]. unfold swapped. cbn [tbl dp].
  eapply rtc_l; [eapply step_worker; reflexivity|]. eapply rtc_l; [apply step_return|].
  rewrite <- insert_slot_at, list_insert_insert_eq. apply rtc_refl.
Qed.

Lemma swapped_repeats n : rtc step (swapped 0 1) (swapped (u32 (Z.of_nat n)) (Z.of_nat n + 1)).
Proof.
  induction n as [|n IH]; [apply rtc_refl|]. etransitivity; [exact IH|].
  replace (u32 (Z.of_nat (S n))) with (u32 (Z.of_nat n) +w32 1)
    by (unfold wrap; rewrite Nat2Z.inj_succ, Zplus_mod_idemp_l; reflexivity).
  rewrite Nat2Z.inj_succ. apply swapped_repetition.
Qed.

(** The sweep ends, the line occurs again, and the next sweep reports it. *)
Definition after_race : list action :=
  replicate (COALESCE_CAPACITY - race_slot + 5) AExporter ++ [AReport] ++ registration ++
  [ASweep] ++ replicate (COALESCE_CAPACITY + 7) AExporter ++ [AReport].

Lemma race_ends c e : run (swapped c e) after_race =
  Some (mk_sys empty_table WIdle DIdle (e + 1) [[(race_key, 4, 1)]; [(race_key, 4, 1)]]).
Proof. vm_compute. reflexivity. Qed.

(** *** A race that misattributes an occurrence *)

(** The worker registers the line between the exporter's clearing of the key
    and of the severity. *)
Definition severity_race : list action :=
  registration ++ ASweep :: replicate race_slot AExporter ++ replicate 5 AExporter ++
  AEvent 4 race_line :: replicate 3 AWorker ++ [AExporter; AExporter] ++
  replicate 2 AWorker ++ [AReturn] ++ replicate (COALESCE_CAPACITY - race_slot) AExporter ++
  [AReport; ASweep] ++ replicate (COALESCE_CAPACITY + 7) AExporter ++ [AReport].

Lemma severity_race_ends : run init severity_race =
  Some (mk_sys empty_table WIdle DIdle 2 [[(race_key, 4, 1)]; [(race_key, 0, 1)]]).
Proof. vm_compute. reflexivity. Qed.

(** ** The claim *)

(** C9 (safety). A worker that calls [coalesce] while the exporter stands still,
    and an exporter that calls [drain_coalesce_table] while the worker stands still, take
    exactly the steps of those functions.  However their accesses interleave,
    the counts reported never exceed the occurrences counted.  But they can
    fall short: for every [n] there is a run that counts [n + 2] occurrences of one line
    and ends idle, the table empty, with [2] reported by the two sweeps (one loss at
    most per slot and sweep is what the code documents), and a run
    that reports an occurrence of severity 4 under severity 0.
    About: coalesce, probe_loop, drain_coalesce_table, wstep, dstep. *)
Theorem coalesce_interleaved :
  (forall t sev buf res t' d n l, HIGH_SEVERITY_THRESHOLD < sev ->
     coalesce t sev buf true = Some (res, t') ->
     exists n', rtc step (mk_sys t WIdle d n l) (mk_sys t' (WRet res) d n' l)) /\
  (forall t w n l, length t = COALESCE_CAPACITY ->
     let '(t', out) := drain_coalesce_table t in
     rtc step (mk_sys t w DIdle n l) (mk_sys t' w (DRet out) n l)) /\
  (forall s, rtc step init s -> 0 <= reported_total s <= events s) /\
  (forall n : nat, exists s, rtc step init s /\ tbl s = empty_table /\ wp s = WIdle /\ dp s = DIdle /\
     events s = Z.of_nat n + 2 /\ reported_total s = 2) /\
  (exists s k, rtc step init s /\ tbl s = empty_table /\ wp s = WIdle /\ dp s = DIdle /\
     events s = 2 /\ sweeps s = [[(k, 4, 1)]; [(k, 0, 1)]]).
Proof.
  split; [|split; [|split; [|split]]].
  - intros t sev buf res t' d n l Hs. unfold coalesce. cbn [negb].
    rewrite (proj2 (Z.leb_gt _ _) Hs). intros E.
    destruct (worker_lift _ _ (worker_runs_probe _ _ _ _ _ _ _ _ _ E) d n l) as [n' Hn].
    exists n'. eapply rtc_l; [apply step_event, Hs|exact Hn].
  - intros t w n l Ht. rewrite (surjective_pairing (drain_coalesce_table t)).
    eapply rtc_l; [apply step_sweep|]. apply (exporter_lift _ _ (exporter_runs_drain t [] [] Ht)).
  - intros s Hs. destruct (reachable_counted_once s Hs) as (Ht & Hh & Hr & Hi).
    pose proof (table_total_nonneg _ Ht). pose proof (in_hand_nonneg _ Hh). lia.
  - intros n. exists (mk_sys empty_table WIdle DIdle (Z.of_nat n + 1 + 1)
                        [[(race_key, 4, 1)]; [(race_key, 4, 1)]]).
    split; [|cbn [tbl wp dp events]; repeat split; lia].
    etransitivity; [apply swapped_reached|]. etransitivity; [apply (swapped_repeats n)|].
    eapply run_reaches, race_ends.
  - eexists _, race_key. split; [eapply run_reaches, severity_race_ends|]. repeat split.
Qed.
