(* ===== verification/ShmLayout.v ===== *)
(** * Shared-memory layout and zone initialisation (src/src/shm/mod.rs)

    A zone is a byte memory addressed from the start of its mapping.  nginx
    owns the slab-pool header in front; the module's per-worker blocks follow.
    The init callbacks run at start and at every reload.  [data_offset], the
    size of nginx's slab-pool header, is a parameter; sizes and addresses are
    mathematical integers, which the code's [usize] holds for any mappable zone. *)
From S2P Require Import Prelude Ring Histogram Slots Coalesce.

(** ** Byte memory *)

Definition mem : Type := Z -> Z.

Definition in_range (a n i : Z) : bool := (a <=? i) && (i <? a + n).

(** [ptr::write_bytes(a, 0, n)] *)
Definition write_bytes0 (m : mem) (a n : Z) : mem := fun i => if in_range a n i then 0 else m i.

(** A [u64] store and load at [a] (little-endian). *)
Definition store64 (m : mem) (a v : Z) : mem :=
  fun i => if in_range a 8 i then byte_at (le_bytes 8 v) (i - a) else m i.
Definition load64 (m : mem) (a : Z) : Z := le_val (map (fun k => m (a + Z.of_nat k)) (seq 0 8)).

(** [0..n] *)
Definition zrange (n : Z) : list Z := map Z.of_nat (seq 0 (Z.to_nat n)).

(** ** Sizes *)

(** Size of [ExpHistogramSlot], of [Histogram<n>], of [ExemplarReservoir]. *)
Definition exp_slot_size : Z := (192 + 3) * 8.
Definition hist_size (n : Z) : Z := (n + 2) * 8.
Definition reservoir_size : Z := 8 + 2 * 48.

(** [src/src/shm/mod.rs: ROUTE_OFF] *)
Definition ROUTE_OFF : Z := N_COMBOS * exp_slot_size.
(** [src/src/shm/mod.rs: ROUTE_SZ] *)
Definition ROUTE_SZ : Z := N_ROUTE_SLOTS * exp_slot_size.
(** [src/src/shm/mod.rs: UPSTREAM_OFF] *)
Definition UPSTREAM_OFF : Z := ROUTE_OFF + ROUTE_SZ.
(** [src/src/shm/mod.rs: UPSTREAM_SZ] *)
Definition UPSTREAM_SZ : Z := N_UPSTREAM_SLOTS * exp_slot_size.

(** [size_of::<WorkerSlots>()]: the fields of [WorkerSlots] in order. *)
Definition slots_size : Z :=
  UPSTREAM_OFF + UPSTREAM_SZ + hist_size N_BYTES_BUCKETS + hist_size N_BYTES_BUCKETS
  + hist_size N_DURATION_BUCKETS + hist_size N_DURATION_BUCKETS + hist_size N_DURATION_BUCKETS
  + hist_size N_BYTES_BUCKETS + hist_size N_BYTES_BUCKETS + N_COMBOS * reservoir_size + 5 * 8.

(** [src/src/shm/mod.rs: logs_slot_size] *)
Definition logs_slot_size (cap : Z) : Z := 2 * ring_size_bytes cap + coalesce_table_bytes.
(** [src/src/shm/mod.rs: spans_slot_size] *)
Definition spans_slot_size (cap : Z) : Z := ring_size_bytes cap.
(** [src/src/shm/mod.rs: DEFAULT_SPAN_RING_CAP] *)
Definition DEFAULT_SPAN_RING_CAP : Z := 256 * 1024.
(** [src/src/shm/mod.rs: logs_n_workers_from_zone] *)
Definition logs_n_workers_from_zone (zone_data_bytes cap : Z) : Z :=
  let slot := logs_slot_size cap in
  Z.max (if slot =? 0 then 0 else zone_data_bytes / slot) 1.
(** [src/src/shm/mod.rs: spans_n_workers_from_zone] *)
Definition spans_n_workers_from_zone (zone_data_bytes cap : Z) : Z :=
  let slot := spans_slot_size cap in
  Z.max (if slot =? 0 then 0 else zone_data_bytes / slot) 1.

(** [src/src/shm/mod.rs: ZoneInitData] and, for its cycle, the result of
    [wp_from_cycle]. *)
Record zone_init_data := mk_zid { zid_ring_cap : Z; zid_worker_processes : option Z }.

(** The ring whose header is at [a]: [WorkerSignalRing::from_shm_ptr].
    [src/src/logs/ring.rs: WorkerSignalRing::from_shm_ptr] *)
Definition ring_view (m : mem) (a : Z) : ring :=
  let c := load64 m (a + 24) in
  mk_ring (load64 m a) (load64 m (a + 8)) (load64 m (a + 16)) c
    (map (fun k => m (a + RING_HEADER_SIZE + Z.of_nat k)) (seq 0 (Z.to_nat c))).

Section layout.
(** [size_of::<ngx_slab_pool_t>()] *)
Context (data_offset : Z).

(** [src/src/shm/mod.rs: zone_size_for] *)
Definition zone_size_for (n_workers : Z) : Z := data_offset + n_workers * slots_size.
(** [src/src/shm/mod.rs: n_workers_from_zone_size] *)
Definition n_workers_from_zone_size (zone_size : Z) : Z := sat_sub zone_size data_offset / slots_size.
(** [src/src/shm/mod.rs: logs_zone_size_for] *)
Definition logs_zone_size_for (n_workers cap : Z) : Z := data_offset + n_workers * logs_slot_size cap.
(** [src/src/shm/mod.rs: spans_zone_size_for] *)
Definition spans_zone_size_for (n_workers cap : Z) : Z := data_offset + n_workers * spans_slot_size cap.

(** ** The metrics zone *)

(** [n] words from [a]: [store(0)] on each [AtomicU64].
    [src/src/shm/mod.rs: 779-786 zero_route_upstream_histograms] *)
Definition zero_words (m : mem) (a n : Z) : mem := foldl (fun m w => store64 m (a + 8 * w) 0) m (zrange n).

(** [src/src/shm/mod.rs: zero_route_upstream_histograms] *)
Definition zero_route_upstream_histograms (m : mem) (base n_slots : Z) : mem :=
  foldl (fun m i =>
    let slot_base := base + i * slots_size in
    let m := zero_words m (slot_base + ROUTE_OFF) (ROUTE_SZ / 8) in
    zero_words m (slot_base + UPSTREAM_OFF) (UPSTREAM_SZ / 8)) m (zrange n_slots).

(** [reload]: [old_data] is non-null; [size] is the zone size.
    [src/src/shm/mod.rs: otel_shm_zone_init] *)
Definition otel_shm_zone_init (reload : bool) (size : Z) (zid : option zone_init_data) (m : mem) : mem :=
  if size <=? data_offset then m else
  let n_reserved := (size - data_offset) / slots_size in
  if reload then zero_route_upstream_histograms m data_offset n_reserved
  else
    let n_active := match zid with Some z => default 1 (zid_worker_processes z) | None => 1 end in
    let n_init := Z.max (Z.min n_active n_reserved) 1 in
    write_bytes0 m data_offset (n_init * slots_size).

(** ** The logs zone *)

(** [src/src/shm/mod.rs: logs_zone_cap] *)
Definition logs_zone_cap (m : mem) : Z := load64 m (data_offset + 24).

(** [src/src/shm/mod.rs: 989-990 logs_access_ring] *)
Definition stride_cap (m : mem) (cap : Z) : Z :=
  let hdr_cap := logs_zone_cap m in if 0 <? hdr_cap then hdr_cap else cap.

(** [src/src/shm/mod.rs: logs_access_ring] *)
Definition logs_access_ring (m : mem) (worker_id cap : Z) : ring :=
  ring_view m (data_offset + worker_id * logs_slot_size (stride_cap m cap)).

(** [src/src/shm/mod.rs: logs_error_ring_ptr] *)
Definition logs_error_ring_ptr (m : mem) (worker_id cap : Z) : Z :=
  let c := stride_cap m cap in data_offset + (worker_id * logs_slot_size c + ring_size_bytes c).

(** [src/src/shm/mod.rs: logs_error_ring] *)
Definition logs_error_ring (m : mem) (worker_id cap : Z) : ring :=
  ring_view m (logs_error_ring_ptr m worker_id cap).

(** [src/src/shm/mod.rs: logs_coalesce_table] *)
Definition logs_coalesce_table (m : mem) (worker_id cap : Z) : Z :=
  let c := stride_cap m cap in data_offset + (worker_id * logs_slot_size c + 2 * ring_size_bytes c).

(** The stores of the capacity into both ring headers of each active worker.
    [src/src/shm/mod.rs: 1180-1193 logs_shm_zone_init] *)
Definition store_caps (m : mem) (cap n_active : Z) : mem :=
  foldl (fun m w =>
    let slot_off := w * logs_slot_size cap in
    let m := store64 m (data_offset + slot_off + 24) cap in
    store64 m (data_offset + (slot_off + ring_size_bytes cap) + 24) cap) m (zrange n_active).

(** [src/src/shm/mod.rs: logs_shm_zone_init] *)
Definition logs_shm_zone_init (reload : bool) (size : Z) (zid : option zone_init_data) (m : mem) : mem :=
  let zone_data_bytes := sat_sub size data_offset in
  match zid with
  | None => m
  | Some z =>
      let cap := zid_ring_cap z in
      let slot_sz := logs_slot_size cap in
      if (slot_sz =? 0) || (zone_data_bytes =? 0) then m else
      let n_reserved := zone_data_bytes / slot_sz in
      let n_active := Z.max (Z.min (default n_reserved (zid_worker_processes z)) n_reserved) 1 in
      let m := if reload then m else write_bytes0 m data_offset (n_active * slot_sz) in
      store_caps m cap n_active
  end.

(** ** The spans zone *)

(** [src/src/shm/mod.rs: spans_ring] *)
Definition spans_ring (m : mem) (worker_id cap : Z) : ring :=
  ring_view m (data_offset + worker_id * spans_slot_size cap).

(** [src/src/shm/mod.rs: spans_shm_zone_init] *)
Definition spans_shm_zone_init (reload : bool) (size : Z) (zid : option zone_init_data) (m : mem) : mem :=
  let zone_data_bytes := sat_sub size data_offset in
  match zid with
  | None => m
  | Some z =>
      let cap := zid_ring_cap z in
      let slot_sz := spans_slot_size cap in
      if (slot_sz =? 0) || (zone_data_bytes =? 0) then m else
      let n_reserved := zone_data_bytes / slot_sz in
      let n_active := Z.max (Z.min (default n_reserved (zid_worker_processes z)) n_reserved) 1 in
      let m := if reload then m else write_bytes0 m data_offset (n_active * slot_sz) in
      foldl (fun m w => store64 m (data_offset + w * slot_sz + 24) cap) m (zrange n_active)
  end.
End layout.

(** ** Loads and stores *)

Lemma in_range_true a n i : in_range a n i = true <-> a <= i < a + n.
Proof. unfold in_range. rewrite andb_true_iff, Z.leb_le, Z.ltb_lt. tauto. Qed.

Lemma in_range_false a n i : in_range a n i = false <-> i < a \/ a + n <= i.
Proof. unfold in_range. rewrite andb_false_iff, Z.leb_gt, Z.ltb_ge. lia. Qed.

Lemma store_other m a v i : i < a \/ a + 8 <= i -> store64 m a v i = m i.
Proof. intros Hi. unfold store64. rewrite (proj2 (in_range_false a 8 i)) by lia. reflexivity. Qed.

Lemma load_ext m m' a : (forall i, a <= i < a + 8 -> m i = m' i) -> load64 m a = load64 m' a.
Proof.
  intros Hi. unfold load64. f_equal. apply map_ext_in. intros k Hk. apply in_seq in Hk. apply Hi. lia.
Qed.

Lemma load_store_eq m a v : in_u 64 v -> load64 (store64 m a v) a = v.
Proof.
  intros Hv. unfold load64. transitivity (le_val (le_bytes 8 v)).
  - f_equal. unfold store64. transitivity (map (fun k => nth k (le_bytes 8 v) 0) (seq 0 8)).
    + apply map_ext_in. intros k Hk. apply in_seq in Hk.
      rewrite (proj2 (in_range_true a 8 _)) by lia. unfold byte_at. f_equal. lia.
    + pose proof (length_le_bytes 8 v) as L. destruct (le_bytes 8 v) as [|b0 [|b1 [|b2 [|b3 [|b4 [|b5 [|b6 [|b7 [|]]]]]]]]];
        try discriminate L. reflexivity.
  - apply le_val_le_bytes_small. exact Hv.
Qed.

Lemma load_store_other m a b v : b + 8 <= a \/ a + 8 <= b -> load64 (store64 m b v) a = load64 m a.
Proof. intros. apply load_ext. intros i Hi. apply store_other. lia. Qed.

Definition store_all (m : mem) (addrs : list Z) (v : Z) : mem := foldl (fun m a => store64 m a v) m addrs.

Lemma store_all_other addrs v i : forall m, Forall (fun b => i < b \/ b + 8 <= i) addrs ->
  store_all m addrs v i = m i.
Proof.
  induction addrs as [|b addrs IH]; intros m Hf; [reflexivity|]. apply Forall_cons_iff in Hf as [Hb Hf].
  unfold store_all. cbn [foldl]. fold (store_all (store64 m b v) addrs v). rewrite IH by exact Hf.
  apply store_other. exact Hb.
Qed.

Lemma store_all_load addrs v a : forall m, in_u 64 v ->
  Forall (fun b => b = a \/ b + 8 <= a \/ a + 8 <= b) addrs ->
  In a addrs \/ load64 m a = v -> load64 (store_all m addrs v) a = v.
Proof.
  induction addrs as [|b addrs IH]; intros m Hv Hf Hi; [destruct Hi as [[]|Hi]; exact Hi|].
  apply Forall_cons_iff in Hf as [Hb Hf]. unfold store_all. cbn [foldl]. apply IH; auto.
  destruct Hb as [->|Hb]; [right; apply load_store_eq; exact Hv|].
  destruct Hi as [[->|Hi]|Hi]; [lia|left; exact Hi|]. right. rewrite load_store_other by lia. exact Hi.
Qed.

(** Storing capacities changes a ring's capacity field and nothing else of it. *)
Lemma ring_view_stored m addrs c a : 0 <= c -> in_u 64 c -> In (a + 24) addrs ->
  Forall (fun b => b = a + 24 \/ b + 8 <= a \/ a + 32 + c <= b) addrs ->
  ring_view (store_all m addrs c) a =
  mk_ring (load64 m a) (load64 m (a + 8)) (load64 m (a + 16)) c
    (map (fun k => m (a + RING_HEADER_SIZE + Z.of_nat k)) (seq 0 (Z.to_nat c))).
Proof.
  intros H0 Hc Hin Hf.
  assert (L : forall p, (p = a \/ p = a + 8 \/ p = a + 16) -> load64 (store_all m addrs c) p = load64 m p).
  { intros p Hp. apply load_ext. intros i Hi. apply store_all_other.
    revert Hf. apply Forall_impl. intros b Hb. lia. }
  assert (C : load64 (store_all m addrs c) (a + 24) = c).
  { apply store_all_load; auto. revert Hf. apply Forall_impl. intros b Hb. lia. }
  unfold ring_view. rewrite C, !L by auto. f_equal. apply map_ext_in. intros k Hk. apply in_seq in Hk.
  apply store_all_other. revert Hf. apply Forall_impl. intros b Hb. unfold RING_HEADER_SIZE. lia.
Qed.

Lemma load_zero m a : (forall i, a <= i < a + 8 -> m i = 0) -> load64 m a = 0.
Proof. intros Hz. rewrite (load_ext m (fun _ => 0)) by exact Hz. reflexivity. Qed.

Lemma map_zero {A} (f : A -> Z) l : (forall x, In x l -> f x = 0) -> map f l = replicate (length l) 0.
Proof.
  induction l as [|x l IH]; intros Hz; [reflexivity|]. cbn. rewrite Hz, IH; auto with datatypes.
Qed.

Lemma ring_view_fresh m addrs c a : 0 <= c -> in_u 64 c -> In (a + 24) addrs ->
  Forall (fun b => b = a + 24 \/ b + 8 <= a \/ a + 32 + c <= b) addrs ->
  (forall i, a <= i < a + 32 + c -> m i = 0) -> ring_view (store_all m addrs c) a = fresh_ring c.
Proof.
  intros H0 Hc Hin Hf Hz. rewrite ring_view_stored by assumption. unfold fresh_ring.
  rewrite !load_zero by (intros; apply Hz; lia). f_equal. rewrite map_zero, length_seq; [reflexivity|].
  intros k Hk. apply in_seq in Hk. apply Hz. unfold RING_HEADER_SIZE. lia.
Qed.

(** ** The logs zone after initialisation *)

Section logs_zone.
Context (data_offset cap n_active n_reserved : Z).
Hypothesis off_nonneg : 0 <= data_offset.
Hypothesis cap_range : 0 < cap <= u32_max.
Hypothesis active_range : 1 <= n_active <= n_reserved.

Let S := logs_slot_size cap.
Let R := ring_size_bytes cap.

Definition cap_addrs : list Z :=
  concat (map (fun w => [data_offset + w * logs_slot_size cap + 24;
                         data_offset + (w * logs_slot_size cap + ring_size_bytes cap) + 24]) (zrange n_active)).

Lemma store_caps_all m : store_caps data_offset m cap n_active = store_all m cap_addrs cap.
Proof.
  unfold store_caps, store_all, cap_addrs. revert m.
  induction (zrange n_active) as [|w ws IH]; intros m; [reflexivity|]. cbn [foldl map concat].
  rewrite foldl_app. cbn [foldl]. apply IH.
Qed.

Lemma zrange_In n w : In w (zrange n) <-> 0 <= w < n.
Proof.
  unfold zrange. rewrite in_map_iff. split.
  - intros (k & <- & Hk). apply in_seq in Hk. lia.
  - intros. exists (Z.to_nat w). split; [lia|]. apply in_seq. lia.
Qed.

Lemma cap_addrs_In b : In b cap_addrs <-> exists w, 0 <= w < n_active /\
  (b = data_offset + w * S + 24 \/ b = data_offset + (w * S + R) + 24).
Proof.
  unfold cap_addrs. rewrite in_concat. split.
  - intros (l & Hl & Hb). apply in_map_iff in Hl as (w & <- & Hw). apply zrange_In in Hw.
    exists w. cbn in Hb. destruct Hb as [<-|[<-|[]]]; auto.
  - intros (w & Hw & Hb). eexists. split; [apply in_map, zrange_In, Hw|]. cbn. destruct Hb; auto.
Qed.

Lemma slot_step w w' : w < w' -> w * S + S <= w' * S.
Proof. intros. assert (0 < S) by (subst S; unfold logs_slot_size, ring_size_bytes, RING_HEADER_SIZE, coalesce_table_bytes, COALESCE_CAPACITY; lia). nia. Qed.

Lemma sizes : R = 32 + cap /\ S = 2 * (32 + cap) + 6144.
Proof. subst S R. unfold logs_slot_size, ring_size_bytes, RING_HEADER_SIZE, coalesce_table_bytes, COALESCE_CAPACITY. lia. Qed.

(** No capacity store falls into another ring or into a coalescer table. *)
Lemma cap_addrs_apart a w second : 0 <= w < n_active ->
  a = data_offset + (w * S + if second : bool then R else 0) ->
  In (a + 24) cap_addrs /\ Forall (fun b => b = a + 24 \/ b + 8 <= a \/ a + 32 + cap <= b) cap_addrs.
Proof.
  intros Hw ->. destruct sizes as [HR HS]. split.
  - apply cap_addrs_In. exists w. split; [exact Hw|]. destruct second; [right|left]; lia.
  - apply Forall_forall. intros b Hb. apply cap_addrs_In in Hb as (w' & Hw' & Hb).
    destruct (Z.lt_trichotomy w w') as [Hlt|[->|Hlt]].
    + pose proof (slot_step w w' Hlt). destruct second, Hb; lia.
    + destruct second, Hb; lia.
    + pose proof (slot_step w' w Hlt). destruct second, Hb; lia.
Qed.

Lemma init_n_active wp : wp = n_active ->
  sat_sub (logs_zone_size_for data_offset n_reserved cap) data_offset / S = n_reserved /\
  (S =? 0) || (sat_sub (logs_zone_size_for data_offset n_reserved cap) data_offset =? 0) = false /\
  Z.max (Z.min wp n_reserved) 1 = n_active.
Proof.
  intros ->. destruct sizes as [_ HS]. unfold logs_zone_size_for, sat_sub. fold S.
  assert (E : Z.max 0 (data_offset + n_reserved * S - data_offset) = n_reserved * S) by nia.
  rewrite E. split_and!; [apply Z.div_mul; lia| |lia].
  rewrite orb_false_iff, !Z.eqb_neq. split; nia.
Qed.

Lemma logs_init_eq reload m :
  logs_shm_zone_init data_offset reload (logs_zone_size_for data_offset n_reserved cap)
    (Some (mk_zid cap (Some n_active))) m =
  store_all (if reload then m else write_bytes0 m data_offset (n_active * S)) cap_addrs cap.
Proof.
  unfold logs_shm_zone_init. cbn [zid_ring_cap zid_worker_processes default from_option id].
  destruct (init_n_active n_active eq_refl) as (E1 & E2 & E3). fold S.
  rewrite E2, E1, E3. apply store_caps_all.
Qed.
End logs_zone.

(** A reload re-stores the capacity the headers already hold. *)
Definition caps_stored (data_offset cap n_active : Z) (m : mem) : Prop :=
  Forall (fun a => load64 m a = cap) (cap_addrs data_offset cap n_active).

Lemma stride_stored off cap n m : 0 < cap <= u32_max -> 1 <= n ->
  load64 m (off + 24) = cap -> stride_cap off m cap = cap.
Proof.
  intros Hc Hn E. unfold stride_cap, logs_zone_cap. rewrite E.
  rewrite (proj2 (Z.ltb_lt 0 cap)) by lia. reflexivity.
Qed.

Lemma cap_in_u64 cap : 0 < cap <= u32_max -> in_u 64 cap.
Proof. unfold in_u, u32_max. lia. Qed.

Lemma first_cap off cap n m m' : 0 < cap <= u32_max -> 1 <= n ->
  m' = store_all m (cap_addrs off cap n) cap -> stride_cap off m' cap = cap.
Proof.
  intros Hc Hn ->. apply (stride_stored off cap n); auto.
  destruct (cap_addrs_apart off cap n Hc off 0 false) as [H1 H2]; [lia|lia|].
  apply store_all_load; [apply cap_in_u64; exact Hc| |left; exact H1].
  revert H2. apply Forall_impl. intros b Hb. lia.
Qed.

Lemma ring_restored off cap n m w second : 0 < cap <= u32_max -> 0 <= w < n -> caps_stored off cap n m ->
  let a := off + (w * logs_slot_size cap + if second : bool then ring_size_bytes cap else 0) in
  ring_view (store_all m (cap_addrs off cap n) cap) a = ring_view m a.
Proof.
  intros Hc Hw Hs a. destruct (cap_addrs_apart off cap n Hc a w second Hw eq_refl) as [A1 A2].
  unfold caps_stored in Hs. rewrite Forall_forall in Hs.
  rewrite ring_view_stored by (auto using cap_in_u64; lia). unfold ring_view. rewrite (Hs _ A1). reflexivity.
Qed.

Lemma logs_reload_keeps off cap n n_reserved m : 0 < cap <= u32_max -> 1 <= n <= n_reserved ->
  caps_stored off cap n m -> forall w, 0 <= w < n ->
  let r := logs_shm_zone_init off true (logs_zone_size_for off n_reserved cap) (Some (mk_zid cap (Some n))) m in
  logs_access_ring off r w cap = logs_access_ring off m w cap /\
  logs_error_ring off r w cap = logs_error_ring off m w cap.
Proof.
  intros Hc Hn Hs w Hw r. pose proof (logs_init_eq off cap n n_reserved Hc Hn true m) as E. fold r in E.
  assert (R1 : stride_cap off r cap = cap) by (eapply (first_cap off cap n); [exact Hc|lia|exact E]).
  assert (R2 : stride_cap off m cap = cap).
  { apply (stride_stored off cap n); auto; [lia|].
    destruct (cap_addrs_apart off cap n Hc off 0 false) as [A1 _]; [lia|lia|].
    unfold caps_stored in Hs. rewrite Forall_forall in Hs. apply Hs, A1. }
  unfold logs_access_ring, logs_error_ring, logs_error_ring_ptr. rewrite R1, R2, E.
  pose proof (ring_restored off cap n m w false Hc Hw Hs) as V1.
  pose proof (ring_restored off cap n m w true Hc Hw Hs) as V2.
  cbv zeta in V1, V2. rewrite Z.add_0_r in V1. auto.
Qed.

(** At start the logs zone of [n] active workers is initialised so
    that, through the accessors both sides use, every worker's access and error
    rings are empty rings of the configured capacity and its coalescer table is
    zeroed; nginx's slab-pool header and the slots reserved for later workers
    are not written, and the initialised slots lie inside the zone.  A reload
    with the same capacity leaves the contents of every ring as they were. *)
Theorem logs_zone_initialised data_offset cap n_active n_reserved m :
  0 <= data_offset -> 0 < cap <= u32_max -> 1 <= n_active <= n_reserved ->
  let size := logs_zone_size_for data_offset n_reserved cap in
  let m' := logs_shm_zone_init data_offset false size (Some (mk_zid cap (Some n_active))) m in
  (forall w, 0 <= w < n_active ->
     logs_access_ring data_offset m' w cap = fresh_ring cap /\
     logs_error_ring data_offset m' w cap = fresh_ring cap /\
     forall i, 0 <= i < coalesce_table_bytes -> m' (logs_coalesce_table data_offset m' w cap + i) = 0) /\
  (forall i, i < data_offset \/ data_offset + n_active * logs_slot_size cap <= i -> m' i = m i) /\
  data_offset + n_active * logs_slot_size cap <= size /\
  (caps_stored data_offset cap n_active m ->
   let r := logs_shm_zone_init data_offset true size (Some (mk_zid cap (Some n_active))) m in
   forall w, 0 <= w < n_active ->
     logs_access_ring data_offset r w cap = logs_access_ring data_offset m w cap /\
     logs_error_ring data_offset r w cap = logs_error_ring data_offset m w cap).
Proof.
  intros Ho Hc Hn size m'. pose proof (logs_init_eq data_offset cap n_active n_reserved Hc Hn false m) as E.
  fold size m' in E. pose proof (sizes cap) as [HR HS]. set (S := logs_slot_size cap) in *.
  assert (Hst : stride_cap data_offset m' cap = cap) by (eapply (first_cap data_offset cap n_active); [exact Hc|lia|exact E]).
  assert (Hend : forall w, 0 <= w < n_active -> 0 <= w * S /\ w * S + S <= n_active * S) by (intros; nia).
  split_and!.
  - intros w Hw. specialize (Hend w Hw).
    assert (Hz : forall i, data_offset + w * S <= i < data_offset + w * S + S ->
      write_bytes0 m data_offset (n_active * S) i = 0).
    { intros i Hi. unfold write_bytes0. rewrite (proj2 (in_range_true _ _ _)) by lia. reflexivity. }
    unfold logs_access_ring, logs_error_ring, logs_error_ring_ptr, logs_coalesce_table.
    rewrite !Hst, E. fold S. split_and!.
    + destruct (cap_addrs_apart data_offset cap n_active Hc (data_offset + w * S) w false Hw) as [A1 A2];
        [fold S; lia|].
      apply ring_view_fresh; auto using cap_in_u64; try lia. intros i Hi. apply Hz. lia.
    + destruct (cap_addrs_apart data_offset cap n_active Hc (data_offset + (w * S + ring_size_bytes cap)) w true Hw)
        as [A1 A2]; [reflexivity|].
      apply ring_view_fresh; auto using cap_in_u64; try lia. intros i Hi. apply Hz. lia.
    + intros i Hi. unfold coalesce_table_bytes, COALESCE_CAPACITY in Hi.
      rewrite store_all_other; [apply Hz; lia|]. apply Forall_forall. intros b Hb.
      apply cap_addrs_In in Hb as (w' & Hw' & Hb). fold S in Hb.
      destruct (Z.lt_trichotomy w w') as [Hlt|[->|Hlt]]; [assert (w * S + S <= w' * S) by nia; lia|lia|].
      assert (w' * S + S <= w * S) by nia. lia.
  - intros i Hi. rewrite E, store_all_other.
    + unfold write_bytes0. rewrite (proj2 (in_range_false _ _ _)) by lia. reflexivity.
    + apply Forall_forall. intros b Hb. apply cap_addrs_In in Hb as (w' & Hw' & Hb). fold S in Hb.
      specialize (Hend w' Hw'). lia.
  - subst size. unfold logs_zone_size_for. fold S. nia.
  - intros Hs. cbv zeta. apply logs_reload_keeps; assumption.
Qed.

Lemma logs_zone_initialised_witness :
  logs_error_ring 200 (logs_shm_zone_init 200 false (logs_zone_size_for 200 3 64)
    (Some (mk_zid 64 (Some 2))) (fun i => i mod 251)) 1 64 = fresh_ring 64.
Proof.
  refine (proj1 (proj2 (proj1 (logs_zone_initialised 200 64 2 3 (fun i => i mod 251) _ _ _) 1 _)));
    unfold u32_max; lia.
Defined.

(** ** The metrics zone *)

Lemma byte_at_zero i : byte_at (le_bytes 8 0) i = 0.
Proof.
  change (le_bytes 8 0) with (replicate 8 0). unfold byte_at. generalize (Z.to_nat i). intros k.
  do 8 (destruct k as [|k]; [reflexivity|]). destruct k; reflexivity.
Qed.

Lemma zero_words_spec n : forall m a i, 0 <= n ->
  zero_words m a n i = if in_range a (8 * n) i then 0 else m i.
Proof.
  intros m a i Hn. unfold zero_words, zrange. rewrite <- (Z2Nat.id n) at 2 by exact Hn.
  generalize (Z.to_nat n). clear Hn n. intros n. induction n as [|n IH].
  - rewrite (proj2 (in_range_false _ _ _)) by lia. reflexivity.
  - rewrite seq_S, map_app, foldl_app. cbn [foldl map].
    unfold store64 at 1. destruct (in_range (a + 8 * Z.of_nat (0 + n)) 8 i) eqn:E.
    + rewrite byte_at_zero. apply in_range_true in E. rewrite (proj2 (in_range_true _ _ _)) by lia. reflexivity.
    + rewrite IH. apply in_range_false in E.
      destruct (in_range a (8 * Z.of_nat n) i) eqn:E1.
      * apply in_range_true in E1. rewrite (proj2 (in_range_true _ _ _)) by lia. reflexivity.
      * apply in_range_false in E1. rewrite (proj2 (in_range_false _ _ _)) by lia. reflexivity.
Qed.

(** Address [i] is a byte of the route or upstream table of slot [w]. *)
Definition in_route_upstream (base w i : Z) : Prop :=
  base + w * slots_size + ROUTE_OFF <= i < base + w * slots_size + UPSTREAM_OFF + UPSTREAM_SZ.

Lemma route_tables : ROUTE_OFF = 249600 /\ 8 * (ROUTE_SZ / 8) = 101400 /\ UPSTREAM_OFF = 351000 /\
  8 * (UPSTREAM_SZ / 8) = 51480 /\ UPSTREAM_SZ = 51480 /\ slots_size = 419856.
Proof. vm_compute. auto 10. Qed.

Lemma zero_route_upstream_spec n : forall m base i, 0 <= n ->
  let cleared := exists w, 0 <= w < n /\ in_route_upstream base w i in
  let z := zero_route_upstream_histograms m base n i in
  (cleared /\ z = 0) \/ (~ cleared /\ z = m i).
Proof.
  intros m base i Hn. cbv zeta. unfold zero_route_upstream_histograms, zrange.
  rewrite <- (Z2Nat.id n) by exact Hn. rewrite Nat2Z.id. generalize (Z.to_nat n). clear Hn n. intros n.
  destruct route_tables as (T1 & T2 & T3 & T4 & T5 & T6). unfold in_route_upstream.
  induction n as [|n IH]; [right; split; [intros (w & Hw & _); lia|reflexivity]|].
  rewrite seq_S, map_app, foldl_app. cbn [foldl map]. cbv zeta.
  rewrite zero_words_spec by (vm_compute; congruence). rewrite T4.
  set (base_n := base + Z.of_nat (0 + n) * slots_size).
  destruct (in_range (base_n + UPSTREAM_OFF) 51480 i) eqn:E1.
  { apply in_range_true in E1. left. split; [|reflexivity].
    exists (Z.of_nat n). subst base_n. cbn [Nat.add] in *. lia. }
  rewrite zero_words_spec by (vm_compute; congruence). rewrite T2.
  destruct (in_range (base_n + ROUTE_OFF) 101400 i) eqn:E2.
  { apply in_range_true in E2. left. split; [|reflexivity].
    exists (Z.of_nat n). subst base_n. cbn [Nat.add] in *. lia. }
  apply in_range_false in E1, E2. subst base_n. cbn [Nat.add] in *.
  destruct IH as [[(w & Hw & Hi) I2]|[I1 I2]].
  - left. split; [|exact I2]. exists w. split; [lia|exact Hi].
  - right. split; [|exact I2]. intros (w & Hw & Hi). apply I1. exists w. split; [|exact Hi].
    assert (w <> Z.of_nat n) by (intros ->; lia). lia.
Qed.

(** On reload the metrics zone keeps every byte except the
    per-route and per-upstream tables, which are zeroed in all reserved slots;
    at start exactly the active workers' slots are zeroed.  Neither writes
    nginx's slab-pool header. *)
Theorem metrics_zone_init_exact data_offset n_active n_reserved m :
  0 <= data_offset -> 1 <= n_active <= n_reserved ->
  let size := zone_size_for data_offset n_reserved in
  let zid := Some (mk_zid 0 (Some n_active)) in
  let reloaded := otel_shm_zone_init data_offset true size zid m in
  let started := otel_shm_zone_init data_offset false size zid m in
  (forall i, reloaded i <> m i ->
     reloaded i = 0 /\ exists w, 0 <= w < n_reserved /\ in_route_upstream data_offset w i) /\
  (forall w i, 0 <= w < n_reserved -> in_route_upstream data_offset w i -> reloaded i = 0) /\
  (forall i, started i = if in_range data_offset (n_active * slots_size) i then 0 else m i).
Proof.
  intros Ho Hn size zid reloaded started. destruct route_tables as (_ & _ & _ & _ & _ & T6).
  assert (Hs : (size <=? data_offset) = false) by (apply Z.leb_gt; subst size; unfold zone_size_for; lia).
  assert (Hr : (size - data_offset) / slots_size = n_reserved).
  { subst size. unfold zone_size_for. replace (data_offset + n_reserved * slots_size - data_offset)
      with (n_reserved * slots_size) by lia. apply Z.div_mul. lia. }
  subst reloaded started. unfold otel_shm_zone_init. rewrite Hs, Hr.
  split_and!.
  - intros i Hd. destruct (zero_route_upstream_spec n_reserved m data_offset i ltac:(lia)) as [[Z1 Z2]|[Z1 Z2]];
      [split; assumption|contradiction].
  - intros w i Hw Hi. destruct (zero_route_upstream_spec n_reserved m data_offset i ltac:(lia)) as [[Z1 Z2]|[Z1 Z2]];
      [exact Z2|]. exfalso. apply Z1. eauto.
  - intros i. subst zid. cbn [zid_worker_processes default from_option id].
    replace (Z.max (Z.min n_active n_reserved) 1) with n_active by lia. reflexivity.
Qed.

Lemma metrics_zone_init_exact_witness :
  otel_shm_zone_init 200 true (zone_size_for 200 2) (Some (mk_zid 0 (Some 1))) (fun _ => 9)
    (200 + 1 * slots_size + ROUTE_OFF + 5) = 0.
Proof.
  refine (proj1 (proj2 (metrics_zone_init_exact 200 1 2 (fun _ => 9) _ _)) 1 _ _ _); try lia.
  destruct route_tables as (T1 & T2 & T3 & T4 & T5 & T6). unfold in_route_upstream. lia.
Defined.
