(* ===== verification/CertTable.v ===== *)
(** * Serving certificates (src/src/cert_table.rs, src/src/metric_source/tls_cert.rs)

    At configuration time every server block's leaf certificates become rows of
    a table; every export interval turns the rows into gauges.  What
    OpenSSL and nginx's ssl module report of a certificate and of a server block is
    data here ([x509], [ssl_server]): the program only reads it. *)
From S2P Require Import Prelude DataModel StdText.

(** ** What the libraries report *)

(** [EVP_PKEY_id] *)
Inductive pkey_id := PkRsa | PkRsaPss | PkEc | PkEd25519 | PkEd448 | PkDsa | PkOther (nid : Z).

(** One certificate: the days and seconds [ASN1_TIME_diff] finds between the epoch and each end
    of the validity window ([None] when it fails), the common names' bytes, the
    serial as [BN_bn2hex] prints it, the key and signature algorithms. *)
Record x509 := mk_x509 {
  x_not_before : option (Z * Z);
  x_not_after : option (Z * Z);
  x_subject_cn : option (list Z);
  x_issuer_cn : option (list Z);
  x_serial_hex : option (list Z);
  x_pkey : option pkey_id;
  x_sig_nid : Z
}.

(** One server block: whether it has an SSL context, its names (with the regex flag), the
    configured certificate paths, and its leaf certificates in the order of
    OpenSSL's cursor, each with its position among the configured ones ([-1] if none matches). *)
Record ssl_server := mk_ssl_server {
  sv_has_ctx : bool;
  sv_names : list (bool * list Z);
  sv_paths : list (list Z);
  sv_certs : list (x509 * Z)
}.

(** ** Rows *)

(** [src/src/cert_table.rs: CertInfo] *)
Record cert_info := mk_cert {
  ci_file_path : list Z;
  ci_server_name : list Z;
  ci_not_before_unix : Z;
  ci_not_after_unix : Z;
  ci_subject_cn : list Z;
  ci_issuer_cn : list Z;
  ci_serial : list Z;
  ci_pubkey_alg : list Z;
  ci_sig_alg : list Z
}.

(** [src/src/cert_table.rs: path_for_cert] *)
Definition path_for_cert (config_idx : Z) (paths : list (list Z)) : list Z :=
  let fallback := match paths with [single] => single | _ => [] end in
  if 0 <=? config_idx then default fallback (paths !! Z.to_nat config_idx) else fallback.

(** [src/src/cert_table.rs: is_wildcard_name] *)
Definition is_wildcard_name (name : list Z) : bool :=
  (blen name =? 0) || existsb (fun b => b =? 42) name || (byte_at name 0 =? 46) || (byte_at name 0 =? 126).

(** [src/src/cert_table.rs: pick_server_name] *)
Fixpoint pick_server_name (names : list (bool * list Z)) : list Z :=
  match names with
  | [] => $"_"
  | (regex, name) :: names' =>
      if regex then pick_server_name names'
      else if negb (is_wildcard_name name) then from_utf8_lossy name
      else pick_server_name names'
  end.

(** [src/src/cert_table.rs: asn1_time_to_unix] *)
Definition asn1_time_to_unix (t : option (Z * Z)) : option Z :=
  '(days, secs) ← t; Some (days * 86400 + secs).

(** [src/src/cert_table.rs: asn1_string_lossy] *)
Definition asn1_string_lossy (s : list Z) : list Z := from_utf8_lossy s.

(** [src/src/cert_table.rs: x509_name_cn] *)
Definition x509_name_cn (cn : option (list Z)) : list Z :=
  match cn with Some s => asn1_string_lossy s | None => [] end.

(** [src/src/cert_table.rs: asn1_integer_hex] *)
Definition asn1_integer_hex (hex : option (list Z)) : list Z :=
  match hex with
  | Some h => let s := from_utf8_lossy h in default s (strip_prefix $"-" s)
  | None => []
  end.

(** [src/src/cert_table.rs: pubkey_alg_name] *)
Definition pubkey_alg_name (id : pkey_id) : option (list Z) :=
  match id with
  | PkRsa => Some $"RSA" | PkRsaPss => Some $"RSA-PSS" | PkEc => Some $"EC"
  | PkEd25519 => Some $"ED25519" | PkEd448 => Some $"ED448" | PkDsa => Some $"DSA"
  | PkOther _ => None
  end.

Section openssl.
(** [OBJ_nid2sn] *)
Context (nid2sn : Z -> option (list Z)).

(** [src/src/cert_table.rs: nid_short_name] *)
Definition nid_short_name (nid : Z) : list Z :=
  match nid2sn nid with Some s => from_utf8_lossy s | None => $"unknown" end.

(** [src/src/cert_table.rs: pubkey_alg] *)
Definition pubkey_alg (pkey : option pkey_id) : list Z :=
  match pkey with
  | None => $"unknown"
  | Some id =>
      match pubkey_alg_name id, id with
      | Some s, _ => s
      | None, PkOther nid => nid_short_name nid
      | None, _ => []
      end
  end.

(** [src/src/cert_table.rs: extract_cert_info] *)
Definition extract_cert_info (cert : x509) (file_path server_name : list Z) : option cert_info :=
  not_before ← asn1_time_to_unix (x_not_before cert);
  not_after ← asn1_time_to_unix (x_not_after cert);
  Some (mk_cert file_path server_name not_before not_after
          (x509_name_cn (x_subject_cn cert)) (x509_name_cn (x_issuer_cn cert))
          (asn1_integer_hex (x_serial_hex cert)) (pubkey_alg (x_pkey cert)) (nid_short_name (x_sig_nid cert))).

(** [src/src/cert_table.rs: collect_server_certs] *)
Definition collect_server_certs (table : list cert_info) (s : ssl_server) : list cert_info :=
  if negb (sv_has_ctx s) then table else
  let server_name := pick_server_name (sv_names s) in
  let paths := map from_utf8_lossy (sv_paths s) in
  table ++ omap (fun '(cert, config_idx) =>
                   extract_cert_info cert (path_for_cert config_idx paths) server_name) (sv_certs s).

(** [None] is an nginx without the ssl module.
    [src/src/cert_table.rs: 111-149 build_cert_table] *)
Definition build_cert_table (table : list cert_info) (servers : option (list ssl_server)) : list cert_info :=
  match servers with Some l => foldl collect_server_certs table l | None => table end.

(** A row of the table comes from exactly one certificate of one server
    block: its times are that certificate's, its path is the one configured at
    the certificate's own position. *)
Lemma cert_rows table servers :
  build_cert_table table (Some servers) =
  table ++ concat (map (fun s => collect_server_certs [] s) servers).
Proof.
  unfold build_cert_table. revert table. induction servers as [|s servers IH]; intros table; cbn.
  - symmetry. apply app_nil_r.
  - rewrite IH, app_assoc. f_equal. unfold collect_server_certs.
    destruct (negb (sv_has_ctx s)); [symmetry; apply app_nil_r|reflexivity].
Qed.

End openssl.

(** ** Gauges *)

(** [src/src/metric_source/tls_cert.rs: NOT_AFTER] *)
Definition NOT_AFTER : list Z := $"ngx_otel.tls.certificate.not_after".
(** [src/src/metric_source/tls_cert.rs: NOT_BEFORE] *)
Definition NOT_BEFORE : list Z := $"ngx_otel.tls.certificate.not_before".
(** [src/src/metric_source/tls_cert.rs: TIME_TO_EXPIRATION] *)
Definition TIME_TO_EXPIRATION : list Z := $"ngx_otel.tls.certificate.time_to_expiration".

(** [src/src/metric_source/tls_cert.rs: cert_attrs] *)
Definition cert_attrs (c : cert_info) : list key_value :=
  [KV $"tls.server.certificate.file_path" (VString (ci_file_path c));
   KV $"tls.server.subject" (VString (ci_subject_cn c));
   KV $"tls.server.issuer" (VString (ci_issuer_cn c));
   KV $"tls.server.certificate.serial_number" (VString (ci_serial c));
   KV $"tls.server.certificate.public_key_algorithm" (VString (ci_pubkey_alg c));
   KV $"tls.server.certificate.signature_algorithm" (VString (ci_sig_alg c));
   KV $"server.address" (VString (ci_server_name c))].

(** [src/src/metric_source/tls_cert.rs: cert_gauge] *)
Definition cert_gauge (name desc : list Z) (data_points : list number_data_point) : metric :=
  mk_metric name desc $"s" (MGauge data_points).

(** [src/src/metric_source/tls_cert.rs: 70-80 ServingCertSource::collect_at] *)
Definition cert_points (certs : list cert_info) (now_ns : Z) (value_of : cert_info -> Z) : list number_data_point :=
  map (fun c => mk_ndp (cert_attrs c) 0 now_ns (AsInt (value_of c))) certs.

(** [src/src/metric_source/tls_cert.rs: ServingCertSource::collect_at] *)
Definition cert_collect_at (certs : list cert_info) (now_wall_secs now_ns : Z) : list metric :=
  match certs with
  | [] => []
  | _ =>
      let points := cert_points certs now_ns in
      [cert_gauge NOT_AFTER
         $"Serving certificate notAfter (Unix epoch seconds); collected at startup/reload from the live SSL_CTX"
         (points ci_not_after_unix);
       cert_gauge NOT_BEFORE
         $"Serving certificate notBefore (Unix epoch seconds); collected at startup/reload from the live SSL_CTX"
         (points ci_not_before_unix);
       cert_gauge TIME_TO_EXPIRATION
         $"Seconds until the serving certificate expires (negative after expiry); recomputed against the wall clock each export interval"
         (points (fun c => ci_not_after_unix c - now_wall_secs))]
  end.
