(* ===== verification/Endpoint.v ===== *)
(** * Collector endpoints (src/src/config/mod.rs, src/src/transport/hyper_http.rs)

    The check an endpoint passes when the configuration is loaded, and the
    parser the transports run when the exporter starts.  The file shows that
    the two read an endpoint alike: what was checked is what is used. *)
From S2P Require Import Prelude DataModel StdText.

(** ** IP literals ([core::net]'s parser, as a recogniser)

    Each reader returns what it leaves of the input, or fails. *)

Definition hex_digit (b : Z) : option Z :=
  if is_digit b then Some (b - 48)
  else if (97 <=? b) && (b <=? 102) then Some (b - 87)
  else if (65 <=? b) && (b <=? 70) then Some (b - 55)
  else None.
Definition dec_digit (b : Z) : option Z := if is_digit b then Some (b - 48) else None.

(** At most [fuel] digits: their number, the value, the rest. *)
Fixpoint read_digits (digit : Z -> option Z) (radix : Z) (fuel : nat) (acc : Z) (l : list Z) : nat * Z * list Z :=
  match fuel, l with
  | S fuel', b :: l' =>
      match digit b with
      | Some d => let '(n, v, r) := read_digits digit radix fuel' (acc * radix + d) l' in (S n, v, r)
      | None => (O, acc, l)
      end
  | _, _ => (O, acc, l)
  end.

(** An octet: one to three digits, no leading zero, at most 255. *)
Definition read_octet (l : list Z) : option (list Z) :=
  let '(n, v, r) := read_digits dec_digit 10 4 0 l in
  if (n =? 0)%nat || (3 <? n)%nat || (255 <? v) then None
  else if (1 <? n)%nat && (byte_at l 0 =? 48) then None
  else Some r.

Definition read_char (c : Z) (l : list Z) : option (list Z) :=
  match l with b :: l' => if b =? c then Some l' else None | [] => None end.

Definition read_ipv4 (l : list Z) : option (list Z) :=
  l ← read_octet l; l ← read_char 46 l; l ← read_octet l; l ← read_char 46 l;
  l ← read_octet l; l ← read_char 46 l; read_octet l.

(** A group of one to four hexadecimal digits. *)
Definition read_group (l : list Z) : option (list Z) :=
  let '(n, v, r) := read_digits hex_digit 16 5 0 l in
  if (n =? 0)%nat || (4 <? n)%nat then None else Some r.

(** [sep] before every group but the first. *)
Definition read_separated (i : nat) (p : list Z -> option (list Z)) (l : list Z) : option (list Z) :=
  if (i =? 0)%nat then p l else l' ← read_char 58 l; p l'.

(** [read_groups] with [limit] groups: groups read, whether the last two were an IPv4 address, the rest. *)
Fixpoint read_groups (fuel i limit : nat) (l : list Z) : nat * bool * list Z :=
  match fuel with
  | O => (i, false, l)
  | S fuel' =>
      if (limit <=? i)%nat then (i, false, l) else
      match (if (i <? limit - 1)%nat then read_separated i read_ipv4 l else None) with
      | Some r => ((i + 2)%nat, true, r)
      | None =>
          match read_separated i read_group l with
          | Some r => read_groups fuel' (S i) limit r
          | None => (i, false, l)
          end
      end
  end.

Definition is_ipv6 (l : list Z) : bool :=
  let '(head, v4, r) := read_groups 8 0 8 l in
  if (head =? 8)%nat then blen r =? 0
  else if v4 then false
  else match (r ← read_char 58 r; read_char 58 r) with
       | None => false
       | Some r =>
           let '(_, _, r) := read_groups 8 0 (8 - (head + 1)) r in blen r =? 0
       end.

Definition is_ipv4 (l : list Z) : bool :=
  if 15 <? blen l then false else match read_ipv4 l with Some r => blen r =? 0 | None => false end.

(** [host_str.parse::<IpAddr>().is_ok()]
    [src/src/transport/hyper_http.rs: is_ip_literal] *)
Definition is_ip_literal (host_str : list Z) : bool := is_ipv4 host_str || is_ipv6 host_str.

Example ip_literals :
  map is_ip_literal [$"127.0.0.1"; $"::1"; $"2001:db8::8a2e:370:7334"; $"::ffff:10.0.0.1"; $"1:2:3:4:5:6:7:8"]
    = [true; true; true; true; true] /\
  map is_ip_literal [$"127.0.0.01"; $"256.0.0.1"; $"localhost"; $"1::2::3"; $""; $"12345::"; $"1.2.3"]
    = [false; false; false; false; false; false; false].
Proof. split; vm_compute; reflexivity. Qed.

(** ** Splitting an authority *)

Definition HTTP_SCHEME : list Z := $"http://".
Definition HTTPS_SCHEME : list Z := $"https://".
Definition UNIX_SCHEME : list Z := $"unix:".

(** [src/src/transport/hyper_http.rs: 563-568 parse_authority] *)
Definition search_start (authority : list Z) : Z :=
  if starts_with $"[" authority then match find_byte 93 authority with Some i => i + 1 | None => 0 end else 0.

(** The host and the text after the port's colon.
    [src/src/config/mod.rs: 183-192 validate_endpoint_tls] *)
Definition split_authority (authority : list Z) : list Z * option (list Z) :=
  let start := search_start authority in
  match rfind_byte 58 (drop (Z.to_nat start) authority) with
  | Some rel_idx =>
      let idx := start + rel_idx in
      (take (Z.to_nat idx) authority, Some (drop (Z.to_nat (idx + 1)) authority))
  | None => (authority, None)
  end.

(** [src/src/transport/hyper_http.rs: parse_authority] *)
Definition parse_authority (authority : list Z) (default_port : Z) : list Z * Z :=
  let start := search_start authority in
  match rfind_byte 58 (drop (Z.to_nat start) authority) with
  | Some rel_idx =>
      let idx := start + rel_idx in
      (take (Z.to_nat idx) authority, default default_port (parse_u16 (drop (Z.to_nat (idx + 1)) authority)))
  | None => (authority, default_port)
  end.

(** [src/src/transport/hyper_http.rs: strip_v6_brackets] *)
Definition strip_v6_brackets (host : list Z) : list Z :=
  if starts_with $"[" host && bool_decide (list.last host = Some 93)
  then slice host 1 (blen host - 1) else host.

(** ** At configuration time *)

(** [src/src/config/mod.rs: TlsConfigError] *)
Inductive tls_config_error :=
  BadScheme | BadHost | BadPort | CertWithoutKey | KeyWithoutCert | FileMissing (label : list Z).

(** [src/src/config/mod.rs: TlsValidationInput] *)
Record tls_validation_input := mk_tvi {
  tv_endpoint : list Z;
  tv_trusted_cert : list Z;
  tv_ssl_cert : list Z;
  tv_ssl_cert_key : list Z;
  tv_ssl_verify_off : bool
}.

(** Host and port of an [http://] or [https://] endpoint.
    [src/src/config/mod.rs: 178-209 validate_endpoint_tls] *)
Definition check_authority (rest : list Z) : option tls_config_error :=
  let authority := split_first 47 rest in
  let '(host_raw, port_str) := split_authority authority in
  if blen (strip_v6_brackets host_raw) =? 0 then Some BadHost
  else match port_str with
       | Some p => match parse_u16 p with
                   | Some n => if 0 <? n then None else Some BadPort
                   | None => Some BadPort
                   end
       | None => None
       end.

(** The loop over the configured files.
    [src/src/config/mod.rs: 222-233 validate_endpoint_tls] *)
Fixpoint check_files (file_exists : list Z -> bool) (l : list (list Z * list Z)) : option tls_config_error :=
  match l with
  | [] => None
  | (label, path) :: l' =>
      if blen path =? 0 then check_files file_exists l'
      else if negb (file_exists path) then Some (FileMissing label)
      else check_files file_exists l'
  end.

Definition tls_files (i : tls_validation_input) : list (list Z * list Z) :=
  [($"trusted_certificate", tv_trusted_cert i); ($"ssl_certificate", tv_ssl_cert i);
   ($"ssl_certificate_key", tv_ssl_cert_key i)].

(** [src/src/config/mod.rs: validate_endpoint_tls] *)
Definition validate_endpoint_tls (i : tls_validation_input) (file_exists : list Z -> bool)
    : tls_config_error + bool :=
  let ep := tv_endpoint i in
  let is_https := starts_with HTTPS_SCHEME ep in
  let is_http := starts_with HTTP_SCHEME ep in
  if negb (starts_with UNIX_SCHEME ep || is_http || is_https) then inl BadScheme else
  let scheme_len := if is_https then length HTTPS_SCHEME else length HTTP_SCHEME in
  match (if is_http || is_https then check_authority (drop scheme_len ep) else None) with
  | Some e => inl e
  | None =>
      let has_cert := negb (blen (tv_ssl_cert i) =? 0) in
      let has_key := negb (blen (tv_ssl_cert_key i) =? 0) in
      if has_cert && negb has_key then inl CertWithoutKey
      else if negb has_cert && has_key then inl KeyWithoutCert
      else match (if is_https then check_files file_exists (tls_files i) else None) with
           | Some e => inl e
           | None => inr (tv_ssl_verify_off i)
           end
  end.

(** [src/src/config/mod.rs: MainConfig::endpoint_needs_resolver] *)
Definition endpoint_needs_resolver (ep : list Z) : bool :=
  if starts_with UNIX_SCHEME ep then false else
  match (match strip_prefix HTTP_SCHEME ep with Some r => Some r | None => strip_prefix HTTPS_SCHEME ep end) with
  | None => false
  | Some rest =>
      let authority := split_first 47 rest in
      let host :=
        match strip_prefix $"[" authority with
        | Some inner => split_first 93 inner
        | None =>
            match rfind_byte 58 authority with
            | Some i =>
                if forallb is_digit (drop (Z.to_nat (i + 1)) authority) then take (Z.to_nat i) authority
                else authority
            | None => authority
            end
        end in
      negb (is_ip_literal host)
  end.

(** ** When the exporter starts *)

(** [src/src/transport/hyper_http.rs: ParsedEndpoint] *)
Inductive parsed_endpoint :=
  | EHttp (host : list Z) (port : Z) (path : list Z)
  | EHttps (host : list Z) (port : Z) (path : list Z)
  | EUnix (socket_path http_path : list Z).

(** [src/src/transport/hyper_http.rs: 410-413 ParsedEndpoint::parse] *)
Definition split_path (rest : list Z) : list Z * list Z :=
  match find_byte 47 rest with
  | Some i => (take (Z.to_nat i) rest, drop (Z.to_nat i) rest)
  | None => (rest, $"/")
  end.

(** [None] is [InvalidEndpoint].
    [src/src/transport/hyper_http.rs: ParsedEndpoint::parse] *)
Definition parse_endpoint (input : list Z) : option parsed_endpoint :=
  match strip_prefix HTTP_SCHEME input with
  | Some rest => let '(authority, path) := split_path rest in
                 let '(host, port) := parse_authority authority 80 in Some (EHttp host port path)
  | None =>
  match strip_prefix HTTPS_SCHEME input with
  | Some rest => let '(authority, path) := split_path rest in
                 let '(host, port) := parse_authority authority 443 in Some (EHttps host port path)
  | None =>
  match strip_prefix $"unix:///" input with
  | Some rest => Some (EUnix ($"/" ++ rest) $"/")
  | None =>
  match strip_prefix $"unix://" input with
  | Some rest => Some (EUnix rest $"/")
  | None =>
  match strip_prefix UNIX_SCHEME input with
  | Some rest => Some (EUnix rest $"/")
  | None => None
  end end end end end.

(** [src/src/transport/hyper_http.rs: ParsedEndpoint::authority] *)
Definition endpoint_authority (e : parsed_endpoint) : list Z :=
  match e with
  | EHttp host port _ => if port =? 80 then host else host ++ $":" ++ fmt_dec port
  | EHttps host port _ => if port =? 443 then host else host ++ $":" ++ fmt_dec port
  | EUnix _ _ => $"localhost"
  end.
(** [src/src/transport/hyper_http.rs: ParsedEndpoint::base_path] *)
Definition base_path (e : parsed_endpoint) : list Z :=
  match e with EHttp _ _ p | EHttps _ _ p => p | EUnix _ p => p end.
(** [src/src/transport/hyper_http.rs: ParsedEndpoint::is_tls] *)
Definition is_tls (e : parsed_endpoint) : bool := match e with EHttps _ _ _ => true | _ => false end.
(** [src/src/transport/hyper_http.rs: ParsedEndpoint::host_str] *)
Definition host_str (e : parsed_endpoint) : list Z :=
  match e with EHttp h _ _ | EHttps h _ _ => h | EUnix _ _ => $"localhost" end.
(** [src/src/transport/hyper_http.rs: ParsedEndpoint::port] *)
Definition endpoint_port (e : parsed_endpoint) : option Z :=
  match e with EHttp _ p _ | EHttps _ p _ => Some p | EUnix _ _ => None end.

(** [src/src/transport/hyper_http.rs: derive_signal_paths] *)
Definition derive_signal_paths (base : list Z) : list Z * list Z * list Z :=
  let b := if bool_decide (list.last base = Some 47) then base else base ++ $"/" in
  (b ++ $"v1/metrics", b ++ $"v1/logs", b ++ $"v1/traces").

(** [src/src/transport/hyper_http.rs: extract_http_path] *)
Definition extract_http_path (s : list Z) : list Z :=
  let path_of rest := match find_byte 47 rest with Some i => drop (Z.to_nat i) rest | None => $"/" end in
  match strip_prefix HTTP_SCHEME s with
  | Some rest => path_of rest
  | None => match strip_prefix HTTPS_SCHEME s with Some rest => path_of rest | None => s end
  end.

(** ** What is checked is what is used *)

Lemma split_authority_app a h p : split_authority a = (h, Some p) -> a = h ++ $":" ++ p.
Proof.
  unfold split_authority. set (st := search_start a).
  assert (Hst : 0 <= st).
  { unfold st, search_start. case_match; [|lia]. destruct (find_byte 93 a) as [i|] eqn:E; [|lia].
    apply find_byte_spec in E. lia. }
  destruct (rfind_byte 58 _) as [r|] eqn:E; [|discriminate]. intros [= <- <-].
  apply rfind_byte_spec in E as [Hr E]. set (d := drop (Z.to_nat st) a) in *.
  rewrite <- (take_drop (Z.to_nat st) a) at 1. fold d. rewrite E at 1.
  assert (L : length (take (Z.to_nat st) a) = Z.to_nat st).
  { rewrite length_take. unfold d, blen in Hr. rewrite length_drop in Hr. lia. }
  rewrite app_assoc. f_equal.
  - replace (Z.to_nat (st + r)) with (Z.to_nat st + Z.to_nat r)%nat by lia. unfold d. rewrite take_take_drop. reflexivity.
  - change $":" with [58]. cbn [app]. f_equal. unfold d. rewrite drop_drop. f_equal. lia.
Qed.

Lemma parse_authority_split a d :
  parse_authority a d = match split_authority a with
                        | (h, Some p) => (h, default d (parse_u16 p))
                        | (h, None) => (h, d)
                        end.
Proof. unfold parse_authority, split_authority. destruct (rfind_byte 58 _); reflexivity. Qed.

(** A host that is not followed by a port: it has no colon, or all its colons are within the brackets of an IPv6 literal. *)
Definition portless (host : list Z) : Prop :=
  ~ In 58 host \/ exists inner after, host = $"[" ++ inner ++ $"]" ++ after /\ ~ In 93 inner /\ ~ In 58 after.

Lemma rfind_byte_None c l : rfind_byte c l = None -> ~ In c l.
Proof.
  unfold rfind_byte. destruct (find_byte c (reverse l)) as [i|] eqn:E; [discriminate|]. intros _.
  apply find_byte_None in E as [_ E]. rewrite <- list_elem_of_In in *. rewrite elem_of_reverse in E. exact E.
Qed.

Lemma split_authority_None a h : split_authority a = (h, None) -> h = a /\ portless h.
Proof.
  unfold split_authority, search_start. destruct (rfind_byte 58 _) as [r|] eqn:E; [discriminate|]. intros [= <-]. split; [reflexivity|].
  apply rfind_byte_None in E. destruct (starts_with $"[" a) eqn:Eb; [|left; exact E].
  destruct (find_byte 93 a) as [i|] eqn:Ef; [|left; exact E]. right.
  destruct (split_first_spec 93 a) as (_ & _ & Hn & _). apply find_byte_spec in Ef as (Hi & Ea & Es). rewrite Es in Hn.
  apply starts_with_spec in Eb as [r Er]. change ($"[" ++ r) with (91 :: r) in Er. subst a. destruct (Z.to_nat i) as [|k] eqn:Ei.
  { discriminate Ea. }
  exists (take k r), (drop (Z.to_nat (i + 1)) (91 :: r)). cbn [take] in Ea, Hn.
  split_and!; [exact Ea|intros H; apply Hn; right; exact H|exact E].
Qed.

(** [split_path] cuts where the check's [split('/')] does. *)
Lemma split_path_first rest : exists tail, rest = split_first 47 rest ++ tail /\ (tail = [] \/ exists t, tail = $"/" ++ t) /\
  split_path rest = (split_first 47 rest, if blen tail =? 0 then $"/" else tail).
Proof.
  unfold split_path. destruct (find_byte 47 rest) as [i|] eqn:E.
  - apply find_byte_spec in E as (Hi & E & ->). exists (drop (Z.to_nat i) rest).
    rewrite take_drop. split; [reflexivity|]. split.
    { right. exists (drop (Z.to_nat (i + 1)) rest). apply (app_inv_head (take (Z.to_nat i) rest)). rewrite take_drop. exact E. }
    f_equal.
    assert (blen (drop (Z.to_nat i) rest) <> 0) by (unfold blen in *; rewrite length_drop; lia).
    case_if; [contradiction|reflexivity].
  - apply find_byte_None in E as [-> _]. exists []. rewrite app_nil_r. auto.
Qed.

(** [port] is the one written after the host and a colon, or the scheme's default if none is written. *)
Definition port_as_written (host port_text : list Z) (dflt port : Z) : Prop :=
  (port_text = [] /\ portless host /\ port = dflt) \/
  (exists p, port_text = $":" ++ p /\ parse_u16 p = Some port /\ 0 < port).

(** What is written after the scheme: host, optional port, and the path from the first slash on. *)
Definition written (rest host : list Z) (dflt port : Z) (path : list Z) : Prop :=
  exists port_text tail, rest = host ++ port_text ++ tail /\
    ~ In 47 (host ++ port_text) /\ (tail = [] \/ exists t, tail = $"/" ++ t) /\
    strip_v6_brackets host <> [] /\ port_as_written host port_text dflt port /\ path = (if blen tail =? 0 then $"/" else tail).

Lemma check_authority_parses rest d : check_authority rest = None ->
  exists host port path, written rest host d port path /\
    (let '(authority, path') := split_path rest in (parse_authority authority d, path')) = (host, port, path).
Proof.
  unfold check_authority. destruct (split_path_first rest) as (tail & Er & Ht & ->).
  destruct (split_first_spec 47 rest) as (_ & _ & Hs & _). set (path := if blen tail =? 0 then $"/" else tail).
  rewrite parse_authority_split. destruct (split_authority (split_first 47 rest)) as [h [p|]] eqn:Ea.
  - case_if; [discriminate|]. destruct (parse_u16 p) as [n|] eqn:Ep; [|discriminate].
    case_if; [|discriminate]. intros _. apply split_authority_app in Ea. exists h, n, path. split; [|reflexivity].
    exists ($":" ++ p), tail. rewrite Ea in Hs. split_and!; [|exact Hs|exact Ht| |right; exists p; auto|reflexivity].
    + rewrite Er at 1. rewrite Ea, <- !app_assoc. reflexivity.
    + intros Eh. rewrite Eh in *. auto.
  - case_if; [discriminate|]. intros _. apply split_authority_None in Ea as [-> Hp]. exists (split_first 47 rest), d, path. split; [|reflexivity].
    exists [], tail. split_and!; [exact Er|rewrite app_nil_r; exact Hs|exact Ht| |left; auto|reflexivity].
    intros Eh. rewrite Eh in *. auto.
Qed.

Lemma schemes_disjoint ep :
  (starts_with HTTP_SCHEME ep = true -> starts_with HTTPS_SCHEME ep = false /\ starts_with UNIX_SCHEME ep = false) /\
  (starts_with HTTPS_SCHEME ep = true -> starts_with UNIX_SCHEME ep = false).
Proof.
  assert (D : forall p q, starts_with p ep = true -> (length q <= length p)%nat -> take (length q) p <> q ->
    starts_with q ep = false).
  { intros p q Hp Hl Hne. apply starts_with_spec in Hp as [r ->]. unfold starts_with.
    apply bool_decide_eq_false. rewrite take_app_le by lia. exact Hne. }
  assert (D' : forall p q, starts_with p ep = true -> (length p <= length q)%nat -> take (length p) q <> p ->
    starts_with q ep = false).
  { intros p q Hp Hl Hne. destruct (starts_with q ep) eqn:Eq; [exfalso|reflexivity].
    apply starts_with_spec in Eq as [r ->]. apply bytes_eqb_eq in Hp. rewrite take_app_le in Hp by lia. auto. }
  split; [intros H; split|intros H].
  - apply (D' _ _ H); [cbn; lia|vm_compute; congruence].
  - apply (D _ _ H); [cbn; lia|vm_compute; congruence].
  - apply (D _ _ H); [cbn; lia|vm_compute; congruence].
Qed.

Lemma starts_with_strip p ep : starts_with p ep = true -> strip_prefix p ep = Some (drop (length p) ep).
Proof. unfold strip_prefix. intros ->. reflexivity. Qed.

Lemma starts_with_strip_None p ep : starts_with p ep = false -> strip_prefix p ep = None.
Proof. unfold strip_prefix. intros ->. reflexivity. Qed.

(** An endpoint as the exporter reads it. *)
Definition as_written (ep : list Z) (e : parsed_endpoint) : Prop :=
  match e with
  | EHttp host port path => exists rest, ep = $"http://" ++ rest /\ written rest host 80 port path
  | EHttps host port path => exists rest, ep = $"https://" ++ rest /\ written rest host 443 port path
  | EUnix socket path => path = $"/" /\
      (ep = $"unix:" ++ socket \/ ep = $"unix://" ++ socket)
  end.

Lemma unix_parses ep : starts_with UNIX_SCHEME ep = true ->
  exists e, parse_endpoint ep = Some e /\ as_written ep e.
Proof.
  intros Hu. unfold parse_endpoint. destruct (schemes_disjoint ep) as [D1 D2].
  destruct (starts_with HTTP_SCHEME ep) eqn:E1; [destruct (D1 eq_refl); congruence|].
  destruct (starts_with HTTPS_SCHEME ep) eqn:E2; [specialize (D2 eq_refl); congruence|].
  rewrite (starts_with_strip_None _ _ E1), (starts_with_strip_None _ _ E2).
  destruct (strip_prefix $"unix:///" ep) as [r|] eqn:S1.
  { apply strip_prefix_spec in S1. eexists. split; [reflexivity|]. split; [reflexivity|]. right. exact S1. }
  destruct (strip_prefix $"unix://" ep) as [r|] eqn:S2.
  { apply strip_prefix_spec in S2. eexists. split; [reflexivity|]. split; [reflexivity|]. right. exact S2. }
  rewrite (starts_with_strip _ _ Hu). eexists. split; [reflexivity|]. split; [reflexivity|]. left.
  apply strip_prefix_spec, starts_with_strip, Hu.
Qed.

Lemma network_parses ep :
  (starts_with HTTP_SCHEME ep = true -> check_authority (drop (length HTTP_SCHEME) ep) = None ->
     exists e, parse_endpoint ep = Some e /\ as_written ep e) /\
  (starts_with HTTPS_SCHEME ep = true -> check_authority (drop (length HTTPS_SCHEME) ep) = None ->
     exists e, parse_endpoint ep = Some e /\ as_written ep e).
Proof.
  destruct (schemes_disjoint ep) as [D1 D2]. split; intros Hs Hc; unfold parse_endpoint.
  - pose proof (starts_with_strip _ _ Hs) as S. rewrite S. apply strip_prefix_spec in S.
    destruct (check_authority_parses _ 80 Hc) as (h & port & path & Hw & Ep).
    destruct (split_path _) as [a pa]. injection Ep as Ep ->. rewrite Ep.
    eexists. split; [reflexivity|]. eexists. split; [exact S|exact Hw].
  - destruct (starts_with HTTP_SCHEME ep) eqn:E1; [destruct (D1 eq_refl); congruence|].
    rewrite (starts_with_strip_None _ _ E1).
    pose proof (starts_with_strip _ _ Hs) as S. rewrite S. apply strip_prefix_spec in S.
    destruct (check_authority_parses _ 443 Hc) as (h & port & path & Hw & Ep).
    destruct (split_path _) as [a pa]. injection Ep as Ep ->. rewrite Ep.
    eexists. split; [reflexivity|]. eexists. split; [exact S|exact Hw].
Qed.

Lemma check_files_spec fe l : check_files fe l = None <->
  Forall (fun '(_, path) => path = [] \/ fe path = true) l.
Proof.
  induction l as [|[label path] l IH]; cbn [check_files]; [split; auto|].
  destruct path as [|b path].
  - cbn [blen length]. change (Z.of_nat 0 =? 0) with true. cbv iota. split.
    + intros H. constructor; [left; reflexivity|apply IH, H].
    + intros H. apply Forall_inv_tail in H. apply IH, H.
  - rewrite (proj2 (Z.eqb_neq (blen (b :: path)) 0)) by (rewrite blen_cons; pose proof (blen_nonneg path); lia).
    destruct (fe (b :: path)) eqn:E; cbn [negb]; split.
    + intros H. constructor; [right; exact E|apply IH, H].
    + intros H. apply Forall_inv_tail in H. apply IH, H.
    + discriminate.
    + intros H. apply Forall_inv in H as [H|H]; [discriminate|congruence].
Qed.

Lemma no_scheme_None ep :
  starts_with UNIX_SCHEME ep || starts_with HTTP_SCHEME ep || starts_with HTTPS_SCHEME ep = false ->
  parse_endpoint ep = None.
Proof.
  intros H. apply orb_false_iff in H as [H H3]. apply orb_false_iff in H as [H1 H2]. unfold parse_endpoint.
  rewrite (starts_with_strip_None _ _ H2), (starts_with_strip_None _ _ H3), (starts_with_strip_None _ _ H1).
  destruct (strip_prefix $"unix:///" ep) as [r|] eqn:E;
    [|destruct (strip_prefix $"unix://" ep) as [r|] eqn:E'; [|reflexivity]];
    exfalso; apply Bool.not_true_iff_false in H1; apply H1, starts_with_spec;
    [apply strip_prefix_spec in E|apply strip_prefix_spec in E']; eexists; [exact E|exact E'].
Qed.

Lemma scheme_parses ep :
  starts_with UNIX_SCHEME ep || starts_with HTTP_SCHEME ep || starts_with HTTPS_SCHEME ep = true ->
  exists e, parse_endpoint ep = Some e.
Proof.
  intros H. unfold parse_endpoint. unfold strip_prefix at 1 2.
  destruct (starts_with HTTP_SCHEME ep) eqn:E1; [destruct (split_path _), (parse_authority _ _); eauto|].
  destruct (starts_with HTTPS_SCHEME ep) eqn:E2; [destruct (split_path _), (parse_authority _ _); eauto|].
  rewrite !orb_false_r in H. destruct (strip_prefix $"unix:///" ep); [eauto|].
  destruct (strip_prefix $"unix://" ep); [eauto|]. rewrite (starts_with_strip _ _ H). eauto.
Qed.

Lemma check_files_error fe l e : check_files fe l = Some e -> e <> BadScheme.
Proof.
  induction l as [|[lb path] l IH]; cbn; [discriminate|]. repeat case_match; auto. intros [= <-]. discriminate.
Qed.

Lemma check_authority_error r e : check_authority r = Some e -> e <> BadScheme.
Proof. unfold check_authority. repeat case_match; intros [= <-]; discriminate. Qed.

Lemma validate_not_scheme i fe :
  starts_with UNIX_SCHEME (tv_endpoint i) || starts_with HTTP_SCHEME (tv_endpoint i)
    || starts_with HTTPS_SCHEME (tv_endpoint i) = true ->
  validate_endpoint_tls i fe <> inl BadScheme.
Proof.
  intros Esch. unfold validate_endpoint_tls. rewrite Esch. cbn [negb].
  destruct (if _ || _ then _ else _) as [e|] eqn:E.
  - intros [= ->]. case_match; [|discriminate]. exact (check_authority_error _ _ E eq_refl).
  - destruct (_ && _); [discriminate|]. destruct (_ && _); [discriminate|].
    destruct (if starts_with HTTPS_SCHEME (tv_endpoint i) then check_files fe (tls_files i) else None)
      as [e|] eqn:E'; [|discriminate]. intros [= ->].
    destruct (starts_with HTTPS_SCHEME _); [exact (check_files_error _ _ _ E' eq_refl)|discriminate].
Qed.

Lemma validate_inr i fe w :
  starts_with UNIX_SCHEME (tv_endpoint i) || starts_with HTTP_SCHEME (tv_endpoint i)
    || starts_with HTTPS_SCHEME (tv_endpoint i) = true ->
  validate_endpoint_tls i fe = inr w ->
  w = tv_ssl_verify_off i /\ (tv_ssl_cert i = [] <-> tv_ssl_cert_key i = []) /\
  (starts_with HTTPS_SCHEME (tv_endpoint i) = true ->
     Forall (fun '(_, path) => path = [] \/ fe path = true) (tls_files i)) /\
  exists e, parse_endpoint (tv_endpoint i) = Some e /\ as_written (tv_endpoint i) e.
Proof.
  intros Esch. unfold validate_endpoint_tls. rewrite Esch. cbn [negb]. set (ep := tv_endpoint i) in *.
  destruct (if _ || _ then _ else _) as [e|] eqn:Ea; [discriminate|].
  assert (Hp : exists e, parse_endpoint ep = Some e /\ as_written ep e).
  { destruct (network_parses ep) as [N1 N2], (schemes_disjoint ep) as [D1 D2].
    destruct (starts_with HTTP_SCHEME ep) eqn:E1.
    - destruct (D1 eq_refl) as [E2 _]. rewrite E2 in Ea. apply (N1 eq_refl Ea).
    - destruct (starts_with HTTPS_SCHEME ep) eqn:E2; [apply (N2 eq_refl Ea)|].
      rewrite !orb_false_r in Esch. apply unix_parses, Esch. }
  assert (Hb : forall l, (blen l =? 0) = true <-> l = []).
  { intros [|x l]; [split; auto|]. rewrite blen_cons. pose proof (blen_nonneg l).
    split; [intros H0; zify_bool; lia|discriminate]. }
  pose proof (Hb (tv_ssl_cert i)) as Hc. pose proof (Hb (tv_ssl_cert_key i)) as Hk.
  destruct (blen (tv_ssl_cert i) =? 0), (blen (tv_ssl_cert_key i) =? 0); cbn [negb andb]; try discriminate;
    (destruct (if starts_with HTTPS_SCHEME ep then check_files fe (tls_files i) else None) eqn:Ef; [discriminate|];
     intros [= <-]; split; [reflexivity|]; split; [tauto|]; split; [|exact Hp];
     intros Hh; rewrite Hh in Ef; apply check_files_spec, Ef).
Qed.

(** C27 (error). The check of the collector endpoint at configuration time and the parser
    the exporter runs at start agree: an endpoint is refused for its
    scheme exactly when the parser cannot read it, and once the check has passed the
    parser succeeds and yields exactly what is written: of the text between the scheme and the first slash, a non-empty host, the
    port written after it and a colon, where the colons within the brackets of an IPv6 literal do not count (the scheme's default only when none is written, never instead of a port that failed to parse), and the
    path from that slash on; moreover client certificate and key were given together, and
    every configured file of an https endpoint existed.
    About: validate_endpoint_tls, check_authority, split_authority, check_files, parse_endpoint, parse_authority, split_path. *)
Theorem endpoint_checked_is_used i file_exists :
  (validate_endpoint_tls i file_exists = inl BadScheme <-> parse_endpoint (tv_endpoint i) = None) /\
  (forall w, validate_endpoint_tls i file_exists = inr w ->
     w = tv_ssl_verify_off i /\ (tv_ssl_cert i = [] <-> tv_ssl_cert_key i = []) /\
     (starts_with HTTPS_SCHEME (tv_endpoint i) = true ->
        Forall (fun '(_, path) => path = [] \/ file_exists path = true) (tls_files i)) /\
     exists e, parse_endpoint (tv_endpoint i) = Some e /\ as_written (tv_endpoint i) e).
Proof.
  set (ep := tv_endpoint i).
  destruct (starts_with UNIX_SCHEME ep || starts_with HTTP_SCHEME ep || starts_with HTTPS_SCHEME ep) eqn:Esch.
  - split.
    + split; intros H; exfalso; [exact (validate_not_scheme i file_exists Esch H)|].
      destruct (scheme_parses ep Esch) as [e He]. congruence.
    + intros w. apply validate_inr. exact Esch.
  - split.
    + split; intros _; [apply no_scheme_None, Esch|]. unfold validate_endpoint_tls. fold ep. rewrite Esch. reflexivity.
    + intros w. unfold validate_endpoint_tls. fold ep. rewrite Esch. discriminate.
Qed.

Definition sample_tls : tls_validation_input :=
  mk_tvi $"https://[2001:db8::1]:4318/otlp" $"/ca.pem" [] [] false.

Lemma endpoint_checked_is_used_witness :
  (validate_endpoint_tls sample_tls (fun _ => true) = inl BadScheme <-> parse_endpoint (tv_endpoint sample_tls) = None) /\
  (forall w, validate_endpoint_tls sample_tls (fun _ => true) = inr w -> w = false) /\
  parse_endpoint (tv_endpoint sample_tls) = Some (EHttps $"[2001:db8::1]" 4318 $"/otlp").
Proof.
  destruct (endpoint_checked_is_used sample_tls (fun _ => true)) as [H1 H2].
  split; [exact H1|]. split; [|vm_compute; reflexivity]. intros w Hw. destruct (H2 w Hw) as [-> _]. reflexivity.
Defined.

(** The resolver check and the connector differ on a host that is neither a
    bracketed literal nor a name: no resolver is required for it, yet it is not an IP literal. *)
Example resolver_disagrees :
  let ep := $"http://[::1]x:80/" in
  validate_endpoint_tls (mk_tvi ep [] [] [] false) (fun _ => true) = inr false /\
  endpoint_needs_resolver ep = false /\ parse_endpoint ep = Some (EHttp $"[::1]x" 80 $"/") /\
  is_ip_literal (strip_v6_brackets $"[::1]x") = false.
Proof. vm_compute. auto. Qed.
