(* ===== verification/Config.v ===== *)
(** * The module's configuration (src/src/config/mod.rs)

    [MainConfig] with its accessors, the lookup tables of locations and
    upstream zones that a request's histograms are indexed by, the capacity
    check that guards every access of a worker to its blocks, and the
    finalisation after all directives are parsed.  An [ngx_str_t] is its bytes; a
    pointer nginx owns is an integer, [0] or [None] for null.  Fields and
    directives of test builds only are left out.  The nginx structures that the
    finalisation walks are arguments. *)
From S2P Require Import Prelude Ring DataModel StdText ConfigParse Histogram AccessLog Slots SpanRecord Coalesce.
From S2P Require Import ShmLayout CertTable.

(** ** Data *)

(** [src/src/config/mod.rs: UNSET_FLAG] *)
Definition UNSET_FLAG : Z := -1.
(** [src/src/config/mod.rs: UNSET_U64] *)
Definition UNSET_U64 : Z := u64_max.
(** [src/src/config/mod.rs: DEFAULT_INTERVAL_MS] *)
Definition DEFAULT_INTERVAL_MS : Z := 5000.
(** [src/src/config/mod.rs: DEFAULT_RETRY_BUFFER_DEPTH] *)
Definition DEFAULT_RETRY_BUFFER_DEPTH : Z := 4.
(** [src/src/config/mod.rs: ROUTE_NAME_MAX] *)
Definition ROUTE_NAME_MAX : Z := 64.
(** [src/src/config/mod.rs: UPSTREAM_NAME_MAX] *)
Definition UPSTREAM_NAME_MAX : Z := 32.
(** [src/src/shm/mod.rs: UPSTREAM_IDX_OTHER] *)
Definition UPSTREAM_IDX_OTHER : Z := UPSTREAM_CAP.
(** [src/src/logs/ring.rs: DEFAULT_LOG_RING_CAP] *)
Definition DEFAULT_LOG_RING_CAP : Z := 512 * 1024.
(** [NGX_LOG_ERR] *)
Definition NGX_LOG_ERR : Z := 4.

(** [src/src/config/mod.rs: ExportProtocol] *)
Inductive export_protocol := OtlpHttp | OtlpGrpc.

(** [src/src/config/mod.rs: ExporterConfig] *)
Record exporter_config := mk_xc {
  xc_endpoint : list Z;
  xc_trusted_cert : list Z;
  xc_ssl_cert : list Z;
  xc_ssl_cert_key : list Z;
  xc_ssl_verify : Z;
  xc_metrics_endpoint : list Z;
  xc_logs_endpoint : list Z;
  xc_traces_endpoint : list Z
}.

(** [ExporterConfig::default].  [src/src/config/mod.rs: 103-118 ExporterConfig] *)
Definition exporter_default : exporter_config := mk_xc [] [] [] [] UNSET_FLAG [] [] [].

Definition set_endpoint (v : list Z) (e : exporter_config) : exporter_config :=
  mk_xc v (xc_trusted_cert e) (xc_ssl_cert e) (xc_ssl_cert_key e) (xc_ssl_verify e) (xc_metrics_endpoint e) (xc_logs_endpoint e) (xc_traces_endpoint e).
Definition set_trusted_cert (v : list Z) (e : exporter_config) : exporter_config :=
  mk_xc (xc_endpoint e) v (xc_ssl_cert e) (xc_ssl_cert_key e) (xc_ssl_verify e) (xc_metrics_endpoint e) (xc_logs_endpoint e) (xc_traces_endpoint e).
Definition set_ssl_cert (v : list Z) (e : exporter_config) : exporter_config :=
  mk_xc (xc_endpoint e) (xc_trusted_cert e) v (xc_ssl_cert_key e) (xc_ssl_verify e) (xc_metrics_endpoint e) (xc_logs_endpoint e) (xc_traces_endpoint e).
Definition set_ssl_cert_key (v : list Z) (e : exporter_config) : exporter_config :=
  mk_xc (xc_endpoint e) (xc_trusted_cert e) (xc_ssl_cert e) v (xc_ssl_verify e) (xc_metrics_endpoint e) (xc_logs_endpoint e) (xc_traces_endpoint e).
Definition set_ssl_verify (v : Z) (e : exporter_config) : exporter_config :=
  mk_xc (xc_endpoint e) (xc_trusted_cert e) (xc_ssl_cert e) (xc_ssl_cert_key e) v (xc_metrics_endpoint e) (xc_logs_endpoint e) (xc_traces_endpoint e).
Definition set_metrics_endpoint (v : list Z) (e : exporter_config) : exporter_config :=
  mk_xc (xc_endpoint e) (xc_trusted_cert e) (xc_ssl_cert e) (xc_ssl_cert_key e) (xc_ssl_verify e) v (xc_logs_endpoint e) (xc_traces_endpoint e).
Definition set_logs_endpoint (v : list Z) (e : exporter_config) : exporter_config :=
  mk_xc (xc_endpoint e) (xc_trusted_cert e) (xc_ssl_cert e) (xc_ssl_cert_key e) (xc_ssl_verify e) (xc_metrics_endpoint e) v (xc_traces_endpoint e).
Definition set_traces_endpoint (v : list Z) (e : exporter_config) : exporter_config :=
  mk_xc (xc_endpoint e) (xc_trusted_cert e) (xc_ssl_cert e) (xc_ssl_cert_key e) (xc_ssl_verify e) (xc_metrics_endpoint e) (xc_logs_endpoint e) v.
(** [src/src/config/mod.rs: ExporterConfig::is_set] *)
Definition is_set (e : exporter_config) : bool := negb (blen (xc_endpoint e) =? 0).
(** [src/src/config/mod.rs: ExporterConfig::ssl_verify_off] *)
Definition ssl_verify_off (e : exporter_config) : bool := xc_ssl_verify e =? 0.

(** A slot of either lookup table; [te_name] has the array's fixed length.
    [src/src/config/mod.rs: RouteEntry] *)
Record table_entry := mk_te { te_ptr : Z; te_name : list Z; te_name_len : Z }.

(** [src/src/config/mod.rs: UpstreamEntry] *)
Definition empty_entry (name_max : Z) : table_entry := mk_te 0 (replicate (Z.to_nat name_max) 0) 0.

(** [src/src/config/mod.rs: RouteEntry::name_str] *)
Definition name_str (e : table_entry) : list Z :=
  default $"(invalid)" (from_utf8 (take (Z.to_nat (te_name_len e)) (te_name e))).

(** What the module reads of an [ngx_shm_zone_t]: the mapped address and the size. *)
Record shm_zone := mk_zone { z_addr : Z; z_size : Z }.

(** [src/src/config/mod.rs: MainConfig] *)
Record main_config := mk_main {
  mc_exporter : exporter_config;
  mc_service_name : list Z;
  mc_resource_attrs : list (list Z * list Z);
  mc_exporter_headers : list (list Z * list Z);
  mc_metric_interval_ms : Z;
  mc_metrics_enabled : Z;
  mc_status_code_class : Z;
  mc_export_protocol : option export_protocol;
  mc_shm_zone : option shm_zone;
  mc_control_shm_zone : option shm_zone;
  mc_logs_shm_zone : option shm_zone;
  mc_spans_shm_zone : option shm_zone;
  mc_n_active_workers : Z;
  mc_any_log_export : bool;
  mc_error_log_enabled : bool;
  mc_error_log_level : Z;
  mc_error_log_coalesce : bool;
  mc_route_table : list table_entry;
  mc_n_routes : Z;
  mc_upstream_table : list table_entry;
  mc_n_upstreams : Z;
  mc_resolver : option Z;
  mc_resolver_timeout : Z;
  mc_cert_table : list cert_info
}.
(** [MainConfig::default].  [src/src/config/mod.rs: 405-452 MainConfig] *)
Definition main_default : main_config :=
  mk_main exporter_default [] [] [] UNSET_U64 UNSET_FLAG UNSET_FLAG None None None None None 0 false
    false NGX_LOG_ERR true
    (replicate (Z.to_nat ROUTE_CAP) (empty_entry ROUTE_NAME_MAX)) 0
    (replicate (Z.to_nat UPSTREAM_CAP) (empty_entry UPSTREAM_NAME_MAX)) 0
    None 0 [].

(** Assignments to fields. *)
Definition set_exporter (v0 : exporter_config) (c : main_config) : main_config :=
    mk_main v0 (mc_service_name c) (mc_resource_attrs c) (mc_exporter_headers c)
    (mc_metric_interval_ms c) (mc_metrics_enabled c) (mc_status_code_class c)
    (mc_export_protocol c) (mc_shm_zone c) (mc_control_shm_zone c) (mc_logs_shm_zone c)
    (mc_spans_shm_zone c) (mc_n_active_workers c) (mc_any_log_export c) (mc_error_log_enabled c)
    (mc_error_log_level c) (mc_error_log_coalesce c) (mc_route_table c) (mc_n_routes c)
    (mc_upstream_table c) (mc_n_upstreams c) (mc_resolver c) (mc_resolver_timeout c)
    (mc_cert_table c).
Definition set_resource_attrs (v0 : list (list Z * list Z)) (c : main_config) : main_config :=
    mk_main (mc_exporter c) (mc_service_name c) v0 (mc_exporter_headers c)
    (mc_metric_interval_ms c) (mc_metrics_enabled c) (mc_status_code_class c)
    (mc_export_protocol c) (mc_shm_zone c) (mc_control_shm_zone c) (mc_logs_shm_zone c)
    (mc_spans_shm_zone c) (mc_n_active_workers c) (mc_any_log_export c) (mc_error_log_enabled c)
    (mc_error_log_level c) (mc_error_log_coalesce c) (mc_route_table c) (mc_n_routes c)
    (mc_upstream_table c) (mc_n_upstreams c) (mc_resolver c) (mc_resolver_timeout c)
    (mc_cert_table c).
Definition set_exporter_headers (v0 : list (list Z * list Z)) (c : main_config) : main_config :=
    mk_main (mc_exporter c) (mc_service_name c) (mc_resource_attrs c) v0 (mc_metric_interval_ms
    c) (mc_metrics_enabled c) (mc_status_code_class c) (mc_export_protocol c) (mc_shm_zone c)
    (mc_control_shm_zone c) (mc_logs_shm_zone c) (mc_spans_shm_zone c) (mc_n_active_workers c)
    (mc_any_log_export c) (mc_error_log_enabled c) (mc_error_log_level c) (mc_error_log_coalesce
    c) (mc_route_table c) (mc_n_routes c) (mc_upstream_table c) (mc_n_upstreams c) (mc_resolver
    c) (mc_resolver_timeout c) (mc_cert_table c).
Definition set_metric_interval_ms (v0 : Z) (c : main_config) : main_config :=
    mk_main (mc_exporter c) (mc_service_name c) (mc_resource_attrs c) (mc_exporter_headers c) v0
    (mc_metrics_enabled c) (mc_status_code_class c) (mc_export_protocol c) (mc_shm_zone c)
    (mc_control_shm_zone c) (mc_logs_shm_zone c) (mc_spans_shm_zone c) (mc_n_active_workers c)
    (mc_any_log_export c) (mc_error_log_enabled c) (mc_error_log_level c) (mc_error_log_coalesce
    c) (mc_route_table c) (mc_n_routes c) (mc_upstream_table c) (mc_n_upstreams c) (mc_resolver
    c) (mc_resolver_timeout c) (mc_cert_table c).
Definition set_export_protocol (v0 : option export_protocol) (c : main_config) : main_config :=
    mk_main (mc_exporter c) (mc_service_name c) (mc_resource_attrs c) (mc_exporter_headers c)
    (mc_metric_interval_ms c) (mc_metrics_enabled c) (mc_status_code_class c) v0 (mc_shm_zone c)
    (mc_control_shm_zone c) (mc_logs_shm_zone c) (mc_spans_shm_zone c) (mc_n_active_workers c)
    (mc_any_log_export c) (mc_error_log_enabled c) (mc_error_log_level c) (mc_error_log_coalesce
    c) (mc_route_table c) (mc_n_routes c) (mc_upstream_table c) (mc_n_upstreams c) (mc_resolver
    c) (mc_resolver_timeout c) (mc_cert_table c).
Definition set_shm_zone (v0 : option shm_zone) (c : main_config) : main_config :=
    mk_main (mc_exporter c) (mc_service_name c) (mc_resource_attrs c) (mc_exporter_headers c)
    (mc_metric_interval_ms c) (mc_metrics_enabled c) (mc_status_code_class c)
    (mc_export_protocol c) v0 (mc_control_shm_zone c) (mc_logs_shm_zone c) (mc_spans_shm_zone c)
    (mc_n_active_workers c) (mc_any_log_export c) (mc_error_log_enabled c) (mc_error_log_level
    c) (mc_error_log_coalesce c) (mc_route_table c) (mc_n_routes c) (mc_upstream_table c)
    (mc_n_upstreams c) (mc_resolver c) (mc_resolver_timeout c) (mc_cert_table c).
Definition set_control_shm_zone (v0 : option shm_zone) (c : main_config) : main_config :=
    mk_main (mc_exporter c) (mc_service_name c) (mc_resource_attrs c) (mc_exporter_headers c)
    (mc_metric_interval_ms c) (mc_metrics_enabled c) (mc_status_code_class c)
    (mc_export_protocol c) (mc_shm_zone c) v0 (mc_logs_shm_zone c) (mc_spans_shm_zone c)
    (mc_n_active_workers c) (mc_any_log_export c) (mc_error_log_enabled c) (mc_error_log_level
    c) (mc_error_log_coalesce c) (mc_route_table c) (mc_n_routes c) (mc_upstream_table c)
    (mc_n_upstreams c) (mc_resolver c) (mc_resolver_timeout c) (mc_cert_table c).
Definition set_logs_shm_zone (v0 : option shm_zone) (c : main_config) : main_config :=
    mk_main (mc_exporter c) (mc_service_name c) (mc_resource_attrs c) (mc_exporter_headers c)
    (mc_metric_interval_ms c) (mc_metrics_enabled c) (mc_status_code_class c)
    (mc_export_protocol c) (mc_shm_zone c) (mc_control_shm_zone c) v0 (mc_spans_shm_zone c)
    (mc_n_active_workers c) (mc_any_log_export c) (mc_error_log_enabled c) (mc_error_log_level
    c) (mc_error_log_coalesce c) (mc_route_table c) (mc_n_routes c) (mc_upstream_table c)
    (mc_n_upstreams c) (mc_resolver c) (mc_resolver_timeout c) (mc_cert_table c).
Definition set_spans_shm_zone (v0 : option shm_zone) (c : main_config) : main_config :=
    mk_main (mc_exporter c) (mc_service_name c) (mc_resource_attrs c) (mc_exporter_headers c)
    (mc_metric_interval_ms c) (mc_metrics_enabled c) (mc_status_code_class c)
    (mc_export_protocol c) (mc_shm_zone c) (mc_control_shm_zone c) (mc_logs_shm_zone c) v0
    (mc_n_active_workers c) (mc_any_log_export c) (mc_error_log_enabled c) (mc_error_log_level
    c) (mc_error_log_coalesce c) (mc_route_table c) (mc_n_routes c) (mc_upstream_table c)
    (mc_n_upstreams c) (mc_resolver c) (mc_resolver_timeout c) (mc_cert_table c).
Definition set_n_active_workers (v0 : Z) (c : main_config) : main_config :=
    mk_main (mc_exporter c) (mc_service_name c) (mc_resource_attrs c) (mc_exporter_headers c)
    (mc_metric_interval_ms c) (mc_metrics_enabled c) (mc_status_code_class c)
    (mc_export_protocol c) (mc_shm_zone c) (mc_control_shm_zone c) (mc_logs_shm_zone c)
    (mc_spans_shm_zone c) v0 (mc_any_log_export c) (mc_error_log_enabled c) (mc_error_log_level
    c) (mc_error_log_coalesce c) (mc_route_table c) (mc_n_routes c) (mc_upstream_table c)
    (mc_n_upstreams c) (mc_resolver c) (mc_resolver_timeout c) (mc_cert_table c).
Definition set_any_log_export (v0 : bool) (c : main_config) : main_config :=
    mk_main (mc_exporter c) (mc_service_name c) (mc_resource_attrs c) (mc_exporter_headers c)
    (mc_metric_interval_ms c) (mc_metrics_enabled c) (mc_status_code_class c)
    (mc_export_protocol c) (mc_shm_zone c) (mc_control_shm_zone c) (mc_logs_shm_zone c)
    (mc_spans_shm_zone c) (mc_n_active_workers c) v0 (mc_error_log_enabled c)
    (mc_error_log_level c) (mc_error_log_coalesce c) (mc_route_table c) (mc_n_routes c)
    (mc_upstream_table c) (mc_n_upstreams c) (mc_resolver c) (mc_resolver_timeout c)
    (mc_cert_table c).
Definition set_error_log (v0 : bool) (v1 : Z) (c : main_config) : main_config :=
    mk_main (mc_exporter c) (mc_service_name c) (mc_resource_attrs c) (mc_exporter_headers c)
    (mc_metric_interval_ms c) (mc_metrics_enabled c) (mc_status_code_class c)
    (mc_export_protocol c) (mc_shm_zone c) (mc_control_shm_zone c) (mc_logs_shm_zone c)
    (mc_spans_shm_zone c) (mc_n_active_workers c) (mc_any_log_export c) v0 v1
    (mc_error_log_coalesce c) (mc_route_table c) (mc_n_routes c) (mc_upstream_table c)
    (mc_n_upstreams c) (mc_resolver c) (mc_resolver_timeout c) (mc_cert_table c).
Definition set_error_log_coalesce (v0 : bool) (c : main_config) : main_config :=
    mk_main (mc_exporter c) (mc_service_name c) (mc_resource_attrs c) (mc_exporter_headers c)
    (mc_metric_interval_ms c) (mc_metrics_enabled c) (mc_status_code_class c)
    (mc_export_protocol c) (mc_shm_zone c) (mc_control_shm_zone c) (mc_logs_shm_zone c)
    (mc_spans_shm_zone c) (mc_n_active_workers c) (mc_any_log_export c) (mc_error_log_enabled c)
    (mc_error_log_level c) v0 (mc_route_table c) (mc_n_routes c) (mc_upstream_table c)
    (mc_n_upstreams c) (mc_resolver c) (mc_resolver_timeout c) (mc_cert_table c).
Definition set_routes (v0 : list table_entry) (v1 : Z) (c : main_config) : main_config :=
    mk_main (mc_exporter c) (mc_service_name c) (mc_resource_attrs c) (mc_exporter_headers c)
    (mc_metric_interval_ms c) (mc_metrics_enabled c) (mc_status_code_class c)
    (mc_export_protocol c) (mc_shm_zone c) (mc_control_shm_zone c) (mc_logs_shm_zone c)
    (mc_spans_shm_zone c) (mc_n_active_workers c) (mc_any_log_export c) (mc_error_log_enabled c)
    (mc_error_log_level c) (mc_error_log_coalesce c) v0 v1 (mc_upstream_table c) (mc_n_upstreams
    c) (mc_resolver c) (mc_resolver_timeout c) (mc_cert_table c).
Definition set_upstreams (v0 : list table_entry) (v1 : Z) (c : main_config) : main_config :=
    mk_main (mc_exporter c) (mc_service_name c) (mc_resource_attrs c) (mc_exporter_headers c)
    (mc_metric_interval_ms c) (mc_metrics_enabled c) (mc_status_code_class c)
    (mc_export_protocol c) (mc_shm_zone c) (mc_control_shm_zone c) (mc_logs_shm_zone c)
    (mc_spans_shm_zone c) (mc_n_active_workers c) (mc_any_log_export c) (mc_error_log_enabled c)
    (mc_error_log_level c) (mc_error_log_coalesce c) (mc_route_table c) (mc_n_routes c) v0 v1
    (mc_resolver c) (mc_resolver_timeout c) (mc_cert_table c).
Definition set_resolver (v0 : option Z) (v1 : Z) (c : main_config) : main_config :=
    mk_main (mc_exporter c) (mc_service_name c) (mc_resource_attrs c) (mc_exporter_headers c)
    (mc_metric_interval_ms c) (mc_metrics_enabled c) (mc_status_code_class c)
    (mc_export_protocol c) (mc_shm_zone c) (mc_control_shm_zone c) (mc_logs_shm_zone c)
    (mc_spans_shm_zone c) (mc_n_active_workers c) (mc_any_log_export c) (mc_error_log_enabled c)
    (mc_error_log_level c) (mc_error_log_coalesce c) (mc_route_table c) (mc_n_routes c)
    (mc_upstream_table c) (mc_n_upstreams c) v0 v1 (mc_cert_table c).
Definition set_cert_table (v0 : list cert_info) (c : main_config) : main_config :=
    mk_main (mc_exporter c) (mc_service_name c) (mc_resource_attrs c) (mc_exporter_headers c)
    (mc_metric_interval_ms c) (mc_metrics_enabled c) (mc_status_code_class c)
    (mc_export_protocol c) (mc_shm_zone c) (mc_control_shm_zone c) (mc_logs_shm_zone c)
    (mc_spans_shm_zone c) (mc_n_active_workers c) (mc_any_log_export c) (mc_error_log_enabled c)
    (mc_error_log_level c) (mc_error_log_coalesce c) (mc_route_table c) (mc_n_routes c)
    (mc_upstream_table c) (mc_n_upstreams c) (mc_resolver c) (mc_resolver_timeout c) v0.
(** ** Accessors *)

(** [src/src/config/mod.rs: MainConfig::is_configured] *)
Definition is_configured (c : main_config) : bool := is_set (mc_exporter c).
(** [src/src/config/mod.rs: MainConfig::interval_ms] *)
Definition interval_ms (c : main_config) : Z :=
  if mc_metric_interval_ms c =? UNSET_U64 then DEFAULT_INTERVAL_MS else mc_metric_interval_ms c.
(** [src/src/config/mod.rs: MainConfig::retry_buffer_depth] *)
Definition retry_buffer_depth (c : main_config) : Z := DEFAULT_RETRY_BUFFER_DEPTH.
(** [src/src/config/mod.rs: MainConfig::metrics_enabled] *)
Definition metrics_enabled (c : main_config) : bool := negb (mc_metrics_enabled c =? 0).
(** [src/src/config/mod.rs: MainConfig::status_code_class_enabled] *)
Definition status_code_class_enabled (c : main_config) : bool := negb (mc_status_code_class c =? 0).
(** [src/src/config/mod.rs: MainConfig::export_protocol] *)
Definition effective_protocol (c : main_config) : export_protocol := default OtlpHttp (mc_export_protocol c).
(** [src/src/config/mod.rs: MainConfig::any_log_export_enabled] *)
Definition any_log_export_enabled (c : main_config) : bool := mc_any_log_export c.
(** [src/src/config/mod.rs: MainConfig::log_ring_cap] *)
Definition log_ring_cap (c : main_config) : Z := DEFAULT_LOG_RING_CAP.

(** *** Lookup tables *)

(** The first of the [n] filled entries with that pointer.
    [src/src/config/mod.rs: 1045-1050 MainConfig::route_idx_for_clcf] *)
Fixpoint find_ptr (l : list table_entry) (i ptr other : Z) : Z :=
  match l with
  | [] => other
  | e :: l' => if te_ptr e =? ptr then i else find_ptr l' (i + 1) ptr other
  end.

Definition routes (c : main_config) : list table_entry := take (Z.to_nat (mc_n_routes c)) (mc_route_table c).
Definition upstreams (c : main_config) : list table_entry :=
  take (Z.to_nat (mc_n_upstreams c)) (mc_upstream_table c).

(** [src/src/config/mod.rs: MainConfig::route_idx_for_clcf] *)
Definition route_idx_for_clcf (c : main_config) (clcf_ptr : Z) : Z :=
  if clcf_ptr =? 0 then ROUTE_CAP else find_ptr (routes c) 0 clcf_ptr ROUTE_CAP.

(** [src/src/config/mod.rs: MainConfig::upstream_idx_for_zone] *)
Definition upstream_idx_for_zone (c : main_config) (shm_zone_ptr : Z) : Z :=
  if shm_zone_ptr =? 0 then UPSTREAM_IDX_OTHER else find_ptr (upstreams c) 0 shm_zone_ptr UPSTREAM_IDX_OTHER.

Definition entry_at (l : list table_entry) (i : Z) : table_entry := nth (Z.to_nat i) l (mk_te 0 [] 0).

(** [src/src/config/mod.rs: MainConfig::route_name] *)
Definition route_name (c : main_config) (route_idx : Z) : list Z :=
  if route_idx =? ROUTE_CAP then $"(other)"
  else if route_idx <? mc_n_routes c then name_str (entry_at (mc_route_table c) route_idx)
  else $"(other)".

(** [src/src/config/mod.rs: MainConfig::upstream_zone_name] *)
Definition upstream_zone_name (c : main_config) (upstream_idx : Z) : list Z :=
  if upstream_idx =? UPSTREAM_IDX_OTHER then $"(other)"
  else if upstream_idx <? mc_n_upstreams c then name_str (entry_at (mc_upstream_table c) upstream_idx)
  else $"(other)".

(** A new entry: pointer, length and the copied prefix of the name.
    [src/src/config/mod.rs: 1212-1223 MainConfig::try_register_route] *)
Definition fill_entry (name_max : Z) (e : table_entry) (ptr : Z) (name : list Z) : table_entry :=
  let len := Z.min (blen name) name_max in
  mk_te ptr
    (if 0 <? len then take (Z.to_nat len) name ++ drop (Z.to_nat len) (te_name e) else te_name e)
    (u8 len).

(** [ngx_http_core_loc_conf_t]: its address and its location name. *)
Record clcf := mk_clcf { clcf_ptr : Z; clcf_name : list Z }.

(** [src/src/config/mod.rs: MainConfig::try_register_route] *)
Definition try_register_route (c : main_config) (l : clcf) : main_config :=
  if existsb (fun e => te_ptr e =? clcf_ptr l) (routes c) then c
  else if ROUTE_CAP <=? mc_n_routes c then c
  else
    let idx := Z.to_nat (mc_n_routes c) in
    set_routes (alter (fun e => fill_entry ROUTE_NAME_MAX e (clcf_ptr l) (clcf_name l)) idx (mc_route_table c))
      (mc_n_routes c + 1) c.

(** [ngx_http_location_tree_node_t] *)
Inductive location_tree :=
  | TNull
  | TNode (exact inclusive : option clcf) (tree left right : location_tree).

Definition clcf_opt_ptr (o : option clcf) : Z := match o with Some l => clcf_ptr l | None => 0 end.

(** [src/src/config/mod.rs: MainConfig::walk_location_tree] *)
Fixpoint walk_location_tree (c : main_config) (node : location_tree) : main_config :=
  match node with
  | TNull => c
  | TNode exact inclusive tree lt rt =>
      let c := match exact with Some l => try_register_route c l | None => c end in
      let c := match inclusive with
               | Some l => if clcf_ptr l =? clcf_opt_ptr exact then c else try_register_route c l
               | None => c
               end in
      let c := walk_location_tree c tree in
      let c := walk_location_tree c lt in
      walk_location_tree c rt
  end.

(** The static location trees of the server blocks that have one.
    [src/src/config/mod.rs: MainConfig::build_route_table] *)
Definition build_route_table (c : main_config) (servers : list location_tree) : main_config :=
  foldl walk_location_tree c servers.

(** The upstream blocks with a zone: its address and name.  The loop stops at
    the first unregistered zone beyond the capacity.
    [src/src/config/mod.rs: MainConfig::build_upstream_table] *)
Fixpoint build_upstream_table (c : main_config) (zones : list (Z * list Z)) : main_config :=
  match zones with
  | [] => c
  | (zone_ptr, name) :: zones' =>
      if existsb (fun e => te_ptr e =? zone_ptr) (upstreams c) then build_upstream_table c zones'
      else if UPSTREAM_CAP <=? mc_n_upstreams c then c
      else
        let idx := Z.to_nat (mc_n_upstreams c) in
        build_upstream_table
          (set_upstreams (alter (fun e => fill_entry UPSTREAM_NAME_MAX e zone_ptr name) idx (mc_upstream_table c))
             (mc_n_upstreams c + 1) c) zones'
  end.

(** ** Worker capacity *)

Section zones.
(** [size_of::<ngx_slab_pool_t>()] *)
Context (data_offset : Z).

Definition zone_base (z : option shm_zone) : option Z :=
  zone ← z; if z_addr zone =? 0 then None else Some (z_addr zone + data_offset).

(** [src/src/config/mod.rs: MainConfig::shm_base] *)
Definition shm_base (c : main_config) : option Z := zone_base (mc_shm_zone c).
(** [src/src/config/mod.rs: MainConfig::logs_shm_base] *)
Definition logs_shm_base (c : main_config) : option Z := zone_base (mc_logs_shm_zone c).
(** [src/src/config/mod.rs: MainConfig::spans_shm_base] *)
Definition spans_shm_base (c : main_config) : option Z := zone_base (mc_spans_shm_zone c).
(** [src/src/config/mod.rs: MainConfig::control_shm_ptr] *)
Definition control_shm_ptr (c : main_config) : option Z := zone_base (mc_control_shm_zone c).

(** [checked_div(slot).unwrap_or(0)] of the bytes behind the slab header. *)
Definition slots_in (size slot unknown : Z) : Z :=
  if slot =? 0 then unknown else sat_sub size data_offset / slot.

(** [src/src/config/mod.rs: MainConfig::shm_n_workers] *)
Definition shm_n_workers (c : main_config) : Z :=
  match mc_shm_zone c with Some z => n_workers_from_zone_size data_offset (z_size z) | None => 0 end.
(** [src/src/config/mod.rs: MainConfig::logs_n_workers] *)
Definition logs_n_workers (c : main_config) : Z :=
  match mc_logs_shm_zone c with
  | Some z => slots_in (z_size z) (logs_slot_size (log_ring_cap c)) 0
  | None => 0
  end.
(** [src/src/config/mod.rs: MainConfig::spans_n_workers] *)
Definition spans_n_workers (c : main_config) : Z :=
  match mc_spans_shm_zone c with
  | Some z => slots_in (z_size z) (spans_slot_size DEFAULT_SPAN_RING_CAP) 0
  | None => 0
  end.

(** [src/src/config/mod.rs: min_indexed_worker_capacity] *)
Definition min_capacity (metrics logs spans : Z) : Z :=
  let cap := u64_max in
  let cap := if 0 <? metrics then Z.min cap metrics else cap in
  let cap := if 0 <? logs then Z.min cap logs else cap in
  let cap := if 0 <? spans then Z.min cap spans else cap in
  if cap =? u64_max then 0 else cap.

(** [src/src/config/mod.rs: MainConfig::min_indexed_worker_capacity] *)
Definition min_indexed_worker_capacity (c : main_config) : Z :=
  min_capacity (shm_n_workers c) (logs_n_workers c) (spans_n_workers c).

(** ** Finalisation *)

(** [src/src/config/mod.rs: n_workers_from_cf] on the raw [worker_processes]. *)
Definition n_workers_from_cf (wp : option Z) : option Z :=
  w ← wp; if w <? 1 then None else Some w.

(** [src/src/config/mod.rs: n_workers_to_reserve] *)
Definition n_workers_to_reserve (wp : option Z) (ncpu : Z) : Z :=
  match n_workers_from_cf wp with
  | Some w => w
  | None => if 0 <? ncpu then ncpu else 1
  end.

End zones.

(** ** The lookup tables are injective *)

(** What a table shows of an entry: the pointer and the stored name. *)
Definition view (e : table_entry) : Z * list Z := (te_ptr e, take (Z.to_nat (te_name_len e)) (te_name e)).

(** Registration on the list of what is registered. *)
Definition register (cap name_max : Z) (acc : list (Z * list Z)) (x : Z * list Z) : list (Z * list Z) :=
  if existsb (fun y => fst y =? fst x) acc then acc
  else if cap <=? Z.of_nat (length acc) then acc
  else acc ++ [(fst x, take (Z.to_nat name_max) (snd x))].

(** The array representation: [n] entries are filled, names have the array's length. *)
Definition table_ok (cap name_max : Z) (tbl : list table_entry) (n : Z) : Prop :=
  length tbl = Z.to_nat cap /\ 0 <= n <= cap /\ Forall (fun e => length (te_name e) = Z.to_nat name_max) tbl.

Definition filled (tbl : list table_entry) (n : Z) : list (Z * list Z) := map view (take (Z.to_nat n) tbl).

Lemma fill_entry_view name_max e p name : 0 <= name_max < 256 -> length (te_name e) = Z.to_nat name_max ->
  view (fill_entry name_max e p name) = (p, take (Z.to_nat name_max) name) /\
  length (te_name (fill_entry name_max e p name)) = Z.to_nat name_max.
Proof.
  intros Hm Hl. unfold fill_entry, view. cbn [te_ptr te_name te_name_len]. pose proof (blen_nonneg name) as Hb.
  rewrite wrap_small by (unfold in_u; lia). destruct (0 <? Z.min (blen name) name_max) eqn:E; zify_bool.
  - split.
    + f_equal. rewrite take_app_le by (rewrite length_take; unfold blen in *; lia). rewrite take_take.
      unfold blen in *. destruct (Z.le_gt_cases (Z.of_nat (length name)) name_max).
      * rewrite !take_ge by lia. reflexivity.
      * f_equal. lia.
    + rewrite length_app, length_take, length_drop. unfold blen in *. lia.
  - split; [|exact Hl]. f_equal. unfold blen in *. replace (Z.min _ _) with 0 by lia. cbn.
    destruct (Z.eq_dec name_max 0) as [->|]; [reflexivity|]. destruct name; [symmetry; apply take_nil|cbn in *; lia].
Qed.

(** Filling the next entry of the array appends to the list. *)
Lemma fill_next cap name_max tbl n p name :
  0 <= name_max < 256 -> table_ok cap name_max tbl n -> n < cap ->
  let tbl' := alter (fun e => fill_entry name_max e p name) (Z.to_nat n) tbl in
  table_ok cap name_max tbl' (n + 1) /\
  filled tbl' (n + 1) = filled tbl n ++ [(p, take (Z.to_nat name_max) name)].
Proof.
  intros Hm (Hl & Hn & HF) Hlt. cbv zeta.
  destruct (lookup_lt_is_Some_2 tbl (Z.to_nat n)) as [e He]; [lia|].
  pose proof (proj1 (Forall_lookup _ _) HF _ _ He) as Hle. cbv beta in Hle.
  destruct (fill_entry_view name_max e p name Hm Hle) as [Hv Hl']. split.
  - split; [rewrite length_alter; exact Hl|]. split; [lia|].
    apply Forall_alter; [exact HF|]. intros e' He' _. congruence.
  - unfold filled. replace (Z.to_nat (n + 1)) with (S (Z.to_nat n)) by lia.
    rewrite (take_S_r _ _ (fill_entry name_max e p name)) by (rewrite list_lookup_alter_eq, He; reflexivity).
    rewrite map_app, take_alter. cbn. rewrite Hv. rewrite decide_False by lia. reflexivity.
Qed.

Lemma filled_length cap name_max tbl n : table_ok cap name_max tbl n -> Z.of_nat (length (filled tbl n)) = n.
Proof. intros (Hl & Hn & _). unfold filled. rewrite length_map, length_take. lia. Qed.

Lemma existsb_filled tbl n p :
  existsb (fun e => te_ptr e =? p) (take (Z.to_nat n) tbl) = existsb (fun y => fst y =? p) (filled tbl n).
Proof. unfold filled. induction (take (Z.to_nat n) tbl) as [|e l IH]; cbn; [reflexivity|]. rewrite IH. reflexivity. Qed.

Definition routes_ok (c : main_config) : Prop := table_ok ROUTE_CAP ROUTE_NAME_MAX (mc_route_table c) (mc_n_routes c).
Definition route_view (c : main_config) : list (Z * list Z) := filled (mc_route_table c) (mc_n_routes c).
Definition loc_key (l : clcf) : Z * list Z := (clcf_ptr l, clcf_name l).

Lemma try_register_spec c l : routes_ok c ->
  routes_ok (try_register_route c l) /\
  route_view (try_register_route c l) = register ROUTE_CAP ROUTE_NAME_MAX (route_view c) (loc_key l).
Proof.
  intros Hok. unfold try_register_route, register, route_view, routes. rewrite existsb_filled.
  rewrite (filled_length _ _ _ _ Hok). cbn [loc_key fst snd].
  destruct (existsb _ _); [auto|]. case_if; [auto|].
  destruct (fill_next ROUTE_CAP ROUTE_NAME_MAX _ _ (clcf_ptr l) (clcf_name l) ltac:(unfold ROUTE_NAME_MAX; lia) Hok) as [H1 H2];
    [assumption|]. split; [exact H1|exact H2].
Qed.

(** The locations of a tree in the order of the walk. *)
Fixpoint tree_locations (t : location_tree) : list clcf :=
  match t with
  | TNull => []
  | TNode ex inc tree lt rt =>
      match ex with Some l => [l] | None => [] end ++
      match inc with Some l => if clcf_ptr l =? clcf_opt_ptr ex then [] else [l] | None => [] end ++
      tree_locations tree ++ tree_locations lt ++ tree_locations rt
  end.

Lemma walk_spec t : forall c, routes_ok c ->
  routes_ok (walk_location_tree c t) /\
  route_view (walk_location_tree c t)
    = foldl (register ROUTE_CAP ROUTE_NAME_MAX) (route_view c) (map loc_key (tree_locations t)).
Proof.
  induction t as [|ex inc t IHt lt IHl rt IHr]; intros c Hc; cbn [walk_location_tree tree_locations]; [auto|].
  rewrite !map_app, !foldl_app.
  set (c1 := match ex with Some l => try_register_route c l | None => c end).
  assert (H1 : routes_ok c1 /\ route_view c1 = foldl (register ROUTE_CAP ROUTE_NAME_MAX) (route_view c)
                 (map loc_key match ex with Some l => [l] | None => [] end))
    by (unfold c1; destruct ex; [apply try_register_spec, Hc|auto]).
  destruct H1 as [Hc1 <-].
  set (c2 := match inc with Some l => if clcf_ptr l =? clcf_opt_ptr ex then c1 else try_register_route c1 l | None => c1 end).
  assert (H2 : routes_ok c2 /\ route_view c2 = foldl (register ROUTE_CAP ROUTE_NAME_MAX) (route_view c1)
                 (map loc_key match inc with Some l => if clcf_ptr l =? clcf_opt_ptr ex then [] else [l] | None => [] end))
    by (unfold c2; destruct inc as [l|]; [case_if; [auto|apply try_register_spec, Hc1]|auto]).
  destruct H2 as [Hc2 <-].
  destruct (IHt c2 Hc2) as [H3 <-]. destruct (IHl _ H3) as [H4 <-]. destruct (IHr _ H4) as [H5 <-]. auto.
Qed.

Lemma build_routes_spec servers c : routes_ok c ->
  routes_ok (build_route_table c servers) /\
  route_view (build_route_table c servers)
    = foldl (register ROUTE_CAP ROUTE_NAME_MAX) (route_view c) (map loc_key (concat (map tree_locations servers))).
Proof.
  unfold build_route_table. revert c. induction servers as [|t servers IH]; intros c Hc; cbn; [auto|].
  destruct (walk_spec t c Hc) as [H1 H2]. rewrite map_app, foldl_app, <- H2. apply IH, H1.
Qed.

Definition upstreams_ok (c : main_config) : Prop :=
  table_ok UPSTREAM_CAP UPSTREAM_NAME_MAX (mc_upstream_table c) (mc_n_upstreams c).
Definition upstream_view (c : main_config) : list (Z * list Z) := filled (mc_upstream_table c) (mc_n_upstreams c).

(** Once a table is full nothing more is registered. *)
Lemma register_full cap m acc l : cap <= Z.of_nat (length acc) -> foldl (register cap m) acc l = acc.
Proof.
  intros Hf. induction l as [|x l IH]; cbn; [reflexivity|].
  replace (register cap m acc x) with acc; [exact IH|]. unfold register.
  destruct (existsb _ _); [reflexivity|]. case_if; [reflexivity|lia].
Qed.

Lemma build_upstreams_spec zones : forall c, upstreams_ok c ->
  upstreams_ok (build_upstream_table c zones) /\
  upstream_view (build_upstream_table c zones)
    = foldl (register UPSTREAM_CAP UPSTREAM_NAME_MAX) (upstream_view c) zones.
Proof.
  induction zones as [|[p name] zones IH]; intros c Hc; cbn [build_upstream_table foldl]; [auto|].
  unfold upstreams. rewrite existsb_filled.
  change (filled (mc_upstream_table c) (mc_n_upstreams c)) with (upstream_view c).
  pose proof (filled_length _ _ _ _ Hc) as Hlen. fold (upstream_view c) in Hlen.
  unfold register at 2. cbn [fst snd]. destruct (existsb _ _); [apply IH, Hc|]. rewrite Hlen.
  case_if; [rewrite register_full by lia; auto|].
  destruct (fill_next UPSTREAM_CAP UPSTREAM_NAME_MAX _ _ p name ltac:(unfold UPSTREAM_NAME_MAX; lia) Hc) as [H1 H2];
    [assumption|]. change (upstream_view c) with (filled (mc_upstream_table c) (mc_n_upstreams c)).
  rewrite <- H2. apply (IH (set_upstreams _ _ c) H1).
Qed.

(** *** Properties of the registered list *)

Lemma existsb_ptr acc p : existsb (fun y : Z * list Z => fst y =? p) acc = true <-> In p (map fst acc).
Proof.
  rewrite existsb_exists, in_map_iff. split; intros (y & H1 & H2); exists y; rewrite ?Z.eqb_eq in *; auto.
Qed.

(** Pointers stay distinct, every name is a registered one's, and a pointer
    is missing only from a full table. *)
Lemma register_props cap m l : 0 <= cap ->
  let acc := foldl (register cap m) [] l in
  NoDup (map fst acc) /\ Z.of_nat (length acc) <= cap /\
  (forall y, In y acc -> exists x, In x l /\ y = (fst x, take (Z.to_nat m) (snd x))) /\
  (forall x, In x l -> In (fst x) (map fst acc) \/ Z.of_nat (length acc) = cap).
Proof.
  intros Hcap. induction l as [|x l IH] using rev_ind; cbv zeta in *.
  - cbn. split_and!; [constructor|lia|contradiction|contradiction].
  - rewrite foldl_app. cbn [foldl]. set (acc := foldl _ _ l) in *. destruct IH as (H1 & H2 & H3 & H4).
    unfold register. destruct (existsb _ acc) eqn:E.
    { apply existsb_ptr in E. split_and!; auto.
      - intros y Hy. destruct (H3 y Hy) as (z & Hz & ->). exists z. rewrite in_app_iff. auto.
      - intros z. rewrite in_app_iff. intros [Hz|[<-|[]]]; auto. }
    case_if.
    { split_and!; auto.
      - intros y Hy. destruct (H3 y Hy) as (z & Hz & ->). exists z. rewrite in_app_iff. auto.
      - intros z _. right. lia. }
    assert (Hx : ~ In (fst x) (map fst acc)) by (rewrite <- existsb_ptr; congruence).
    rewrite map_app, length_app. cbn [map fst snd length]. split_and!.
    + apply list.NoDup_app. split; [exact H1|]. split; [|apply NoDup_singleton].
      intros p Hp Hq. apply list_elem_of_In in Hp. apply list_elem_of_singleton in Hq. subst. auto.
    + lia.
    + intros y. rewrite in_app_iff. intros [Hy|[<-|[]]].
      * destruct (H3 y Hy) as (z & Hz & ->). exists z. rewrite in_app_iff. auto.
      * exists x. rewrite in_app_iff. simpl. auto.
    + intros z. rewrite !in_app_iff. intros [Hz|[<-|[]]]; [|left; right; left; reflexivity].
      destruct (H4 z Hz) as [?|?]; [auto|lia].
Qed.

Lemma find_ptr_spec l p other : forall i,
  (exists k e, find_ptr l i p other = i + Z.of_nat k /\ l !! k = Some e /\ te_ptr e = p) \/
  (find_ptr l i p other = other /\ ~ In p (map te_ptr l)).
Proof.
  induction l as [|e l IH]; intros i; cbn [find_ptr]; [right; auto|].
  destruct (te_ptr e =? p) eqn:E; zify_bool.
  - left. exists O, e. split_and!; [lia|reflexivity|exact E].
  - destruct (IH (i + 1)) as [(k & e' & H1 & H2 & H3)|[H1 H2]].
    + left. exists (S k), e'. split_and!; [lia|exact H2|exact H3].
    + right. split; [exact H1|]. intros [?|?]; auto.
Qed.

(** A lookup in a filled table finds exactly the registered pointers. *)
Lemma find_in_table cap m tbl n p other : table_ok cap m tbl n ->
  (exists k name, find_ptr (take (Z.to_nat n) tbl) 0 p other = Z.of_nat k /\ Z.of_nat k < n /\
     filled tbl n !! k = Some (p, name) /\ name_str (nth k tbl (mk_te 0 [] 0)) = default $"(invalid)" (from_utf8 name)) \/
  (find_ptr (take (Z.to_nat n) tbl) 0 p other = other /\ ~ In p (map fst (filled tbl n))).
Proof.
  intros (Hl & Hn & _). destruct (find_ptr_spec (take (Z.to_nat n) tbl) p other 0) as [(k & e & H1 & H2 & H3)|[H1 H2]].
  - left. exists k, (take (Z.to_nat (te_name_len e)) (te_name e)).
    pose proof (lookup_lt_Some _ _ _ H2) as Hk. rewrite length_take in Hk.
    rewrite lookup_take_lt in H2 by lia. split_and!; [rewrite H1; lia|lia| |].
    + unfold filled. rewrite <- firstn_map, lookup_take_lt by lia.
      change (map view tbl) with (view <$> tbl). rewrite list_lookup_fmap, H2, <- H3. reflexivity.
    + rewrite (nth_lookup_Some _ _ _ _ H2). reflexivity.
  - right. split; [exact H1|]. unfold filled. rewrite map_map. exact H2.
Qed.

(** The contract of a lookup table filled from [l]: [idx] stays within the
    table and its overflow slot; the overflow slot is used for a member of
    [l] only when the table is full; below it an index belongs to one pointer
    and shows the first bytes of a name registered under that pointer. *)
Definition exact_table (cap name_max : Z) (idx : Z -> Z) (shown : Z -> list Z) (n : Z) (l : list (Z * list Z)) : Prop :=
  0 <= n <= cap /\
  (forall p, 0 <= idx p <= cap) /\
  (forall p q, idx p = idx q -> idx p < cap -> p = q) /\
  (forall p, idx p < cap -> idx p < n /\ exists name, In (p, name) l /\
     shown (idx p) = default $"(invalid)" (from_utf8 (take (Z.to_nat name_max) name))) /\
  (forall p name, In (p, name) l -> p <> 0 -> idx p < cap \/ n = cap) /\
  shown cap = $"(other)".

Lemma exact_from_registered cap m tbl n l :
  0 <= cap -> table_ok cap m tbl n -> filled tbl n = foldl (register cap m) [] l ->
  let idx p := if p =? 0 then cap else find_ptr (take (Z.to_nat n) tbl) 0 p cap in
  let shown i := if i =? cap then $"(other)" else if i <? n then name_str (entry_at tbl i) else $"(other)" in
  exact_table cap m idx shown n l.
Proof.
  intros Hcap Hok Hf idx shown. pose proof Hok as (_ & Hn & _).
  destruct (register_props cap m l Hcap) as (_ & Hlen & Hin & Hfull). rewrite <- Hf in *.
  rewrite (filled_length _ _ _ _ Hok) in *.
  assert (Hcase : forall p,
    (exists k name, idx p = Z.of_nat k /\ Z.of_nat k < n /\ filled tbl n !! k = Some (p, name) /\
       shown (idx p) = default $"(invalid)" (from_utf8 name)) \/
    (idx p = cap /\ (p <> 0 -> ~ In p (map fst (filled tbl n))))).
  { intros p. unfold idx. case_if; [right; split; [reflexivity|lia]|].
    destruct (find_in_table cap m tbl n p cap Hok) as [(k & nm & H1 & H2 & H3 & H4)|[H1 H2]]; [left|right; auto].
    exists k, nm. split_and!; try assumption. rewrite H1. unfold shown, entry_at. rewrite Nat2Z.id, H4.
    case_if; [lia|]. case_if; [reflexivity|lia]. }
  split_and!; try lia.
  - intros p. destruct (Hcase p) as [(k & nm & -> & H & _)|[-> _]]; lia.
  - intros p q Hpq Hp. destruct (Hcase p) as [(k & nm & E & _ & H & _)|[E _]]; [|lia].
    destruct (Hcase q) as [(k' & nm' & E' & _ & H' & _)|[E' _]]; [|lia].
    assert (k = k') as -> by lia. congruence.
  - intros p Hp. destruct (Hcase p) as [(k & nm & E & Hk & H & Hs)|[E _]]; [|lia]. split; [lia|].
    apply list_elem_of_lookup_2, list_elem_of_In in H. destruct (Hin _ H) as ([p' name] & Hl & Heq).
    cbn [fst snd] in Heq. injection Heq as -> ->. exists name. auto.
  - intros p name Hpn Hp. destruct (Hcase p) as [(k & nm & E & Hk & _)|[E Hno]]; [left; lia|].
    destruct (Hfull _ Hpn) as [Hi|?]; [destruct (Hno Hp Hi)|right; assumption].
  - unfold shown. rewrite Z.eqb_refl. reflexivity.
Qed.

(** Filling a table leaves the rest of the configuration alone. *)
Section frame.
Context {A : Type} (f : main_config -> A).

Lemma build_routes_frame (Hf : forall t n c, f (set_routes t n c) = f c) servers c :
  f (build_route_table c servers) = f c.
Proof.
  assert (Hr : forall c l, f (try_register_route c l) = f c)
    by (intros c' l; unfold try_register_route; repeat case_if; auto).
  assert (Hw : forall t c, f (walk_location_tree c t) = f c).
  { induction t as [|ex inc t IHt lt IHl rt IHr]; intros c'; cbn [walk_location_tree]; [auto|].
    rewrite IHr, IHl, IHt. destruct inc; [case_if|]; destruct ex; rewrite ?Hr; auto. }
  unfold build_route_table. revert c. induction servers as [|t l IH]; intros c; cbn; [auto|]. rewrite IH. apply Hw.
Qed.

Lemma build_upstreams_frame (Hf : forall t n c, f (set_upstreams t n c) = f c) zones : forall c,
  f (build_upstream_table c zones) = f c.
Proof.
  induction zones as [|[p name] zones IH]; intros c; cbn [build_upstream_table]; [auto|].
  case_if; [apply IH|]. case_if; [auto|]. rewrite IH. apply Hf.
Qed.
End frame.

Lemma empty_names_ok cap m : 0 <= cap -> table_ok cap m (replicate (Z.to_nat cap) (empty_entry m)) 0.
Proof.
  intros H. split; [apply length_replicate|]. split; [lia|]. apply Forall_replicate. apply length_replicate.
Qed.

(**  After the finalisation has filled the tables, a request
    resolves its location and its upstream to an index inside the histogram
    arrays (one overflow slot included); two different locations or upstreams
    share an index only in the overflow slot; a configured one lands in the
    overflow slot only when the table is full; and the name exported for an index
    is the (truncated) name registered for that very location or upstream. *)
Theorem lookup_tables_exact servers zones (c := build_upstream_table (build_route_table main_default servers) zones) :
  exact_table ROUTE_CAP ROUTE_NAME_MAX (route_idx_for_clcf c) (route_name c) (mc_n_routes c)
    (map loc_key (concat (map tree_locations servers))) /\
  exact_table UPSTREAM_CAP UPSTREAM_NAME_MAX (upstream_idx_for_zone c) (upstream_zone_name c) (mc_n_upstreams c) zones.
Proof.
  set (c1 := build_route_table main_default servers) in *.
  destruct (build_routes_spec servers main_default) as [Hr Er];
    [exact (empty_names_ok ROUTE_CAP ROUTE_NAME_MAX ltac:(vm_compute; discriminate))|]. fold c1 in Hr, Er.
  pose proof (build_routes_frame mc_upstream_table ltac:(reflexivity) servers main_default) as F1.
  pose proof (build_routes_frame mc_n_upstreams ltac:(reflexivity) servers main_default) as F2. fold c1 in F1, F2.
  pose proof (build_upstreams_frame mc_route_table ltac:(reflexivity) zones c1) as G1.
  pose proof (build_upstreams_frame mc_n_routes ltac:(reflexivity) zones c1) as G2.
  assert (Hu0 : upstreams_ok c1) by (unfold upstreams_ok; rewrite F1, F2;
    exact (empty_names_ok UPSTREAM_CAP UPSTREAM_NAME_MAX ltac:(vm_compute; discriminate))).
  destruct (build_upstreams_spec zones c1 Hu0) as [Hu Eu]. fold c in Hu, Eu, G1, G2. split.
  - unfold route_idx_for_clcf, route_name, routes. rewrite G1, G2.
    apply exact_from_registered; [vm_compute; discriminate|exact Hr|exact Er].
  - apply exact_from_registered; [vm_compute; discriminate|exact Hu|].
    unfold upstream_view in Eu. rewrite Eu, F1, F2. reflexivity.
Qed.
