(* ===== verification/ErrorLog.v ===== *)
(** * The error-log writer and its records (src/src/logs/error_writer.rs and the
    parser of src/src/drain/mod.rs)

    [ngx_otel_error_writer] is a node of nginx's log chain: it filters an error
    line, counts it in the error-rate metric, asks the coalescer what to do
    and pushes a verbatim record into the worker's error ring.  The exporter
    parses the record and joins it with the coalescer's counts. *)
From stdpp Require Import gmap.
From S2P Require Import Prelude Ring DataModel AccessLog Coalesce.

(** ** Wire format *)

(** [src/src/logs/error_writer.rs: KIND_ERROR] *)
Definition KIND_ERROR : Z := 1.
(** [src/src/logs/error_writer.rs: ERROR_RECORD_HDR] *)
Definition ERROR_RECORD_HDR : Z := 20.
(** [src/src/logs/error_writer.rs: MAX_ERROR_BODY_LEN] *)
Definition MAX_ERROR_BODY_LEN : Z := 512.

(** The slice [record[..HDR + body_len]] built by [push_error_record].
    [src/src/logs/error_writer.rs: 339-361 push_error_record] *)
Definition error_bytes (ts_ns ngx_level template_hash : Z) (body : list Z) : list Z :=
  let body_len := Z.min (blen body) MAX_ERROR_BODY_LEN in
  [KIND_ERROR] ++ be_bytes 8 ts_ns ++ [ngx_level] ++ be_bytes 8 template_hash ++
  be_bytes 2 (u16 body_len) ++ take (Z.to_nat body_len) body.

(** [src/src/logs/error_writer.rs: push_error_record] *)
Definition push_error_record (r : ring) (ts_ns ngx_level template_hash : Z) (body : list Z) : ring :=
  snd (push r (error_bytes ts_ns ngx_level template_hash body)).

(** The cached wall clock of nginx: seconds and milliseconds, or a null pointer.
    [src/src/logs/error_writer.rs: cached_unix_nanos] *)
Definition cached_unix_nanos (tp : option (Z * Z)) : Z :=
  match tp with
  | None => 0
  | Some (sec, msec) =>
      sat_add64 (sat_mul64 (u64 sec) 1000000000) (sat_mul64 (u64 msec) 1000000)
  end.

(** ** The writer *)

(** Number of classes of the error-rate metric and the class of a level.
    [src/src/shm/mod.rs: N_SEVERITY_CLASSES] *)
Definition N_SEVERITY_CLASSES : nat := 5.

(** [src/src/shm/mod.rs: severity_class_index] *)
Definition severity_class_index (ngx_level : Z) : nat :=
  match ngx_level with
  | 1 | 2 | 3 => 0%nat
  | 4 => 1%nat
  | 5 => 2%nat
  | 6 | 7 => 3%nat
  | 8 => 4%nat
  | _ => 0%nat
  end.

(** A null pointer of the state is [None]; the pointed-to table, ring and
    counters are the shared memory of this worker.
    [src/src/logs/error_writer.rs: OtelErrorWriterState] *)
Record writer_state := mk_ws {
  busy : bool;
  cleanup : bool;
  level_floor : Z;
  logs_zone : bool;
  coalesce_table : option (list slot);
  coalesce_enabled : bool;
  error_ring : option ring;
  error_rate : option (list Z)
}.

Definition set_shared (s : writer_state) (tbl : option (list slot)) (rng : option ring)
    (rate : option (list Z)) : writer_state :=
  mk_ws (busy s) (cleanup s) (level_floor s) (logs_zone s) tbl (coalesce_enabled s) rng rate.

(** Steps 4a and 5 of the writer, reached by every event that passes the
    guards: the metric bump, then the coalescer and the push.
    [src/src/logs/error_writer.rs: 245-251 ngx_otel_error_writer] *)
Definition bump_rate (rate : option (list Z)) (level : Z) : option (list Z) :=
  alter (fun c => c +w64 1) (severity_class_index (u8 level)) <$> rate.

(** [src/src/logs/error_writer.rs: 241-292 ngx_otel_error_writer] *)
Definition writer_body (s : writer_state) (now : option (Z * Z)) (level : Z) (buf : list Z)
    : writer_state :=
  let rate := bump_rate (error_rate s) level in
  match coalesce_table s with
  | None => set_shared s None (error_ring s) rate
  | Some tbl =>
      match coalesce tbl (u8 level) buf (coalesce_enabled s) with
      | Some (Coalesced, tbl') => set_shared s (Some tbl') (error_ring s) rate
      | Some (EmitVerbatim template_hash, tbl') =>
          set_shared s (Some tbl')
            ((fun r => push_error_record r (cached_unix_nanos now) (u8 level) template_hash buf)
               <$> error_ring s) rate
      | None => s
      end
  end.

(** [is_worker]: the process role is [NgxProcess::Worker].  The busy guard is
    released on every path that took it.
    [src/src/logs/error_writer.rs: ngx_otel_error_writer] *)
Definition ngx_otel_error_writer (is_worker : bool) (now : option (Z * Z)) (s : writer_state)
    (level : Z) (buf : list Z) : writer_state :=
  if cleanup s then s else
  if busy s then s else
  if level_floor s <? level then s else
  if negb is_worker || negb (logs_zone s) then s else
  writer_body s now level buf.

(** [src/src/logs/error_writer.rs: parse_error_log_level] *)
Definition parse_error_log_level (s : list Z) : option Z :=
  if bytes_eqb s $"emerg" then Some 1
  else if bytes_eqb s $"alert" then Some 2
  else if bytes_eqb s $"crit" then Some 3
  else if bytes_eqb s $"error" then Some 4
  else if bytes_eqb s $"warn" then Some 5
  else if bytes_eqb s $"notice" then Some 6
  else if bytes_eqb s $"info" then Some 7
  else if bytes_eqb s $"debug" then Some 8
  else None.

(** ** The parser *)

(** [src/src/drain/mod.rs: 2117-2137 parse_error_record] *)
Definition error_attributes (template_hash : Z) (counts_map : gmap Z Z) : list key_value :=
  if template_hash =? 0 then [] else
  [KV $"nginx.error.template_hash" (VInt (as_i64 template_hash))] ++
  (let count := default 0 (counts_map !! template_hash) in
   if 1 <? count then [KV $"nginx.error.coalesced_count" (VInt count)] else []).

(** [src/src/drain/mod.rs: parse_error_record] *)
Definition parse_error_record (buf : list Z) (observed_now_ns : Z) (counts_map : gmap Z Z)
    : option log_record :=
  if blen buf <? ERROR_RECORD_HDR then None else
  if negb (byte_at buf 0 =? KIND_ERROR) then None else
  let ts := be_val (sub buf 1 8) in
  let ngx_level := byte_at buf 9 in
  let template_hash := be_val (sub buf 10 8) in
  let body_len := be_val (sub buf 18 2) in
  if blen buf <? ERROR_RECORD_HDR + body_len then None else
  let body_str := from_utf8_lossy (sub buf ERROR_RECORD_HDR body_len) in
  let '(severity_number, severity_text) := nginx_to_otel ngx_level in
  Some {| lr_time := ts;
          lr_observed := observed_now_ns;
          lr_severity := severity_number;
          lr_severity_text := severity_text;
          lr_body := VString body_str;
          lr_attributes := error_attributes template_hash counts_map;
          lr_event_name := $"nginx.error";
          lr_trace_id := [];
          lr_span_id := [] |}.

(** [src/src/drain/mod.rs: parse_error_record_consuming] *)
Definition parse_error_record_consuming (buf : list Z) (observed_now_ns : Z) (counts_map : gmap Z Z)
    : option log_record * option Z :=
  match parse_error_record buf observed_now_ns counts_map with
  | Some lr =>
      let th := be_val (sub buf 10 8) in
      (Some lr, if th =? 0 then None else Some th)
  | None => (None, None)
  end.

(** ** Round trip of a record *)

Lemma error_bytes_with_len ts level hash body :
  error_bytes ts level hash body =
  [KIND_ERROR] ++ be_bytes 8 ts ++ [level] ++ be_bytes 8 hash ++ with_u16_len body MAX_ERROR_BODY_LEN.
Proof. reflexivity. Qed.

Lemma blen_error_bytes ts level hash body :
  ERROR_RECORD_HDR <= blen (error_bytes ts level hash body) <= ERROR_RECORD_HDR + MAX_ERROR_BODY_LEN.
Proof.
  rewrite error_bytes_with_len, !blen_app, !blen_be_bytes, blen_with_u16_len
    by (vm_compute; intuition congruence).
  pose proof (blen_capped body MAX_ERROR_BODY_LEN ltac:(vm_compute; congruence)).
  change (blen [KIND_ERROR]) with 1. change (blen [level]) with 1.
  unfold ERROR_RECORD_HDR, MAX_ERROR_BODY_LEN in *. lia.
Qed.

Definition error_log_record (ts level hash : Z) (body : list Z) (now : Z) (counts : gmap Z Z)
    : log_record :=
  {| lr_time := ts;
     lr_observed := now;
     lr_severity := fst (nginx_to_otel level);
     lr_severity_text := snd (nginx_to_otel level);
     lr_body := VString (from_utf8_lossy (capped body MAX_ERROR_BODY_LEN));
     lr_attributes := error_attributes hash counts;
     lr_event_name := $"nginx.error";
     lr_trace_id := [];
     lr_span_id := [] |}.

Lemma parse_error_bytes ts level hash body now counts :
  in_u 64 ts -> in_u 64 hash ->
  parse_error_record (error_bytes ts level hash body) now counts =
    Some (error_log_record ts level hash body now counts) /\
  be_val (sub (error_bytes ts level hash body) 10 8) = hash.
Proof.
  intros Hts Hh. pose proof (blen_error_bytes ts level hash body) as Hb.
  set (buf := error_bytes ts level hash body) in *.
  pose proof (cursor_start buf) as Hc. unfold buf at 2 in Hc. rewrite error_bytes_with_len in Hc.
  apply cursor_byte in Hc as [E0 Hc].
  apply cursor_be in Hc as (E1 & Hc & _); [|exact Hts].
  apply cursor_byte in Hc as [E2 Hc].
  apply cursor_be in Hc as (E3 & Hc & _); [|exact Hh].
  rewrite <- (app_nil_r (with_u16_len _ _)) in Hc.
  apply cursor_u16_len in Hc as (E4 & E5 & _ & L); [|vm_compute; intuition congruence].
  rewrite blen_nil in L.
  change (0 + 1) with 1 in *. change (1 + Z.of_nat 8) with 9 in *. change (9 + 1) with 10 in *.
  change (10 + Z.of_nat 8) with 18 in *. change (18 + 2) with 20 in *. change (Z.of_nat 8) with 8 in *.
  split; [|exact E3].
  unfold parse_error_record, ERROR_RECORD_HDR in *. rewrite E0, E1, E2, E3, E4, E5.
  unfold KIND_ERROR. case_ifs. unfold error_log_record. destruct (nginx_to_otel level). reflexivity.
Qed.

(** ** Properties *)

(** C19 (roundtrip). An error record fits the writer's stack buffer; the exporter parses
    it back to its timestamp, severity, capped body and template hash, with
    the occurrence count of its template attached when it is above one, and reports exactly
    its non-zero template hash as consumed.
    About: push_error_record, parse_error_record, parse_error_record_consuming. *)
Theorem error_record_roundtrip ts level hash body now counts :
  in_u 64 ts -> in_u 64 hash ->
  blen (error_bytes ts level hash body) <= ERROR_RECORD_HDR + MAX_ERROR_BODY_LEN /\
  parse_error_record_consuming (error_bytes ts level hash body) now counts =
    (Some (error_log_record ts level hash body now counts), if hash =? 0 then None else Some hash).
Proof.
  intros Hts Hh. split; [apply blen_error_bytes|].
  unfold parse_error_record_consuming.
  destruct (parse_error_bytes ts level hash body now counts Hts Hh) as [-> ->]. reflexivity.
Qed.

Lemma writer_body_total s now level buf :
  exists tbl rng, writer_body s now level buf = set_shared s tbl rng (bump_rate (error_rate s) level).
Proof.
  unfold writer_body. destruct (coalesce_table s) as [tbl|]; [|eauto].
  destruct (coalesce_total tbl (u8 level) buf (coalesce_enabled s)) as ([|h] & t' & ->); eauto.
Qed.

(** What one event that passes the guards does to the coalescer table and the
    error ring holding [q]: it is counted in the table, or its record is appended,
    or the ring is full and the drop is counted. *)
Definition event_recorded (now : option (Z * Z)) (level : Z) (buf : list Z) (s s' : writer_state) : Prop :=
  forall tbl r q,
  coalesce_table s = Some tbl -> error_ring s = Some r -> ring_ok r q ->
  write_offset r + (4 + (ERROR_RECORD_HDR + MAX_ERROR_BODY_LEN)) <= u64_max ->
  exists res tbl' r',
    coalesce tbl (u8 level) buf (coalesce_enabled s) = Some (res, tbl') /\
    coalesce_table s' = Some tbl' /\ error_ring s' = Some r' /\
    match res with
    | Coalesced => r' = r
    | EmitVerbatim hash =>
        ring_ok r' (q ++ [error_bytes (cached_unix_nanos now) (u8 level) hash buf]) \/
        ring_ok r' q /\ dropped r' = dropped r +w64 1
    end.

Lemma writer_body_recorded s now level buf :
  event_recorded now level buf s (writer_body s now level buf).
Proof.
  intros tbl r q Ht Hr Hq Ho. unfold writer_body. rewrite Ht, Hr.
  destruct (coalesce_total tbl (u8 level) buf (coalesce_enabled s)) as ([|h] & t' & E); rewrite E.
  - exists Coalesced, t', r. auto.
  - eexists (EmitVerbatim h), t', _. split_and!; [reflexivity..|].
    pose proof (blen_error_bytes (cached_unix_nanos now) (u8 level) h buf).
    pose proof (push_refines_queue r q (error_bytes (cached_unix_nanos now) (u8 level) h buf) Hq
      ltac:(lia)) as Hp.
    unfold push_spec, push_error_record in *. destruct (_ <=? _).
    + left. apply Hp.
    + right. destruct Hp as [-> Hp]. split; [exact Hp|reflexivity].
Qed.

(** The writer's filter: after teardown, during a re-entrant call, below the
    severity floor, outside a worker or without the logs zone nothing changes at all.
    Otherwise the error-rate class of the level is counted exactly once, and the event itself
    is either counted in the coalescer table, or appended as one record to the error ring, or
    counted as a drop of a full ring.  The guard flags are as before. *)
Theorem error_writer_filter is_worker now s level buf :
  let s' := ngx_otel_error_writer is_worker now s level buf in
  let passes := negb (cleanup s) && negb (busy s) && negb (level_floor s <? level)
                && is_worker && logs_zone s in
  (passes = false -> s' = s) /\
  (passes = true -> error_rate s' = bump_rate (error_rate s) level /\
                    event_recorded now level buf s s') /\
  busy s' = busy s /\ cleanup s' = cleanup s.
Proof.
  cbv zeta. unfold ngx_otel_error_writer.
  destruct (cleanup s) eqn:E1; [simpl; split_and!; trivial; discriminate|].
  destruct (busy s) eqn:E2; [simpl; split_and!; trivial; discriminate|].
  destruct (level_floor s <? level); [simpl; split_and!; trivial; discriminate|].
  destruct is_worker; [|simpl; split_and!; trivial; discriminate].
  destruct (logs_zone s); [|simpl; split_and!; trivial; discriminate].
  simpl. pose proof (writer_body_recorded s now level buf).
  destruct (writer_body_total s now level buf) as (tbl & rng & E). rewrite E in *. simpl.
  split_and!; trivial; try discriminate. auto.
Qed.

(** *** Witnesses *)

Lemma error_record_roundtrip_witness :
  exists lr, parse_error_record_consuming (error_bytes 7 4 99 line_a) 8 {[99 := 3]} = (Some lr, Some 99) /\
  lr_attributes lr = [KV $"nginx.error.template_hash" (VInt 99);
                      KV $"nginx.error.coalesced_count" (VInt 3)].
Proof.
  destruct (error_record_roundtrip 7 4 99 line_a 8 {[99 := 3]}) as [_ H];
    [vm_compute; intuition congruence..|].
  rewrite H. eexists. split; [reflexivity|]. vm_compute. reflexivity.
Defined.

Definition sample_ws : writer_state :=
  mk_ws false false 5 true (Some empty_table) true (Some (fresh_ring 1024)) (Some [0; 0; 0; 0; 0]).

(** The same message twice: one record in the ring, two counted events. *)
Lemma error_writer_filter_witness :
  let s1 := ngx_otel_error_writer true (Some (10, 5)) sample_ws 4 line_a in
  let s2 := ngx_otel_error_writer true (Some (11, 5)) s1 4 line_b in
  error_rate s2 = Some [0; 2; 0; 0; 0] /\
  (write_offset <$> error_ring s2) = (write_offset <$> error_ring s1).
Proof.
  cbv zeta. set (s1 := ngx_otel_error_writer true (Some (10, 5)) sample_ws 4 line_a).
  destruct (error_writer_filter true (Some (10, 5)) sample_ws 4 line_a) as (_ & H1 & _).
  destruct (error_writer_filter true (Some (11, 5)) s1 4 line_b) as (_ & H2 & _).
  split; [|vm_compute; reflexivity].
  rewrite (proj1 (H2 ltac:(vm_compute; reflexivity))). unfold s1. rewrite (proj1 (H1 eq_refl)).
  vm_compute. reflexivity.
Defined.
