(* ===== verification/LogChain.v ===== *)
(** * nginx's log chain (src/src/logs/error_writer.rs)

    The module's writer is a node of the linked list rooted at the embedded
    [cycle->new_log].  Nodes live in a heap; the head's address never moves,
    so an insertion in front swaps the contents of two nodes.  The file
    proves that [otel_log_insert] keeps the chain sorted and loses no node,
    and that the two walks over the chain reach exactly the module's nodes. *)
From stdpp Require Import gmap.
From S2P Require Import Prelude Ring Coalesce ErrorLog.
#[local] Set Warnings "-clear-no-such-hyp".

(** A node: its level, whether its writer is [ngx_otel_error_writer], and its
    [wdata]. *)
Record log_node := mk_node {
  log_level : Z;
  is_otel : bool;
  wdata : option nat;
  next : option nat
}.

Abbreviation heap := (gmap nat log_node).

Definition set_next (n : log_node) (p : option nat) : log_node :=
  mk_node (log_level n) (is_otel n) (wdata n) p.

(** The walk of the insertion; [None] is running out of fuel or a dangling
    pointer, which a null-terminated chain excludes.
    [src/src/logs/error_writer.rs: 495-507 otel_log_insert] *)
Fixpoint insert_walk (fuel : nat) (h : heap) (new_log : nat) (n : log_node) (log : nat) : option heap :=
  match fuel with
  | O => None
  | S fuel' =>
      l ← h !! log;
      match next l with
      | None => Some (<[log := set_next l (Some new_log)]> h)
      | Some nx =>
          ln ← h !! nx;
          if log_level ln <? log_level n
          then Some (<[log := set_next l (Some new_log)]> (<[new_log := set_next n (Some nx)]> h))
          else insert_walk fuel' h new_log n nx
      end
  end.

(** [src/src/logs/error_writer.rs: otel_log_insert] *)
Definition otel_log_insert (fuel : nat) (h : heap) (head new_log : nat) : option heap :=
  hd ← h !! head;
  n ← h !! new_log;
  if log_level hd <? log_level n
  then Some (<[head := set_next n (Some new_log)]> (<[new_log := hd]> h))
  else insert_walk fuel h new_log n head.

(** ** Chains *)

Definition content := (Z * bool * option nat)%type.
Definition node_content (n : log_node) : content := (log_level n, is_otel n, wdata n).

(** [chain h p l]: from pointer [p] the heap holds the nodes [l], null-terminated. *)
Fixpoint chain (h : heap) (p : option nat) (l : list (nat * content)) : Prop :=
  match l with
  | [] => p = None
  | (a, c) :: l' => p = Some a /\ exists n, h !! a = Some n /\ node_content n = c /\ chain h (next n) l'
  end.

Lemma chain_insert_ne h p l a n :
  a ∉ l.*1 -> chain h p l -> chain (<[a := n]> h) p l.
Proof.
  revert p. induction l as [|[b c] l IH]; intros p Ha; [trivial|].
  simpl in *. intros (-> & m & E & Ec & Hc). split; [reflexivity|].
  apply not_elem_of_cons in Ha as [Hab Ha].
  exists m. rewrite lookup_insert_ne by assumption. split_and!; auto.
Qed.

Definition level_of (c : content) : Z := fst (fst c).

(** Specification: before the first node of a strictly lower level. *)
Fixpoint insert_desc (x : content) (l : list content) : list content :=
  match l with
  | [] => [x]
  | y :: l' => if level_of y <? level_of x then x :: y :: l' else y :: insert_desc x l'
  end.

Fixpoint desc (l : list content) : Prop :=
  match l with
  | [] => True
  | x :: l' => match l' with [] => True | y :: _ => level_of y <= level_of x end /\ desc l'
  end.

Lemma insert_desc_perm x l : insert_desc x l ≡ₚ x :: l.
Proof.
  induction l as [|y l IH]; simpl; [reflexivity|]. case_if; [reflexivity|].
  rewrite IH. apply Permutation_swap.
Qed.

Lemma insert_desc_sorted x l : desc l -> desc (insert_desc x l).
Proof.
  induction l as [|y l IH]; simpl; [auto|]. intros [Hy Hd].
  case_if; simpl; [split; [lia|split; assumption]|].
  split; [|apply IH; assumption].
  destruct l as [|z l]; simpl; [assumption|]. case_if; assumption.
Qed.

(** The walk writes only the nodes it can reach and the new one. *)
Lemma insert_walk_frame fuel h new_log n b l a h' :
  chain h (Some b) l -> a ∉ new_log :: l.*1 ->
  insert_walk fuel h new_log n b = Some h' -> h' !! a = h !! a.
Proof.
  revert b l. induction fuel as [|fuel IH]; intros b l Hc Ha H; [discriminate|].
  destruct l as [|[b' cb] l]; [discriminate|]. simpl in Hc. destruct Hc as (Eq & m & Eb & _ & Hc).
  injection Eq as <-.
  simpl in H. rewrite Eb in H. simpl in H. destruct (next m) as [nx|] eqn:En.
  - destruct (h !! nx) as [ln|] eqn:Eln; [|discriminate]. simpl in H. destruct (_ <? _).
    + injection H as <-. rewrite !lookup_insert_ne by set_solver. reflexivity.
    + apply (IH nx l); [assumption|set_solver|assumption].
  - injection H as <-. rewrite lookup_insert_ne by set_solver. reflexivity.
Qed.

Lemma insert_walk_chain fuel h new_log n a ca l :
  chain h (Some a) ((a, ca) :: l) -> NoDup (a :: l.*1) -> new_log ∉ a :: l.*1 ->
  h !! new_log = Some n -> next n = None -> log_level n <= level_of ca -> (length l < fuel)%nat ->
  exists h' l', insert_walk fuel h new_log n a = Some h' /\
    chain h' (Some a) ((a, ca) :: l') /\ l'.*2 = insert_desc (node_content n) l.*2.
Proof.
  revert a ca l. induction fuel as [|fuel IH]; intros a ca l Hc Hnd Hnew Hn Hnx Hlv Hf; [lia|].
  simpl in Hc. destruct Hc as (_ & m & Ea & Ec & Hc). simpl insert_walk. rewrite Ea. simpl.
  inversion Hnd as [|? ? Ha Hnd']; subst; clear Hnd.
  destruct l as [|[b cb] l]; simpl in Hc.
  - rewrite Hc. eexists _, [(new_log, node_content n)]. split; [reflexivity|]. split; [|reflexivity].
    simpl. split; [reflexivity|]. eexists. rewrite lookup_insert_eq. do 2 (split; [reflexivity|]).
    simpl. split; [reflexivity|]. exists n. rewrite lookup_insert_ne by set_solver.
    split; [assumption|]. split; [reflexivity|assumption].
  - destruct Hc as (Em & mb & Eb & Ecb & Hc). rewrite Em, Eb. simpl.
    subst cb. change (level_of (node_content mb)) with (log_level mb).
    change (level_of (node_content n)) with (log_level n).
    destruct (log_level mb <? log_level n) eqn:El; zify_bool.
    + eexists _, ((new_log, node_content n) :: (b, node_content mb) :: l). split; [reflexivity|].
      split; [|reflexivity]. simpl. split; [reflexivity|].
      eexists. rewrite lookup_insert_eq. do 2 (split; [reflexivity|]).
      simpl. split; [reflexivity|]. eexists.
      rewrite lookup_insert_ne, lookup_insert_eq by set_solver. do 2 (split; [reflexivity|]).
      simpl. split; [reflexivity|]. exists mb. rewrite !lookup_insert_ne by set_solver.
      split; [assumption|]. split; [reflexivity|]. apply chain_insert_ne; [set_solver|]. apply chain_insert_ne; [set_solver|assumption].
    + destruct (IH b (node_content mb) l) as (h' & l' & E1 & E2 & E3); try assumption; trivial.
      * simpl. split; [reflexivity|]. eauto.
      * set_solver.
      * simpl in Hf. lia.
      * exists h', ((b, node_content mb) :: l'). split; [exact E1|].
        split; [|rewrite fmap_cons, E3; reflexivity].
        assert (Ea' : h' !! a = Some m).
        { rewrite <- Ea. apply (insert_walk_frame fuel h new_log n b ((b, node_content mb) :: l) a h');
            [simpl; eauto|set_solver|assumption]. }
        simpl. split; [reflexivity|]. exists m. split; [assumption|].
        split; [reflexivity|]. rewrite Em. exact E2.
Qed.

Lemma otel_log_insert_chain fuel h head new_log n l :
  chain h (Some head) l -> NoDup l.*1 -> new_log ∉ l.*1 ->
  h !! new_log = Some n -> next n = None -> (length l <= fuel)%nat ->
  exists h' l', otel_log_insert fuel h head new_log = Some h' /\
    chain h' (Some head) l' /\ l'.*2 = insert_desc (node_content n) l.*2.
Proof.
  intros Hc Hnd Hnew Hn Hnx Hf. destruct l as [|[a ca] l]; [discriminate|]. cbn [length] in Hf.
  pose proof Hc as (Ea & m & Em & Ec & Hl). injection Ea as <-. subst ca.
  unfold otel_log_insert. rewrite Em, Hn. simpl. inversion Hnd as [|? ? Ha Hnd']; subst.
  change (level_of (node_content m)) with (log_level m).
  change (level_of (node_content n)) with (log_level n).
  destruct (log_level m <? log_level n) eqn:El; zify_bool.
  - eexists _, ((head, node_content n) :: (new_log, node_content m) :: l).
    split; [reflexivity|]. split; [|reflexivity]. simpl. split; [reflexivity|].
    eexists. rewrite lookup_insert_eq. do 2 (split; [reflexivity|]). split; [reflexivity|].
    exists m. rewrite lookup_insert_ne, lookup_insert_eq by set_solver. do 2 (split; [reflexivity|]).
    apply chain_insert_ne; [assumption|]. apply chain_insert_ne; [set_solver|assumption].
  - destruct (insert_walk_chain fuel h new_log n head (node_content m) l)
      as (h' & l' & E1 & E2 & E3); try assumption; try lia.
    exists h', ((head, node_content m) :: l'). split; [exact E1|]. split; [exact E2|].
    rewrite fmap_cons, E3. reflexivity.
Qed.

(** The chain is no longer than the heap. *)
Lemma chain_size h p l : chain h p l -> NoDup l.*1 -> (length l <= size h)%nat.
Proof.
  intros Hc Hnd. rewrite <- size_dom. rewrite <- (length_fmap fst), <- (size_list_to_set (C := gset nat) _ Hnd).
  apply subseteq_size. intros a. rewrite elem_of_list_to_set. clear Hnd. revert p Hc.
  induction l as [|[b cb] l IH]; intros p Hc Ha; [set_solver|]. cbn in Hc. destruct Hc as (_ & m & Eb & _ & Hc).
  rewrite fmap_cons in Ha. apply elem_of_cons in Ha as [->|Ha]; [apply elem_of_dom; eauto|apply (IH _ Hc Ha)].
Qed.

(** ** Walks over the chain *)

(** The state cells ([wdata] targets) of the module's nodes, in walk order:
    the cells that [set_cleanup_flag] and [wire_error_writer_state] write.
    [src/src/logs/error_writer.rs: 394-405 set_cleanup_flag] *)
Fixpoint otel_states (fuel : nat) (h : heap) (p : option nat) : list nat :=
  match fuel, p with
  | S fuel', Some a =>
      match h !! a with
      | None => []
      | Some n =>
          (if is_otel n then match wdata n with Some s => [s] | None => [] end else [])
          ++ otel_states fuel' h (next n)
      end
  | _, _ => []
  end.

(** The store into a state at worker exit.
    [src/src/logs/error_writer.rs: 401-401 set_cleanup_flag] *)
Definition set_cleanup (s : writer_state) : writer_state :=
  mk_ws (busy s) true (level_floor s) (logs_zone s) (coalesce_table s) (coalesce_enabled s)
    (error_ring s) (error_rate s).

(** The five stores of the wiring; the other fields keep their values.
    [src/src/logs/error_writer.rs: 457-461 wire_error_writer_state] *)
Definition set_wiring (zone : bool) (tbl : option (list slot)) (rng : option ring)
    (rate : option (list Z)) (enabled : bool) (s : writer_state) : writer_state :=
  mk_ws (busy s) (cleanup s) (level_floor s) zone tbl enabled rng rate.

(** The store [f] into the state cells at [addrs], in order. *)
Definition update_states (f : writer_state -> writer_state) (addrs : list nat)
    (states : gmap nat writer_state) : gmap nat writer_state :=
  foldl (fun st a => alter f a st) states addrs.

(** The writer states live in [states], by address.
    [src/src/logs/error_writer.rs: set_cleanup_flag] *)
Definition set_cleanup_flag (fuel : nat) (h : heap) (cycle : option nat)
    (states : gmap nat writer_state) : gmap nat writer_state :=
  match cycle with
  | None => states
  | Some head => update_states set_cleanup (otel_states fuel h (Some head)) states
  end.

(** [src/src/logs/error_writer.rs: wire_error_writer_state] *)
Definition wire_error_writer_state (fuel : nat) (h : heap) (cycle : option nat)
    (zone : bool) (tbl : option (list slot)) (rng : option ring) (rate : option (list Z))
    (enabled : bool) (states : gmap nat writer_state) : gmap nat writer_state :=
  match cycle with
  | None => states
  | Some head =>
      update_states (set_wiring zone tbl rng rate enabled) (otel_states fuel h (Some head)) states
  end.

Definition otel_target (c : content) : option nat :=
  let '(_, otel, w) := c in if otel then w else None.

Lemma otel_states_chain fuel h p l :
  chain h p l -> (length l <= fuel)%nat ->
  otel_states fuel h p = omap otel_target l.*2.
Proof.
  revert p l. induction fuel as [|fuel IH]; intros p l Hc Hf;
    (destruct l as [|[a c] l]; [simpl in Hc; subst; reflexivity|]); simpl in Hf; [lia|].
  simpl in Hc. destruct Hc as (-> & n & E & <- & Hc). simpl. rewrite E, (IH _ l Hc) by lia.
  unfold node_content. simpl. destruct (is_otel n), (wdata n); reflexivity.
Qed.

Lemma update_states_lookup f addrs states k :
  (forall x, f (f x) = f x) ->
  update_states f addrs states !! k =
    if decide (k ∈ addrs) then f <$> states !! k else states !! k.
Proof.
  intros Hf. unfold update_states. revert states.
  induction addrs as [|x addrs IH]; intros states; simpl; [reflexivity|].
  rewrite IH. destruct (decide (k = x)) as [->|Hne].
  - rewrite lookup_alter_eq, (decide_True (P := x ∈ x :: addrs)) by set_solver.
    case_decide; [|reflexivity]. destruct (states !! x); simpl; [rewrite Hf|]; reflexivity.
  - rewrite lookup_alter_ne by auto. repeat case_decide; set_solver.
Qed.

(** ** Properties *)

(** Inserting the module's node keeps the head address, keeps every node
    of the chain, and places the new one before the first node of a strictly lower level,
    so a chain sorted by descending level stays sorted; the walk terminates within
    the chain's length. *)
Theorem log_insert_sorted h head new_log n l :
  chain h (Some head) l -> NoDup l.*1 -> new_log ∉ l.*1 ->
  h !! new_log = Some n -> next n = None -> desc l.*2 ->
  exists h' l', otel_log_insert (length l) h head new_log = Some h' /\
    chain h' (Some head) l' /\ l'.*2 = insert_desc (node_content n) l.*2 /\
    desc l'.*2 /\ l'.*2 ≡ₚ node_content n :: l.*2.
Proof.
  intros Hc Hnd Hnew Hn Hnx Hd.
  destruct (otel_log_insert_chain (length l) h head new_log n l Hc Hnd Hnew Hn Hnx (le_n _)) as (h' & l' & E1 & E2 & E3).
  exists h', l'. split_and!; try assumption; rewrite E3;
    [apply insert_desc_sorted; assumption|apply insert_desc_perm].
Qed.

(** At worker start the wiring, and at worker exit the cleanup flag, reach
    exactly the states of the module's nodes in the chain and leave their other fields and
    every other state alone; after the exit none of the module's nodes accepts another
    error line. *)
Theorem chain_states_exact h head l states k zone tbl rng rate enabled :
  chain h (Some head) l ->
  let ours := omap otel_target l.*2 in
  wire_error_writer_state (length l) h (Some head) zone tbl rng rate enabled states !! k =
    (if decide (k ∈ ours) then set_wiring zone tbl rng rate enabled <$> states !! k else states !! k) /\
  let states' := set_cleanup_flag (length l) h (Some head) states in
  states' !! k = (if decide (k ∈ ours) then set_cleanup <$> states !! k else states !! k) /\
  (k ∈ ours -> forall s is_worker now level buf, states' !! k = Some s ->
     ngx_otel_error_writer is_worker now s level buf = s).
Proof.
  intros Hc. cbv zeta. unfold wire_error_writer_state, set_cleanup_flag.
  rewrite (otel_states_chain (length l) h (Some head) l Hc) by lia.
  rewrite !update_states_lookup by reflexivity. split_and!; [reflexivity|reflexivity|].
  intros Hk s is_worker now level buf. rewrite decide_True by exact Hk.
  destruct (states !! k); intros [= <-]. reflexivity.
Qed.

(** *** Witnesses *)

Definition sample_heap : heap :=
  {[ 0%nat := mk_node 5 false None (Some 1%nat);
     1%nat := mk_node 4 false None None;
     2%nat := mk_node 8 true (Some 70%nat) None ]}.
Definition sample_chain : list (nat * content) :=
  [(0%nat, (5, false, None)); (1%nat, (4, false, None))].

Lemma sample_chain_ok : chain sample_heap (Some 0%nat) sample_chain.
Proof. simpl. split; [reflexivity|]. eexists. do 2 (split; [reflexivity|]). simpl. eauto. Qed.

Lemma log_insert_sorted_witness :
  exists h' l', otel_log_insert 2 sample_heap 0 2 = Some h' /\ chain h' (Some 0%nat) l' /\
    l'.*2 = [(8, true, Some 70%nat); (5, false, None); (4, false, None)].
Proof.
  destruct (log_insert_sorted sample_heap 0 2 (mk_node 8 true (Some 70%nat) None) sample_chain)
    as (h' & l' & E1 & E2 & E3 & _).
  - exact sample_chain_ok.
  - simpl. apply NoDup_ListNoDup. repeat constructor; simpl; intuition congruence.
  - simpl. set_solver.
  - reflexivity.
  - reflexivity.
  - simpl. split; [|split]; auto. vm_compute. discriminate.
  - exists h', l'. split; [exact E1|split; [exact E2|]]. rewrite E3. reflexivity.
Defined.

Definition otel_heap : heap :=
  {[ 0%nat := mk_node 5 false None (Some 1%nat); 1%nat := mk_node 4 true (Some 70%nat) None ]}.
Definition otel_chain : list (nat * content) :=
  [(0%nat, (5, false, None)); (1%nat, (4, true, Some 70%nat))].

Lemma chain_states_exact_witness :
  let states : gmap nat writer_state := {[70%nat := sample_ws; 71%nat := sample_ws]} in
  let states' := set_cleanup_flag 2 otel_heap (Some 0%nat) states in
  cleanup <$> states' !! 70%nat = Some true /\ states' !! 71%nat = Some sample_ws.
Proof.
  assert (Hc : chain otel_heap (Some 0%nat) otel_chain).
  { simpl. split; [reflexivity|]. eexists. do 2 (split; [reflexivity|]). simpl. eauto. }
  cbv zeta. split.
  - destruct (chain_states_exact otel_heap 0 otel_chain {[70%nat := sample_ws; 71%nat := sample_ws]}
      70 true None None None true Hc) as (_ & -> & _). vm_compute. reflexivity.
  - destruct (chain_states_exact otel_heap 0 otel_chain {[70%nat := sample_ws; 71%nat := sample_ws]}
      71 true None None None true Hc) as (_ & -> & _). reflexivity.
Defined.
