(* ===== verification/Collect.v ===== *)
(** * Collection of logs and spans from the workers' rings (src/src/drain/mod.rs)

    The exporter visits every worker's block of the logs and spans zones: it
    pops the rings up to a cap, parses the records, joins error samples with
    the coalescer's counts and synthesises a record for every count whose
    sample was lost. *)
From stdpp Require Import gmap.
From S2P Require Import Prelude Ring DataModel StdText Producer AccessLog SpanRecord Coalesce ErrorLog.

(** ** Resource attributes *)

(** What [build_resource_attrs] reads of the configuration and of [MASTER_PID]. *)
Record resource_config := mk_resource_config {
  service_name : list Z;
  resource_attrs : list (list Z * list Z);
  master_pid : Z
}.

(** [src/src/drain/mod.rs: build_resource_attrs] *)
Definition build_resource_attrs (cfg : resource_config) : list key_value :=
  let svc_name := if blen (service_name cfg) =? 0 then Some $"unknown_service:nginx"
                  else from_utf8 (service_name cfg) in
  let attrs :=
    match svc_name with Some n => [KV $"service.name" (VString n)] | None => [] end ++
    omap (fun '(k, v) => k' ← from_utf8 k; v' ← from_utf8 v; Some (KV k' (VString v')))
      (resource_attrs cfg) in
  if existsb (fun kv => bytes_eqb (kv_key kv) $"service.instance.id") attrs then attrs
  else attrs ++ [KV $"service.instance.id" (VString (fmt_dec (master_pid cfg)))].

Definition batch_resource (cfg : resource_config) : resource := mk_resource (build_resource_attrs cfg).
Definition batch_scope : scope := mk_scope $"ngx-otel-rust" $"0.1.0".

(** ** The logs zone *)

(** One worker's block of the logs zone: [logs_access_ring], [logs_error_ring]
    and [logs_coalesce_table] at that worker's index. *)
Record worker_zone := mk_zone {
  wz_access : ring;
  wz_error : ring;
  wz_coalesce : list slot
}.

(** [src/src/drain/mod.rs: LogsDropCounts] *)
Record logs_drop_counts := mk_drops {
  access_dropped : Z;
  error_dropped : Z;
  error_coalesced_orphaned : Z
}.

(** [src/src/drain/mod.rs: MAX_ACCESS_RECORDS_PER_WORKER_PER_DRAIN] *)
Definition MAX_ACCESS_RECORDS_PER_WORKER_PER_DRAIN : nat := Z.to_nat 2500.
(** [src/src/drain/mod.rs: MAX_ERROR_RECORDS_PER_WORKER_PER_DRAIN] *)
Definition MAX_ERROR_RECORDS_PER_WORKER_PER_DRAIN : nat := Z.to_nat 50000.

(** Access ring of one worker. [src/src/drain/mod.rs: 1713-1736 access drain] *)
Definition drain_access (now : Z) (wz : worker_zone) : list log_record * Z * worker_zone :=
  let '(recs, r) := pop_all MAX_ACCESS_RECORDS_PER_WORKER_PER_DRAIN (wz_access wz) in
  (omap (fun b => parse_access_record b now) recs, drop_count (wz_access wz),
   mk_zone r (wz_error wz) (wz_coalesce wz)).

(** The [HashMap] collected from the drained table: a later entry overwrites.
    [src/src/drain/mod.rs: 1758-1759 collect_log_records] *)
Definition counts_map_of (counts_vec : list (Z * Z * Z)) : gmap Z Z :=
  foldl (fun m '(hash, _, count) => <[hash := count]> m) ∅ counts_vec.

(** [src/src/drain/mod.rs: 1776-1791 collect_log_records] *)
Definition error_step (now : Z) (counts : gmap Z Z) (acc : list log_record * gset Z) (buf : list Z)
    : list log_record * gset Z :=
  let '(logs, consumed) := acc in
  match parse_error_record_consuming buf now counts with
  | (Some lr, Some th) => (logs ++ [lr], {[th]} ∪ consumed)
  | (Some lr, None) => (logs ++ [lr], consumed)
  | (None, _) => (logs, consumed)
  end.

(** The record standing for a count whose sample never reached the ring.
    [src/src/drain/mod.rs: 1794-1826 synthetic record] *)
Definition orphan_record (now hash severity count : Z) : log_record :=
  {| lr_time := now;
     lr_observed := now;
     lr_severity := fst (nginx_to_otel severity);
     lr_severity_text := snd (nginx_to_otel severity);
     lr_body := VString $"(ring-full: verbatim sample dropped — occurrence count preserved)";
     lr_attributes := [KV $"nginx.error.template_hash" (VInt (as_i64 hash));
                       KV $"nginx.error.coalesced_count" (VInt count)];
     lr_event_name := $"nginx.error";
     lr_trace_id := [];
     lr_span_id := [] |}.

(** [src/src/drain/mod.rs: 1799-1800 collect_log_records] *)
Definition orphans (consumed : gset Z) (counts_vec : list (Z * Z * Z)) : list (Z * Z * Z) :=
  filter (fun e => 0 < snd e /\ fst (fst e) ∉ consumed) counts_vec.

(** Coalescer table and error ring of one worker: its log records, dropped
    count, orphaned total and the block after the drain.
    [src/src/drain/mod.rs: 1745-1827 error drain] *)
Definition drain_errors (now : Z) (wz : worker_zone) : list log_record * Z * Z * worker_zone :=
  let '(tbl, counts_vec) := drain_coalesce_table (wz_coalesce wz) in
  let counts_map := counts_map_of counts_vec in
  let '(recs, r) := pop_all MAX_ERROR_RECORDS_PER_WORKER_PER_DRAIN (wz_error wz) in
  let '(logs, consumed) := foldl (error_step now counts_map) ([], ∅) recs in
  let orphaned := orphans consumed counts_vec in
  (logs ++ map (fun '(hash, severity, count) => orphan_record now hash severity count) orphaned,
   drop_count (wz_error wz),
   zsum (map snd orphaned),
   mk_zone (wz_access wz) r tbl).

(** Visit the first [n] workers, threading the zone and collecting outputs. *)
Fixpoint each_worker {S O} (n : nat) (f : S -> O * S) (zone : list S) : list O * list S :=
  match n, zone with
  | S n', wz :: rest =>
      let '(o, wz') := f wz in
      let '(os, rest') := each_worker n' f rest in
      (o :: os, wz' :: rest')
  | _, _ => ([], zone)
  end.

(** [now] is the wall clock; the zone holds at least [n_workers] blocks.
    [src/src/drain/mod.rs: collect_log_records] *)
Definition collect_log_records (cfg : resource_config) (error_log_enabled : bool)
    (zone : list worker_zone) (n_workers : nat) (now : Z)
    : logs_batch * logs_drop_counts * list worker_zone :=
  let '(acc, zone1) :=
    each_worker n_workers (fun wz => let '(l, d, wz') := drain_access now wz in ((l, d), wz')) zone in
  let access_logs := concat (map fst acc) in
  let access_d := u64 (zsum (map snd acc)) in
  if error_log_enabled then
    let '(errs, zone2) :=
      each_worker n_workers
        (fun wz => let '(l, d, o, wz') := drain_errors now wz in ((l, d, o), wz')) zone1 in
    (mk_logs_batch (batch_resource cfg) batch_scope
       (access_logs ++ concat (map (fun e => fst (fst e)) errs)),
     mk_drops access_d (u64 (zsum (map (fun e => snd (fst e)) errs))) (u64 (zsum (map snd errs))),
     zone2)
  else
    (mk_logs_batch (batch_resource cfg) batch_scope access_logs, mk_drops access_d 0 0, zone1).

(** ** The spans zone *)

(** [src/src/drain/mod.rs: MAX_SPAN_RECORDS_PER_WORKER_PER_DRAIN] *)
Definition MAX_SPAN_RECORDS_PER_WORKER_PER_DRAIN : nat := Z.to_nat 2500.

(** The zone is one spans ring per worker.
    [src/src/drain/mod.rs: collect_span_records] *)
Definition collect_span_records (cfg : resource_config) (zone : list ring) (n_workers : nat) (now : Z)
    : spans_batch * Z * list ring :=
  let '(acc, zone') :=
    each_worker n_workers (fun r =>
      let '(recs, r') := pop_all MAX_SPAN_RECORDS_PER_WORKER_PER_DRAIN r in
      ((omap (fun b => parse_span_record b now) recs, drop_count r), r')) zone in
  (mk_spans_batch (batch_resource cfg) batch_scope (concat (map fst acc)),
   u64 (zsum (map snd acc)), zone').

(** ** Exactness of the collection *)

Lemma each_worker_map {S O} (f : S -> O * S) n : forall zone, each_worker n f zone =
  (map (fun wz => fst (f wz)) (take n zone), map (fun wz => snd (f wz)) (take n zone) ++ drop n zone).
Proof.
  induction n as [|n IH]; intros [|wz rest]; try reflexivity.
  cbn [each_worker take drop map app]. rewrite IH. destruct (f wz). reflexivity.
Qed.

Lemma omap_all {A B C} (f : A -> option B) (g : C -> A) (h : C -> B) l :
  Forall (fun c => f (g c) = Some (h c)) l -> omap f (map g l) = map h l.
Proof. induction 1 as [|c l Hc _ IH]; [reflexivity|]. cbn. rewrite Hc, IH. reflexivity. Qed.

Lemma Forall2_map_r {A B C} (R : A -> C -> Prop) (f : B -> C) l k :
  Forall2 R l (map f k) <-> Forall2 (fun a b => R a (f b)) l k.
Proof.
  revert k. induction l as [|a l IH]; intros [|b k]; cbn; split; intros H; inversion H; subst;
    constructor; auto; apply IH; auto.
Qed.

Lemma pop_all_split n r q : ring_ok r q ->
  exists r', pop_all n r = (take n q, r') /\ ring_ok r' (drop n q).
Proof.
  intros H. destruct (pop_all_drains n r q H) as [E O]. exists (snd (pop_all n r)).
  split; [rewrite <- E; apply surjective_pairing|exact O].
Qed.

(** A spans ring holds the serialised form of these spans, oldest first. *)
Definition holds_spans (r : ring) (recs : list span_record) : Prop :=
  ring_ok r (map span_bytes recs) /\ Forall span_wf recs.

Lemma span_worker now r recs :
  holds_spans r recs ->
  let '(recs', r') := pop_all MAX_SPAN_RECORDS_PER_WORKER_PER_DRAIN r in
  omap (fun b => parse_span_record b now) recs' =
    map expected_span (take MAX_SPAN_RECORDS_PER_WORKER_PER_DRAIN recs) /\
  holds_spans r' (drop MAX_SPAN_RECORDS_PER_WORKER_PER_DRAIN recs).
Proof.
  intros [Hr Hw]. destruct (pop_all_split MAX_SPAN_RECORDS_PER_WORKER_PER_DRAIN r _ Hr) as (r' & -> & Hr').
  rewrite (firstn_map span_bytes). split.
  - apply omap_all. apply Forall_take with (n := MAX_SPAN_RECORDS_PER_WORKER_PER_DRAIN) in Hw.
    revert Hw. apply Forall_impl. intros rec W. apply parse_span_bytes; exact W.
  - split; [rewrite <- (skipn_map span_bytes); exact Hr'|apply Forall_drop; exact Hw].
Qed.

(** When every worker's spans ring holds serialised spans, one
    collection returns exactly the oldest 2500 spans of each worker, in ring
    order and worker order, and leaves exactly the remaining spans of each in
    its ring for the next collection. *)
Theorem collect_spans_exact cfg now zone recss :
  Forall2 holds_spans zone recss ->
  let '(batch, _, zone') := collect_span_records cfg zone (length zone) now in
  sb_spans batch = concat (map (fun recs => map expected_span (take 2500 recs)) recss) /\
  Forall2 holds_spans zone' (map (drop 2500) recss).
Proof.
  intros H. unfold collect_span_records. rewrite each_worker_map, take_ge, drop_ge, app_nil_r by lia.
  cbn [sb_spans]. rewrite !map_map. change 2500%nat with MAX_SPAN_RECORDS_PER_WORKER_PER_DRAIN.
  rewrite Forall2_map_r. clear cfg.
  induction H as [|r recs zone recss Hr H IH]; [split; constructor|].
  destruct IH as [I1 I2]. pose proof (span_worker now r recs Hr) as W.
  cbn [map concat]. rewrite I1.
  destruct (pop_all _ r) as [recs' r']. cbn [fst snd]. destruct W as [-> W].
  split; [reflexivity|]. constructor; auto.
Qed.

(** A successful emit appends the span to what the ring holds. *)
Lemma emit_holds_spans p recs rec :
  holds_spans (wrp_ring p) recs -> span_wf rec -> lp_ready p (span_bytes rec) ->
  fst (emit_span_record p rec) = true ->
  holds_spans (wrp_ring (snd (emit_span_record p rec))) (recs ++ [rec]).
Proof.
  intros [Hr Hw] Hwf Hrd Hok.
  pose proof (lp_push_law p _ (span_bytes rec) Hr Hrd) as L. cbn [lp_holds ring_log_producer] in L.
  unfold emit_span_record in *. rewrite Hok in L. split.
  - rewrite map_app. exact L.
  - apply Forall_app. auto.
Qed.

Lemma fresh_holds_spans c : 0 < c <= u32_max -> holds_spans (fresh_ring c) [].
Proof. intros. split; [apply fresh_ring_ok; lia|constructor]. Qed.

Lemma sample_span_wf : span_wf sample_span.
Proof. split; vm_compute; intuition congruence. Qed.

Lemma collect_spans_exact_witness :
  let p := mk_producer (fresh_ring 1024) in
  let r := wrp_ring (snd (emit_span_record p sample_span)) in
  sb_spans (fst (fst (collect_span_records (mk_resource_config [] [] 7) [r; fresh_ring 512] 2 0))) =
  [expected_span sample_span].
Proof.
  intros p r.
  assert (H : Forall2 holds_spans [r; fresh_ring 512] [[sample_span]; []]).
  { constructor; [|constructor; [|constructor]].
    - apply (emit_holds_spans p []); [apply fresh_holds_spans; unfold u32_max; lia
      | apply sample_span_wf | vm_compute; congruence | vm_compute; reflexivity].
    - apply fresh_holds_spans; unfold u32_max; lia. }
  exact (proj1 (collect_spans_exact (mk_resource_config [] [] 7) 0 _ _ H)).
Defined.

(** ** Access logs *)

Definition holds_access (wz : worker_zone) (reqs : list sampled_request) : Prop :=
  ring_ok (wz_access wz) (map access_bytes reqs) /\ Forall req_wf reqs.

Definition access_part (now : Z) (wz : worker_zone) : (list log_record * Z) * worker_zone :=
  let '(l, d, wz') := drain_access now wz in ((l, d), wz').

Lemma access_worker now wz reqs :
  holds_access wz reqs ->
  let '((logs, d), wz') := access_part now wz in
  logs = map (fun q => access_log_record q now) (take MAX_ACCESS_RECORDS_PER_WORKER_PER_DRAIN reqs) /\
  d = dropped (wz_access wz) /\
  holds_access wz' (drop MAX_ACCESS_RECORDS_PER_WORKER_PER_DRAIN reqs) /\
  wz_error wz' = wz_error wz /\ wz_coalesce wz' = wz_coalesce wz.
Proof.
  intros [Hr Hw]. unfold access_part, drain_access.
  destruct (pop_all_split MAX_ACCESS_RECORDS_PER_WORKER_PER_DRAIN _ _ Hr) as (r' & -> & Hr').
  rewrite (firstn_map access_bytes). split_and!; try reflexivity.
  - apply omap_all. apply Forall_take with (n := MAX_ACCESS_RECORDS_PER_WORKER_PER_DRAIN) in Hw.
    revert Hw. apply Forall_impl. intros q W. apply parse_access_bytes; exact W.
  - split; [rewrite <- (skipn_map access_bytes); exact Hr'|apply Forall_drop; exact Hw].
Qed.

(** When every worker's access ring holds serialised
    requests, one collection without error logs returns exactly the access
    records of the oldest 2500 requests of each worker in order, reports the sum
    of the rings' drop counters, and leaves exactly the remaining requests in
    each ring; error rings and coalescer tables are untouched. *)
Theorem collect_access_exact cfg now zone reqss :
  Forall2 holds_access zone reqss ->
  let '(batch, drops, zone') := collect_log_records cfg false zone (length zone) now in
  lb_logs batch = concat (map (fun reqs => map (fun q => access_log_record q now) (take 2500 reqs)) reqss) /\
  drops = mk_drops (u64 (zsum (map (fun wz => dropped (wz_access wz)) zone))) 0 0 /\
  Forall2 holds_access zone' (map (drop 2500) reqss) /\
  map wz_error zone' = map wz_error zone /\ map wz_coalesce zone' = map wz_coalesce zone.
Proof.
  intros H. unfold collect_log_records. fold (access_part now).
  rewrite each_worker_map, take_ge, drop_ge, app_nil_r by lia.
  cbn [lb_logs]. rewrite !map_map. change 2500%nat with MAX_ACCESS_RECORDS_PER_WORKER_PER_DRAIN.
  rewrite Forall2_map_r. clear cfg.
  assert (P : concat (map (fun wz => (access_part now wz).1.1) zone) =
      concat (map (fun reqs => map (fun q => access_log_record q now)
        (take MAX_ACCESS_RECORDS_PER_WORKER_PER_DRAIN reqs)) reqss) /\
    map (fun wz => (access_part now wz).1.2) zone = map (fun wz => dropped (wz_access wz)) zone /\
    Forall2 (fun a b => holds_access a (drop MAX_ACCESS_RECORDS_PER_WORKER_PER_DRAIN b))
      (map (fun wz => (access_part now wz).2) zone) reqss /\
    map (fun wz => wz_error (access_part now wz).2) zone = map wz_error zone /\
    map (fun wz => wz_coalesce (access_part now wz).2) zone = map wz_coalesce zone).
  { induction H as [|wz reqs zone reqss Hr H IH]; [split_and!; constructor|].
    destruct IH as (I1 & I2 & I3 & I4 & I5). pose proof (access_worker now wz reqs Hr) as W.
    cbn [map concat]. rewrite I1, I2, I4, I5.
    destruct (access_part now wz) as [[l d] wz']. cbn [fst snd].
    destruct W as (-> & -> & W & -> & ->). split_and!; try reflexivity. constructor; auto. }
  destruct P as (-> & -> & P3 & P4 & P5). split_and!; auto.
Qed.

Lemma collect_access_exact_witness :
  let p := mk_producer (fresh_ring 1024) in
  let r := wrp_ring (snd (emit_access_record p sample_req)) in
  lb_logs (fst (fst (collect_log_records (mk_resource_config [] [] 7) false
    [mk_zone r (fresh_ring 64) empty_table] 1 5))) = [access_log_record sample_req 5].
Proof.
  intros p r.
  assert (H : Forall2 holds_access [mk_zone r (fresh_ring 64) empty_table] [[sample_req]]).
  { constructor; [|constructor]. split.
    - exact (worker_ring_push_law p [] (access_bytes sample_req)
        ltac:(apply fresh_ring_ok; unfold u32_max; lia) ltac:(vm_compute; congruence)).
    - constructor; [|constructor]. split; vm_compute; intuition congruence. }
  exact (proj1 (collect_access_exact (mk_resource_config [] [] 7) 5 _ _ H)).
Defined.

(** ** Error logs and coalesced counts *)

(** An error record as the writer pushed it. *)
Record error_event := mk_ev { ev_ts : Z; ev_level : Z; ev_hash : Z; ev_body : list Z }.
Definition event_bytes (e : error_event) : list Z :=
  error_bytes (ev_ts e) (ev_level e) (ev_hash e) (ev_body e).
Definition event_wf (e : error_event) : Prop := in_u 64 (ev_ts e) /\ in_u 64 (ev_hash e).
Definition event_record (now : Z) (counts : gmap Z Z) (e : error_event) : log_record :=
  error_log_record (ev_ts e) (ev_level e) (ev_hash e) (ev_body e) now counts.

(** The attribute [k] of a record, if present. *)
Definition attr (k : list Z) (lr : log_record) : option any_value :=
  kv_value <$> find (fun kv => bytes_eqb (kv_key kv) k) (lr_attributes lr).

(** Occurrences of template [h] a record reports: its [coalesced_count], or
    one when it carries the template hash alone. *)
Definition occurrences_of (h : Z) (lr : log_record) : Z :=
  match attr $"nginx.error.template_hash" lr with
  | Some (VInt t) =>
      if t =? as_i64 h then
        match attr $"nginx.error.coalesced_count" lr with Some (VInt n) => n | _ => 1 end
      else 0
  | _ => 0
  end.

Lemma as_i64_inj a b : in_u 64 a -> in_u 64 b -> as_i64 a = as_i64 b -> a = b.
Proof. unfold in_u, as_i64, i64_max. intros. destruct (a <=? _) eqn:?, (b <=? _) eqn:?; zify_bool; lia. Qed.

Ltac attr_keys :=
  cbn [negb andb app find kv_key];
  change (bytes_eqb $"nginx.error.template_hash" $"nginx.error.template_hash") with true;
  change (bytes_eqb $"nginx.error.template_hash" $"nginx.error.coalesced_count") with false;
  change (bytes_eqb $"nginx.error.coalesced_count" $"nginx.error.coalesced_count") with true;
  cbn [fmap option_fmap option_map kv_value].

Lemma occurrences_event h now counts e : in_u 64 h -> in_u 64 (ev_hash e) ->
  occurrences_of h (event_record now counts e) =
  if negb (ev_hash e =? 0) && (ev_hash e =? h)
  then Z.max 1 (default 0 (counts !! h)) else 0.
Proof.
  intros Hh He. unfold occurrences_of, attr, event_record, error_log_record, error_attributes.
  cbn [lr_attributes]. destruct (ev_hash e =? 0) eqn:E0; [reflexivity|]. cbv zeta.
  destruct (1 <? default 0 (counts !! ev_hash e)) eqn:E1;
  attr_keys; zify_bool;
  (destruct (Z.eqb_spec (ev_hash e) h) as [Eh|Hne]; [rewrite Eh in *; rewrite Z.eqb_refl; cbn; lia|]);
  (rewrite (proj2 (Z.eqb_neq _ _)); [reflexivity|]; intros E; apply Hne, as_i64_inj; auto).
Qed.

Lemma occurrences_orphan h now hash sev count : in_u 64 h -> in_u 64 hash ->
  occurrences_of h (orphan_record now hash sev count) = if hash =? h then count else 0.
Proof.
  intros Hh Ha. unfold occurrences_of, attr, orphan_record. cbn [lr_attributes]. attr_keys.
  destruct (Z.eqb_spec hash h) as [->|Hne]; [rewrite Z.eqb_refl; reflexivity|].
  rewrite (proj2 (Z.eqb_neq _ _)); [reflexivity|]. intros E. apply Hne, as_i64_inj; auto.
Qed.

Lemma error_steps now counts es : forall logs consumed, Forall event_wf es ->
  foldl (error_step now counts) (logs, consumed) (map event_bytes es) =
  (logs ++ map (event_record now counts) es,
   list_to_set (filter (fun h => h <> 0) (map ev_hash (rev es))) ∪ consumed).
Proof.
  induction es as [|e es IH]; intros logs consumed Hw; cbn [map foldl].
  - rewrite app_nil_r. f_equal. symmetry. apply (left_id_L ∅ (∪)).
  - apply Forall_cons_iff in Hw as [[W1 W2] Hw].
    destruct (parse_error_bytes (ev_ts e) (ev_level e) (ev_hash e) (ev_body e) now counts W1 W2) as [P1 P2].
    fold (event_bytes e) in P1, P2.
    unfold error_step at 2, parse_error_record_consuming. rewrite P1, P2.
    cbn [rev]. rewrite map_app, list.filter_app, list_to_set_app_L. cbn [map].
    destruct (Z.eqb_spec (ev_hash e) 0) as [E|E]; rewrite IH by exact Hw; rewrite <- app_assoc; f_equal.
    + rewrite filter_cons_False by (intros C; apply C; exact E).
      cbn [list_to_set filter list_filter]. rewrite (right_id_L ∅ (∪)). reflexivity.
    + rewrite filter_cons_True by exact E.
      cbn [list_to_set filter list_filter]. rewrite (right_id_L ∅ (∪)), (assoc_L (∪)). reflexivity.
Qed.

(** Sums over the entries with a given non-zero key. *)
Lemma zsum_key_none {A} (f g : A -> Z) l k : ~ In k (map f l) ->
  zsum (map (fun y => if f y =? k then g y else 0) l) = 0.
Proof.
  induction l as [|y l IH]; [reflexivity|]. cbn [map In]. intros Hn. cbn [zsum foldr].
  fold (zsum (map (fun y => if f y =? k then g y else 0) l)). rewrite IH by tauto.
  rewrite (proj2 (Z.eqb_neq _ _)) by tauto. reflexivity.
Qed.

Lemma zsum_key_one {A} (f g : A -> Z) l k x : k <> 0 -> In x l -> f x = k ->
  NoDup (filter (fun h => h <> 0) (map f l)) ->
  zsum (map (fun y => if f y =? k then g y else 0) l) = g x.
Proof.
  intros Hk. induction l as [|y l IH]; [intros []|]. intros HIn Hf Hnd.
  cbn [map zsum foldr]. fold (zsum (map (fun y => if f y =? k then g y else 0) l)).
  cbn [map] in Hnd. destruct (Z.eqb_spec (f y) k) as [E|E].
  - rewrite filter_cons_True in Hnd by congruence. apply list.NoDup_cons in Hnd as [Hni _].
    rewrite zsum_key_none.
    + destruct HIn as [->|HIn]; [lia|]. exfalso. apply Hni.
      rewrite E, <- Hf. apply list_elem_of_filter. split; [congruence|].
      apply list_elem_of_In, in_map, HIn.
    + intros C. apply Hni. rewrite E. apply list_elem_of_filter. split; [exact Hk|].
      apply list_elem_of_In. exact C.
  - destruct HIn as [->|HIn]; [congruence|]. rewrite Z.add_0_l. apply IH; auto.
    revert Hnd. rewrite filter_cons. destruct (decide _); [|auto]. intros Hnd. apply list.NoDup_cons in Hnd. tauto.
Qed.

Lemma counts_map_lookup l : forall (m : gmap Z Z) (h s c : Z), NoDup (map (fun e => fst (fst e)) l) -> In (h, s, c) l ->
  foldl (fun m '(hash, _, count) => <[hash := count]> m) m l !! h = Some c.
Proof.
  assert (Hkeep : forall l (m : gmap Z Z) h c, ~ In h (map (fun e : Z * Z * Z => fst (fst e)) l) ->
    m !! h = Some c -> foldl (fun m '(hash, _, count) => <[hash := count]> m) m l !! h = Some c).
  { clear. induction l as [|[[h' s'] c'] l IH]; intros m h c Hn Hm; [exact Hm|].
    cbn in *. apply IH; [tauto|]. rewrite lookup_insert_ne; tauto. }
  induction l as [|[[h' s'] c'] l IH]; intros m h s c Hnd HIn; [destruct HIn|].
  cbn [map fst] in Hnd. apply list.NoDup_cons in Hnd as [Hni Hnd]. cbn [foldl].
  destruct HIn as [[= -> -> ->]|HIn]; [|exact (IH _ h s c Hnd HIn)].
  apply Hkeep; [rewrite <- list_elem_of_In; exact Hni|apply lookup_insert_eq].
Qed.

Lemma drained_entry t h s c : In (h, s, c) (snd (drain_coalesce_table t)) ->
  h <> 0 /\ 0 < c /\ exists sl, In sl t /\ key_hash sl = h.
Proof.
  unfold drain_coalesce_table. cbn [snd]. rewrite in_concat. intros (l & Hl & HIn).
  apply in_map_iff in Hl as (sl & <- & Hsl). revert HIn. unfold drain_slot.
  case_if; [intros []|]. case_if; [|intros []].
  intros [[= <- <- <-]|[]]. split_and!; auto. exists sl. auto.
Qed.

Lemma hashes_consumed (es : list error_event) h : h <> 0 ->
  h ∈ (list_to_set (filter (fun h => h <> 0) (map ev_hash (rev es))) ∪ ∅ : gset Z) <->
  In h (map ev_hash es).
Proof.
  intros Hh. rewrite (right_id_L ∅ (∪)), elem_of_list_to_set, list_elem_of_filter, list_elem_of_In.
  rewrite map_rev, <- in_rev. tauto.
Qed.

(** The records one worker's error drain produces, in closed form. *)
Lemma drain_errors_eq now wz es :
  ring_ok (wz_error wz) (map event_bytes es) -> Forall event_wf es ->
  (length es <= MAX_ERROR_RECORDS_PER_WORKER_PER_DRAIN)%nat ->
  let counts_vec := snd (drain_coalesce_table (wz_coalesce wz)) in
  let consumed := list_to_set (filter (fun h => h <> 0) (map ev_hash (rev es))) ∪ ∅ in
  exists r', ring_ok r' [] /\ drain_errors now wz =
    (map (event_record now (counts_map_of counts_vec)) es ++
     map (fun '(hash, severity, count) => orphan_record now hash severity count) (orphans consumed counts_vec),
     dropped (wz_error wz), zsum (map snd (orphans consumed counts_vec)),
     mk_zone (wz_access wz) r' (fst (drain_coalesce_table (wz_coalesce wz)))).
Proof.
  intros Hr Hw Hl. cbv zeta. unfold drain_errors.
  destruct (pop_all_split MAX_ERROR_RECORDS_PER_WORKER_PER_DRAIN _ _ Hr) as (r' & -> & Hr').
  rewrite drop_ge in Hr' by (rewrite length_map; exact Hl).
  rewrite take_ge by (rewrite length_map; exact Hl).
  exists r'. split; [exact Hr'|].
  destruct (drain_coalesce_table (wz_coalesce wz)) as [tbl counts_vec]. cbn [fst snd].
  rewrite error_steps by exact Hw. reflexivity.
Qed.

Lemma orphan_sum h now consumed counts_vec : in_u 64 h ->
  Forall (fun e => in_u 64 (fst (fst e))) counts_vec ->
  zsum (map (occurrences_of h)
    (map (fun '(hash, severity, count) => orphan_record now hash severity count)
       (orphans consumed counts_vec))) =
  zsum (map (fun e => if fst (fst e) =? h then snd e else 0) (orphans consumed counts_vec)).
Proof.
  intros Hh Hf. rewrite map_map. f_equal. apply map_ext_in. intros [[hash s] c] HIn. cbn [fst snd].
  apply occurrences_orphan; [exact Hh|]. unfold orphans in HIn.
  apply list_elem_of_In, list_elem_of_filter in HIn as [_ HIn].
  rewrite Forall_forall in Hf. apply (Hf (hash, s, c)), list_elem_of_In, HIn.
Qed.

Lemma event_sum h now counts es : in_u 64 h -> h <> 0 -> Forall event_wf es ->
  zsum (map (occurrences_of h) (map (event_record now counts) es)) =
  zsum (map (fun e => if ev_hash e =? h then Z.max 1 (default 0 (counts !! h)) else 0) es).
Proof.
  intros Hh H0 Hw. rewrite map_map. f_equal. apply map_ext_in. intros e HIn.
  rewrite Forall_forall in Hw. specialize (Hw e HIn).
  rewrite occurrences_event by (exact Hh || apply Hw).
  destruct (Z.eqb_spec (ev_hash e) h); [|rewrite andb_false_r; reflexivity].
  rewrite (proj2 (Z.eqb_neq _ _)) by congruence. reflexivity.
Qed.

(** Distinct keys stay distinct when zero keys and other entries are removed. *)
Lemma NoDup_filter_keys {A} (f : A -> Z) (P : A -> Prop) `{!forall x, Decision (P x)} l :
  NoDup (map f l) -> NoDup (filter (fun h => h <> 0) (map f (filter P l))).
Proof.
  intros Hnd. apply list.NoDup_filter. induction l as [|x l IH]; [constructor|].
  cbn [map] in Hnd. apply list.NoDup_cons in Hnd as [Hn Hd]. rewrite filter_cons.
  destruct (decide (P x)); [|auto]. cbn [map]. apply list.NoDup_cons. split; [|auto].
  intros C. apply Hn. apply list_elem_of_In, in_map_iff in C as (y & E & HIn).
  rewrite <- E. apply list_elem_of_In, in_map. apply list_elem_of_In, list_elem_of_filter in HIn as [_ HIn].
  apply list_elem_of_In. exact HIn.
Qed.

Lemma filter_ext_in {A} (P Q : A -> Prop) `{!forall x, Decision (P x), !forall x, Decision (Q x)} l :
  (forall x, In x l -> P x <-> Q x) -> filter P l = filter Q l.
Proof.
  induction l as [|x l IH]; intros HPQ; [reflexivity|]. rewrite !filter_cons.
  pose proof (HPQ x (or_introl eq_refl)). rewrite IH by (intros; apply HPQ; right; assumption).
  destruct (decide (P x)), (decide (Q x)); tauto || reflexivity.
Qed.

(** No coalesced occurrence is lost between a worker and its
    exporter: when the error ring holds at most one sample per template and the
    drained counts are for distinct templates, the records produced for the
    worker report, for every drained template, exactly its count (on the verbatim
    sample when it reached the ring, on a synthetic record when it did not),
    the orphaned total is the sum of the latter, and the ring ends empty. *)
Theorem coalesced_counts_exact now wz es :
  let counts_vec := snd (drain_coalesce_table (wz_coalesce wz)) in
  ring_ok (wz_error wz) (map event_bytes es) -> Forall event_wf es ->
  Z.of_nat (length es) <= 50000 ->
  NoDup (filter (fun h => h <> 0) (map ev_hash es)) ->
  NoDup (map (fun e => fst (fst e)) counts_vec) ->
  Forall (fun sl => in_u 64 (key_hash sl)) (wz_coalesce wz) ->
  let '(logs, _, orphaned, wz') := drain_errors now wz in
  (forall h s c, In (h, s, c) counts_vec -> zsum (map (occurrences_of h) logs) = c) /\
  orphaned = zsum (map snd (filter (fun e => fst (fst e) ∉ map ev_hash es) counts_vec)) /\
  ring_ok (wz_error wz') [].
Proof.
  intros counts_vec Hr Hw Hl Hes Hcv Htab. subst counts_vec.
  destruct (drain_errors_eq now wz es Hr Hw) as (r' & Hr' & ->);
    [unfold MAX_ERROR_RECORDS_PER_WORKER_PER_DRAIN; lia|].
  set (cv := snd (drain_coalesce_table (wz_coalesce wz))) in *.
  set (consumed := list_to_set (filter (fun h => h <> 0) (map ev_hash (rev es))) ∪ ∅).
  assert (Hcv64 : Forall (fun e => in_u 64 (fst (fst e))) cv).
  { apply Forall_forall. intros [[h s] c] HIn. apply drained_entry in HIn.
    destruct HIn as (_ & _ & sl & HIn & <-). rewrite Forall_forall in Htab. apply Htab, HIn. }
  assert (Ho : orphans consumed cv = filter (fun e => fst (fst e) ∉ map ev_hash es) cv).
  { unfold orphans. apply filter_ext_in. intros [[h s] c] HIn. cbn [fst snd].
    apply drained_entry in HIn as (H0 & Hc & _).
    rewrite list_elem_of_In, <- (hashes_consumed es h H0). subst consumed. tauto. }
  rewrite Ho. split_and!; [|reflexivity|exact Hr'].
  intros h s c HIn. pose proof (drained_entry _ _ _ _ HIn) as (H0 & Hc & _).
  assert (Hh : in_u 64 h) by (rewrite Forall_forall in Hcv64; exact (Hcv64 _ HIn)).
  rewrite map_app, zsum_app, event_sum, <- Ho, orphan_sum, Ho by assumption.
  unfold counts_map_of. rewrite (counts_map_lookup cv ∅ h s c Hcv HIn). cbn [default from_option id].
  destruct (decide (h ∈ map ev_hash es)) as [Hin|Hout].
  - pose proof Hin as Hin'. apply list_elem_of_In, in_map_iff in Hin' as (e & He & HIne).
    rewrite (zsum_key_one ev_hash (fun _ => Z.max 1 c) es h e) by assumption.
    rewrite zsum_key_none; [lia|]. intros C. apply in_map_iff in C as ([[h' s'] c'] & E & C).
    apply list_elem_of_In, list_elem_of_filter in C as [C _]. cbn in E, C. congruence.
  - rewrite zsum_key_none by (rewrite <- list_elem_of_In; exact Hout).
    rewrite (zsum_key_one (fun e => fst (fst e)) snd _ h (h, s, c)); auto.
    + apply list_elem_of_In, list_elem_of_filter. split; [exact Hout|apply list_elem_of_In; exact HIn].
    + apply NoDup_filter_keys. exact Hcv.
Qed.

(** Template 77 coalesced three times with its sample in the ring, template 88
    twice with its sample lost. *)
Definition sample_zone : worker_zone :=
  mk_zone (fresh_ring 64)
    (push_error_record (fresh_ring 1024) 5 4 77 line_a)
    (<[88%nat := mk_slot 88 4 2 true]> (<[77%nat := mk_slot 77 4 3 true]> empty_table)).

Lemma coalesced_counts_exact_witness :
  let '(logs, _, orphaned, _) := drain_errors 9 sample_zone in
  length logs = 2%nat /\ orphaned = 2 /\
  zsum (map (occurrences_of 77) logs) = 3 /\ zsum (map (occurrences_of 88) logs) = 2.
Proof.
  assert (Hr : ring_ok (wz_error sample_zone) (map event_bytes [mk_ev 5 4 77 line_a])).
  { exact (worker_ring_push_law (mk_producer (fresh_ring 1024)) [] (error_bytes 5 4 77 line_a)
      ltac:(apply fresh_ring_ok; unfold u32_max; lia) ltac:(vm_compute; congruence)). }
  pose proof (coalesced_counts_exact 9 sample_zone [mk_ev 5 4 77 line_a] Hr
    ltac:(repeat constructor; vm_compute; congruence) ltac:(cbn; lia)
    ltac:(apply (bool_decide_unpack _); vm_compute; exact I)
    ltac:(apply (bool_decide_unpack _); vm_compute; exact I)
    ltac:(apply (bool_decide_unpack _); vm_compute; exact I)) as H.
  destruct (drain_errors 9 sample_zone) as [[[logs d] o] wz'] eqn:E.
  destruct H as (H1 & H2 & _).
  split; [|split; [|split]].
  - vm_compute in E. injection E as <- _ _ _. reflexivity.
  - rewrite H2. vm_compute. reflexivity.
  - apply (H1 77 4 3). vm_compute. auto.
  - apply (H1 88 4 2). vm_compute. auto.
Defined.
