(* ===== verification/Outcome.v ===== *)
(** * Delivery outcomes (src/src/transport/mod.rs, src/src/transport/hyper_http.rs,
    src/src/transport/grpc/status_adapter.rs)

    Classification of a collector's answer, over HTTP or gRPC, into the
    outcome the exporter's policy acts on, with the [Retry-After] parser.  A
    [Duration] is its number of nanoseconds, a [SystemTime] its number of
    seconds since the epoch.  The protobuf decoders are generated code and
    enter as parameters. *)
From S2P Require Import Prelude DataModel StdText.

(** [src/src/transport/mod.rs: DeliveryOutcome] *)
Inductive delivery_outcome :=
  | Accepted
  | PartialReject (rejected : Z)
  | Retryable (retry_after : option Z)
  | Permanent
  | Unauthorized.

(** [src/src/transport/mod.rs: TransportError] *)
Inductive transport_error :=
  | InvalidEndpoint
  | Connection
  | HttpStatus (code : Z)
  | BodyRead
  | Timeout
  | TlsConfig.

Definition from_secs (s : Z) : Z := s * 1000000000.
Definition from_millis (ms : Z) : Z := ms * 1000000.

(** ** Calendar *)

(** [src/src/transport/hyper_http.rs: parse_u32_bytes] *)
Definition parse_u32_bytes (b : list Z) : option Z :=
  match b with [] => None | _ => digits_val u32_max 0 b end.

(** [src/src/transport/hyper_http.rs: parse_month_name] *)
Definition parse_month_name (b : list Z) : option Z :=
  if bytes_eqb b $"Jan" then Some 1 else if bytes_eqb b $"Feb" then Some 2
  else if bytes_eqb b $"Mar" then Some 3 else if bytes_eqb b $"Apr" then Some 4
  else if bytes_eqb b $"May" then Some 5 else if bytes_eqb b $"Jun" then Some 6
  else if bytes_eqb b $"Jul" then Some 7 else if bytes_eqb b $"Aug" then Some 8
  else if bytes_eqb b $"Sep" then Some 9 else if bytes_eqb b $"Oct" then Some 10
  else if bytes_eqb b $"Nov" then Some 11 else if bytes_eqb b $"Dec" then Some 12
  else None.

(** [src/src/transport/hyper_http.rs: 258-258 days_in_month] *)
Definition is_leap (year : Z) : bool :=
  (year mod 4 =? 0) && (negb (year mod 100 =? 0) || (year mod 400 =? 0)).

(** [src/src/transport/hyper_http.rs: days_in_month] *)
Definition days_in_month (year month : Z) : Z :=
  match month with
  | 1 | 3 | 5 | 7 | 8 | 10 | 12 => 31
  | 4 | 6 | 9 | 11 => 30
  | 2 => if is_leap year then 29 else 28
  | _ => 0
  end.

(** [src/src/transport/hyper_http.rs: days_from_civil] *)
Definition days_from_civil (year month day : Z) : option Z :=
  ym ← (if month <=? 2 then (if year <? 1 then None else Some (year - 1, month + 9))
        else Some (year, month - 3));
  let '(y, m) := (ym : Z * Z) in
  if y <? 1969 then None else
  let era := y / 400 in
  let yoe := y - era * 400 in
  let doy := (153 * m + 2) / 5 + day - 1 in
  let doe := yoe * 365 + yoe / 4 - yoe / 100 + doy in
  let days := era * 146097 + doe in
  if days <? 719468 then None else Some (days - 719468).

(** [src/src/transport/hyper_http.rs: parse_imf_fixdate] *)
Definition parse_imf_fixdate (b : list Z) : option Z :=
  if negb (blen b =? 29) then None else
  if negb (byte_at b 3 =? 44) || negb (byte_at b 4 =? 32) then None else
  if negb (byte_at b 7 =? 32) || negb (byte_at b 11 =? 32) || negb (byte_at b 16 =? 32) then None else
  if negb (byte_at b 19 =? 58) || negb (byte_at b 22 =? 58) then None else
  if negb (byte_at b 25 =? 32) || negb (byte_at b 26 =? 71) || negb (byte_at b 27 =? 77)
     || negb (byte_at b 28 =? 84) then None else
  day ← parse_u32_bytes (slice b 5 7);
  month ← parse_month_name (slice b 8 11);
  year ← parse_u32_bytes (slice b 12 16);
  hour ← parse_u32_bytes (slice b 17 19);
  mins ← parse_u32_bytes (slice b 20 22);
  sec ← parse_u32_bytes (slice b 23 25);
  if (month =? 0) || (12 <? month) then None else
  if (day =? 0) || (days_in_month year month <? day) then None else
  if (23 <? hour) || (59 <? mins) || (60 <? sec) then None else
  unix_days ← days_from_civil year month day;
  s1 ← checked64 (unix_days * 86400);
  s2 ← checked64 (s1 + hour * 3600);
  s3 ← checked64 (s2 + mins * 60);
  checked64 (s3 + sec).

(** [now_ns] is the wall clock in nanoseconds.
    [src/src/transport/hyper_http.rs: parse_retry_after] *)
Definition parse_retry_after (now_ns : Z) (value : list Z) : option Z :=
  let v := trim value in
  match parse_u64 v with
  | Some secs => Some (from_secs secs)
  | None =>
      t ← parse_imf_fixdate v;
      if now_ns <=? from_secs t then Some (from_secs t - now_ns) else None
  end.

(** ** HTTP *)

(** [src/src/transport/hyper_http.rs: OtlpSignal] *)
Inductive otlp_signal := SigMetrics | SigLogs | SigTraces.
#[export] Instance otlp_signal_eq_dec : EqDecision otlp_signal.
Proof. solve_decision. Defined.

Section http.
(** Decoder of [Export*ServiceResponse]: [None] when the body is malformed,
    otherwise the [rejected_*] field of [partial_success], if present. *)
Context (decode_response : otlp_signal -> list Z -> option (option Z)).

(** [src/src/transport/hyper_http.rs: decode_partial_success_rejected] *)
Definition decode_partial_success_rejected (signal : otlp_signal) (body : list Z) : Z :=
  let rejected := match decode_response signal body with
                  | Some (Some n) => n
                  | _ => 0
                  end in
  if rejected <? 0 then 0 else rejected.

(** [src/src/transport/hyper_http.rs: map_http_status_to_outcome] *)
Definition map_http_status_to_outcome (status : Z) (retry_after : option Z) : delivery_outcome :=
  match status with
  | 429 | 502 | 503 | 504 => Retryable retry_after
  | 401 | 403 => Unauthorized
  | _ => Permanent
  end.

(** [src/src/transport/hyper_http.rs: http_response_to_outcome] *)
Definition http_response_to_outcome (now_ns status : Z) (retry_after_header : option (list Z))
    (body : list Z) (signal : otlp_signal) : delivery_outcome :=
  if (200 <=? status) && (status <? 300) then
    let rejected := decode_partial_success_rejected signal body in
    if 0 <? rejected then PartialReject rejected else Accepted
  else
    map_http_status_to_outcome status
      (h ← retry_after_header; parse_retry_after now_ns h).
End http.

(** ** gRPC *)

(** The status codes of the gRPC specification. *)
Inductive grpc_code :=
  | GOk | GCancelled | GUnknown | GInvalidArgument | GDeadlineExceeded | GNotFound
  | GAlreadyExists | GPermissionDenied | GResourceExhausted | GFailedPrecondition
  | GAborted | GOutOfRange | GUnimplemented | GInternal | GUnavailable | GDataLoss
  | GUnauthenticated.

(** [src/src/transport/grpc/status_adapter.rs: RETRY_INFO_TYPE_SUFFIX] *)
Definition RETRY_INFO_TYPE_SUFFIX : list Z := $"google.rpc.RetryInfo".

Definition ends_with (l suffix : list Z) : bool :=
  (length suffix <=? length l)%nat && bytes_eqb (drop (length l - length suffix) l) suffix.

(** Seconds and nanoseconds, both signed.
    [src/src/transport/grpc/status_adapter.rs: proto_duration_to_std] *)
Definition proto_duration_to_std (seconds nanos : Z) : option Z :=
  let total_nanos := seconds * 1000000000 + nanos in
  if total_nanos <=? 0 then None else
  let secs := u64 (total_nanos / 1000000000) in
  let n := u32 (total_nanos mod 1000000000) in
  Some (secs * 1000000000 + n).

(** [src/src/transport/grpc/status_adapter.rs: grpc_code_to_outcome] *)
Definition grpc_code_to_outcome (code : grpc_code) (hint : option Z) : delivery_outcome :=
  match code with
  | GOk => Accepted
  | GCancelled | GDeadlineExceeded | GAborted | GOutOfRange | GUnavailable | GDataLoss =>
      Retryable hint
  | GResourceExhausted =>
      match hint with Some _ => Retryable hint | None => Permanent end
  | GInvalidArgument | GInternal | GUnimplemented => Permanent
  | GUnauthenticated | GPermissionDenied => Unauthorized
  | _ => Permanent
  end.

Section grpc.
(** Decoders of [google.rpc.Status] (its [details]: type URL and value) and of
    [google.rpc.RetryInfo] (its [retry_delay]). *)
Context (decode_status : list Z -> option (list (list Z * list Z))).
Context (decode_retry_info : list Z -> option (option (Z * Z))).

(** The loop over the details.
    [src/src/transport/grpc/status_adapter.rs: 172-184 extract_retry_info_from_details] *)
Fixpoint find_retry_info (details : list (list Z * list Z)) : option Z :=
  match details with
  | [] => None
  | (type_url, value) :: rest =>
      if negb (ends_with type_url RETRY_INFO_TYPE_SUFFIX) then find_retry_info rest else
      match decode_retry_info value with
      | None => None
      | Some (Some (s, n)) => proto_duration_to_std s n
      | Some None => find_retry_info rest
      end
  end.

(** [src/src/transport/grpc/status_adapter.rs: extract_retry_info_from_details] *)
Definition extract_retry_info_from_details (raw : list Z) : option Z :=
  if blen raw =? 0 then None else
  details ← decode_status raw; find_retry_info details.

(** [pushback] is the [grpc-retry-pushback-ms] trailer when it is a string.
    [src/src/transport/grpc/status_adapter.rs: extract_grpc_retry_hint] *)
Definition extract_grpc_retry_hint (pushback : option (list Z)) (details : list Z) : option Z :=
  let p := s ← pushback; ms ← parse_i64 (trim s);
           if 0 <? ms then Some (from_millis ms) else None in
  match p with
  | Some _ => p
  | None => extract_retry_info_from_details details
  end.

(** [src/src/transport/grpc/status_adapter.rs: grpc_status_to_outcome] *)
Definition grpc_status_to_outcome (code : grpc_code) (pushback : option (list Z))
    (details : list Z) : delivery_outcome :=
  grpc_code_to_outcome code (extract_grpc_retry_hint pushback details).
End grpc.

(** ** The calendar agrees with counting days *)

Definition year_len (y : Z) : Z := if is_leap y then 366 else 365.

(** Days in the [n] years from 1970 on. *)
Fixpoint days_of_years (n : nat) : Z :=
  match n with
  | O => 0
  | S n' => days_of_years n' + year_len (1970 + Z.of_nat n')
  end.

(** Days in the first [n] months of the year. *)
Fixpoint days_of_months (y : Z) (n : nat) : Z :=
  match n with
  | O => 0
  | S n' => days_of_months y n' + days_in_month y (Z.of_nat (S n'))
  end.

(** Whole days between 1970-01-01 and the given date, by counting. *)
Definition epoch_day (y m d : Z) : Z :=
  days_of_years (Z.to_nat (y - 1970)) + days_of_months y (Z.to_nat (m - 1)) + (d - 1).

Definition valid_date (y m d : Z) : Prop :=
  1970 <= y /\ 1 <= m <= 12 /\ 1 <= d <= days_in_month y m.

(** Closed form of the day number of March 1st of year [y]. *)
Definition march_days (y : Z) : Z := 365 * y + y / 4 - y / 100 + y / 400 - 719468.

Lemma era_split y : 0 <= y ->
  let era := y / 400 in let yoe := y - era * 400 in
  era * 146097 + (yoe * 365 + yoe / 4 - yoe / 100) = march_days y + 719468.
Proof. unfold march_days. cbv zeta. intros. zdiv. Qed.

Lemma is_leap_spec y : (if is_leap y then 1 else 0) =
  (y / 4 - (y - 1) / 4) - (y / 100 - (y - 1) / 100) + (y / 400 - (y - 1) / 400).
Proof.
  unfold is_leap.
  destruct (Z.eqb_spec (y mod 4) 0), (Z.eqb_spec (y mod 100) 0), (Z.eqb_spec (y mod 400) 0);
    cbn [andb orb negb]; zdiv.
Qed.

Lemma days_of_years_spec n :
  days_of_years n = march_days (1970 + Z.of_nat n - 1) + 306.
Proof.
  induction n as [|n IH]; [reflexivity|]. cbn [days_of_years]. rewrite IH.
  assert (L := is_leap_spec (1970 + Z.of_nat n)).
  replace (1970 + Z.of_nat (S n) - 1) with (1970 + Z.of_nat n) by lia.
  unfold march_days, year_len. destruct (is_leap _); lia.
Qed.

Lemma days_from_civil_eq y m d : valid_date y m d ->
  days_from_civil y m d =
  Some (if m <=? 2 then march_days (y - 1) + (153 * (m + 9) + 2) / 5 + d - 1
        else march_days y + (153 * (m - 3) + 2) / 5 + d - 1).
Proof.
  intros (Hy & Hm & Hd). unfold days_from_civil.
  pose proof (era_split y) as E0. pose proof (era_split (y - 1)) as E1. cbv zeta in E0, E1.
  assert (B : forall z, 1969 <= z -> march_days z >= -306)
    by (intros; unfold march_days; zdiv).
  pose proof (B y) as B0. pose proof (B (y - 1)) as B1.
  destruct (m <=? 2) eqn:Em; zify_bool.
  - rewrite (proj2 (Z.ltb_ge y 1)) by lia. cbn [mbind option_bind].
    rewrite (proj2 (Z.ltb_ge (y - 1) 1969)) by lia. cbv zeta.
    assert (306 <= (153 * (m + 9) + 2) / 5) by zdiv.
    rewrite (proj2 (Z.ltb_ge _ 719468)) by lia. f_equal; lia.
  - cbn [mbind option_bind].
    rewrite (proj2 (Z.ltb_ge y 1969)) by lia. cbv zeta.
    assert (0 <= (153 * (m - 3) + 2) / 5) by zdiv.
    assert (y = 1969 \/ march_days y >= 0) by (unfold march_days; zdiv).
    rewrite (proj2 (Z.ltb_ge _ 719468)) by lia. f_equal; lia.
Qed.

Lemma month_cases m : 1 <= m <= 12 -> In m [1;2;3;4;5;6;7;8;9;10;11;12].
Proof. intros; simpl; lia. Qed.

Lemma days_from_civil_counts y m d : valid_date y m d ->
  days_from_civil y m d = Some (epoch_day y m d).
Proof.
  intros V. rewrite (days_from_civil_eq _ _ _ V). destruct V as (Hy & Hm & Hd). f_equal.
  unfold epoch_day. rewrite days_of_years_spec.
  replace (1970 + Z.of_nat (Z.to_nat (y - 1970)) - 1) with (y - 1) by lia.
  assert (L := is_leap_spec y).
  apply month_cases in Hm; simpl in Hm; repeat destruct Hm as [<-|Hm]; try contradiction;
    match goal with |- context [Z.to_nat (?k - 1)] =>
      let n := eval vm_compute in (Z.to_nat (k - 1)) in change (Z.to_nat (k - 1)) with n end;
    cbv [days_of_months days_in_month Z.of_nat Pos.of_succ_nat Pos.succ];
    cbn [Z.leb Z.compare Pos.compare Pos.compare_cont]; unfold march_days;
    destruct (is_leap y); zdiv.
Qed.

(** ** Printing an IMF-fixdate *)

Definition digit2 (n : Z) : list Z := [48 + n / 10; 48 + n mod 10].
Definition digit4 (n : Z) : list Z := digit2 (n / 100) ++ digit2 (n mod 100).

Definition month_name (m : Z) : list Z :=
  match m with
  | 1 => $"Jan" | 2 => $"Feb" | 3 => $"Mar" | 4 => $"Apr" | 5 => $"May" | 6 => $"Jun"
  | 7 => $"Jul" | 8 => $"Aug" | 9 => $"Sep" | 10 => $"Oct" | 11 => $"Nov" | _ => $"Dec"
  end.

(** The RFC 7231 date, e.g. [Sun, 06 Nov 1994 08:49:37 GMT]; the three bytes
    of the weekday are free. *)
Definition print_imf_fixdate (w1 w2 w3 y m d h mi s : Z) : list Z :=
  [w1; w2; w3; 44; 32] ++ digit2 d ++ [32] ++ month_name m ++ [32] ++ digit4 y ++ [32]
  ++ digit2 h ++ [58] ++ digit2 mi ++ [58] ++ digit2 s ++ $" GMT".

Definition valid_time (h mi s : Z) : Prop := 0 <= h <= 23 /\ 0 <= mi <= 59 /\ 0 <= s <= 60.

Definition epoch_seconds (y m d h mi s : Z) : Z :=
  epoch_day y m d * 86400 + h * 3600 + mi * 60 + s.

Lemma is_digit_of n : 0 <= n <= 9 -> is_digit (48 + n) = true.
Proof. intros. unfold is_digit. apply andb_true_intro; split; apply Z.leb_le; lia. Qed.

Lemma digits_val_step max acc n l : 0 <= n <= 9 -> acc * 10 + n <= max ->
  digits_val max acc ((48 + n) :: l) = digits_val max (acc * 10 + n) l.
Proof.
  intros Hn Hm. cbn [digits_val]. rewrite (is_digit_of _ Hn).
  replace (acc * 10 + (48 + n - 48)) with (acc * 10 + n) by lia. cbv zeta.
  rewrite (proj2 (Z.ltb_ge _ _)) by lia. reflexivity.
Qed.

Lemma parse_digit2 n : 0 <= n < 100 -> parse_u32_bytes (digit2 n) = Some n.
Proof.
  intros. unfold parse_u32_bytes, digit2.
  rewrite !digits_val_step by (unfold u32_max; zdiv). cbn [digits_val]. f_equal. zdiv.
Qed.

Lemma parse_digit4 n : 0 <= n < 10000 -> parse_u32_bytes (digit4 n) = Some n.
Proof.
  intros. unfold parse_u32_bytes, digit4, digit2. cbn [app].
  rewrite !digits_val_step by (unfold u32_max; zdiv). cbn [digits_val]. f_equal. zdiv.
Qed.

Lemma parse_month_print m : 1 <= m <= 12 ->
  parse_month_name (month_name m) = Some m /\ length (month_name m) = 3%nat.
Proof.
  intros Hm; apply month_cases in Hm; simpl in Hm; repeat destruct Hm as [<-|Hm];
    try contradiction; split; reflexivity.
Qed.

Lemma days_in_month_le y m : 0 <= days_in_month y m <= 31.
Proof. unfold days_in_month. destruct (is_leap y); repeat case_match; lia. Qed.

Lemma days_of_months_le y n : 0 <= days_of_months y n <= 31 * Z.of_nat n.
Proof.
  induction n as [|n IH]; [simpl; lia|]. cbn [days_of_months].
  pose proof (days_in_month_le y (Z.of_nat (S n))). lia.
Qed.

Lemma epoch_day_range y m d : valid_date y m d -> y < 10000 -> 0 <= epoch_day y m d < 3700000.
Proof.
  intros (Hy & Hm & Hd) Hy2. unfold epoch_day. rewrite days_of_years_spec.
  pose proof (days_of_months_le y (Z.to_nat (m - 1))). pose proof (days_in_month_le y m).
  replace (1970 + Z.of_nat (Z.to_nat (y - 1970)) - 1) with (y - 1) by lia.
  unfold march_days. zdiv.
Qed.

Lemma checked64_some z : 0 <= z <= u64_max -> checked64 z = Some z.
Proof.
  intros. unfold checked64. rewrite (proj2 (Z.leb_le 0 z)), (proj2 (Z.leb_le z _)) by lia. reflexivity.
Qed.

(** The positions the parser reads. *)
Lemma fixdate_shape w1 w2 w3 y m d h mi s (b := print_imf_fixdate w1 w2 w3 y m d h mi s) :
  length (month_name m) = 3%nat ->
  blen b = 29 /\
  Forall (fun p => byte_at b p.1 = p.2)
    [(3, 44); (4, 32); (7, 32); (11, 32); (16, 32); (19, 58); (22, 58); (25, 32); (26, 71);
     (27, 77); (28, 84)] /\
  slice b 5 7 = digit2 d /\ slice b 8 11 = month_name m /\ slice b 12 16 = digit4 y /\
  slice b 17 19 = digit2 h /\ slice b 20 22 = digit2 mi /\ slice b 23 25 = digit2 s.
Proof.
  subst b. unfold print_imf_fixdate. destruct (month_name m) as [|a1 [|a2 [|a3 [|]]]]; try discriminate.
  intros _. repeat split; repeat constructor.
Qed.

Lemma parse_print_fixdate w1 w2 w3 y m d h mi s :
  valid_date y m d -> y < 10000 -> valid_time h mi s ->
  parse_imf_fixdate (print_imf_fixdate w1 w2 w3 y m d h mi s) = Some (epoch_seconds y m d h mi s).
Proof.
  intros V Hy (Hh & Hmi & Hs). pose proof (epoch_day_range _ _ _ V Hy) as R.
  pose proof (days_from_civil_counts _ _ _ V) as D. destruct V as (Hy0 & Hm & Hd).
  pose proof (days_in_month_le y m).
  destruct (parse_month_print m Hm) as [PM LM].
  pose proof (fixdate_shape w1 w2 w3 y m d h mi s LM) as (S0 & S1 & S2 & S3 & S4 & S5 & S6 & S7).
  unfold parse_imf_fixdate. rewrite S0, S2, S3, S4, S5, S6, S7.
  rewrite !Forall_cons_iff in S1. cbn [fst snd] in S1. destruct_and! S1.
  repeat match goal with E : byte_at _ _ = _ |- _ => rewrite E; clear E end. cbn [Z.eqb Pos.eqb negb orb].
  rewrite !parse_digit2, parse_digit4, PM by lia. cbn [mbind option_bind].
  rewrite (proj2 (Z.eqb_neq m 0)), (proj2 (Z.ltb_ge 12 m)), (proj2 (Z.eqb_neq d 0)),
    (proj2 (Z.ltb_ge (days_in_month y m) d)), (proj2 (Z.ltb_ge 23 h)), (proj2 (Z.ltb_ge 59 mi)),
    (proj2 (Z.ltb_ge 60 s)) by lia. cbn [orb]. rewrite D.
  unfold epoch_seconds. do 3 (cbn [mbind option_bind]; rewrite checked64_some by (unfold u64_max; lia)).
  cbn [mbind option_bind]. apply checked64_some. unfold u64_max; lia.
Qed.

Lemma digits_val_nondigit max acc l c : is_digit c = false -> In c l -> digits_val max acc l = None.
Proof.
  intros Hc. revert acc. induction l as [|b l IH]; intros acc; [intros []|]. intros [->|HIn]; cbn [digits_val].
  - rewrite Hc. reflexivity.
  - case_if; [|reflexivity]. case_if; [reflexivity|]. auto.
Qed.

Lemma trim_solid x l y : is_space x = false -> is_space y = false ->
  trim (x :: l ++ [y]) = x :: l ++ [y].
Proof.
  intros Hx Hy. unfold trim. cbn [trim_start]. rewrite Hx.
  rewrite app_comm_cons, reverse_snoc. cbn [trim_start]. rewrite Hy.
  rewrite <- reverse_snoc. apply reverse_involutive.
Qed.

Lemma trim_fixdate w1 w2 w3 y m d h mi s : is_space w1 = false ->
  trim (print_imf_fixdate w1 w2 w3 y m d h mi s) = print_imf_fixdate w1 w2 w3 y m d h mi s.
Proof.
  intros. replace (print_imf_fixdate w1 w2 w3 y m d h mi s) with
    (w1 :: ([w2; w3; 44; 32] ++ digit2 d ++ [32] ++ month_name m ++ [32] ++ digit4 y ++ [32]
       ++ digit2 h ++ [58] ++ digit2 mi ++ [58] ++ digit2 s ++ [32; 71; 77]) ++ [84])
    by (rewrite <- !app_assoc; reflexivity).
  apply trim_solid; auto.
Qed.

Lemma fixdate_not_u64 w1 w2 w3 y m d h mi s :
  parse_u64 (print_imf_fixdate w1 w2 w3 y m d h mi s) = None.
Proof.
  assert (H : forall l, digits_val u64_max 0 ([w2; w3; 44] ++ l) = None)
    by (intros; apply (digits_val_nondigit _ _ _ 44); [reflexivity | simpl; auto]).
  assert (H' : forall l, digits_val u64_max 0 ([w1; w2; w3; 44] ++ l) = None)
    by (intros; apply (digits_val_nondigit _ _ _ 44); [reflexivity | simpl; auto]).
  unfold parse_u64, parse_unsigned, print_imf_fixdate. cbn [app].
  cbn [app] in H, H'. repeat case_match; simplify_eq; auto.
Qed.

(** A [Retry-After] header carrying any valid RFC 7231 date
    from 1970 to 9999 yields exactly the time left until that date, where the
    date's instant is found by counting the days of the Gregorian years and
    months since 1970; a date in the past yields no hint. *)
Theorem retry_after_date w1 w2 w3 y m d h mi s now :
  is_space w1 = false -> valid_date y m d -> y < 10000 -> valid_time h mi s ->
  let t := from_secs (epoch_seconds y m d h mi s) in
  parse_retry_after now (print_imf_fixdate w1 w2 w3 y m d h mi s) =
  if now <=? t then Some (t - now) else None.
Proof.
  intros Hw V Hy T t. unfold parse_retry_after.
  rewrite trim_fixdate, fixdate_not_u64, parse_print_fixdate by assumption. reflexivity.
Qed.

(** Leap day 2024, 2.5 s ahead. *)
Lemma retry_after_date_witness :
  parse_retry_after (from_secs 1709210969 + 500000000)
    $"Thu, 29 Feb 2024 12:49:32 GMT" = Some 2500000000.
Proof.
  rewrite (retry_after_date 84 104 117 2024 2 29 12 49 32); [| | repeat split| |repeat split];
    vm_compute; reflexivity || discriminate.
Defined.

(** Every HTTP answer is classified: accepted or partially
    rejected exactly for 2xx (the latter when the decoded reply rejects a positive
    count), retryable with the parsed [Retry-After] hint exactly for
    429/502/503/504, unauthorised for 401/403, and permanent for every other
    status, redirections and other server errors included. *)
Theorem http_outcome_classified decode now status ra body sig :
  let out := http_response_to_outcome decode now status ra body sig in
  let ok := 200 <= status < 300 in
  let transient := In status [429; 502; 503; 504] in
  let auth := In status [401; 403] in
  (out = Accepted <-> ok /\ forall n, decode sig body = Some (Some n) -> n <= 0) /\
  (forall n, out = PartialReject n <-> ok /\ decode sig body = Some (Some n) /\ 0 < n) /\
  (forall hint, out = Retryable hint <->
     transient /\ hint = (h ← ra; parse_retry_after now h)) /\
  (out = Unauthorized <-> auth) /\
  (out = Permanent <-> ~ ok /\ ~ transient /\ ~ auth).
Proof.
  intros out ok transient auth. subst out ok transient auth.
  unfold http_response_to_outcome, decode_partial_success_rejected.
  generalize (h ← ra; parse_retry_after now h). intros hint.
  destruct ((200 <=? status) && (status <? 300)) eqn:E; zify_bool.
  - assert (forall l, Forall (fun c => ~ 200 <= c < 300) l -> ~ In status l)
      by (intros l Hl HIn; rewrite List.Forall_forall in Hl; apply (Hl _ HIn); lia).
    assert (~ In status [429; 502; 503; 504]) by (apply H1; repeat constructor; lia).
    assert (~ In status [401; 403]) by (apply H1; repeat constructor; lia).
    destruct (decode sig body) as [[n|]|]; cbn -[In]; repeat (case_if; try lia); cbn -[In];
      repeat split; intros; destruct_and?; simplify_eq; try lia; try tauto;
      match goal with H : forall _, Some (Some _) = _ -> _ |- _ =>
        specialize (H _ eq_refl); lia end.
  - assert (~ 200 <= status < 300) by (apply andb_false_iff in E as [|]; zify_bool; lia).
    unfold map_http_status_to_outcome. repeat case_match; cbn; repeat split; intros;
      destruct_and?; try discriminate; try congruence; simplify_eq; try tauto; try lia.
Qed.

(** ** gRPC hints *)

Lemma proto_duration_exact s n :
  - 2 ^ 63 <= s < 2 ^ 63 -> - 2 ^ 31 <= n < 2 ^ 31 ->
  proto_duration_to_std s n =
  let total := s * 1000000000 + n in if total <=? 0 then None else Some total.
Proof.
  intros Hs Hn. unfold proto_duration_to_std. cbv zeta. case_if; [reflexivity|]. f_equal.
  rewrite u64_small, u32_small by (unfold u64_max, u32_max; zdiv). zdiv.
Qed.

Section grpc_hints.
Context (decode_status : list Z -> option (list (list Z * list Z))).
Context (decode_retry_info : list Z -> option (option (Z * Z))).
(** The fields of a protobuf [Duration] are an [int64] and an [int32]. *)
Hypothesis duration_fields : forall v s n, decode_retry_info v = Some (Some (s, n)) ->
  - 2 ^ 63 <= s < 2 ^ 63 /\ - 2 ^ 31 <= n < 2 ^ 31.

Lemma find_retry_info_pos details d : find_retry_info decode_retry_info details = Some d -> 0 < d.
Proof.
  induction details as [|[u v] rest IH]; [discriminate|]. cbn [find_retry_info].
  case_if; [exact IH|]. destruct (decode_retry_info v) as [[[s n]|]|] eqn:Ev; [|exact IH|discriminate].
  destruct (duration_fields _ _ _ Ev) as [Hs Hn]. rewrite proto_duration_exact by assumption.
  cbv zeta. case_if; [discriminate|]. intros [= <-]. lia.
Qed.

Lemma grpc_hint_pos pushback details d :
  extract_grpc_retry_hint decode_status decode_retry_info pushback details = Some d -> 0 < d.
Proof.
  unfold extract_grpc_retry_hint, extract_retry_info_from_details.
  destruct pushback as [s|]; cbn.
  - destruct (parse_i64 (trim s)) as [ms|]; cbn.
    + case_if; [intros [= <-]; unfold from_millis; lia|].
      case_if; [discriminate|]. destruct (decode_status details); [apply find_retry_info_pos|discriminate].
    + case_if; [discriminate|]. destruct (decode_status details); [apply find_retry_info_pos|discriminate].
  - case_if; [discriminate|]. destruct (decode_status details); [apply find_retry_info_pos|discriminate].
Qed.

(** Every gRPC status is classified: the six transient codes
    are retryable with or without a server hint, [ResourceExhausted] only when the
    server gave one, [Unauthenticated] and [PermissionDenied] are unauthorised,
    and nothing but [Ok] is accepted.  A hint is strictly positive, and a positive
    [grpc-retry-pushback-ms] trailer takes precedence over [RetryInfo]. *)
Theorem grpc_outcome_classified code pushback details :
  let hint := extract_grpc_retry_hint decode_status decode_retry_info pushback details in
  let out := grpc_status_to_outcome decode_status decode_retry_info code pushback details in
  (out = Accepted <-> code = GOk) /\
  (forall h, out = Retryable h <-> h = hint /\
     (In code [GCancelled; GDeadlineExceeded; GAborted; GOutOfRange; GUnavailable; GDataLoss]
      \/ (code = GResourceExhausted /\ hint <> None))) /\
  (out = Unauthorized <-> In code [GUnauthenticated; GPermissionDenied]) /\
  (forall n, out <> PartialReject n) /\
  (forall d, hint = Some d -> 0 < d) /\
  (forall s ms, pushback = Some s -> parse_i64 (trim s) = Some ms -> 0 < ms ->
     hint = Some (from_millis ms)).
Proof.
  intros hint out. subst out. unfold grpc_status_to_outcome. fold hint.
  split_and!; [| | | |exact (grpc_hint_pos pushback details) |].
  - destruct code; cbn; destruct hint; split; congruence.
  - intros h. clearbody hint. clear. destruct code; cbn; destruct hint; split; intros H;
      (injection H as <- || discriminate H || destruct H as [-> H]); intuition congruence.
  - clearbody hint. clear. destruct code; cbn; destruct hint; intuition congruence.
  - intros n. destruct code; cbn; destruct hint; congruence.
  - intros s ms -> P Hms. subst hint. unfold extract_grpc_retry_hint. cbn. rewrite P. cbn.
    rewrite (proj2 (Z.ltb_lt 0 ms)) by lia. reflexivity.
Qed.
End grpc_hints.

(** A one-detail status whose [RetryInfo] asks for 1.5 s. *)
Lemma grpc_outcome_classified_witness :
  grpc_status_to_outcome (fun _ => Some [($"type.googleapis.com/google.rpc.RetryInfo", [])])
    (fun _ => Some (Some (1, 500000000))) GResourceExhausted None [1] =
  Retryable (Some 1500000000).
Proof.
  refine (proj2 (proj1 (proj2 (grpc_outcome_classified
    (fun _ => Some [($"type.googleapis.com/google.rpc.RetryInfo", [])])
    (fun _ => Some (Some (1, 500000000))) _ GResourceExhausted None [1])) _) _).
  - intros v s n [= <- <-]. lia.
  - split; [reflexivity|]. right. split; [reflexivity|discriminate].
Defined.
