(* ===== verification/Backoff.v ===== *)
(** * Outcome policy, backoff and the bounded retry queue
    (src/src/drain/backoff.rs, src/src/drain/graceful.rs, src/src/drain/self_metrics.rs)

    The exporter's reaction to a delivery outcome: release, requeue with a
    deferral of the signal's next drain, or drop, together with the
    self-metric counters; and the retry queue with its drop-oldest bound.
    The process-wide atomics are the record [counters]. *)
From S2P Require Import Prelude DataModel Outcome.

(** ** State *)

(** The three signal lanes, each with its own queue, backoff and counter. *)
Inductive lane := LMetrics | LLogs | LSpans.

(** The self-metric atomics of the exporter process; [cred_lines] is the
    number of check-credentials lines written to the error log.
    [src/src/drain/self_metrics.rs: 32-105 self-metric atomics] *)
Record counters := mk_counters {
  DROPPED_RECORDS : Z;
  PERMANENT_REJECTED : Z;
  PARTIAL_REJECTED : Z;
  UNAUTHORIZED_REJECTED : Z;
  SEND_FAILURES : Z;
  LOGS_SEND_FAILURES : Z;
  TRACES_SEND_FAILURES : Z;
  ACCESS_LOGS_DROPPED : Z;
  ERROR_LOGS_DROPPED : Z;
  ERROR_LOGS_COALESCED_ORPHANED : Z;
  TRACES_DROPPED_RECORDS : Z;
  UNAUTHORIZED_LOG_LAST_MSEC : Z;
  cred_lines : Z
}.

Definition zero_counters : counters := mk_counters 0 0 0 0 0 0 0 0 0 0 0 0 0.

(** [fetch_add] on each counter. *)
Definition add_dropped (n : Z) (c : counters) : counters :=
  mk_counters (DROPPED_RECORDS c +w64 n) (PERMANENT_REJECTED c) (PARTIAL_REJECTED c)
    (UNAUTHORIZED_REJECTED c) (SEND_FAILURES c) (LOGS_SEND_FAILURES c) (TRACES_SEND_FAILURES c)
    (ACCESS_LOGS_DROPPED c) (ERROR_LOGS_DROPPED c) (ERROR_LOGS_COALESCED_ORPHANED c)
    (TRACES_DROPPED_RECORDS c) (UNAUTHORIZED_LOG_LAST_MSEC c) (cred_lines c).

Definition add_verdicts (perm part unauth : Z) (c : counters) : counters :=
  mk_counters (DROPPED_RECORDS c) (PERMANENT_REJECTED c +w64 perm) (PARTIAL_REJECTED c +w64 part)
    (UNAUTHORIZED_REJECTED c +w64 unauth) (SEND_FAILURES c) (LOGS_SEND_FAILURES c)
    (TRACES_SEND_FAILURES c) (ACCESS_LOGS_DROPPED c) (ERROR_LOGS_DROPPED c)
    (ERROR_LOGS_COALESCED_ORPHANED c) (TRACES_DROPPED_RECORDS c) (UNAUTHORIZED_LOG_LAST_MSEC c)
    (cred_lines c).

(** [failure_counter.fetch_add(1)] with the counter of the lane. *)
Definition bump_failure (l : lane) (c : counters) : counters :=
  let d x := match l, x with
             | LMetrics, LMetrics | LLogs, LLogs | LSpans, LSpans => 1
             | _, _ => 0
             end in
  mk_counters (DROPPED_RECORDS c) (PERMANENT_REJECTED c) (PARTIAL_REJECTED c)
    (UNAUTHORIZED_REJECTED c) (SEND_FAILURES c +w64 d LMetrics) (LOGS_SEND_FAILURES c +w64 d LLogs)
    (TRACES_SEND_FAILURES c +w64 d LSpans) (ACCESS_LOGS_DROPPED c) (ERROR_LOGS_DROPPED c)
    (ERROR_LOGS_COALESCED_ORPHANED c) (TRACES_DROPPED_RECORDS c) (UNAUTHORIZED_LOG_LAST_MSEC c)
    (cred_lines c).

Definition set_unauthorized_log (last : Z) (c : counters) : counters :=
  mk_counters (DROPPED_RECORDS c) (PERMANENT_REJECTED c) (PARTIAL_REJECTED c)
    (UNAUTHORIZED_REJECTED c) (SEND_FAILURES c) (LOGS_SEND_FAILURES c) (TRACES_SEND_FAILURES c)
    (ACCESS_LOGS_DROPPED c) (ERROR_LOGS_DROPPED c) (ERROR_LOGS_COALESCED_ORPHANED c)
    (TRACES_DROPPED_RECORDS c) last (cred_lines c + 1).

(** [src/src/drain/backoff.rs: SignalBackoff] *)
Record signal_backoff := mk_backoff {
  not_before_msec : Z;
  consecutive_retryable : Z
}.
Definition backoff_default : signal_backoff := mk_backoff 0 0.

(** [src/src/drain/backoff.rs: SignalBackoff::is_deferred] *)
Definition is_deferred (b : signal_backoff) (now_msec : Z) : bool :=
  negb (not_before_msec b =? 0) && (now_msec <? not_before_msec b).

(** [src/src/drain/backoff.rs: OutcomeAction] *)
Inductive outcome_action := Release | Requeue | Drop.

(** [src/src/drain/mod.rs: BACKOFF_BASE_MS] *)
Definition BACKOFF_BASE_MS : Z := 250.
(** [src/src/drain/mod.rs: BACKOFF_CAP_MS] *)
Definition BACKOFF_CAP_MS : Z := 30000.
(** [src/src/drain/backoff.rs: UNAUTHORIZED_LOG_INTERVAL_MS] *)
Definition UNAUTHORIZED_LOG_INTERVAL_MS : Z := 60000.

(** ** Policy *)

(** [u64::leading_zeros] *)
Definition leading_zeros64 (z : Z) : Z := if z =? 0 then 64 else 63 - Z.log2 z.

(** [src/src/drain/backoff.rs: backoff_ms] *)
Definition backoff_ms (consecutive base_ms cap_ms : Z) : Z :=
  if base_ms =? 0 then 0 else
  let shift := sat_sub consecutive 1 in
  if leading_zeros64 base_ms <=? shift then cap_ms
  else Z.min (u64 (Z.shiftl base_ms shift)) cap_ms.

(** [now] is [ngx_current_msec]; the log pointer is non-null in the exporter.
    [src/src/drain/backoff.rs: maybe_log_unauthorized] *)
Definition maybe_log_unauthorized (now : Z) (c : counters) : counters :=
  let last := UNAUTHORIZED_LOG_LAST_MSEC c in
  if negb (last =? 0) && (sat_sub now last <? UNAUTHORIZED_LOG_INTERVAL_MS) then c
  else set_unauthorized_log (Z.max now 1) c.

(** [src/src/drain/backoff.rs: is_permanent_rejection] *)
Definition is_permanent_rejection (e : transport_error) : bool :=
  match e with HttpStatus code => (400 <=? code) && (code <? 500) | _ => false end.

(** [Duration::as_millis] of a duration in nanoseconds. *)
Definition as_millis (ns : Z) : Z := ns / 1000000.

(** [now_msec] is the basis passed by the caller, [log_now] the clock
    [maybe_log_unauthorized] reads itself.
    [src/src/drain/backoff.rs: apply_delivery_outcome] *)
Definition apply_delivery_outcome (outcome : delivery_outcome) (b : signal_backoff)
    (now_msec log_now : Z) (c : counters) : outcome_action * signal_backoff * counters :=
  match outcome with
  | Accepted => (Release, mk_backoff 0 0, c)
  | PartialReject rejected => (Release, mk_backoff 0 0, add_verdicts 0 rejected 0 c)
  | Retryable retry_after =>
      let n := sat_add32 (consecutive_retryable b) 1 in
      let defer_ms := match retry_after with
                      | Some hint => Z.max (Z.min (as_millis hint) u64_max) 1
                      | None => backoff_ms n BACKOFF_BASE_MS BACKOFF_CAP_MS
                      end in
      (Requeue, mk_backoff (Z.max (sat_add64 now_msec defer_ms) 1) n, c)
  | Permanent => (Drop, b, add_verdicts 1 0 0 c)
  | Unauthorized => (Drop, b, maybe_log_unauthorized log_now (add_verdicts 0 0 1 c))
  end.

(** ** The bounded retry queue *)

(** Encoded batches, oldest first, each with its number of records. *)
Definition retry_queue : Type := list (list Z * Z).

Definition queue_records (q : retry_queue) : Z := zsum (map snd q).

(** [src/src/drain/graceful.rs: enqueue_with_eviction] *)
Definition enqueue_with_eviction (q : retry_queue) (bytes : list Z) (n_pts max_depth : Z)
    (c : counters) : Z * retry_queue * counters :=
  let push := (0, q ++ [(bytes, n_pts)], c) in
  if max_depth <=? Z.of_nat (length q) then
    match q with
    | (_, dropped_pts) :: q' => (dropped_pts, q' ++ [(bytes, n_pts)], add_dropped dropped_pts c)
    | [] => push
    end
  else push.

(** [src/src/drain/graceful.rs: account_drops_and_clear] *)
Definition account_drops_and_clear (q : retry_queue) (c : counters) : retry_queue * counters :=
  let remaining := u64 (queue_records q) in
  ([], if 0 <? remaining then add_dropped remaining c else c).

(** [src/src/drain/backoff.rs: handle_fresh_send_outcome] *)
Definition handle_fresh_send_outcome (outcome : delivery_outcome) (b : signal_backoff)
    (now_msec : Z) (q : retry_queue) (bytes : list Z) (n_records depth : Z) (l : lane)
    (c : counters) : outcome_action * signal_backoff * retry_queue * counters :=
  let '(action, b, c) := apply_delivery_outcome outcome b now_msec now_msec c in
  match action with
  | Requeue =>
      let '(_, q, c) := enqueue_with_eviction q bytes n_records depth c in
      (action, b, q, bump_failure l c)
  | Release | Drop => (action, b, q, c)
  end.

(** [now] is the clock after the send.
    [src/src/drain/backoff.rs: apply_fresh_send_outcome] *)
Definition apply_fresh_send_outcome (outcome : delivery_outcome) (b : signal_backoff)
    (q : retry_queue) (bytes : list Z) (n_records depth : Z) (l : lane) (now : Z)
    (c : counters) : outcome_action * signal_backoff * retry_queue * counters :=
  let basis := now in
  handle_fresh_send_outcome outcome b basis q bytes n_records depth l c.

(** ** Exponential backoff *)

Lemma pow2_shift base n : 0 < base -> 0 <= n -> 63 - Z.log2 base <= n -> 2 ^ 63 <= base * 2 ^ n.
Proof.
  intros Hb H0 Hn. pose proof (Z.log2_spec base Hb) as [L _].
  assert (0 <= Z.log2 base) by apply Z.log2_nonneg.
  assert (E : 2 ^ 63 <= 2 ^ (Z.log2 base + n)) by (apply Z.pow_le_mono_r; lia).
  rewrite Z.pow_add_r in E by lia.
  assert (2 ^ Z.log2 base * 2 ^ n <= base * 2 ^ n) by (apply Z.mul_le_mono_nonneg_r; lia). lia.
Qed.

Lemma pow2_fits base n : 0 < base -> 0 <= n < 63 - Z.log2 base -> base * 2 ^ n < 2 ^ 63.
Proof.
  intros Hb Hn. pose proof (Z.log2_spec base Hb) as [_ L].
  assert (E : 2 ^ (Z.succ (Z.log2 base) + n) <= 2 ^ 63) by (apply Z.pow_le_mono_r; lia).
  rewrite Z.pow_add_r in E by (pose proof (Z.log2_nonneg base); lia).
  assert (0 < 2 ^ n) by (apply Z.pow_pos_nonneg; lia). nia.
Qed.

(** The shift guard never changes the value: doubling saturates at the cap. *)
Lemma backoff_ms_spec n base cap : 1 <= n -> 0 < base -> 0 <= cap <= 2 ^ 63 ->
  backoff_ms n base cap = Z.min (base * 2 ^ (n - 1)) cap.
Proof.
  intros Hn Hb Hc. unfold backoff_ms, leading_zeros64, sat_sub.
  rewrite (proj2 (Z.eqb_neq base 0)) by lia. rewrite Z.max_r by lia. case_if.
  - pose proof (pow2_shift base (n - 1)). lia.
  - rewrite Z.shiftl_mul_pow2 by lia. pose proof (pow2_fits base (n - 1)).
    assert (0 < 2 ^ (n - 1)) by (apply Z.pow_pos_nonneg; lia).
    rewrite u64_small by (unfold u64_max; nia). reflexivity.
Qed.

(** A lane's verdicts in order, each with its clock reading. *)
Definition run_policy (h : list (Z * delivery_outcome)) (b : signal_backoff) (c : counters)
    : signal_backoff * counters :=
  foldl (fun '(b, c) '(now, o) =>
           let '(_, b, c) := apply_delivery_outcome o b now now c in (b, c)) (b, c) h.

(** Number of retryable verdicts since the last accepted or partially accepted batch. *)
Definition streak (h : list (Z * delivery_outcome)) : Z :=
  foldl (fun n '(_, o) => match o with
                          | Accepted | PartialReject _ => 0
                          | Retryable _ => n + 1
                          | Permanent | Unauthorized => n
                          end) 0 h.

Lemma streak_snoc h t o : streak (h ++ [(t, o)]) =
  match o with Accepted | PartialReject _ => 0 | Retryable _ => streak h + 1 | _ => streak h end.
Proof. unfold streak. rewrite foldl_app. reflexivity. Qed.

Lemma streak_nonneg h : 0 <= streak h.
Proof. induction h as [|[t o] h IH] using rev_ind; [reflexivity|]. rewrite streak_snoc. destruct o; lia. Qed.

Lemma run_policy_snoc h t o b c : run_policy (h ++ [(t, o)]) b c =
  let '(b, c) := run_policy h b c in
  let '(_, b, c) := apply_delivery_outcome o b t t c in (b, c).
Proof. unfold run_policy. rewrite foldl_app. cbn. destruct (foldl _ _ _). reflexivity. Qed.

Lemma run_policy_consecutive h c :
  consecutive_retryable (fst (run_policy h backoff_default c)) = Z.min (streak h) u32_max.
Proof.
  induction h as [|[t o] h IH] using rev_ind; [reflexivity|].
  rewrite run_policy_snoc, streak_snoc. pose proof (streak_nonneg h).
  destruct (run_policy h backoff_default c) as [b' c']. cbn in IH.
  destruct o; cbn -[u32_max]; rewrite ?IH; unfold sat_add32, u32_max in *; lia.
Qed.

(** Past the cap the count no longer matters. *)
Lemma doubling_capped n : 7 <= n -> Z.min (BACKOFF_BASE_MS * 2 ^ n) BACKOFF_CAP_MS = BACKOFF_CAP_MS.
Proof.
  intros. unfold BACKOFF_BASE_MS, BACKOFF_CAP_MS.
  assert (2 ^ 7 <= 2 ^ n) by (apply Z.pow_le_mono_r; lia). lia.
Qed.

(** After any history of verdicts, a retryable verdict
    without a server hint defers the lane until [now + min(30 s, 250 ms * 2^k)],
    where [k] counts the retryable verdicts since the last (partially) accepted
    batch; a server hint is honoured verbatim, at least one tick; and the
    lane is deferred exactly at the instants before that deadline. *)
Theorem retry_deadline_exact h c now hint :
  0 <= now ->
  let '(b, c1) := run_policy h backoff_default c in
  let '(action, b', _) := apply_delivery_outcome (Retryable hint) b now now c1 in
  let delay := match hint with
               | Some d => Z.max (Z.min (d / 1000000) u64_max) 1
               | None => Z.min (250 * 2 ^ streak h) 30000
               end in
  action = Requeue /\
  not_before_msec b' = Z.min (now + delay) u64_max /\
  (now + delay <= u64_max -> forall t, is_deferred b' t = true <-> t < now + delay).
Proof.
  intros Hnow. pose proof (run_policy_consecutive h c) as Hk. pose proof (streak_nonneg h).
  destruct (run_policy h backoff_default c) as [b c1]. cbn [fst] in Hk.
  unfold apply_delivery_outcome. cbv zeta.
  assert (Hb : backoff_ms (sat_add32 (consecutive_retryable b) 1) BACKOFF_BASE_MS BACKOFF_CAP_MS =
               Z.min (250 * 2 ^ streak h) 30000).
  { rewrite backoff_ms_spec; rewrite ?Hk;
      unfold sat_add32, u32_max, BACKOFF_BASE_MS, BACKOFF_CAP_MS; try lia.
    destruct (Z.le_gt_cases (streak h) 7).
    - do 2 f_equal. f_equal. lia.
    - pose proof (doubling_capped (streak h)) as D. unfold BACKOFF_BASE_MS, BACKOFF_CAP_MS in D.
      rewrite D by lia. apply doubling_capped. lia. }
  rewrite Hb. set (delay := match hint with Some _ => _ | None => _ end).
  assert (Hd : 1 <= delay).
  { subst delay. destruct hint; [lia|]. assert (0 < 2 ^ streak h) by (apply Z.pow_pos_nonneg; lia). lia. }
  unfold is_deferred, sat_add64. cbn [not_before_msec].
  split_and!; [reflexivity | unfold u64_max in *; lia |].
  intros Hmax t. rewrite Z.min_r, Z.max_l by lia.
  rewrite (proj2 (Z.eqb_neq (now + delay) 0)) by lia. cbn. apply Z.ltb_lt.
Qed.

(** Two transient failures since the last success: the third defers 1000 ms. *)
Lemma retry_deadline_exact_witness :
  not_before_msec (snd (fst (apply_delivery_outcome (Retryable None)
    (fst (run_policy [(1, Retryable None); (2, Accepted); (5, Retryable None); (300, Permanent);
                      (900, Retryable None)] backoff_default zero_counters)) 2000 2000 zero_counters)))
  = 3000.
Proof.
  exact (proj1 (proj2 (retry_deadline_exact
    [(1, Retryable None); (2, Accepted); (5, Retryable None); (300, Permanent);
     (900, Retryable None)] zero_counters 2000 None ltac:(lia)))).
Defined.

(** ** Rate limit of the credentials line *)

(** Unauthorised verdicts at the given clock readings. *)
Definition log_run (ts : list Z) (c : counters) : counters :=
  foldl (fun c t => maybe_log_unauthorized t c) c ts.

(** Clock readings never go back, starting from [t]. *)
Fixpoint monotone_from (t : Z) (ts : list Z) : Prop :=
  match ts with [] => True | u :: ts' => t <= u /\ monotone_from u ts' end.

Definition last_reading (t : Z) (ts : list Z) : Z := foldl (fun _ u => u) t ts.

Lemma last_reading_ge ts : forall t, monotone_from t ts -> t <= last_reading t ts.
Proof.
  induction ts as [|u ts IH]; intros t Hm; [cbn; lia|]. destruct Hm as [Ht Hm].
  specialize (IH _ Hm). change (last_reading t (u :: ts)) with (last_reading u ts). lia.
Qed.

Lemma log_run_spacing ts : forall t0 t c,
  monotone_from t ts -> 1 <= UNAUTHORIZED_LOG_LAST_MSEC c <= Z.max t 1 ->
  Z.max t0 1 + 60000 * (cred_lines c - 1) <= UNAUTHORIZED_LOG_LAST_MSEC c ->
  let c' := log_run ts c in
  Z.max t0 1 + 60000 * (cred_lines c' - 1) <= Z.max (last_reading t ts) 1 /\
  cred_lines c <= cred_lines c'.
Proof.
  induction ts as [|u ts IH]; intros t0 t c Hm Hl Hs; [cbn; lia|].
  destruct Hm as [Htu Hm]. cbn [log_run foldl]. fold (log_run ts (maybe_log_unauthorized u c)).
  change (last_reading t (u :: ts)) with (last_reading u ts). unfold maybe_log_unauthorized at 1 2.
  unfold sat_sub, UNAUTHORIZED_LOG_INTERVAL_MS.
  destruct (negb _ && _) eqn:E.
  - apply (IH t0 u); [exact Hm | lia | exact Hs].
  - apply andb_false_iff in E as [E|E]; zify_bool; [lia|].
    destruct (IH t0 u (set_unauthorized_log (Z.max u 1) c) Hm) as [I1 I2];
      cbn [UNAUTHORIZED_LOG_LAST_MSEC cred_lines set_unauthorized_log] in *; lia.
Qed.

(** However many unauthorised verdicts arrive, on a clock that
    never goes back, the check-credentials line is written at the first one and
    at most once per 60 s after that. *)
Theorem unauthorized_log_rate t0 ts c :
  UNAUTHORIZED_LOG_LAST_MSEC c = 0 -> cred_lines c = 0 -> 1 <= t0 -> monotone_from t0 ts ->
  let c' := log_run (t0 :: ts) c in
  1 <= cred_lines c' <= 1 + (last_reading t0 ts - t0) / 60000.
Proof.
  intros Hl Hc Ht Hm. cbn [log_run foldl]. fold (log_run ts (maybe_log_unauthorized t0 c)).
  unfold maybe_log_unauthorized. rewrite Hl. cbn [Z.eqb negb andb].
  destruct (log_run_spacing ts t0 t0 (set_unauthorized_log (Z.max t0 1) c) Hm) as [I1 I2];
    cbn [UNAUTHORIZED_LOG_LAST_MSEC cred_lines set_unauthorized_log] in *; try lia.
  rewrite Hc in I2. cbn zeta.
  set (n := cred_lines (log_run ts _)) in *. clearbody n.
  split; [lia|]. assert (n - 1 <= (last_reading t0 ts - t0) / 60000); [|lia].
  pose proof (last_reading_ge _ _ Hm). apply Z.div_le_lower_bound; lia.
Qed.

Lemma unauthorized_log_rate_witness :
  cred_lines (log_run [5; 10; 59000; 60005; 60006; 120004] zero_counters) = 2 /\
  1 <= cred_lines (log_run [5; 10; 59000; 60005; 60006; 120004] zero_counters) <= 1 + (120004 - 5) / 60000.
Proof.
  split; [reflexivity|].
  refine (unauthorized_log_rate 5 [10; 59000; 60005; 60006; 120004] zero_counters _ _ _ _);
    [reflexivity | reflexivity | lia | cbn; lia].
Defined.

(** ** The retry queue keeps the newest batches *)

(** What the queue keeps of a sequence of batches: its last [max 1 depth]. *)
Definition keep (depth : Z) (l : retry_queue) : retry_queue :=
  drop (length l - Z.to_nat (Z.max 1 depth)) l.
Definition evicted (depth : Z) (l : retry_queue) : retry_queue :=
  take (length l - Z.to_nat (Z.max 1 depth)) l.

Definition queue_bounded (depth : Z) (q : retry_queue) : Prop :=
  Z.of_nat (length q) <= Z.max 1 depth.

(** Enqueue a sequence of batches one by one. *)
Definition enqueue_all (depth : Z) (l : retry_queue) (q : retry_queue) (c : counters)
    : retry_queue * counters :=
  foldl (fun '(q, c) '(bytes, n) =>
           let '(_, q, c) := enqueue_with_eviction q bytes n depth c in (q, c)) (q, c) l.

Lemma add_dropped_add m n c : add_dropped n (add_dropped m c) = add_dropped (m + n) c.
Proof. unfold add_dropped. cbn. unfold wrap. rewrite Zplus_mod_idemp_l. do 2 f_equal. lia. Qed.

Lemma add_dropped_0 c : in_u 64 (DROPPED_RECORDS c) -> add_dropped 0 c = c.
Proof. intros. destruct c. unfold add_dropped. cbn in *. rewrite Z.add_0_r, wrap_small; auto. Qed.

Lemma enqueue_keep q bytes n depth c : queue_bounded depth q -> in_u 64 (DROPPED_RECORDS c) ->
  let '(r, q', c') := enqueue_with_eviction q bytes n depth c in
  q' = keep depth (q ++ [(bytes, n)]) /\
  r = queue_records (evicted depth (q ++ [(bytes, n)])) /\ c' = add_dropped r c.
Proof.
  intros Hq Hc. unfold enqueue_with_eviction, keep, evicted, queue_bounded, queue_records in *.
  rewrite length_app. cbn [length].
  destruct (depth <=? _) eqn:E; zify_bool; [destruct q as [|[b0 n0] q]|].
  - cbn [length] in *. replace (0 + 1 - _)%nat with 0%nat by lia. cbn.
    rewrite add_dropped_0 by assumption. auto.
  - cbn [length] in *. replace (S (length q) + 1 - _)%nat with 1%nat by lia. cbn.
    rewrite Z.add_0_r. auto.
  - replace (length q + 1 - _)%nat with 0%nat by lia. cbn. rewrite add_dropped_0 by assumption. auto.
Qed.

Lemma keep_bounded depth l : queue_bounded depth (keep depth l).
Proof. unfold queue_bounded, keep. rewrite length_drop. lia. Qed.

Lemma keep_evicted depth l : evicted depth l ++ keep depth l = l.
Proof. apply take_drop. Qed.

Lemma keep_all depth l : queue_bounded depth l -> keep depth l = l /\ evicted depth l = [].
Proof.
  unfold queue_bounded, keep, evicted. intros.
  replace (length l - _)%nat with 0%nat by lia. split; reflexivity.
Qed.

Lemma length_keep depth l : length (keep depth l) = Nat.min (length l) (Z.to_nat (Z.max 1 depth)).
Proof. unfold keep. rewrite length_drop. lia. Qed.

Lemma keep_snoc depth l x : keep depth (keep depth l ++ [x]) = keep depth (l ++ [x]).
Proof.
  unfold keep. rewrite <- drop_app_le by lia. rewrite drop_drop. f_equal.
  rewrite length_drop, length_app. cbn [length]. lia.
Qed.

Lemma queue_records_app l k : queue_records (l ++ k) = queue_records l + queue_records k.
Proof. unfold queue_records. rewrite map_app. apply zsum_app. Qed.

Lemma evicted_snoc depth l x : queue_records (evicted depth (l ++ [x])) =
  queue_records (evicted depth l) + queue_records (evicted depth (keep depth l ++ [x])).
Proof.
  assert (E : queue_records (l ++ [x]) = queue_records (evicted depth (l ++ [x])) +
              queue_records (keep depth (l ++ [x]))) by (rewrite <- queue_records_app, keep_evicted; reflexivity).
  assert (E2 : queue_records (keep depth l ++ [x]) = queue_records (evicted depth (keep depth l ++ [x])) +
              queue_records (keep depth (keep depth l ++ [x])))
    by (rewrite <- queue_records_app, keep_evicted; reflexivity).
  assert (E3 : queue_records l = queue_records (evicted depth l) + queue_records (keep depth l))
    by (rewrite <- queue_records_app, keep_evicted; reflexivity).
  rewrite keep_snoc in E2. rewrite !queue_records_app in *. lia.
Qed.

Lemma enqueue_all_snoc depth l x q c : enqueue_all depth (l ++ [x]) q c =
  let '(q, c) := enqueue_all depth l q c in
  let '(_, q, c) := enqueue_with_eviction q (fst x) (snd x) depth c in (q, c).
Proof. unfold enqueue_all. rewrite foldl_app. cbn. destruct (foldl _ _ _), x. reflexivity. Qed.

Lemma add_dropped_in_u n c : in_u 64 (DROPPED_RECORDS (add_dropped n c)).
Proof. apply wrap_range. lia. Qed.

Lemma enqueue_all_keep depth l q c : queue_bounded depth q -> in_u 64 (DROPPED_RECORDS c) ->
  enqueue_all depth l q c =
  (keep depth (q ++ l), add_dropped (queue_records (evicted depth (q ++ l))) c).
Proof.
  intros Hq Hc. induction l as [|[b n] l IH] using rev_ind.
  - rewrite app_nil_r. destruct (keep_all depth q Hq) as [-> ->]. cbn. rewrite add_dropped_0; auto.
  - rewrite enqueue_all_snoc, IH. clear IH.
    pose proof (enqueue_keep (keep depth (q ++ l)) b n depth
      (add_dropped (queue_records (evicted depth (q ++ l))) c)
      (keep_bounded _ _) (add_dropped_in_u _ _)) as E. cbn [fst snd].
    destruct (enqueue_with_eviction _ _ _ _ _) as [[r q'] c']. destruct E as (-> & -> & ->).
    rewrite app_assoc, keep_snoc, add_dropped_add, (evicted_snoc depth (q ++ l)). reflexivity.
Qed.

(** The retry queue never holds more than [max 1 depth]
    batches: whatever sequence of batches is queued, it holds exactly the newest
    ones in arrival order, and every record of an evicted batch is credited to
    the dropped-records counter (modulo its 64 bits). *)
Theorem retry_queue_keeps_newest depth q l c :
  queue_bounded depth q -> in_u 64 (DROPPED_RECORDS c) ->
  let '(q', c') := enqueue_all depth l q c in
  queue_bounded depth q' /\
  q ++ l = evicted depth (q ++ l) ++ q' /\
  DROPPED_RECORDS c' = DROPPED_RECORDS c +w64 queue_records (evicted depth (q ++ l)) /\
  (Z.of_nat (length (q ++ l)) <= Z.max 1 depth -> q' = q ++ l /\ c' = c).
Proof.
  intros Hq Hc. rewrite enqueue_all_keep by assumption.
  split_and!; [apply keep_bounded | symmetry; apply keep_evicted | reflexivity |].
  intros Hl. destruct (keep_all depth (q ++ l) Hl) as [-> ->]. cbn. rewrite add_dropped_0; auto.
Qed.

Lemma retry_queue_keeps_newest_witness :
  queue_bounded 2 [([1], 10)] /\
  enqueue_all 2 [([2], 20); ([3], 30); ([4], 40)] [([1], 10)] zero_counters =
    ([([3], 30); ([4], 40)], add_dropped 30 zero_counters) /\
  DROPPED_RECORDS (snd (enqueue_all 2 [([2], 20); ([3], 30); ([4], 40)] [([1], 10)] zero_counters)) = 30.
Proof.
  split; [unfold queue_bounded; cbn; lia|]. split; [reflexivity|].
  exact (proj1 (proj2 (proj2 (retry_queue_keeps_newest 2 [([1], 10)] [([2], 20); ([3], 30); ([4], 40)]
    zero_counters ltac:(unfold queue_bounded; cbn; lia) ltac:(unfold in_u; cbn; lia))))).
Defined.
