(* ===== verification/Control.v ===== *)
(** * Control zone, crash loop and liveness (src/src/exporter/control_shm.rs,
    src/src/exporter/mod.rs, src/src/liveness.rs)

    The control page shared by the master, the exporter generations and the
    workers: the successor generation that makes an old exporter abdicate, the
    crash-loop counter checked at exporter start, and the heartbeat that workers
    consult when a ring is full. *)
From S2P Require Import Prelude.

(** The two reserved words are never accessed.
    [src/src/exporter/control_shm.rs: ControlShm] *)
Record control_shm := mk_control {
  version : Z;
  flags : Z;
  crash_count : Z;
  window_start_unix : Z;
  successor_gen : Z;
  last_beat_msec : Z
}.

Definition set_version (v : Z) (c : control_shm) : control_shm :=
  mk_control v (flags c) (crash_count c) (window_start_unix c) (successor_gen c) (last_beat_msec c).
Definition set_crash (n win : Z) (c : control_shm) : control_shm :=
  mk_control (version c) (flags c) n win (successor_gen c) (last_beat_msec c).
Definition set_successor (g : Z) (c : control_shm) : control_shm :=
  mk_control (version c) (flags c) (crash_count c) (window_start_unix c) g (last_beat_msec c).
Definition set_beat (t : Z) (c : control_shm) : control_shm :=
  mk_control (version c) (flags c) (crash_count c) (window_start_unix c) (successor_gen c) t.

(** [src/src/exporter/control_shm.rs: ControlShm::announce_successor] *)
Definition announce_successor (c : control_shm) : control_shm :=
  set_successor (successor_gen c +w64 1) c.

(** [src/src/exporter/control_shm.rs: ControlShm::rollback_successor] *)
Definition rollback_successor (c : control_shm) : control_shm :=
  set_successor (successor_gen c -w64 1) c.

(** [src/src/exporter/control_shm.rs: ControlShm::RELOAD_WRITE_EXTENT] *)
Definition RELOAD_WRITE_EXTENT : Z := 32.

(** [reload]: [old_data] is non-null; [avail] is the zone size past the
    slab-pool header.  The fresh branch zeroes the whole area.
    [src/src/exporter/control_shm.rs: control_shm_zone_init] *)
Definition control_shm_zone_init (reload : bool) (avail : Z) (c : control_shm) : control_shm :=
  if reload then (if RELOAD_WRITE_EXTENT <=? avail then set_crash 0 0 c else c)
  else if 0 <? avail then mk_control 0 0 0 0 0 0 else c.

(** [src/src/drain/graceful.rs: successor_announced] *)
Definition successor_announced (c : option control_shm) (my_gen : Z) : bool :=
  match c with Some c => my_gen <? successor_gen c | None => false end.

(** ** Crash loop *)

(** [src/src/exporter/mod.rs: CRASH_WINDOW_SECS] *)
Definition CRASH_WINDOW_SECS : Z := 60.
(** [src/src/exporter/mod.rs: MAX_CRASH_RESTARTS] *)
Definition MAX_CRASH_RESTARTS : Z := 5.
(** [src/src/exporter/mod.rs: CRASH_BACKOFF_BASE_MS] *)
Definition CRASH_BACKOFF_BASE_MS : Z := 100.
(** [src/src/exporter/mod.rs: CRASH_BACKOFF_CAP_MS] *)
Definition CRASH_BACKOFF_CAP_MS : Z := 5000.

(** [src/src/exporter/mod.rs: crash_backoff_ms] *)
Definition crash_backoff_ms (count : Z) : Z :=
  if count <=? 1 then 0 else
  let shift := Z.min (sat_sub count 1) 31 in
  Z.min (sat_mul64 CRASH_BACKOFF_BASE_MS (Z.shiftl 1 shift)) CRASH_BACKOFF_CAP_MS.

(** What an exporter does once it has checked the crash counter: exit for
    good, or sleep and continue with this [EXPORTER_RESTARTS] gauge. *)
Inductive startup := Disabled | Continue (backoff_ms restarts : Z).

(** Step 1.5 of the exporter's entry point; [now] is the wall clock in seconds.
    [src/src/exporter/mod.rs: 189-229 otel_exporter_cycle] *)
Definition exporter_startup (now : Z) (c : control_shm) : startup * control_shm :=
  let window := window_start_unix c in
  let c := if (window =? 0) || (CRASH_WINDOW_SECS <? sat_sub now window)
           then set_crash 0 now c else c in
  let count := crash_count c +w64 1 in
  let c := set_crash count (window_start_unix c) c in
  (if MAX_CRASH_RESTARTS <? count then Disabled
   else if 1 <? count then Continue (crash_backoff_ms count) (count - 1)
   else Continue 0 0, c).

(** [src/src/exporter/mod.rs: GRACEFUL_DRAIN_BACKSTOP] *)
Definition GRACEFUL_DRAIN_BACKSTOP : Z := 15000.

(** Durations in milliseconds.
    [src/src/exporter/mod.rs: effective_drain_backstop] *)
Definition effective_drain_backstop (default_backstop shutdown_timeout_ms : Z) : Z :=
  if shutdown_timeout_ms =? 0 then default_backstop
  else Z.min default_backstop shutdown_timeout_ms.

(** ** Liveness *)

(** [src/src/liveness.rs: HEARTBEAT_PERIOD_MS] *)
Definition HEARTBEAT_PERIOD_MS : Z := 1000.
(** [src/src/liveness.rs: HEARTBEAT_STALE_THRESHOLD_MS] *)
Definition HEARTBEAT_STALE_THRESHOLD_MS : Z := 5 * HEARTBEAT_PERIOD_MS.
(** [src/src/liveness.rs: LATCH_UNSET] *)
Definition LATCH_UNSET : Z := u64_max.

(** One expiry of the exporter's timer: stamp, then re-arm for the period.
    [src/src/exporter/mod.rs: heartbeat_timer_handler] *)
Definition heartbeat_timer_handler (now : Z) (c : control_shm) : control_shm * Z :=
  (set_beat now c, HEARTBEAT_PERIOD_MS).

(** [src/src/liveness.rs: heartbeat_is_stale] *)
Definition heartbeat_is_stale (now_msec last_beat : Z) : bool :=
  negb (last_beat =? 0) && (HEARTBEAT_STALE_THRESHOLD_MS <? sat_sub now_msec last_beat).

(** [src/src/liveness.rs: latch_should_alert] *)
Definition latch_should_alert (latched_gen current_gen : Z) (stale : bool) : bool :=
  stale && negb (latched_gen =? current_gen).

(** The hook on a ring-full drop: the worker's latch, and whether the alert line
    is written.  [src/src/liveness.rs: check_exporter_liveness_on_drop] *)
Definition check_exporter_liveness_on_drop (ctrl : option control_shm) (now latched : Z) : Z * bool :=
  match ctrl with
  | None => (latched, false)
  | Some c =>
      let stale := heartbeat_is_stale now (last_beat_msec c) in
      if negb stale then (latched, false) else
      let current_gen := successor_gen c in
      if negb (latch_should_alert latched current_gen stale) then (latched, false)
      else (current_gen, true)
  end.

(** ** The crash loop is bounded *)

Lemma crash_backoff_spec k : 1 <= k -> crash_backoff_ms k = if k =? 1 then 0 else Z.min (100 * 2 ^ (k - 1)) 5000.
Proof.
  intros Hk. unfold crash_backoff_ms. destruct (k <=? 1) eqn:E; zify_bool.
  - replace k with 1 by lia. reflexivity.
  - rewrite (proj2 (Z.eqb_neq k 1)) by lia. unfold sat_sub. rewrite Z.max_r by lia.
    rewrite Z.shiftl_mul_pow2, Z.mul_1_l by lia.
    unfold sat_mul64, CRASH_BACKOFF_BASE_MS, CRASH_BACKOFF_CAP_MS.
    destruct (Z.le_gt_cases (k - 1) 31).
    + rewrite (Z.min_l (k - 1)) by lia. assert (2 ^ (k - 1) <= 2 ^ 31) by (apply Z.pow_le_mono_r; lia).
      unfold u64_max. lia.
    + rewrite (Z.min_r (k - 1)) by lia.
      assert (2 ^ 31 <= 2 ^ (k - 1)) by (apply Z.pow_le_mono_r; lia). unfold u64_max. lia.
Qed.

(** Exporter starts at the given times, one after the other. *)
Fixpoint run_starts (ts : list Z) (c : control_shm) : list startup * control_shm :=
  match ts with
  | [] => ([], c)
  | t :: ts' =>
      let '(s, c1) := exporter_startup t c in
      let '(ss, c2) := run_starts ts' c1 in (s :: ss, c2)
  end.

(** What the [k]-th start of a window must do. *)
Definition expected_start (k : Z) : startup :=
  if 5 <? k then Disabled
  else Continue (if k =? 1 then 0 else Z.min (100 * 2 ^ (k - 1)) 5000) (k - 1).

Lemma startup_in_window now c k :
  window_start_unix c <> 0 -> now - window_start_unix c <= 60 ->
  crash_count c = k -> 0 <= k < u64_max ->
  exporter_startup now c = (expected_start (k + 1), set_crash (k + 1) (window_start_unix c) c).
Proof.
  intros Hw Hn Hk Hr. unfold exporter_startup, CRASH_WINDOW_SECS, sat_sub.
  rewrite (proj2 (Z.eqb_neq _ _)) by exact Hw. rewrite (proj2 (Z.ltb_ge 60 _)) by lia. cbn [orb].
  rewrite Hk, u64_small by lia. unfold expected_start, MAX_CRASH_RESTARTS. f_equal.
  destruct (5 <? k + 1); [reflexivity|]. destruct (1 <? k + 1) eqn:E; zify_bool.
  - rewrite crash_backoff_spec by lia. reflexivity.
  - replace k with 0 by lia. reflexivity.
Qed.

Lemma startup_new_window now c : 0 < now ->
  window_start_unix c = 0 \/ 60 < now - window_start_unix c ->
  exporter_startup now c = (Continue 0 0, set_crash 1 now c).
Proof.
  intros Hn Hw. unfold exporter_startup, CRASH_WINDOW_SECS, sat_sub.
  replace ((window_start_unix c =? 0) || _) with true; [reflexivity|].
  symmetry. apply orb_true_iff. destruct Hw as [->|Hw]; [auto|right; apply Z.ltb_lt; lia].
Qed.

Lemma run_starts_window ts : forall t0 c k, window_start_unix c = t0 -> 0 < t0 ->
  crash_count c = k -> 0 <= k -> Forall (fun t => t <= t0 + 60) ts ->
  k + Z.of_nat (length ts) <= u64_max ->
  fst (run_starts ts c) = map expected_start (map (fun i => k + 1 + Z.of_nat i) (seq 0 (length ts))) /\
  window_start_unix (snd (run_starts ts c)) = t0.
Proof.
  induction ts as [|t ts IH]; intros t0 c k Hw Ht Hk H0 Hf Hl; [split; [reflexivity|exact Hw]|].
  inversion Hf as [|? ? Hf1 Hf2]; subst. cbn [run_starts length] in *.
  rewrite (startup_in_window t c (crash_count c)) by lia.
  specialize (IH (window_start_unix c) (set_crash (crash_count c + 1) (window_start_unix c) c)
    (crash_count c + 1) eq_refl Ht eq_refl ltac:(lia) Hf2 ltac:(lia)).
  destruct (run_starts ts _) as [ss c2]. cbn [fst snd] in *. destruct IH as [IH IHw]. split; [|exact IHw].
  cbn [seq map]. f_equal; [f_equal; lia|]. rewrite IH, <- seq_shift, !map_map. apply map_ext. intros i. f_equal. lia.
Qed.

(** C34 (bounds). In a window of 60 s that begins at the first start, the first
    start continues at once, the [k]-th waits [min(5 s, 100 ms * 2^(k-1))]
    for [k] up to five, and every later start disables the exporter.  The later starts do not move the window: after an
    operator reload, and at any time more than 60 s after the first start, however recent the last one was, the next start is a first
    one again and begins a window of its own.
    About: exporter_startup, crash_backoff_ms, control_shm_zone_init, control_shm, CRASH_WINDOW_SECS, MAX_CRASH_RESTARTS. *)
Theorem crash_loop_bounded t0 ts c :
  0 < t0 -> window_start_unix c = 0 \/ 60 < t0 - window_start_unix c ->
  Forall (fun t => t <= t0 + 60) ts -> 1 + Z.of_nat (length ts) <= u64_max ->
  let '(ss, c') := run_starts (t0 :: ts) c in
  ss = map expected_start (map (fun i => 1 + Z.of_nat i) (seq 0 (S (length ts)))) /\
  (forall t avail, 0 < t -> 32 <= avail ->
     let '(s, c'') := exporter_startup t (control_shm_zone_init true avail c') in s = Continue 0 0 /\ window_start_unix c'' = t) /\
  (forall t, t0 + 60 < t ->
     let '(s, c'') := exporter_startup t c' in s = Continue 0 0 /\ window_start_unix c'' = t).
Proof.
  intros Ht Hw Hf Hl. cbn [run_starts]. rewrite startup_new_window by assumption.
  pose proof (run_starts_window ts t0 (set_crash 1 t0 c) 1 eq_refl Ht eq_refl ltac:(lia) Hf Hl) as H.
  destruct (run_starts ts (set_crash 1 t0 c)) as [ss c2]. cbn [fst snd] in H. destruct H as [H Hw']. split_and!.
  - rewrite H. cbn [seq map]. f_equal. rewrite <- seq_shift, !map_map. apply map_ext. intros i. f_equal. lia.
  - intros t avail Hpos Ha. unfold control_shm_zone_init, RELOAD_WRITE_EXTENT.
    rewrite (proj2 (Z.leb_le 32 avail)) by lia. rewrite startup_new_window; auto.
  - intros t Hlt. rewrite startup_new_window; [split; reflexivity|lia|right; lia].
Qed.

Lemma crash_loop_bounded_witness :
  fst (run_starts [100; 101; 103; 106; 110; 120] (mk_control 7 0 3 10 2 0)) =
  [Continue 0 0; Continue 200 1; Continue 400 2; Continue 800 3; Continue 1600 4; Disabled].
Proof.
  pose proof (crash_loop_bounded 100 [101; 103; 106; 110; 120] (mk_control 7 0 3 10 2 0)
    ltac:(lia) ltac:(cbn; lia) ltac:(repeat constructor; lia) ltac:(unfold u64_max; cbn; lia)) as H.
  destruct (run_starts _ _) as [ss c']. cbn [fst]. destruct H as [-> _]. vm_compute. reflexivity.
Defined.

(** ** Liveness alerts *)

(** Ring-full drops seen by one worker: the control page and the clock at each. *)
Fixpoint run_drops (evs : list (control_shm * Z)) (latched : Z) : list bool :=
  match evs with
  | [] => []
  | (ctrl, now) :: evs' =>
      let '(l1, a) := check_exporter_liveness_on_drop (Some ctrl) now latched in
      a :: run_drops evs' l1
  end.

Definition stale_at (ev : control_shm * Z) : bool := heartbeat_is_stale (snd ev) (last_beat_msec (fst ev)).
Definition gen_at (ev : control_shm * Z) : Z := successor_gen (fst ev).

(** Number of alerts written for generation [g]. *)
Fixpoint alerts_for (g : Z) (evs : list (control_shm * Z)) (alerts : list bool) : Z :=
  match evs, alerts with
  | ev :: evs', a :: alerts' => (if a && (gen_at ev =? g) then 1 else 0) + alerts_for g evs' alerts'
  | _, _ => 0
  end.

(** Generations only grow, from [m] on. *)
Fixpoint gens_from (m : Z) (evs : list (control_shm * Z)) : Prop :=
  match evs with [] => True | ev :: evs' => m <= gen_at ev /\ gens_from (gen_at ev) evs' end.

Lemma no_older_gen g evs : forall m, g < m -> gens_from m evs ->
  existsb (fun ev => stale_at ev && (gen_at ev =? g)) evs = false.
Proof.
  induction evs as [|ev evs IH]; intros m Hg Hs; [reflexivity|]. destruct Hs as [Hm Hs]. cbn [existsb].
  rewrite (proj2 (Z.eqb_neq (gen_at ev) g)), andb_false_r by lia. apply (IH (gen_at ev)); [lia|exact Hs].
Qed.

Lemma alerts_latched evs : forall m latched g, gens_from m evs -> latched = LATCH_UNSET \/ latched <= m ->
  Forall (fun ev => gen_at ev < LATCH_UNSET) evs -> g < LATCH_UNSET ->
  alerts_for g evs (run_drops evs latched) =
  if negb (latched =? g) && existsb (fun ev => stale_at ev && (gen_at ev =? g)) evs then 1 else 0.
Proof.
  induction evs as [|[c now] evs IH]; intros m latched g Hs Hl Hb Hg; [rewrite andb_false_r; reflexivity|].
  destruct Hs as [Hm Hs]. apply Forall_cons_iff in Hb as [Hb1 Hb]. cbn [run_drops].
  unfold check_exporter_liveness_on_drop, latch_should_alert.
  change (heartbeat_is_stale now (last_beat_msec c)) with (stale_at (c, now)).
  change (successor_gen c) with (gen_at (c, now)). set (ev := (c, now)) in *.
  destruct (stale_at ev) eqn:Es; cbn [negb andb existsb]; rewrite ?Es; cbn [andb orb].
  - destruct (Z.eqb_spec latched (gen_at ev)) as [El|El]; cbn [negb alerts_for andb orb];
      rewrite (IH (gen_at ev)) by (auto; destruct Hl; lia).
    + destruct (Z.eqb_spec latched g), (Z.eqb_spec (gen_at ev) g); cbn; try lia; reflexivity.
    + destruct (Z.eqb_spec (gen_at ev) g) as [E|E]; cbn [negb andb orb].
      * rewrite (proj2 (Z.eqb_neq latched g)) by congruence. reflexivity.
      * destruct (Z.eqb_spec latched g) as [E'|E']; cbn [negb andb]; [|reflexivity].
        rewrite (no_older_gen g evs (gen_at ev)); [reflexivity| |exact Hs].
        destruct Hl; unfold LATCH_UNSET in *; lia.
  - cbn [alerts_for andb]. rewrite (IH (gen_at ev)) by (auto; destruct Hl; lia). apply Z.add_0_l.
Qed.

(** A worker that keeps dropping records writes exactly one
    alert per exporter generation whose heartbeat it finds stale, and none for a
    generation whose exporter beat at most 5 s before every drop. *)
Theorem liveness_alert_once evs g :
  gens_from 0 evs -> Forall (fun ev => gen_at ev < LATCH_UNSET) evs -> g < LATCH_UNSET ->
  alerts_for g evs (run_drops evs LATCH_UNSET) =
    (if existsb (fun ev => stale_at ev && (gen_at ev =? g)) evs then 1 else 0) /\
  (Forall (fun ev => gen_at ev = g -> snd ev <= last_beat_msec (fst ev) + 5000) evs ->
   alerts_for g evs (run_drops evs LATCH_UNSET) = 0).
Proof.
  intros Hs Hb Hg.
  assert (E : alerts_for g evs (run_drops evs LATCH_UNSET) =
    (if existsb (fun ev => stale_at ev && (gen_at ev =? g)) evs then 1 else 0)).
  { rewrite (alerts_latched evs 0) by auto. rewrite (proj2 (Z.eqb_neq _ _)) by lia. reflexivity. }
  split; [exact E|]. intros Hf. rewrite E.
  replace (existsb _ evs) with false; [reflexivity|]. symmetry. clear -Hf.
  induction evs as [|ev evs IH]; [reflexivity|]. apply Forall_cons_iff in Hf as [H1 Hf].
  cbn [existsb]. rewrite IH, orb_false_r by exact Hf.
  destruct (Z.eqb_spec (gen_at ev) g) as [Eg|]; [|apply andb_false_r]. specialize (H1 Eg).
  unfold stale_at, heartbeat_is_stale, sat_sub, HEARTBEAT_STALE_THRESHOLD_MS, HEARTBEAT_PERIOD_MS.
  rewrite (proj2 (Z.ltb_ge _ _)) by lia. rewrite andb_false_r. reflexivity.
Qed.

Lemma liveness_alert_once_witness :
  let page g beat := mk_control 0 0 0 0 g beat in
  let evs := [(page 0 100, 6000); (page 0 100, 7000); (page 0 100, 8000); (page 1 8000, 9000); (page 1 8000, 14000)] in
  run_drops evs LATCH_UNSET = [true; false; false; false; true] /\
  alerts_for 0 evs (run_drops evs LATCH_UNSET) = 1.
Proof.
  intros page evs. split; [reflexivity|].
  refine (proj1 (liveness_alert_once evs 0 _ _ _)).
  - cbn. lia.
  - repeat constructor.
  - reflexivity.
Defined.
