(* ===== verification/Finalize.v ===== *)
(** * Finalisation of the configuration and start of the exporter

    [MainConfig::postconfiguration] with the zone registrations of
    src/src/config/mod.rs, and the [init_module] hook of src/src/lib.rs: the check
    of the zones against the final number of workers, the announcement of a
    successor and its rollback.  What nginx provides is one record of arguments
    per hook: [ngx_shared_memory_add], the resolver of the http block, the
    location trees, the upstream zones and the ssl contexts, the file system,
    [ngx_spawn_process]. *)
From S2P Require Import Prelude DataModel StdText Slots SpanRecord Coalesce ShmLayout CertTable Endpoint Config Control.

Definition NGX_LOG_EMERG : Z := 1.
Definition NGX_LOG_ALERT : Z := 2.
Definition NGX_LOG_WARN : Z := 5.
Definition NGX_LOG_NOTICE : Z := 6.
Definition NGX_LOG_DEBUG : Z := 8.

(** Nothing above warning: nginx numbers its levels from the most severe, [NGX_LOG_EMERG], down to [NGX_LOG_DEBUG]. *)
Definition at_most_warned (logs : list Z) : Prop := Forall (fun level => NGX_LOG_WARN <= level) logs.

(** ** Postconfiguration *)

(** [src/src/config/mod.rs: 745-745 MainConfig::postconfiguration] *)
Definition DEFAULT_RESOLVER_TIMEOUT_MS : Z := 5000.
(** [NGX_CONF_UNSET as ngx_msec_t] *)
Definition NGX_CONF_UNSET_MSEC : Z := u64_max.
(** [src/src/exporter/control_shm.rs: ControlShm::ZONE_SIZE] *)
Definition CONTROL_ZONE_SIZE : Z := 4096.

(** The [init] callback and the [ring_cap] of the [data] given to a zone. *)
Inductive zone_init := InitMetrics (ring_cap : Z) | InitControl | InitLogs (ring_cap : Z) | InitSpans (ring_cap : Z).

(** One successful call of [shm::register_zone]. *)
Record registration := mk_reg { rg_name : list Z; rg_size : Z; rg_init : zone_init }.

(** [clcf.resolver] and what is read of it. *)
Record resolver_conf := mk_resolver { rc_ptr : Z; rc_connections : Z; rc_timeout : Z }.

Record post_env := mk_env {
  pe_old : bool;                                 (* the previous cycle has a configuration *)
  pe_worker_processes : option Z;
  pe_ncpu : Z;
  pe_file_exists : list Z -> bool;
  pe_resolver : option resolver_conf;
  pe_register : list Z -> Z -> option shm_zone;
  pe_locations : list location_tree;
  pe_upstreams : list (Z * list Z);
  pe_ssl_servers : option (list ssl_server);
  pe_nid2sn : Z -> option (list Z)
}.

(** What the function leaves behind: the configuration, the registered zones
    and the levels of the messages it logged, in order. *)
Record post_state := mk_post { ps_conf : main_config; ps_regs : list registration; ps_logs : list Z }.

Definition log_at (level : Z) (s : post_state) : post_state := mk_post (ps_conf s) (ps_regs s) (ps_logs s ++ [level]).
Definition upd (f : main_config -> main_config) (s : post_state) : post_state :=
  mk_post (f (ps_conf s)) (ps_regs s) (ps_logs s).

(** [Result<(), Status>] with the state at the return. *)
Inductive outcome := Ok (s : post_state) | Err (s : post_state).
Definition then_do (r : outcome) (k : post_state -> outcome) : outcome := match r with Ok s => k s | Err s => Err s end.
Notation "s <-? r ; k" := (then_do r (fun s => k)) (at level 100, r at next level, right associativity).

Section post.
(** [size_of::<ngx_slab_pool_t>()] *)
Context (data_offset : Z) (env : post_env).

Definition reserve : Z := n_workers_to_reserve (pe_worker_processes env) (pe_ncpu env).

(** [register_zone] and the writes to the zone it returned. *)
Definition register_with (name : list Z) (size : Z) (init : zone_init) (store : option shm_zone -> main_config -> main_config)
    (s : post_state) : outcome :=
  match pe_register env name size with
  | None => Err (log_at NGX_LOG_EMERG s)
  | Some z => Ok (mk_post (store (Some z) (ps_conf s)) (ps_regs s ++ [mk_reg name size init]) (ps_logs s))
  end.

(** [src/src/config/mod.rs: MainConfig::register_shm_zone] *)
Definition register_shm_zone (s : post_state) : outcome :=
  register_with $"ngx_http_otel_zone" (zone_size_for data_offset reserve) (InitMetrics 0) set_shm_zone s.

(** [src/src/config/mod.rs: MainConfig::register_control_shm_zone] *)
Definition register_control_shm_zone (s : post_state) : outcome :=
  register_with $"ngx_http_otel_control_zone" CONTROL_ZONE_SIZE InitControl set_control_shm_zone s.

(** [src/src/config/mod.rs: MainConfig::register_logs_zone] *)
Definition register_logs_zone (s : post_state) : outcome :=
  let cap := log_ring_cap (ps_conf s) in
  register_with $"ngx_http_otel_logs_zone" (logs_zone_size_for data_offset reserve cap) (InitLogs cap) set_logs_shm_zone s.

(** [src/src/config/mod.rs: MainConfig::register_spans_zone] *)
Definition register_spans_zone (s : post_state) : outcome :=
  let cap := DEFAULT_SPAN_RING_CAP in
  register_with $"ngx_http_otel_spans_zone" (spans_zone_size_for data_offset reserve cap) (InitSpans cap) set_spans_shm_zone s.

(** [src/src/config/mod.rs: 663-671 MainConfig::postconfiguration] *)
Definition validation_input (c : main_config) : tls_validation_input :=
  let e := mc_exporter c in
  mk_tvi (utf8_or_empty (xc_endpoint e)) (utf8_or_empty (xc_trusted_cert e)) (utf8_or_empty (xc_ssl_cert e))
    (utf8_or_empty (xc_ssl_cert_key e)) (ssl_verify_off e).

(** Every error is logged at EMERG; [ssl_verify off] warns.
    [src/src/config/mod.rs: 672-732 MainConfig::postconfiguration] *)
Definition check_exporter (s : post_state) : outcome :=
  match validate_endpoint_tls (validation_input (ps_conf s)) (pe_file_exists env) with
  | inr warn_insecure => Ok (if warn_insecure then log_at NGX_LOG_WARN s else s)
  | inl _ => Err (log_at NGX_LOG_EMERG s)
  end.

(** [src/src/config/mod.rs: 751-767 MainConfig::postconfiguration] *)
Definition resolver_info : option (Z * Z) :=
  rc ← pe_resolver env;
  if rc_ptr rc =? 0 then None
  else if rc_connections rc =? 0 then None
  else Some (rc_ptr rc, if rc_timeout rc =? NGX_CONF_UNSET_MSEC then DEFAULT_RESOLVER_TIMEOUT_MS else rc_timeout rc).

(** [src/src/config/mod.rs: 739-788 MainConfig::postconfiguration] *)
Definition wire_resolver (s : post_state) : outcome :=
  match from_utf8 (xc_endpoint (mc_exporter (ps_conf s))) with
  | None => Ok s
  | Some ep =>
      if endpoint_needs_resolver ep then
        match resolver_info with
        | Some (r, timeout) => Ok (upd (set_resolver (Some r) timeout) s)
        | None => Err (log_at NGX_LOG_EMERG s)
        end
      else Ok s
  end.

(** The tables filled once before the fork.
    [src/src/config/mod.rs: 814-823 MainConfig::postconfiguration] *)
Definition build_tables (c : main_config) : main_config :=
  let c := build_route_table c (pe_locations env) in
  let c := build_upstream_table c (pe_upstreams env) in
  set_cert_table (build_cert_table (pe_nid2sn env) (mc_cert_table c) (pe_ssl_servers env)) c.

(** [src/src/config/mod.rs: MainConfig::postconfiguration] *)
Definition postconfiguration (c : main_config) : outcome :=
  let s := mk_post c [] [] in
  let s := if pe_old env then log_at NGX_LOG_DEBUG s else s in
  if negb (is_configured c) then Ok s else
  s <-? check_exporter s;
  s <-? wire_resolver s;
  s <-? (if metrics_enabled (ps_conf s) then register_shm_zone s else Ok s);
  s <-? register_control_shm_zone s;
  s <-? (if any_log_export_enabled (ps_conf s) || mc_error_log_enabled (ps_conf s) then register_logs_zone s else Ok s);
  s <-? register_spans_zone s;
  Ok (upd build_tables s).

End post.

(** ** Module initialisation *)

Section init.
Context (data_offset : Z).

(** [src/src/lib.rs: worker_processes_from_cycle] *)
Definition worker_processes_from_cycle (worker_processes : option Z) : option Z :=
  wp ← worker_processes; if wp <? 1 then None else Some wp.

(** [src/src/lib.rs: 245-252 check_zone_sizing] *)
Definition reserved_metrics (z : option shm_zone) : Z :=
  match z with None => u64_max | Some z => n_workers_from_zone_size data_offset (z_size z) end.
(** [src/src/lib.rs: 253-263 check_zone_sizing] *)
Definition reserved_logs (z : option shm_zone) (cap : Z) : Z :=
  match z with None => u64_max | Some z => slots_in data_offset (z_size z) (logs_slot_size cap) u64_max end.
(** [src/src/lib.rs: 264-274 check_zone_sizing] *)
Definition reserved_spans (z : option shm_zone) (cap : Z) : Z :=
  match z with None => u64_max | Some z => slots_in data_offset (z_size z) (spans_slot_size cap) u64_max end.

(** [None] refuses to start, with a message at EMERG.
    [src/src/lib.rs: check_zone_sizing] *)
Definition check_zone_sizing (worker_processes : option Z) (c : main_config) : option main_config :=
  let actual_workers := default 1 (worker_processes_from_cycle worker_processes) in
  let min_reserved :=
    Z.min (Z.min (reserved_metrics (mc_shm_zone c)) (reserved_logs (mc_logs_shm_zone c) (log_ring_cap c)))
      (reserved_spans (mc_spans_shm_zone c) DEFAULT_SPAN_RING_CAP) in
  if actual_workers <=? min_reserved then Some (set_n_active_workers actual_workers c) else None.

Inductive respawn := NGX_PROCESS_RESPAWN | NGX_PROCESS_JUST_RESPAWN.

(** What the hook reads of nginx.  [ie_spawn] is [ngx_spawn_process]: whether
    a child was forked. *)
Record init_env := mk_init {
  ie_master : bool;                   (* NGX_PROCESS_MASTER or NGX_PROCESS_SINGLE *)
  ie_test_config : bool;
  ie_worker_processes : option Z;
  ie_reload : bool;                   (* old_cycle and its conf_ctx are non-null *)
  ie_daemon : option Z;               (* ccf->daemon *)
  ie_daemonized : bool;
  ie_inherited : bool;
  ie_spawn : respawn -> bool
}.

(** [src/src/lib.rs: is_pre_daemon_initial_start] *)
Definition is_pre_daemon_initial_start (e : init_env) : bool :=
  match ie_daemon e with
  | None => false
  | Some d => if d =? 0 then false else negb (ie_daemonized e) && negb (ie_inherited e)
  end.

(** Whether the child was spawned, and the level logged.
    [src/src/lib.rs: spawn_exporter_for_cycle] *)
Definition spawn_exporter_for_cycle (e : init_env) (is_reload : bool) : bool * Z :=
  let respawn_flag := if is_reload then NGX_PROCESS_JUST_RESPAWN else NGX_PROCESS_RESPAWN in
  if ie_spawn e respawn_flag then (true, NGX_LOG_NOTICE) else (false, NGX_LOG_ERR).

(** The result: [NGX_OK] or [NGX_ERROR], the configuration, the control page
    ([None]: not registered or not mapped), whether a child was forked, the logged levels.
    [src/src/lib.rs: ngx_otel_init_module] *)
Definition ngx_otel_init_module (e : init_env) (conf : option main_config) (ctrl : option control_shm)
    : bool * option main_config * option control_shm * bool * list Z :=
  if negb (ie_master e) then (true, conf, ctrl, false, []) else
  if ie_test_config e then (true, conf, ctrl, false, []) else
  match conf with
  | None => (true, conf, ctrl, false, [])
  | Some c =>
      if negb (is_configured c) then (true, conf, ctrl, false, []) else
      match check_zone_sizing (ie_worker_processes e) c with
      | None => (false, conf, ctrl, false, [NGX_LOG_EMERG])
      | Some c' =>
          let announced := ie_reload e && bool_decide (is_Some ctrl) in
          let ctrl1 := if announced then announce_successor <$> ctrl else ctrl in
          let alerts := if negb (ie_reload e) && is_pre_daemon_initial_start e then [NGX_LOG_ALERT] else [] in
          let '(spawned, level) := spawn_exporter_for_cycle e (ie_reload e) in
          let ctrl2 := if negb spawned && announced then rollback_successor <$> ctrl1 else ctrl1 in
          (spawned, Some c', ctrl2, spawned, alerts ++ [level])
      end
  end.

End init.

(** ** What a successful finalisation leaves *)

Lemma then_do_Ok r k s : then_do r k = Ok s <-> exists s', r = Ok s' /\ k s' = Ok s.
Proof. destruct r; cbn; split; [eauto|intros (? & [= ->] & ?); auto|discriminate|intros (? & ? & ?); discriminate]. Qed.

Lemma then_do_Err r k s : then_do r k = Err s <-> r = Err s \/ exists s', r = Ok s' /\ k s' = Err s.
Proof.
  destruct r; cbn; split; [eauto|intros [?|(? & [= ->] & ?)]; [discriminate|auto]|auto|intros [?|(? & ? & ?)]; [auto|discriminate]].
Qed.

Lemma build_tables_frame {A} env (f : main_config -> A) c :
  (forall t n c, f (set_routes t n c) = f c) -> (forall t n c, f (set_upstreams t n c) = f c) ->
  (forall t c, f (set_cert_table t c) = f c) -> f (build_tables env c) = f c.
Proof.
  intros H1 H2 H3. unfold build_tables. rewrite H3, build_upstreams_frame by exact H2. apply build_routes_frame, H1.
Qed.

Section finalised.
Context (data_offset : Z) (env : post_env).

(** The zone a step stores when it succeeds, and the step's trace. *)
Lemma register_with_Ok name size init store s s' :
  register_with env name size init store s = Ok s' <->
  exists z, pe_register env name size = Some z /\
    s' = mk_post (store (Some z) (ps_conf s)) (ps_regs s ++ [mk_reg name size init]) (ps_logs s).
Proof.
  unfold register_with. destruct (pe_register env name size) as [z|]; split.
  - intros [= <-]. eauto.
  - intros (? & [= ->] & ->). reflexivity.
  - discriminate.
  - intros (? & ? & _). discriminate.
Qed.

Definition wants_logs (c : main_config) : bool := any_log_export_enabled c || mc_error_log_enabled c.

(** The zones that a configuration needs, in the order of registration. *)
Definition needed_zones (c : main_config) : list registration :=
  (if metrics_enabled c
   then [mk_reg $"ngx_http_otel_zone" (zone_size_for data_offset (reserve env)) (InitMetrics 0)] else []) ++
  [mk_reg $"ngx_http_otel_control_zone" CONTROL_ZONE_SIZE InitControl] ++
  (if wants_logs c
   then [mk_reg $"ngx_http_otel_logs_zone" (logs_zone_size_for data_offset (reserve env) DEFAULT_LOG_RING_CAP)
           (InitLogs DEFAULT_LOG_RING_CAP)] else []) ++
  [mk_reg $"ngx_http_otel_spans_zone" (spans_zone_size_for data_offset (reserve env) DEFAULT_SPAN_RING_CAP)
     (InitSpans DEFAULT_SPAN_RING_CAP)].

Definition granted (r : registration) : option shm_zone := pe_register env (rg_name r) (rg_size r).

(** When the finalisation accepts a configuration. *)
Definition needs_dns (c : main_config) : bool :=
  match from_utf8 (xc_endpoint (mc_exporter c)) with Some ep => endpoint_needs_resolver ep | None => false end.
Definition acceptable (c : main_config) : bool :=
  match validate_endpoint_tls (validation_input c) (pe_file_exists env) with inr _ => true | inl _ => false end &&
  (negb (needs_dns c) || bool_decide (is_Some (resolver_info env))) &&
  forallb (fun r => bool_decide (is_Some (granted r))) (needed_zones c).

(** What is logged on the way to a successful end. *)
Definition logs0 (c : main_config) : list Z :=
  (if pe_old env then [NGX_LOG_DEBUG] else []) ++ (if ssl_verify_off (mc_exporter c) then [NGX_LOG_WARN] else []).

(** The configuration once the resolver is wired. *)
Definition with_resolver (c : main_config) : main_config :=
  if needs_dns c then match resolver_info env with Some (r, t) => set_resolver (Some r) t c | None => c end else c.

Lemma validate_warn i fe w : validate_endpoint_tls i fe = inr w -> w = tv_ssl_verify_off i.
Proof. unfold validate_endpoint_tls. repeat (case_match; try discriminate); intros [= <-]; reflexivity. Qed.

Definition fails (l l' : list Z) : Prop := l' = l ++ [NGX_LOG_EMERG].

Lemma logs0_warned c : at_most_warned (logs0 c).
Proof. unfold logs0. destruct (pe_old env), (ssl_verify_off _); repeat constructor; discriminate. Qed.

Lemma endpoint_stage c :
  match then_do (check_exporter env (mk_post c [] (if pe_old env then [NGX_LOG_DEBUG] else []))) (wire_resolver env) with
  | Ok s => (exists w, validate_endpoint_tls (validation_input c) (pe_file_exists env) = inr w) /\
            (needs_dns c = true -> is_Some (resolver_info env)) /\ s = mk_post (with_resolver c) [] (logs0 c)
  | Err s => ps_regs s = [] /\ ps_conf s = c /\ (exists l, at_most_warned l /\ fails l (ps_logs s)) /\
             ((exists e, validate_endpoint_tls (validation_input c) (pe_file_exists env) = inl e) \/
              (needs_dns c = true /\ resolver_info env = None))
  end.
Proof.
  unfold check_exporter. cbn [ps_conf].
  destruct (validate_endpoint_tls _ _) as [e|w] eqn:E; cbn [then_do].
  - split_and!; [reflexivity|reflexivity| |left; eauto]. eexists. split; [|reflexivity].
    destruct (pe_old env); repeat constructor; discriminate.
  - apply validate_warn in E as Hw. cbn in Hw. subst w.
    unfold wire_resolver, with_resolver, logs0, needs_dns.
    set (s1 := if ssl_verify_off _ then _ else _).
    assert (Hs : s1 = mk_post c [] (logs0 c)).
    { unfold s1, logs0, log_at. destruct (ssl_verify_off _); [reflexivity|]. rewrite app_nil_r. reflexivity. }
    rewrite Hs. cbn [ps_conf]. destruct (from_utf8 _) as [ep|]; [|split_and!; [eauto|discriminate|reflexivity]].
    destruct (endpoint_needs_resolver ep); [|split_and!; [eauto|discriminate|reflexivity]].
    destruct (resolver_info env) as [[r t]|]; [split_and!; [eauto|eauto|reflexivity]|].
    split_and!; [reflexivity|reflexivity| |auto]. exists (logs0 c). split; [apply logs0_warned|reflexivity].
Qed.

(** The four registrations, in order. *)
Definition zone_steps (s : post_state) : outcome :=
  s <-? (if metrics_enabled (ps_conf s) then register_shm_zone data_offset env s else Ok s);
  s <-? register_control_shm_zone env s;
  s <-? (if wants_logs (ps_conf s) then register_logs_zone data_offset env s else Ok s);
  register_spans_zone data_offset env s.

(** The same as one loop over the needed zones. *)
Definition stores (c : main_config) : list (option shm_zone -> main_config -> main_config) :=
  (if metrics_enabled c then [set_shm_zone] else []) ++ [set_control_shm_zone] ++
  (if wants_logs c then [set_logs_shm_zone] else []) ++ [set_spans_shm_zone].

Fixpoint register_all (l : list (registration * (option shm_zone -> main_config -> main_config))) (s : post_state) : outcome :=
  match l with
  | [] => Ok s
  | (r, store) :: l' => s <-? register_with env (rg_name r) (rg_size r) (rg_init r) store s; register_all l' s
  end.

Lemma then_do_Ok_r r : then_do r Ok = r.
Proof. destruct r; reflexivity. Qed.

Lemma zone_steps_all s :
  zone_steps s = register_all (zip (needed_zones (ps_conf s)) (stores (ps_conf s))) s.
Proof.
  unfold zone_steps, needed_zones, stores, register_shm_zone, register_control_shm_zone, register_logs_zone,
    register_spans_zone, log_ring_cap, wants_logs, any_log_export_enabled. cbv zeta.
  destruct s as [c rg l]. cbn [ps_conf]. destruct (metrics_enabled c), (mc_any_log_export c || mc_error_log_enabled c) eqn:E;
    cbn [app zip zip_with register_all rg_name rg_size rg_init then_do]; unfold register_with;
    repeat (case_match; cbn [then_do ps_conf set_shm_zone set_control_shm_zone set_logs_shm_zone mc_any_log_export mc_error_log_enabled]; rewrite ?E); reflexivity.
Qed.

Lemma register_all_spec l : forall s,
  match register_all l s with
  | Ok s' => Forall (fun r => is_Some (granted r)) (map fst l) /\ ps_regs s' = ps_regs s ++ map fst l /\
      ps_logs s' = ps_logs s /\ ps_conf s' = foldl (fun c '(r, store) => store (granted r) c) (ps_conf s) l
  | Err s' => ~ Forall (fun r => is_Some (granted r)) (map fst l) /\ fails (ps_logs s) (ps_logs s') /\
      exists reg rest, map fst l = reg ++ rest /\ rest <> [] /\ ps_regs s' = ps_regs s ++ reg
  end.
Proof.
  induction l as [|[r store] l IH]; intros s; cbn [register_all map fst].
  { split_and!; [constructor|rewrite app_nil_r; reflexivity|reflexivity|reflexivity]. }
  unfold register_with. fold (granted r). destruct (granted r) as [z|] eqn:E; cbn [then_do].
  - specialize (IH (mk_post (store (Some z) (ps_conf s)) (ps_regs s ++ [mk_reg (rg_name r) (rg_size r) (rg_init r)]) (ps_logs s))).
    destruct (register_all l _) as [s'|s']; cbn [ps_regs ps_logs ps_conf] in IH; destruct r as [nm sz ini].
    + destruct IH as (H1 & H2 & H3 & H4). split_and!; [constructor; [rewrite E; eauto|exact H1]| |exact H3|].
      * rewrite H2, <- app_assoc. reflexivity.
      * rewrite H4. cbn. rewrite E. reflexivity.
    + destruct IH as (H1 & H2 & reg & rest & H3 & H4 & H5). split_and!; [|exact H2|].
      * intros HF. inversion HF. contradiction.
      * exists (mk_reg nm sz ini :: reg), rest. rewrite H3, H5, <- app_assoc. auto.
  - split_and!; [|reflexivity|].
    + intros HF. inversion HF as [|? ? H]. rewrite E in H. destruct H. discriminate.
    + exists [], (r :: map fst l). rewrite app_nil_r. split_and!; [reflexivity|discriminate|reflexivity].
Qed.

Lemma post_stages c : is_configured c = true ->
  postconfiguration data_offset env c =
  then_do (then_do (check_exporter env (mk_post c [] (if pe_old env then [NGX_LOG_DEBUG] else []))) (wire_resolver env))
    (fun s => then_do (zone_steps s) (fun s => Ok (upd (build_tables env) s))).
Proof.
  intros Hc. unfold postconfiguration, zone_steps, wants_logs. rewrite Hc. cbn [negb].
  replace (if pe_old env then _ else _) with (mk_post c [] (if pe_old env then [NGX_LOG_DEBUG] else []))
    by (destruct (pe_old env); reflexivity).
  destruct (check_exporter _ _) as [s|]; [|reflexivity]. cbn [then_do]. destruct (wire_resolver _ _) as [s1|]; [|reflexivity].
  cbn [then_do]. destruct (if metrics_enabled _ then _ else _) as [s2|]; [|reflexivity]. cbn [then_do].
  destruct (register_control_shm_zone _ _) as [s3|]; [|reflexivity]. cbn [then_do].
  destruct (if _ || _ then _ else _) as [s4|]; reflexivity.
Qed.

Lemma fst_zones c : map fst (zip (needed_zones c) (stores c)) = needed_zones c.
Proof. unfold needed_zones, stores. destruct (metrics_enabled c), (wants_logs c); reflexivity. Qed.

Lemma needed_resolver c : needed_zones (with_resolver c) = needed_zones c /\ stores (with_resolver c) = stores c.
Proof. unfold with_resolver. destruct (needs_dns c); [|auto]. destruct (resolver_info env) as [[r t]|]; auto. Qed.

Lemma acceptable_spec c : acceptable c = true <->
  (exists w, validate_endpoint_tls (validation_input c) (pe_file_exists env) = inr w) /\
  (needs_dns c = true -> is_Some (resolver_info env)) /\ Forall (fun r => is_Some (granted r)) (needed_zones c).
Proof.
  unfold acceptable. rewrite !andb_true_iff, forallb_forall, Forall_forall.
  setoid_rewrite bool_decide_eq_true.
  destruct (validate_endpoint_tls _ _) as [e|w]; [split; [intros [[? _] _]; discriminate|intros ([? ?] & _); discriminate]|].
  destruct (needs_dns c); cbn [negb orb].
  - rewrite bool_decide_eq_true. split; [intros [[_ H1] H2]|intros (_ & H1 & H2)]; eauto.
  - split; [intros [_ H]|intros (_ & _ & H)]; eauto. split; [eauto|]. split; [discriminate|exact H].
Qed.

(** What the finalisation of a configured module does, on either outcome. *)
Lemma post_spec c : is_configured c = true ->
  match postconfiguration data_offset env c with
  | Ok s => acceptable c = true /\ ps_regs s = needed_zones c /\ ps_logs s = logs0 c /\
      ps_conf s = build_tables env
        (foldl (fun c '(r, store) => store (granted r) c) (with_resolver c) (zip (needed_zones c) (stores c)))
  | Err s => acceptable c = false /\ (exists l, at_most_warned l /\ fails l (ps_logs s)) /\
      exists rest, needed_zones c = ps_regs s ++ rest /\ rest <> []
  end.
Proof.
  intros Hc. rewrite post_stages by exact Hc. pose proof (endpoint_stage c) as H.
  destruct (then_do _ _) as [s|s]; cbn [then_do].
  - destruct H as (Hv & Hn & ->). rewrite zone_steps_all. cbn [ps_conf]. destruct (needed_resolver c) as [-> ->].
    pose proof (register_all_spec (zip (needed_zones c) (stores c)) (mk_post (with_resolver c) [] (logs0 c))) as H.
    rewrite fst_zones in H. cbn [ps_conf ps_regs ps_logs app] in H. destruct (register_all _ _) as [s|s]; cbn [then_do].
    + destruct H as (H1 & H2 & H3 & H4). split_and!; [apply acceptable_spec; auto|exact H2|exact H3|].
      cbn [upd ps_conf]. rewrite H4. reflexivity.
    + destruct H as (H1 & H2 & reg & rest & H3 & H4 & ->). split_and!.
      * apply not_true_iff_false. rewrite acceptable_spec. tauto.
      * exists (logs0 c). split; [apply logs0_warned|exact H2].
      * eauto.
  - destruct H as (Hr & _ & Hl & Hwhy). split_and!; [|exact Hl|].
    + apply not_true_iff_false. rewrite acceptable_spec. intros ([w Hw] & Hn & _).
      destruct Hwhy as [[e He]|[H1 H2]]; [congruence|]. destruct (Hn H1). congruence.
    + exists (needed_zones c). rewrite Hr. split; [reflexivity|]. unfold needed_zones.
      destruct (metrics_enabled c); discriminate.
Qed.

(** The indexed zones of a finalised configuration. *)
Lemma final_zones c s : is_configured c = true -> postconfiguration data_offset env c = Ok s ->
  let c' := ps_conf s in
  (mc_shm_zone c' = if metrics_enabled c
     then pe_register env $"ngx_http_otel_zone" (zone_size_for data_offset (reserve env)) else mc_shm_zone c) /\
  (mc_logs_shm_zone c' = if wants_logs c
     then pe_register env $"ngx_http_otel_logs_zone" (logs_zone_size_for data_offset (reserve env) DEFAULT_LOG_RING_CAP)
     else mc_logs_shm_zone c) /\
  mc_spans_shm_zone c' = pe_register env $"ngx_http_otel_spans_zone"
    (spans_zone_size_for data_offset (reserve env) DEFAULT_SPAN_RING_CAP) /\
  is_Some (mc_spans_shm_zone c').
Proof.
  intros Hc Hok c'. pose proof (post_spec c Hc) as H. rewrite Hok in H. destruct H as (Ha & _ & _ & E).
  apply acceptable_spec in Ha. destruct Ha as (_ & _ & HF). subst c'. rewrite E.
  rewrite !build_tables_frame by reflexivity. clear E Hok. unfold granted.
  assert (Hw : mc_shm_zone (with_resolver c) = mc_shm_zone c /\ mc_logs_shm_zone (with_resolver c) = mc_logs_shm_zone c)
    by (unfold with_resolver; destruct (needs_dns c); [destruct (resolver_info env) as [[? ?]|]|]; auto).
  destruct Hw as [W1 W2]. revert HF. unfold needed_zones, stores, granted.
  destruct (metrics_enabled c), (wants_logs c); cbn [app zip zip_with foldl rg_name rg_size]; intros HF;
    (split; [cbn; rewrite ?W1; reflexivity|]); (split; [cbn; rewrite ?W2; reflexivity|]); (split; [reflexivity|]);
    repeat (apply Forall_cons_iff in HF; destruct HF as [? HF]); assumption.
Qed.
End finalised.

(** A worker's block lies inside the zone, behind the slab header. *)
Definition block_inside (data_offset slot id : Z) (z : option shm_zone) : Prop :=
  match z with Some zone => data_offset <= data_offset + id * slot /\ data_offset + (id + 1) * slot <= z_size zone | None => True end.

Lemma exact_slots data_offset n slot : 0 <= n -> 0 < slot -> 0 <= data_offset ->
  sat_sub (data_offset + n * slot) data_offset / slot = n.
Proof.
  intros Hn Hs Ho. unfold sat_sub. rewrite Z.max_r by nia. replace (_ + _ - _) with (n * slot) by lia. apply Z.div_mul. lia.
Qed.

Lemma slot_sizes : 0 < slots_size /\ 0 < logs_slot_size DEFAULT_LOG_RING_CAP /\ 0 < spans_slot_size DEFAULT_SPAN_RING_CAP.
Proof. vm_compute. auto. Qed.

Lemma reserve_pos env : 1 <= reserve env.
Proof.
  unfold reserve, n_workers_to_reserve, n_workers_from_cf. destruct (pe_worker_processes env) as [w|]; cbn; repeat case_if; cbn; lia.
Qed.

Section sized.
Context (data_offset n : Z) (c : main_config) (Ho : 0 <= data_offset) (Hn : 1 <= n < u64_max).
Context (Hm : forall z, mc_shm_zone c = Some z -> z_size z = zone_size_for data_offset n).
Context (Hl : forall z, mc_logs_shm_zone c = Some z -> z_size z = logs_zone_size_for data_offset n DEFAULT_LOG_RING_CAP).
Context (Hs : forall z, mc_spans_shm_zone c = Some z -> z_size z = spans_zone_size_for data_offset n DEFAULT_SPAN_RING_CAP).
Context (Hsome : is_Some (mc_spans_shm_zone c)).

Lemma sized_counts :
  (shm_n_workers data_offset c = match mc_shm_zone c with Some _ => n | None => 0 end /\
   reserved_metrics data_offset (mc_shm_zone c) = match mc_shm_zone c with Some _ => n | None => u64_max end) /\
  (logs_n_workers data_offset c = match mc_logs_shm_zone c with Some _ => n | None => 0 end /\
   reserved_logs data_offset (mc_logs_shm_zone c) (log_ring_cap c) = match mc_logs_shm_zone c with Some _ => n | None => u64_max end) /\
  (spans_n_workers data_offset c = n /\ reserved_spans data_offset (mc_spans_shm_zone c) DEFAULT_SPAN_RING_CAP = n).
Proof.
  destruct slot_sizes as (S1 & S2 & S3). destruct Hsome as [zs Es].
  unfold shm_n_workers, logs_n_workers, spans_n_workers, reserved_metrics, reserved_logs, reserved_spans,
    n_workers_from_zone_size, slots_in, log_ring_cap. rewrite Es, (Hs _ Es). unfold spans_zone_size_for.
  split_and!.
  - destruct (mc_shm_zone c) as [z|]; [|reflexivity]. rewrite (Hm z) by reflexivity. apply exact_slots; lia.
  - destruct (mc_shm_zone c) as [z|]; [|reflexivity]. rewrite (Hm z) by reflexivity. apply exact_slots; lia.
  - destruct (mc_logs_shm_zone c) as [z|]; [|reflexivity]. case_if; [lia|]. rewrite (Hl z) by reflexivity. apply exact_slots; lia.
  - destruct (mc_logs_shm_zone c) as [z|]; [|reflexivity]. case_if; [lia|]. rewrite (Hl z) by reflexivity. apply exact_slots; lia.
  - case_if; [lia|]. apply exact_slots; lia.
  - case_if; [lia|]. apply exact_slots; lia.
Qed.

Lemma sized_capacity : min_indexed_worker_capacity data_offset c = n.
Proof.
  unfold min_indexed_worker_capacity. destruct sized_counts as ((-> & _) & (-> & _) & -> & _). unfold min_capacity.
  destruct (mc_shm_zone c), (mc_logs_shm_zone c); repeat case_if; lia.
Qed.

Lemma sized_check wp :
  check_zone_sizing data_offset wp c =
  if default 1 (worker_processes_from_cycle wp) <=? n
  then Some (set_n_active_workers (default 1 (worker_processes_from_cycle wp)) c) else None.
Proof.
  unfold check_zone_sizing. cbv zeta. destruct sized_counts as ((_ & ->) & (_ & ->) & _ & ->).
  replace (Z.min _ n) with n; [reflexivity|]. destruct (mc_shm_zone c), (mc_logs_shm_zone c); lia.
Qed.

Lemma sized_blocks id : 0 <= id < n ->
  block_inside data_offset slots_size id (mc_shm_zone c) /\
  block_inside data_offset (logs_slot_size DEFAULT_LOG_RING_CAP) id (mc_logs_shm_zone c) /\
  block_inside data_offset (spans_slot_size DEFAULT_SPAN_RING_CAP) id (mc_spans_shm_zone c).
Proof.
  intros Hid. destruct slot_sizes as (S1 & S2 & S3). unfold block_inside. split_and!.
  - destruct (mc_shm_zone c) as [z|]; [|exact I]. rewrite (Hm z) by reflexivity. unfold zone_size_for. nia.
  - destruct (mc_logs_shm_zone c) as [z|]; [|exact I]. rewrite (Hl z) by reflexivity. unfold logs_zone_size_for. nia.
  - destruct (mc_spans_shm_zone c) as [z|]; [|exact I]. rewrite (Hs z) by reflexivity. unfold spans_zone_size_for. nia.
Qed.
End sized.

(** C24 (safety). Once the configuration is finalised and the module initialised, no
    worker touches memory outside a zone: the bound that the log phase checks its
    worker number against is the number of blocks reserved; every number
    below it has its whole block inside each registered zone; the start is refused
    exactly when the final worker count exceeds that bound, also when
    [worker_processes] follows the http block, and otherwise the recorded number of active workers is the final count.
    About: postconfiguration, register_shm_zone, register_logs_zone, register_spans_zone, check_zone_sizing,
    min_indexed_worker_capacity, min_capacity, shm_n_workers, logs_n_workers, spans_n_workers, n_workers_to_reserve. *)
Theorem workers_fit_zones data_offset env c s :
  0 <= data_offset ->
  (forall name size z, pe_register env name size = Some z -> z_size z = size) ->
  is_configured c = true -> mc_shm_zone c = None -> mc_logs_shm_zone c = None -> reserve env < u64_max ->
  postconfiguration data_offset env c = Ok s ->
  let c' := ps_conf s in
  let bound := min_indexed_worker_capacity data_offset c' in
  bound = n_workers_to_reserve (pe_worker_processes env) (pe_ncpu env) /\
  (forall id, 0 <= id < bound ->
     block_inside data_offset slots_size id (mc_shm_zone c') /\
     block_inside data_offset (logs_slot_size DEFAULT_LOG_RING_CAP) id (mc_logs_shm_zone c') /\
     block_inside data_offset (spans_slot_size DEFAULT_SPAN_RING_CAP) id (mc_spans_shm_zone c')) /\
  (forall wp, let final := default 1 (worker_processes_from_cycle wp) in
     match check_zone_sizing data_offset wp c' with
     | Some c'' => mc_n_active_workers c'' = final /\ final <= bound
     | None => bound < final
     end).
Proof.
  intros Ho Hreg Hc Hm Hl Hr Hok c' bound. pose proof (reserve_pos env) as Hp.
  destruct (final_zones data_offset env c s Hc Hok) as (Z1 & Z2 & Z3 & Z4). fold c' in Z1, Z2, Z3, Z4.
  rewrite Hm in Z1. rewrite Hl in Z2.
  assert (Hsz : (forall z, mc_shm_zone c' = Some z -> z_size z = zone_size_for data_offset (reserve env)) /\
    (forall z, mc_logs_shm_zone c' = Some z -> z_size z = logs_zone_size_for data_offset (reserve env) DEFAULT_LOG_RING_CAP) /\
    (forall z, mc_spans_shm_zone c' = Some z -> z_size z = spans_zone_size_for data_offset (reserve env) DEFAULT_SPAN_RING_CAP)).
  { rewrite Z1, Z2, Z3. split_and!; intros z; try case_if; try discriminate; apply Hreg. }
  destruct Hsz as (S1 & S2 & S3). assert (Hb : bound = reserve env) by (apply sized_capacity; auto; lia).
  split; [exact Hb|]. split.
  - intros id Hid. apply (sized_blocks data_offset (reserve env)); auto; lia.
  - intros wp final. rewrite (sized_check data_offset (reserve env)) by (auto; lia). fold final.
    case_if; [cbn; lia|lia].
Qed.

(** A sample: two workers configured before the http block, all signals on. *)
Definition sample_conf : main_config :=
  set_any_log_export true (set_exporter (set_endpoint $"http://127.0.0.1:4318" exporter_default) main_default).
Definition sample_env : post_env :=
  mk_env false (Some 2) 8 (fun _ => true) None (fun _ size => Some (mk_zone 0 size)) [] [] None (fun _ => None).

Definition sample_final : post_state :=
  match postconfiguration 200 sample_env sample_conf with Ok s => s | Err s => s end.

Lemma workers_fit_zones_witness :
  postconfiguration 200 sample_env sample_conf = Ok sample_final /\
  min_indexed_worker_capacity 200 (ps_conf sample_final) = 2 /\
  check_zone_sizing 200 (Some 3) (ps_conf sample_final) = None.
Proof.
  assert (Hok : postconfiguration 200 sample_env sample_conf = Ok sample_final) by (vm_compute; reflexivity).
  split; [exact Hok|].
  destruct (workers_fit_zones 200 sample_env sample_conf sample_final ltac:(lia)
    ltac:(intros name size z [= <-]; reflexivity) ltac:(vm_compute; reflexivity) eq_refl eq_refl
    ltac:(vm_compute; reflexivity) Hok) as (Hb & _ & Hchk).
  split; [rewrite Hb; reflexivity|]. specialize (Hchk (Some 3)). cbv zeta in Hchk. rewrite Hb in Hchk.
  destruct (check_zone_sizing _ _ _) as [c|]; [|reflexivity]. destruct Hchk as [_ H]. vm_compute in H. destruct (H eq_refl).
Defined.

(** C25 (error). The finalisation of the configuration refuses exactly the bad
    configurations: without an exporter block it touches nothing; otherwise it
    succeeds if and only if the endpoint and TLS settings pass their check, a
    DNS endpoint has a usable resolver, and nginx grants every needed zone.  On
    success every needed zone is registered once, in order, with its own size and initialiser,
    and no message above warning is logged; on failure the last message is at EMERG, none before it is above warning,
    and only zones before the failing one were registered.
    About: postconfiguration, check_exporter, wire_resolver, resolver_info, register_shm_zone,
    register_control_shm_zone, register_logs_zone, register_spans_zone. *)
Theorem finalisation_exact data_offset env c :
  if is_configured c then
    match postconfiguration data_offset env c with
    | Ok s => acceptable data_offset env c = true /\ ps_regs s = needed_zones data_offset env c /\
        at_most_warned (ps_logs s) /\ (needs_dns c = true -> is_Some (mc_resolver (ps_conf s)))
    | Err s => acceptable data_offset env c = false /\
        (exists l, at_most_warned l /\ ps_logs s = l ++ [NGX_LOG_EMERG]) /\
        exists rest, needed_zones data_offset env c = ps_regs s ++ rest /\ rest <> []
    end
  else postconfiguration data_offset env c = Ok (mk_post c [] (if pe_old env then [NGX_LOG_DEBUG] else [])).
Proof.
  destruct (is_configured c) eqn:Hc.
  - pose proof (post_spec data_offset env c Hc) as H. destruct (postconfiguration _ _ _) as [s|s]; [|exact H].
    destruct H as (Ha & Hr & Hl & E). split_and!; [exact Ha|exact Hr| |].
    + rewrite Hl. apply logs0_warned.
    + intros Hd. apply acceptable_spec in Ha. destruct Ha as (_ & Hs & _). destruct (Hs Hd) as [[r t] Er].
      rewrite E, build_tables_frame by reflexivity. unfold with_resolver. rewrite Hd, Er.
      unfold needed_zones, stores. destruct (metrics_enabled c), (wants_logs c); cbn; eauto.
  - unfold postconfiguration. rewrite Hc. destruct (pe_old env); reflexivity.
Qed.

(** A reload announces a successor exactly when one was forked.  With
    the control page mapped, the hook raises [successor_gen] by one if the child
    was forked and leaves it as it was if the fork failed, if the zones are too
    small, under [nginx -t] or outside the master; an initial start never
    announces.  So an old exporter that recorded the generation at its own start stands
    down if and only if a new exporter process exists. *)
Theorem announced_iff_forked data_offset e conf ctrl :
  in_u 64 (successor_gen ctrl + 1) -> in_u 64 (successor_gen ctrl) ->
  let '(ok, _, ctrl', forked, _) := ngx_otel_init_module data_offset e conf (Some ctrl) in
  exists page, ctrl' = Some page /\
    successor_gen page = successor_gen ctrl + Z.b2z (forked && ie_reload e) /\
    set_successor (successor_gen ctrl) page = ctrl /\
    successor_announced ctrl' (successor_gen ctrl) = forked && ie_reload e /\
    (ok = false -> forked = false).
Proof.
  intros H1 H0. assert (Hself : set_successor (successor_gen ctrl) ctrl = ctrl) by (destruct ctrl; reflexivity).
  unfold ngx_otel_init_module, spawn_exporter_for_cycle.
  assert (Hno : forall (b : bool), exists page, Some ctrl = Some page /\
    successor_gen page = successor_gen ctrl + Z.b2z (false && ie_reload e) /\ set_successor (successor_gen ctrl) page = ctrl /\
    successor_announced (Some ctrl) (successor_gen ctrl) = false && ie_reload e /\ (b = false -> false = false)).
  { intros b. exists ctrl. cbn. split_and!; auto; [lia|]. apply Z.ltb_irrefl. }
  destruct (ie_master e); [|apply Hno]. cbn [negb]. destruct (ie_test_config e); [apply Hno|].
  destruct conf as [c|]; [|apply Hno]. destruct (is_configured c); [|apply Hno]. cbn [negb].
  destruct (check_zone_sizing _ _ _) as [c'|]; [|apply Hno].
  replace (bool_decide (is_Some (Some ctrl))) with true by (symmetry; apply bool_decide_eq_true; eauto).
  rewrite andb_true_r.
  destruct (ie_reload e), (ie_spawn e _); eexists; (split; [reflexivity|]);
    unfold announce_successor, rollback_successor; cbn [successor_gen set_successor successor_announced];
    rewrite ?(wrap_small 64 (successor_gen ctrl + 1)) by assumption; rewrite ?Z.add_simpl_r, ?(wrap_small 64) by assumption;
    (split; [cbn; lia|]); (split; [destruct ctrl; reflexivity|]); (split; [|auto]);
    cbn [andb negb fmap option_fmap option_map successor_announced successor_gen set_successor];
    rewrite ?(wrap_small 64 (successor_gen ctrl + 1)) by assumption; rewrite ?Z.add_simpl_r, ?(wrap_small 64) by assumption;
    first [apply Z.ltb_lt; lia|apply Z.ltb_ge; lia].
Qed.

Definition sample_init (forks : bool) : init_env := mk_init true false (Some 2) true (Some 0) true false (fun _ => forks).

Lemma announced_iff_forked_witness :
  (let '(_, _, ctrl', _, _) := ngx_otel_init_module 200 (sample_init true) (Some (ps_conf sample_final)) (Some (mk_control 0 0 0 0 4 0)) in
   successor_announced ctrl' 4 = true) /\
  (let '(_, _, ctrl', _, _) := ngx_otel_init_module 200 (sample_init false) (Some (ps_conf sample_final)) (Some (mk_control 0 0 0 0 4 0)) in
   successor_announced ctrl' 4 = false).
Proof.
  split.
  - pose proof (announced_iff_forked 200 (sample_init true) (Some (ps_conf sample_final)) (mk_control 0 0 0 0 4 0)
      ltac:(unfold in_u; cbn; lia) ltac:(unfold in_u; cbn; lia)) as H. vm_compute in H. vm_compute. tauto.
  - pose proof (announced_iff_forked 200 (sample_init false) (Some (ps_conf sample_final)) (mk_control 0 0 0 0 4 0)
      ltac:(unfold in_u; cbn; lia) ltac:(unfold in_u; cbn; lia)) as H. vm_compute in H. vm_compute. tauto.
Defined.
