(* ===== verification/Location.v ===== *)
(** * Per-location settings (src/src/metric_source/location_conf.rs)

    [LocationConf] with the encodings of its modes and nginx's [merge] hook.
    A compiled complex value is its address, [0] for null.  nginx merges every
    level with the one around it, so the settings a request sees are a fold of
    [merge] over the levels from the http block inwards. *)
From S2P Require Import Prelude.

(** [src/src/metric_source/location_conf.rs: LogExportMode] *)
Inductive log_export_mode := LogUnset | LogOff | LogAll | LogIf.
(** [src/src/metric_source/location_conf.rs: TraceContextMode] *)
Inductive trace_context_mode := CtxIgnore | CtxExtract | CtxInject | CtxPropagate.

#[export] Instance log_export_mode_eq_dec : EqDecision log_export_mode.
Proof. solve_decision. Defined.
#[export] Instance trace_context_mode_eq_dec : EqDecision trace_context_mode.
Proof. solve_decision. Defined.

(** [mode as u8] *)
Definition log_export_byte (m : log_export_mode) : Z :=
  match m with LogUnset => 0 | LogOff => 1 | LogAll => 2 | LogIf => 3 end.
Definition trace_context_byte (m : trace_context_mode) : Z :=
  match m with CtxIgnore => 0 | CtxExtract => 1 | CtxInject => 2 | CtxPropagate => 3 end.

(** [src/src/metric_source/location_conf.rs: TRACE_CONTEXT_UNSET] *)
Definition TRACE_CONTEXT_UNSET : Z := 255.
(** [src/src/metric_source/location_conf.rs: LOG_EXPORT_UNSET] *)
Definition LOG_EXPORT_UNSET : Z := log_export_byte LogUnset.

(** [src/src/metric_source/location_conf.rs: LocationConf] *)
Record location_conf := mk_loc {
  lc_otel_trace : Z;
  lc_trace_context_raw : Z;
  lc_span_name_cv : Z;
  lc_span_attrs : list (list Z * list Z);
  lc_log_export_raw : Z;
  lc_log_export_cv : Z
}.

(** [src/src/metric_source/location_conf.rs: 184-195 LocationConf] *)
Definition loc_default : location_conf := mk_loc 0 TRACE_CONTEXT_UNSET 0 [] LOG_EXPORT_UNSET 0.

Definition set_otel_trace (v : Z) (l : location_conf) : location_conf :=
  mk_loc v (lc_trace_context_raw l) (lc_span_name_cv l) (lc_span_attrs l) (lc_log_export_raw l) (lc_log_export_cv l).
(** [src/src/metric_source/location_conf.rs: LocationConf::set_trace_context] *)
Definition set_trace_context (m : trace_context_mode) (l : location_conf) : location_conf :=
  mk_loc (lc_otel_trace l) (trace_context_byte m) (lc_span_name_cv l) (lc_span_attrs l) (lc_log_export_raw l) (lc_log_export_cv l).
Definition set_span_name_cv (v : Z) (l : location_conf) : location_conf :=
  mk_loc (lc_otel_trace l) (lc_trace_context_raw l) v (lc_span_attrs l) (lc_log_export_raw l) (lc_log_export_cv l).
Definition push_span_attr (kv : list Z * list Z) (l : location_conf) : location_conf :=
  mk_loc (lc_otel_trace l) (lc_trace_context_raw l) (lc_span_name_cv l) (lc_span_attrs l ++ [kv]) (lc_log_export_raw l) (lc_log_export_cv l).
(** [src/src/metric_source/location_conf.rs: LocationConf::set_log_export_mode] *)
Definition set_log_export_mode (m : log_export_mode) (l : location_conf) : location_conf :=
  mk_loc (lc_otel_trace l) (lc_trace_context_raw l) (lc_span_name_cv l) (lc_span_attrs l) (log_export_byte m) (lc_log_export_cv l).
Definition set_log_export_cv (v : Z) (l : location_conf) : location_conf :=
  mk_loc (lc_otel_trace l) (lc_trace_context_raw l) (lc_span_name_cv l) (lc_span_attrs l) (lc_log_export_raw l) v.

(** [src/src/metric_source/location_conf.rs: LocationConf::trace_context] *)
Definition trace_context (l : location_conf) : trace_context_mode :=
  if lc_trace_context_raw l =? 0 then CtxIgnore
  else if lc_trace_context_raw l =? 1 then CtxExtract
  else if lc_trace_context_raw l =? 2 then CtxInject
  else if lc_trace_context_raw l =? 3 then CtxPropagate
  else CtxExtract.

(** [src/src/metric_source/location_conf.rs: LocationConf::trace_context_is_set] *)
Definition trace_context_is_set (l : location_conf) : bool := negb (lc_trace_context_raw l =? TRACE_CONTEXT_UNSET).

(** [src/src/metric_source/location_conf.rs: LocationConf::log_export_mode] *)
Definition log_export_mode_of (l : location_conf) : log_export_mode :=
  if lc_log_export_raw l =? 1 then LogOff
  else if lc_log_export_raw l =? 2 then LogAll
  else if lc_log_export_raw l =? 3 then LogIf
  else LogUnset.

(** [src/src/metric_source/location_conf.rs: LocationConf::log_export_is_set] *)
Definition log_export_is_set (l : location_conf) : bool := negb (lc_log_export_raw l =? LOG_EXPORT_UNSET).

(** [src/src/metric_source/location_conf.rs: LocationConf::merge] *)
Definition merge (self prev : location_conf) : location_conf :=
  mk_loc
    (if lc_otel_trace self =? 0 then lc_otel_trace prev else lc_otel_trace self)
    (if trace_context_is_set self then lc_trace_context_raw self else lc_trace_context_raw prev)
    (if lc_span_name_cv self =? 0 then lc_span_name_cv prev else lc_span_name_cv self)
    (lc_span_attrs self)
    (if log_export_is_set self then lc_log_export_raw self else lc_log_export_raw prev)
    (if log_export_is_set self then lc_log_export_cv self else lc_log_export_cv prev).

(** The settings in force: the levels from the http block inwards. *)
Definition effective (levels : list location_conf) : location_conf :=
  foldl (fun prev self => merge self prev) loc_default levels.

(** ** Inheritance *)

(** [decided P levels l]: [l] is the innermost level with an explicit setting. *)
Definition decided (is_set : location_conf -> bool) (levels : list location_conf) (l : location_conf) : Prop :=
  exists outer inner, levels = outer ++ l :: inner /\ is_set l = true /\ Forall (fun x => is_set x = false) inner.

(** A setting that [merge] takes from itself when set and from outside otherwise. *)
Lemma innermost {A} (f : location_conf -> A) (is_set : location_conf -> bool)
    (Hm : forall self prev, f (merge self prev) = if is_set self then f self else f prev) levels :
  (exists l, decided is_set levels l /\ f (effective levels) = f l) \/
  (Forall (fun x => is_set x = false) levels /\ f (effective levels) = f loc_default).
Proof.
  unfold effective. induction levels as [|l levels IH] using rev_ind; [right; auto|].
  rewrite foldl_app. cbn [foldl]. rewrite Hm. destruct (is_set l) eqn:E.
  - left. exists l. split; [|reflexivity]. exists levels, []. auto.
  - destruct IH as [(x & (outer & inner & -> & Hs & HF) & Hx)|[HF Hd]].
    + left. exists x. split; [|exact Hx]. exists outer, (inner ++ [l]). split_and!; [|exact Hs|].
      * rewrite <- app_assoc. reflexivity.
      * apply Forall_app. auto.
    + right. split; [apply Forall_app; auto|exact Hd].
Qed.

(** At most one level decides. *)
Lemma decided_unique is_set levels l l' : decided is_set levels l -> decided is_set levels l' -> l = l'.
Proof.
  intros (o & i & -> & Hs & HF) (o' & i' & E & Hs' & HF'). revert o' E. induction o as [|x o IH]; intros [|x' o'] E; cbn in E.
  - congruence.
  - injection E as -> ->. rewrite Forall_app in HF. destruct HF as [_ HF]. inversion HF. congruence.
  - injection E as -> <-. rewrite Forall_app in HF'. destruct HF' as [_ HF']. inversion HF'. congruence.
  - injection E as -> E. apply (IH o' E).
Qed.

Lemma innermost_decided {A} (f : location_conf -> A) (is_set : location_conf -> bool)
    (Hm : forall self prev, f (merge self prev) = if is_set self then f self else f prev) levels l :
  decided is_set levels l -> f (effective levels) = f l.
Proof.
  intros Hd. destruct (innermost f is_set Hm levels) as [(x & Hx & ->)|[HF _]].
  - rewrite (decided_unique _ _ _ _ Hx Hd). reflexivity.
  - destruct Hd as (o & i & -> & Hs & _). rewrite Forall_app in HF. destruct HF as [_ HF]. inversion HF. congruence.
Qed.

Lemma innermost_none {A} (f : location_conf -> A) (is_set : location_conf -> bool)
    (Hm : forall self prev, f (merge self prev) = if is_set self then f self else f prev) levels :
  Forall (fun x => is_set x = false) levels -> f (effective levels) = f loc_default.
Proof.
  intros HF. destruct (innermost f is_set Hm levels) as [(x & (o & i & -> & Hs & _) & _)|[_ H]]; [|exact H].
  rewrite Forall_app in HF. destruct HF as [_ HF]. inversion HF. congruence.
Qed.

(** What a location inherits: of each setting the innermost
    explicit level wins and an unset one falls back to its default (no
    tracing, [extract], the built-in span name, no log export); the condition of
    [if=] always comes from the level that set the mode, so an inner [on] or
    [off] is never combined with an outer condition; span attributes are those of
    the innermost level alone. *)
Theorem inheritance_innermost levels (eff := effective levels) :
  (forall l, decided (fun l => negb (lc_otel_trace l =? 0)) levels l -> lc_otel_trace eff = lc_otel_trace l) /\
  (forall l, decided trace_context_is_set levels l -> trace_context eff = trace_context l) /\
  (forall l, decided (fun l => negb (lc_span_name_cv l =? 0)) levels l -> lc_span_name_cv eff = lc_span_name_cv l) /\
  (forall l, decided log_export_is_set levels l ->
     log_export_mode_of eff = log_export_mode_of l /\ lc_log_export_cv eff = lc_log_export_cv l) /\
  (Forall (fun l => lc_otel_trace l = 0) levels -> lc_otel_trace eff = 0) /\
  (Forall (fun l => trace_context_is_set l = false) levels -> trace_context eff = CtxExtract) /\
  (Forall (fun l => lc_span_name_cv l = 0) levels -> lc_span_name_cv eff = 0) /\
  (Forall (fun l => log_export_is_set l = false) levels -> log_export_mode_of eff = LogUnset) /\
  (forall outer l, levels = outer ++ [l] -> lc_span_attrs eff = lc_span_attrs l).
Proof.
  assert (M1 : forall self prev, lc_otel_trace (merge self prev) =
    if negb (lc_otel_trace self =? 0) then lc_otel_trace self else lc_otel_trace prev)
    by (intros; cbn; destruct (_ =? 0); reflexivity).
  assert (M2 : forall self prev, lc_trace_context_raw (merge self prev) =
    if trace_context_is_set self then lc_trace_context_raw self else lc_trace_context_raw prev) by reflexivity.
  assert (M3 : forall self prev, lc_span_name_cv (merge self prev) =
    if negb (lc_span_name_cv self =? 0) then lc_span_name_cv self else lc_span_name_cv prev)
    by (intros; cbn; destruct (_ =? 0); reflexivity).
  assert (M4 : forall self prev, lc_log_export_raw (merge self prev) =
    if log_export_is_set self then lc_log_export_raw self else lc_log_export_raw prev) by reflexivity.
  assert (M5 : forall self prev, lc_log_export_cv (merge self prev) =
    if log_export_is_set self then lc_log_export_cv self else lc_log_export_cv prev) by reflexivity.
  assert (Hz : forall f : location_conf -> Z, Forall (fun l => f l = 0) levels -> Forall (fun l => negb (f l =? 0) = false) levels)
    by (intros f; apply Forall_impl; intros l ->; reflexivity).
  unfold trace_context, log_export_mode_of. split_and!.
  - intros l. apply (innermost_decided _ _ M1).
  - intros l Hl. unfold eff. rewrite (innermost_decided _ _ M2 _ _ Hl). reflexivity.
  - intros l. apply (innermost_decided _ _ M3).
  - intros l Hl. unfold eff. rewrite (innermost_decided _ _ M4 _ _ Hl), (innermost_decided _ _ M5 _ _ Hl). auto.
  - intros H. apply (innermost_none _ _ M1), Hz, H.
  - intros H. unfold eff. rewrite (innermost_none _ _ M2) by exact H. reflexivity.
  - intros H. apply (innermost_none _ _ M3), Hz, H.
  - intros H. unfold eff. rewrite (innermost_none _ _ M4) by exact H. reflexivity.
  - intros outer l ->. unfold eff, effective. rewrite foldl_app. reflexivity.
Qed.
