(* ===== verification/Directives.v ===== *)
(** * Directive handlers (src/src/config/directives.rs)

    The callbacks nginx invokes while it reads the configuration, with the two
    command tables of src/src/config/mod.rs.  A handler takes the tokens of
    the directive ([args[0]] is its name) and the state being built; [None] is a
    panic (an index out of bounds).  hyper's header parsers, nginx's allocator,
    the compiler of complex values and the reader of a block's body are
    arguments.  Messages are recorded by their level. *)
From stdpp Require Import gmap.
From S2P Require Import Prelude DataModel StdText ConfigParse CertTable Coalesce ErrorLog LogChain Config Control Finalize Location.

(** [*mut c_char]: null, [NGX_CONF_ERROR], or a message that nginx prints. *)
Inductive conf_result := NGX_CONF_OK | NGX_CONF_ERROR | ConfMsg (text : list Z).

(** What the handlers write: the main configuration, the settings of the
    level being read, nginx's log chain, the floor given to the error writer's
    state, the levels of the messages logged. *)
Record parse_state := mk_parse {
  st_main : main_config;
  st_loc : location_conf;
  st_heap : heap;
  st_writer : option (nat * Z);
  st_logs : list Z
}.

Definition on_main (f : main_config -> main_config) (s : parse_state) : parse_state :=
  mk_parse (f (st_main s)) (st_loc s) (st_heap s) (st_writer s) (st_logs s).
Definition on_exporter (f : exporter_config -> exporter_config) : parse_state -> parse_state :=
  on_main (fun c => set_exporter (f (mc_exporter c)) c).
Definition on_loc (f : location_conf -> location_conf) (s : parse_state) : parse_state :=
  mk_parse (st_main s) (f (st_loc s)) (st_heap s) (st_writer s) (st_logs s).
Definition emit (level : Z) (s : parse_state) : parse_state :=
  mk_parse (st_main s) (st_loc s) (st_heap s) (st_writer s) (st_logs s ++ [level]).

Abbreviation token := (list Z).
Definition handler : Type := list token -> parse_state -> option (conf_result * parse_state).

(** nginx and hyper, as seen by one directive. *)
Record parse_env := mk_penv {
  pv_header_name : list Z -> bool;        (* HeaderName::from_bytes *)
  pv_header_value : list Z -> bool;       (* HeaderValue::from_bytes *)
  pv_pool : bool;                         (* cf->pool is non-null *)
  pv_alloc_log : option nat;              (* ngx_pcalloc of the log node *)
  pv_alloc_state : option nat;            (* ngx_pcalloc of the writer state *)
  pv_alloc_cv : Z;                        (* ngx_pcalloc of a complex value, 0 on failure *)
  pv_compile : list Z -> bool;            (* ngx_http_compile_complex_value *)
  pv_new_log : nat                        (* &cycle->new_log *)
}.

(** ** Helpers *)

(** [src/src/config/directives.rs: already_set_error] *)
Definition already_set_error : conf_result := ConfMsg $"is duplicate".

Definition NGX_CONF_NOARGS : Z := 1.
Definition NGX_CONF_TAKE1 : Z := 2.
Definition NGX_CONF_TAKE2 : Z := 4.
Definition NGX_CONF_BLOCK : Z := 256.
Definition NGX_CONF_FLAG : Z := 512.

(** [src/src/config/directives.rs: cmd_nargs] *)
Definition cmd_nargs (type_ : Z) : Z * Z :=
  if negb (Z.land type_ NGX_CONF_NOARGS =? 0) then (1, 1)
  else if negb (Z.land type_ NGX_CONF_TAKE1 =? 0) then (2, 2)
  else if negb (Z.land type_ NGX_CONF_TAKE2 =? 0) then (3, 3)
  else if negb (Z.land type_ NGX_CONF_FLAG =? 0) then (2, 2)
  else (1, u64_max).

(** [src/src/config/directives.rs: has_authority] *)
Definition has_authority (value : list Z) : bool := contains $"://" value.

(** [src/src/config/directives.rs: warn_if_has_authority] *)
Definition warn_if_has_authority (value : list Z) (s : parse_state) : parse_state :=
  if has_authority value then emit NGX_LOG_WARN s else s.

(** The shape shared by the handlers that store one token once. *)
Definition store_once (current : list Z) (store : list Z -> parse_state -> parse_state) : handler := fun args s =>
  if negb (blen current =? 0) then Some (already_set_error, s)
  else v ← args !! 1%nat; Some (NGX_CONF_OK, store v s).

(** ** Inside the exporter block *)

(** [src/src/config/directives.rs: cmd_exporter_set_endpoint] *)
Definition cmd_exporter_set_endpoint : handler := fun args s =>
  store_once (xc_endpoint (mc_exporter (st_main s))) (fun v => on_exporter (set_endpoint v)) args s.
(** [src/src/config/directives.rs: cmd_exporter_set_trusted_cert] *)
Definition cmd_exporter_set_trusted_cert : handler := fun args s =>
  store_once (xc_trusted_cert (mc_exporter (st_main s))) (fun v => on_exporter (set_trusted_cert v)) args s.
(** [src/src/config/directives.rs: cmd_exporter_set_ssl_cert] *)
Definition cmd_exporter_set_ssl_cert : handler := fun args s =>
  store_once (xc_ssl_cert (mc_exporter (st_main s))) (fun v => on_exporter (set_ssl_cert v)) args s.
(** [src/src/config/directives.rs: cmd_exporter_set_ssl_cert_key] *)
Definition cmd_exporter_set_ssl_cert_key : handler := fun args s =>
  store_once (xc_ssl_cert_key (mc_exporter (st_main s))) (fun v => on_exporter (set_ssl_cert_key v)) args s.

(** [src/src/config/directives.rs: cmd_exporter_set_ssl_verify] *)
Definition cmd_exporter_set_ssl_verify : handler := fun args s =>
  if negb (xc_ssl_verify (mc_exporter (st_main s)) =? UNSET_FLAG) then Some (already_set_error, s)
  else
    val ← args !! 1%nat;
    if bytes_eqb val $"on" then Some (NGX_CONF_OK, on_exporter (set_ssl_verify 1) s)
    else if bytes_eqb val $"off" then Some (NGX_CONF_OK, on_exporter (set_ssl_verify 0) s)
    else Some (ConfMsg $"invalid ssl_verify value", emit NGX_LOG_EMERG s).

(** [src/src/config/directives.rs: cmd_exporter_set_metrics_endpoint] *)
Definition cmd_exporter_set_metrics_endpoint : handler := fun args s =>
  store_once (xc_metrics_endpoint (mc_exporter (st_main s)))
    (fun v s => on_exporter (set_metrics_endpoint v) (warn_if_has_authority v s)) args s.
(** [src/src/config/directives.rs: cmd_exporter_set_logs_endpoint] *)
Definition cmd_exporter_set_logs_endpoint : handler := fun args s =>
  store_once (xc_logs_endpoint (mc_exporter (st_main s)))
    (fun v s => on_exporter (set_logs_endpoint v) (warn_if_has_authority v s)) args s.
(** [src/src/config/directives.rs: cmd_exporter_set_traces_endpoint] *)
Definition cmd_exporter_set_traces_endpoint : handler := fun args s =>
  store_once (xc_traces_endpoint (mc_exporter (st_main s)))
    (fun v s => on_exporter (set_traces_endpoint v) (warn_if_has_authority v s)) args s.

Section handlers.
Context (env : parse_env).

(** [inl true]: bad name; [inl false]: bad value.
    [src/src/config/directives.rs: check_header_kv] *)
Definition check_header_kv (name value : list Z) : bool + unit :=
  if negb (pv_header_name env name) then inl true
  else if negb (pv_header_value env value) then inl false
  else inr tt.

(** [src/src/config/directives.rs: validate_header_kv] *)
Definition validate_header_kv (name value : list Z) (s : parse_state) : bool * parse_state :=
  match check_header_kv name value with
  | inr _ => (true, s)
  | inl _ => (false, emit NGX_LOG_EMERG s)
  end.

(** [src/src/config/directives.rs: cmd_exporter_block_add_header] *)
Definition cmd_exporter_block_add_header : handler := fun args s =>
  k ← args !! 1%nat;
  v ← args !! 2%nat;
  let '(ok, s) := validate_header_kv k v s in
  if negb ok then Some (NGX_CONF_ERROR, s)
  else Some (NGX_CONF_OK, on_main (fun c => set_exporter_headers (mc_exporter_headers c ++ [(k, v)]) c) s).

(** [src/src/config/directives.rs: cmd_exporter_block_set_interval] *)
Definition cmd_exporter_block_set_interval : handler := fun args s =>
  if negb (mc_metric_interval_ms (st_main s) =? UNSET_U64) then Some (already_set_error, s)
  else
    v ← args !! 1%nat;
    match parse_duration_ms v with
    | Some ms => if 0 <? ms then Some (NGX_CONF_OK, on_main (set_metric_interval_ms ms) s)
                 else Some (NGX_CONF_ERROR, emit NGX_LOG_EMERG s)
    | None => Some (NGX_CONF_ERROR, emit NGX_LOG_EMERG s)
    end.

(** [src/src/config/directives.rs: cmd_exporter_block_ignore_batch_size] *)
Definition cmd_exporter_block_ignore_batch_size : handler := fun args s =>
  v ← args !! 1%nat;
  match parse_size_bytes v with
  | None => Some (NGX_CONF_ERROR, emit NGX_LOG_EMERG s)
  | Some _ => Some (NGX_CONF_OK, emit NGX_LOG_WARN s)
  end.

(** [src/src/config/directives.rs: cmd_exporter_block_ignore_batch_count] *)
Definition cmd_exporter_block_ignore_batch_count : handler := fun args s =>
  v ← args !! 1%nat;
  match parse_size_bytes v with
  | None => Some (NGX_CONF_ERROR, emit NGX_LOG_EMERG s)
  | Some _ => Some (NGX_CONF_OK, emit NGX_LOG_WARN s)
  end.

(** [ngx_command_t] *)
Record command := mk_cmd { cmd_name : list Z; cmd_type : Z; cmd_set : handler }.

(** [src/src/config/mod.rs: NGX_HTTP_OTEL_EXPORTER_COMMANDS] *)
Definition NGX_HTTP_OTEL_EXPORTER_COMMANDS : list command :=
  [mk_cmd $"endpoint" NGX_CONF_TAKE1 cmd_exporter_set_endpoint;
   mk_cmd $"trusted_certificate" NGX_CONF_TAKE1 cmd_exporter_set_trusted_cert;
   mk_cmd $"ssl_certificate" NGX_CONF_TAKE1 cmd_exporter_set_ssl_cert;
   mk_cmd $"ssl_certificate_key" NGX_CONF_TAKE1 cmd_exporter_set_ssl_cert_key;
   mk_cmd $"ssl_verify" NGX_CONF_TAKE1 cmd_exporter_set_ssl_verify;
   mk_cmd $"metrics_endpoint" NGX_CONF_TAKE1 cmd_exporter_set_metrics_endpoint;
   mk_cmd $"logs_endpoint" NGX_CONF_TAKE1 cmd_exporter_set_logs_endpoint;
   mk_cmd $"traces_endpoint" NGX_CONF_TAKE1 cmd_exporter_set_traces_endpoint;
   mk_cmd $"header" NGX_CONF_TAKE2 cmd_exporter_block_add_header;
   mk_cmd $"interval" NGX_CONF_TAKE1 cmd_exporter_block_set_interval;
   mk_cmd $"batch_size" NGX_CONF_TAKE1 cmd_exporter_block_ignore_batch_size;
   mk_cmd $"batch_count" NGX_CONF_TAKE1 cmd_exporter_block_ignore_batch_count].

(** The loop of the dispatcher.
    [src/src/config/directives.rs: 387-410 cmd_exporter_block_handler] *)
Fixpoint dispatch (commands : list command) (name : token) (args : list token) (s : parse_state)
    : option (conf_result * parse_state) :=
  match commands with
  | [] => Some (NGX_CONF_ERROR, emit NGX_LOG_EMERG s)
  | cmd :: rest =>
      if negb (bytes_eqb name (cmd_name cmd)) then dispatch rest name args s
      else
        let '(lo, hi) := cmd_nargs (cmd_type cmd) in
        if (Z.of_nat (length args) <? lo) || (hi <? Z.of_nat (length args)) then Some (NGX_CONF_ERROR, emit NGX_LOG_EMERG s)
        else cmd_set cmd args s
  end.

(** [src/src/config/directives.rs: cmd_exporter_block_handler] *)
Definition cmd_exporter_block_handler : handler := fun args s =>
  name ← args !! 0%nat; dispatch NGX_HTTP_OTEL_EXPORTER_COMMANDS name args s.

(** ** Top level *)

(** [ngx_conf_parse] with a block handler installed: the handler's result over
    the body, as [rc]. *)
Context (ngx_conf_parse : handler -> parse_state -> option (conf_result * parse_state)).

(** [src/src/config/directives.rs: cmd_set_exporter_block] *)
Definition cmd_set_exporter_block : handler := fun args s =>
  if is_set (mc_exporter (st_main s)) then Some (NGX_CONF_ERROR, emit NGX_LOG_EMERG s)
  else
    '(rc, s) ← ngx_conf_parse cmd_exporter_block_handler s;
    match rc with
    | NGX_CONF_OK =>
        if blen (xc_endpoint (mc_exporter (st_main s))) =? 0 then Some (NGX_CONF_ERROR, emit NGX_LOG_EMERG s)
        else Some (NGX_CONF_OK, s)
    | rc => Some (rc, s)
    end.

(** [src/src/config/directives.rs: cmd_add_resource_attr] *)
Definition cmd_add_resource_attr : handler := fun args s =>
  k ← args !! 1%nat;
  v ← args !! 2%nat;
  Some (NGX_CONF_OK, on_main (fun c => set_resource_attrs (mc_resource_attrs c ++ [(k, v)]) c) s).

(** [src/src/config/directives.rs: cmd_add_exporter_header] *)
Definition cmd_add_exporter_header : handler := fun args s =>
  k ← args !! 1%nat;
  v ← args !! 2%nat;
  let '(ok, s) := validate_header_kv k v s in
  if negb ok then Some (NGX_CONF_ERROR, s)
  else Some (NGX_CONF_OK, on_main (fun c => set_exporter_headers (mc_exporter_headers c ++ [(k, v)]) c) s).

(** [src/src/config/directives.rs: cmd_set_metric_interval] *)
Definition cmd_set_metric_interval : handler := fun args s =>
  if negb (mc_metric_interval_ms (st_main s) =? UNSET_U64) then Some (already_set_error, s)
  else
    v ← args !! 1%nat;
    match parse_duration_ms v with
    | Some ms => if 0 <? ms then Some (NGX_CONF_OK, on_main (set_metric_interval_ms ms) s)
                 else Some (NGX_CONF_ERROR, emit NGX_LOG_EMERG s)
    | None => Some (NGX_CONF_ERROR, emit NGX_LOG_EMERG s)
    end.

(** [src/src/config/directives.rs: cmd_set_export_protocol] *)
Definition cmd_set_export_protocol : handler := fun args s =>
  match mc_export_protocol (st_main s) with
  | Some _ => Some (already_set_error, s)
  | None =>
      value ← args !! 1%nat;
      if bytes_eqb value $"otlp_http" then Some (NGX_CONF_OK, on_main (set_export_protocol (Some OtlpHttp)) s)
      else if bytes_eqb value $"otlp_grpc" then Some (NGX_CONF_OK, on_main (set_export_protocol (Some OtlpGrpc)) s)
      else Some (NGX_CONF_ERROR, emit NGX_LOG_EMERG s)
  end.

(** [src/src/config/directives.rs: parse_error_log_level_floor] *)
Definition parse_error_log_level_floor (args : list token) : option Z :=
  match args !! 1%nat with
  | Some level_str => parse_error_log_level level_str
  | None => Some NGX_LOG_ERR
  end.

(** [src/src/config/directives.rs: cmd_set_error_log] *)
Definition cmd_set_error_log : handler := fun args s =>
  if mc_error_log_enabled (st_main s) then Some (NGX_CONF_ERROR, emit NGX_LOG_EMERG s)
  else match parse_error_log_level_floor args with
  | None => Some (NGX_CONF_ERROR, emit NGX_LOG_EMERG s)
  | Some level_floor =>
      if negb (pv_pool env) then Some (NGX_CONF_ERROR, emit NGX_LOG_EMERG s) else
      match pv_alloc_log env with
      | None => Some (NGX_CONF_ERROR, emit NGX_LOG_EMERG s)
      | Some new_log =>
          match pv_alloc_state env with
          | None => Some (NGX_CONF_ERROR, emit NGX_LOG_EMERG s)
          | Some state =>
              let h := <[new_log := mk_node level_floor true (Some state) None]> (st_heap s) in
              h' ← otel_log_insert (size h) h (pv_new_log env) new_log;
              Some (NGX_CONF_OK, mk_parse (set_error_log true level_floor (st_main s)) (st_loc s) h'
                                   (Some (state, level_floor)) (st_logs s))
          end
      end
  end.

(** [src/src/config/directives.rs: cmd_set_error_log_coalesce] *)
Definition cmd_set_error_log_coalesce : handler := fun args s =>
  val ← args !! 1%nat;
  if bytes_eqb val $"on" then Some (NGX_CONF_OK, on_main (set_error_log_coalesce true) s)
  else if bytes_eqb val $"off" then Some (NGX_CONF_OK, on_main (set_error_log_coalesce false) s)
  else Some (NGX_CONF_ERROR, emit NGX_LOG_EMERG s).

(** ** Per location *)

(** [0] on failure.
    [src/src/config/directives.rs: compile_complex_value] *)
Definition compile_complex_value (value : list Z) : Z :=
  let cv_ptr := pv_alloc_cv env in
  if cv_ptr =? 0 then 0 else if pv_compile env value then cv_ptr else 0.

(** [src/src/config/directives.rs: cmd_set_otel_trace] *)
Definition cmd_set_otel_trace : handler := fun args s =>
  if negb (lc_otel_trace (st_loc s) =? 0) then Some (already_set_error, s)
  else
    value ← args !! 1%nat;
    let cv := compile_complex_value value in
    if cv =? 0 then Some (NGX_CONF_ERROR, emit NGX_LOG_EMERG s)
    else Some (NGX_CONF_OK, on_loc (set_otel_trace cv) s).

(** [inl]: the parameter is refused; the condition's complex value is stored as it is compiled.
    [src/src/config/directives.rs: 843-876 cmd_set_otel_log_export] *)
Definition log_export_param (args : list token) (l : location_conf) : unit + (log_export_mode * location_conf) :=
  match args !! 1%nat with
  | None => inr (LogAll, l)
  | Some param =>
      if bytes_eqb param $"on" then inr (LogAll, l)
      else if bytes_eqb param $"off" then inr (LogOff, l)
      else if (3 <=? blen param) && bytes_eqb (take 3 param) $"if=" then
        let cv := compile_complex_value (drop 3 param) in
        if cv =? 0 then inl tt else inr (LogIf, set_log_export_cv cv l)
      else inl tt
  end.

(** [src/src/config/directives.rs: cmd_set_otel_log_export] *)
Definition cmd_set_otel_log_export : handler := fun args s =>
  if log_export_is_set (st_loc s) then Some (already_set_error, s)
  else match log_export_param args (st_loc s) with
  | inl _ => Some (NGX_CONF_ERROR, emit NGX_LOG_EMERG s)
  | inr (mode, l) =>
      let s := on_loc (fun _ => set_log_export_mode mode l) s in
      Some (NGX_CONF_OK, match mode with LogAll | LogIf => on_main (set_any_log_export true) s | _ => s end)
  end.

(** [src/src/config/directives.rs: cmd_set_otel_trace_context] *)
Definition cmd_set_otel_trace_context : handler := fun args s =>
  if trace_context_is_set (st_loc s) then Some (already_set_error, s)
  else
    v ← args !! 1%nat;
    match (if bytes_eqb v $"ignore" then Some CtxIgnore
           else if bytes_eqb v $"extract" then Some CtxExtract
           else if bytes_eqb v $"inject" then Some CtxInject
           else if bytes_eqb v $"propagate" then Some CtxPropagate
           else None) with
    | Some mode => Some (NGX_CONF_OK, on_loc (set_trace_context mode) s)
    | None => Some (NGX_CONF_ERROR, emit NGX_LOG_EMERG s)
    end.

(** [src/src/config/directives.rs: cmd_set_otel_span_name] *)
Definition cmd_set_otel_span_name : handler := fun args s =>
  if negb (lc_span_name_cv (st_loc s) =? 0) then Some (already_set_error, s)
  else
    value ← args !! 1%nat;
    let cv := compile_complex_value value in
    if cv =? 0 then Some (NGX_CONF_ERROR, emit NGX_LOG_EMERG s)
    else Some (NGX_CONF_OK, on_loc (set_span_name_cv cv) s).

(** [src/src/config/directives.rs: cmd_add_otel_span_attr] *)
Definition cmd_add_otel_span_attr : handler := fun args s =>
  k ← args !! 1%nat;
  v ← args !! 2%nat;
  Some (NGX_CONF_OK, on_loc (push_span_attr (k, v)) s).

(** The commands whose handler is the module's own; [otel_service_name],
    [otel_metric_status_code_class] and [otel_metrics] use nginx's slot setters.
    [src/src/config/mod.rs: 1582-1746 production_commands] *)
Definition own_commands : list command :=
  [mk_cmd $"otel_exporter" (Z.lor NGX_CONF_NOARGS NGX_CONF_BLOCK) cmd_set_exporter_block;
   mk_cmd $"otel_resource_attr" NGX_CONF_TAKE2 cmd_add_resource_attr;
   mk_cmd $"otel_exporter_header" NGX_CONF_TAKE2 cmd_add_exporter_header;
   mk_cmd $"otel_metric_interval" NGX_CONF_TAKE1 cmd_set_metric_interval;
   mk_cmd $"otel_export_protocol" NGX_CONF_TAKE1 cmd_set_export_protocol;
   mk_cmd $"otel_error_log" (Z.lor NGX_CONF_NOARGS NGX_CONF_TAKE1) cmd_set_error_log;
   mk_cmd $"otel_error_log_coalesce" NGX_CONF_FLAG cmd_set_error_log_coalesce;
   mk_cmd $"otel_trace" NGX_CONF_TAKE1 cmd_set_otel_trace;
   mk_cmd $"otel_trace_context" NGX_CONF_TAKE1 cmd_set_otel_trace_context;
   mk_cmd $"otel_span_name" NGX_CONF_TAKE1 cmd_set_otel_span_name;
   mk_cmd $"otel_span_attr" NGX_CONF_TAKE2 cmd_add_otel_span_attr;
   mk_cmd $"otel_log_export" (Z.lor NGX_CONF_NOARGS NGX_CONF_TAKE1) cmd_set_otel_log_export].

End handlers.

(** ** Every refusal is explained and changes nothing *)

(** nginx checks the number of tokens against the command's type before it
    calls a handler. *)
Definition nginx_arity (type_ n : Z) : bool :=
  if negb (Z.land type_ NGX_CONF_FLAG =? 0) then n =? 2
  else (n =? 1) && negb (Z.land type_ NGX_CONF_NOARGS =? 0)
       || (n =? 2) && negb (Z.land type_ NGX_CONF_TAKE1 =? 0)
       || (n =? 3) && negb (Z.land type_ NGX_CONF_TAKE2 =? 0).

Definition same_conf (s s' : parse_state) : Prop :=
  st_main s' = st_main s /\ st_loc s' = st_loc s /\ st_heap s' = st_heap s /\ st_writer s' = st_writer s.

(** The outcome of a handler: accepted without a message above warning, or
    refused with the state as it was and a message for the operator, logged here
    or printed by nginx from the returned string. *)
Definition clean (s : parse_state) (r : option (conf_result * parse_state)) : Prop :=
  exists res s' new, r = Some (res, s') /\ st_logs s' = st_logs s ++ new /\
    match res with
    | NGX_CONF_OK => at_most_warned new
    | NGX_CONF_ERROR => same_conf s s' /\ In NGX_LOG_EMERG new
    | ConfMsg text => same_conf s s' /\ text <> []
    end.

Lemma clean_ok s s' : st_logs s' = st_logs s -> clean s (Some (NGX_CONF_OK, s')).
Proof. intros E. exists NGX_CONF_OK, s', []. rewrite app_nil_r. split_and!; auto. constructor. Qed.
Lemma clean_warned s s' : st_logs s' = st_logs s ++ [NGX_LOG_WARN] -> clean s (Some (NGX_CONF_OK, s')).
Proof. intros E. exists NGX_CONF_OK, s', [NGX_LOG_WARN]. split_and!; [auto|auto|]. repeat constructor. discriminate. Qed.
Lemma clean_refused s : clean s (Some (NGX_CONF_ERROR, emit NGX_LOG_EMERG s)).
Proof. exists NGX_CONF_ERROR, (emit NGX_LOG_EMERG s), [NGX_LOG_EMERG]. split_and!; cbn; auto. repeat split. Qed.
Lemma clean_msg s text : text <> [] -> clean s (Some (ConfMsg text, s)).
Proof. intros H. exists (ConfMsg text), s, []. rewrite app_nil_r. repeat split; auto. Qed.
Lemma clean_msg_logged s text : text <> [] -> clean s (Some (ConfMsg text, emit NGX_LOG_EMERG s)).
Proof. intros H. exists (ConfMsg text), (emit NGX_LOG_EMERG s), [NGX_LOG_EMERG]. repeat split; auto. Qed.
Lemma clean_duplicate s : clean s (Some (already_set_error, s)).
Proof. apply clean_msg. vm_compute. discriminate. Qed.

Create HintDb directives.
#[export] Hint Resolve clean_ok clean_warned clean_refused clean_duplicate clean_msg_logged : directives.

(** Case analysis on a handler whose tokens are present. *)
Ltac step_handler :=
  cbv zeta; repeat (case_match; cbn [mbind option_bind st_logs on_main on_loc on_exporter emit]);
  try discriminate; eauto with directives.

Lemma store_once_clean current store args s v :
  args !! 1%nat = Some v -> (st_logs (store v s) = st_logs s \/ st_logs (store v s) = st_logs s ++ [NGX_LOG_WARN]) ->
  clean s (store_once current store args s).
Proof. intros Hv Hs. unfold store_once. rewrite Hv. case_match; cbn; [auto with directives|destruct Hs; auto with directives]. Qed.

Lemma warned_logs v f s :
  st_logs (on_exporter f (warn_if_has_authority v s)) = st_logs s \/
  st_logs (on_exporter f (warn_if_has_authority v s)) = st_logs s ++ [NGX_LOG_WARN].
Proof. unfold warn_if_has_authority. destruct (has_authority v); cbn; auto. Qed.

Lemma add_header_clean env (args : list token) s (k v : token) : args !! 1%nat = Some k -> args !! 2%nat = Some v ->
  clean s (cmd_exporter_block_add_header env args s).
Proof.
  intros H1 H2. unfold cmd_exporter_block_add_header, validate_header_kv. rewrite H1, H2. cbn [mbind option_bind].
  destruct (check_header_kv env k v); cbn; auto with directives.
Qed.

(** Tokens by number. *)
Lemma two_tokens (args : list token) : Z.of_nat (length args) = 2 -> exists a v, args = [a; v].
Proof. destruct args as [|a [|v [|? ?]]]; cbn; try lia. eauto. Qed.
Lemma three_tokens (args : list token) : Z.of_nat (length args) = 3 -> exists a k v, args = [a; k; v].
Proof. destruct args as [|a [|k [|v [|? ?]]]]; cbn; try lia. eauto. Qed.

Lemma exporter_command_clean env cmd args s : In cmd (NGX_HTTP_OTEL_EXPORTER_COMMANDS env) ->
  let '(lo, hi) := cmd_nargs (cmd_type cmd) in lo <= Z.of_nat (length args) <= hi -> clean s (cmd_set cmd args s).
Proof.
  intros Hin. unfold NGX_HTTP_OTEL_EXPORTER_COMMANDS in Hin. cbn [In] in Hin.
  repeat (destruct Hin as [<-|Hin]; [|try contradiction]); cbn [cmd_type cmd_set];
    match goal with |- context [cmd_nargs ?t] => let r := eval vm_compute in (cmd_nargs t) in change (cmd_nargs t) with r end;
    cbv beta iota; intros Hlen;
    first [destruct (two_tokens args ltac:(lia)) as (a & v & ->) | destruct (three_tokens args ltac:(lia)) as (a & k & v & ->)].
  all: try (eapply store_once_clean; [reflexivity|first [left; reflexivity|apply warned_logs]]).
  - unfold cmd_exporter_set_ssl_verify. cbn [lookup list_lookup mbind option_bind]. step_handler.
  - eapply add_header_clean; reflexivity.
  - unfold cmd_exporter_block_set_interval. cbn [lookup list_lookup mbind option_bind]. step_handler.
  - unfold cmd_exporter_block_ignore_batch_size. cbn [lookup list_lookup mbind option_bind]. step_handler.
  - unfold cmd_exporter_block_ignore_batch_count. cbn [lookup list_lookup mbind option_bind]. step_handler.
Qed.

(** nginx's log chain is a list, and a fresh allocation is not in the heap. *)
Definition log_chain_ok (env : parse_env) (s : parse_state) : Prop :=
  exists l, chain (st_heap s) (Some (pv_new_log env)) l /\ NoDup l.*1 /\
    forall a, pv_alloc_log env = Some a -> st_heap s !! a = None.

Lemma chain_elem h p l a : chain h p l -> a ∈ l.*1 -> is_Some (h !! a).
Proof.
  revert p. induction l as [|[b cb] l IH]; intros p Hc Ha; [set_solver|]. cbn in Hc. destruct Hc as (_ & m & Eb & _ & Hc).
  rewrite fmap_cons in Ha. apply elem_of_cons in Ha as [->|Ha]; [eauto|apply (IH _ Hc Ha)].
Qed.

(** The insertion of the directive always finds the end of the chain. *)
Lemma error_log_inserts env s level state new_log : log_chain_ok env s -> pv_alloc_log env = Some new_log ->
  let h := <[new_log := mk_node level true (Some state) None]> (st_heap s) in
  is_Some (otel_log_insert (size h) h (pv_new_log env) new_log).
Proof.
  intros (l & Hc & Hnd & Hfresh) Ha h. specialize (Hfresh _ Ha).
  assert (Hn : new_log ∉ l.*1) by (intros Hi; destruct (chain_elem _ _ _ _ Hc Hi); congruence).
  assert (Hc' : chain h (Some (pv_new_log env)) l) by (apply chain_insert_ne; assumption).
  destruct (otel_log_insert_chain (size h) h (pv_new_log env) new_log (mk_node level true (Some state) None) l)
    as (h' & l' & E & _); [exact Hc'|exact Hnd|exact Hn|apply lookup_insert_eq|reflexivity|exact (chain_size _ _ _ Hc' Hnd)|eauto].
Qed.

Lemma error_log_clean env args s : log_chain_ok env s -> clean s (cmd_set_error_log env args s).
Proof.
  intros Hc. unfold cmd_set_error_log. case_match; [auto with directives|].
  destruct (parse_error_log_level_floor args) as [level|]; [|auto with directives]. case_match; [auto with directives|].
  destruct (pv_alloc_log env) as [new_log|] eqn:Ea; [|auto with directives].
  destruct (pv_alloc_state env) as [state|]; [|auto with directives]. cbv zeta.
  destruct (error_log_inserts env s level state new_log Hc Ea) as [h' Eh]. rewrite Eh. cbn. auto with directives.
Qed.

Ltac solve_arity :=
  match goal with H : nginx_arity _ ?n = true |- _ =>
    unfold nginx_arity in H; destruct (Z.eqb_spec n 1), (Z.eqb_spec n 2), (Z.eqb_spec n 3); cbn in H; try discriminate; lia end.

Lemma arity_two t n : nginx_arity t n = true -> t = NGX_CONF_TAKE1 \/ t = NGX_CONF_FLAG -> n = 2.
Proof. intros H [-> | ->]; solve_arity. Qed.
Lemma arity_three t n : nginx_arity t n = true -> t = NGX_CONF_TAKE2 -> n = 3.
Proof. intros H ->. solve_arity. Qed.

Lemma log_export_clean env args s : clean s (cmd_set_otel_log_export env args s).
Proof.
  unfold cmd_set_otel_log_export. case_match; [auto with directives|].
  destruct (log_export_param env args (st_loc s)) as [[]|[[] l]]; auto with directives.
Qed.

Lemma own_command_clean env parse cmd args s : In cmd (tl (own_commands env parse)) ->
  nginx_arity (cmd_type cmd) (Z.of_nat (length args)) = true -> log_chain_ok env s -> clean s (cmd_set cmd args s).
Proof.
  intros Hin Har Hc. unfold own_commands in Hin. cbn [tl In] in Hin.
  repeat (destruct Hin as [<-|Hin]; [|try contradiction]); cbn [cmd_type cmd_set] in *;
    try (apply error_log_clean, Hc); try apply log_export_clean;
    (first [apply arity_two in Har; [|solve [auto]]; destruct (two_tokens args Har) as (a & v & ->)
           |apply arity_three in Har; [|reflexivity]; destruct (three_tokens args Har) as (a & k & v & ->)]).
  - cbn. auto with directives.
  - eapply add_header_clean; reflexivity.
  - unfold cmd_set_metric_interval. cbn [lookup list_lookup mbind option_bind]. step_handler.
  - unfold cmd_set_export_protocol. cbn [lookup list_lookup mbind option_bind]. step_handler.
  - unfold cmd_set_error_log_coalesce. cbn [lookup list_lookup mbind option_bind]. step_handler.
  - unfold cmd_set_otel_trace. cbn [lookup list_lookup mbind option_bind]. step_handler.
  - unfold cmd_set_otel_trace_context. cbn [lookup list_lookup mbind option_bind]. step_handler.
  - unfold cmd_set_otel_span_name. cbn [lookup list_lookup mbind option_bind]. step_handler.
  - cbn. auto with directives.
Qed.

Lemma dispatch_clean env name args s : forall cmds, incl cmds (NGX_HTTP_OTEL_EXPORTER_COMMANDS env) ->
  clean s (dispatch cmds name args s).
Proof.
  induction cmds as [|cmd cmds IH]; intros Hi; cbn [dispatch]; [auto with directives|].
  destruct (bytes_eqb name (cmd_name cmd)); cbn [negb]; [|apply IH; intros c Hc; apply Hi; right; exact Hc].
  pose proof (exporter_command_clean env cmd args s (Hi cmd (or_introl eq_refl))) as H.
  destruct (cmd_nargs (cmd_type cmd)) as [lo hi]. case_match eqn:E; [auto with directives|].
  apply H. apply orb_false_iff in E. lia.
Qed.

Lemma block_handler_clean env args s : args <> [] -> clean s (cmd_exporter_block_handler env args s).
Proof.
  intros Ha. unfold cmd_exporter_block_handler. destruct args as [|name args]; [contradiction|]. cbn [lookup list_lookup mbind option_bind].
  apply (dispatch_clean env), incl_refl.
Qed.

(** [ngx_conf_parse] on a body of tokenised statements, as nginx documents it:
    the installed handler is called for each statement until one fails; a
    returned message is printed. *)
Fixpoint run_block (h : handler) (body : list (list token)) (s : parse_state) : option (conf_result * parse_state) :=
  match body with
  | [] => Some (NGX_CONF_OK, s)
  | args :: rest =>
      '(r, s) ← h args s;
      match r with
      | NGX_CONF_OK => run_block h rest s
      | NGX_CONF_ERROR => Some (NGX_CONF_ERROR, s)
      | ConfMsg _ => Some (NGX_CONF_ERROR, emit NGX_LOG_EMERG s)
      end
  end.

Lemma run_block_total env body : forall s, Forall (fun args => args <> []) body ->
  exists r s' new, run_block (cmd_exporter_block_handler env) body s = Some (r, s') /\ st_logs s' = st_logs s ++ new /\
    (r = NGX_CONF_OK /\ at_most_warned new \/ r = NGX_CONF_ERROR /\ In NGX_LOG_EMERG new).
Proof.
  induction body as [|args body IH]; intros s HF; cbn [run_block].
  { exists NGX_CONF_OK, s, []. rewrite app_nil_r. split_and!; [reflexivity|reflexivity|left; split; [reflexivity|constructor]]. }
  inversion HF as [|? ? Ha HF']; subst. destruct (block_handler_clean env args s Ha) as (r & s' & new & -> & Hl & Hr).
  cbn [mbind option_bind]. destruct r as [| |text].
  - destruct (IH s' HF') as (r & s2 & new2 & -> & Hl2 & Hr2). exists r, s2, (new ++ new2).
    rewrite Hl2, Hl, app_assoc, in_app_iff. unfold at_most_warned in *. rewrite Forall_app. split_and!; [reflexivity|reflexivity|]. tauto.
  - exists NGX_CONF_ERROR, s', new. split_and!; [reflexivity|exact Hl|]. tauto.
  - exists NGX_CONF_ERROR, (emit NGX_LOG_EMERG s'), (new ++ [NGX_LOG_EMERG]). cbn [st_logs emit]. rewrite Hl, app_assoc.
    split_and!; [reflexivity|reflexivity|]. right. split; [reflexivity|]. apply in_app_iff. right. left. reflexivity.
Qed.

(** C28 (error). No configuration makes a directive handler panic, and none is refused
    silently.  With the number of tokens nginx or the block's dispatcher has
    checked, every handler returns; a handler that accepts logs nothing above a
    warning; one that refuses leaves the main configuration, the location's
    settings and the log chain exactly as they were and either logs at EMERG or returns
    the text nginx prints.  The exporter block as a whole ends accepted with an endpoint set, or refused with a message.
    About: cmd_exporter_block_handler, cmd_set_exporter_block, cmd_set_error_log, cmd_set_otel_log_export,
    cmd_set_otel_trace_context, cmd_exporter_block_set_interval, cmd_exporter_block_add_header, cmd_nargs, own_commands. *)
Theorem directives_explained env parse args s :
  args <> [] -> log_chain_ok env s ->
  (forall h s, exists body, Forall (fun st => st <> []) body /\ parse h s = run_block h body s) ->
  clean s (cmd_exporter_block_handler env args s) /\
  (forall cmd, In cmd (tl (own_commands env parse)) ->
     nginx_arity (cmd_type cmd) (Z.of_nat (length args)) = true -> clean s (cmd_set cmd args s)) /\
  exists r s' new, cmd_set_exporter_block env parse args s = Some (r, s') /\ st_logs s' = st_logs s ++ new /\
    (r = NGX_CONF_OK /\ at_most_warned new /\ is_configured (st_main s') = true \/
     r = NGX_CONF_ERROR /\ In NGX_LOG_EMERG new).
Proof.
  intros Ha Hc Hp. split; [apply block_handler_clean, Ha|]. split.
  { intros cmd Hin Har. apply (own_command_clean env parse cmd args s Hin Har Hc). }
  unfold cmd_set_exporter_block. case_match.
  { exists NGX_CONF_ERROR, (emit NGX_LOG_EMERG s), [NGX_LOG_EMERG]. split_and!; [reflexivity|reflexivity|]. right. cbn. auto. }
  destruct (Hp (cmd_exporter_block_handler env) s) as (body & HF & ->).
  destruct (run_block_total env body s HF) as (r & s' & new & -> & Hl & Hr). cbn [mbind option_bind].
  destruct Hr as [[-> Hn]|[-> Hn]]; [|exists NGX_CONF_ERROR, s', new; auto]. case_if.
  - exists NGX_CONF_ERROR, (emit NGX_LOG_EMERG s'), (new ++ [NGX_LOG_EMERG]). cbn [st_logs emit]. rewrite Hl, app_assoc.
    split_and!; [reflexivity|reflexivity|]. right. split; [reflexivity|]. apply in_app_iff. right. left. reflexivity.
  - exists NGX_CONF_OK, s', new. split_and!; [auto|auto|]. left. split_and!; auto.
    unfold is_configured, is_set. rewrite negb_true_iff. lia.
Qed.

Definition sample_penv : parse_env :=
  mk_penv (fun n => negb (blen n =? 0)) (fun _ => true) true (Some 7%nat) (Some 70%nat) 4096 (fun _ => true) 0%nat.
Definition sample_parse_state : parse_state :=
  mk_parse main_default loc_default {[ 0%nat := mk_node 4 false None None ]} None [].
Definition sample_body : list (list token) :=
  [[$"endpoint"; $"http://127.0.0.1:4318"]; [$"interval"; $"10s"]; [$"interval"; $"5s"]].

Lemma directives_explained_witness :
  log_chain_ok sample_penv sample_parse_state /\
  clean sample_parse_state (cmd_set_error_log sample_penv [$"otel_error_log"] sample_parse_state) /\
  exists s', cmd_set_exporter_block sample_penv (fun h s => run_block h sample_body s) [$"otel_error_log"] sample_parse_state
    = Some (NGX_CONF_ERROR, s').
Proof.
  assert (Hc : log_chain_ok sample_penv sample_parse_state).
  { exists [(0%nat, (4, false, None))]. split; [|split].
    - cbn. split; [reflexivity|]. eexists. split; [reflexivity|]. auto.
    - cbn. apply NoDup_singleton.
    - intros a [= <-]. reflexivity. }
  destruct (directives_explained sample_penv (fun h s => run_block h sample_body s) [$"otel_error_log"] sample_parse_state)
    as (_ & H2 & r & s' & new & H3 & _ & H4).
  - discriminate.
  - exact Hc.
  - intros h s. exists sample_body. split; [|reflexivity]. repeat constructor; discriminate.
  - split; [exact Hc|]. split.
    + apply (H2 (mk_cmd $"otel_error_log" (Z.lor NGX_CONF_NOARGS NGX_CONF_TAKE1) (cmd_set_error_log sample_penv)));
        [cbn; auto 10|reflexivity].
    + exists s'. rewrite H3. destruct H4 as [(-> & _ & _)|[-> _]]; [|reflexivity].
      vm_compute in H3. discriminate H3.
Defined.

(** ** A directive given twice *)

(** The set-once directives, each with itself, and the two names of the export
    interval with each other. *)
Definition exclusive (env : parse_env) (parse : handler -> parse_state -> option (conf_result * parse_state)) : list (handler * handler) :=
  [(cmd_exporter_set_endpoint, cmd_exporter_set_endpoint);
   (cmd_exporter_set_trusted_cert, cmd_exporter_set_trusted_cert);
   (cmd_exporter_set_ssl_cert, cmd_exporter_set_ssl_cert);
   (cmd_exporter_set_ssl_cert_key, cmd_exporter_set_ssl_cert_key);
   (cmd_exporter_set_ssl_verify, cmd_exporter_set_ssl_verify);
   (cmd_exporter_set_metrics_endpoint, cmd_exporter_set_metrics_endpoint);
   (cmd_exporter_set_logs_endpoint, cmd_exporter_set_logs_endpoint);
   (cmd_exporter_set_traces_endpoint, cmd_exporter_set_traces_endpoint);
   (cmd_exporter_block_set_interval, cmd_exporter_block_set_interval);
   (cmd_exporter_block_set_interval, cmd_set_metric_interval);
   (cmd_set_metric_interval, cmd_exporter_block_set_interval);
   (cmd_set_metric_interval, cmd_set_metric_interval);
   (cmd_set_exporter_block env parse, cmd_set_exporter_block env parse);
   (cmd_set_export_protocol, cmd_set_export_protocol);
   (cmd_set_error_log env, cmd_set_error_log env);
   (cmd_set_otel_trace env, cmd_set_otel_trace env);
   (cmd_set_otel_trace_context, cmd_set_otel_trace_context);
   (cmd_set_otel_span_name env, cmd_set_otel_span_name env);
   (cmd_set_otel_log_export env, cmd_set_otel_log_export env)].

(** A value that cannot be told from an unset one: the empty string, and the
    interval equal to the sentinel. *)
Definition distinguishable (args : list token) : Prop :=
  args !! 1%nat <> Some [] /\ forall v, args !! 1%nat = Some v -> parse_duration_ms v <> Some UNSET_U64.

Definition refused (s : parse_state) (r : option (conf_result * parse_state)) : Prop :=
  exists res s', r = Some (res, s') /\ res <> NGX_CONF_OK /\ same_conf s s'.

Lemma refused_duplicate s : refused s (Some (already_set_error, s)).
Proof. exists already_set_error, s. split_and!; [reflexivity|discriminate|repeat split]. Qed.
Lemma refused_logged s : refused s (Some (NGX_CONF_ERROR, emit NGX_LOG_EMERG s)).
Proof. exists NGX_CONF_ERROR, (emit NGX_LOG_EMERG s). split_and!; [reflexivity|discriminate|repeat split]. Qed.

Lemma blen_nonzero (v : list Z) : v <> [] -> (blen v =? 0) = false.
Proof. intros H. destruct v; [contradiction|]. rewrite blen_cons. pose proof (blen_nonneg v). lia. Qed.

Lemma store_once_twice current current' store args args' s s' :
  args !! 1%nat <> Some [] -> store_once current store args s = Some (NGX_CONF_OK, s') ->
  (forall v, args !! 1%nat = Some v -> s' = store v s -> current' = v) ->
  refused s' (store_once current' store args' s').
Proof.
  intros Hne H Hcur. unfold store_once in H. case_match; [discriminate|].
  destruct (args !! 1%nat) as [v|] eqn:Ev; [|discriminate]. cbn in H. injection H as <-.
  rewrite (Hcur v eq_refl eq_refl). unfold store_once. rewrite blen_nonzero by congruence. apply refused_duplicate.
Qed.

Lemma interval_twice args s s' h : h = cmd_exporter_block_set_interval \/ h = cmd_set_metric_interval ->
  distinguishable args -> h args s = Some (NGX_CONF_OK, s') -> mc_metric_interval_ms (st_main s') <> UNSET_U64.
Proof.
  intros Hh [_ Hd] H. assert (E : cmd_set_metric_interval args s = Some (NGX_CONF_OK, s')) by (destruct Hh as [->| ->]; exact H).
  unfold cmd_set_metric_interval in E. case_match; [discriminate|]. destruct (args !! 1%nat) as [v|]; [|discriminate].
  cbn [mbind option_bind] in E. specialize (Hd v eq_refl). destruct (parse_duration_ms v) as [ms|]; [|discriminate].
  case_match; [|discriminate]. injection E as <-. cbn. congruence.
Qed.

Lemma interval_refused s args : mc_metric_interval_ms (st_main s) <> UNSET_U64 ->
  refused s (cmd_exporter_block_set_interval args s) /\ refused s (cmd_set_metric_interval args s).
Proof.
  intros H. unfold cmd_exporter_block_set_interval, cmd_set_metric_interval. apply Z.eqb_neq in H. rewrite H.
  split; apply refused_duplicate.
Qed.

(** The ways a handler can have accepted. *)
Ltac invert_ok H :=
  unfold mbind, option_bind in H; cbn beta in H;
  repeat (match type of H with context [match ?x with _ => _ end] => destruct x eqn:?; try discriminate H end);
  simplify_eq.

(** A setting is decided once.  When a set-once directive, or either
    name of the export interval, was accepted with a value that differs from
    the unset marker, giving it again is refused and leaves the first value in place. *)
Theorem directives_set_once env parse first second args args' s s' :
  In (first, second) (exclusive env parse) -> distinguishable args ->
  first args s = Some (NGX_CONF_OK, s') -> refused s' (second args' s').
Proof.
  intros Hin Hd H. unfold exclusive in Hin. cbn [In] in Hin.
  repeat (destruct Hin as [Hin|Hin]; [injection Hin as <- <-|try contradiction]).
  1-4: eapply store_once_twice; [apply Hd|exact H|]; intros v _ ->; reflexivity.
  2-4: eapply store_once_twice; [apply Hd|exact H|]; intros v _ ->; unfold warn_if_has_authority; case_match; reflexivity.
  2-5: apply interval_refused; eapply interval_twice; [|exact Hd|exact H]; auto.
  - unfold cmd_exporter_set_ssl_verify in *. invert_ok H; apply refused_duplicate.
  - unfold cmd_set_exporter_block in *. invert_ok H.
    unfold is_set. match goal with E : (blen _ =? 0) = false |- _ => rewrite E end. apply refused_logged.
  - unfold cmd_set_export_protocol in *. invert_ok H; apply refused_duplicate.
  - unfold cmd_set_error_log in *. invert_ok H. apply refused_logged.
  - unfold cmd_set_otel_trace in *. invert_ok H. cbn.
    match goal with E : (_ =? 0) = false |- _ => rewrite E end. apply refused_duplicate.
  - unfold cmd_set_otel_trace_context in *. invert_ok H.
    match goal with m : trace_context_mode |- _ => destruct m end; apply refused_duplicate.
  - unfold cmd_set_otel_span_name in *. invert_ok H. cbn.
    match goal with E : (_ =? 0) = false |- _ => rewrite E end. apply refused_duplicate.
  - unfold cmd_set_otel_log_export in *. invert_ok H;
    match goal with E : log_export_param _ _ _ = _ |- _ => unfold log_export_param in E; invert_ok E; apply refused_duplicate end.
Qed.

Lemma directives_set_once_witness :
  refused (on_main (set_metric_interval_ms 10000) sample_parse_state)
    (cmd_set_metric_interval [$"otel_metric_interval"; $"5s"] (on_main (set_metric_interval_ms 10000) sample_parse_state)).
Proof.
  apply (directives_set_once sample_penv (fun h s => run_block h [] s) cmd_exporter_block_set_interval cmd_set_metric_interval
    [$"interval"; $"10s"] [$"otel_metric_interval"; $"5s"] sample_parse_state).
  - cbn. auto 12.
  - split; [discriminate|]. intros v [= <-]. vm_compute. discriminate.
  - vm_compute. reflexivity.
Defined.

(** The sentinel itself is a legal duration: it is accepted, then
    treated as unset, and a second value is accepted after it. *)
Example interval_sentinel :
  cmd_set_metric_interval [[]; $"18446744073709551615ms"] sample_parse_state
    = Some (NGX_CONF_OK, on_main (set_metric_interval_ms UNSET_U64) sample_parse_state) /\
  interval_ms (set_metric_interval_ms UNSET_U64 main_default) = 5000 /\
  (exists s, cmd_set_metric_interval [[]; $"7s"] (on_main (set_metric_interval_ms UNSET_U64) sample_parse_state)
    = Some (NGX_CONF_OK, s)).
Proof. split; [vm_compute; reflexivity|]. split; [vm_compute; reflexivity|]. eexists. vm_compute. reflexivity. Qed.

(** ** A location that selects log records has a zone to write them to *)

Definition selects (l : location_conf) : bool := match log_export_mode_of l with LogAll | LogIf => true | _ => false end.
Definition flag (s : parse_state) : bool := mc_any_log_export (st_main s).

Lemma exporter_command_flag env cmd args s r s' : In cmd (NGX_HTTP_OTEL_EXPORTER_COMMANDS env) ->
  cmd_set cmd args s = Some (r, s') -> flag s' = flag s /\ st_loc s' = st_loc s.
Proof.
  intros Hin. unfold NGX_HTTP_OTEL_EXPORTER_COMMANDS in Hin. cbn [In] in Hin.
  repeat (destruct Hin as [<-|Hin]; [|try contradiction]); cbn [cmd_set];
    unfold cmd_exporter_set_endpoint, cmd_exporter_set_trusted_cert, cmd_exporter_set_ssl_cert, cmd_exporter_set_ssl_cert_key,
      cmd_exporter_set_ssl_verify, cmd_exporter_set_metrics_endpoint, cmd_exporter_set_logs_endpoint,
      cmd_exporter_set_traces_endpoint, cmd_exporter_block_add_header, cmd_exporter_block_set_interval,
      cmd_exporter_block_ignore_batch_size, cmd_exporter_block_ignore_batch_count, store_once, validate_header_kv,
      warn_if_has_authority, flag, mbind, option_bind;
    intros H; repeat case_match; simplify_eq; auto.
Qed.

Lemma dispatch_flag env name args s r s' : forall cmds, incl cmds (NGX_HTTP_OTEL_EXPORTER_COMMANDS env) ->
  dispatch cmds name args s = Some (r, s') -> flag s' = flag s /\ st_loc s' = st_loc s.
Proof.
  induction cmds as [|cmd cmds IH]; intros Hi; cbn [dispatch]; [intros [= <- <-]; auto|].
  destruct (bytes_eqb name (cmd_name cmd)); cbn [negb]; [|apply IH; intros c Hc; apply Hi; right; exact Hc].
  destruct (cmd_nargs (cmd_type cmd)) as [lo hi]. case_match; [intros [= <- <-]; auto|].
  apply (exporter_command_flag env). apply Hi. left. reflexivity.
Qed.

Lemma run_block_flag env body : forall s r s', run_block (cmd_exporter_block_handler env) body s = Some (r, s') ->
  flag s' = flag s /\ st_loc s' = st_loc s.
Proof.
  induction body as [|args body IH]; intros s r s' H; cbn [run_block] in H; [injection H as <- <-; auto|].
  destruct (cmd_exporter_block_handler env args s) as [[r1 s1]|] eqn:E; [|discriminate]. cbn [mbind option_bind] in H.
  assert (H1 : flag s1 = flag s /\ st_loc s1 = st_loc s).
  { unfold cmd_exporter_block_handler in E. destruct (args !! 0%nat); [|discriminate].
    apply (dispatch_flag env) in E; [exact E|apply incl_refl]. }
  destruct H1 as [<- <-]. destruct r1; [apply IH in H; exact H|injection H as <- <-; auto|injection H as <- <-; auto].
Qed.

Lemma command_flag env parse cmd args s s' :
  (forall h s, exists body, parse h s = run_block h body s) -> In cmd (own_commands env parse) ->
  cmd_set cmd args s = Some (NGX_CONF_OK, s') ->
  (flag s = true -> flag s' = true) /\ (selects (st_loc s') = true -> selects (st_loc s) = true \/ flag s' = true).
Proof.
  intros Hp Hin H. unfold own_commands in Hin. cbn [In] in Hin.
  assert (Hsame : flag s' = flag s -> selects (st_loc s') = selects (st_loc s) ->
    (flag s = true -> flag s' = true) /\ (selects (st_loc s') = true -> selects (st_loc s) = true \/ flag s' = true))
    by (intros -> ->; auto).
  repeat (destruct Hin as [<-|Hin]; [|try contradiction]); cbn [cmd_set] in H.
  - unfold cmd_set_exporter_block in H. case_match; [discriminate|].
    destruct (Hp (cmd_exporter_block_handler env) s) as [body Eb]. rewrite Eb in H.
    destruct (run_block _ body s) as [[rc s1]|] eqn:E; [|discriminate]. apply run_block_flag in E.
    cbn [mbind option_bind] in H. invert_ok H. destruct E as [E1 E2]. apply Hsame; [exact E1|rewrite E2; reflexivity].
  - unfold cmd_add_resource_attr in H. invert_ok H. apply Hsame; reflexivity.
  - unfold cmd_add_exporter_header, validate_header_kv in H. unfold mbind, option_bind in H.
    destruct (args !! 1%nat) as [k|]; [|discriminate]. destruct (args !! 2%nat) as [v|]; [|discriminate].
    destruct (check_header_kv env k v); [discriminate|]. injection H as <-. apply Hsame; reflexivity.
  - unfold cmd_set_metric_interval in H. invert_ok H. apply Hsame; reflexivity.
  - unfold cmd_set_export_protocol in H. invert_ok H; apply Hsame; reflexivity.
  - unfold cmd_set_error_log in H. invert_ok H. apply Hsame; reflexivity.
  - unfold cmd_set_error_log_coalesce in H. invert_ok H; apply Hsame; reflexivity.
  - unfold cmd_set_otel_trace in H. invert_ok H. apply Hsame; reflexivity.
  - unfold cmd_set_otel_trace_context in H. invert_ok H; apply Hsame; reflexivity.
  - unfold cmd_set_otel_span_name in H. invert_ok H. apply Hsame; reflexivity.
  - unfold cmd_add_otel_span_attr in H. invert_ok H. apply Hsame; reflexivity.
  - unfold cmd_set_otel_log_export in H. case_match; [discriminate|].
    destruct (log_export_param env args (st_loc s)) as [[]|[mode l]]; [discriminate|]. injection H as <-.
    destruct mode; split; auto; discriminate.
Qed.

(** Reading a configuration: at some level the next directive is accepted, or
    one of nginx's own slot setters runs. *)
Definition document : Type := parse_state * (nat -> location_conf).
Definition at_level (i : nat) (d : document) : parse_state := on_loc (fun _ => snd d i) (fst d).
Definition store_level (i : nat) (s : parse_state) (d : document) : document :=
  (s, fun j => if Nat.eqb j i then st_loc s else snd d j).

Inductive reads : document -> document -> Prop :=
  | read_directive env parse cmd args i d s' :
      (forall h s, exists body, parse h s = run_block h body s) -> In cmd (own_commands env parse) ->
      cmd_set cmd args (at_level i d) = Some (NGX_CONF_OK, s') -> reads d (store_level i s' d)
  | read_slot f d : (forall c, mc_any_log_export (f c) = mc_any_log_export c) -> reads d (on_main f (fst d), snd d).

Definition fresh_document (h : heap) : document := (mk_parse main_default loc_default h None [], fun _ => loc_default).

Definition selection_known (d : document) : Prop :=
  forall i, selects (snd d i) = true -> flag (fst d) = true.

Lemma reads_known d d' : selection_known d -> reads d d' -> selection_known d'.
Proof.
  intros Hd Hr. revert Hd. destruct Hr as [env parse cmd args i s s' Hp Hin H|f s Hf]; intros Hd j Hj.
  - apply (command_flag env parse cmd args _ _ Hp Hin) in H as [H1 H2]. cbn in Hj, H1, H2 |- *.
    destruct (Nat.eqb j i).
    + destruct (H2 Hj) as [H0|]; [|assumption]. apply H1, (Hd i), H0.
    + apply H1, (Hd j), Hj.
  - cbn in Hj |- *. unfold flag. cbn. rewrite Hf. apply (Hd j), Hj.
Qed.

Lemma selects_effective levels : selects (effective levels) = true -> exists l, In l levels /\ selects l = true.
Proof.
  unfold effective. induction levels as [|l levels IH] using rev_ind; [discriminate|].
  rewrite foldl_app. cbn [foldl]. set (o := foldl _ _ _) in *. intros H. destruct (log_export_is_set l) eqn:E.
  - exists l. rewrite in_app_iff. split; [cbn; auto|]. revert H. unfold selects, log_export_mode_of. cbn. rewrite E. auto.
  - destruct IH as (x & Hx & Hs); [|exists x; rewrite in_app_iff; auto].
    revert H. unfold selects, log_export_mode_of. cbn. rewrite E. auto.
Qed.

(** A location whose settings select log records always has
    somewhere to write them: whatever directives are read, in whatever order and at whatever
    level, if the settings in force at a location (its own or inherited) select
    records for export, then the finalisation of that configuration either fails or has registered the logs zone. *)
Theorem selected_logs_have_zone data_offset env h d path s :
  rtc reads (fresh_document h) d ->
  selects (effective (map (snd d) path)) = true -> is_configured (st_main (fst d)) = true ->
  postconfiguration data_offset env (st_main (fst d)) = Ok s -> is_Some (mc_logs_shm_zone (ps_conf s)).
Proof.
  intros Hr Hs Hc Hok.
  assert (Hk : selection_known d).
  { assert (H0 : selection_known (fresh_document h)) by (intros i Hi; discriminate Hi).
    clear Hs Hc Hok. induction Hr as [|d1 d2 d3 H12 _ IH]; [exact H0|]. apply IH. apply (reads_known d1); assumption. }
  destruct (selects_effective _ Hs) as (l & Hl & Hsel). apply in_map_iff in Hl as (i & <- & _).
  specialize (Hk i Hsel). pose proof (post_spec data_offset env _ Hc) as Hp. rewrite Hok in Hp.
  destruct Hp as (Ha & _). apply acceptable_spec in Ha. destruct Ha as (_ & _ & HF).
  destruct (final_zones data_offset env _ s Hc Hok) as (_ & Hz & _). rewrite Hz.
  assert (Hw : wants_logs (st_main (fst d)) = true) by (unfold wants_logs, any_log_export_enabled; unfold flag in Hk; rewrite Hk; reflexivity).
  unfold needed_zones in HF. rewrite Hw in HF |- *. apply Forall_app in HF as [_ HF]. apply Forall_app in HF as [_ HF].
  apply Forall_app in HF as [HF _]. inversion HF. assumption.
Qed.

Lemma selected_logs_have_zone_witness :
  exists d s, rtc reads (fresh_document ∅) d /\
    postconfiguration 200 sample_env (st_main (fst d)) = Ok s /\ is_Some (mc_logs_shm_zone (ps_conf s)).
Proof.
  set (d1 := store_level 0 (on_loc (fun _ => loc_default)
    (on_exporter (set_endpoint $"http://127.0.0.1:4318") (fst (fresh_document ∅)))) (fresh_document ∅)).
  set (d2 := store_level 3 (on_main (set_any_log_export true) (on_loc (set_log_export_mode LogAll) (at_level 3 d1))) d1).
  destruct (postconfiguration 200 sample_env (st_main (fst d2))) as [s|s] eqn:E; [|vm_compute in E; discriminate E].
  assert (Hr : rtc reads (fresh_document ∅) d2).
  { apply rtc_l with d1; [|apply rtc_once].
    - eapply (read_directive sample_penv (fun h s => run_block h (take 1 sample_body) s) _ [$"otel_exporter"] 0%nat).
      + intros h s'. eexists. reflexivity.
      + left. reflexivity.
      + vm_compute. reflexivity.
    - eapply (read_directive sample_penv (fun h s => run_block h [] s)
        (mk_cmd $"otel_log_export" (Z.lor NGX_CONF_NOARGS NGX_CONF_TAKE1) (cmd_set_otel_log_export sample_penv)) [$"otel_log_export"] 3%nat).
      + intros h s'. eexists. reflexivity.
      + cbn. auto 14.
      + vm_compute. reflexivity. }
  exists d2, s. split; [exact Hr|]. split; [exact E|].
  apply (selected_logs_have_zone 200 sample_env ∅ d2 [0%nat; 3%nat] s); [exact Hr|vm_compute; reflexivity|vm_compute; reflexivity|exact E].
Defined.
