(* ===== verification/SpanStart.v ===== *)
(** * Span start (src/src/traces/ctx.rs, src/src/metric_source/span_start.rs)

    The rewrite-phase handler with the identifier generator, the request's
    span context and its anchor on the request pool, the outbound header, and
    the four variables of src/src/lib.rs.  A request holds the module-context slot, the
    pool's cleanup list and the contexts allocated from the pool, by address.
    The random generator, the clocks, the allocator and nginx's evaluation of a
    complex value are arguments; evaluation sees the request, so it can read the variables. *)
From stdpp Require Import gmap.
From S2P Require Import Prelude DataModel StdText Traceparent Config Location.

(** [src/src/traces/ctx.rs: SpanCtx] *)
Record span_ctx := mk_ctx {
  cx_trace_id : list Z;
  cx_span_id : list Z;
  cx_parent_span_id : list Z;
  cx_flags : Z;
  cx_start_time_unix_nano : Z;
  cx_start_mono : Z;
  cx_sampled : bool
}.

(** The zeroed allocation. *)
Definition zero_ctx : span_ctx := mk_ctx (replicate 16 0) (replicate 8 0) (replicate 8 0) 0 0 0 false.

(** [ngx_table_elt_t] of a request header. *)
Record header := mk_header { hd_hash : Z; hd_key : list Z; hd_value : list Z }.

(** What the handlers read and write of [ngx_http_request_t]; a cleanup node
    is whether its handler is [cleanup_span_ctx] and its payload. *)
Record request := mk_request {
  rq_internal : bool;
  rq_filter_finalize : bool;
  rq_headers : list header;
  rq_slot : option nat;
  rq_cleanup : list (bool * nat);
  rq_ctxs : gmap nat span_ctx
}.

Definition set_slot (p : option nat) (r : request) : request :=
  mk_request (rq_internal r) (rq_filter_finalize r) (rq_headers r) p (rq_cleanup r) (rq_ctxs r).
Definition set_headers (h : list header) (r : request) : request :=
  mk_request (rq_internal r) (rq_filter_finalize r) h (rq_slot r) (rq_cleanup r) (rq_ctxs r).
Definition write_ctx (p : nat) (c : span_ctx) (r : request) : request :=
  mk_request (rq_internal r) (rq_filter_finalize r) (rq_headers r) (rq_slot r) (rq_cleanup r) (<[p := c]> (rq_ctxs r)).
Definition add_cleanup (p : nat) (r : request) : request :=
  mk_request (rq_internal r) (rq_filter_finalize r) (rq_headers r) (rq_slot r) ((true, p) :: rq_cleanup r) (rq_ctxs r).

(** ** The context's anchor *)

(** [addr] is what the pool returned, [None] on exhaustion.
    [src/src/traces/ctx.rs: alloc_span_ctx] *)
Definition alloc_span_ctx (addr : option nat) (r : request) : option nat * request :=
  match addr with
  | None => (None, r)
  | Some p => (Some p, write_ctx p zero_ctx (add_cleanup p r))
  end.

(** [src/src/traces/ctx.rs: alloc_span_ctx_plain] *)
Definition alloc_span_ctx_plain (addr : option nat) (r : request) : option nat * request :=
  match addr with
  | None => (None, r)
  | Some p => (Some p, write_ctx p zero_ctx r)
  end.

(** The walk over the cleanup list.
    [src/src/traces/ctx.rs: 205-224 recover_span_ctx] *)
Fixpoint find_anchor (l : list (bool * nat)) : option nat :=
  match l with
  | [] => None
  | (ours, p) :: l' => if ours then Some p else find_anchor l'
  end.

(** [src/src/traces/ctx.rs: recover_span_ctx] *)
Definition recover_span_ctx (r : request) (slot : option nat) : option nat * request :=
  match slot with
  | Some p => (Some p, r)
  | None =>
      if negb (rq_internal r || rq_filter_finalize r) then (None, r)
      else match find_anchor (rq_cleanup r) with
           | Some p => (Some p, set_slot (Some p) r)
           | None => (None, r)
           end
  end.

(** [src/src/metric_source/instrumented.rs: LogPhaseHandler::read_span_ctx] *)
Definition read_span_ctx (r : request) : option span_ctx * request :=
  match rq_slot r with
  | Some p => (rq_ctxs r !! p, r)
  | None => let '(p, r) := recover_span_ctx r None in (p ≫= fun p => rq_ctxs r !! p, r)
  end.

(** ** Variables *)

(** [src/src/lib.rs: hex_encode_into] *)
Definition hex_encode_into (src : list Z) : list Z := hex_encode src.

(** [None] is [not_found]; [buf] is whether the pool could allocate the text.
    [src/src/lib.rs: otel_var_get_trace_id] *)
Definition otel_var_get_trace_id (buf : bool) (r : request) : option (list Z) * request :=
  let '(ctx, r) := read_span_ctx r in
  (match ctx with Some c => if buf then Some (hex_encode_into (cx_trace_id c)) else None | None => None end, r).
(** [src/src/lib.rs: otel_var_get_span_id] *)
Definition otel_var_get_span_id (buf : bool) (r : request) : option (list Z) * request :=
  let '(ctx, r) := read_span_ctx r in
  (match ctx with Some c => if buf then Some (hex_encode_into (cx_span_id c)) else None | None => None end, r).
(** [src/src/lib.rs: otel_var_get_parent_id] *)
Definition otel_var_get_parent_id (buf : bool) (r : request) : option (list Z) * request :=
  let '(ctx, r) := read_span_ctx r in
  (match ctx with Some c => if buf then Some (hex_encode_into (cx_parent_span_id c)) else None | None => None end, r).
(** [src/src/lib.rs: otel_var_get_parent_sampled] *)
Definition otel_var_get_parent_sampled (r : request) : option (list Z) * request :=
  let '(ctx, r) := read_span_ctx r in
  (match ctx with Some c => Some (if negb (Z.land (cx_flags c) 1 =? 0) then $"1" else $"0") | None => None end, r).

(** ** Identifiers *)

Section rng.
(** [ChaCha20Rng] and its [next_u64]. *)
Context {R : Type} (next_u64 : R -> Z * R).

(** The thread-locals of the worker, the result [getrandom] would give, and
    the levels logged. *)
Record worker := mk_worker {
  w_drbg : option R;
  w_tracing_disabled : bool;
  w_lazy_logged : bool;
  w_oom_warned : bool;
  w_entropy : option R;
  w_logs : list Z
}.

Definition set_drbg (g : option R) (w : worker) : worker :=
  mk_worker g (w_tracing_disabled w) (w_lazy_logged w) (w_oom_warned w) (w_entropy w) (w_logs w).
Definition set_disabled (w : worker) : worker :=
  mk_worker (w_drbg w) true (w_lazy_logged w) (w_oom_warned w) (w_entropy w) (w_logs w).

(** [src/src/traces/ctx.rs: tracing_disabled] *)
Definition tracing_disabled (w : worker) : bool := w_tracing_disabled w.

(** [src/src/traces/ctx.rs: try_seed_drbg] *)
Definition try_seed_drbg (w : worker) : option R := w_entropy w.

(** [false] is the [Err] of the first failure.
    [src/src/traces/ctx.rs: eager_seed_drbg] *)
Definition eager_seed_drbg (w : worker) : bool * worker :=
  if tracing_disabled w then (true, w)
  else match w_drbg w with
  | Some _ => (true, w)
  | None =>
      match try_seed_drbg w with
      | Some rng => (true, set_drbg (Some rng) w)
      | None => (false, set_disabled w)
      end
  end.

(** The message goes to the cycle's log at EMERG.
    [src/src/traces/ctx.rs: log_lazy_seed_failure_once] *)
Definition log_lazy_seed_failure_once (w : worker) : worker :=
  if w_lazy_logged w then w
  else mk_worker (w_drbg w) (w_tracing_disabled w) true (w_oom_warned w) (w_entropy w) (w_logs w ++ [1]).

(** [src/src/traces/ctx.rs: drbg64] *)
Definition drbg64 (w : worker) : Z * worker :=
  match w_drbg w with
  | Some rng => let '(val, rng') := next_u64 rng in (val, set_drbg (Some rng') w)
  | None =>
      match try_seed_drbg w with
      | Some rng => let '(val, rng') := next_u64 rng in (val, set_drbg (Some rng') w)
      | None => (0, log_lazy_seed_failure_once (set_disabled w))
      end
  end.

(** [src/src/traces/ctx.rs: MAX_ID_RETRIES] *)
Definition MAX_ID_RETRIES : nat := 3.

(** [src/src/traces/ctx.rs: 448-462 gen_trace_id] *)
Fixpoint trace_id_attempts (n : nat) (w : worker) : option (list Z) * worker :=
  match n with
  | O => (None, set_disabled w)
  | S n' =>
      let '(a, w) := drbg64 w in
      let '(b, w) := drbg64 w in
      if negb (a =? 0) || negb (b =? 0) then (Some (le_bytes 8 a ++ le_bytes 8 b), w)
      else trace_id_attempts n' w
  end.

(** [src/src/traces/ctx.rs: gen_trace_id] *)
Definition gen_trace_id (w : worker) : option (list Z) * worker := trace_id_attempts MAX_ID_RETRIES w.

(** [src/src/traces/ctx.rs: 472-479 gen_span_id] *)
Fixpoint span_id_attempts (n : nat) (w : worker) : option (list Z) * worker :=
  match n with
  | O => (None, set_disabled w)
  | S n' =>
      let '(v, w) := drbg64 w in
      if negb (v =? 0) then (Some (le_bytes 8 v), w) else span_id_attempts n' w
  end.

(** [src/src/traces/ctx.rs: gen_span_id] *)
Definition gen_span_id (w : worker) : option (list Z) * worker := span_id_attempts MAX_ID_RETRIES w.

(** [src/src/metric_source/span_start.rs: warn_span_ctx_oom_once] *)
Definition warn_span_ctx_oom_once (w : worker) : worker :=
  if w_oom_warned w then w
  else mk_worker (w_drbg w) (w_tracing_disabled w) (w_lazy_logged w) true (w_entropy w) (w_logs w ++ [5]).

(** ** Headers *)

Definition TRACEPARENT : list Z := $"traceparent".

(** The flattened list of the header parts, with the position of the match.
    [src/src/metric_source/span_start.rs: find_header_in] *)
Fixpoint find_header_in (l : list header) (i : nat) (name : list Z) : option nat :=
  match l with
  | [] => None
  | e :: l' =>
      if negb (hd_hash e =? 0) && (blen (hd_key e) =? blen name) && eq_ignore_case (hd_key e) name
      then Some i else find_header_in l' (S i) name
  end.

(** Whether the allocations of the injection succeed. *)
Record inject_allocs := mk_allocs { ia_value : bool; ia_key : bool; ia_push : bool }.

(** [src/src/metric_source/span_start.rs: inject_traceparent_header] *)
Definition inject_traceparent_header (al : inject_allocs) (trace_id span_id : list Z) (trace_flags : Z) (r : request) : request :=
  let value := build_traceparent_value trace_id span_id trace_flags in
  match find_header_in (rq_headers r) 0 TRACEPARENT with
  | Some i =>
      match rq_headers r !! i with
      | Some e =>
          if negb (blen (hd_value e) =? 55) && negb (ia_value al) then r
          else set_headers (<[i := mk_header (if hd_hash e =? 0 then 1 else hd_hash e) (hd_key e) value]> (rq_headers r)) r
      | None => r
      end
  | None =>
      if negb (ia_key al) || negb (ia_value al) then r
      else if negb (ia_push al) then r
      else set_headers (rq_headers r ++ [mk_header 1 TRACEPARENT value]) r
  end.

(** [headers_in_iterator] yields the key and value of the headers. *)
Context (headers_in_iterator : list header -> list (list Z * list Z)).

(** The scan stops at the first header of that name.
    [src/src/metric_source/span_start.rs: 204-216 SpanStartHandler::handler] *)
Fixpoint inbound (l : list (list Z * list Z)) : option (list Z * list Z * Z) :=
  match l with
  | [] => None
  | (k, v) :: l' =>
      if (blen k =? 11) && eq_ignore_case k TRACEPARENT then parse_traceparent_full v else inbound l'
  end.

(** ** The handler *)

(** What the handler reads besides the request. *)
Record span_env := mk_senv {
  se_main : option main_config;
  se_loc : option location_conf;
  se_eval : Z -> request -> option (list Z);    (* ngx_http_complex_value; None: not NGX_OK *)
  se_pre_alloc : option nat;
  se_alloc : option nat;
  se_now_unix_nano : Z;
  se_now_mono : Z;
  se_inject : inject_allocs
}.

Definition is_extracting (m : trace_context_mode) : bool := match m with CtxExtract | CtxPropagate => true | _ => false end.
Definition is_injecting (m : trace_context_mode) : bool := match m with CtxInject | CtxPropagate => true | _ => false end.

(** Non-empty, not "0", not "off".
    [src/src/metric_source/span_start.rs: 270-279 SpanStartHandler::handler] *)
Definition gate_open (v : list Z) : bool := negb ((blen v =? 0) || bytes_eqb v $"0" || bytes_eqb v $"off").

(** The context installed before the gate so that the gate's expression can
    read the inbound flags; [None]: the pool is exhausted.
    [src/src/metric_source/span_start.rs: 231-254 SpanStartHandler::handler] *)
Definition pre_gate (e : span_env) (parent : option (list Z * list Z * Z)) (w : worker) (r : request)
    : option request * worker :=
  match parent with
  | None => (Some r, w)
  | Some (_, _, inbound_flags) =>
      let '(pre_ctx, r) := alloc_span_ctx_plain (se_pre_alloc e) r in
      match pre_ctx with
      | None => (None, warn_span_ctx_oom_once w)
      | Some p =>
          (Some (set_slot (Some p)
             (write_ctx p (mk_ctx (replicate 16 0) (replicate 8 0) (replicate 8 0) inbound_flags 0 0 false) r)), w)
      end
  end.

(** Once the gate has passed.
    [src/src/metric_source/span_start.rs: 311-413 SpanStartHandler::handler] *)
Definition start_span (e : span_env) (mode : trace_context_mode) (parent : option (list Z * list Z * Z))
    (w : worker) (r : request) : worker * request :=
  if tracing_disabled w then (w, set_slot None r) else
  let sampled := match parent with Some (_, _, fl) => negb (Z.land fl 1 =? 0) | None => true end in
  let '(trace_id, w) := match parent with Some (tid, _, _) => (Some tid, w) | None => gen_trace_id w end in
  match trace_id with
  | None => (w, set_slot None r)
  | Some trace_id =>
      let '(span_id, w) := gen_span_id w in
      match span_id with
      | None => (w, set_slot None r)
      | Some span_id =>
          let flags := match parent with Some (_, _, fl) => fl | None => 1 end in
          let parent_span_id := match parent with Some (_, psid, _) => psid | None => replicate 8 0 end in
          let '(ctx_ptr, r) := alloc_span_ctx (se_alloc e) r in
          match ctx_ptr with
          | None => (warn_span_ctx_oom_once w, set_slot None r)
          | Some p =>
              let r := write_ctx p (mk_ctx trace_id span_id parent_span_id flags (se_now_unix_nano e) (se_now_mono e) sampled) r in
              let r := set_slot (Some p) r in
              (w, if is_injecting mode then inject_traceparent_header (se_inject e) trace_id span_id (u8 flags) r else r)
          end
      end
  end.

(** [NGX_DECLINED] on every path.
    [src/src/metric_source/span_start.rs: SpanStartHandler::handler] *)
Definition span_start_handler (e : span_env) (w : worker) (r : request) : worker * request :=
  if rq_internal r then (w, r) else
  match se_main e with
  | None => (w, r)
  | Some amcf =>
      if negb (is_configured amcf) then (w, r) else
      match se_loc e with
      | None => (w, r)
      | Some lc =>
          let otel_trace_cv := lc_otel_trace lc in
          let mode := trace_context lc in
          if otel_trace_cv =? 0 then (w, r) else
          let parent := if is_extracting mode then inbound (headers_in_iterator (rq_headers r)) else None in
          let '(pre, w) := pre_gate e parent w r in
          match pre with
          | None => (w, r)
          | Some r =>
              match se_eval e otel_trace_cv r with
              | None => (w, set_slot None r)
              | Some v => if gate_open v then start_span e mode parent w r else (w, set_slot None r)
              end
          end
      end
  end.

End rng.

(** ** One span per request *)

(** What can happen to a request after its first rewrite pass: internal
    redirects and filter finalisations, both of which clear the module contexts,
    reads of the module's variables, and further rewrite passes of the redirected request. *)
Inductive continues {R} (next_u64 : R -> Z * R) (iter : list header -> list (list Z * list Z)) : request -> request -> Prop :=
  | redirected r : continues next_u64 iter r (mk_request true (rq_filter_finalize r) (rq_headers r) None (rq_cleanup r) (rq_ctxs r))
  | finalized r : continues next_u64 iter r (mk_request (rq_internal r) true (rq_headers r) None (rq_cleanup r) (rq_ctxs r))
  | variable_read r : continues next_u64 iter r (snd (read_span_ctx r))
  | rewritten e w r : rq_internal r = true -> continues next_u64 iter r (snd (span_start_handler next_u64 iter e w r)).

(** The request carries exactly the context [c]; it carries none. *)
Definition carries (c : span_ctx) (r : request) : Prop :=
  exists p, rq_ctxs r !! p = Some c /\ find_anchor (rq_cleanup r) = Some p /\
    (rq_slot r = Some p \/ rq_slot r = None /\ rq_internal r || rq_filter_finalize r = true).
Definition carries_none (r : request) : Prop := rq_slot r = None /\ find_anchor (rq_cleanup r) = None.

Lemma read_carried c r : carries c r -> fst (read_span_ctx r) = Some c /\ carries c (snd (read_span_ctx r)).
Proof.
  intros (p & Hc & Ha & Hs). unfold read_span_ctx. destruct Hs as [Hs|[Hs Hi]]; rewrite Hs.
  - split; [exact Hc|]. exists p. auto.
  - unfold recover_span_ctx. rewrite Hi, Ha. cbn. split; [exact Hc|]. exists p. cbn. auto.
Qed.

Lemma read_none r : carries_none r -> read_span_ctx r = (None, r).
Proof. intros [Hs Ha]. unfold read_span_ctx, recover_span_ctx. rewrite Hs, Ha. destruct (negb _); reflexivity. Qed.

Section life.
Context {R : Type} (next_u64 : R -> Z * R) (iter : list header -> list (list Z * list Z)).

Lemma continues_carries c r r' : continues next_u64 iter r r' -> carries c r -> carries c r'.
Proof.
  intros [r1|r1|r1|e w r1 Hi] Hc.
  - destruct Hc as (p & H1 & H2 & _). exists p. cbn. auto.
  - destruct Hc as (p & H1 & H2 & _). exists p. cbn. rewrite orb_true_r. auto.
  - apply read_carried, Hc.
  - unfold span_start_handler. rewrite Hi. exact Hc.
Qed.

Lemma continues_none r r' : continues next_u64 iter r r' -> carries_none r -> carries_none r'.
Proof.
  intros [r1|r1|r1|e w r1 Hi] Hc; [split; [reflexivity|apply Hc]..| |].
  - rewrite read_none by exact Hc. exact Hc.
  - unfold span_start_handler. rewrite Hi. exact Hc.
Qed.

Lemma inject_frame al t s f r : let r' := inject_traceparent_header al t s f r in
  rq_internal r' = rq_internal r /\ rq_slot r' = rq_slot r /\ rq_cleanup r' = rq_cleanup r /\ rq_ctxs r' = rq_ctxs r.
Proof. unfold inject_traceparent_header. repeat (case_match; cbn; auto). Qed.

(** The generator draws 64-bit values. *)
Context (Hnext : forall g, in_u 64 (fst (next_u64 g))).

Lemma drbg64_range w : in_u 64 (fst (drbg64 next_u64 w)).
Proof.
  unfold drbg64. destruct (w_drbg w) as [g|]; [|destruct (try_seed_drbg w) as [g|]].
  - pose proof (Hnext g) as H. destruct (next_u64 g). exact H.
  - pose proof (Hnext g) as H. destruct (next_u64 g). exact H.
  - unfold in_u. cbn. lia.
Qed.

Lemma le_bytes_ok n z : bytes_ok (le_bytes n z).
Proof. unfold bytes_ok, le_bytes. apply Forall_reverse. apply be_bytes_ok. Qed.

Lemma le_bytes_zero v : in_u 64 v -> le_bytes 8 v = replicate 8 0 -> v = 0.
Proof.
  intros Hv E. rewrite <- (le_val_le_bytes_small 8 v); [rewrite E; reflexivity|]. unfold in_u in Hv. cbn in *. lia.
Qed.

Lemma span_id_valid n w sid w' : span_id_attempts next_u64 n w = (Some sid, w') -> nonzero_id 8 sid.
Proof.
  revert w. induction n as [|n IH]; intros w; cbn [span_id_attempts]; [discriminate|].
  pose proof (drbg64_range w) as Hr. destruct (drbg64 next_u64 w) as [v w1]. cbn [fst] in Hr.
  case_if; [|apply IH]. intros [= <- <-]. split_and!; [apply length_le_bytes|apply le_bytes_ok|].
  intros Ez. apply le_bytes_zero in Ez; [lia|exact Hr].
Qed.

Lemma trace_id_valid n w tid w' : trace_id_attempts next_u64 n w = (Some tid, w') -> nonzero_id 16 tid.
Proof.
  revert w. induction n as [|n IH]; intros w; cbn [trace_id_attempts]; [discriminate|].
  pose proof (drbg64_range w) as Ha. destruct (drbg64 next_u64 w) as [a w1]. cbn [fst] in Ha.
  pose proof (drbg64_range w1) as Hb. destruct (drbg64 next_u64 w1) as [b w2]. cbn [fst] in Hb.
  destruct (negb (a =? 0) || negb (b =? 0)) eqn:E; [|apply IH].
  intros H. apply pair_equal_spec in H as [H <-]. apply (inj Some) in H. subst tid. split_and!.
  - rewrite length_app, !length_le_bytes. reflexivity.
  - apply bytes_ok_app. split; apply le_bytes_ok.
  - change (replicate 16 0) with (replicate 8 0 ++ replicate 8 0). intros H.
    apply app_inj_1 in H as [H1 H2]; [|rewrite length_le_bytes; reflexivity].
    apply le_bytes_zero in H1; [|exact Ha]. apply le_bytes_zero in H2; [|exact Hb]. rewrite H1, H2 in E. discriminate E.
Qed.

(** The context of a started span: a child of the inbound one, or a root. *)
Definition started (e : span_env) (parent : option (list Z * list Z * Z)) (c : span_ctx) : Prop :=
  exists tid sid, nonzero_id 8 sid /\ (parent = None -> nonzero_id 16 tid) /\ c = match parent with
    | Some (ptid, psid, fl) => mk_ctx ptid sid psid fl (se_now_unix_nano e) (se_now_mono e) (negb (Z.land fl 1 =? 0))
    | None => mk_ctx tid sid (replicate 8 0) 1 (se_now_unix_nano e) (se_now_mono e) true
    end.

(** Either nothing is left on the request, or the new context in the slot, anchored. *)
Definition spans (e : span_env) (mode : trace_context_mode) (parent : option (list Z * list Z * Z)) (r r' : request) : Prop :=
  carries_none r' \/
  exists c p r1, started e parent c /\ rq_slot r1 = Some p /\ carries c r1 /\ rq_headers r1 = rq_headers r /\
    r' = if is_injecting mode then inject_traceparent_header (se_inject e) (cx_trace_id c) (cx_span_id c) (u8 (cx_flags c)) r1 else r1.

Lemma start_span_cases e mode parent w r : find_anchor (rq_cleanup r) = None ->
  spans e mode parent r (snd (start_span next_u64 e mode parent w r)).
Proof.
  intros Ha. unfold start_span. destruct (tracing_disabled w); [left; split; auto|].
  destruct (match parent with Some _ => _ | None => _ end) as [[tid|] w1] eqn:Et; [|left; split; auto].
  unfold gen_span_id. destruct (span_id_attempts next_u64 _ w1) as [[sid|] w2] eqn:Es; [|left; split; auto].
  apply span_id_valid in Es. unfold alloc_span_ctx. destruct (se_alloc e) as [p|]; [|left; split; auto]. right.
  set (c := mk_ctx tid sid _ _ _ _ _). set (r1 := set_slot _ _). exists c, p, r1. split_and!.
  - exists tid, sid. split; [exact Es|]. destruct parent as [[[ptid psid] fl]|].
    + injection Et as -> _. split; [discriminate|reflexivity].
    + split; [intros _; exact (trace_id_valid _ _ _ _ Et)|reflexivity].
  - reflexivity.
  - exists p. cbn. rewrite lookup_insert_eq. auto.
  - reflexivity.
  - reflexivity.
Qed.

Definition parent_of (e : span_env) (r : request) : option (list Z * list Z * Z) :=
  match se_loc e with
  | Some lc => if is_extracting (trace_context lc) then inbound (iter (rq_headers r)) else None
  | None => None
  end.
Definition mode_of (e : span_env) : trace_context_mode :=
  match se_loc e with Some lc => trace_context lc | None => CtxExtract end.

Lemma handler_cases e w r : carries_none r ->
  spans e (mode_of e) (parent_of e r) r (snd (span_start_handler next_u64 iter e w r)).
Proof.
  intros Hn. pose proof Hn as [Hs Ha]. unfold span_start_handler, mode_of, parent_of.
  destruct (rq_internal r); [left; exact Hn|]. destruct (se_main e) as [m|]; [|left; exact Hn].
  destruct (negb (is_configured m)); [left; exact Hn|]. destruct (se_loc e) as [lc|]; [|left; exact Hn].
  destruct (_ =? 0); [left; exact Hn|]. set (parent := if is_extracting _ then _ else _).
  unfold pre_gate, alloc_span_ctx_plain. destruct parent as [[[t s] fl]|] eqn:Ep.
  - destruct (se_pre_alloc e) as [p|]; [|left; exact Hn]. set (r1 := set_slot _ _).
    destruct (se_eval e (lc_otel_trace lc) r1) as [v|]; [|left; split; [reflexivity|exact Ha]].
    destruct (gate_open v); [|left; split; [reflexivity|exact Ha]]. apply (start_span_cases e _ _ w r1 Ha).
  - destruct (se_eval e (lc_otel_trace lc) r) as [v|]; [|left; split; [reflexivity|exact Ha]].
    destruct (gate_open v); [|left; split; [reflexivity|exact Ha]]. apply (start_span_cases e _ _ w r Ha).
Qed.

Lemma inject_carries al t s f c r : rq_slot r <> None -> carries c r -> carries c (inject_traceparent_header al t s f r).
Proof.
  intros Hs (p & H1 & H2 & H3). destruct (inject_frame al t s f r) as (_ & E2 & E3 & E4). exists p.
  rewrite E2, E3, E4. split_and!; auto. destruct H3 as [H3|[H3 _]]; [auto|contradiction].
Qed.
End life.

(** ** Headers *)

Definition is_traceparent (e : header) : bool :=
  negb (hd_hash e =? 0) && (blen (hd_key e) =? blen TRACEPARENT) && eq_ignore_case (hd_key e) TRACEPARENT.

Lemma find_header_spec l : forall i,
  match find_header_in l i TRACEPARENT with
  | Some k => exists before e after, l = before ++ e :: after /\ k = (i + length before)%nat /\
      is_traceparent e = true /\ List.filter is_traceparent before = []
  | None => List.filter is_traceparent l = []
  end.
Proof.
  induction l as [|e l IH]; intros i; cbn [find_header_in List.filter]; [reflexivity|].
  fold (is_traceparent e). destruct (is_traceparent e) eqn:E.
  - exists [], e, l. split_and!; [reflexivity|cbn; lia|exact E|reflexivity].
  - specialize (IH (S i)). destruct (find_header_in l (S i) TRACEPARENT) as [k|]; [|exact IH].
    destruct IH as (b & x & a & -> & -> & Hx & Hb). exists (e :: b), x, a.
    split_and!; [reflexivity|cbn; lia|exact Hx|cbn; rewrite E; exact Hb].
Qed.

(** Whether the allocations the injection needs succeed, given the [traceparent] headers on the request: none for a value of 55 bytes, which is
    written over. *)
Definition room (al : inject_allocs) (olds : list header) : bool :=
  match olds with
  | [] => ia_key al && ia_value al && ia_push al
  | e :: _ => (blen (hd_value e) =? 55) || ia_value al
  end.

(** With room the first [traceparent] gets the new value, or one is added; further ones and the other headers are untouched.  Without,
    nothing is changed. *)
Lemma inject_first t s f r al : let r' := inject_traceparent_header al t s f r in
  if room al (List.filter is_traceparent (rq_headers r)) then
    map hd_value (List.filter is_traceparent (rq_headers r'))
      = build_traceparent_value t s f :: map hd_value (tail (List.filter is_traceparent (rq_headers r))) /\
    List.filter (fun e => negb (is_traceparent e)) (rq_headers r') = List.filter (fun e => negb (is_traceparent e)) (rq_headers r)
  else rq_headers r' = rq_headers r.
Proof.
  unfold inject_traceparent_header, room.
  pose proof (find_header_spec (rq_headers r) 0) as Hf. destruct (find_header_in _ _ _) as [k|].
  - destruct Hf as (b & e & a & El & -> & He & Hb). rewrite El in *. cbn [Nat.add].
    rewrite lookup_app_r, Nat.sub_diag by lia. cbn [lookup list_lookup]. rewrite !List.filter_app, Hb. cbn [List.filter app]. rewrite He. cbn [negb].
    rewrite <- negb_orb. destruct ((blen (hd_value e) =? 55) || ia_value al); cbn [negb]; [|exact El]. cbn [rq_headers set_headers].
    replace (length b) with (length b + 0)%nat by lia. rewrite insert_app_r. cbn [insert list_insert].
    set (e' := mk_header _ _ _).
    assert (He' : is_traceparent e' = true).
    { revert He. unfold is_traceparent. cbn [hd_hash hd_key e']. destruct (hd_hash e =? 0) eqn:Eh; [discriminate|]. rewrite Eh. auto. }
    rewrite !List.filter_app. cbn [List.filter]. rewrite He', Hb. cbn [negb app map tail]. auto.
  - rewrite Hf. destruct (ia_key al), (ia_value al), (ia_push al); cbn [negb orb andb]; try reflexivity.
    cbn [rq_headers set_headers]. rewrite !List.filter_app, Hf. cbn. rewrite app_nil_r. auto.
Qed.

Lemma inbound_valid l t s f : inbound l = Some (t, s, f) -> nonzero_id 16 t /\ nonzero_id 8 s /\ is_byte f.
Proof.
  induction l as [|[k v] l IH]; cbn [inbound]; [discriminate|]. case_match; [|exact IH].
  intros Hp%parse_traceparent_inv. tauto.
Qed.

(** ** Properties *)

(** C22 (invariant). A request has one span or none for its whole life.  When the first rewrite
    pass leaves no span, later internal redirects, filter finalisations, variable
    reads and rewrite passes never make one appear (no stale pre-gate context is
    recovered); when it starts a span, every later read, in the log phase or by a
    variable, after any number of redirects, sees exactly that span's context.
    About: span_start_handler, start_span, pre_gate, recover_span_ctx, find_anchor, read_span_ctx, alloc_span_ctx, alloc_span_ctx_plain. *)
Theorem one_span_per_request {R} (next_u64 : R -> Z * R) iter e w r :
  (forall g, in_u 64 (fst (next_u64 g))) -> carries_none r ->
  let r1 := snd (span_start_handler next_u64 iter e w r) in
  (forall r2, rtc (continues next_u64 iter) r1 r2 -> fst (read_span_ctx r2) = None) \/
  (exists c, started e (parent_of iter e r) c /\
     forall r2, rtc (continues next_u64 iter) r1 r2 -> fst (read_span_ctx r2) = Some c).
Proof.
  intros Hnext Hn r1. pose proof (handler_cases next_u64 iter Hnext e w r Hn) as Hcases. fold r1 in Hcases.
  destruct Hcases as [H|(c & p & r0 & Hst & Hs & Hc & _ & E)].
  - left. intros r2 Hr. assert (H2 : carries_none r2); [|rewrite read_none by exact H2; reflexivity].
    induction Hr as [|x y z Hxy _ IH]; [exact H|]. apply IH, (continues_none next_u64 iter x y Hxy H).
  - right. exists c. split; [exact Hst|]. intros r2 Hr. apply read_carried.
    assert (H1 : carries c r1) by (rewrite E; destruct (is_injecting _); [apply inject_carries; [congruence|exact Hc]|exact Hc]).
    clear E. induction Hr as [|x y z Hxy _ IH]; [exact H1|]. apply IH, (continues_carries next_u64 iter c x y Hxy H1).
Qed.

(** C23 (functional). Context propagation.  A started span has valid identifiers: it
    continues the inbound trace with the inbound parent, flags and sampling bit when
    the mode reads the header and it parses, and otherwise is a sampled root with
    fresh non-zero ids.  In the injecting modes the request leaves with a [traceparent] whose
    value parses back to this span's trace id, span id and flags: its first one is given this value, and if it has none one is added; so there is
    exactly one unless the client sent several, of which those after the first stay as they are.  The other headers are unchanged.
    If an allocation that this needs fails (none is needed to overwrite a value of the usual 55 bytes), and in the other modes, all headers are left as they came.
    About: span_start_handler, start_span, inbound, gen_trace_id, gen_span_id, trace_id_attempts, span_id_attempts, drbg64,
    inject_traceparent_header, find_header_in. *)
Theorem span_context_propagates {R} (next_u64 : R -> Z * R) iter e w r c :
  (forall g, in_u 64 (fst (next_u64 g))) -> carries_none r ->
  let r1 := snd (span_start_handler next_u64 iter e w r) in
  let olds := List.filter is_traceparent (rq_headers r) in
  fst (read_span_ctx r1) = Some c ->
  nonzero_id 16 (cx_trace_id c) /\ nonzero_id 8 (cx_span_id c) /\
  match parent_of iter e r with
  | Some (t, s, f) => cx_trace_id c = t /\ cx_parent_span_id c = s /\ cx_flags c = f /\ cx_sampled c = Z.testbit f 0
  | None => cx_parent_span_id c = replicate 8 0 /\ cx_flags c = 1 /\ cx_sampled c = true
  end /\
  (if is_injecting (mode_of e) && room (se_inject e) olds then
     exists v, map hd_value (List.filter is_traceparent (rq_headers r1)) = v :: map hd_value (tail olds) /\
     parse_traceparent_full v = Some (cx_trace_id c, cx_span_id c, cx_flags c) /\
     List.filter (fun h => negb (is_traceparent h)) (rq_headers r1) = List.filter (fun h => negb (is_traceparent h)) (rq_headers r)
   else rq_headers r1 = rq_headers r).
Proof.
  intros Hnext Hn r1 olds Hread.
  pose proof (handler_cases next_u64 iter Hnext e w r Hn) as Hcases. fold r1 in Hcases.
  destruct Hcases as [H|(c' & p & r0 & Hst & Hs & Hc & Hh & E)].
  { rewrite read_none in Hread by exact H. discriminate Hread. }
  assert (H1 : carries c' r1) by (rewrite E; destruct (is_injecting _); [apply inject_carries; [congruence|exact Hc]|exact Hc]).
  apply read_carried in H1 as [H1 _]. rewrite H1 in Hread. injection Hread as ->. clear H1 Hc Hs.
  assert (Hpar : forall t s f, parent_of iter e r = Some (t, s, f) -> nonzero_id 16 t /\ nonzero_id 8 s /\ is_byte f).
  { intros t s f. unfold parent_of. destruct (se_loc e); [|discriminate]. destruct (is_extracting _); [apply inbound_valid|discriminate]. }
  destruct Hst as (tid & sid & Hsid & Htid & Ec).
  assert (Hv : nonzero_id 16 (cx_trace_id c) /\ nonzero_id 8 (cx_span_id c) /\ is_byte (cx_flags c)).
  { rewrite Ec. destruct (parent_of iter e r) as [[[t s] f]|]; [destruct (Hpar t s f eq_refl) as (? & ? & ?); auto|].
    cbn. split_and!; auto; unfold is_byte; lia. }
  destruct Hv as (V1 & V2 & V3). split; [exact V1|]. split; [exact V2|]. split.
  - rewrite Ec. destruct (parent_of iter e r) as [[[t s] f]|]; [|auto]. cbn. split_and!; auto.
    change (Z.land f 1) with (Z.land f (Z.ones 1)). rewrite Z.land_ones by lia. change (2 ^ 1) with 2.
    rewrite Zmod_odd. destruct (Z.odd f); reflexivity.
  - rewrite E. destruct (is_injecting (mode_of e)); [|exact Hh]. rewrite wrap_small by (unfold is_byte, in_u in *; cbn; lia).
    pose proof (inject_first (cx_trace_id c) (cx_span_id c) (cx_flags c) r0 (se_inject e)) as Hi. cbv zeta in Hi. rewrite Hh in Hi. fold olds in Hi.
    cbn [andb]. destruct (room (se_inject e) olds); [|exact Hi]. destruct Hi as [I1 I2]. eexists. split; [exact I1|]. split; [|exact I2].
    apply parse_build_traceparent; assumption.
Qed.

(** *** Witnesses *)

(** A generator that counts. *)
Definition counting (g : Z) : Z * Z := (u64 (g + 1), g + 1).
Definition all_headers (l : list header) : list (list Z * list Z) := map (fun h => (hd_key h, hd_value h)) l.
Definition sample_parent : list Z := build_traceparent_value (replicate 16 17) (replicate 8 34) 1.
Definition sample_senv : span_env :=
  mk_senv (Some (set_exporter (set_endpoint $"http://127.0.0.1:4318" exporter_default) main_default))
    (Some (mk_loc 4096 3 0 [] 0 0)) (fun _ r => fst (otel_var_get_parent_sampled r)) (Some 1%nat) (Some 2%nat) 1000 7
    (mk_allocs true true true).
Definition sample_worker : worker := @mk_worker Z (Some 41) false false false None [].
Definition sample_request : request :=
  mk_request false false [mk_header 9 $"Host" $"example.org"; mk_header 9 $"Traceparent" sample_parent] None [] ∅.
Definition sample_span_ctx : span_ctx :=
  mk_ctx (replicate 16 17) (le_bytes 8 42) (replicate 8 34) 1 1000 7 true.

Lemma counting_range g : in_u 64 (fst (counting g)).
Proof. unfold counting. cbn [fst]. apply wrap_range. lia. Qed.

Lemma one_span_per_request_witness :
  let r1 := snd (span_start_handler counting all_headers sample_senv sample_worker sample_request) in
  let r2 := mk_request true false (rq_headers r1) None (rq_cleanup r1) (rq_ctxs r1) in
  fst (read_span_ctx r1) = Some sample_span_ctx /\ fst (read_span_ctx r2) = Some sample_span_ctx.
Proof.
  intros r1 r2.
  assert (E : fst (read_span_ctx r1) = Some sample_span_ctx) by (vm_compute; reflexivity).
  split; [exact E|].
  destruct (one_span_per_request counting all_headers sample_senv sample_worker sample_request counting_range ltac:(split; reflexivity))
    as [H|(c & _ & H)].
  - rewrite (H r1) in E by apply rtc_refl. discriminate E.
  - rewrite (H r2) by (apply rtc_once, redirected). rewrite <- E. symmetry. apply H. apply rtc_refl.
Defined.

Lemma span_context_propagates_witness :
  let r1 := snd (span_start_handler counting all_headers sample_senv sample_worker sample_request) in
  map (fun h => parse_traceparent_full (hd_value h)) (List.filter is_traceparent (rq_headers r1))
    = [Some (replicate 16 17, le_bytes 8 42, 1)].
Proof.
  intros r1.
  destruct (span_context_propagates counting all_headers sample_senv sample_worker sample_request sample_span_ctx counting_range
    ltac:(split; reflexivity) ltac:(vm_compute; reflexivity)) as (_ & _ & _ & v & H1 & H2 & _).
  fold r1 in H1. rewrite <- (map_map hd_value parse_traceparent_full), H1. cbn [map]. rewrite H2. reflexivity.
Defined.
