(* ===== verification/Process.v ===== *)
(** * Processes (src/src/exporter/mod.rs, src/src/exporter/channel.rs, src/src/lib.rs)

    The exporter process from its fork to its exit: identification, the
    crash-loop check, the drop of privileges, the modules' hooks, the channel from the
    master and the event loop; and the two hooks of a worker.  What nginx and the kernel
    answer is an input.  [exit] and [abort] end a run; the actions that
    matter to the order are recorded with the credentials they ran under. *)
From stdpp Require Import gmap.
From S2P Require Import Prelude Ring DataModel StdText Coalesce ErrorLog LogChain Config Control SpanStart.

(** ** Roles *)

(** [src/src/exporter/mod.rs: NgxProcess] *)
Inductive ngx_role := RSingle | RMaster | RSignaller | RWorker (n : Z) | RHelper | RExporter.

Definition NGX_PROCESS_SINGLE : Z := 0.
Definition NGX_PROCESS_MASTER : Z := 1.
Definition NGX_PROCESS_SIGNALLER : Z := 2.
Definition NGX_PROCESS_WORKER : Z := 3.
Definition NGX_PROCESS_HELPER : Z := 4.

(** [src/src/exporter/mod.rs: ngx_process] *)
Definition ngx_process (process worker : Z) (is_otel_exporter : bool) : ngx_role :=
  if process =? NGX_PROCESS_SINGLE then RSingle
  else if process =? NGX_PROCESS_MASTER then RMaster
  else if process =? NGX_PROCESS_SIGNALLER then RSignaller
  else if process =? NGX_PROCESS_WORKER then RWorker worker
  else if process =? NGX_PROCESS_HELPER then (if is_otel_exporter then RExporter else RHelper)
  else RHelper.

(** ** The process *)

Inductive action :=
  | ASleep (ms : Z) | ASignals | AMask | ACloseListening | AInit (i : nat) | AChannel | ATitle | ASpawn | ABeat.

(** Effective user and group, and supplementary groups. *)
Record creds := mk_creds { cr_uid : Z; cr_gid : Z; cr_groups : list Z }.

Record process := mk_pr {
  pr_kind : Z;                          (* ngx_process *)
  pr_is_exporter : bool;                (* IS_OTEL_EXPORTER *)
  pr_creds : creds;
  pr_fds : list Z;                      (* open channel descriptors *)
  pr_control : option control_shm;
  pr_restarts : Z;                      (* EXPORTER_RESTARTS *)
  pr_beat : option Z;                   (* when the heartbeat's timer expires, if it is armed *)
  pr_trace : list (action * creds)
}.

(** How a process ends. *)
Inductive ending := Exited (code : Z) | Aborted.

(** A part of the entry point: it may end the process. *)
Definition part : Type := process -> option ending * process.
Definition and_then (a b : part) : part :=
  fun p => match a p with (Some e, p) => (Some e, p) | (None, p) => b p end.
Infix ";>>" := and_then (at level 68, right associativity) : otel_scope.
Definition skip : part := fun p => (None, p).
Definition stop (e : ending) : part := fun p => (Some e, p).
Definition does (a : action) : part := fun p =>
  (None, mk_pr (pr_kind p) (pr_is_exporter p) (pr_creds p) (pr_fds p) (pr_control p) (pr_restarts p) (pr_beat p)
           (pr_trace p ++ [(a, pr_creds p)])).
Definition set_creds (c : creds) : part := fun p =>
  (None, mk_pr (pr_kind p) (pr_is_exporter p) c (pr_fds p) (pr_control p) (pr_restarts p) (pr_beat p) (pr_trace p)).
Definition close_fd (fd : Z) : part := fun p =>
  (None, mk_pr (pr_kind p) (pr_is_exporter p) (pr_creds p) (List.filter (fun f => negb (f =? fd)) (pr_fds p))
           (pr_control p) (pr_restarts p) (pr_beat p) (pr_trace p)).

(** [ngx_core_conf_t]. *)
Record core_conf := mk_cc { cc_username : list Z; cc_user : Z; cc_group : Z; cc_working_directory : list Z; cc_shutdown_timeout : Z }.

(** What the start of the exporter sees: the clocks, nginx's core configuration, what the system calls return ([cy_initgroups]: the groups of a user and a group, or a failure), the modules' hooks (absent, or their
    result), the table of processes below
    [ngx_last_process] ([pid] and the two ends of the channel), its own slot and channel, and the
    allocators. *)
Record cycle_env := mk_cyc {
  cy_unix : Z; cy_msec : Z; cy_core : option core_conf;
  cy_setgid : bool; cy_initgroups : list Z -> Z -> option (list Z); cy_setuid : bool; cy_chdir : bool;
  cy_modules : list (option Z);
  cy_processes : list (Z * Z * Z); cy_slot : nat; cy_own : Z * Z;
  cy_add_channel : Z; cy_conf : bool; cy_pinned : bool; cy_beat_event : bool
}.
Definition NGX_ERROR_RC : Z := -1.

Section entry.
Context (e : cycle_env).

(** [src/src/exporter/mod.rs: 159-165 otel_exporter_cycle] *)
Definition identify : part := fun p =>
  (None, mk_pr NGX_PROCESS_HELPER true (pr_creds p) (pr_fds p) (pr_control p) (pr_restarts p) (pr_beat p) (pr_trace p)).

(** [src/src/exporter/mod.rs: 189-235 otel_exporter_cycle] *)
Definition crash_check : part := fun p =>
  match (if cy_conf e then pr_control p else None) with
  | None => (None, p)
  | Some ctrl =>
      let '(r, ctrl) := exporter_startup (cy_unix e) ctrl in
      let p := mk_pr (pr_kind p) (pr_is_exporter p) (pr_creds p) (pr_fds p) (Some ctrl) (pr_restarts p) (pr_beat p) (pr_trace p) in
      match r with
      | Disabled => (Some (Exited 2), p)
      | Continue ms restarts =>
          if restarts =? 0 then (None, p)
          else does (ASleep ms) (mk_pr (pr_kind p) (pr_is_exporter p) (pr_creds p) (pr_fds p) (Some ctrl) restarts (pr_beat p) (pr_trace p))
      end
  end.

(** The three calls that change the credentials; the kernel lets only root make them.
    [src/src/exporter/mod.rs: 659-665 drop_privileges_and_chdir] *)
Definition setgid (g : Z) : part := fun p =>
  let c := pr_creds p in
  if cy_setgid e && (cr_uid c =? 0) then set_creds (mk_creds (cr_uid c) g (cr_groups c)) p else stop (Exited 2) p.
(** A failure is logged and leaves the groups as they are.
    [src/src/exporter/mod.rs: 667-677 drop_privileges_and_chdir] *)
Definition initgroups (username : list Z) (g : Z) : part := fun p =>
  let c := pr_creds p in
  match (if cr_uid c =? 0 then cy_initgroups e username g else None) with
  | Some groups => set_creds (mk_creds (cr_uid c) (cr_gid c) groups) p
  | None => (None, p)
  end.
(** [src/src/exporter/mod.rs: 679-682 drop_privileges_and_chdir] *)
Definition setuid (u : Z) : part := fun p =>
  let c := pr_creds p in
  if cy_setuid e && (cr_uid c =? 0) then set_creds (mk_creds u (cr_gid c) (cr_groups c)) p else stop (Exited 2) p.

(** [src/src/exporter/mod.rs: drop_privileges_and_chdir] *)
Definition drop_privileges_and_chdir : part := fun p =>
  match cy_core e with
  | None => (None, p)
  | Some ccf =>
      if negb (cr_uid (pr_creds p) =? 0) then (None, p) else
      (setgid (cc_group ccf) ;>> initgroups (cc_username ccf) (cc_group ccf) ;>> setuid (cc_user ccf) ;>>
       (if (0 <? blen (cc_working_directory ccf)) && negb (cy_chdir e) then stop (Exited 2) else skip)) p
  end.

(** Every module's [init_process], in order.
    [src/src/exporter/mod.rs: 270-286 otel_exporter_cycle] *)
Fixpoint init_modules (i : nat) (modules : list (option Z)) : part :=
  match modules with
  | [] => skip
  | None :: modules => init_modules (S i) modules
  | Some rc :: modules =>
      does (AInit i) ;>> (if rc =? NGX_ERROR_RC then stop (Exited 2) else skip) ;>> init_modules (S i) modules
  end.

(** The slots below [ngx_last_process]; a failing [close] is only logged.
    [src/src/exporter/mod.rs: 593-613 close_sibling_channels] *)
Fixpoint close_siblings (n : nat) (processes : list (Z * Z * Z)) : part :=
  match processes with
  | [] => skip
  | (pid, _, ch1) :: processes =>
      (if (n =? cy_slot e)%nat || (pid =? -1) || (ch1 =? -1) then skip else close_fd ch1) ;>> close_siblings (S n) processes
  end.

(** [src/src/exporter/mod.rs: close_sibling_channels] *)
Definition close_sibling_channels : part :=
  close_siblings 0 (cy_processes e) ;>>
  (if fst (cy_own e) =? -1 then skip else close_fd (fst (cy_own e))).

(** A failure disables the respawn.
    [src/src/exporter/mod.rs: 299-310 otel_exporter_cycle] *)
Definition add_channel_event : part :=
  if cy_add_channel e =? NGX_ERROR_RC then stop (Exited 2) else does AChannel.

(** Without a configuration the [expect] panics, which aborts in an [extern "C"] function; a task that could not be
    pinned is gone, so the process must not live on without it.
    [src/src/exporter/mod.rs: 354-375 otel_exporter_cycle] *)
Definition spawn_export_task : part :=
  if negb (cy_conf e) then stop Aborted else
  does ASpawn ;>> (if cy_pinned e then skip else stop Aborted).

(** The first beat is immediate, the timer makes the next ones; without an event there is none.
    [src/src/exporter/mod.rs: 390-421 otel_exporter_cycle] *)
Definition arm_heartbeat : part := fun p =>
  match pr_control p with
  | None => (None, p)
  | Some ctrl =>
      if negb (cy_beat_event e) then (None, p)
      else does ABeat (mk_pr (pr_kind p) (pr_is_exporter p) (pr_creds p) (pr_fds p) (Some (set_beat (cy_msec e) ctrl))
                         (pr_restarts p) (Some (cy_msec e + HEARTBEAT_PERIOD_MS)) (pr_trace p))
  end.

(** Up to the event loop.
    [src/src/exporter/mod.rs: 148-434 otel_exporter_cycle] *)
Definition exporter_setup : part :=
  identify ;>> crash_check ;>> does ASignals ;>> drop_privileges_and_chdir ;>> does AMask ;>> does ACloseListening ;>>
  init_modules 0 (cy_modules e) ;>> close_sibling_channels ;>> add_channel_event ;>> does ATitle ;>>
  spawn_export_task ;>> arm_heartbeat.
End entry.

(** ** The channel from the master *)

Definition NGX_CMD_QUIT : Z := 3.
Definition NGX_CMD_TERMINATE : Z := 4.
Definition NGX_CMD_REOPEN : Z := 5.

(** A read of the channel: nothing more, an error or the end, or a command with the descriptor it carries. *)
Inductive channel_read := ChAgain | ChError | ChMsg (command fd : Z).

(** nginx's flags, the export task's [EXPORT_LOOP_DONE], the clock in milliseconds, whether the channel is open, the descriptors
    closed, and how often the logs were reopened. *)
Record loop_state := mk_ls {
  ls_quit : bool; ls_terminate : bool; ls_reopen : bool; ls_done : bool; ls_now : Z;
  ls_channel : bool; ls_closed : list Z; ls_reopened : Z
}.
Definition raise_quit (s : loop_state) : loop_state :=
  mk_ls true (ls_terminate s) (ls_reopen s) (ls_done s) (ls_now s) (ls_channel s) (ls_closed s) (ls_reopened s).
Definition raise_terminate (s : loop_state) : loop_state :=
  mk_ls (ls_quit s) true (ls_reopen s) (ls_done s) (ls_now s) (ls_channel s) (ls_closed s) (ls_reopened s).
Definition raise_reopen (s : loop_state) : loop_state :=
  mk_ls (ls_quit s) (ls_terminate s) true (ls_done s) (ls_now s) (ls_channel s) (ls_closed s) (ls_reopened s).
Definition close_received (fd : Z) (s : loop_state) : loop_state :=
  mk_ls (ls_quit s) (ls_terminate s) (ls_reopen s) (ls_done s) (ls_now s) (ls_channel s) (ls_closed s ++ [fd]) (ls_reopened s).
Definition close_channel (s : loop_state) : loop_state :=
  mk_ls (ls_quit s) (ls_terminate s) (ls_reopen s) (ls_done s) (ls_now s) false (ls_closed s) (ls_reopened s).

(** One command.
    [src/src/exporter/channel.rs: 74-96 otel_exporter_channel_handler] *)
Definition dispatch_command (command fd : Z) (s : loop_state) : loop_state :=
  if command =? NGX_CMD_QUIT then raise_quit s
  else if command =? NGX_CMD_TERMINATE then raise_terminate s
  else if command =? NGX_CMD_REOPEN then raise_reopen s
  else if 0 <=? fd then close_received fd s else s.

(** Reads until the channel has nothing more.
    [src/src/exporter/channel.rs: otel_exporter_channel_handler] *)
Fixpoint channel_handler (reads : list channel_read) (s : loop_state) : loop_state :=
  match reads with
  | [] | ChAgain :: _ => s
  | ChError :: _ => raise_terminate (close_channel s)
  | ChMsg command fd :: reads => channel_handler reads (dispatch_command command fd s)
  end.

(** ** The event loop *)

(** One [ngx_process_events_and_timers]: how long it takes, the signals that arrive, what the channel delivers if it is still registered,
    and whether the export task finishes. *)
Record turn := mk_turn { tn_ms : Z; tn_quit : bool; tn_terminate : bool; tn_reopen : bool; tn_channel : list channel_read; tn_done : bool }.

Definition process_events (t : turn) (s : loop_state) : loop_state :=
  let s := mk_ls (ls_quit s || tn_quit t) (ls_terminate s || tn_terminate t) (ls_reopen s || tn_reopen t) (ls_done s || tn_done t)
             (ls_now s + tn_ms t) (ls_channel s) (ls_closed s) (ls_reopened s) in
  if ls_channel s then channel_handler (tn_channel t) s else s.

(** The wait for the drain; [None] when the turns are used up before it ends.
    [src/src/exporter/mod.rs: 501-506 otel_exporter_cycle] *)
Fixpoint drain_wait (deadline : Z) (turns : list turn) (s : loop_state) : option loop_state :=
  if ls_done s || (deadline <=? ls_now s) then Some s else
  match turns with
  | [] => None
  | t :: turns => drain_wait deadline turns (process_events t s)
  end.

(** [src/src/exporter/mod.rs: 481-499 otel_exporter_cycle] *)
Definition drain_cap (core : option core_conf) : Z :=
  effective_drain_backstop GRACEFUL_DRAIN_BACKSTOP (match core with Some ccf => cc_shutdown_timeout ccf | None => 0 end).

(** [src/src/exporter/mod.rs: 519-523 otel_exporter_cycle] *)
Definition reopen_logs (s : loop_state) : loop_state :=
  if ls_reopen s
  then mk_ls (ls_quit s) (ls_terminate s) false (ls_done s) (ls_now s) (ls_channel s) (ls_closed s) (ls_reopened s + 1)
  else s.

(** The code the process exits with, and its state then; [None] while it runs.
    [src/src/exporter/mod.rs: 436-527 otel_exporter_cycle] *)
Fixpoint event_loop (core : option core_conf) (turns : list turn) (s : loop_state) : option (Z * loop_state) :=
  if ls_terminate s then Some (0, s)
  else if ls_quit s then (fun s => (0, s)) <$> drain_wait (ls_now s + drain_cap core) turns s
  else
    let s := reopen_logs s in
    match turns with
    | [] => None
    | t :: turns => event_loop core turns (process_events t s)
    end.

(** ** A worker's hooks *)

Section worker_hooks.
Context {R : Type}.

(** [logs] and [rates] are a worker's views of the zones; the level of each message logged is returned.
    [src/src/lib.rs: 780-868 ngx_otel_init_process] *)
Definition init_process (role : ngx_role) (conf : option main_config) (logs : option (Z -> Z -> list slot * ring)) (rates : option (Z -> list Z))
    (fuel : nat) (h : heap) (cycle : option nat) (states : gmap nat writer_state) (w : worker (R := R))
    : gmap nat writer_state * worker (R := R) * list Z :=
  let states :=
    match conf, role, logs with
    | Some amcf, RWorker id, Some view =>
        if mc_error_log_enabled amcf then
          let '(tbl, rng) := view id (log_ring_cap amcf) in
          wire_error_writer_state fuel h cycle (bool_decide (is_Some (mc_logs_shm_zone amcf))) (Some tbl) (Some rng)
            ((fun v => v id) <$> rates) (mc_error_log_coalesce amcf) states
        else states
    | _, _, _ => states
    end in
  match role with
  | RWorker _ => let '(ok, w) := eager_seed_drbg w in (states, w, if ok then [] else [1])
  | _ => (states, w, [])
  end.

(** [src/src/lib.rs: ngx_otel_exit_process] *)
Definition exit_process (fuel : nat) (h : heap) (cycle : option nat) (states : gmap nat writer_state) : gmap nat writer_state :=
  set_cleanup_flag fuel h cycle states.
End worker_hooks.

(** ** The set-up *)

(** The process keeps its identity and credentials and performs [acts] under them. *)
Record performs (p p' : process) (acts : list action) : Prop := {
  pf_kind : pr_kind p' = pr_kind p;
  pf_exporter : pr_is_exporter p' = pr_is_exporter p;
  pf_creds : pr_creds p' = pr_creds p;
  pf_control : pr_control p' = None <-> pr_control p = None;
  pf_trace : pr_trace p' = pr_trace p ++ map (fun a => (a, pr_creds p)) acts
}.

Lemma performs_nil p p' : pr_kind p' = pr_kind p -> pr_is_exporter p' = pr_is_exporter p -> pr_creds p' = pr_creds p ->
  (pr_control p' = None <-> pr_control p = None) -> pr_trace p' = pr_trace p -> performs p p' [].
Proof. intros. split; auto. cbn. rewrite app_nil_r. assumption. Qed.

Lemma performs_trans p p1 p2 a b : performs p p1 a -> performs p1 p2 b -> performs p p2 (a ++ b).
Proof.
  intros [H1 H2 H3 H4 H5] [G1 G2 G3 G4 G5]. split; try congruence; [rewrite G4; exact H4|]. rewrite map_app, app_assoc, <- H5, G5, H3. reflexivity.
Qed.

(** Every action satisfies [ok] and every ending [ends]. *)
Definition only (ok : action -> bool) (ends : ending -> Prop) (a : part) : Prop :=
  forall p, exists acts, performs p (snd (a p)) acts /\ forallb ok acts = true /\
    match fst (a p) with Some x => ends x | None => True end.

Lemma only_then ok ends a b : only ok ends a -> only ok ends b -> only ok ends (a ;>> b).
Proof.
  intros Ha Hb p. unfold and_then. destruct (Ha p) as (l & H1 & H2 & H3). destruct (a p) as [[x|] p1]; cbn [fst snd] in *; [eauto|].
  destruct (Hb p1) as (l' & G1 & G2 & G3). exists (l ++ l'). rewrite forallb_app, H2, G2. split; [eapply performs_trans; eassumption|auto].
Qed.

Lemma only_skip ok ends : only ok ends skip.
Proof. intros p. exists []. split; [apply performs_nil; reflexivity|cbn; auto]. Qed.
Lemma only_stop ok (ends : ending -> Prop) x : ends x -> only ok ends (stop x).
Proof. intros H p. exists []. split; [apply performs_nil; reflexivity|cbn; auto]. Qed.
Lemma only_does ok ends a : ok a = true -> only ok ends (does a).
Proof. intros H p. exists [a]. cbn. rewrite H. split; [split; reflexivity|cbn; auto]. Qed.
Lemma only_close_fd ok ends fd : only ok ends (close_fd fd).
Proof. intros p. exists []. split; [apply performs_nil; reflexivity|cbn; auto]. Qed.
Lemma only_if ok ends (b : bool) x y : only ok ends x -> only ok ends y -> only ok ends (if b then x else y).
Proof. destruct b; auto. Qed.
Create HintDb process.
#[export] Hint Resolve only_then only_skip only_stop only_does only_close_fd only_if : process.

Definition not_spawn (a : action) : bool := match a with ASpawn => false | _ => true end.
Definition no_respawn (x : ending) : Prop := x = Exited 2.

Lemma only_init_modules modules : forall i, only not_spawn no_respawn (init_modules i modules).
Proof. induction modules as [|[rc|] modules IH]; intros i; cbn [init_modules]; auto 8 with process. apply only_then; [|apply only_then]; auto with process.
  apply only_if; auto with process. apply only_stop. reflexivity. Qed.

Lemma only_close_siblings e l : forall n, only not_spawn no_respawn (close_siblings e n l).
Proof. induction l as [|[[pid ch0] ch1] l IH]; intros n; cbn [close_siblings]; auto with process. Qed.

(** The actions that come after the drop. *)
Definition late (a : action) : bool := match a with ASleep _ | ASignals => false | _ => true end.
Definition early (a : action) : bool := negb (late a).

Lemma only_crash_check e : only early no_respawn (crash_check e).
Proof.
  intros p. unfold crash_check. destruct (cy_conf e).
  2: { exists []. split; [apply performs_nil; reflexivity|cbn; auto]. }
  destruct (pr_control p) as [ctrl|] eqn:Ec.
  2: { exists []. split; [apply performs_nil; reflexivity|cbn; auto]. }
  assert (Hc : forall c : control_shm, Some c = None <-> pr_control p = None) by (intros c; rewrite Ec; split; discriminate).
  destruct (exporter_startup (cy_unix e) ctrl) as [[|ms restarts] ctrl'].
  - exists []. cbn. split; [apply performs_nil; try reflexivity; apply Hc|]. split; reflexivity.
  - case_if; [exists []; split; [apply performs_nil; try reflexivity; apply Hc|cbn; auto]|].
    exists [ASleep ms]. split; [split; try reflexivity; apply Hc|cbn; auto].
Qed.

(** Between the drop of privileges and the export task. *)
Definition middle (e : cycle_env) : part :=
  does AMask ;>> does ACloseListening ;>> init_modules 0 (cy_modules e) ;>> close_sibling_channels e ;>> add_channel_event e ;>> does ATitle.

Lemma only_middle e : only not_spawn no_respawn (middle e).
Proof.
  unfold middle, close_sibling_channels, add_channel_event.
  repeat (apply only_then); auto using only_init_modules, only_close_siblings with process.
  apply only_if; auto with process. apply only_stop. reflexivity.
Qed.

Lemma and_then_assoc a b c p : ((a ;>> b) ;>> c) p = (a ;>> b ;>> c) p.
Proof. unfold and_then. destruct (a p) as [[x|] p1]; [reflexivity|]. destruct (b p1) as [[x|] p2]; reflexivity. Qed.

Lemma and_then_ext a b c p : (forall p, b p = c p) -> (a ;>> b) p = (a ;>> c) p.
Proof. intros H. unfold and_then. destruct (a p) as [[x|] p1]; auto. Qed.

Lemma setup_middle e p :
  exporter_setup e p =
  (identify ;>> crash_check e ;>> does ASignals ;>> drop_privileges_and_chdir e ;>> (middle e ;>> (spawn_export_task e ;>> arm_heartbeat e))) p.
Proof.
  unfold exporter_setup, middle. do 4 (apply and_then_ext; intros ?). rewrite !and_then_assoc.
  do 5 (apply and_then_ext; intros ?; rewrite ?and_then_assoc). reflexivity.
Qed.

(** Which descriptors are left when a part ends normally. *)
Definition fds_left (Q : Z -> Prop) (a : part) : Prop :=
  forall p p', a p = (None, p') -> forall fd, 0 <= fd -> In fd (pr_fds p') <-> In fd (pr_fds p) /\ Q fd.

Lemma fds_then Q R a b : fds_left Q a -> fds_left R b -> fds_left (fun fd => Q fd /\ R fd) (a ;>> b).
Proof.
  intros Ha Hb p p'. unfold and_then. destruct (a p) as [[x|] p1] eqn:E; [discriminate|]. intros Eb fd Hfd.
  rewrite (Hb _ _ Eb fd Hfd), (Ha _ _ E fd Hfd). tauto.
Qed.

Definition same_fds (a : part) : Prop := forall p, pr_fds (snd (a p)) = pr_fds p.
Lemma same_then a b : same_fds a -> same_fds b -> same_fds (a ;>> b).
Proof. intros Ha Hb p. unfold and_then. pose proof (Ha p) as H. destruct (a p) as [[x|] p1]; [exact H|]. rewrite (Hb p1). exact H. Qed.
Lemma same_left a : same_fds a -> fds_left (fun _ => True) a.
Proof. intros H p p' E fd _. pose proof (H p) as Hp. rewrite E in Hp. cbn in Hp. rewrite Hp. tauto. Qed.
Lemma same_does a : same_fds (does a). Proof. intros p. reflexivity. Qed.
Lemma same_skip : same_fds skip. Proof. intros p. reflexivity. Qed.
Lemma same_stop x : same_fds (stop x). Proof. intros p. reflexivity. Qed.
Lemma same_if (b : bool) x y : same_fds x -> same_fds y -> same_fds (if b then x else y). Proof. destruct b; auto. Qed.
#[export] Hint Resolve same_then same_does same_skip same_stop same_if : process.

Lemma same_init_modules modules : forall i, same_fds (init_modules i modules).
Proof. induction modules as [|[rc|] modules IH]; intros i; cbn [init_modules]; auto 8 with process. Qed.
Lemma same_crash_check e : same_fds (crash_check e).
Proof.
  intros p. unfold crash_check. destruct (if cy_conf e then pr_control p else None); [|reflexivity].
  destruct (exporter_startup _ _) as [[|ms r] ctrl']; [reflexivity|]. case_if; reflexivity.
Qed.
Lemma same_drop e : same_fds (drop_privileges_and_chdir e).
Proof.
  intros p. unfold drop_privileges_and_chdir. destruct (cy_core e) as [ccf|]; [|reflexivity]. case_if; [reflexivity|].
  unfold and_then, setgid, initgroups, setuid, set_creds, stop, skip. repeat (case_match; simplify_eq/=); try reflexivity; congruence.
Qed.
Lemma same_arm e : same_fds (arm_heartbeat e).
Proof. intros p. unfold arm_heartbeat. destruct (pr_control p); [|reflexivity]. case_if; reflexivity. Qed.

Lemma close_fd_left fd0 : fds_left (fun fd => fd <> fd0) (close_fd fd0).
Proof. intros p p' [= <-] fd _. cbn. rewrite filter_In, negb_true_iff, Z.eqb_neq. tauto. Qed.

Lemma fds_iff Q R a : (forall fd, 0 <= fd -> Q fd <-> R fd) -> fds_left Q a -> fds_left R a.
Proof. intros H Ha p p' E fd Hfd. rewrite (Ha p p' E fd Hfd), (H fd Hfd). reflexivity. Qed.

(** A sibling's end of a channel. *)
Definition sibling_end (e : cycle_env) (n : nat) (l : list (Z * Z * Z)) (fd : Z) : Prop :=
  exists k pid ch0, l !! k = Some (pid, ch0, fd) /\ (n + k)%nat <> cy_slot e /\ pid <> -1.

Lemma close_siblings_left e l : forall n, fds_left (fun fd => ~ sibling_end e n l fd) (close_siblings e n l).
Proof.
  induction l as [|[[pid ch0] ch1] l IH]; intros n; cbn [close_siblings].
  - intros p p' [= <-] fd _. split; [|tauto]. intros H. split; [exact H|]. intros (k & pid & ch0 & E & _). destruct k; discriminate.
  - assert (Hs : forall fd, sibling_end e n ((pid, ch0, ch1) :: l) fd <->
      (fd = ch1 /\ n <> cy_slot e /\ pid <> -1) \/ sibling_end e (S n) l fd).
    { intros fd. split.
      - intros ([|k] & pid' & ch0' & E & Hn & Hp); cbn in E; [injection E as <- <- ->; left; rewrite Nat.add_0_r in Hn; auto|].
        right. exists k, pid', ch0'. split; [exact E|]. split; [lia|exact Hp].
      - intros [(-> & Hn & Hp)|(k & pid' & ch0' & E & Hn & Hp)]; [exists 0%nat, pid, ch0|exists (S k), pid', ch0']; cbn;
          (split; [auto|split; [lia|exact Hp]]). }
    assert (Hone : fds_left (fun fd => ~ (fd = ch1 /\ n <> cy_slot e /\ pid <> -1))
      (if (n =? cy_slot e)%nat || (pid =? -1) || (ch1 =? -1) then skip else close_fd ch1)).
    { destruct ((n =? cy_slot e)%nat || (pid =? -1) || (ch1 =? -1)) eqn:E.
      - eapply fds_iff; [|apply same_left, same_skip]. intros fd Hfd.
        apply orb_true_iff in E as [E|E]; [apply orb_true_iff in E as [E|E]|]; [apply Nat.eqb_eq in E| |]; zify_bool; split; try tauto; lia.
      - eapply fds_iff; [|apply close_fd_left]. apply orb_false_iff in E as [E E3]. apply orb_false_iff in E as [E1 E2]. apply Nat.eqb_neq in E1.
        intros fd Hfd. zify_bool. tauto. }
    eapply fds_iff; [|exact (fds_then _ _ _ _ Hone (IH (S n)))]. intros fd Hfd. cbv beta. rewrite Hs. tauto.
Qed.

Lemma close_channels_left e : fds_left (fun fd => ~ sibling_end e 0 (cy_processes e) fd /\ fd <> fst (cy_own e)) (close_sibling_channels e).
Proof.
  unfold close_sibling_channels. apply fds_then; [apply close_siblings_left|].
  destruct (fst (cy_own e) =? -1) eqn:E; [|apply close_fd_left]. eapply fds_iff; [|apply same_left, same_skip].
  intros fd Hfd. zify_bool. split; [lia|auto].
Qed.

Lemma setup_left e : fds_left (fun fd => ~ sibling_end e 0 (cy_processes e) fd /\ fd <> fst (cy_own e)) (exporter_setup e).
Proof.
  unfold exporter_setup, add_channel_event, spawn_export_task.
  assert (Hi : same_fds identify) by (intros p; reflexivity).
  eapply fds_iff; [|
    do 7 (eapply fds_then; [apply same_left; auto using same_init_modules, same_crash_check, same_drop with process|]);
    eapply fds_then; [apply close_channels_left|apply same_left; auto 8 using same_arm with process]].
  intros fd _. cbv beta. tauto.
Qed.

(** The credentials after the drop: root becomes the configured user, with the groups of that user (or, if they could not be set, those it had). *)
Definition dropped (e : cycle_env) (c : creds) : creds :=
  match cy_core e with
  | Some ccf =>
      if cr_uid c =? 0
      then mk_creds (cc_user ccf) (cc_group ccf) (default (cr_groups c) (cy_initgroups e (cc_username ccf) (cc_group ccf)))
      else c
  | None => c
  end.

(** A part that changes nothing but the credentials. *)
Definition keeps_rest (p p' : process) : Prop :=
  pr_trace p' = pr_trace p /\ pr_kind p' = pr_kind p /\ pr_is_exporter p' = pr_is_exporter p /\ pr_control p' = pr_control p.

Lemma drop_spec e p : match drop_privileges_and_chdir e p with
  | (Some x, p') => x = Exited 2 /\ keeps_rest p p'
  | (None, p') => keeps_rest p p' /\ pr_creds p' = dropped e (pr_creds p)
  end.
Proof.
  unfold drop_privileges_and_chdir, dropped. destruct (cy_core e) as [ccf|]; [|repeat split].
  destruct (cr_uid (pr_creds p) =? 0) eqn:E0; cbn [negb]; [|repeat split].
  unfold and_then, setgid. rewrite E0. destruct (cy_setgid e); [|repeat split]. cbn [andb set_creds]. unfold initgroups. cbn [pr_creds cr_uid]. rewrite E0.
  destruct (cy_initgroups e (cc_username ccf) (cc_group ccf)) as [gs|]; cbn [set_creds pr_creds cr_uid cr_gid cr_groups default];
    unfold setuid; cbn [pr_creds cr_uid]; rewrite E0; (destruct (cy_setuid e); [|repeat split]); cbn; case_if; repeat split.
Qed.

Lemma spawn_spec e p x p' : spawn_export_task e p = (x, p') ->
  (x = Some Aborted /\ (cy_conf e = false \/ cy_pinned e = false) /\ exists acts, performs p p' acts) \/ (x = None /\ performs p p' [ASpawn]).
Proof.
  unfold spawn_export_task, and_then. destruct (cy_conf e); cbn.
  - destruct (cy_pinned e); intros [= <- <-]; [right; split; [reflexivity|split; reflexivity]|left].
    split_and!; auto. exists [ASpawn]. split; reflexivity.
  - intros [= <- <-]. left. split_and!; auto. exists []. apply performs_nil; reflexivity.
Qed.

(** The heartbeat has begun: the page is stamped and the timer is armed for the next beat. *)
Definition beating (e : cycle_env) (p : process) : Prop :=
  pr_beat p = Some (cy_msec e + HEARTBEAT_PERIOD_MS) /\ exists c, pr_control p = Some c /\ last_beat_msec c = cy_msec e.

Lemma arm_spec e p x p' : arm_heartbeat e p = (x, p') -> x = None /\ (exists acts, performs p p' acts) /\
  (cy_beat_event e = true -> pr_control p <> None -> beating e p').
Proof.
  unfold arm_heartbeat. destruct (pr_control p) as [ctrl|] eqn:Ek.
  - destruct (cy_beat_event e); intros [= <- <-]; (split; [reflexivity|]).
    + split; [exists [ABeat]; split; try reflexivity; cbn; rewrite Ek; split; discriminate|]. intros _ _. split; [reflexivity|]. eexists. split; reflexivity.
    + split; [exists []; apply performs_nil; reflexivity|discriminate].
  - intros [= <- <-]. split; [reflexivity|]. split; [exists []; apply performs_nil; reflexivity|]. contradiction.
Qed.

(** How the set-up ends, given what was performed since the drop of privileges. *)
Definition outcome_of (e : cycle_env) (x : option ending) (after : list action) (p p' : process) : Prop :=
  match x with
  | None => In ASpawn after /\ (cy_beat_event e = true -> pr_control p <> None -> beating e p')
  | Some (Exited code) => code = 2 /\ ~ In ASpawn after
  | Some Aborted => cy_conf e = false \/ cy_pinned e = false
  end.

Lemma tail_spec e p x p' : (middle e ;>> (spawn_export_task e ;>> arm_heartbeat e)) p = (x, p') ->
  exists after, performs p p' after /\ outcome_of e x after p p'.
Proof.
  unfold and_then. destruct (only_middle e p) as (a1 & P1 & Q1 & R1). destruct (middle e p) as [[x1|] p1]; cbn [fst snd] in *.
  { unfold no_respawn in R1. subst x1. intros [= <- <-]. exists a1. split; [exact P1|]. split; [reflexivity|].
    intros Hin. rewrite forallb_forall in Q1. discriminate (Q1 _ Hin). }
  destruct (spawn_export_task e p1) as [x2 p2] eqn:Es. apply spawn_spec in Es as [(-> & Hc & acts & P2)|(-> & P2)].
  { intros [= <- <-]. exists (a1 ++ acts). split; [eapply performs_trans; eassumption|exact Hc]. }
  intros Ea. apply arm_spec in Ea as (-> & (acts & P3) & Hb). exists ((a1 ++ [ASpawn]) ++ acts).
  split; [eapply performs_trans; [eapply performs_trans; eassumption|exact P3]|]. split; [rewrite !in_app_iff; cbn; auto|].
  intros He Hc. apply (Hb He). rewrite (pf_control _ _ _ P2), (pf_control _ _ _ P1). exact Hc.
Qed.

(** What is performed up to and after the drop of privileges. *)
Lemma setup_trace e p x p' : exporter_setup e p = (x, p') ->
  ngx_process (pr_kind p') 0 (pr_is_exporter p') = RExporter /\
  exists before after,
    pr_trace p' = pr_trace p ++ map (fun a => (a, pr_creds p)) before ++ map (fun a => (a, dropped e (pr_creds p))) after /\
    forallb early before = true /\ outcome_of e x after p p'.
Proof.
  rewrite setup_middle. unfold and_then at 1. cbn [identify].
  set (p0 := mk_pr NGX_PROCESS_HELPER true _ _ _ _ _ _). unfold and_then at 1.
  destruct (only_crash_check e p0) as (b1 & P1 & Q1 & R1). unfold no_respawn in R1.
  destruct (crash_check e p0) as [[x1|] p1]; cbn [fst snd] in *; destruct P1 as [K1 X1 U1 N1 T1].
  { subst x1. intros [= <- <-]. split; [rewrite K1, X1; reflexivity|]. exists b1, []. rewrite T1, app_nil_r.
    split_and!; auto. split; auto. }
  unfold and_then at 1. cbn [does]. set (p2 := mk_pr (pr_kind p1) _ _ _ _ _ _ _).
  assert (T2 : pr_trace p2 = pr_trace p ++ map (fun a => (a, pr_creds p)) (b1 ++ [ASignals])).
  { cbn. rewrite T1, U1, map_app, app_assoc. reflexivity. }
  assert (Hb : forallb early (b1 ++ [ASignals]) = true) by (rewrite forallb_app, Q1; reflexivity).
  unfold and_then at 1. pose proof (drop_spec e p2) as D. destruct (drop_privileges_and_chdir e p2) as [[x3|] p3].
  { destruct D as (-> & T3 & K3 & X3 & _). intros [= <- <-]. split; [rewrite K3, X3; cbn; rewrite K1, X1; reflexivity|].
    exists (b1 ++ [ASignals]), []. rewrite T3, T2, app_nil_r. split_and!; auto. split; auto. }
  destruct D as ((T3 & K3 & X3 & N3) & C3). change (pr_creds p2) with (pr_creds p1) in C3. rewrite U1 in C3. change (pr_creds p0) with (pr_creds p) in C3.
  intros Ht. apply tail_spec in Ht as (after & [K4 X4 U4 N4 T4] & Ho). split; [rewrite K4, X4, K3, X3; cbn; rewrite K1, X1; reflexivity|].
  exists (b1 ++ [ASignals]), after. rewrite T4, T3, T2, C3, app_assoc. split_and!; auto.
  destruct x as [[code|]|]; try exact Ho. destruct Ho as [Hs Hbt]. split; [exact Hs|]. intros He Hc. apply (Hbt He).
  rewrite N3. change (pr_control p2) with (pr_control p1). rewrite N1. exact Hc.
Qed.

(** C39 (safety). The exporter never works as root.  Once forked it identifies itself as the exporter whatever
    happens next.  Started as root, every module hook, the channel and the export task run
    under the configured user and group, with the groups of that user (those of the master only if [initgroups] fails, which is not fatal); only
    the crash backoff and the installation of the
    signal handlers come before.  A failure on the way exits with 2, which disables the respawn,
    and then the export task was never started; the only aborts are a missing configuration and a task that could
    not be pinned.  An exporter that comes up has started its task; if it has the control page and could allocate the event, it has
    stamped its first heartbeat there and armed the timer of the next, one period later; and it holds, of the channel
    descriptors, no end of a sibling and not the master's end of its own, and all others.
    About: exporter_setup, identify, crash_check, drop_privileges_and_chdir, setgid, initgroups, setuid, init_modules, close_siblings, close_sibling_channels,
    add_channel_event, spawn_export_task, arm_heartbeat, ngx_process, ngx_role. *)
Theorem exporter_unprivileged e p x p' :
  pr_trace p = [] -> exporter_setup e p = (x, p') ->
  ngx_process (pr_kind p') 0 (pr_is_exporter p') = RExporter /\
  (forall ccf a c, cr_uid (pr_creds p) = 0 -> cy_core e = Some ccf -> In (a, c) (pr_trace p') -> late a = true ->
     cr_uid c = cc_user ccf /\ cr_gid c = cc_group ccf /\
     cr_groups c = match cy_initgroups e (cc_username ccf) (cc_group ccf) with Some gs => gs | None => cr_groups (pr_creds p) end) /\
  match x with
  | Some (Exited code) => code = 2 /\ forall c, ~ In (ASpawn, c) (pr_trace p')
  | Some Aborted => cy_conf e = false \/ cy_pinned e = false
  | None =>
      (exists c, In (ASpawn, c) (pr_trace p')) /\
      (cy_beat_event e = true -> pr_control p <> None ->
         pr_beat p' = Some (cy_msec e + HEARTBEAT_PERIOD_MS) /\ exists c, pr_control p' = Some c /\ last_beat_msec c = cy_msec e) /\
      forall fd, 0 <= fd -> In fd (pr_fds p') <->
        In fd (pr_fds p) /\ ~ sibling_end e 0 (cy_processes e) fd /\ fd <> fst (cy_own e)
  end.
Proof.
  intros Ht Hx. pose proof Hx as Hfd. apply setup_trace in Hx as (Hr & before & after & Htr & Hb & Ho). split; [exact Hr|].
  assert (Hin : forall a c, In (a, c) (pr_trace p') -> late a = true -> In a after /\ c = dropped e (pr_creds p)).
  { intros a c. rewrite Htr, Ht, app_nil_l, in_app_iff, !in_map_iff. intros [(b & [= <- <-] & Hi)|(b & [= <- <-] & Hi)] Hl; [|auto].
    rewrite forallb_forall in Hb. specialize (Hb _ Hi). unfold early in Hb. rewrite Hl in Hb. discriminate. }
  split.
  - intros ccf a c H0 Hc Hi Hl. destruct (Hin _ _ Hi Hl) as [_ ->]. unfold dropped. rewrite Hc, H0. cbn. auto.
  - destruct x as [[code|]|]; [| exact Ho|].
    + destruct Ho as [-> Hn]. split; [reflexivity|]. intros c Hi. destruct (Hin _ _ Hi eq_refl) as (Hi' & _). contradiction.
    + destruct Ho as [Hs Hbt]. split; [|split; [exact Hbt|exact (setup_left e p p' Hfd)]].
      eexists. rewrite Htr, !in_app_iff. right. right. apply in_map_iff. exists ASpawn. split; [reflexivity|exact Hs].
Qed.

Definition sample_core : core_conf := mk_cc $"www" 33 34 $"/srv" 4000.
Definition sample_cycle : cycle_env :=
  mk_cyc 1000 77 (Some sample_core) true (fun user g => if bool_decide (user = $"www") then Some [g; 100] else None) true true
    [Some 0; None; Some 0] [(10, 20, 21); (11, 22, 23); (-1, 24, 25)] 1 (22, 23) 0 true true true.
Definition forked : process :=
  mk_pr NGX_PROCESS_MASTER false (mk_creds 0 0 [0]) [20; 21; 22; 23] (Some (mk_control 1 0 0 0 4 0)) 0 None [].

Lemma exporter_unprivileged_witness :
  exists p', exporter_setup sample_cycle forked = (None, p') /\ pr_fds p' = [20; 23] /\ pr_beat p' = Some 1077 /\
    In (AInit 2, mk_creds 33 34 [34; 100]) (pr_trace p') /\ In 23 (pr_fds p') /\
    (forall a c, In (a, c) (pr_trace p') -> late a = true -> cr_uid c = 33 /\ cr_gid c = 34 /\ cr_groups c = [34; 100]).
Proof.
  destruct (exporter_setup sample_cycle forked) as [x p'] eqn:E.
  pose proof (exporter_unprivileged sample_cycle forked x p' eq_refl E) as (_ & Hc & _).
  exists p'. vm_compute in E. injection E as <- <-. split; [reflexivity|]. split; [reflexivity|]. split; [reflexivity|]. split; [cbn; tauto|].
  split; [cbn; tauto|]. intros a c. exact (Hc sample_core a c eq_refl eq_refl).
Defined.

(** ** The event loop ends *)

(** Turns of the loop while nobody has asked it to stop. *)
Definition loop_run (turns : list turn) (s : loop_state) : loop_state :=
  foldl (fun s t => process_events t (reopen_logs s)) s turns.

Definition elapsed (turns : list turn) : Z := zsum (map tn_ms turns).

Lemma dispatch_now command fd s : ls_now (dispatch_command command fd s) = ls_now s /\ ls_done (dispatch_command command fd s) = ls_done s.
Proof. unfold dispatch_command. repeat case_if; auto. Qed.
Lemma channel_now reads : forall s, ls_now (channel_handler reads s) = ls_now s /\ ls_done (channel_handler reads s) = ls_done s.
Proof.
  induction reads as [|[| |command fd] reads IH]; intros s; cbn [channel_handler]; auto.
  destruct (IH (dispatch_command command fd s)) as [-> ->]. apply dispatch_now.
Qed.
Lemma process_events_now t s : ls_now (process_events t s) = ls_now s + tn_ms t /\ ls_done (process_events t s) = ls_done s || tn_done t.
Proof.
  unfold process_events. set (s1 := mk_ls _ _ _ _ _ _ _ _). case_if; [|auto]. destruct (channel_now (tn_channel t) s1) as [-> ->]. auto.
Qed.

(** The wait ends when the drain is done or the time is up, and not before; it lasts at most a turn too long. *)
Lemma drain_wait_spec deadline B turns : forall s, Forall (fun t => 0 <= tn_ms t <= B) turns -> ls_now s <= deadline ->
  match drain_wait deadline turns s with
  | Some s' => (ls_done s' = true \/ deadline <= ls_now s') /\ ls_now s' <= Z.max (ls_now s) (deadline + B) /\ ls_now s <= ls_now s'
  | None => ls_now s + elapsed turns < deadline /\ ls_done s = false /\ forallb (fun t => negb (tn_done t)) turns = true
  end.
Proof.
  induction turns as [|t turns IH]; intros s Hb Hd; cbn [drain_wait]; destruct (ls_done s) eqn:Ed; cbn [orb].
  1, 3: split; [auto|lia].
  - case_if; zify_bool; [split; [auto|lia]|]. unfold elapsed. cbn. split; [lia|auto].
  - case_if; zify_bool; [split; [auto|lia]|]. apply Forall_cons_iff in Hb as [Ht Hb].
    destruct (process_events_now t s) as [Hn Hdn]. rewrite Ed in Hdn. cbn [orb] in Hdn.
    destruct (Z.le_gt_cases (ls_now (process_events t s)) deadline) as [Hle|Hgt].
    + specialize (IH _ Hb Hle). destruct (drain_wait deadline turns (process_events t s)) as [s'|].
      * destruct IH as (H1 & H2 & H3). split; [exact H1|]. lia.
      * destruct IH as (H1 & H2 & H3). rewrite H2 in Hdn. cbn [forallb]. rewrite <- Hdn.
        change (elapsed (t :: turns)) with (tn_ms t + elapsed turns). split; [lia|auto].
    + assert (Ew : drain_wait deadline turns (process_events t s) = Some (process_events t s)).
      { destruct turns; cbn [drain_wait]; rewrite (proj2 (Z.leb_le deadline (ls_now (process_events t s)))) by lia; rewrite orb_true_r; reflexivity. }
      rewrite Ew. split; [right; lia|lia].
Qed.

(** Commands before the end of the channel are obeyed, the end itself closes the channel once and asks to terminate. *)
Lemma channel_end msgs rest : forall s, Forall (fun r => exists c fd, r = ChMsg c fd) msgs ->
  ls_terminate (channel_handler (msgs ++ ChError :: rest) s) = true /\ ls_channel (channel_handler (msgs ++ ChError :: rest) s) = false.
Proof.
  induction msgs as [|m msgs IH]; intros s Hm; [split; reflexivity|]. apply Forall_cons_iff in Hm as [(c & fd & ->) Hm]. apply IH, Hm.
Qed.

Lemma drain_cap_range core : match core with Some ccf => 0 <= cc_shutdown_timeout ccf | None => True end ->
  0 <= drain_cap core <= 15000 /\ (forall ccf, core = Some ccf -> 0 < cc_shutdown_timeout ccf -> drain_cap core <= cc_shutdown_timeout ccf).
Proof.
  unfold drain_cap, effective_drain_backstop, GRACEFUL_DRAIN_BACKSTOP. intros Hc.
  destruct core as [ccf|]; [|split; [cbn; lia|discriminate]]. split; [case_if; lia|]. intros ccf' [= <-] Hp. case_if; zify_bool; lia.
Qed.

Lemma quit_phase core B turns s : ls_terminate s = false -> ls_quit s = true -> 0 <= drain_cap core <= 15000 -> 0 <= B ->
  Forall (fun t => 0 <= tn_ms t <= B) turns ->
  match (fun s => (0, s)) <$> drain_wait (ls_now s + drain_cap core) turns s with
  | None => ls_terminate s = false /\
      (ls_quit s = true /\ elapsed turns < drain_cap core /\ forallb (fun t => negb (tn_done t)) turns = true \/ ls_quit s = false /\ turns = [])
  | Some (code, s') => code = 0 /\
      (ls_terminate s = true /\ s' = s \/
       ls_terminate s = false /\ ls_quit s = true /\
       (ls_done s' = true \/ ls_now s + drain_cap core <= ls_now s') /\ ls_now s <= ls_now s' <= ls_now s + drain_cap core + B)
  end.
Proof.
  intros Et Eq Hcap H0 HB. pose proof (drain_wait_spec (ls_now s + drain_cap core) B turns s HB ltac:(lia)) as Hw.
  destruct (drain_wait _ _ s) as [s'|]; cbn; destruct Hw as (H1 & H2 & H3).
  - split; [reflexivity|]. right. split_and!; auto; lia.
  - split; [exact Et|]. left. split_and!; auto. lia.
Qed.

Lemma no_turn_before (P : list turn -> Prop) ts ts' : [] = ts ++ ts' -> ts' <> [] -> P ts.
Proof. intros E Hne. symmetry in E. apply app_eq_nil in E as [_ ->]. contradiction. Qed.


