(* ===== verification/Request.v ===== *)
(** * The log phase (src/src/metric_source/instrumented.rs)

    [LogPhaseHandler]: what one finished request does to its worker's block in
    the metrics zone, to its access and span rings and to the liveness latch.
    The request is a record of what the handler reads of nginx's structures;
    a missing pointer is [None].  A worker's memory is its own block: where the
    blocks lie is the subject of ShmLayout and Finalize. *)
From S2P Require Import Prelude Ring Histogram DataModel StdText Producer AccessLog Traceparent Slots SpanRecord.
From S2P Require Import ShmLayout CertTable Endpoint Config Control Finalize Location SpanStart.

(** ** What is read *)

(** [src/src/metric_source/instrumented.rs: NGX_MSEC_SENTINEL] *)
Definition NGX_MSEC_SENTINEL : Z := u64_max.

(** [ngx_http_upstream_state_t] *)
Record upstream_state := mk_us {
  us_peer : bool;
  us_response_time : Z;
  us_header_time : Z;
  us_connect_time : Z;
  us_bytes_received : Z;
  us_bytes_sent : Z
}.

(** [struct sockaddr]: the family and, for the internet families, the port. *)
Inductive sockaddr := AfInet (port : Z) | AfInet6 (port : Z) | AfOther.

(** [ngx_connection_t] *)
Record connection := mk_conn {
  cn_sent : Z;
  cn_addr_text : list Z;
  cn_ssl : bool;
  cn_sockaddr : option sockaddr;
  cn_local_sockaddr : option (option sockaddr)   (* None: ngx_connection_local_sockaddr failed *)
}.

(** [ngx_http_request_t] in the log phase.  [lr_upstream] is [r->upstream] with the zone
    pointer of its server configuration ([0]: none). *)
Record log_request := mk_lr {
  rl_method : list Z;
  rl_status : Z;
  rl_http_version : Z;
  rl_clcf : Z;
  rl_connection : option connection;
  rl_request_length : Z;
  rl_start_sec : Z;
  rl_start_msec : Z;
  rl_upstream : option Z;
  rl_upstream_states : list upstream_state;
  rl_loc : option location_conf;
  rl_uri : list Z;
  rl_args : list Z;
  rl_header_size : Z;
  rl_content_length_n : Z;
  rl_server_name : option (list Z);
  rl_host : list Z;
  rl_headers : list (list Z * list Z);
  rl_span_ctx : option span_ctx
}.

(** nginx and the clocks, during the call. *)
Record log_env := mk_lenv {
  le_worker : Z;                                  (* ngx_worker *)
  le_now_unix_nano : Z;
  le_now_mono : Z;
  le_eval : Z -> option (list Z);                 (* ngx_http_complex_value on this request *)
  le_variable : list Z -> option (list Z);        (* ngx_http_get_variable; None: null or not found *)
  le_control : option control_shm;
  le_now_msec : Z
}.

(** ** Durations and metadata *)

(** Nanosecond clocks.
    [src/src/metric_source/instrumented.rs: LogPhaseHandler::compute_duration_us] *)
Definition compute_duration_us (e : log_env) (r : log_request) : Z :=
  match rl_span_ctx r with
  | Some ctx => u64 (Z.max 0 (le_now_mono e - cx_start_mono ctx) / 1000)
  | None =>
      let end_us := u64 (le_now_unix_nano e) / 1000 in
      let start_us := u64 (u64 (rl_start_sec r) * 1000000) +w64 u64 (u64 (rl_start_msec r) * 1000) in
      sat_sub end_us start_us
  end.

(** [src/src/metric_source/instrumented.rs: RequestMeta] *)
Record request_meta := mk_meta {
  mt_status : Z;
  mt_proto : proto_version;
  mt_base_idx : Z;
  mt_route_idx : Z;
  mt_resp_bytes : Z
}.

(** [src/src/metric_source/instrumented.rs: LogPhaseHandler::read_request_meta] *)
Definition read_request_meta (r : log_request) (amcf : main_config) : request_meta :=
  let status := u16 (rl_status r) in
  let proto := proto_from_ngx (rl_http_version r) in
  mk_meta status proto
    (combo_index (method_from_bytes (rl_method r)) (class_from_status status) proto)
    (route_idx_for_clcf amcf (rl_clcf r))
    (match rl_connection r with None => 0 | Some c => u64 (cn_sent c) end).

(** Request start in nanoseconds, millisecond precision.
    [src/src/metric_source/instrumented.rs: 551-553 LogPhaseHandler::maybe_emit_access_log] *)
Definition start_ns (r : log_request) : Z :=
  sat_add64 (Z.min u64_max (u64 (rl_start_sec r) * 1000000000)) (u64 (u64 (rl_start_msec r) * 1000000)).

(** ** Metrics *)

(** [src/src/metric_source/instrumented.rs: UpstreamSum] *)
Record upstream_sum := mk_sum {
  sm_response_ms : option Z;
  sm_header_ms : option Z;
  sm_connect_ms : option Z;
  sm_bytes_received : Z;
  sm_bytes_sent : Z
}.

(** [src/src/metric_source/instrumented.rs: accumulate] *)
Definition accumulate (acc : option Z) (raw : Z) : option Z :=
  if raw =? NGX_MSEC_SENTINEL then acc else Some (sat_add64 (default 0 acc) raw).

(** One attempt; boundary markers without a peer are skipped.
    [src/src/metric_source/instrumented.rs: 1186-1201 sum_upstream_states] *)
Definition add_attempt (s : upstream_sum) (st : upstream_state) : upstream_sum :=
  if negb (us_peer st) then s
  else mk_sum (accumulate (sm_response_ms s) (us_response_time st)) (accumulate (sm_header_ms s) (us_header_time st))
         (accumulate (sm_connect_ms s) (us_connect_time st)) (sat_add64 (sm_bytes_received s) (us_bytes_received st))
         (sat_add64 (sm_bytes_sent s) (us_bytes_sent st)).

(** [src/src/metric_source/instrumented.rs: sum_upstream_states] *)
Definition sum_upstream_states (states : list upstream_state) : option upstream_sum :=
  match states with
  | [] => None
  | _ => Some (foldl add_attempt (mk_sum None None None 0 0) states)
  end.

(** Indexing a histogram array; [None] is a panic. *)
Definition record_at (l : list exp_slot) (i v : Z) : option (list exp_slot) :=
  if (0 <=? i) && (i <? Z.of_nat (length l)) then Some (alter (fun h => exp_record h v) (Z.to_nat i) l) else None.

(** [src/src/metric_source/instrumented.rs: record_base_combo] *)
Definition record_base_combo (combos : list exp_slot) (status base_idx duration_us : Z) : option (list exp_slot) :=
  if negb (status =? 0) then record_at combos base_idx duration_us else Some combos.

(** The upstream's slot: its own, the overflow slot, or none without a zone.
    [src/src/metric_source/instrumented.rs: 372-403 LogPhaseHandler::record_request_metrics] *)
Definition record_upstream (upstreams : list exp_slot) (amcf : main_config) (r : log_request) (duration_us : Z)
    : option (list exp_slot) :=
  let zone_ptr := default 0 (rl_upstream r) in
  let upstream_idx := upstream_idx_for_zone amcf zone_ptr in
  if negb (zone_ptr =? 0) && (upstream_idx <? UPSTREAM_IDX_OTHER) then record_at upstreams upstream_idx duration_us
  else if negb (zone_ptr =? 0) then record_at upstreams UPSTREAM_IDX_OTHER duration_us
  else Some upstreams.

Definition record_opt (h : histogram) (v : option Z) : histogram :=
  match v with Some v => hist_record h v DURATION_BOUNDS_MS | None => h end.

(** The sum over the attempts, when the request went through an upstream.
    [src/src/metric_source/instrumented.rs: 419-424 LogPhaseHandler::record_request_metrics] *)
Definition request_upstream_sum (r : log_request) : option upstream_sum :=
  match rl_upstream r with Some _ => sum_upstream_states (rl_upstream_states r) | None => None end.

(** [None] is a panic on an index out of bounds.
    [src/src/metric_source/instrumented.rs: LogPhaseHandler::record_request_metrics] *)
Definition record_request_metrics (r : log_request) (amcf : main_config) (meta : request_meta) (duration_us : Z)
    (slot : worker_slots) : option worker_slots :=
  combos ← record_base_combo (request_duration_combos slot) (mt_status meta) (mt_base_idx meta) duration_us;
  routes ← record_at (route_duration_combos slot) (mt_route_idx meta) duration_us;
  ups ← record_upstream (upstream_duration_combos slot) amcf r duration_us;
  let req := hist_record (request_body_bytes slot) (u64 (rl_request_length r)) BYTES_BOUNDS in
  let resp := hist_record (response_body_bytes slot) (mt_resp_bytes meta) BYTES_BOUNDS in
  Some match request_upstream_sum r with
       | Some sum =>
           mk_slots combos routes ups req resp (record_opt (upstream_response_ms slot) (sm_response_ms sum))
             (record_opt (upstream_header_ms slot) (sm_header_ms sum)) (record_opt (upstream_connect_ms slot) (sm_connect_ms sum))
             (hist_record (upstream_bytes_received slot) (sm_bytes_received sum) BYTES_BOUNDS)
             (hist_record (upstream_bytes_sent slot) (sm_bytes_sent sum) BYTES_BOUNDS)
             (exemplar_reservoirs slot) (error_rate_counters slot)
       | None =>
           mk_slots combos routes ups req resp (upstream_response_ms slot) (upstream_header_ms slot)
             (upstream_connect_ms slot) (upstream_bytes_received slot) (upstream_bytes_sent slot)
             (exemplar_reservoirs slot) (error_rate_counters slot)
       end.

(** ** Selection *)

(** [src/src/metric_source/instrumented.rs: is_truthy] *)
Definition is_truthy (bytes : list Z) : bool :=
  negb ((blen bytes =? 0) || ((blen bytes =? 1) && (byte_at bytes 0 =? 48))).

(** [src/src/metric_source/instrumented.rs: eval_export_truthy] *)
Definition eval_export_truthy (e : log_env) (cv : Z) : bool :=
  match le_eval e cv with None => false | Some bytes => is_truthy bytes end.

(** [src/src/metric_source/instrumented.rs: LogPhaseHandler::check_export_selected] *)
Definition check_export_selected (e : log_env) (r : log_request) (amcf : main_config) : bool :=
  if negb (any_log_export_enabled amcf) then false
  else match rl_loc r with
  | Some lc =>
      match log_export_mode_of lc with
      | LogAll => true
      | LogIf => eval_export_truthy e (lc_log_export_cv lc)
      | LogOff | LogUnset => false
      end
  | None => false
  end.

(** The first [User-Agent].
    [src/src/metric_source/instrumented.rs: 509-520 LogPhaseHandler::read_request_detail] *)
Fixpoint find_user_agent (l : list (list Z * list Z)) : list Z :=
  match l with
  | [] => []
  | (k, v) :: l' => if (blen k =? 10) && eq_ignore_case k $"user-agent" then v else find_user_agent l'
  end.

(** [src/src/metric_source/instrumented.rs: LogPhaseHandler::read_request_detail] *)
Definition read_request_detail (r : log_request) (need_detail : bool) : list Z * list Z :=
  (match rl_connection r with Some c => if need_detail then cn_addr_text c else [] | None => [] end,
   if need_detail then find_user_agent (rl_headers r) else []).

(** ** Span details *)

(** Into a buffer of [MAX_SPAN_NAME] bytes.
    [src/src/metric_source/instrumented.rs: build_span_name] *)
Definition build_span_name (method route : list Z) : list Z :=
  let m := take (Z.to_nat (Z.min (blen method) MAX_SPAN_NAME)) method in
  let off := blen m in
  if (off <? MAX_SPAN_NAME) && negb (blen route =? 0) then
    let off := off + 1 in
    m ++ [32] ++ take (Z.to_nat (Z.min (MAX_SPAN_NAME - off) (blen route))) route
  else m.

(** [otel_span_name] when it is set, evaluates, and is not empty.
    [src/src/metric_source/instrumented.rs: 665-709 LogPhaseHandler::maybe_emit_span] *)
Definition span_name (e : log_env) (r : log_request) (route : list Z) : list Z :=
  let evaluated :=
    match rl_loc r with
    | Some lc => if lc_span_name_cv lc =? 0 then [] else default [] (le_eval e (lc_span_name_cv lc))
    | None => []
    end in
  if blen evaluated =? 0 then build_span_name (rl_method r) route
  else take (Z.to_nat (Z.min (blen evaluated) MAX_SPAN_NAME)) evaluated.

(** [src/src/metric_source/instrumented.rs: sockaddr_port] *)
Definition sockaddr_port (sa : sockaddr) : Z := match sa with AfInet p | AfInet6 p => p | AfOther => 0 end.

(** [src/src/metric_source/instrumented.rs: server_port] *)
Definition server_port (conn : option connection) : Z :=
  match conn with
  | None => 0
  | Some c =>
      match cn_local_sockaddr c with
      | None => 0
      | Some local => match local with None => 0 | Some sa => sockaddr_port sa end
      end
  end.

(** [src/src/metric_source/instrumented.rs: client_port] *)
Definition client_port (conn : option connection) : Z :=
  match conn with
  | None => 0
  | Some c => match cn_sockaddr c with None => 0 | Some sa => sockaddr_port sa end
  end.

(** [src/src/metric_source/instrumented.rs: realip_peer] *)
Definition realip_peer (e : log_env) (r : log_request) : list Z * Z :=
  let addr := default [] (le_variable e $"realip_remote_addr") in
  if negb (blen addr =? 0) then
    (addr, default 0 (s ← from_utf8 (default [] (le_variable e $"realip_remote_port")); parse_u16 s))
  else match rl_connection r with
  | None => ([], 0)
  | Some c => (cn_addr_text c, match cn_sockaddr c with Some sa => sockaddr_port sa | None => 0 end)
  end.

(** The pairs of [otel_span_attr], at most four.
    [src/src/metric_source/instrumented.rs: 713-727 LogPhaseHandler::maybe_emit_span] *)
Definition span_extra_attrs (r : log_request) : list (list Z * list Z) :=
  match rl_loc r with
  | Some lc => take (Z.to_nat (Z.min (Z.of_nat (length (lc_span_attrs lc))) MAX_SPAN_EXTRA_ATTRS)) (lc_span_attrs lc)
  | None => []
  end.

(** ** Emission *)

(** The worker's own memory and its liveness latch; [wm_alerts] are the
    levels logged. *)
Record worker_mem := mk_wm {
  wm_slots : worker_slots;
  wm_access : ring;
  wm_spans : ring;
  wm_latched : Z;
  wm_alerts : list Z
}.

Definition set_slots (s : worker_slots) (m : worker_mem) : worker_mem :=
  mk_wm s (wm_access m) (wm_spans m) (wm_latched m) (wm_alerts m).
Definition set_access (g : ring) (m : worker_mem) : worker_mem :=
  mk_wm (wm_slots m) g (wm_spans m) (wm_latched m) (wm_alerts m).
Definition set_spans (g : ring) (m : worker_mem) : worker_mem :=
  mk_wm (wm_slots m) (wm_access m) g (wm_latched m) (wm_alerts m).

(** A record was dropped because the ring is full. *)
Definition on_drop (e : log_env) (m : worker_mem) : worker_mem :=
  let '(latched, alert) := check_exporter_liveness_on_drop (le_control e) (le_now_msec e) (wm_latched m) in
  mk_wm (wm_slots m) (wm_access m) (wm_spans m) latched (wm_alerts m ++ if alert then [NGX_LOG_ALERT] else []).

Section handler.
(** [size_of::<ngx_slab_pool_t>()] *)
Context (data_offset : Z).

(** [src/src/metric_source/instrumented.rs: EmitCtx] *)
Record emit_ctx := mk_ectx {
  ec_r : log_request;
  ec_amcf : main_config;
  ec_meta : request_meta;
  ec_duration_us : Z;
  ec_client_addr : list Z;
  ec_user_agent : list Z
}.

Definition sampled_ctx (r : log_request) : option span_ctx :=
  match rl_span_ctx r with Some c => if cx_sampled c then Some c else None | None => None end.

(** The record of the access log's tail.
    [src/src/metric_source/instrumented.rs: 545-584 LogPhaseHandler::maybe_emit_access_log] *)
Definition access_record (x : emit_ctx) : sampled_request :=
  let r := ec_r x in
  mk_req (start_ns r) ((fun c => (cx_trace_id c, cx_span_id c)) <$> sampled_ctx r) (rl_uri r) (ec_user_agent x)
    (ec_duration_us x) (u32 (mt_base_idx (ec_meta x))) (rl_method r) (mt_status (ec_meta x))
    (u64 (rl_request_length r)) (mt_resp_bytes (ec_meta x)) (ec_client_addr x).

(** [src/src/metric_source/instrumented.rs: LogPhaseHandler::maybe_emit_access_log] *)
Definition maybe_emit_access_log (e : log_env) (x : emit_ctx) (export_selected : bool) (m : worker_mem) : worker_mem :=
  if negb export_selected then m else
  match logs_shm_base data_offset (ec_amcf x) with
  | None => m
  | Some _ =>
      let '(ok, p) := emit_access_record (mk_producer (wm_access m)) (access_record x) in
      let m := set_access (wrp_ring p) m in
      if negb ok then on_drop e m else m
  end.

(** [src/src/metric_source/instrumented.rs: 629-650 LogPhaseHandler::maybe_emit_span] *)
Definition exemplar_record (x : emit_ctx) (ctx : span_ctx) : sampled_request :=
  mk_req (start_ns (ec_r x)) (Some (cx_trace_id ctx, cx_span_id ctx)) [] [] (ec_duration_us x)
    (u32 (mt_base_idx (ec_meta x))) (rl_method (ec_r x)) (u16 (rl_status (ec_r x))) 0 0 [].

(** [None] is a panic on the reservoir's index. *)
Definition write_exemplar (i : Z) (rec : sampled_request) (s : worker_slots) : option worker_slots :=
  if (0 <=? i) && (i <? Z.of_nat (length (exemplar_reservoirs s)))
  then Some (mk_slots (request_duration_combos s) (route_duration_combos s) (upstream_duration_combos s)
         (request_body_bytes s) (response_body_bytes s) (upstream_response_ms s) (upstream_header_ms s)
         (upstream_connect_ms s) (upstream_bytes_received s) (upstream_bytes_sent s)
         (alter (fun v => reservoir_write v rec) (Z.to_nat i) (exemplar_reservoirs s)) (error_rate_counters s))
  else None.

(** [src/src/metric_source/instrumented.rs: 729-819 LogPhaseHandler::maybe_emit_span] *)
Definition span_rec (e : log_env) (x : emit_ctx) (ctx : span_ctx) : span_record :=
  let r := ec_r x in
  let meta := ec_meta x in
  let route := route_name (ec_amcf x) (mt_route_idx meta) in
  let '(peer_address, peer_port) := realip_peer e r in
  mk_sr (cx_trace_id ctx) (cx_span_id ctx) (cx_parent_span_id ctx) (cx_flags ctx)
    (cx_start_time_unix_nano ctx)
    (sat_add64 (cx_start_time_unix_nano ctx) (Z.min u64_max (ec_duration_us x * 1000)))
    (if 500 <=? mt_status meta then 2 else 0) 2
    (span_name e r route) (rl_method r) (mt_status meta) (rl_uri r) (ec_duration_us x) (proto_idx (mt_proto meta))
    (match rl_connection r with Some c => cn_ssl c | None => false end)
    (server_port (rl_connection r)) (client_port (rl_connection r)) peer_port
    (if 0 <? rl_content_length_n r then rl_content_length_n r else 0)
    (sat_sub (mt_resp_bytes meta) (u64 (rl_header_size r)))
    (rl_args r) route (ec_user_agent x)
    (match rl_server_name r with
     | Some n => if blen n =? 0 then rl_host r else n
     | None => rl_host r
     end)
    (ec_client_addr x) peer_address (span_extra_attrs r).

(** [None] is a panic.
    [src/src/metric_source/instrumented.rs: LogPhaseHandler::maybe_emit_span] *)
Definition maybe_emit_span (e : log_env) (x : emit_ctx) (m : worker_mem) : option worker_mem :=
  match sampled_ctx (ec_r x) with
  | None => Some m
  | Some ctx =>
      m ← match shm_base data_offset (ec_amcf x) with
          | Some _ => s ← write_exemplar (mt_base_idx (ec_meta x)) (exemplar_record x ctx) (wm_slots m); Some (set_slots s m)
          | None => Some m
          end;
      match spans_shm_base data_offset (ec_amcf x) with
      | None => Some m
      | Some _ =>
          let '(ok, p) := emit_span_record (mk_producer (wm_spans m)) (span_rec e x ctx) in
          let m := set_spans (wrp_ring p) m in
          Some (if negb ok then on_drop e m else m)
      end
  end.

(** The worker number, or the ALERT when it has no block in some zone.
    [src/src/metric_source/instrumented.rs: LogPhaseHandler::resolve_worker_slot] *)
Definition resolve_worker_slot (e : log_env) (amcf : main_config) : option Z :=
  if min_indexed_worker_capacity data_offset amcf <=? le_worker e then None else Some (le_worker e).

(** [NGX_OK] on every path; [None] is a panic.
    [src/src/metric_source/instrumented.rs: LogPhaseHandler::handler] *)
Definition log_phase_handler (e : log_env) (conf : option main_config) (r : log_request) (m : worker_mem) : option worker_mem :=
  match conf with
  | None => Some m
  | Some amcf =>
      match resolve_worker_slot e amcf with
      | None => Some (mk_wm (wm_slots m) (wm_access m) (wm_spans m) (wm_latched m) (wm_alerts m ++ [NGX_LOG_ALERT]))
      | Some _ =>
          let duration_us := compute_duration_us e r in
          let meta := read_request_meta r amcf in
          m ← match shm_base data_offset amcf with
              | None => Some m
              | Some _ => s ← record_request_metrics r amcf meta duration_us (wm_slots m); Some (set_slots s m)
              end;
          let export_selected := check_export_selected e r amcf in
          let span_sampled := match rl_span_ctx r with Some c => cx_sampled c | None => false end in
          let '(client_addr, user_agent_raw) := read_request_detail r (export_selected || span_sampled) in
          let ectx := mk_ectx r amcf meta duration_us client_addr user_agent_raw in
          let m := maybe_emit_access_log e ectx export_selected m in
          maybe_emit_span e ectx m
      end
  end.

End handler.

(** ** The events of a request *)

(** The arrays of a block have their declared lengths. *)
Definition slots_wf (s : worker_slots) : Prop :=
  length (request_duration_combos s) = Z.to_nat N_COMBOS /\
  length (route_duration_combos s) = Z.to_nat N_ROUTE_SLOTS /\
  length (upstream_duration_combos s) = Z.to_nat N_UPSTREAM_SLOTS /\
  length (exemplar_reservoirs s) = Z.to_nat N_COMBOS.

(** Where a request's duration is counted: (index, value) pairs per table. *)
Definition combo_events (r : log_request) (amcf : main_config) (d : Z) : list (Z * Z) :=
  let meta := read_request_meta r amcf in if mt_status meta =? 0 then [] else [(mt_base_idx meta, d)].
Definition route_events (r : log_request) (amcf : main_config) (d : Z) : list (Z * Z) :=
  [(route_idx_for_clcf amcf (rl_clcf r), d)].
Definition upstream_events (r : log_request) (amcf : main_config) (d : Z) : list (Z * Z) :=
  match rl_upstream r with
  | Some z => if z =? 0 then [] else [(upstream_idx_for_zone amcf z, d)]
  | None => []
  end.

Definition apply_event (l : list exp_slot) (ev : Z * Z) : list exp_slot :=
  alter (fun h => exp_record h (snd ev)) (Z.to_nat (fst ev)) l.
Definition apply_events (l : list exp_slot) (evs : list (Z * Z)) : list exp_slot := foldl apply_event l evs.

Definition opt_list {A} (o : option A) : list A := match o with Some a => [a] | None => [] end.
Definition record_all (bounds : list Z) (h : histogram) (vs : list Z) : histogram :=
  foldl (fun h v => hist_record h v bounds) h vs.

(** The values counted by the explicit histograms. *)
Definition upstream_values (f : upstream_sum -> list Z) (r : log_request) : list Z :=
  match request_upstream_sum r with Some s => f s | None => [] end.

(** What one request adds to a block. *)
Definition add_request (amcf : main_config) (r : log_request) (d : Z) (s : worker_slots) : worker_slots :=
  mk_slots (apply_events (request_duration_combos s) (combo_events r amcf d))
    (apply_events (route_duration_combos s) (route_events r amcf d))
    (apply_events (upstream_duration_combos s) (upstream_events r amcf d))
    (record_all BYTES_BOUNDS (request_body_bytes s) [u64 (rl_request_length r)])
    (record_all BYTES_BOUNDS (response_body_bytes s) [mt_resp_bytes (read_request_meta r amcf)])
    (record_all DURATION_BOUNDS_MS (upstream_response_ms s) (upstream_values (fun x => opt_list (sm_response_ms x)) r))
    (record_all DURATION_BOUNDS_MS (upstream_header_ms s) (upstream_values (fun x => opt_list (sm_header_ms x)) r))
    (record_all DURATION_BOUNDS_MS (upstream_connect_ms s) (upstream_values (fun x => opt_list (sm_connect_ms x)) r))
    (record_all BYTES_BOUNDS (upstream_bytes_received s) (upstream_values (fun x => [sm_bytes_received x]) r))
    (record_all BYTES_BOUNDS (upstream_bytes_sent s) (upstream_values (fun x => [sm_bytes_sent x]) r))
    (exemplar_reservoirs s) (error_rate_counters s).

(** The configuration's tables, as the finalisation leaves them. *)
Definition tables_ok (c : main_config) : Prop := routes_ok c /\ upstreams_ok c.

Lemma route_idx_range c p : routes_ok c -> 0 <= route_idx_for_clcf c p < N_ROUTE_SLOTS.
Proof.
  intros Hok. pose proof Hok as (_ & Hn & _). unfold route_idx_for_clcf, routes, N_ROUTE_SLOTS, ROUTE_CAP in *. case_if; [lia|].
  destruct (find_in_table 64 ROUTE_NAME_MAX _ _ p 64 Hok) as [(k & nm & -> & H & _)|[-> _]]; lia.
Qed.

Lemma upstream_idx_range c p : upstreams_ok c -> 0 <= upstream_idx_for_zone c p <= UPSTREAM_CAP.
Proof.
  intros Hok. pose proof Hok as (_ & Hn & _).
  unfold upstream_idx_for_zone, upstreams, UPSTREAM_IDX_OTHER, UPSTREAM_CAP in *. case_if; [lia|].
  destruct (find_in_table 32 UPSTREAM_NAME_MAX _ _ p 32 Hok) as [(k & nm & -> & H & _)|[-> _]]; lia.
Qed.

Lemma combo_range m c p : 0 <= combo_index m c p < N_COMBOS.
Proof. destruct m, c, p; vm_compute; intuition congruence. Qed.

Lemma record_at_ok l i v n : length l = Z.to_nat n -> 0 <= i < n -> record_at l i v = Some (apply_event l (i, v)).
Proof.
  intros Hl Hi. unfold record_at. rewrite Hl, Z2Nat.id by lia.
  rewrite (proj2 (Z.leb_le 0 i)), (proj2 (Z.ltb_lt i n)) by lia. reflexivity.
Qed.

Lemma length_apply_events evs : forall l, length (apply_events l evs) = length l.
Proof.
  induction evs as [|ev evs IH]; intros l; cbn; [reflexivity|]. fold (apply_events (apply_event l ev) evs).
  rewrite IH. unfold apply_event. apply length_alter.
Qed.

Lemma record_upstream_ok c r d l : upstreams_ok c -> length l = Z.to_nat N_UPSTREAM_SLOTS ->
  record_upstream l c r d = Some (apply_events l (upstream_events r c d)).
Proof.
  intros Hc Hl. unfold record_upstream, upstream_events. destruct (rl_upstream r) as [z|]; [|reflexivity]. change (default 0 (Some z)) with z.
  destruct (z =? 0) eqn:Ez; cbn [negb andb]; [reflexivity|]. pose proof (upstream_idx_range c z Hc) as Hi.
  unfold UPSTREAM_IDX_OTHER, N_UPSTREAM_SLOTS in *. case_if.
  - apply (record_at_ok _ _ _ (UPSTREAM_CAP + 1)); [exact Hl|lia].
  - replace (upstream_idx_for_zone c z) with UPSTREAM_CAP by lia.
    apply (record_at_ok _ _ _ (UPSTREAM_CAP + 1)); [exact Hl|unfold UPSTREAM_CAP; lia].
Qed.

(** The code does exactly what the events say, and never panics. *)
Lemma record_metrics_spec c r d s : tables_ok c -> slots_wf s ->
  record_request_metrics r c (read_request_meta r c) d s = Some (add_request c r d s) /\ slots_wf (add_request c r d s).
Proof.
  intros [Hr Hu] (L1 & L2 & L3 & L4). split.
  2:{ unfold slots_wf, add_request. cbn [request_duration_combos route_duration_combos upstream_duration_combos exemplar_reservoirs].
      rewrite !length_apply_events. auto. }
  unfold record_request_metrics, record_base_combo, add_request, combo_events.
  pose proof (combo_range (method_from_bytes (rl_method r)) (class_from_status (u16 (rl_status r))) (proto_from_ngx (rl_http_version r))) as Hb.
  replace (if negb (mt_status (read_request_meta r c) =? 0) then _ else _)
    with (Some (apply_events (request_duration_combos s)
      (if mt_status (read_request_meta r c) =? 0 then [] else [(mt_base_idx (read_request_meta r c), d)]))).
  2:{ destruct (mt_status (read_request_meta r c) =? 0); cbn [negb]; [reflexivity|].
      rewrite (record_at_ok _ _ _ N_COMBOS) by (assumption || exact Hb). reflexivity. }
  cbn [mbind option_bind]. rewrite (record_at_ok _ _ _ N_ROUTE_SLOTS L2) by apply (route_idx_range c _ Hr).
  cbn [mbind option_bind]. rewrite (record_upstream_ok c r d _ Hu L3). cbn [mbind option_bind].
  unfold upstream_values. destruct (request_upstream_sum r) as [x|]; [|reflexivity].
  destruct x as [[a|] [b|] [k|] br bs]; reflexivity.
Qed.

(** ** The three signals of a request *)

(** Field ranges of nginx's and the module's types. *)
Record request_wf (r : log_request) : Prop := {
  rw_ctx : match rl_span_ctx r with
           | Some c => blen (cx_trace_id c) = 16 /\ blen (cx_span_id c) = 8 /\ blen (cx_parent_span_id c) = 8 /\
                       in_u 32 (cx_flags c) /\ in_u 64 (cx_start_time_unix_nano c)
           | None => True
           end;
  rw_ports : match rl_connection r with
             | Some c => (forall sa, cn_sockaddr c = Some sa -> in_u 16 (sockaddr_port sa)) /\
                         (forall sa, cn_local_sockaddr c = Some (Some sa) -> in_u 16 (sockaddr_port sa))
             | None => True
             end;
  rw_body : rl_content_length_n r <= i64_max
}.

Section signals.
Context (data_offset : Z) (e : log_env) (c : main_config) (r : log_request).

Definition emit_of : emit_ctx :=
  let d := read_request_detail r (check_export_selected e r c || match rl_span_ctx r with Some x => cx_sampled x | None => false end) in
  mk_ectx r c (read_request_meta r c) (compute_duration_us e r) (fst d) (snd d).

(** The records the request offers to its rings. *)
Definition offered_access : option sampled_request :=
  if check_export_selected e r c then (fun _ => access_record emit_of) <$> logs_shm_base data_offset c else None.
Definition offered_span : option span_record :=
  match sampled_ctx r with
  | Some x => (fun _ => span_rec e emit_of x) <$> spans_shm_base data_offset c
  | None => None
  end.

(** A ring that is offered a record: it is appended, or the drop is counted. *)
Definition offered {A} (bytes : A -> list Z) (rec : option A) (g : ring) (q : list (list Z)) (g' : ring) : Prop :=
  match rec with
  | None => g' = g
  | Some a => exists ok, push_spec g q (bytes a) (ok, g')
  end.

(** The block after the request: its counters, and the exemplar of a sampled one. *)
Definition block_after (s s' : worker_slots) : Prop :=
  match shm_base data_offset c with
  | None => s' = s
  | Some _ =>
      let s1 := add_request c r (compute_duration_us e r) s in
      match sampled_ctx r with
      | Some x => write_exemplar (mt_base_idx (read_request_meta r c)) (exemplar_record emit_of x) s1 = Some s'
      | None => s' = s1
      end
  end.

Lemma duration_range : in_u 64 (compute_duration_us e r).
Proof.
  unfold compute_duration_us. destruct (rl_span_ctx r); [apply wrap_range; lia|].
  pose proof (wrap_range 64 (le_now_unix_nano e) ltac:(lia)) as H. unfold in_u, sat_sub in *.
  pose proof (wrap_range 64 (u64 (u64 (rl_start_sec r) * 1000000) + u64 (u64 (rl_start_msec r) * 1000)) ltac:(lia)) as H2. unfold in_u in H2.
  assert (u64 (le_now_unix_nano e) / 1000 <= u64 (le_now_unix_nano e)) by zdiv. lia.
Qed.

Lemma sat_add_range a b : 0 <= a -> 0 <= b -> in_u 64 (sat_add64 a b).
Proof. intros. unfold sat_add64, in_u, u64_max. lia. Qed.

Lemma start_ns_range : in_u 64 (start_ns r).
Proof.
  apply sat_add_range; [|apply (wrap_range 64); lia].
  pose proof (wrap_range 64 (rl_start_sec r) ltac:(lia)) as H. unfold in_u, u64_max in *. lia.
Qed.

Lemma meta_range : in_u 16 (mt_status (read_request_meta r c)) /\ in_u 64 (mt_resp_bytes (read_request_meta r c)).
Proof.
  cbn [read_request_meta mt_status mt_resp_bytes]. split; [apply wrap_range; lia|].
  destruct (rl_connection r); [apply wrap_range; lia|unfold in_u; lia].
Qed.

Lemma sampled_ctx_Some x : sampled_ctx r = Some x -> rl_span_ctx r = Some x /\ cx_sampled x = true.
Proof. unfold sampled_ctx. destruct (rl_span_ctx r) as [y|]; [|discriminate]. destruct (cx_sampled y) eqn:E; [intros [= ->]; auto|discriminate]. Qed.

Lemma access_record_wf (Hr : request_wf r) : req_wf (access_record emit_of).
Proof.
  destruct meta_range as [H1 H2]. split; cbn; try apply start_ns_range; try apply duration_range; try assumption;
    try (apply wrap_range; lia).
  destruct (sampled_ctx r) as [x|] eqn:E; [|exact I]. apply sampled_ctx_Some in E as [E _].
  pose proof (rw_ctx r Hr) as H. rewrite E in H. cbn. tauto.
Qed.

Lemma parse_u16_range s v : parse_u16 s = Some v -> in_u 16 v.
Proof.
  unfold parse_u16, parse_unsigned. intros H.
  assert (Hd : forall d, digits_val 65535 0 d = Some v -> in_u 16 v).
  { intros d Hd. apply digits_val_spec in Hd as (H1 & -> & H2); [|lia]. split; [|unfold in_u; lia].
    clear - H1. rewrite <- (Z.add_0_l 0). assert (Hg : forall a, 0 <= a -> 0 <= foldl (fun a b => a * 10 + (b - 48)) a d); [|apply Hg; lia].
    induction d as [|x d IH]; intros a Ha; cbn in *; [lia|]. apply andb_true_iff in H1 as [H0 H1]. apply IH; [exact H1|].
    unfold is_digit in H0. zify_bool. lia. }
  repeat (case_match; try discriminate); eauto.
Qed.

Lemma port_ranges (Hr : request_wf r) :
  in_u 16 (server_port (rl_connection r)) /\ in_u 16 (client_port (rl_connection r)) /\ in_u 16 (snd (realip_peer e r)).
Proof.
  pose proof (rw_ports r Hr) as H. assert (H0 : in_u 16 0) by (unfold in_u; lia).
  unfold server_port, client_port, realip_peer. split_and!.
  - destruct (rl_connection r) as [k|]; [|exact H0]. destruct H as [_ H]. destruct (cn_local_sockaddr k) as [[sa|]|]; auto.
  - destruct (rl_connection r) as [k|]; [|exact H0]. destruct H as [H _]. destruct (cn_sockaddr k) as [sa|]; auto.
  - destruct (negb (blen (default [] (le_variable e $"realip_remote_addr")) =? 0)); cbn [snd].
    + destruct (from_utf8 _) as [s|]; [|exact H0]. cbn. destruct (parse_u16 s) eqn:E; [exact (parse_u16_range _ _ E)|exact H0].
    + destruct (rl_connection r) as [k|]; [|exact H0]. destruct H as [H _]. cbn. destruct (cn_sockaddr k) as [sa|]; auto.
Qed.

Lemma span_rec_wf (Hr : request_wf r) x : sampled_ctx r = Some x -> span_wf (span_rec e emit_of x).
Proof.
  intros Hx. apply sampled_ctx_Some in Hx as [Hx _]. pose proof (rw_ctx r Hr) as H. rewrite Hx in H. destruct H as (H1 & H2 & H3 & H4 & H5).
  destruct meta_range as [M1 M2]. destruct (port_ranges Hr) as (P1 & P2 & P3). pose proof duration_range as D.
  unfold span_rec. cbn [ec_r emit_of]. destruct (realip_peer e r) as [pa pp]. cbn [snd] in P3.
  split; cbn [sr_trace_id sr_span_id sr_parent_span_id sr_flags sr_start sr_end sr_http_status sr_duration_us sr_server_port
    sr_client_port sr_peer_port sr_req_body_size sr_resp_body_size ec_meta ec_duration_us emit_of]; auto.
  - apply sat_add_range; unfold in_u, u64_max in *; lia.
  - pose proof (rw_body r Hr) as Hb. unfold in_u, i64_max in *. case_if; lia.
  - unfold sat_sub, in_u in *. pose proof (wrap_range 64 (rl_header_size r) ltac:(lia)) as Hh. unfold in_u in Hh. lia.
Qed.

Lemma on_drop_frame m : wm_slots (on_drop e m) = wm_slots m /\ wm_access (on_drop e m) = wm_access m /\ wm_spans (on_drop e m) = wm_spans m.
Proof. unfold on_drop. destruct (check_exporter_liveness_on_drop _ _ _). auto. Qed.

Lemma write_exemplar_ok s rec : slots_wf s -> exists s', write_exemplar (mt_base_idx (read_request_meta r c)) rec s = Some s' /\ slots_wf s'.
Proof.
  intros (L1 & L2 & L3 & L4). unfold write_exemplar.
  pose proof (combo_range (method_from_bytes (rl_method r)) (class_from_status (u16 (rl_status r))) (proto_from_ngx (rl_http_version r))) as Hb.
  cbn [read_request_meta mt_base_idx] in *. rewrite L4, Z2Nat.id by (vm_compute; discriminate).
  rewrite (proj2 (Z.leb_le 0 _)), (proj2 (Z.ltb_lt _ N_COMBOS)) by lia. cbn [andb]. eexists. split; [reflexivity|].
  unfold slots_wf. cbn. rewrite length_alter. auto.
Qed.

(** The span's path. *)
Lemma span_path m q : slots_wf (wm_slots m) -> ring_ok (wm_spans m) q ->
  write_offset (wm_spans m) + (4 + MAX_SPAN_RECORD) <= u64_max -> request_wf r ->
  exists m', maybe_emit_span data_offset e emit_of m = Some m' /\
    offered span_bytes offered_span (wm_spans m) q (wm_spans m') /\ wm_access m' = wm_access m /\
    match shm_base data_offset c, sampled_ctx r with
    | Some _, Some x => write_exemplar (mt_base_idx (read_request_meta r c)) (exemplar_record emit_of x) (wm_slots m) = Some (wm_slots m')
    | _, _ => wm_slots m' = wm_slots m
    end.
Proof.
  intros Hs Hq Hw Hr. unfold maybe_emit_span, offered_span. cbn [ec_r ec_amcf ec_meta emit_of].
  destruct (sampled_ctx r) as [x|] eqn:Ex; [|exists m; split_and!; try reflexivity; destruct (shm_base _ _); reflexivity].
  set (m0 := match shm_base data_offset c with Some _ => _ | None => _ end).
  assert (Hm0 : exists m1, m0 = Some m1 /\ wm_spans m1 = wm_spans m /\ wm_access m1 = wm_access m /\
    match shm_base data_offset c with
    | Some _ => write_exemplar (mt_base_idx (read_request_meta r c)) (exemplar_record emit_of x) (wm_slots m) = Some (wm_slots m1)
    | None => wm_slots m1 = wm_slots m end).
  { unfold m0. destruct (shm_base data_offset c); [|exists m; auto].
    destruct (write_exemplar_ok (wm_slots m) (exemplar_record emit_of x) Hs) as (s' & E & _). rewrite E.
    exists (set_slots s' m). split_and!; reflexivity. }
  destruct Hm0 as (m1 & -> & E1 & E2 & E3). cbn [mbind option_bind].
  destruct (spans_shm_base data_offset c); cbn [fmap option_fmap option_map].
  2:{ exists m1. split_and!; [reflexivity|exact E1|exact E2|]. destruct (shm_base data_offset c); exact E3. }
  unfold emit_span_record. cbn [lp_push ring_log_producer]. unfold worker_ring_push. cbn [wrp_ring]. rewrite E1.
  pose proof (span_record_bound _ (span_rec_wf Hr x Ex)) as Hb.
  pose proof (push_refines_queue (wm_spans m) q (span_bytes (span_rec e emit_of x)) Hq ltac:(lia)) as Hp.
  destruct (push (wm_spans m) _) as [ok g]. cbn [wrp_ring]. eexists. split; [reflexivity|].
  destruct ok; cbn [negb].
  - split_and!; [exists true; exact Hp|exact E2|]. destruct (shm_base data_offset c); exact E3.
  - destruct (on_drop_frame (set_spans g m1)) as (-> & -> & ->). split_and!; [exists false; exact Hp|exact E2|].
    destruct (shm_base data_offset c); exact E3.
Qed.

(** The access log's path. *)
Lemma access_path m q : ring_ok (wm_access m) q -> write_offset (wm_access m) + (4 + MAX_ACCESS_RECORD) <= u64_max ->
  request_wf r ->
  let m' := maybe_emit_access_log data_offset e emit_of (check_export_selected e r c) m in
  offered access_bytes offered_access (wm_access m) q (wm_access m') /\
  wm_slots m' = wm_slots m /\ wm_spans m' = wm_spans m.
Proof.
  intros Hq Hw Hr. unfold maybe_emit_access_log, offered_access. cbn [ec_amcf emit_of].
  destruct (check_export_selected e r c); cbn [negb]; [|split_and!; reflexivity].
  destruct (logs_shm_base data_offset c); cbn [fmap option_fmap option_map]; [|split_and!; reflexivity].
  unfold offered, emit_access_record. cbn [lp_push ring_log_producer]. unfold worker_ring_push. cbn [wrp_ring].
  pose proof (access_record_bound _ (access_record_wf Hr)) as Hb.
  pose proof (push_refines_queue (wm_access m) q (access_bytes (access_record emit_of)) Hq ltac:(lia)) as Hp.
  destruct (push (wm_access m) _) as [ok g]. cbn [wrp_ring]. destruct ok; cbn [negb].
  - split; [exists true; exact Hp|]. auto.
  - destruct (on_drop_frame (set_access g m)) as (-> & -> & ->). split; [exists false; exact Hp|]. auto.
Qed.
End signals.


(** The counters do not depend on the rings. *)
Lemma handler_block data_offset e c r m :
  tables_ok c -> slots_wf (wm_slots m) -> 0 <= le_worker e < min_indexed_worker_capacity data_offset c ->
  exists m', log_phase_handler data_offset e (Some c) r m = Some m' /\
    block_after data_offset e c r (wm_slots m) (wm_slots m') /\ slots_wf (wm_slots m').
Proof.
  intros Ht Hs Hw. unfold log_phase_handler, resolve_worker_slot. rewrite (proj2 (Z.leb_gt _ _)) by lia.
  destruct (record_metrics_spec c r (compute_duration_us e r) (wm_slots m) Ht Hs) as [Em Hs1].
  rewrite (surjective_pairing (read_request_detail r _)). fold (emit_of e c r). rewrite Em. cbn [mbind option_bind].
  set (s1 := match shm_base data_offset c with Some _ => add_request c r (compute_duration_us e r) (wm_slots m) | None => wm_slots m end).
  replace (match shm_base data_offset c with Some _ => _ | None => _ end) with (Some (set_slots s1 m))
    by (unfold s1; destruct (shm_base data_offset c); [reflexivity|destruct m; reflexivity]).
  assert (Hs1' : slots_wf s1) by (unfold s1; destruct (shm_base data_offset c); assumption).
  cbn [mbind option_bind]. set (m1 := maybe_emit_access_log _ _ _ _ _).
  assert (E1 : wm_slots m1 = s1).
  { unfold m1, maybe_emit_access_log. repeat case_match; try reflexivity; rewrite ?(proj1 (on_drop_frame e _)); reflexivity. }
  clearbody m1. unfold maybe_emit_span, block_after. cbn [ec_r ec_amcf ec_meta emit_of].
  destruct (sampled_ctx r) as [x|]; [|exists m1; rewrite E1; split_and!; auto; unfold s1; destruct (shm_base _ _); reflexivity].
  destruct (write_exemplar_ok c r s1 (exemplar_record (emit_of e c r) x) Hs1') as (s2 & E2 & Hw2).
  set (s3 := match shm_base data_offset c with Some _ => s2 | None => s1 end).
  replace (match shm_base data_offset c with Some _ => _ | None => _ end) with (Some (set_slots s3 m1))
    by (unfold s3; rewrite E1, E2; destruct (shm_base data_offset c); [reflexivity|destruct m1; cbn in E1; subst; reflexivity]).
  cbn [mbind option_bind].
  assert (H3 : slots_wf s3 /\ match shm_base data_offset c with Some _ =>
     write_exemplar (mt_base_idx (read_request_meta r c)) (exemplar_record (emit_of e c r) x) (add_request c r (compute_duration_us e r) (wm_slots m)) = Some s3
     | None => s3 = wm_slots m end) by (unfold s3, s1 in *; destruct (shm_base data_offset c); auto).
  destruct (spans_shm_base data_offset c); [|exists (set_slots s3 m1); split_and!; try reflexivity; apply H3].
  destruct (emit_span_record _ _) as [ok p]. eexists. split; [reflexivity|].
  destruct ok; cbn [negb]; rewrite ?(proj1 (on_drop_frame e _)); destruct H3; auto.
Qed.

(** ** A sample *)

(** A block as the zone's initialisation leaves it. *)
Definition zero_block : worker_slots :=
  let exp n := replicate (Z.to_nat n) exp_zero in
  let bytes := hist_zero (Z.to_nat N_BYTES_BUCKETS) in
  let dur := hist_zero (Z.to_nat N_DURATION_BUCKETS) in
  mk_slots (exp N_COMBOS) (exp N_ROUTE_SLOTS) (exp N_UPSTREAM_SLOTS) bytes bytes dur dur dur bytes bytes
    (replicate (Z.to_nat N_COMBOS) (mk_reservoir 0 [zero_entry; zero_entry])) (replicate 5 0).

Definition served_conf : main_config :=
  set_any_log_export true (set_shm_zone (Some (mk_zone 4096 (zone_size_for 200 2)))
    (set_logs_shm_zone (Some (mk_zone 8192 (logs_zone_size_for 200 2 DEFAULT_LOG_RING_CAP)))
       (set_spans_shm_zone (Some (mk_zone 16384 (spans_zone_size_for 200 2 DEFAULT_SPAN_RING_CAP))) main_default))).

Definition served_env : log_env :=
  mk_lenv 1 (1700000001 * 1000000000) 5000000 (fun _ => None) (fun _ => None) None 0.

Definition served_request : log_request :=
  mk_lr $"GET" 200 1001 77 (Some (mk_conn 512 $"10.0.0.1" false (Some (AfInet 4242)) (Some (Some (AfInet 80))))) 120
    1700000000 5 (Some 99) [mk_us true 12 3 1 400 90] (Some (set_log_export_mode LogAll loc_default))
    $"/index.html" [] 180 (-1) None $"example.com" [($"User-Agent", $"curl")]
    (Some (mk_ctx (replicate 16 7) (replicate 8 9) (replicate 8 0) 1 (1700000000 * 1000000000) 1000000 true)).

Lemma served_conf_ok : tables_ok served_conf.
Proof.
  split; [exact (empty_names_ok ROUTE_CAP ROUTE_NAME_MAX ltac:(vm_compute; discriminate))
         |exact (empty_names_ok UPSTREAM_CAP UPSTREAM_NAME_MAX ltac:(vm_compute; discriminate))].
Qed.

Lemma zero_block_wf : slots_wf zero_block.
Proof. unfold slots_wf, zero_block. cbn [request_duration_combos route_duration_combos upstream_duration_combos exemplar_reservoirs].
  rewrite !length_replicate. auto. Qed.

