(* ===== verification/Aggregate.v ===== *)
(** * The instrumented metric source (src/src/metric_source/instrumented.rs)

    [InstrumentedSource]: the exporter sums the workers' blocks and builds the
    request metrics.  The blocks are read with no concurrent writer; a worker
    that records during the read is the subject of Histogram.  [+=] on [u64] wraps, as in a
    release build. *)
From S2P Require Import Prelude Ring Histogram DataModel StdText Producer AccessLog Traceparent Slots SpanRecord.
From S2P Require Import ShmLayout CertTable Endpoint Config Control Finalize Location SpanStart Request.

(** ** Sums *)

(** Buckets, zero count, sum and count. *)
Abbreviation exp_agg := (list Z * Z * Z * Z)%type.
(** Buckets, sum and count. *)
Abbreviation hist_agg := (list Z * Z * Z)%type.

(** [for (a, b) in acc.iter_mut().zip(counts)]: entries without a partner stay. *)
Fixpoint add_counts (acc counts : list Z) : list Z :=
  match acc, counts with
  | a :: acc, b :: counts => (a +w64 b) :: add_counts acc counts
  | acc, _ => acc
  end.

(** [src/src/metric_source/instrumented.rs: 1424-1431 InstrumentedSource::aggregate_worker_slots] *)
Definition add_exp (acc snap : exp_agg) : exp_agg :=
  let '(b, z, s, n) := acc in let '(bc, zc, bs, bcount) := snap in
  (add_counts b bc, z +w64 zc, s +w64 bs, n +w64 bcount).

(** [src/src/metric_source/instrumented.rs: add_histogram] *)
Definition add_histogram (acc snap : hist_agg) : hist_agg :=
  let '(b, s, n) := acc in let '(counts, sum, count) := snap in
  (add_counts b counts, s +w64 sum, n +w64 count).

(** [src/src/metric_source/instrumented.rs: WorkerAgg] *)
Record worker_agg := mk_agg {
  combo_agg : list exp_agg;
  route_agg : list exp_agg;
  upstream_agg : list exp_agg;
  req_bytes : hist_agg;
  resp_bytes : hist_agg;
  up_resp : hist_agg;
  up_hdr : hist_agg;
  up_conn : hist_agg;
  up_bytes : hist_agg;
  up_bytes_sent : hist_agg
}.

Definition exp_none : exp_agg := (replicate N_EXP_BUCKETS 0, 0, 0, 0).
Definition hist_none (n : Z) : hist_agg := (replicate (Z.to_nat n) 0, 0, 0).

(** [src/src/metric_source/instrumented.rs: 1398-1410 InstrumentedSource::aggregate_worker_slots] *)
Definition agg_zero : worker_agg :=
  let exp n := replicate (Z.to_nat n) exp_none in
  mk_agg (exp N_COMBOS) (exp N_ROUTE_SLOTS) (exp N_UPSTREAM_SLOTS) (hist_none N_BYTES_BUCKETS) (hist_none N_BYTES_BUCKETS)
    (hist_none N_DURATION_BUCKETS) (hist_none N_DURATION_BUCKETS) (hist_none N_DURATION_BUCKETS)
    (hist_none N_BYTES_BUCKETS) (hist_none N_BYTES_BUCKETS).

(** One worker's counters.
    [src/src/metric_source/instrumented.rs: 1423-1471 InstrumentedSource::aggregate_worker_slots] *)
Definition add_block (a : worker_agg) (s : worker_slots) : worker_agg :=
  let sum (acc : list exp_agg) (hs : list exp_slot) := zip_with (fun x h => add_exp x (exp_snapshot h)) acc hs in
  mk_agg (sum (combo_agg a) (request_duration_combos s)) (sum (route_agg a) (route_duration_combos s))
    (sum (upstream_agg a) (upstream_duration_combos s))
    (add_histogram (req_bytes a) (hist_snapshot (request_body_bytes s)))
    (add_histogram (resp_bytes a) (hist_snapshot (response_body_bytes s)))
    (add_histogram (up_resp a) (hist_snapshot (upstream_response_ms s)))
    (add_histogram (up_hdr a) (hist_snapshot (upstream_header_ms s)))
    (add_histogram (up_conn a) (hist_snapshot (upstream_connect_ms s)))
    (add_histogram (up_bytes a) (hist_snapshot (upstream_bytes_received s)))
    (add_histogram (up_bytes_sent a) (hist_snapshot (upstream_bytes_sent s))).

(** [src/src/metric_source/instrumented.rs: us_to_seconds] *)
Definition us_to_seconds (value_us : Z) : f64 := F64 value_us 1000000.
(** [src/src/metric_source/instrumented.rs: ms_to_s_hist_sum] *)
Definition ms_to_s_hist_sum (sum_ms : Z) : f64 := F64 sum_ms 1000.

(** [src/src/metric_source/instrumented.rs: 1484-1499 InstrumentedSource::aggregate_worker_slots] *)
Definition exemplar_of (snap : exemplar_snapshot) : Z * exemplar :=
  (sn_combo_idx snap,
   mk_exemplar (us_to_seconds (sn_value_us snap)) (sn_ts_unix_nano snap) (sn_trace_id snap) (sn_span_id snap)
     (sn_has_trace snap) []).

(** One worker's exemplars, in reservoir order. *)
Definition block_exemplars (s : worker_slots) : list (Z * exemplar) :=
  concat (map (fun v => map exemplar_of (reservoir_snapshot v)) (exemplar_reservoirs s)).

(** Every reservoir is reset after its snapshot.
    [src/src/metric_source/instrumented.rs: 1501-1501 InstrumentedSource::aggregate_worker_slots] *)
Definition reset_block (s : worker_slots) : worker_slots :=
  mk_slots (request_duration_combos s) (route_duration_combos s) (upstream_duration_combos s)
    (request_body_bytes s) (response_body_bytes s) (upstream_response_ms s) (upstream_header_ms s)
    (upstream_connect_ms s) (upstream_bytes_received s) (upstream_bytes_sent s)
    (map reservoir_reset (exemplar_reservoirs s)) (error_rate_counters s).

(** The sums, the exemplars, and the blocks afterwards.
    [src/src/metric_source/instrumented.rs: InstrumentedSource::aggregate_worker_slots] *)
Definition aggregate_worker_slots (blocks : list worker_slots) : worker_agg * list (Z * exemplar) * list worker_slots :=
  foldl (fun '(agg, exs, done) s => (add_block agg s, exs ++ block_exemplars s, done ++ [reset_block s]))
    (agg_zero, [], []) blocks.

(** ** Metrics *)

(** [src/src/metric_source/instrumented.rs: make_exp_dp] *)
Definition make_exp_dp (agg : exp_agg) (attrs : list key_value) (exs : list exemplar) (start now : Z) : option exp_data_point :=
  let '(bc, zc, bs, bcount) := agg in
  if bcount =? 0 then None
  else Some (mk_edp attrs start now bcount (us_to_seconds bs) EXP_HISTOGRAM_SCALE zc EXP_HISTOGRAM_BUCKET_OFFSET bc exs).

Definition kv_str (k v : list Z) : key_value := KV k (VString v).

(** [src/src/metric_source/instrumented.rs: 1566-1579 InstrumentedSource::build_duration_metric] *)
Definition combo_attrs (m : http_method) (c : status_class) (p : proto_version) : list key_value :=
  [kv_str $"http.request.method" (method_as_str m); kv_str $"http.response.status_class" (class_as_str c);
   kv_str $"network.protocol.version" (proto_as_str p)].

(** The triples of the three nested loops.
    [src/src/metric_source/instrumented.rs: 1549-1554 InstrumentedSource::build_duration_metric] *)
Definition combos : list (http_method * status_class * proto_version) :=
  flat_map (fun m_idx => flat_map (fun sc_idx => map (fun p_idx =>
    (method_from_index m_idx, class_from_index sc_idx, proto_from_index p_idx))
    (zrange N_PROTO_VERSIONS)) (zrange N_STATUS_CLASSES)) (zrange N_HTTP_METHODS).

(** [src/src/metric_source/instrumented.rs: 1556-1560 InstrumentedSource::build_duration_metric] *)
Definition combo_exemplars (all : list (Z * exemplar)) (combo : Z) : list exemplar :=
  map snd (List.filter (fun x => fst x =? u32 combo) all).

Definition exp_metric (name desc : list Z) (pts : list exp_data_point) : metric :=
  mk_metric name desc $"s" (MExponentialHistogram TCumulative pts).

(** [combo_agg] is indexed within its [N_COMBOS] entries.
    [src/src/metric_source/instrumented.rs: InstrumentedSource::build_duration_metric] *)
Definition build_duration_metric (status_code_class_enabled : bool) (agg : list exp_agg) (all : list (Z * exemplar))
    (start now : Z) : metric :=
  exp_metric $"http.server.request.duration" $"HTTP server request duration"
    (if status_code_class_enabled then
       omap (fun '(m, c, p) =>
         let combo := combo_index m c p in
         make_exp_dp (nth (Z.to_nat combo) agg exp_none) (combo_attrs m c p) (combo_exemplars all combo) start now) combos
     else
       let '(all_buckets, all_zero, all_sum, all_count) := foldl add_exp exp_none agg in
       [mk_edp [] start now all_count (us_to_seconds all_sum) EXP_HISTOGRAM_SCALE all_zero EXP_HISTOGRAM_BUCKET_OFFSET
          all_buckets []]).

(** [src/src/metric_source/instrumented.rs: InstrumentedSource::build_route_metric] *)
Definition build_route_metric (agg : list exp_agg) (amcf : option main_config) (start now : Z) : metric :=
  exp_metric $"nginx.http.request.duration.by_route" $"HTTP server request duration by matched location (http.route)"
    (omap (fun r_idx =>
       let name := match amcf with Some c => route_name c r_idx | None => $"route_" ++ fmt_dec r_idx end in
       make_exp_dp (nth (Z.to_nat r_idx) agg exp_none) [kv_str $"http.route" name] [] start now) (zrange N_ROUTE_SLOTS)).

(** [src/src/metric_source/instrumented.rs: InstrumentedSource::build_upstream_duration_metric] *)
Definition build_upstream_duration_metric (agg : list exp_agg) (amcf : option main_config) (start now : Z) : metric :=
  exp_metric $"nginx.http.request.duration.by_upstream" $"HTTP server request duration by upstream zone (nginx.upstream.zone)"
    (omap (fun u_idx =>
       let name := match amcf with Some c => upstream_zone_name c u_idx | None => $"upstream_" ++ fmt_dec u_idx end in
       make_exp_dp (nth (Z.to_nat u_idx) agg exp_none) [kv_str $"nginx.upstream.zone" name] [] start now)
       (zrange N_UPSTREAM_SLOTS)).

(** [src/src/metric_source/instrumented.rs: HistSpec] *)
Record hist_spec := mk_spec { hs_name : list Z; hs_desc : list Z; hs_unit : list Z; hs_temporality : aggregation_temporality }.

(** [src/src/metric_source/instrumented.rs: hist_metric_with_sum] *)
Definition hist_metric_with_sum (spec : hist_spec) (data : hist_agg) (sum : f64) (bounds : list f64) (start now : Z) : metric :=
  let '(b, _, n) := data in
  mk_metric (hs_name spec) (hs_desc spec) (hs_unit spec)
    (MHistogram (hs_temporality spec) [mk_hdp [] start now n sum b bounds]).

(** [src/src/metric_source/instrumented.rs: hist_metric] *)
Definition hist_metric (spec : hist_spec) (data : hist_agg) (bounds : list f64) (start now : Z) : metric :=
  hist_metric_with_sum spec data (F64 (snd (fst data)) 1) bounds start now.

(** [src/src/shm/histogram.rs: DURATION_BOUNDS_S] *)
Definition DURATION_BOUNDS_S : list f64 :=
  [F64 5 1000; F64 1 100; F64 25 1000; F64 5 100; F64 75 1000; F64 1 10; F64 25 100; F64 5 10; F64 75 100; F64 1 1;
   F64 25 10; F64 5 1; F64 75 10; F64 10 1].

(** The metrics of one collection, and the blocks after it.
    [src/src/metric_source/instrumented.rs: InstrumentedSource::collect] *)
Definition instrumented_collect (status_code_class_enabled : bool) (amcf : option main_config) (start now : Z)
    (blocks : list worker_slots) : list metric * list worker_slots :=
  let '(agg, all_exemplars, blocks') := aggregate_worker_slots blocks in
  let byte_bounds := map (fun b => F64 b 1) BYTES_BOUNDS in
  ([build_duration_metric status_code_class_enabled (combo_agg agg) all_exemplars start now;
    build_route_metric (route_agg agg) amcf start now;
    build_upstream_duration_metric (upstream_agg agg) amcf start now;
    hist_metric (mk_spec $"http.server.request.body.size" $"HTTP server request body size" $"By" TCumulative)
      (req_bytes agg) byte_bounds start now;
    hist_metric (mk_spec $"http.server.response.body.size" $"HTTP server response body size" $"By" TCumulative)
      (resp_bytes agg) byte_bounds start now;
    hist_metric_with_sum (mk_spec $"nginx.upstream.response.duration" $"Upstream response time" $"s" TCumulative)
      (up_resp agg) (ms_to_s_hist_sum (snd (fst (up_resp agg)))) DURATION_BOUNDS_S start now;
    hist_metric_with_sum (mk_spec $"nginx.upstream.header.duration" $"Upstream time to first response byte" $"s" TCumulative)
      (up_hdr agg) (ms_to_s_hist_sum (snd (fst (up_hdr agg)))) DURATION_BOUNDS_S start now;
    hist_metric_with_sum (mk_spec $"nginx.upstream.connect.duration" $"Upstream connection establishment time" $"s" TCumulative)
      (up_conn agg) (ms_to_s_hist_sum (snd (fst (up_conn agg)))) DURATION_BOUNDS_S start now;
    hist_metric (mk_spec $"nginx.upstream.bytes.received" $"Bytes received from upstream" $"By" TCumulative)
      (up_bytes agg) byte_bounds start now;
    hist_metric (mk_spec $"nginx.upstream.bytes.sent" $"Bytes sent to upstream" $"By" TCumulative)
      (up_bytes_sent agg) byte_bounds start now],
   blocks').

(** ** What a histogram of observations is

    Stated by counting the observations, modulo [2^64], with no reference to the order
    or the worker in which they were recorded. *)
Definition occ (f : Z -> bool) (vs : list Z) : Z := Z.of_nat (length (List.filter f vs)).

Definition exp_counts (vs : list Z) : exp_agg :=
  (map (fun i => u64 (occ (fun v => negb (v =? 0) && Nat.eqb (exp_bucket_idx v) i) vs)) (seq 0 N_EXP_BUCKETS),
   u64 (occ (fun v => v =? 0) vs), u64 (zsum vs), u64 (Z.of_nat (length vs))).

Definition hist_counts (bounds vs : list Z) : hist_agg :=
  (map (fun i => u64 (occ (fun v => Nat.eqb (partition_point (fun b => b <? v) bounds) i) vs)) (seq 0 (S (length bounds))),
   u64 (zsum vs), u64 (Z.of_nat (length vs))).

Lemma u64_add a b : u64 (u64 a + u64 b) = u64 (a + b).
Proof. unfold u64, wrap. rewrite <- Zplus_mod. reflexivity. Qed.
Lemma u64_add_r a b : u64 (u64 a + b) = u64 (a + b).
Proof. unfold u64, wrap. apply Zplus_mod_idemp_l. Qed.

Lemma occ_app f vs ws : occ f (vs ++ ws) = occ f vs + occ f ws.
Proof. unfold occ. rewrite List.filter_app, length_app. lia. Qed.
Lemma occ_one f v : occ f [v] = if f v then 1 else 0.
Proof. unfold occ. cbn. destruct (f v); reflexivity. Qed.

Lemma add_counts_map (f g : nat -> Z) l :
  add_counts (map (fun i => u64 (f i)) l) (map (fun i => u64 (g i)) l) = map (fun i => u64 (f i + g i)) l.
Proof. induction l as [|i l IH]; [reflexivity|]. cbn. rewrite IH. f_equal. apply u64_add. Qed.

Lemma exp_counts_app vs ws : add_exp (exp_counts vs) (exp_counts ws) = exp_counts (vs ++ ws).
Proof.
  unfold exp_counts, add_exp. rewrite add_counts_map. rewrite !u64_add, occ_app, zsum_app, length_app, Nat2Z.inj_add.
  do 3 f_equal. apply map_ext. intros i. rewrite occ_app. reflexivity.
Qed.

Lemma hist_counts_app bounds vs ws : add_histogram (hist_counts bounds vs) (hist_counts bounds ws) = hist_counts bounds (vs ++ ws).
Proof.
  unfold hist_counts, add_histogram. rewrite add_counts_map, !u64_add, zsum_app, length_app, Nat2Z.inj_add.
  do 2 f_equal. apply map_ext. intros i. rewrite occ_app. reflexivity.
Qed.

(** Incrementing one cell of a table of counts. *)
Lemma alter_map_seq (f : nat -> Z) k n : (k < n)%nat ->
  alter incr64 k (map (fun i => u64 (f i)) (seq 0 n)) = map (fun i => u64 (f i + if Nat.eqb k i then 1 else 0)) (seq 0 n).
Proof.
  intros Hk. apply list_eq. intros i. destruct (decide (i = k)) as [->|Hne].
  - rewrite list_lookup_alter_eq, !list_lookup_fmap, lookup_seq_lt by lia. cbn. rewrite Nat.eqb_refl.
    f_equal. apply u64_add_r.
  - rewrite list_lookup_alter_ne, !list_lookup_fmap by congruence.
    destruct (decide (i < n)%nat); [|rewrite !lookup_seq_ge by lia; reflexivity].
    rewrite lookup_seq_lt by lia. cbn. rewrite (proj2 (Nat.eqb_neq k i)) by congruence. do 2 f_equal. lia.
Qed.

(** Recording is counting. *)
Lemma exp_record_counts vs : exp_snapshot (foldl exp_record exp_zero vs) = exp_counts vs.
Proof.
  induction vs as [|v vs IH] using rev_ind; [vm_compute; reflexivity|].
  rewrite foldl_app. cbn [foldl]. destruct (foldl exp_record exp_zero vs) as [b z s n].
  unfold exp_snapshot, exp_counts in *. cbn [buckets zero_count e_sum e_count] in IH.
  rewrite !pair_equal_spec in IH. destruct IH as [[[-> ->] ->] ->].
  unfold exp_record, exp_bump_bucket. rewrite zsum_app, length_app, Nat2Z.inj_add.
  setoid_rewrite occ_app. setoid_rewrite occ_one.
  destruct (v =? 0) eqn:Ev; cbn [exp_bump_sum exp_bump_count buckets zero_count e_sum e_count negb andb]; unfold incr64;
    rewrite ?u64_add_r; cbn [zsum foldr length]; rewrite ?Z.add_0_r.
  - do 3 f_equal. apply map_ext. intros i. f_equal. lia.
  - do 3 f_equal. apply alter_map_seq, exp_bucket_idx_lt.
Qed.

Lemma hist_record_counts bounds vs : hist_snapshot (record_all bounds (hist_zero (S (length bounds))) vs) = hist_counts bounds vs.
Proof.
  unfold record_all. induction vs as [|v vs IH] using rev_ind.
  { unfold hist_counts, hist_snapshot, hist_zero. cbn -[seq replicate]. do 2 f_equal.
    generalize 0%nat. induction (S (length bounds)) as [|n I]; intros k; [reflexivity|]. cbn. f_equal. apply I. }
  rewrite foldl_app. cbn [foldl]. destruct (foldl _ _ vs) as [b s n].
  unfold hist_snapshot, hist_counts in *. cbn [bucket h_sum h_count] in IH.
  rewrite !pair_equal_spec in IH. destruct IH as [[-> ->] ->].
  unfold hist_record. cbn [bucket h_sum h_count]. rewrite zsum_app, length_app, Nat2Z.inj_add. unfold incr64.
  rewrite !u64_add_r. cbn [zsum foldr length]. rewrite Z.add_0_r. do 2 f_equal.
  rewrite alter_map_seq by (pose proof (partition_point_le (fun b => b <? v) bounds); lia).
  apply map_ext. intros i. rewrite occ_app, occ_one. reflexivity.
Qed.

(** ** Tables of events *)

(** The values of the events at index [k]. *)
Definition cell {A} (k : Z) (evs : list (Z * A)) : list A := map snd (List.filter (fun ev => fst ev =? k) evs).

Lemma cell_app {A} k (a b : list (Z * A)) : cell k (a ++ b) = cell k a ++ cell k b.
Proof. unfold cell. rewrite List.filter_app, map_app. reflexivity. Qed.

Lemma cell_cons {A} k i (v : A) evs : cell k ((i, v) :: evs) = (if i =? k then [v] else []) ++ cell k evs.
Proof. unfold cell. cbn. destruct (i =? k); reflexivity. Qed.

Lemma cell_In {A} k (v : A) evs : In v (cell k evs) <-> In (k, v) evs.
Proof.
  unfold cell. rewrite in_map_iff. split.
  - intros ([i w] & <- & H). apply filter_In in H as [H E]. cbn in *. apply Z.eqb_eq in E as ->. exact H.
  - intros H. exists (k, v). split; [reflexivity|]. apply filter_In. split; [exact H|]. apply Z.eqb_refl.
Qed.

Definition in_range {A} (n : Z) (evs : list (Z * A)) : Prop := Forall (fun ev => 0 <= fst ev < n) evs.

(** A zeroed table after the events. *)
Definition table (n : Z) (evs : list (Z * Z)) : list exp_slot := map (fun k => foldl exp_record exp_zero (cell k evs)) (zrange n).

Lemma lookup_zrange n i : (i < Z.to_nat n)%nat -> zrange n !! i = Some (Z.of_nat i).
Proof. intros H. unfold zrange. rewrite list_lookup_fmap, lookup_seq_lt by lia. reflexivity. Qed.

Lemma length_zrange n : length (zrange n) = Z.to_nat n.
Proof. unfold zrange. rewrite length_map, length_seq. reflexivity. Qed.

Lemma In_zrange n k : In k (zrange n) <-> 0 <= k < n.
Proof.
  unfold zrange. rewrite in_map_iff. split.
  - intros (i & <- & H). apply in_seq in H. lia.
  - intros H. exists (Z.to_nat k). split; [lia|]. apply in_seq. lia.
Qed.

Lemma apply_table_event n evs ev : 0 <= fst ev < n -> apply_event (table n evs) ev = table n (evs ++ [ev]).
Proof.
  intros Hi. destruct ev as [i v]. cbn in Hi. unfold apply_event, table. cbn [fst snd]. apply list_eq. intros k.
  destruct (decide (k < Z.to_nat n)%nat) as [Hk|Hk].
  2:{ rewrite !lookup_ge_None_2; rewrite ?length_alter, ?length_map, ?length_zrange; auto; lia. }
  destruct (decide (k = Z.to_nat i)) as [->|Hne].
  - rewrite list_lookup_alter_eq, !list_lookup_fmap, lookup_zrange by lia. cbn. f_equal.
    rewrite cell_app, cell_cons, foldl_app, Z2Nat.id, Z.eqb_refl by lia. reflexivity.
  - rewrite list_lookup_alter_ne, !list_lookup_fmap, lookup_zrange by congruence || lia. cbn. f_equal.
    rewrite cell_app, cell_cons, (proj2 (Z.eqb_neq i _)) by lia. unfold cell. cbn. rewrite app_nil_r. reflexivity.
Qed.

Lemma apply_table n evs' : forall evs, in_range n evs' -> apply_events (table n evs) evs' = table n (evs ++ evs').
Proof.
  induction evs' as [|ev evs' IH]; intros evs H; [rewrite app_nil_r; reflexivity|].
  apply Forall_cons_iff in H as [H1 H2]. cbn. rewrite apply_table_event by exact H1.
  change (apply_events (table n (evs ++ [ev])) evs' = table n (evs ++ ev :: evs')).
  rewrite IH by exact H2. rewrite <- app_assoc. reflexivity.
Qed.

Lemma table_nil n : table n [] = replicate (Z.to_nat n) exp_zero.
Proof.
  unfold table, zrange. rewrite map_map. generalize 0%nat. induction (Z.to_nat n) as [|k IH]; intros j; [reflexivity|].
  cbn. f_equal. apply IH.
Qed.

(** Concatenating the cells of every index permutes the events. *)
Lemma concat_insert (f : Z -> list Z) i v l : NoDup l -> In i l ->
  concat (map (fun k => (if i =? k then [v] else []) ++ f k) l) ≡ₚ v :: concat (map f l).
Proof.
  induction 1 as [|k l Hk Hl IH]; [intros []|]. intros [->|Hi]; cbn.
  - rewrite Z.eqb_refl. cbn. constructor. replace (map (fun k => _) l) with (map f l); [reflexivity|].
    apply map_ext_in. intros j Hj. rewrite (proj2 (Z.eqb_neq i j)); [reflexivity|].
    intros ->. apply Hk, list_elem_of_In, Hj.
  - rewrite IH by exact Hi. rewrite (proj2 (Z.eqb_neq i k)); [cbn; rewrite Permutation_middle; reflexivity|].
    intros ->. apply Hk, list_elem_of_In, Hi.
Qed.

Lemma NoDup_zrange n : NoDup (zrange n).
Proof. unfold zrange. apply NoDup_fmap_2; [intros a b; lia|]. apply NoDup_seq. Qed.

Lemma cells_permute n (evs : list (Z * Z)) : in_range n evs -> concat (map (fun k => cell k evs) (zrange n)) ≡ₚ map snd evs.
Proof.
  induction evs as [|[i v] evs IH]; intros H.
  - cbn. induction (zrange n) as [|k l I]; [reflexivity|exact I].
  - apply Forall_cons_iff in H as [H1 H2]. cbn in H1. cbn [map snd]. rewrite <- IH by exact H2.
    rewrite <- (concat_insert (fun k => cell k evs) i v (zrange n) (NoDup_zrange n)) by (apply In_zrange; exact H1).
    erewrite map_ext; [reflexivity|]. intros k. apply cell_cons.
Qed.

#[export] Instance occ_proper f : Proper (Permutation ==> eq) (occ f).
Proof. intros vs ws H. unfold occ. induction H; cbn; repeat case_match; cbn in *; try lia; congruence. Qed.

#[export] Instance exp_counts_proper : Proper (Permutation ==> eq) exp_counts.
Proof.
  intros vs ws H. unfold exp_counts. replace (zsum ws) with (zsum vs) by (clear -H; unfold zsum; induction H; cbn; lia).
  rewrite (Permutation_length H), (occ_proper _ vs ws H). do 3 f_equal. apply map_ext. intros i. rewrite (occ_proper _ vs ws H). reflexivity.
Qed.

Lemma add_exp_concat l : forall vs, foldl add_exp (exp_counts vs) (map exp_counts l) = exp_counts (vs ++ concat l).
Proof.
  induction l as [|w l IH]; intros vs; cbn [map foldl concat]; [rewrite app_nil_r; reflexivity|].
  rewrite exp_counts_app, IH, app_assoc. reflexivity.
Qed.

(** ** The history of a block *)

(** A request with what the handler reads around it. *)
Abbreviation visit := (log_env * log_request)%type.

(** Trace ids are arrays of 16 and 8 bytes. *)
Definition ids_ok (r : log_request) : Prop :=
  match rl_span_ctx r with
  | Some x => blen (cx_trace_id x) = 16 /\ blen (cx_span_id x) = 8 /\ bytes_ok (cx_trace_id x) /\ bytes_ok (cx_span_id x)
  | None => True
  end.

Section history.
Context (data_offset : Z) (c : main_config).

(** A worker's block from the start of its zone: every request it finished
    ([all]) and those since the last collection ([cyc]). *)
Inductive served : list visit -> list visit -> worker_slots -> Prop :=
  | served_start : served [] [] zero_block
  | served_one all cyc m e r m' :
      served all cyc (wm_slots m) -> 0 <= le_worker e < min_indexed_worker_capacity data_offset c -> ids_ok r ->
      log_phase_handler data_offset e (Some c) r m = Some m' ->
      served (all ++ [(e, r)]) (cyc ++ [(e, r)]) (wm_slots m')
  | served_collect all cyc s : served all cyc s -> served all [] (reset_block s).

Definition events {A} (f : log_request -> main_config -> Z -> list A) (l : list visit) : list A :=
  concat (map (fun v => f (snd v) c (compute_duration_us (fst v) (snd v))) l).

Definition values (f : log_request -> list Z) (l : list visit) : list Z := concat (map (fun v => f (snd v)) l).

(** The exemplars offered: the sampled requests, at their combination. *)
Definition exemplar_events (l : list visit) : list (Z * sampled_request) :=
  concat (map (fun v => match sampled_ctx (snd v) with
    | Some x => [(mt_base_idx (read_request_meta (snd v) c), exemplar_record (emit_of (fst v) c (snd v)) x)]
    | None => [] end) l).

Definition req_sizes (r : log_request) : list Z := [u64 (rl_request_length r)].
Definition resp_sizes (r : log_request) : list Z := [mt_resp_bytes (read_request_meta r c)].
Definition up_responses : log_request -> list Z := upstream_values (fun x => opt_list (sm_response_ms x)).
Definition up_headers : log_request -> list Z := upstream_values (fun x => opt_list (sm_header_ms x)).
Definition up_connects : log_request -> list Z := upstream_values (fun x => opt_list (sm_connect_ms x)).
Definition up_received : log_request -> list Z := upstream_values (fun x => [sm_bytes_received x]).
Definition up_sent : log_request -> list Z := upstream_values (fun x => [sm_bytes_sent x]).

Definition sizes_of (f : log_request -> list Z) (l : list visit) : histogram :=
  record_all BYTES_BOUNDS (hist_zero (Z.to_nat N_BYTES_BUCKETS)) (values f l).
Definition times_of (f : log_request -> list Z) (l : list visit) : histogram :=
  record_all DURATION_BOUNDS_MS (hist_zero (Z.to_nat N_DURATION_BUCKETS)) (values f l).

(** The counters are those of all requests; a reservoir holds measurements of the cycle. *)
Record block_inv (all cyc : list visit) (s : worker_slots) : Prop := {
  bi_combos : request_duration_combos s = table N_COMBOS (events combo_events all);
  bi_routes : route_duration_combos s = table N_ROUTE_SLOTS (events route_events all);
  bi_upstreams : upstream_duration_combos s = table N_UPSTREAM_SLOTS (events upstream_events all);
  bi_req : request_body_bytes s = sizes_of req_sizes all;
  bi_resp : response_body_bytes s = sizes_of resp_sizes all;
  bi_up_resp : upstream_response_ms s = times_of up_responses all;
  bi_up_hdr : upstream_header_ms s = times_of up_headers all;
  bi_up_conn : upstream_connect_ms s = times_of up_connects all;
  bi_up_recv : upstream_bytes_received s = sizes_of up_received all;
  bi_up_sent : upstream_bytes_sent s = sizes_of up_sent all;
  bi_n : length (exemplar_reservoirs s) = Z.to_nat N_COMBOS;
  bi_entries : Forall (fun v => length (entries v) = 2%nat) (exemplar_reservoirs s);
  bi_cycle : Z.of_nat (length cyc) <= u64_max -> forall k v, exemplar_reservoirs s !! k = Some v ->
    reservoir_inv v (cell (Z.of_nat k) (exemplar_events cyc))
}.

Lemma events_snoc {A} (f : log_request -> main_config -> Z -> list A) l e r :
  events f (l ++ [(e, r)]) = events f l ++ f r c (compute_duration_us e r).
Proof. unfold events. rewrite map_app, concat_app. cbn. rewrite app_nil_r. reflexivity. Qed.

Lemma values_snoc f l e r : values f (l ++ [(e, r)]) = values f l ++ f r.
Proof. unfold values. rewrite map_app, concat_app. cbn. rewrite app_nil_r. reflexivity. Qed.

Lemma sizes_snoc f l e r : sizes_of f (l ++ [(e, r)]) = record_all BYTES_BOUNDS (sizes_of f l) (f r).
Proof. unfold sizes_of, record_all. rewrite values_snoc, foldl_app. reflexivity. Qed.
Lemma times_snoc f l e r : times_of f (l ++ [(e, r)]) = record_all DURATION_BOUNDS_MS (times_of f l) (f r).
Proof. unfold times_of, record_all. rewrite values_snoc, foldl_app. reflexivity. Qed.

Lemma combo_events_range r d : in_range N_COMBOS (combo_events r c d).
Proof.
  unfold combo_events. case_if; [constructor|]. constructor; [|constructor]. apply combo_range.
Qed.

Lemma exemplar_snoc l e r : exemplar_events (l ++ [(e, r)]) = exemplar_events l ++
  match sampled_ctx r with
  | Some x => [(mt_base_idx (read_request_meta r c), exemplar_record (emit_of e c r) x)]
  | None => []
  end.
Proof. unfold exemplar_events. rewrite map_app, concat_app. cbn. rewrite app_nil_r. reflexivity. Qed.

Lemma exemplar_trace_ok e r x : ids_ok r -> sampled_ctx r = Some x -> trace_ok (exemplar_record (emit_of e c r) x).
Proof. intros H Hx. apply sampled_ctx_Some in Hx as [Hx _]. unfold ids_ok in H. rewrite Hx in H. exact H. Qed.

Lemma cell_length {A} k (evs : list (Z * A)) : (length (cell k evs) <= length evs)%nat.
Proof. unfold cell. rewrite length_map. apply List.filter_length_le. Qed.

Lemma exemplar_events_length l : (length (exemplar_events l) <= length l)%nat.
Proof.
  induction l as [|[e r] l IH]; [reflexivity|]. unfold exemplar_events in *. cbn [map concat snd]. rewrite length_app.
  destruct (sampled_ctx r); cbn [length]; lia.
Qed.

Context (Ht : tables_ok c) (b : Z) (Hb : shm_base data_offset c = Some b).

(** One more request's counters. *)
Lemma block_inv_counters all cyc s e r : block_inv all cyc s ->
  let s' := add_request c r (compute_duration_us e r) s in
  forall res, length res = Z.to_nat N_COMBOS -> Forall (fun v => length (entries v) = 2%nat) res ->
  (Z.of_nat (length (cyc ++ [(e, r)])) <= u64_max -> forall k v, res !! k = Some v ->
     reservoir_inv v (cell (Z.of_nat k) (exemplar_events (cyc ++ [(e, r)])))) ->
  block_inv (all ++ [(e, r)]) (cyc ++ [(e, r)])
    (mk_slots (request_duration_combos s') (route_duration_combos s') (upstream_duration_combos s')
       (request_body_bytes s') (response_body_bytes s') (upstream_response_ms s') (upstream_header_ms s')
       (upstream_connect_ms s') (upstream_bytes_received s') (upstream_bytes_sent s') res (error_rate_counters s')).
Proof.
  intros [] s' res H1 H2 H3. destruct Ht as [Hr Hu].
  assert (R2 : in_range N_ROUTE_SLOTS (route_events r c (compute_duration_us e r))).
  { constructor; [|constructor]. apply route_idx_range, Hr. }
  assert (R3 : in_range N_UPSTREAM_SLOTS (upstream_events r c (compute_duration_us e r))).
  { unfold upstream_events. destruct (rl_upstream r) as [z|]; [|constructor]. case_if; constructor; [|constructor].
    pose proof (upstream_idx_range c z Hu). unfold N_UPSTREAM_SLOTS. cbn [fst]. lia. }
  split; cbn [request_duration_combos route_duration_combos upstream_duration_combos request_body_bytes response_body_bytes
    upstream_response_ms upstream_header_ms upstream_connect_ms upstream_bytes_received upstream_bytes_sent
    exemplar_reservoirs s' add_request]; rewrite ?events_snoc, ?sizes_snoc, ?times_snoc; try assumption.
  1-3: rewrite <- apply_table; [congruence|]; try assumption; apply combo_events_range.
  all: unfold req_sizes, resp_sizes, up_responses, up_headers, up_connects, up_received, up_sent in *; congruence.
Qed.

(** The reservoirs, with and without a new exemplar. *)
Lemma reservoirs_unsampled cyc e r k v : sampled_ctx r = None ->
  reservoir_inv v (cell k (exemplar_events cyc)) -> reservoir_inv v (cell k (exemplar_events (cyc ++ [(e, r)]))).
Proof. intros Hx H. rewrite exemplar_snoc, Hx, app_nil_r. exact H. Qed.

Lemma reservoirs_sampled cyc e r x (res : list exemplar_reservoir) : ids_ok r -> sampled_ctx r = Some x ->
  (forall k v, res !! k = Some v -> reservoir_inv v (cell (Z.of_nat k) (exemplar_events cyc))) ->
  Z.of_nat (length (cyc ++ [(e, r)])) <= u64_max ->
  let i := mt_base_idx (read_request_meta r c) in
  forall k v, alter (fun v => reservoir_write v (exemplar_record (emit_of e c r) x)) (Z.to_nat i) res !! k = Some v ->
    reservoir_inv v (cell (Z.of_nat k) (exemplar_events (cyc ++ [(e, r)]))).
Proof.
  intros Hi Hx H Hl i k v Hv. rewrite exemplar_snoc, Hx, cell_app, cell_cons. fold i.
  assert (Hi0 : 0 <= i) by apply combo_range. destruct (decide (k = Z.to_nat i)) as [->|Hne].
  - rewrite list_lookup_alter_eq in Hv. destruct (res !! Z.to_nat i) as [v0|] eqn:E; [|discriminate]. injection Hv as <-.
    rewrite Z2Nat.id, Z.eqb_refl by exact Hi0. apply H in E. rewrite Z2Nat.id in E by exact Hi0.
    apply reservoir_write_inv; [exact E|apply exemplar_trace_ok; assumption|].
    pose proof (cell_length i (exemplar_events cyc)). pose proof (exemplar_events_length cyc).
    rewrite length_app in Hl. cbn [length] in Hl. lia.
  - rewrite list_lookup_alter_ne in Hv by congruence. rewrite (proj2 (Z.eqb_neq i _)) by lia. cbn. rewrite app_nil_r. auto.
Qed.

Lemma block_inv_one all cyc m e r m' : block_inv all cyc (wm_slots m) ->
  0 <= le_worker e < min_indexed_worker_capacity data_offset c -> ids_ok r ->
  log_phase_handler data_offset e (Some c) r m = Some m' ->
  block_inv (all ++ [(e, r)]) (cyc ++ [(e, r)]) (wm_slots m').
Proof.
  intros HI Hw Hi Hm. pose proof HI as HI0. destruct HI.
  destruct (handler_block data_offset e c r m Ht) as (m1 & E & Hba & _); [|exact Hw|].
  { unfold slots_wf. rewrite bi_combos0, bi_routes0, bi_upstreams0. unfold table. rewrite !length_map, !length_zrange. auto. }
  rewrite Hm in E. injection E as <-. unfold block_after in Hba. rewrite Hb in Hba.
  assert (Hl : forall n, Z.of_nat (length (cyc ++ [(e, r)])) <= n -> Z.of_nat (length cyc) <= n) by (intros n; rewrite length_app; cbn; lia).
  destruct (sampled_ctx r) as [x|] eqn:Ex.
  - unfold write_exemplar in Hba. case_match; [|discriminate]. injection Hba as <-.
    apply (block_inv_counters all cyc); [exact HI0| | |].
    + rewrite length_alter. assumption.
    + cbn [add_request exemplar_reservoirs]. apply Forall_alter; [assumption|]. intros v _ Hv.
      unfold reservoir_write. cbn. case_if; rewrite ?length_alter; assumption.
    + intros L. apply reservoirs_sampled; auto.
  - rewrite Hba. apply (block_inv_counters all cyc); auto.
    intros L k v Hv. apply reservoirs_unsampled; [exact Ex|]. auto.
Qed.

Lemma block_inv_zero : block_inv [] [] zero_block.
Proof.
  split; try reflexivity; try (symmetry; apply table_nil).
  - apply Forall_replicate. reflexivity.
  - intros _ k v Hv. apply lookup_replicate in Hv as [-> _]. split_and!; try reflexivity. cbn. lia.
Qed.

Lemma block_inv_reset all cyc s : block_inv all cyc s -> block_inv all [] (reset_block s).
Proof.
  intros []. split; cbn [reset_block request_duration_combos route_duration_combos upstream_duration_combos request_body_bytes
    response_body_bytes upstream_response_ms upstream_header_ms upstream_connect_ms upstream_bytes_received upstream_bytes_sent
    exemplar_reservoirs]; try assumption.
  - rewrite length_map. assumption.
  - apply Forall_map. assumption.
  - intros _ k v Hv. apply list_lookup_fmap_Some in Hv as (v0 & -> & Hv).
    split_and!; [reflexivity| |cbn; lia]. exact (Forall_lookup_1 _ _ _ _ bi_entries0 Hv).
Qed.

Lemma served_inv all cyc s : served all cyc s -> block_inv all cyc s.
Proof.
  induction 1 as [|all cyc m e r m' Hs IH Hw Hi Hm|all cyc s Hs IH]; [apply block_inv_zero| |exact (block_inv_reset _ _ _ IH)].
  eapply block_inv_one; eassumption.
Qed.
End history.

(** ** What is exported *)

Section expected.
Context (c : main_config) (start now : Z).

(** The data point of a series of durations. *)
Definition exp_dp (attrs : list key_value) (exs : list exemplar) (vs : list Z) : exp_data_point :=
  mk_edp attrs start now (u64 (Z.of_nat (length vs))) (F64 (u64 (zsum vs)) 1000000) 3 (u64 (occ (fun v => v =? 0) vs)) (-160)
    (map (fun i => u64 (occ (fun v => negb (v =? 0) && Nat.eqb (exp_bucket_idx v) i) vs)) (seq 0 192)) exs.
Definition exp_point (attrs : list key_value) (exs : list exemplar) (vs : list Z) : option exp_data_point :=
  if u64 (Z.of_nat (length vs)) =? 0 then None else Some (exp_dp attrs exs vs).

(** The histogram of a series of sizes, or of milliseconds published in seconds. *)
Definition hist_of (name desc unit : list Z) (den : Z) (bounds : list Z) (shown : list f64) (vs : list Z) : metric :=
  mk_metric name desc unit (MHistogram TCumulative
    [mk_hdp [] start now (u64 (Z.of_nat (length vs))) (F64 (u64 (zsum vs)) den)
       (map (fun i => u64 (occ (fun v => Nat.eqb (partition_point (fun b => b <? v) bounds) i) vs)) (seq 0 (S (length bounds)))) shown]).

Definition expected_metrics (status_code_class_enabled : bool) (all : list visit) (exs : Z -> list exemplar) : list metric :=
  let bytes f name desc := hist_of name desc $"By" 1 BYTES_BOUNDS (map (fun b => F64 b 1) BYTES_BOUNDS) (values f all) in
  let seconds f name desc := hist_of name desc $"s" 1000 DURATION_BOUNDS_MS DURATION_BOUNDS_S (values f all) in
  [exp_metric $"http.server.request.duration" $"HTTP server request duration"
     (if status_code_class_enabled then
        omap (fun '(m, cl, p) => exp_point (combo_attrs m cl p) (exs (combo_index m cl p))
          (cell (combo_index m cl p) (events c combo_events all))) combos
      else [exp_dp [] [] (map snd (events c combo_events all))]);
   exp_metric $"nginx.http.request.duration.by_route" $"HTTP server request duration by matched location (http.route)"
     (omap (fun k => exp_point [kv_str $"http.route" (route_name c k)] [] (cell k (events c route_events all))) (zrange N_ROUTE_SLOTS));
   exp_metric $"nginx.http.request.duration.by_upstream" $"HTTP server request duration by upstream zone (nginx.upstream.zone)"
     (omap (fun k => exp_point [kv_str $"nginx.upstream.zone" (upstream_zone_name c k)] [] (cell k (events c upstream_events all)))
        (zrange N_UPSTREAM_SLOTS));
   bytes req_sizes $"http.server.request.body.size" $"HTTP server request body size";
   bytes (resp_sizes c) $"http.server.response.body.size" $"HTTP server response body size";
   seconds up_responses $"nginx.upstream.response.duration" $"Upstream response time";
   seconds up_headers $"nginx.upstream.header.duration" $"Upstream time to first response byte";
   seconds up_connects $"nginx.upstream.connect.duration" $"Upstream connection establishment time";
   bytes up_received $"nginx.upstream.bytes.received" $"Bytes received from upstream";
   bytes up_sent $"nginx.upstream.bytes.sent" $"Bytes sent to upstream"].

(** The sums over the requests of every worker. *)
Definition expected_agg (all : list visit) : worker_agg :=
  let exp n f := map (fun k => exp_counts (cell k (events c f all))) (zrange n) in
  let bytes f := hist_counts BYTES_BOUNDS (values f all) in
  let ms f := hist_counts DURATION_BOUNDS_MS (values f all) in
  mk_agg (exp N_COMBOS combo_events) (exp N_ROUTE_SLOTS route_events) (exp N_UPSTREAM_SLOTS upstream_events)
    (bytes req_sizes) (bytes (resp_sizes c)) (ms up_responses) (ms up_headers) (ms up_connects) (bytes up_received) (bytes up_sent).

Lemma events_app {A} (f : log_request -> main_config -> Z -> list A) l l' : events c f (l ++ l') = events c f l ++ events c f l'.
Proof. unfold events. rewrite map_app, concat_app. reflexivity. Qed.
Lemma values_app f l l' : values f (l ++ l') = values f l ++ values f l'.
Proof. unfold values. rewrite map_app, concat_app. reflexivity. Qed.

Lemma sum_tables n f l l' :
  zip_with (fun x h => add_exp x (exp_snapshot h)) (map (fun k => exp_counts (cell k (events c f l))) (zrange n))
    (table n (events c f l')) = map (fun k => exp_counts (cell k (events c f (l ++ l')))) (zrange n).
Proof.
  unfold table. rewrite events_app. induction (zrange n) as [|k ks IH]; [reflexivity|]. cbn [map zip_with].
  rewrite IH, exp_record_counts, exp_counts_app, cell_app. reflexivity.
Qed.

Lemma sum_sizes f l l' : add_histogram (hist_counts BYTES_BOUNDS (values f l)) (hist_snapshot (sizes_of f l')) =
  hist_counts BYTES_BOUNDS (values f (l ++ l')).
Proof. unfold sizes_of. rewrite (hist_record_counts BYTES_BOUNDS), hist_counts_app, values_app. reflexivity. Qed.

Lemma sum_times f l l' : add_histogram (hist_counts DURATION_BOUNDS_MS (values f l)) (hist_snapshot (times_of f l')) =
  hist_counts DURATION_BOUNDS_MS (values f (l ++ l')).
Proof. unfold times_of. rewrite (hist_record_counts DURATION_BOUNDS_MS), hist_counts_app, values_app. reflexivity. Qed.

Lemma add_block_expected l all cyc s : block_inv c all cyc s -> add_block (expected_agg l) s = expected_agg (l ++ all).
Proof.
  intros []. unfold add_block, expected_agg at 2. rewrite bi_combos0, bi_routes0, bi_upstreams0, bi_req0, bi_resp0, bi_up_resp0,
    bi_up_hdr0, bi_up_conn0, bi_up_recv0, bi_up_sent0. unfold expected_agg.
  cbn [combo_agg route_agg upstream_agg req_bytes resp_bytes up_resp up_hdr up_conn up_bytes up_bytes_sent].
  rewrite !sum_tables, !sum_sizes, !sum_times. reflexivity.
Qed.

Lemma add_blocks_expected blocks hist : Forall2 (fun s h => block_inv c (fst h) (snd h) s) blocks hist ->
  forall l, foldl add_block (expected_agg l) blocks = expected_agg (l ++ concat (map fst hist)).
Proof.
  induction 1 as [|s h blocks hist Hs _ IH]; intros l; cbn; [rewrite app_nil_r; reflexivity|].
  rewrite (add_block_expected l _ _ s Hs), IH, app_assoc. reflexivity.
Qed.
End expected.

Lemma aggregate_split blocks : aggregate_worker_slots blocks =
  (foldl add_block agg_zero blocks, concat (map block_exemplars blocks), map reset_block blocks).
Proof.
  unfold aggregate_worker_slots. induction blocks as [|s blocks IH] using rev_ind; [reflexivity|].
  rewrite !foldl_app, !map_app, concat_app, IH. cbn. rewrite app_nil_r. reflexivity.
Qed.

Lemma agg_zero_expected c : agg_zero = expected_agg c [].
Proof. reflexivity. Qed.

(** *** Exemplars *)

Lemma combo_exemplars_app a b k : combo_exemplars (a ++ b) k = combo_exemplars a k ++ combo_exemplars b k.
Proof. unfold combo_exemplars. rewrite List.filter_app, map_app. reflexivity. Qed.

(** The exemplars of one reservoir go to one data point. *)
Lemma combo_exemplars_one snaps k j : Forall (fun s => sn_combo_idx s = u32 j) snaps ->
  combo_exemplars (map exemplar_of snaps) k = if u32 j =? u32 k then map (fun s => snd (exemplar_of s)) snaps else [].
Proof.
  unfold combo_exemplars. induction 1 as [|s snaps Hs _ IH]; cbn; [case_if; reflexivity|]. rewrite Hs.
  destruct (u32 j =? u32 k); cbn; [|exact IH]. rewrite IH. reflexivity.
Qed.

Lemma combo_exemplars_block res k : forall j, (0 <= Z.of_nat j)%Z -> Z.of_nat (j + length res) <= u32_max ->
  (forall i v, res !! i = Some v -> Forall (fun s => sn_combo_idx s = u32 (Z.of_nat (j + i))) (reservoir_snapshot v)) ->
  (j <= k < j + length res)%nat ->
  exists v, res !! (k - j)%nat = Some v /\
    combo_exemplars (concat (map (fun v => map exemplar_of (reservoir_snapshot v)) res)) (Z.of_nat k) =
    map (fun s => snd (exemplar_of s)) (reservoir_snapshot v).
Proof.
  assert (Hu : forall n, Z.of_nat n <= u32_max -> u32 (Z.of_nat n) = Z.of_nat n) by (intros n Hn; apply wrap_small; unfold in_u, u32_max in *; lia).
  assert (Hnone : forall res j, (k < j)%nat -> Z.of_nat (j + length res) <= u32_max ->
    (forall i v, res !! i = Some v -> Forall (fun s => sn_combo_idx s = u32 (Z.of_nat (j + i))) (reservoir_snapshot v)) ->
    combo_exemplars (concat (map (fun v => map exemplar_of (reservoir_snapshot v)) res)) (Z.of_nat k) = []).
  { clear res. induction res as [|v res IH]; intros j Hj Hl Hs; [reflexivity|]. cbn [map concat length] in *.
    rewrite combo_exemplars_app, (combo_exemplars_one _ _ (Z.of_nat (j + 0))) by exact (Hs 0%nat v eq_refl).
    rewrite !Hu, (proj2 (Z.eqb_neq _ _)) by lia. apply (IH (S j)); [lia|lia|]. intros i w Hw.
    replace (S j + i)%nat with (j + S i)%nat by lia. exact (Hs (S i) w Hw). }
  induction res as [|v res IH]; intros j _ Hl Hs Hk; cbn [map concat length] in *; [lia|].
  rewrite combo_exemplars_app, (combo_exemplars_one _ _ (Z.of_nat (j + 0))) by exact (Hs 0%nat v eq_refl).
  rewrite !Hu by lia.
  assert (Hs' : forall i w, res !! i = Some w -> Forall (fun s => sn_combo_idx s = u32 (Z.of_nat (S j + i))) (reservoir_snapshot w)).
  { intros i w Hw. replace (S j + i)%nat with (j + S i)%nat by lia. exact (Hs (S i) w Hw). }
  destruct (decide (k = j)) as [->|Hne].
  - exists v. rewrite Nat.sub_diag, (proj2 (Z.eqb_eq _ _)) by lia. split; [reflexivity|].
    rewrite (Hnone res (S j)) by (assumption || lia). apply app_nil_r.
  - rewrite (proj2 (Z.eqb_neq _ _)) by lia. destruct (IH (S j)) as (w & Hw & E); [lia|lia|exact Hs'|lia|].
    exists w. replace (k - j)%nat with (S (k - S j)) by lia. auto.
Qed.

(** The exemplar of a sampled request. *)
Definition request_exemplar (c : main_config) (l : list visit) (k : Z) (ex : exemplar) : Prop :=
  exists e r x, In (e, r) l /\ sampled_ctx r = Some x /\ mt_base_idx (read_request_meta r c) = k /\
    ex = mk_exemplar (F64 (compute_duration_us e r) 1000000) (start_ns r) (cx_trace_id x) (cx_span_id x) true [].

Lemma exemplar_events_In c l k req : In (k, req) (exemplar_events c l) ->
  exists e r x, In (e, r) l /\ sampled_ctx r = Some x /\ k = mt_base_idx (read_request_meta r c) /\
    req = exemplar_record (emit_of e c r) x.
Proof.
  unfold exemplar_events. rewrite in_concat. intros (l' & Hl & Hin). apply in_map_iff in Hl as ([e r] & <- & He).
  cbn [fst snd] in Hin. destruct (sampled_ctx r) as [x|] eqn:Ex; [|destruct Hin].
  destruct Hin as [[= <- <-]|[]]. exists e, r, x. auto.
Qed.

Lemma block_exemplars_spec c all cyc s k : block_inv c all cyc s -> Z.of_nat (length cyc) <= u64_max -> 0 <= k < N_COMBOS ->
  let exs := combo_exemplars (block_exemplars s) k in
  Z.of_nat (length exs) = Z.min (Z.of_nat (length (cell k (exemplar_events c cyc)))) 2 /\ Forall (request_exemplar c cyc k) exs.
Proof.
  intros [] Hl Hk exs.
  assert (Hidx : forall i v, exemplar_reservoirs s !! i = Some v ->
    Forall (fun s => sn_combo_idx s = u32 (Z.of_nat (0 + i))) (reservoir_snapshot v)).
  { intros i v Hv. destruct (reservoir_inv_snapshot v _ (bi_cycle0 Hl i v Hv)) as [_ HF]. eapply Forall_impl; [|exact HF].
    intros sn (req & Hin & Hsn). apply cell_In, exemplar_events_In in Hin as (e & r & x & _ & _ & E & ->).
    destruct Hsn as (_ & -> & _). cbn. rewrite E. reflexivity. }
  destruct (combo_exemplars_block (exemplar_reservoirs s) (Z.to_nat k) 0%nat ltac:(lia)) as (v & Hv & E).
  - rewrite bi_n0. vm_compute. discriminate.
  - exact Hidx.
  - rewrite bi_n0. lia.
  - rewrite Z2Nat.id in E by lia. unfold exs, block_exemplars. rewrite E. rewrite Nat.sub_0_r in Hv.
    destruct (reservoir_inv_snapshot v _ (bi_cycle0 Hl _ v Hv)) as [Hn HF]. rewrite Z2Nat.id in Hn, HF by lia.
    rewrite length_map. split; [exact Hn|]. apply Forall_map. eapply Forall_impl; [|exact HF].
    intros sn (req & Hin & Hsn). apply cell_In, exemplar_events_In in Hin as (e & r & x & Hin & Ex & Ek & ->).
    destruct Hsn as (E1 & E2 & E3 & E4). cbn [rq_trace exemplar_record] in E4. destruct E4 as (E4 & E5 & E6).
    exists e, r, x. split_and!; [exact Hin|exact Ex|auto|]. unfold exemplar_of. cbn [snd].
    rewrite E1, E3, E4, E5, E6. reflexivity.
Qed.

Lemma blocks_exemplars_spec c blocks hist k : Forall2 (fun s h => block_inv c (fst h) (snd h) s) blocks hist ->
  Forall (fun h : list visit * list visit => Z.of_nat (length (snd h)) <= u64_max) hist -> 0 <= k < N_COMBOS ->
  let exs := combo_exemplars (concat (map block_exemplars blocks)) k in
  Z.of_nat (length exs) = zsum (map (fun h => Z.min (Z.of_nat (length (cell k (exemplar_events c (snd h))))) 2) hist) /\
  Forall (request_exemplar c (concat (map snd hist)) k) exs.
Proof.
  intros H HF Hk. cbv zeta. induction H as [|s h blocks hist Hs _ IH]; [split; [reflexivity|constructor]|].
  apply Forall_cons_iff in HF as [Hl HF]. destruct (IH HF) as [I1 I2]. destruct (block_exemplars_spec c _ _ s k Hs Hl Hk) as [B1 B2].
  cbn [map concat zsum foldr]. rewrite combo_exemplars_app, length_app, Nat2Z.inj_add, B1, I1. split; [reflexivity|].
  apply Forall_app. split; eapply Forall_impl; try eassumption; intros ex (e & r & x & Hin & Hx); exists e, r, x;
    (split; [apply in_app_iff; auto|exact Hx]).
Qed.

(** *** The metrics *)

Lemma make_exp_dp_counts start now attrs exs vs : make_exp_dp (exp_counts vs) attrs exs start now = exp_point start now attrs exs vs.
Proof. reflexivity. Qed.

Lemma nth_cells n f d (k : Z) : 0 <= k < n -> nth (Z.to_nat k) (map (fun k => exp_counts (f k)) (zrange n)) d = exp_counts (f k).
Proof.
  intros Hk. rewrite (nth_indep _ d (exp_counts (f 0))) by (rewrite length_map, length_zrange; lia).
  rewrite (map_nth (fun k => exp_counts (f k))). unfold zrange. change 0 with (Z.of_nat 0). rewrite map_nth, seq_nth by lia.
  f_equal. f_equal. lia.
Qed.

Lemma omap_ext_in {A B} (f g : A -> option B) l : (forall x, In x l -> f x = g x) -> omap f l = omap g l.
Proof.
  induction l as [|x l IH]; intros H; [reflexivity|]. cbn. rewrite (H x) by (left; reflexivity).
  rewrite IH by (intros; apply H; right; assumption). reflexivity.
Qed.

Lemma events_range c l : in_range N_COMBOS (events c combo_events l).
Proof.
  unfold events, in_range. apply Forall_concat, Forall_map, Forall_forall. intros v _. apply combo_events_range.
Qed.

Lemma duration_metric_exact c start now scc all exs (shown : Z -> list exemplar) :
  (forall k, combo_exemplars exs k = shown k) ->
  build_duration_metric scc (combo_agg (expected_agg c all)) exs start now =
  hd (mk_metric [] [] [] (MGauge [])) (expected_metrics c start now scc all shown).
Proof.
  intros Hexs. unfold build_duration_metric, expected_metrics, expected_agg. cbn [combo_agg hd]. f_equal. destruct scc.
  - apply omap_ext_in. intros [[m cl] p] _. cbv zeta. rewrite (nth_cells N_COMBOS (fun k => cell k (events c combo_events all)))
      by apply combo_range. rewrite make_exp_dp_counts, Hexs. reflexivity.
  - change exp_none with (exp_counts []). rewrite <- (map_map (fun k => cell k (events c combo_events all)) exp_counts).
    rewrite add_exp_concat. cbn [app]. rewrite (cells_permute N_COMBOS (events c combo_events all) (events_range c all)). reflexivity.
Qed.

Lemma indexed_metric_exact n f start now (attrs : Z -> list key_value) :
  omap (fun k => make_exp_dp (nth (Z.to_nat k) (map (fun k => exp_counts (f k)) (zrange n)) exp_none) (attrs k) [] start now) (zrange n) =
  omap (fun k => exp_point start now (attrs k) [] (f k)) (zrange n).
Proof. apply omap_ext_in. intros k Hk. apply In_zrange in Hk. rewrite nth_cells by exact Hk. reflexivity. Qed.

Lemma hist_metric_counts n d u bounds vs shown start now :
  hist_metric (mk_spec n d u TCumulative) (hist_counts bounds vs) shown start now = hist_of start now n d u 1 bounds shown vs.
Proof. reflexivity. Qed.
Lemma hist_seconds_counts n d u bounds vs shown start now :
  hist_metric_with_sum (mk_spec n d u TCumulative) (hist_counts bounds vs) (ms_to_s_hist_sum (snd (fst (hist_counts bounds vs)))) shown start now =
  hist_of start now n d u 1000 bounds shown vs.
Proof. reflexivity. Qed.

Lemma route_metric_exact c start now all : build_route_metric (route_agg (expected_agg c all)) (Some c) start now =
  exp_metric $"nginx.http.request.duration.by_route" $"HTTP server request duration by matched location (http.route)"
    (omap (fun k => exp_point start now [kv_str $"http.route" (route_name c k)] [] (cell k (events c route_events all))) (zrange N_ROUTE_SLOTS)).
Proof. unfold build_route_metric. apply f_equal. apply (indexed_metric_exact N_ROUTE_SLOTS (fun k => cell k (events c route_events all))). Qed.

Lemma upstream_metric_exact c start now all : build_upstream_duration_metric (upstream_agg (expected_agg c all)) (Some c) start now =
  exp_metric $"nginx.http.request.duration.by_upstream" $"HTTP server request duration by upstream zone (nginx.upstream.zone)"
    (omap (fun k => exp_point start now [kv_str $"nginx.upstream.zone" (upstream_zone_name c k)] [] (cell k (events c upstream_events all)))
       (zrange N_UPSTREAM_SLOTS)).
Proof. unfold build_upstream_duration_metric. apply f_equal. apply (indexed_metric_exact N_UPSTREAM_SLOTS (fun k => cell k (events c upstream_events all))). Qed.

(** What a collection makes of blocks that hold these requests. *)
Lemma collect_expected c status_code_class_enabled start now blocks (hist : list (list visit * list visit)) :
  Forall2 (fun s h => block_inv c (fst h) (snd h) s) blocks hist ->
  instrumented_collect status_code_class_enabled (Some c) start now blocks =
    (expected_metrics c start now status_code_class_enabled (concat (map fst hist)) (combo_exemplars (concat (map block_exemplars blocks))), map reset_block blocks).
Proof.
  intros HI. unfold instrumented_collect. rewrite aggregate_split, (agg_zero_expected c), (add_blocks_expected c blocks hist HI). cbn [app].
  rewrite (duration_metric_exact c start now status_code_class_enabled (concat (map fst hist)) _ _ (fun k => eq_refl)).
  rewrite route_metric_exact, upstream_metric_exact. unfold expected_agg.
  cbn [req_bytes resp_bytes up_resp up_hdr up_conn up_bytes up_bytes_sent]. rewrite !hist_metric_counts, !hist_seconds_counts.
  unfold expected_metrics. cbn [hd]. reflexivity.
Qed.


