(* ===== verification/Encoder.v ===== *)
(** * The OTLP encoder (src/src/encoder/mod.rs, src/proto/)

    The conversion of the three kinds of batch into the export requests of
    the OTLP protocol.  The message types are those of the [.proto] files, one record per
    message with its fields; turning a message into bytes is prost's generated code and is
    not modelled.  The readers are the specification: what a collector that
    follows the [.proto] files understands of a request. *)
From S2P Require Import Prelude DataModel.

(** ** Messages *)

(** [src/proto/opentelemetry/proto/common/v1/common.proto: 28-67 AnyValue] *)
#[warnings="-register-all"]
Inductive pb_any :=
  | PbAny (value : option pb_value)
with pb_value :=
  | PbString (s : list Z)
  | PbBool (b : bool)
  | PbInt (i : Z)
  | PbDouble (d : f64)
  | PbArray (values : list pb_any)
  | PbKvlist (values : list pb_kv)
  | PbBytes (b : list Z)
with pb_kv :=
  | PbKV (key : list Z) (value : option pb_any).

(** [src/proto/opentelemetry/proto/common/v1/common.proto: 71-81 InstrumentationScope] *)
Record pb_scope := mk_pscope {
  psc_name : list Z; psc_version : list Z; psc_attributes : list pb_kv; psc_dropped : Z
}.

(** [src/proto/opentelemetry/proto/resource/v1/resource.proto: 28-37 Resource] *)
Record pb_resource := mk_presource { prs_attributes : list pb_kv; prs_dropped : Z }.

(** [src/proto/opentelemetry/proto/metrics/v1/metrics.proto: 683-714 Exemplar] *)
Record pb_exemplar := mk_pex {
  pex_filtered_attributes : list pb_kv; pex_time : Z; pex_value : option number_value; pex_span_id : list Z; pex_trace_id : list Z
}.

(** [src/proto/opentelemetry/proto/metrics/v1/metrics.proto: 373-409 NumberDataPoint] *)
Record pb_ndp := mk_pndp {
  pnd_attributes : list pb_kv; pnd_start : Z; pnd_time : Z; pnd_exemplars : list pb_exemplar; pnd_flags : Z;
  pnd_value : option number_value
}.

(** [src/proto/opentelemetry/proto/metrics/v1/metrics.proto: 421-495 HistogramDataPoint] *)
Record pb_hdp := mk_phdp {
  phd_attributes : list pb_kv; phd_start : Z; phd_time : Z; phd_count : Z; phd_sum : option f64;
  phd_bucket_counts : list Z; phd_explicit_bounds : list f64; phd_exemplars : list pb_exemplar; phd_flags : Z;
  phd_min : option f64; phd_max : option f64
}.

(** [src/proto/opentelemetry/proto/metrics/v1/metrics.proto: 572-590 Buckets] *)
Record pb_buckets := mk_pbuckets { pbk_offset : Z; pbk_counts : list Z }.

(** [src/proto/opentelemetry/proto/metrics/v1/metrics.proto: 502-611 ExponentialHistogramDataPoint] *)
Record pb_edp := mk_pedp {
  ped_attributes : list pb_kv; ped_start : Z; ped_time : Z; ped_count : Z; ped_sum : option f64; ped_scale : Z;
  ped_zero_count : Z; ped_positive : option pb_buckets; ped_negative : option pb_buckets; ped_exemplars : list pb_exemplar;
  ped_flags : Z; ped_min : option f64; ped_max : option f64; ped_zero_threshold : f64
}.

(** [src/proto/opentelemetry/proto/metrics/v1/metrics.proto: 203-209 Metric] *)
Inductive pb_data :=
  | PbGauge (pts : list pb_ndp)
  | PbSum (pts : list pb_ndp) (temporality : Z) (is_monotonic : bool)
  | PbHistogram (pts : list pb_hdp) (temporality : Z)
  | PbExpHistogram (pts : list pb_edp) (temporality : Z).

(** [src/proto/opentelemetry/proto/metrics/v1/metrics.proto: 187-219 Metric] *)
Record pb_metric := mk_pmetric {
  pm_name : list Z; pm_description : list Z; pm_unit : list Z; pm_data : option pb_data; pm_metadata : list pb_kv
}.

(** [src/proto/opentelemetry/proto/logs/v1/logs.proto: 128-198 LogRecord] *)
Record pb_log := mk_plog {
  pl_time : Z; pl_observed : Z; pl_severity : Z; pl_severity_text : list Z; pl_body : option pb_any; pl_attributes : list pb_kv;
  pl_dropped : Z; pl_flags : Z; pl_trace_id : list Z; pl_span_id : list Z; pl_event_name : list Z
}.

(** [src/proto/opentelemetry/proto/trace/v1/trace.proto: 205-222 Event] *)
Record pb_event := mk_pevent { pe_time : Z; pe_name : list Z; pe_attributes : list pb_kv; pe_dropped : Z }.

(** [src/proto/opentelemetry/proto/trace/v1/trace.proto: 228-267 Link] *)
Record pb_link := mk_plink {
  pk_trace_id : list Z; pk_span_id : list Z; pk_trace_state : list Z; pk_attributes : list pb_kv; pk_dropped : Z; pk_flags : Z
}.

(** [src/proto/opentelemetry/proto/trace/v1/trace.proto: 302-308 Status] *)
Record pb_status := mk_pstatus { pt_message : list Z; pt_code : Z }.

(** [src/proto/opentelemetry/proto/trace/v1/trace.proto: 90-268 Span] *)
Record pb_span := mk_pspan {
  ps_trace_id : list Z; ps_span_id : list Z; ps_trace_state : list Z; ps_parent_span_id : list Z; ps_flags : Z; ps_name : list Z;
  ps_kind : Z; ps_start : Z; ps_end : Z; ps_attributes : list pb_kv; ps_dropped_attributes : Z; ps_events : list pb_event;
  ps_dropped_events : Z; ps_links : list pb_link; ps_dropped_links : Z; ps_status : option pb_status
}.

(** The three requests have one shape: resources, each with its scopes and their
    items, and the schema URLs. *)
Record pb_scoped (A : Type) := mk_scoped { sd_scope : option pb_scope; sd_items : list A; sd_schema_url : list Z }.
Record pb_resourced (A : Type) := mk_resourced {
  rd_resource : option pb_resource; rd_scopes : list (pb_scoped A); rd_schema_url : list Z
}.
Arguments mk_scoped {A}. Arguments sd_scope {A}. Arguments sd_items {A}. Arguments sd_schema_url {A}.
Arguments mk_resourced {A}. Arguments rd_resource {A}. Arguments rd_scopes {A}. Arguments rd_schema_url {A}.
Abbreviation pb_request A := (list (pb_resourced A)).

(** ** Conversion *)

(** [src/src/encoder/mod.rs: convert_any_value] *)
Fixpoint convert_any_value (v : any_value) : pb_any :=
  PbAny (Some match v with
    | VString s => PbString s
    | VBool b => PbBool b
    | VInt i => PbInt i
    | VDouble d => PbDouble d
    | VBytes b => PbBytes b
    | VArray l => PbArray (map convert_any_value l)
    end).

(** [src/src/encoder/mod.rs: convert_kv] *)
Definition convert_kv (kv : key_value) : pb_kv := PbKV (kv_key kv) (Some (convert_any_value (kv_value kv))).

(** [src/src/encoder/mod.rs: 321-327 convert_metric] *)
Definition proto_temporality (t : aggregation_temporality) : Z :=
  match t with TUnspecified => 0 | TDelta => 1 | TCumulative => 2 end.

(** [src/src/encoder/mod.rs: convert_ndp] *)
Definition convert_ndp (dp : number_data_point) : pb_ndp :=
  mk_pndp (map convert_kv (ndp_attributes dp)) (ndp_start dp) (ndp_time dp) [] 0
    (Some match ndp_value dp with AsInt i => AsInt i | AsDouble d => AsDouble d end).

(** A point whose buckets do not fit its bounds is skipped.
    [src/src/encoder/mod.rs: convert_hdp] *)
Definition convert_hdp (dp : histogram_data_point) : option pb_hdp :=
  let expected_counts := sat_add64 (Z.of_nat (length (hdp_explicit_bounds dp))) 1 in
  if negb (Z.of_nat (length (hdp_bucket_counts dp)) =? expected_counts) then None
  else Some (mk_phdp (map convert_kv (hdp_attributes dp)) (hdp_start dp) (hdp_time dp) (hdp_count dp) (Some (hdp_sum dp))
               (hdp_bucket_counts dp) (hdp_explicit_bounds dp) [] 0 None None).

(** [src/src/encoder/mod.rs: convert_exemplar] *)
Definition convert_exemplar (e : exemplar) : pb_exemplar :=
  mk_pex (map convert_kv (ex_filtered_attributes e)) (ex_time e) (Some (AsDouble (ex_value e)))
    (if ex_has_trace e then ex_span_id e else []) (if ex_has_trace e then ex_trace_id e else []).

Fixpoint drop_zeros (l : list Z) : list Z :=
  match l with [] => [] | x :: l' => if x =? 0 then drop_zeros l' else l end.

(** The trailing zeros are popped.
    [src/src/encoder/mod.rs: 421-424 convert_exp_hdp] *)
Definition trim_zeros (l : list Z) : list Z := rev (drop_zeros (rev l)).

(** [src/src/encoder/mod.rs: convert_exp_hdp] *)
Definition convert_exp_hdp (dp : exp_data_point) : pb_edp :=
  mk_pedp (map convert_kv (edp_attributes dp)) (edp_start dp) (edp_time dp) (edp_count dp) (Some (edp_sum dp)) (edp_scale dp)
    (edp_zero_count dp) (Some (mk_pbuckets (edp_positive_offset dp) (trim_zeros (edp_positive_bucket_counts dp))))
    (Some (mk_pbuckets 0 [])) (map convert_exemplar (edp_exemplars dp)) 0 None None (F64 0 1).

(** [src/src/encoder/mod.rs: convert_metric] *)
Definition convert_metric (m : metric) : pb_metric :=
  mk_pmetric (m_name m) (m_description m) (m_unit m)
    (Some match m_data m with
     | MHistogram t pts => PbHistogram (omap convert_hdp pts) (proto_temporality t)
     | MExponentialHistogram t pts => PbExpHistogram (map convert_exp_hdp pts) (proto_temporality t)
     | MSum t mono pts => PbSum (map convert_ndp pts) (proto_temporality t) mono
     | MGauge pts => PbGauge (map convert_ndp pts)
     end) [].

(** The discriminant, [as i32].
    [src/src/data_model/mod.rs: 225-251 SeverityNumber] *)
Definition severity_code (s : severity_number) : Z :=
  match s with
  | SevUnspecified => 0
  | SevTrace => 1 | SevTrace2 => 2 | SevTrace3 => 3 | SevTrace4 => 4
  | SevDebug => 5 | SevDebug2 => 6 | SevDebug3 => 7 | SevDebug4 => 8
  | SevInfo => 9 | SevInfo2 => 10 | SevInfo3 => 11 | SevInfo4 => 12
  | SevWarn => 13 | SevWarn2 => 14 | SevWarn3 => 15 | SevWarn4 => 16
  | SevError => 17 | SevError2 => 18 | SevError3 => 19 | SevError4 => 20
  | SevFatal => 21 | SevFatal2 => 22 | SevFatal3 => 23 | SevFatal4 => 24
  end.
(** [src/src/data_model/mod.rs: 301-309 SpanKind] *)
Definition kind_code (k : span_kind) : Z :=
  match k with KindUnspecified => 0 | KindInternal => 1 | KindServer => 2 | KindClient => 3 | KindProducer => 4 | KindConsumer => 5 end.
(** [src/src/data_model/mod.rs: 314-322 StatusCode] *)
Definition status_code_of (s : status_code) : Z := match s with StUnset => 0 | StOk => 1 | StError => 2 end.

(** [src/src/encoder/mod.rs: convert_log_record] *)
Definition convert_log_record (lr : log_record) : pb_log :=
  mk_plog (lr_time lr) (lr_observed lr) (severity_code (lr_severity lr)) (lr_severity_text lr)
    (Some (convert_any_value (lr_body lr))) (map convert_kv (lr_attributes lr)) 0 0 (lr_trace_id lr) (lr_span_id lr)
    (lr_event_name lr).

(** [src/src/encoder/mod.rs: convert_span_event] *)
Definition convert_span_event (ev : span_event) : pb_event :=
  mk_pevent (ev_time ev) (ev_name ev) (map convert_kv (ev_attributes ev)) 0.

(** [src/src/encoder/mod.rs: convert_span_link] *)
Definition convert_span_link (l : span_link) : pb_link :=
  mk_plink (lk_trace_id l) (lk_span_id l) [] (map convert_kv (lk_attributes l)) 0 (lk_flags l).

(** [src/src/encoder/mod.rs: convert_span_status] *)
Definition convert_span_status (s : span_status) : pb_status := mk_pstatus (st_message s) (status_code_of (st_code s)).

(** [src/src/encoder/mod.rs: convert_span] *)
Definition convert_span (s : span) : pb_span :=
  mk_pspan (sp_trace_id s) (sp_span_id s) [] (sp_parent_span_id s) (sp_flags s) (sp_name s) (kind_code (sp_kind s))
    (sp_start s) (sp_end s) (map convert_kv (sp_attributes s)) 0 (map convert_span_event (sp_events s)) 0
    (map convert_span_link (sp_links s)) 0 (Some (convert_span_status (sp_status s))).

(** One resource, one scope. *)
Definition request_of {A} (r : resource) (s : scope) (items : list A) : pb_request A :=
  [mk_resourced (Some (mk_presource (map convert_kv (res_attributes r)) 0))
     [mk_scoped (Some (mk_pscope (sc_name s) (sc_version s) [] 0)) items []] []].

(** [src/src/encoder/mod.rs: 109-136 OtlpHttpEncoder::encode] *)
Definition metrics_request (b : batch) : pb_request pb_metric :=
  request_of (b_resource b) (b_scope b) (map convert_metric (b_metrics b)).
(** [src/src/encoder/mod.rs: 155-180 OtlpLogsEncoder::encode] *)
Definition logs_request (b : logs_batch) : pb_request pb_log :=
  request_of (lb_resource b) (lb_scope b) (map convert_log_record (lb_logs b)).
(** [src/src/encoder/mod.rs: 198-223 OtlpTracesEncoder::encode] *)
Definition traces_request (b : spans_batch) : pb_request pb_span :=
  request_of (sb_resource b) (sb_scope b) (map convert_span (sb_spans b)).

(** ** What a collector reads *)

(** A message without a value has no meaning; lists of pairs are not part of the data model. *)
Fixpoint read_any (a : pb_any) : option any_value :=
  match a with
  | PbAny (Some v) =>
      match v with
      | PbString s => Some (VString s)
      | PbBool b => Some (VBool b)
      | PbInt i => Some (VInt i)
      | PbDouble d => Some (VDouble d)
      | PbArray l => VArray <$> mapM read_any l
      | PbKvlist _ => None
      | PbBytes b => Some (VBytes b)
      end
  | PbAny None => None
  end.
Definition read_kv (kv : pb_kv) : option key_value := match kv with PbKV k v => a ← v; KV k <$> read_any a end.

(** The numbers of the enumerations as the protocol assigns them: [AggregationTemporality] of src/proto/opentelemetry/proto/metrics/v1/metrics.proto,
    [SeverityNumber] of logs/v1/logs.proto, [Span.SpanKind] and [Status.StatusCode] of trace/v1/trace.proto. *)
Definition read_temporality (z : Z) : option aggregation_temporality :=
  match z with
  | 0 => Some TUnspecified (* AGGREGATION_TEMPORALITY_UNSPECIFIED *)
  | 1 => Some TDelta       (* AGGREGATION_TEMPORALITY_DELTA *)
  | 2 => Some TCumulative  (* AGGREGATION_TEMPORALITY_CUMULATIVE *)
  | _ => None
  end.
Definition read_severity (z : Z) : option severity_number :=
  match z with
  | 0 => Some SevUnspecified
  | 1 => Some SevTrace | 2 => Some SevTrace2 | 3 => Some SevTrace3 | 4 => Some SevTrace4
  | 5 => Some SevDebug | 6 => Some SevDebug2 | 7 => Some SevDebug3 | 8 => Some SevDebug4
  | 9 => Some SevInfo | 10 => Some SevInfo2 | 11 => Some SevInfo3 | 12 => Some SevInfo4
  | 13 => Some SevWarn | 14 => Some SevWarn2 | 15 => Some SevWarn3 | 16 => Some SevWarn4
  | 17 => Some SevError | 18 => Some SevError2 | 19 => Some SevError3 | 20 => Some SevError4
  | 21 => Some SevFatal | 22 => Some SevFatal2 | 23 => Some SevFatal3 | 24 => Some SevFatal4
  | _ => None
  end.
Definition read_kind (z : Z) : option span_kind :=
  match z with
  | 0 => Some KindUnspecified (* SPAN_KIND_UNSPECIFIED *)
  | 1 => Some KindInternal    (* SPAN_KIND_INTERNAL *)
  | 2 => Some KindServer      (* SPAN_KIND_SERVER *)
  | 3 => Some KindClient      (* SPAN_KIND_CLIENT *)
  | 4 => Some KindProducer    (* SPAN_KIND_PRODUCER *)
  | 5 => Some KindConsumer    (* SPAN_KIND_CONSUMER *)
  | _ => None
  end.
Definition read_status_code (z : Z) : option status_code :=
  match z with
  | 0 => Some StUnset (* STATUS_CODE_UNSET *)
  | 1 => Some StOk    (* STATUS_CODE_OK *)
  | 2 => Some StError (* STATUS_CODE_ERROR *)
  | _ => None
  end.

Definition read_ndp (p : pb_ndp) : option number_data_point :=
  attrs ← mapM read_kv (pnd_attributes p); v ← pnd_value p; Some (mk_ndp attrs (pnd_start p) (pnd_time p) v).

(** The protocol's rule for explicit buckets is part of reading. *)
Definition read_hdp (p : pb_hdp) : option histogram_data_point :=
  attrs ← mapM read_kv (phd_attributes p); sum ← phd_sum p;
  if Nat.eqb (length (phd_bucket_counts p)) (S (length (phd_explicit_bounds p)))
  then Some (mk_hdp attrs (phd_start p) (phd_time p) (phd_count p) sum (phd_bucket_counts p) (phd_explicit_bounds p))
  else None.

(** An exemplar without a trace id has no trace. *)
Definition read_exemplar (p : pb_exemplar) : option exemplar :=
  attrs ← mapM read_kv (pex_filtered_attributes p);
  match pex_value p with
  | Some (AsDouble v) =>
      Some (mk_exemplar v (pex_time p) (pex_trace_id p) (pex_span_id p) (negb (bool_decide (pex_trace_id p = []))) attrs)
  | _ => None
  end.

Definition read_edp (p : pb_edp) : option exp_data_point :=
  attrs ← mapM read_kv (ped_attributes p); sum ← ped_sum p; pos ← ped_positive p; exs ← mapM read_exemplar (ped_exemplars p);
  Some (mk_edp attrs (ped_start p) (ped_time p) (ped_count p) sum (ped_scale p) (ped_zero_count p) (pbk_offset pos) (pbk_counts pos) exs).

Definition read_data (d : pb_data) : option metric_data :=
  match d with
  | PbGauge pts => MGauge <$> mapM read_ndp pts
  | PbSum pts t mono => t ← read_temporality t; MSum t mono <$> mapM read_ndp pts
  | PbHistogram pts t => t ← read_temporality t; MHistogram t <$> mapM read_hdp pts
  | PbExpHistogram pts t => t ← read_temporality t; MExponentialHistogram t <$> mapM read_edp pts
  end.
Definition read_metric (p : pb_metric) : option metric :=
  d ← pm_data p; mk_metric (pm_name p) (pm_description p) (pm_unit p) <$> read_data d.

Definition read_log (p : pb_log) : option log_record :=
  sev ← read_severity (pl_severity p); b ← pl_body p; body ← read_any b; attrs ← mapM read_kv (pl_attributes p);
  Some (mk_log (pl_time p) (pl_observed p) sev (pl_severity_text p) body attrs (pl_event_name p) (pl_trace_id p) (pl_span_id p)).

Definition read_event (p : pb_event) : option span_event := mk_event (pe_time p) (pe_name p) <$> mapM read_kv (pe_attributes p).
Definition read_link (p : pb_link) : option span_link :=
  mk_link (pk_trace_id p) (pk_span_id p) (pk_flags p) <$> mapM read_kv (pk_attributes p).
Definition read_status (p : pb_status) : option span_status := (fun c => mk_status c (pt_message p)) <$> read_status_code (pt_code p).
Definition read_span (p : pb_span) : option span :=
  kind ← read_kind (ps_kind p); attrs ← mapM read_kv (ps_attributes p); evs ← mapM read_event (ps_events p);
  lks ← mapM read_link (ps_links p); s ← ps_status p; st ← read_status s;
  Some (mk_span (ps_trace_id p) (ps_span_id p) (ps_parent_span_id p) (ps_flags p) (ps_name p) kind (ps_start p) (ps_end p)
          attrs evs lks st).

(** One resource with one scope. *)
Definition read_request {A B} (item : A -> option B) (q : pb_request A) : option (resource * scope * list B) :=
  match q with
  | [r] =>
      match rd_resource r, rd_scopes r with
      | Some res, [s] =>
          attrs ← mapM read_kv (prs_attributes res); sc ← sd_scope s; items ← mapM item (sd_items s);
          Some (mk_resource attrs, mk_scope (psc_name sc) (psc_version sc), items)
      | _, _ => None
      end
  | _ => None
  end.
Definition read_metrics (q : pb_request pb_metric) : option batch := (fun '(r, s, l) => mk_batch r s l) <$> read_request read_metric q.
Definition read_logs (q : pb_request pb_log) : option logs_batch := (fun '(r, s, l) => mk_logs_batch r s l) <$> read_request read_log q.
Definition read_spans (q : pb_request pb_span) : option spans_batch := (fun '(r, s, l) => mk_spans_batch r s l) <$> read_request read_span q.

(** ** What arrives *)

Definition hdp_fits (dp : histogram_data_point) : bool :=
  Nat.eqb (length (hdp_bucket_counts dp)) (S (length (hdp_explicit_bounds dp))).
Definition shown_exemplar (e : exemplar) : exemplar :=
  let tid := if ex_has_trace e then ex_trace_id e else [] in
  mk_exemplar (ex_value e) (ex_time e) tid (if ex_has_trace e then ex_span_id e else []) (negb (bool_decide (tid = [])))
    (ex_filtered_attributes e).
Definition shown_edp (dp : exp_data_point) : exp_data_point :=
  mk_edp (edp_attributes dp) (edp_start dp) (edp_time dp) (edp_count dp) (edp_sum dp) (edp_scale dp) (edp_zero_count dp)
    (edp_positive_offset dp) (trim_zeros (edp_positive_bucket_counts dp)) (map shown_exemplar (edp_exemplars dp)).
Definition shown_metric (m : metric) : metric :=
  mk_metric (m_name m) (m_description m) (m_unit m)
    match m_data m with
    | MHistogram t pts => MHistogram t (List.filter hdp_fits pts)
    | MExponentialHistogram t pts => MExponentialHistogram t (map shown_edp pts)
    | d => d
    end.

Lemma mapM_map {A B C} (f : B -> option C) (g : A -> B) (h : A -> C) l :
  Forall (fun a => f (g a) = Some (h a)) l -> mapM f (map g l) = Some (map h l).
Proof. induction 1 as [|a l Ha _ IH]; [reflexivity|]. cbn. rewrite Ha. cbn. rewrite IH. reflexivity. Qed.

Lemma mapM_map_id {A B} (f : B -> option A) (g : A -> B) l : Forall (fun a => f (g a) = Some a) l -> mapM f (map g l) = Some l.
Proof. intros H. rewrite (mapM_map f g id l H), map_id. reflexivity. Qed.

Lemma read_convert_any : forall v, read_any (convert_any_value v) = Some v.
Proof.
  fix IH 1. intros v. destruct v as [s|b|i|d|b|l]; try reflexivity. cbn [convert_any_value read_any].
  rewrite (mapM_map_id read_any convert_any_value); [reflexivity|].
  revert l. fix IHl 1. intros [|a l]; constructor; [apply IH|apply IHl].
Qed.

Lemma read_convert_kv kv : read_kv (convert_kv kv) = Some kv.
Proof. unfold convert_kv, read_kv. cbn. rewrite read_convert_any. destruct kv; reflexivity. Qed.

Lemma read_kvs l : mapM read_kv (map convert_kv l) = Some l.
Proof. apply mapM_map_id, Forall_forall. intros. apply read_convert_kv. Qed.

(** Step through a reader whose attribute lists were converted. *)
Ltac read_step := cbn [mbind option_bind fmap option_fmap option_map]; rewrite ?read_kvs; cbn [mbind option_bind fmap option_fmap option_map].

Lemma read_convert_ndp dp : read_ndp (convert_ndp dp) = Some dp.
Proof. unfold read_ndp, convert_ndp. cbn [pnd_attributes pnd_value pnd_start pnd_time]. read_step. destruct dp as [a s t []]; reflexivity. Qed.

Lemma convert_hdp_fits dp : Z.of_nat (length (hdp_explicit_bounds dp)) < u64_max ->
  convert_hdp dp = if hdp_fits dp then convert_hdp dp else None.
Proof.
  intros Hb. unfold convert_hdp, hdp_fits, sat_add64.
  destruct (Nat.eqb_spec (length (hdp_bucket_counts dp)) (S (length (hdp_explicit_bounds dp)))) as [E|E]; [reflexivity|].
  rewrite (proj2 (Z.eqb_neq _ _)) by lia. reflexivity.
Qed.

Lemma read_convert_hdp dp : hdp_fits dp = true -> Z.of_nat (length (hdp_explicit_bounds dp)) < u64_max ->
  exists p, convert_hdp dp = Some p /\ read_hdp p = Some dp.
Proof.
  unfold hdp_fits, convert_hdp, sat_add64. intros E Hb. apply Nat.eqb_eq in E. rewrite (proj2 (Z.eqb_eq _ _)) by lia. cbn [negb].
  eexists. split; [reflexivity|]. unfold read_hdp. cbn [phd_attributes phd_sum phd_bucket_counts phd_explicit_bounds phd_start phd_time phd_count].
  read_step. rewrite (proj2 (Nat.eqb_eq _ _) E). destruct dp; reflexivity.
Qed.

Lemma read_convert_hdps pts : Forall (fun dp => Z.of_nat (length (hdp_explicit_bounds dp)) < u64_max) pts ->
  mapM read_hdp (omap convert_hdp pts) = Some (List.filter hdp_fits pts).
Proof.
  induction 1 as [|dp pts Hb _ IH]; [reflexivity|]. cbn. destruct (hdp_fits dp) eqn:E.
  - destruct (read_convert_hdp dp E Hb) as (p & -> & Hp). cbn. rewrite Hp. cbn. rewrite IH. reflexivity.
  - rewrite (convert_hdp_fits dp Hb), E. exact IH.
Qed.

Lemma read_convert_exemplar e : read_exemplar (convert_exemplar e) = Some (shown_exemplar e).
Proof.
  unfold read_exemplar, convert_exemplar. cbn [pex_filtered_attributes pex_value pex_time pex_trace_id pex_span_id]. read_step.
  reflexivity.
Qed.

Lemma read_convert_edp dp : read_edp (convert_exp_hdp dp) = Some (shown_edp dp).
Proof.
  unfold read_edp, convert_exp_hdp. cbn [ped_attributes ped_sum ped_positive ped_exemplars ped_start ped_time ped_count ped_scale
    ped_zero_count]. read_step.
  rewrite (mapM_map read_exemplar convert_exemplar shown_exemplar) by (apply Forall_forall; intros; apply read_convert_exemplar).
  reflexivity.
Qed.

Lemma read_proto_temporality t : read_temporality (proto_temporality t) = Some t.
Proof. destruct t; reflexivity. Qed.

(** Bounds lists are shorter than the address space. *)
Definition metric_sized (m : metric) : Prop :=
  match m_data m with
  | MHistogram _ pts => Forall (fun dp => Z.of_nat (length (hdp_explicit_bounds dp)) < u64_max) pts
  | _ => True
  end.

Lemma read_convert_metric m : metric_sized m -> read_metric (convert_metric m) = Some (shown_metric m).
Proof.
  intros Hs. unfold read_metric, convert_metric, shown_metric, metric_sized in *. cbn [pm_data pm_name pm_description pm_unit].
  cbn [mbind option_bind]. destruct (m_data m) as [t pts|t pts|t mono pts|pts] eqn:E; cbn [read_data].
  - rewrite read_proto_temporality. cbn [mbind option_bind]. rewrite read_convert_hdps by exact Hs. reflexivity.
  - rewrite read_proto_temporality. cbn [mbind option_bind].
    rewrite (mapM_map read_edp convert_exp_hdp shown_edp) by (apply Forall_forall; intros; apply read_convert_edp). reflexivity.
  - rewrite read_proto_temporality. cbn [mbind option_bind].
    rewrite (mapM_map_id read_ndp convert_ndp) by (apply Forall_forall; intros; apply read_convert_ndp). reflexivity.
  - rewrite (mapM_map_id read_ndp convert_ndp) by (apply Forall_forall; intros; apply read_convert_ndp). reflexivity.
Qed.

Lemma read_convert_log r : read_log (convert_log_record r) = Some r.
Proof.
  unfold read_log, convert_log_record. cbn [pl_severity pl_body pl_attributes pl_time pl_observed pl_severity_text pl_event_name
    pl_trace_id pl_span_id].
  replace (read_severity (severity_code (lr_severity r))) with (Some (lr_severity r)) by (destruct (lr_severity r); reflexivity).
  cbn [mbind option_bind]. rewrite read_convert_any. read_step. destruct r; reflexivity.
Qed.

Lemma read_convert_span s : read_span (convert_span s) = Some s.
Proof.
  unfold read_span, convert_span. cbn [ps_kind ps_attributes ps_events ps_links ps_status ps_trace_id ps_span_id ps_parent_span_id
    ps_flags ps_name ps_start ps_end].
  replace (read_kind (kind_code (sp_kind s))) with (Some (sp_kind s)) by (destruct (sp_kind s); reflexivity). read_step.
  rewrite (mapM_map_id read_event convert_span_event), (mapM_map_id read_link convert_span_link).
  - replace (read_status (convert_span_status (sp_status s))) with (Some (sp_status s)) by (destruct (sp_status s) as [[] m]; reflexivity).
    destruct s; reflexivity.
  - apply Forall_forall. intros l _. unfold read_link, convert_span_link. cbn [pk_attributes pk_trace_id pk_span_id pk_flags].
    rewrite read_kvs. destruct l; reflexivity.
  - apply Forall_forall. intros l _. unfold read_event, convert_span_event. cbn [pe_attributes pe_time pe_name].
    rewrite read_kvs. destruct l; reflexivity.
Qed.

Lemma read_request_of {A B C} (item : B -> option C) (conv : A -> B) (h : A -> C) r s l :
  Forall (fun a => item (conv a) = Some (h a)) l -> read_request item (request_of r s (map conv l)) = Some (r, s, map h l).
Proof.
  intros H. unfold read_request, request_of. cbn [rd_resource rd_scopes prs_attributes sd_scope sd_items psc_name psc_version].
  read_step. rewrite (mapM_map item conv h l H). destruct r, s; reflexivity.
Qed.

(** Only zeros are popped, and all of them. *)
Lemma read_logs_request b : read_logs (logs_request b) = Some b.
Proof.
  unfold read_logs, logs_request. rewrite (read_request_of read_log convert_log_record id).
  - rewrite map_id. destruct b; reflexivity.
  - apply Forall_forall. intros. apply read_convert_log.
Qed.

Lemma read_traces_request b : read_spans (traces_request b) = Some b.
Proof.
  unfold read_spans, traces_request. rewrite (read_request_of read_span convert_span id).
  - rewrite map_id. destruct b; reflexivity.
  - apply Forall_forall. intros. apply read_convert_span.
Qed.

Lemma drop_zeros_spec l : exists k, l = replicate k 0 ++ drop_zeros l /\ head (drop_zeros l) <> Some 0.
Proof.
  induction l as [|x l (k & E & H)]; [exists 0%nat; split; [reflexivity|discriminate]|]. cbn [drop_zeros].
  destruct (x =? 0) eqn:Ex; [|exists 0%nat; split; [reflexivity|]; cbn; intros [= ->]; discriminate].
  apply Z.eqb_eq in Ex as ->. exists (S k). split; [cbn; rewrite <- E; reflexivity|exact H].
Qed.

Lemma trim_zeros_spec l : exists k, l = trim_zeros l ++ replicate k 0 /\ list.last (trim_zeros l) <> Some 0.
Proof.
  destruct (drop_zeros_spec (rev l)) as (k & E & H). exists k. unfold trim_zeros. split.
  - rewrite <- (rev_involutive l) at 1. rewrite E at 1. rewrite rev_app_distr. f_equal.
    clear. induction k as [|k IH]; [reflexivity|]. cbn. rewrite IH. symmetry. exact (replicate_cons_app k 0).
  - rewrite (rev_alt (drop_zeros (rev l))). change (list.last (reverse (drop_zeros (rev l))) <> Some 0). rewrite last_reverse. exact H.
Qed.

(** C17 (roundtrip). Nothing is lost on the way to the collector.  A log batch
    and a span batch are read back exactly as they were, every attribute, nested array, identifier, status and
    severity included, the enumerations by the numbers the protocol gives them.  A metric batch is read back with its resource, its scope and every metric: counters and gauges
    exactly; an exponential histogram with all its counts, only the empty
    buckets after the last used one left out; an exemplar's identifiers if and only if it has a trace; and of the
    explicit histograms exactly the points that satisfy the protocol's rule
    for bucket counts, so no request is malformed.
    About: metrics_request, logs_request, traces_request, convert_metric, convert_log_record, convert_span, convert_hdp,
    convert_exp_hdp, convert_exemplar, convert_kv, convert_any_value, trim_zeros, proto_temporality, severity_code, kind_code, status_code_of. *)
Theorem requests_read_back b lb sb :
  Forall metric_sized (b_metrics b) ->
  read_metrics (metrics_request b) = Some (mk_batch (b_resource b) (b_scope b) (map shown_metric (b_metrics b))) /\
  read_logs (logs_request lb) = Some lb /\
  read_spans (traces_request sb) = Some sb /\
  (forall l, exists k, l = trim_zeros l ++ replicate k 0 /\ list.last (trim_zeros l) <> Some 0).
Proof.
  intros Hs. split_and!; [| | |apply trim_zeros_spec].
  - unfold read_metrics, metrics_request. rewrite (read_request_of read_metric convert_metric shown_metric); [reflexivity|].
    eapply Forall_impl; [|exact Hs]. intros m. apply read_convert_metric.
  - apply read_logs_request.
  - apply read_traces_request.
Qed.

Definition sample_batch : batch :=
  mk_batch (mk_resource [KV $"service.name" (VString $"web")]) (mk_scope $"ngx-otel" $"1")
    [mk_metric $"a" [] $"s" (MExponentialHistogram TCumulative [mk_edp [] 1 2 3 (F64 5 1000000) 3 0 (-160) [1; 2; 0; 0] []]);
     mk_metric $"b" [] $"By" (MHistogram TCumulative [mk_hdp [] 1 2 1 (F64 9 1) [0; 1] [F64 1 1]; mk_hdp [] 1 2 1 (F64 9 1) [0; 1] []])].

Lemma requests_read_back_witness :
  read_metrics (metrics_request sample_batch) =
  Some (mk_batch (b_resource sample_batch) (b_scope sample_batch)
    [mk_metric $"a" [] $"s" (MExponentialHistogram TCumulative [mk_edp [] 1 2 3 (F64 5 1000000) 3 0 (-160) [1; 2] []]);
     mk_metric $"b" [] $"By" (MHistogram TCumulative [mk_hdp [] 1 2 1 (F64 9 1) [0; 1] [F64 1 1]])]).
Proof.
  refine (proj1 (requests_read_back sample_batch (mk_logs_batch (mk_resource []) (mk_scope [] []) [])
    (mk_spans_batch (mk_resource []) (mk_scope [] []) []) _)).
  repeat constructor.
Defined.
