(* ===== verification/Conn.v ===== *)
(** * Connections (src/src/transport/hyper_http.rs)

    [NgxConnIo]: one outgoing connection on nginx's event loop, as the state
    machine that hyper polls, and [NgxConnector], which opens it.  nginx's side
    is the set of connections it has open and closed, the armed timers and
    the wakers that were called; what the kernel and nginx answer to a call (a
    return code, bytes, an error) is an input of the operation.  A waker is the
    number of its task. *)
From S2P Require Import Prelude DataModel StdText Endpoint Outcome.

(** ** nginx *)

(** [ngx_handler] results. *)
Definition NGX_OK : Z := 0.
Definition NGX_ERROR : Z := -1.
Definition NGX_AGAIN : Z := -2.
Definition NGX_BUSY : Z := -3.
Definition NGX_DECLINED : Z := -4.

(** Connections are numbered as they are allocated.  Closing one that is not
    open is logged by nginx at ALERT. *)
Record ngx_side := mk_ngx {
  nx_next : Z;
  nx_open : list Z;
  nx_closed : list Z;
  nx_timers : list Z;
  nx_woken : list Z;
  nx_alerts : Z
}.

Definition without (k : Z) (l : list Z) : list Z := List.filter (fun j => negb (j =? k)) l.

(** [ngx_event_connect_peer]: on success or [NGX_AGAIN] the connection is allocated, on failure nginx
    has released it and left [pc->connection] null. *)
Definition ngx_event_connect_peer (rc : Z) (s : ngx_side) : option Z * ngx_side :=
  if (rc =? NGX_ERROR) || (rc =? NGX_BUSY) || (rc =? NGX_DECLINED) then (None, s)
  else (Some (nx_next s),
        mk_ngx (nx_next s + 1) (nx_next s :: nx_open s) (nx_closed s) (nx_timers s) (nx_woken s) (nx_alerts s)).

(** [ngx_close_connection] also deletes the connection's timers. *)
Definition ngx_close_connection (k : Z) (s : ngx_side) : ngx_side :=
  if existsb (Z.eqb k) (nx_open s)
  then mk_ngx (nx_next s) (without k (nx_open s)) (k :: nx_closed s) (without k (nx_timers s)) (nx_woken s) (nx_alerts s)
  else mk_ngx (nx_next s) (nx_open s) (nx_closed s) (nx_timers s) (nx_woken s) (nx_alerts s + 1).

Definition ngx_add_timer (k : Z) (s : ngx_side) : ngx_side :=
  mk_ngx (nx_next s) (nx_open s) (nx_closed s) (k :: without k (nx_timers s)) (nx_woken s) (nx_alerts s).
Definition ngx_del_timer (k : Z) (s : ngx_side) : ngx_side :=
  mk_ngx (nx_next s) (nx_open s) (nx_closed s) (without k (nx_timers s)) (nx_woken s) (nx_alerts s).
Definition wake (w : Z) (s : ngx_side) : ngx_side :=
  mk_ngx (nx_next s) (nx_open s) (nx_closed s) (nx_timers s) (nx_woken s ++ [w]) (nx_alerts s).

(** ** One connection *)

(** [src/src/transport/hyper_http.rs: NgxConnIo] *)
Record conn_io := mk_io { pc_connection : option Z; rev_waker : option Z; wev_waker : option Z }.

(** [src/src/transport/hyper_http.rs: NgxConnIo::new] *)
Definition new_io : conn_io := mk_io None None None.

Inductive io_error := TimedOut | OsError (errno : Z) | ConnectionRefused | NotConnected | UnexpectedEof | WriteZero | OtherError.
Inductive poll (A : Type) := Pending | Ready (r : A + io_error).
Arguments Pending {A}. Arguments Ready {A}.

(** The state an operation works on. *)
Abbreviation state := (conn_io * ngx_side)%type.

(** [src/src/transport/hyper_http.rs: close_and_clear] *)
Definition close_and_clear (k : Z) (s : state) : state :=
  let '(io, n) := s in (mk_io None (rev_waker io) (wev_waker io), ngx_close_connection k n).

(** [src/src/transport/hyper_http.rs: NgxConnIo::close] *)
Definition close (s : state) : state :=
  match pc_connection (fst s) with Some k => close_and_clear k s | None => s end.

(** [Drop] and [poll_shutdown] both close.
    [src/src/transport/hyper_http.rs: 1004-1014 NgxConnIo::poll_shutdown] *)
Definition poll_shutdown (s : state) : state := close s.

(** [src/src/transport/hyper_http.rs: NgxConnIo::connect_peer] *)
Definition connect_peer (rc : Z) (s : state) : state :=
  let '(io, n) := s in
  let '(c, n) := ngx_event_connect_peer rc n in
  (mk_io c (rev_waker io) (wev_waker io), n).

(** The error of a socket that has become writable; [sockopt] is the return code of [getsockopt] and the value it stored.
    [src/src/transport/hyper_http.rs: socket_connect_error] *)
Definition socket_connect_error (fd : Z) (sockopt : Z * Z) : option Z :=
  if fd <? 0 then None else
  let '(rc, err) := sockopt in
  if (rc =? 0) && negb (err =? 0) then Some err else None.

(** What a poll of the connect sees: the events' time-outs, the connection's descriptor with its [SO_ERROR], the connect's return code. *)
Record connect_input := mk_cin { ci_timedout : bool; ci_fd : Z; ci_sockopt : Z * Z; ci_rc : Z }.
Abbreviation ci_so_error i := (socket_connect_error (ci_fd i) (ci_sockopt i)).

(** [src/src/transport/hyper_http.rs: NgxConnIo::poll_connect] *)
Definition poll_connect (waker : Z) (i : connect_input) (s : state) : poll unit * state :=
  match pc_connection (fst s) with
  | Some k =>
      if ci_timedout i then (Ready (inr TimedOut), close_and_clear k s)
      else match socket_connect_error (ci_fd i) (ci_sockopt i) with
      | Some err => (Ready (inr (OsError err)), close_and_clear k s)
      | None => (Ready (inl tt), s)
      end
  | None =>
      let '(io, n) := connect_peer (ci_rc i) s in
      if ci_rc i =? NGX_OK then (Ready (inl tt), (io, n))
      else if ci_rc i =? NGX_AGAIN then
        let n := match pc_connection io with Some k => ngx_add_timer k n | None => n end in
        (Pending, (mk_io (pc_connection io) (Some waker) (Some waker), n))
      else (Ready (inr ConnectionRefused), (io, n))
  end.

(** What a read sees: the event's time-out, the return value of [recv] with its bytes, whether the event was re-armed,
    and its [active] and [timer_set] flags. *)
Record read_input := mk_rin {
  ri_timedout : bool; ri_n : Z; ri_bytes : list Z; ri_errno : Z; ri_rearmed : bool; ri_active : bool; ri_timer_set : bool
}.

(** The bytes appended to hyper's buffer.
    [src/src/transport/hyper_http.rs: 864-956 NgxConnIo::poll_read] *)
Definition poll_read (waker : Z) (i : read_input) (s : state) : poll (list Z) * state :=
  let '(io, n) := s in
  match pc_connection io with
  | None => (Ready (inr NotConnected), s)
  | Some k =>
      if ri_timedout i then (Ready (inr TimedOut), s)
      else if ri_n i =? NGX_ERROR then (Ready (inr (OsError (ri_errno i))), s)
      else if negb (ri_rearmed i) then
        if 0 <? ri_n i then (Ready (inl (ri_bytes i)), s) else (Ready (inr UnexpectedEof), s)
      else
        let n := if ri_active i then ngx_add_timer k n else if ri_timer_set i then ngx_del_timer k n else n in
        if ri_n i =? NGX_AGAIN then (Pending, (mk_io (Some k) (Some waker) (wev_waker io), n))
        else (Ready (inl (if 0 <? ri_n i then ri_bytes i else [])), (io, n))
  end.

(** The result is the number of bytes written.
    [src/src/transport/hyper_http.rs: 960-998 NgxConnIo::poll_write] *)
Definition poll_write (waker sent : Z) (s : state) : poll Z * state :=
  let '(io, n) := s in
  match pc_connection io with
  | None => (Ready (inr NotConnected), s)
  | Some k =>
      if sent =? NGX_AGAIN then (Pending, (mk_io (Some k) (rev_waker io) (Some waker), n))
      else if 0 <? sent then (Ready (inl sent), s)
      else (Ready (inr WriteZero), s)
  end.

(** nginx calls the handlers of an open connection.
    [src/src/transport/hyper_http.rs: ngx_otel_conn_read_handler] *)
Definition read_handler (s : state) : state :=
  let '(io, n) := s in
  (mk_io (pc_connection io) None (wev_waker io), match rev_waker io with Some w => wake w n | None => n end).

(** [src/src/transport/hyper_http.rs: ngx_otel_conn_write_handler] *)
Definition write_handler (s : state) : state :=
  let '(io, n) := s in
  (mk_io (pc_connection io) (rev_waker io) None, match wev_waker io with Some w => wake w n | None => n end).

(** ** The life of a connection *)

Inductive conn_op :=
  | OpConnect (waker : Z) (i : connect_input)
  | OpRead (waker : Z) (i : read_input)
  | OpWrite (waker sent : Z)
  | OpShutdown
  | OpReadEvent
  | OpWriteEvent.

(** Events arrive only on an open connection. *)
Definition conn_step (o : conn_op) (s : state) : state :=
  match o with
  | OpConnect w i => snd (poll_connect w i s)
  | OpRead w i => snd (poll_read w i s)
  | OpWrite w sent => snd (poll_write w sent s)
  | OpShutdown => poll_shutdown s
  | OpReadEvent => match pc_connection (fst s) with Some _ => read_handler s | None => s end
  | OpWriteEvent => match pc_connection (fst s) with Some _ => write_handler s | None => s end
  end.
Definition conn_run (ops : list conn_op) (s : state) : state := foldl (fun s o => conn_step o s) s ops.

(** The connection of an [NgxConnIo], if any. *)
Definition held (io : conn_io) : list Z := match pc_connection io with Some k => [k] | None => [] end.

Section lifecycle.
Context (n0 : ngx_side) (Hfresh : Forall (fun k => k < nx_next n0) (nx_open n0)).

(** The connection held is open, the earlier ones were closed once, the other connections of nginx are untouched. *)
Record conn_inv (s : state) : Prop := {
  cv_closed : exists cl, nx_closed (snd s) = cl ++ nx_closed n0 /\ NoDup (held (fst s) ++ cl) /\
    forall k, In k (held (fst s) ++ cl) <-> nx_next n0 <= k < nx_next (snd s);
  cv_open : nx_open (snd s) = held (fst s) ++ nx_open n0;
  cv_alerts : nx_alerts (snd s) = nx_alerts n0;
  cv_next : nx_next n0 <= nx_next (snd s)
}.

Lemma conn_inv_frame io io' n n' : pc_connection io' = pc_connection io -> nx_closed n' = nx_closed n -> nx_open n' = nx_open n ->
  nx_alerts n' = nx_alerts n -> nx_next n' = nx_next n -> conn_inv (io, n) -> conn_inv (io', n').
Proof. intros E1 E2 E3 E4 E5 []. unfold held in *. cbn in *. split; unfold held; cbn; rewrite ?E1, ?E2, ?E3, ?E4, ?E5; assumption. Qed.

Lemma without_fresh k l : Forall (fun j => j < k) l -> without k (k :: l) = l.
Proof.
  intros H. unfold without. cbn. rewrite Z.eqb_refl. cbn. induction H as [|j l Hj _ IH]; [reflexivity|]. cbn.
  rewrite (proj2 (Z.eqb_neq j k)) by lia. cbn. rewrite IH. reflexivity.
Qed.

Lemma close_inv k s : pc_connection (fst s) = Some k -> conn_inv s -> conn_inv (close_and_clear k s).
Proof.
  destruct s as [io n]. cbn [fst]. intros Hk [(cl & C1 & C2 & C3) H2 H3 H4]. cbn [fst snd] in *. unfold held in *. rewrite Hk in *. cbn [app] in *.
  assert (Hlt : Forall (fun j => j < k) (nx_open n0)).
  { eapply Forall_impl; [|exact Hfresh]. intros j Hj. pose proof (proj1 (C3 k) (or_introl eq_refl)). cbv beta in *. lia. }
  unfold close_and_clear, ngx_close_connection. rewrite H2. cbn [existsb]. rewrite Z.eqb_refl. cbn [orb].
  split; unfold held; cbn [fst snd pc_connection nx_closed nx_open nx_alerts nx_next app].
  - exists (k :: cl). rewrite C1. auto.
  - apply without_fresh, Hlt.
  - exact H3.
  - exact H4.
Qed.

Lemma connect_peer_inv rc s : pc_connection (fst s) = None -> conn_inv s -> conn_inv (connect_peer rc s).
Proof.
  destruct s as [io n]. cbn [fst]. intros Hk [(cl & C1 & C2 & C3) H2 H3 H4]. cbn [fst snd] in *. unfold held in *. rewrite Hk in *. cbn [app] in *.
  unfold connect_peer, ngx_event_connect_peer. case_if.
  - split; unfold held; cbn [fst snd pc_connection app]; eauto.
  - split; unfold held; cbn [fst snd pc_connection nx_closed nx_open nx_alerts nx_next app]; [|rewrite H2; reflexivity|exact H3|lia].
    exists cl. split; [exact C1|]. split.
    + constructor; [|exact C2]. rewrite list_elem_of_In, C3. lia.
    + intros k. cbn. rewrite C3.
      lia.
Qed.

Lemma close_any_inv s : conn_inv s -> conn_inv (close s).
Proof. intros H. unfold close. destruct (pc_connection (fst s)) as [k|] eqn:E; [apply close_inv; assumption|exact H]. Qed.

Lemma poll_connect_inv w i s : conn_inv s -> conn_inv (snd (poll_connect w i s)).
Proof.
  intros H. unfold poll_connect. destruct (pc_connection (fst s)) as [k|] eqn:E.
  - case_if; [apply close_inv; assumption|]. case_match; [apply close_inv; assumption|exact H].
  - pose proof (connect_peer_inv (ci_rc i) s E H) as Hp. destruct (connect_peer (ci_rc i) s) as [io n].
    case_if; [exact Hp|]. case_if; [|exact Hp]. cbn [snd].
    eapply conn_inv_frame; [| | | | |exact Hp]; destruct (pc_connection io) eqn:Ec; cbn; auto.
Qed.

Lemma conn_step_inv o s : conn_inv s -> conn_inv (conn_step o s).
Proof.
  intros H. destruct o as [w i|w i|w sent| | |]; cbn [conn_step]; [apply poll_connect_inv; exact H| | |apply close_any_inv; exact H| |].
  - unfold poll_read. destruct s as [io n]. destruct (pc_connection io) as [k|] eqn:E; [|exact H].
    repeat (case_if; try exact H); cbn [snd]; eapply conn_inv_frame; try exact H; cbn; auto.
  - unfold poll_write. destruct s as [io n]. destruct (pc_connection io) as [k|] eqn:E; [|exact H].
    repeat (case_if; try exact H). cbn [snd]. eapply conn_inv_frame; [| | | | |exact H]; cbn; auto.
  - destruct (pc_connection (fst s)); [|exact H]. destruct s as [io n]. cbn [read_handler].
    eapply conn_inv_frame; [| | | | |exact H]; destruct (rev_waker io); reflexivity.
  - destruct (pc_connection (fst s)); [|exact H]. destruct s as [io n]. cbn [write_handler].
    eapply conn_inv_frame; [| | | | |exact H]; destruct (wev_waker io); reflexivity.
Qed.

Lemma conn_run_inv ops : forall s, conn_inv s -> conn_inv (conn_run ops s).
Proof. induction ops as [|o ops IH]; intros s H; [exact H|]. apply IH, conn_step_inv, H. Qed.

Lemma new_io_inv : conn_inv (new_io, n0).
Proof. split; cbn; try reflexivity. exists []. split; [reflexivity|]. split; [constructor|]. intros k. cbn. lia. Qed.
End lifecycle.

(** C31 (safety). A connection is never leaked and never closed twice.  Whatever nginx and
    the kernel answer, whatever hyper polls and in whatever order events arrive, at
    every moment the connection held is the only one of its own that is open, and it has not been
    closed; when the object is dropped every connection that was ever
    allocated for it has been closed exactly once, nginx logs no alert, and the connections of
    others are as they were.
    About: poll_connect, connect_peer, close_and_clear, close, poll_read, poll_write, poll_shutdown, read_handler, write_handler, conn_io. *)
Theorem connections_closed_once n0 ops (s := conn_run ops (new_io, n0)) (d := close s) :
  Forall (fun k => k < nx_next n0) (nx_open n0) ->
  (nx_open (snd s) = held (fst s) ++ nx_open n0 /\ forall k, In k (held (fst s)) -> exists cl, nx_closed (snd s) = cl ++ nx_closed n0 /\ ~ In k cl) /\
  pc_connection (fst d) = None /\ nx_open (snd d) = nx_open n0 /\ nx_alerts (snd d) = nx_alerts n0 /\
  exists cl, nx_closed (snd d) = cl ++ nx_closed n0 /\ NoDup cl /\ forall k, In k cl <-> nx_next n0 <= k < nx_next (snd d).
Proof.
  intros Hf. pose proof (conn_run_inv n0 Hf ops _ (new_io_inv n0)) as Hs. fold s in Hs.
  pose proof (close_any_inv n0 Hf s Hs) as Hd. fold d in Hd. split.
  - destruct Hs as [(cl & C1 & C2 & C3) H2 _ _]. split; [exact H2|]. intros k Hk. exists cl. split; [exact C1|].
    apply list.NoDup_app in C2 as (_ & C2 & _). intros Hin. apply (C2 k); apply list_elem_of_In; assumption.
  - assert (Hn : pc_connection (fst d) = None).
    { unfold d, close. destruct (pc_connection (fst s)) eqn:E; [destruct s; reflexivity|exact E]. }
    destruct Hd as [(cl & C1 & C2 & C3) H2 H3 _]. unfold held in *. rewrite Hn in *. cbn [app] in *. eauto 8.
Qed.

Definition quiet_ngx : ngx_side := mk_ngx 7 [3] [1; 2] [] [] 0.

Lemma connections_closed_once_witness :
  let s := conn_run [OpConnect 1 (mk_cin false 3 (0, 0) NGX_AGAIN); OpReadEvent; OpConnect 1 (mk_cin true 3 (0, 0) 0);
                     OpConnect 1 (mk_cin false 3 (0, 0) NGX_OK); OpWrite 1 5] (new_io, quiet_ngx) in
  nx_closed (snd s) = [7; 1; 2] /\ nx_open (snd (close s)) = [3] /\ nx_alerts (snd (close s)) = 0.
Proof.
  destruct (connections_closed_once quiet_ngx [OpConnect 1 (mk_cin false 3 (0, 0) NGX_AGAIN); OpReadEvent; OpConnect 1 (mk_cin true 3 (0, 0) 0);
    OpConnect 1 (mk_cin false 3 (0, 0) NGX_OK); OpWrite 1 5]) as (_ & _ & Ho & Ha & _).
  - repeat constructor.
  - split; [vm_compute; reflexivity|]. split; [exact Ho|exact Ha].
Defined.

(** ** Wake-ups *)

(** The operations during which a waiting read, or write, keeps its waker. *)
Definition keeps_read (o : conn_op) : bool := match o with OpWrite _ _ | OpWriteEvent => true | _ => false end.
Definition keeps_write (o : conn_op) : bool :=
  match o with OpRead _ i => true | OpReadEvent => true | _ => false end.

Lemma keeps_read_run ops w : forall s, forallb keeps_read ops = true -> rev_waker (fst s) = Some w -> pc_connection (fst s) <> None ->
  rev_waker (fst (conn_run ops s)) = Some w /\ pc_connection (fst (conn_run ops s)) <> None.
Proof.
  induction ops as [|o ops IH]; intros [io n] H Hw Hc; [auto|]. cbn [forallb] in H. apply andb_true_iff in H as [Ho H].
  cbn. apply IH; [exact H| |]; destruct o; try discriminate; cbn; unfold poll_write; cbn in *; destruct (pc_connection io) eqn:E;
    try contradiction; repeat case_if; cbn; auto; congruence.
Qed.

Lemma keeps_write_run ops w : forall s, forallb keeps_write ops = true -> wev_waker (fst s) = Some w -> pc_connection (fst s) <> None ->
  wev_waker (fst (conn_run ops s)) = Some w /\ pc_connection (fst (conn_run ops s)) <> None.
Proof.
  induction ops as [|o ops IH]; intros [io n] H Hw Hc; [auto|]. cbn [forallb] in H. apply andb_true_iff in H as [Ho H].
  cbn. apply IH; [exact H| |]; destruct o; try discriminate; cbn; unfold poll_read; cbn in *; destruct (pc_connection io) eqn:E;
    try contradiction; repeat case_if; cbn; auto; congruence.
Qed.

Lemma read_event_wakes s w : rev_waker (fst s) = Some w -> pc_connection (fst s) <> None ->
  nx_woken (snd (conn_step OpReadEvent s)) = nx_woken (snd s) ++ [w].
Proof. destruct s as [io n]. cbn. intros -> H. destruct (pc_connection io); [reflexivity|contradiction]. Qed.
Lemma write_event_wakes s w : wev_waker (fst s) = Some w -> pc_connection (fst s) <> None ->
  nx_woken (snd (conn_step OpWriteEvent s)) = nx_woken (snd s) ++ [w].
Proof. destruct s as [io n]. cbn. intros -> H. destruct (pc_connection io); [reflexivity|contradiction]. Qed.

Lemma read_wait ops w s : forallb keeps_read ops = true -> rev_waker (fst s) = Some w -> pc_connection (fst s) <> None ->
  nx_woken (snd (conn_step OpReadEvent (conn_run ops s))) = nx_woken (snd (conn_run ops s)) ++ [w].
Proof. intros H H0 H1. destruct (keeps_read_run ops w s H H0 H1) as [E1 E2]. apply read_event_wakes; assumption. Qed.
Lemma write_wait ops w s : forallb keeps_write ops = true -> wev_waker (fst s) = Some w -> pc_connection (fst s) <> None ->
  nx_woken (snd (conn_step OpWriteEvent (conn_run ops s))) = nx_woken (snd (conn_run ops s)) ++ [w].
Proof. intros H H0 H1. destruct (keeps_write_run ops w s H H0 H1) as [E1 E2]. apply write_event_wakes; assumption. Qed.

Lemma poll_read_pending w i s s' : poll_read w i s = (Pending, s') ->
  rev_waker (fst s') = Some w /\ pc_connection (fst s') <> None.
Proof.
  destruct s as [io n]. intros H. unfold poll_read in H. destruct (pc_connection io) as [k|] eqn:E; [|discriminate].
  repeat (match type of H with context [if ?b then _ else _] => destruct b; try discriminate end);
    injection H as <-; split; auto; discriminate.
Qed.

Lemma poll_write_pending w sent s s' : poll_write w sent s = (Pending, s') ->
  wev_waker (fst s') = Some w /\ pc_connection (fst s') <> None.
Proof.
  destruct s as [io n]. intros H. unfold poll_write in H. destruct (pc_connection io) as [k|] eqn:E; [|discriminate].
  repeat (match type of H with context [if ?b then _ else _] => destruct b; try discriminate end).
  injection H as <-; split; auto; discriminate.
Qed.

Lemma poll_quiet o s : o <> OpReadEvent -> o <> OpWriteEvent -> nx_woken (snd (conn_step o s)) = nx_woken (snd s).
Proof.
  destruct o as [w i|w i|w sent| | |], s as [io n]; intros H1 H2; try congruence; cbn.
  - unfold poll_connect, connect_peer, ngx_event_connect_peer, close_and_clear, ngx_close_connection. cbn [fst].
    destruct (pc_connection io); repeat case_if; repeat case_match; reflexivity.
  - unfold poll_read. destruct (pc_connection io); repeat case_if; reflexivity.
  - unfold poll_write. destruct (pc_connection io); repeat case_if; reflexivity.
  - unfold poll_shutdown, close, close_and_clear, ngx_close_connection. cbn [fst].
    destruct (pc_connection io); repeat case_if; reflexivity.
Qed.

(** A pending operation is woken by the event it waits for.  A
    pending connect has its timer armed and is woken by either event, and
    the time-out then ends it; a pending read is woken by the next read event, and a pending write by the next
    write event, whatever the other direction does in between; and no poll wakes a
    task by itself, so the event loop never spins. *)
Theorem pending_is_woken :
  (forall w i s s', poll_connect w i s = (Pending, s') ->
     exists k, pc_connection (fst s') = Some k /\ In k (nx_timers (snd s')) /\
       (forall ev, ev = OpReadEvent \/ ev = OpWriteEvent -> nx_woken (snd (conn_step ev s')) = nx_woken (snd s') ++ [w]) /\
       (forall w' i', ci_timedout i' = true -> fst (poll_connect w' i' s') = Ready (inr TimedOut))) /\
  (forall w i s s' ops, poll_read w i s = (Pending, s') -> forallb keeps_read ops = true ->
     nx_woken (snd (conn_step OpReadEvent (conn_run ops s'))) = nx_woken (snd (conn_run ops s')) ++ [w]) /\
  (forall w sent s s' ops, poll_write w sent s = (Pending, s') -> forallb keeps_write ops = true ->
     nx_woken (snd (conn_step OpWriteEvent (conn_run ops s'))) = nx_woken (snd (conn_run ops s')) ++ [w]) /\
  (forall o s, o <> OpReadEvent -> o <> OpWriteEvent -> nx_woken (snd (conn_step o s)) = nx_woken (snd s)).
Proof.
  split_and!.
  - intros w i [io n] s' H. unfold poll_connect, connect_peer, ngx_event_connect_peer in H. cbn [fst] in H.
    destruct (pc_connection io) eqn:E; [destruct (ci_timedout i); [discriminate|destruct (ci_so_error i); discriminate]|].
    destruct (ci_rc i =? NGX_AGAIN) eqn:Ea; zify_bool.
    + rewrite Ea in H. cbn in H. injection H as <-. eexists. split; [reflexivity|]. split; [left; reflexivity|]. split.
      * intros ev [-> | ->]; reflexivity.
      * intros w' i' Hi'. unfold poll_connect. cbn. rewrite Hi'. reflexivity.
    + destruct ((ci_rc i =? NGX_ERROR) || (ci_rc i =? NGX_BUSY) || (ci_rc i =? NGX_DECLINED)), (ci_rc i =? NGX_OK); discriminate.
  - intros w i s s' ops H Hops. destruct (poll_read_pending _ _ _ _ H). apply read_wait; assumption.
  - intros w sent s s' ops H Hops. destruct (poll_write_pending _ _ _ _ H). apply write_wait; assumption.
  - apply poll_quiet.
Qed.

(** ** The connector *)

(** Awaiting the connect: polls until one is ready; [None] while it still waits.
    [src/src/transport/hyper_http.rs: 1459-1461 NgxConnector::connect] *)
Fixpoint await_connect (waker : Z) (polls : list connect_input) (s : state) : option ((unit + io_error) * state) :=
  match polls with
  | [] => None
  | i :: polls =>
      match poll_connect waker i s with
      | (Ready r, s) => Some (r, s)
      | (Pending, s) => await_connect waker polls s
      end
  end.

(** An attempt: whether nginx's pools could be allocated, and what the polls see. *)
Record attempt := mk_attempt { at_alloc : bool; at_polls : list connect_input }.

(** The outcome of a connect: the connection, or an error; [None] while it still waits. *)
Abbreviation connected := (option ((conn_io + transport_error) * ngx_side)).

(** The addresses in order, the first success wins; a failed attempt is dropped.
    [src/src/transport/hyper_http.rs: 1535-1572 NgxConnector::connect_dns] *)
Fixpoint try_addrs (waker : Z) (addrs : list attempt) (n : ngx_side) : connected :=
  match addrs with
  | [] => Some (inr Connection, n)
  | a :: addrs =>
      if negb (at_alloc a) then Some (inr Connection, n) else
      match await_connect waker (at_polls a) (new_io, n) with
      | None => None
      | Some (inl _, (io, n)) => Some (inl io, n)
      | Some (inr _, s) => try_addrs waker addrs (snd (close s))
      end
  end.

(** [addrs] is what the resolver answers.
    [src/src/transport/hyper_http.rs: NgxConnector::connect_dns] *)
Definition connect_dns (waker : Z) (resolver : option Z) (pool_ok : bool) (addrs : option (list attempt)) (n : ngx_side) : connected :=
  match resolver with
  | None => Some (inr Connection, n)
  | Some _ =>
      if negb pool_ok then Some (inr Connection, n) else
      match addrs with
      | None => Some (inr Connection, n)
      | Some [] => Some (inr Connection, n)
      | Some l => try_addrs waker l n
      end
  end.

(** What a connect sees: how the peer at an IP literal and port answers, and the answer of the resolver for a name, each address
    with what dialling it at the port meets. *)
Record connect_env := mk_cenv {
  ce_resolver : option Z; ce_pool_ok : bool; ce_direct : list Z -> Z -> attempt; ce_resolve_pool_ok : bool; ce_addrs : list Z -> Z -> option (list attempt)
}.

(** [src/src/transport/hyper_http.rs: NgxConnector::connect] *)
Definition connect (waker : Z) (e : connect_env) (endpoint : parsed_endpoint) (n : ngx_side) : connected :=
  match endpoint with
  | EHttp host port _ | EHttps host port _ =>
      let host_str := strip_v6_brackets host in
      if negb (ce_pool_ok e) then Some (inr Connection, n)
      else if is_ip_literal host_str then
        let a := ce_direct e host_str port in
        if negb (at_alloc a) then Some (inr Connection, n) else
        match await_connect waker (at_polls a) (new_io, n) with
        | None => None
        | Some (inl _, (io, n)) => Some (inl io, n)
        | Some (inr _, s) => Some (inr Connection, snd (close s))
        end
      else connect_dns waker (ce_resolver e) (ce_resolve_pool_ok e) (ce_addrs e host_str port) n
  | EUnix _ _ => Some (inr Connection, n)
  end.

(** ** A connect that is given up *)

(** The state after polls that were all pending. *)
Fixpoint await_left (waker : Z) (polls : list connect_input) (s : state) : state :=
  match polls with [] => s | i :: polls => await_left waker polls (snd (poll_connect waker i s)) end.

(** Dropping the future of an attempt that still waits drops its [NgxConnIo].
    [src/src/transport/hyper_http.rs: 1010-1014 NgxConnIo::drop] *)
Definition attempt_dropped (waker : Z) (a : attempt) (n : ngx_side) : ngx_side :=
  snd (close (await_left waker (at_polls a) (new_io, n))).

(** The attempt in flight is the first that neither failed nor succeeded.
    [src/src/transport/hyper_http.rs: 1535-1572 NgxConnector::connect_dns] *)
Fixpoint try_addrs_dropped (waker : Z) (addrs : list attempt) (n : ngx_side) : ngx_side :=
  match addrs with
  | [] => n
  | a :: addrs =>
      match await_connect waker (at_polls a) (new_io, n) with
      | Some (inr _, s) => try_addrs_dropped waker addrs (snd (close s))
      | _ => attempt_dropped waker a n
      end
  end.

(** What dropping a [connect] that still waits leaves of nginx's state.
    [src/src/transport/hyper_http.rs: NgxConnector::connect] *)
Definition connect_dropped (waker : Z) (e : connect_env) (endpoint : parsed_endpoint) (n : ngx_side) : ngx_side :=
  match endpoint with
  | EHttp host port _ | EHttps host port _ =>
      let host_str := strip_v6_brackets host in
      if is_ip_literal host_str then attempt_dropped waker (ce_direct e host_str port) n
      else try_addrs_dropped waker (default [] (ce_addrs e host_str port)) n
  | EUnix _ _ => n
  end.

(** The outcome of the polls does not depend on nginx's other connections. *)
Definition reaches (a : attempt) : option (unit + io_error) := fst <$> await_connect 0 (at_polls a) (new_io, quiet_ngx).

Lemma await_indep w w' polls : forall s s', pc_connection (fst s) = None <-> pc_connection (fst s') = None ->
  fst <$> await_connect w polls s = fst <$> await_connect w' polls s'.
Proof.
  induction polls as [|i polls IH]; intros [io n] [io' n'] H; [reflexivity|]. cbn [await_connect]. unfold poll_connect, connect_peer. cbn [fst] in *.
  destruct (pc_connection io) as [k|] eqn:E, (pc_connection io') as [k'|] eqn:E'.
  - destruct (ci_timedout i); [reflexivity|]. destruct (ci_so_error i); reflexivity.
  - destruct H as [_ H]. discriminate (H eq_refl).
  - destruct H as [H _]. discriminate (H eq_refl).
  - unfold ngx_event_connect_peer. case_if; cbn -[await_connect]; repeat (case_if; try reflexivity);
      try (apply IH; cbn; split; discriminate); apply IH; cbn; auto.
Qed.

Lemma reaches_at w a n : fst <$> await_connect w (at_polls a) (new_io, n) = reaches a.
Proof. apply await_indep. cbn. auto. Qed.

(** What awaiting leaves behind: on success one connection is open, held and not
    closed; after a failure and its drop, none. *)
Lemma await_leaves n0 w polls : Forall (fun k => k < nx_next n0) (nx_open n0) ->
  forall s, conn_inv n0 s -> forall r s', await_connect w polls s = Some (r, s') -> conn_inv n0 s' /\
    match r with inl _ => pc_connection (fst s') <> None | inr _ => True end.
Proof.
  intros Hf. induction polls as [|i polls IH]; intros s Hs r s' H; [discriminate|]. cbn in H.
  pose proof (poll_connect_inv n0 Hf w i s Hs) as Hp.
  assert (Hok : fst (poll_connect w i s) = Ready (inl tt) -> pc_connection (fst (snd (poll_connect w i s))) <> None).
  { destruct s as [io n]. unfold poll_connect, connect_peer, ngx_event_connect_peer. cbn [fst].
    destruct (pc_connection io) eqn:E; [destruct (ci_timedout i); [discriminate|destruct (ci_so_error i); [discriminate|cbn; congruence]]|].
    destruct (ci_rc i =? NGX_OK) eqn:E0; zify_bool; [rewrite E0; cbn; discriminate|].
    repeat case_if; discriminate. }
  destruct (poll_connect w i s) as [[|[[]|e]] s1]; cbn [fst snd] in *; [eapply IH; eassumption| |]; injection H as <- <-; auto.
Qed.

Definition ngx_fresh (n : ngx_side) : Prop := Forall (fun k => k < nx_next n) (nx_open n).

Lemma attempt_spec w polls n : ngx_fresh n ->
  match await_connect w polls (new_io, n) with
  | None => True
  | Some (inl _, (io, n')) => exists k, pc_connection io = Some k /\ nx_open n' = k :: nx_open n /\ nx_alerts n' = nx_alerts n
  | Some (inr _, s) => nx_open (snd (close s)) = nx_open n /\ nx_alerts (snd (close s)) = nx_alerts n /\ ngx_fresh (snd (close s))
  end.
Proof.
  intros Hf. pose proof (await_leaves n w polls Hf (new_io, n) (new_io_inv n)) as H.
  destruct (await_connect w polls (new_io, n)) as [[[[]|e] s]|]; [| |exact I]; destruct (H _ _ eq_refl) as [Hi Hc].
  - destruct s as [io n']. destruct Hi as [_ Ho Ha _]. unfold held in Ho. cbn [fst snd] in *.
    destruct (pc_connection io) as [k|]; [|contradiction]. exists k. auto.
  - pose proof (close_any_inv n Hf s Hi) as Hd. assert (Hn : held (fst (close s)) = []).
    { unfold close, held. destruct (pc_connection (fst s)) eqn:E; [destruct s; reflexivity|rewrite E; reflexivity]. }
    destruct Hd as [_ Ho Ha Hx]. rewrite Hn in Ho. cbn [app] in Ho. split; [exact Ho|]. split; [exact Ha|].
    unfold ngx_fresh. rewrite Ho. eapply Forall_impl; [|exact Hf]. intros k Hk. cbv beta in *. lia.
Qed.

(** What a connect leaves behind. *)
Definition clean (n : ngx_side) (r : connected) : Prop :=
  match r with
  | None => True
  | Some (inl io, n') => exists k, pc_connection io = Some k /\ nx_open n' = k :: nx_open n /\ nx_alerts n' = nx_alerts n
  | Some (inr err, n') => err = Connection /\ nx_open n' = nx_open n /\ nx_alerts n' = nx_alerts n
  end.

Lemma try_addrs_clean w addrs : forall n, ngx_fresh n -> clean n (try_addrs w addrs n).
Proof.
  induction addrs as [|a addrs IH]; intros n Hf; cbn [try_addrs]; [cbn; auto|]. destruct (at_alloc a); [|cbn; auto]. cbn [negb].
  pose proof (attempt_spec w (at_polls a) n Hf) as H. destruct (await_connect w (at_polls a) (new_io, n)) as [[[[]|e] s]|]; [| |exact I].
  - destruct s as [io n']. exact H.
  - destruct H as (H1 & H2 & H3). specialize (IH _ H3). unfold clean in *.
    destruct (try_addrs w addrs (snd (close s))) as [[[io|err] n']|]; [| |exact I]; rewrite H1, H2 in IH; exact IH.
Qed.

Definition fails (a : attempt) : Prop := at_alloc a = true /\ exists e, reaches a = Some (inr e).

Lemma try_addrs_skips w pre : forall n rest, Forall fails pre -> exists n', try_addrs w (pre ++ rest) n = try_addrs w rest n'.
Proof.
  induction pre as [|a pre IH]; intros n rest H; [exists n; reflexivity|]. apply Forall_cons_iff in H as [[Ha (e & He)] H].
  cbn [app try_addrs]. rewrite Ha. cbn [negb]. pose proof (reaches_at w a n) as E. rewrite He in E.
  destruct (await_connect w (at_polls a) (new_io, n)) as [[r s]|]; [|discriminate]. injection E as ->. apply IH, H.
Qed.

(** The connection of a successful connect belongs to the caller, beside nginx's others. *)
Definition owned (n : ngx_side) (s : state) : Prop :=
  exists n1, nx_open n1 = nx_open n /\ nx_alerts n1 = nx_alerts n /\ ngx_fresh n1 /\ conn_inv n1 s.

Lemma await_owned w polls n u s : ngx_fresh n -> await_connect w polls (new_io, n) = Some (inl u, s) -> owned n s.
Proof. intros Hf H. exists n. split_and!; auto. exact (proj1 (await_leaves n w polls Hf _ (new_io_inv n) _ _ H)). Qed.

Lemma try_addrs_owned w addrs : forall n io n', ngx_fresh n -> try_addrs w addrs n = Some (inl io, n') -> owned n (io, n').
Proof.
  induction addrs as [|a addrs IH]; intros n io n' Hf; cbn [try_addrs]; [discriminate|]. case_if; [discriminate|].
  pose proof (attempt_spec w (at_polls a) n Hf) as H. pose proof (await_owned w (at_polls a) n) as Hs.
  destruct (await_connect w (at_polls a) (new_io, n)) as [[[u|e] s]|]; [| |discriminate].
  - destruct s as [io1 n1]. intros [= <- <-]. exact (Hs u _ Hf eq_refl).
  - destruct H as (H1 & H2 & H3). intros Ht. destruct (IH _ _ _ H3 Ht) as (n1 & E1 & E2 & E3 & E4).
    exists n1. rewrite E1, E2. auto.
Qed.

Lemma connect_owned w e endpoint n io n' : ngx_fresh n -> connect w e endpoint n = Some (inl io, n') -> owned n (io, n').
Proof.
  intros Hf. assert (Hd : forall host port, (match is_ip_literal host with
      | true => if negb (at_alloc (ce_direct e host port)) then Some (inr Connection, n) else
        match await_connect w (at_polls (ce_direct e host port)) (new_io, n) with
        | None => None | Some (inl _, (io, n)) => Some (inl io, n) | Some (inr _, s) => Some (inr Connection, snd (close s)) end
      | false => connect_dns w (ce_resolver e) (ce_resolve_pool_ok e) (ce_addrs e host port) n end) = Some (inl io, n') -> owned n (io, n')).
  { intros host port. destruct (is_ip_literal host).
    - case_if; [discriminate|]. pose proof (await_owned w (at_polls (ce_direct e host port)) n) as Hs.
      destruct (await_connect w _ (new_io, n)) as [[[u|x] [io1 n1]]|]; [|discriminate|discriminate]. intros [= <- <-]. exact (Hs u _ Hf eq_refl).
    - unfold connect_dns. destruct (ce_resolver e); [|discriminate]. case_if; [discriminate|].
      destruct (ce_addrs e host port) as [[|a l]|]; try discriminate. apply try_addrs_owned, Hf. }
  unfold connect. destruct endpoint as [host port path|host port path|socket path]; [| |discriminate];
    (case_if; [discriminate|exact (Hd _ _)]).
Qed.

(** Whatever is done with it, closing it leaves nothing open. *)
Lemma owned_released n s ops : owned n s ->
  nx_open (snd (close (conn_run ops s))) = nx_open n /\ nx_alerts (snd (close (conn_run ops s))) = nx_alerts n.
Proof.
  intros (n1 & E1 & E2 & Hf & Hi). pose proof (close_any_inv n1 Hf _ (conn_run_inv n1 Hf ops s Hi)) as [_ Ho Ha _].
  assert (Hn : held (fst (close (conn_run ops s))) = []).
  { unfold close, held. destruct (pc_connection (fst (conn_run ops s))) eqn:E; [destruct (conn_run ops s); reflexivity|rewrite E; reflexivity]. }
  rewrite Hn in Ho. cbn [app] in Ho. rewrite <- E1, <- E2. auto.
Qed.

Lemma connect_clean w e endpoint n : ngx_fresh n -> clean n (connect w e endpoint n).
Proof.
  intros Hf.
  assert (He : forall n', nx_open n' = nx_open n -> nx_alerts n' = nx_alerts n -> clean n (Some (inr Connection, n'))) by (cbn; auto).
  assert (Hd : forall host port, clean n (connect_dns w (ce_resolver e) (ce_resolve_pool_ok e) (ce_addrs e host port) n)).
  { intros host port. unfold connect_dns. destruct (ce_resolver e); [|apply He; reflexivity]. destruct (ce_resolve_pool_ok e); cbn [negb]; [|apply He; reflexivity].
    destruct (ce_addrs e host port) as [[|a l]|]; auto. apply try_addrs_clean, Hf. }
  assert (Hip : forall a, clean n (match await_connect w (at_polls a) (new_io, n) with
    | None => None | Some (inl _, (io, n)) => Some (inl io, n) | Some (inr _, s) => Some (inr Connection, snd (close s)) end)).
  { intros a. pose proof (attempt_spec w (at_polls a) n Hf) as H. destruct (await_connect w (at_polls a) (new_io, n)) as [[[[]|x] s]|]; [| |exact I].
    - destruct s as [io n']. exact H.
    - destruct H as (H1 & H2 & _). apply He; assumption. }
  unfold connect. destruct endpoint; cbv zeta; repeat case_if; auto.
Qed.

(** ngx_fresh survives, and what was open before is open again. *)
Definition restored (n n' : ngx_side) : Prop := nx_open n' = nx_open n /\ nx_alerts n' = nx_alerts n /\ ngx_fresh n'.

Lemma restored_refl n : ngx_fresh n -> restored n n.
Proof. unfold restored. auto. Qed.

Lemma restored_trans n n1 n2 : restored n n1 -> restored n1 n2 -> restored n n2.
Proof. unfold restored. intros (E1 & E2 & _) (E3 & E4 & Hf). rewrite E3, E4. auto. Qed.

(** Closing a connection of one's own restores everything. *)
Lemma inv_closed n s : ngx_fresh n -> conn_inv n s -> restored n (snd (close s)).
Proof.
  intros Hf Hi. pose proof (close_any_inv n Hf s Hi) as [_ Ho Ha Hx].
  assert (Hn : held (fst (close s)) = []).
  { unfold close, held. destruct (pc_connection (fst s)) eqn:E; [destruct s; reflexivity|rewrite E; reflexivity]. }
  rewrite Hn in Ho. cbn [app] in Ho. split_and!; [exact Ho|exact Ha|].
  unfold ngx_fresh. rewrite Ho. eapply Forall_impl; [|exact Hf]. intros k Hk. cbv beta in *. lia.
Qed.

Lemma attempt_dropped_clean w a n : ngx_fresh n -> restored n (attempt_dropped w a n).
Proof.
  intros Hf. unfold attempt_dropped. apply inv_closed; [exact Hf|].
  generalize (new_io_inv n). generalize (new_io, n). induction (at_polls a) as [|i polls IH]; intros s Hs; [exact Hs|].
  apply IH, poll_connect_inv; assumption.
Qed.

Lemma connect_dropped_clean w e endpoint n : ngx_fresh n -> restored n (connect_dropped w e endpoint n).
Proof.
  intros Hf. assert (Ht : forall addrs n, ngx_fresh n -> restored n (try_addrs_dropped w addrs n)).
  { clear. induction addrs as [|a addrs IH]; intros n Hf; cbn [try_addrs_dropped]; [apply restored_refl, Hf|].
    pose proof (await_leaves n w (at_polls a) Hf (new_io, n) (new_io_inv n)) as H.
    destruct (await_connect w (at_polls a) (new_io, n)) as [[[u|err] s]|]; try apply attempt_dropped_clean, Hf.
    destruct (H _ _ eq_refl) as [Hi _]. pose proof (inv_closed n s Hf Hi) as Hc.
    eapply restored_trans; [exact Hc|]. apply IH, Hc. }
  unfold connect_dropped. destruct endpoint; [| |apply restored_refl, Hf]; case_if; auto using attempt_dropped_clean.
Qed.

(** So does a connect that fails. *)
Lemma connect_failed w e endpoint n err n' : ngx_fresh n -> connect w e endpoint n = Some (inr err, n') -> restored n n'.
Proof.
  intros Hf. assert (Ht : forall addrs n, ngx_fresh n -> try_addrs w addrs n = Some (inr err, n') -> restored n n').
  { clear. induction addrs as [|a addrs IH]; intros n Hf; cbn [try_addrs]; [intros [= _ <-]; apply restored_refl, Hf|].
    case_if; [intros [= _ <-]; apply restored_refl, Hf|].
    pose proof (await_leaves n w (at_polls a) Hf (new_io, n) (new_io_inv n)) as H.
    destruct (await_connect w (at_polls a) (new_io, n)) as [[[u|x] s]|]; [destruct s; discriminate| |discriminate].
    destruct (H _ _ eq_refl) as [Hi _]. pose proof (inv_closed n s Hf Hi) as Hc.
    intros Hr. eapply restored_trans; [exact Hc|]. eapply IH; [apply Hc|exact Hr]. }
  assert (Hn : Some (@inr conn_io _ Connection, n) = Some (inr err, n') -> restored n n') by (intros [= _ <-]; apply restored_refl, Hf).
  assert (Hip : forall host port, match await_connect w (at_polls (ce_direct e host port)) (new_io, n) with
      | None => None | Some (inl _, (io, n)) => Some (inl io, n) | Some (inr _, s) => Some (inr Connection, snd (close s)) end = Some (inr err, n') -> restored n n').
  { intros host port. pose proof (await_leaves n w (at_polls (ce_direct e host port)) Hf (new_io, n) (new_io_inv n)) as H.
    destruct (await_connect w (at_polls (ce_direct e host port)) (new_io, n)) as [[[u|x] s]|]; [destruct s; discriminate| |discriminate].
    destruct (H _ _ eq_refl) as [Hi _]. intros [= _ <-]. exact (inv_closed n s Hf Hi). }
  assert (Hd : forall host port, connect_dns w (ce_resolver e) (ce_resolve_pool_ok e) (ce_addrs e host port) n = Some (inr err, n') -> restored n n').
  { intros host port. unfold connect_dns. destruct (ce_resolver e); [|exact Hn]. case_if; [exact Hn|].
    destruct (ce_addrs e host port) as [[|a l]|]; [exact Hn|apply Ht, Hf|exact Hn]. }
  unfold connect. destruct endpoint as [host port path|host port path|socket path]; cbv zeta; repeat case_if; auto; apply Hip || apply Hd.
Qed.

(** Releasing an owned connection restores everything. *)
Lemma owned_restored n s ops : owned n s -> restored n (snd (close (conn_run ops s))).
Proof.
  intros (n1 & E1 & E2 & Hf & Hi). destruct (inv_closed n1 _ Hf (conn_run_inv n1 Hf ops s Hi)) as (E3 & E4 & Hf').
  unfold restored. rewrite E3, E4. auto.
Qed.

(** Opening a connection.  A success leaves exactly one new
    connection open, the one returned; an error is a connection error, with nothing left open and no
    alert.  For a name, the resolver's addresses are tried in order and the first that can be
    reached is used; the connect fails only if every one does.  Without a resolver, or without an address, it
    fails; and an endpoint on a Unix socket always fails. *)
Theorem connector_exact w e endpoint n :
  ngx_fresh n ->
  clean n (connect w e endpoint n) /\
  (forall resolver pre a post, at_alloc a = true -> Forall fails pre -> reaches a = Some (inl tt) ->
     exists io n', connect_dns w (Some resolver) true (Some (pre ++ a :: post)) n = Some (inl io, n')) /\
  (forall resolver l, Forall fails l -> exists n', connect_dns w (Some resolver) true (Some l) n = Some (inr Connection, n')) /\
  (forall pool_ok addrs, connect_dns w None pool_ok addrs n = Some (inr Connection, n)) /\
  (forall socket path, connect w e (EUnix socket path) n = Some (inr Connection, n)).
Proof.
  intros Hf. split_and!; [| | |reflexivity|reflexivity].
  - apply connect_clean, Hf.
  - intros resolver pre a post Ha Hpre Hr. unfold connect_dns. cbn [negb].
    assert (Hex : exists io n', try_addrs w (pre ++ a :: post) n = Some (inl io, n')).
    { destruct (try_addrs_skips w pre n (a :: post) Hpre) as (n' & ->). cbn [try_addrs]. rewrite Ha. cbn [negb].
      pose proof (reaches_at w a n') as E. rewrite Hr in E. destruct (await_connect w (at_polls a) (new_io, n')) as [[r [io n2]]|]; [|discriminate].
      injection E as ->. eauto. }
    destruct pre; exact Hex.
  - intros resolver l Hl. destruct (try_addrs_skips w l n [] Hl) as (n' & E). rewrite app_nil_r in E. unfold connect_dns. cbn [negb].
    destruct l; [exists n; reflexivity|]. rewrite E. exists n'. reflexivity.
Qed.

(** Two addresses: the first refuses, the second accepts. *)
Lemma connector_exact_witness :
  exists io n', connect_dns 1 (Some 8) true
    (Some [mk_attempt true [mk_cin false 3 (0, 0) NGX_AGAIN; mk_cin false 3 (0, 111) 0]; mk_attempt true [mk_cin false 3 (0, 0) NGX_OK]]) quiet_ngx
    = Some (inl io, n').
Proof.
  destruct (connector_exact 1 (mk_cenv (Some 8) true (fun _ _ => mk_attempt true []) true (fun _ _ => None)) (EUnix [] []) quiet_ngx) as (_ & H & _).
  - repeat constructor.
  - apply (H 8 [mk_attempt true [mk_cin false 3 (0, 0) NGX_AGAIN; mk_cin false 3 (0, 111) 0]] (mk_attempt true [mk_cin false 3 (0, 0) NGX_OK]) []).
    + reflexivity.
    + constructor; [|constructor]. split; [reflexivity|]. exists (OsError 111). reflexivity.
    + reflexivity.
Defined.
