(* ===== verification/Bio.v ===== *)
(** * The BIO methods of the TLS streams (src/src/transport/tls.rs)

    OpenSSL reaches a connection through a table of callbacks, one table per type of connection, made when it is first
    needed and kept for the life of the process.  The callbacks cast the BIO's data to the type they were made for, so a table must never serve another
    type; [bio_methods_typed] shows that none does, and that no table is made twice. *)
From stdpp Require Import gmap.
From S2P Require Import Prelude Outcome.

(** [src/src/transport/tls.rs: BIO_TYPE_SOURCE_SINK] *)
Definition BIO_TYPE_SOURCE_SINK : Z := 1024.

(** A [BIO_METHOD]: its type, and the connection type whose callbacks were installed, once they were. *)
Record bio_meth := mk_meth { bm_type : Z; bm_io : option Z }.

(** OpenSSL's tables by address, the next index it hands out, and the module's registry of (type, address).
    [src/src/transport/tls.rs: 375-376 BIO_METHODS] *)
Record bio_state := mk_bio { bs_methods : gmap Z bio_meth; bs_next_index : Z; bs_reg : list (Z * Z) }.
Definition no_methods : bio_state := mk_bio ∅ 1 [].

(** [BIO_get_new_index]. *)
Definition BIO_get_new_index (s : bio_state) : Z * bio_state :=
  (bs_next_index s, mk_bio (bs_methods s) (bs_next_index s + 1) (bs_reg s)).
(** [BIO_meth_new]: [m] is the address of the new table, [None] if there is no memory. *)
Definition BIO_meth_new (type : Z) (m : option Z) (s : bio_state) : option Z * bio_state :=
  match m with
  | Some m => (Some m, mk_bio (<[m := mk_meth type None]> (bs_methods s)) (bs_next_index s) (bs_reg s))
  | None => (None, s)
  end.
(** The five [BIO_meth_set_*] calls. *)
Definition BIO_meth_set (m io : Z) (s : bio_state) : bio_state :=
  mk_bio (alter (fun t => mk_meth (bm_type t) (Some io)) m (bs_methods s)) (bs_next_index s) (bs_reg s).

(** [key] is [TypeId::of::<I>()].
    [src/src/transport/tls.rs: bio_method] *)
Definition bio_method (key : Z) (alloc : option Z) (s : bio_state) : (Z + transport_error) * bio_state :=
  match find (fun e => fst e =? key) (bs_reg s) with
  | Some (_, p) => (inl p, s)
  | None =>
      let '(idx, s) := BIO_get_new_index s in
      let '(m, s) := BIO_meth_new (Z.lor BIO_TYPE_SOURCE_SINK idx) alloc s in
      match m with
      | None => (inr TlsConfig, s)
      | Some m =>
          let s := BIO_meth_set m key s in
          (inl m, mk_bio (bs_methods s) (bs_next_index s) (bs_reg s ++ [(key, m)]))
      end
  end.

(** The initialised flag of a BIO, and the answer.
    [src/src/transport/tls.rs: bio_create] *)
Definition bio_create (init : Z) : Z * Z := (1, 1).
(** Nothing is freed: the connection belongs to the stream.
    [src/src/transport/tls.rs: bio_destroy] *)
Definition bio_destroy : Z := 1.
Definition BIO_CTRL_FLUSH : Z := 11.
(** [src/src/transport/tls.rs: bio_ctrl] *)
Definition bio_ctrl (cmd : Z) : Z := if cmd =? BIO_CTRL_FLUSH then 1 else 0.

(** Calls in sequence, with what the allocator answers to each. *)
Fixpoint bio_methods (calls : list (Z * option Z)) (s : bio_state) : list (Z + transport_error) * bio_state :=
  match calls with
  | [] => ([], s)
  | (key, alloc) :: calls =>
      let '(r, s) := bio_method key alloc s in
      let '(rs, s) := bio_methods calls s in (r :: rs, s)
  end.

(** The allocator hands out memory that is not in use. *)
Fixpoint alloc_fresh (calls : list (Z * option Z)) (s : bio_state) : Prop :=
  match calls with
  | [] => True
  | (key, alloc) :: calls =>
      (forall m, alloc = Some m -> bs_methods s !! m = None) /\ alloc_fresh calls (snd (bio_method key alloc s))
  end.

(** The registry and the tables agree. *)
Record bio_ok (s : bio_state) : Prop := {
  bo_keys : NoDup (map fst (bs_reg s));
  bo_typed key p : (key, p) ∈ bs_reg s -> bm_io <$> bs_methods s !! p = Some (Some key);
  bo_all p t : bs_methods s !! p = Some t -> exists key, (key, p) ∈ bs_reg s
}.

Lemma find_registered key s : bio_ok s ->
  match find (fun e => fst e =? key) (bs_reg s) with
  | Some e => e ∈ bs_reg s /\ fst e = key
  | None => key ∉ map fst (bs_reg s)
  end.
Proof.
  intros _. destruct (find _ _) as [e|] eqn:E.
  - apply find_some in E as [Hin He]. apply list_elem_of_In in Hin. apply Z.eqb_eq in He. auto.
  - intros Hin. apply list_elem_of_In, in_map_iff in Hin as (e & He & Hin). pose proof (find_none _ _ E e Hin) as Hn. cbv beta in Hn.
    apply Z.eqb_neq in Hn. contradiction.
Qed.

(** One call: what it gives has the callbacks of its type, and what was registered stays. *)
Lemma bio_method_spec key alloc s : bio_ok s -> (forall m, alloc = Some m -> bs_methods s !! m = None) ->
  let '(r, s') := bio_method key alloc s in
  bio_ok s' /\ (forall e, e ∈ bs_reg s -> e ∈ bs_reg s') /\
  match r with
  | inl p => (key, p) ∈ bs_reg s'
  | inr err => err = TlsConfig /\ alloc = None /\ bs_reg s' = bs_reg s
  end.
Proof.
  intros Hs Hf. pose proof (find_registered key s Hs) as Hk. unfold bio_method. destruct (find _ _) as [[k p]|].
  { destruct Hk as [Hin Ek]. cbn in Ek. subst k. auto. }
  destruct Hs as [H1 H2 H3]. cbn [BIO_get_new_index]. destruct alloc as [m|]; cbn [BIO_meth_new].
  2: { split; [split; assumption|]. auto. }
  specialize (Hf m eq_refl). cbn [BIO_meth_set bs_methods bs_next_index bs_reg]. split_and!.
  - split; cbn [bs_methods bs_reg].
    + rewrite map_app. apply list.NoDup_app. split_and!; [exact H1| |apply NoDup_singleton]. intros k Hin Hin'%list_elem_of_singleton. subst. auto.
    + intros k p Hin. rewrite elem_of_app, list_elem_of_singleton in Hin. destruct Hin as [Hin|[= -> ->]].
      * pose proof (H2 k p Hin) as E. destruct (decide (p = m)) as [->|Hne]; [rewrite Hf in E; discriminate|]. rewrite lookup_alter_ne, lookup_insert_ne by congruence. exact E.
      * rewrite lookup_alter_eq, lookup_insert_eq. reflexivity.
    + intros p t E. destruct (decide (p = m)) as [->|Hne]; [exists key; rewrite elem_of_app, list_elem_of_singleton; auto|].
      rewrite lookup_alter_ne, lookup_insert_ne in E by congruence. destruct (H3 p t E) as [k Hin]. exists k. rewrite elem_of_app. auto.
  - intros e Hin. rewrite elem_of_app. auto.
  - rewrite elem_of_app, list_elem_of_singleton. auto.
Qed.

(** In any sequence of calls from the start of the process, each call that succeeds gives a table whose callbacks are those of its own type; two calls for the same type get the same
    table and calls for different types different ones; a call fails only without memory; and no table is made that is not registered, one for each type. *)
Theorem bio_methods_typed calls : alloc_fresh calls no_methods ->
  let '(rs, s) := bio_methods calls no_methods in
  Forall2 (fun c r => match r with
    | inl p => (fst c, p) ∈ bs_reg s /\ bm_io <$> bs_methods s !! p = Some (Some (fst c))
    | inr err => err = TlsConfig /\ snd c = None end) calls rs /\
  NoDup (map fst (bs_reg s)) /\ NoDup (map snd (bs_reg s)) /\ (forall p t, bs_methods s !! p = Some t -> p ∈ map snd (bs_reg s)).
Proof.
  assert (G : forall s, bio_ok s -> alloc_fresh calls s -> let '(rs, s') := bio_methods calls s in
    bio_ok s' /\ (forall e, e ∈ bs_reg s -> e ∈ bs_reg s') /\
    Forall2 (fun c r => match r with inl p => (fst c, p) ∈ bs_reg s' | inr err => err = TlsConfig /\ snd c = None end) calls rs).
  { induction calls as [|[key alloc] calls IH]; intros s Hs Hf; cbn [bio_methods]; [split_and!; auto|]. destruct Hf as [Hf1 Hf2].
    pose proof (bio_method_spec key alloc s Hs Hf1) as Hb. destruct (bio_method key alloc s) as [r s1]. destruct Hb as (Hs1 & Hk1 & Hr). cbn [snd] in Hf2.
    specialize (IH s1 Hs1 Hf2). destruct (bio_methods calls s1) as [rs s2]. destruct IH as (Hs2 & Hk2 & Hrs). split; [exact Hs2|]. split; [auto|].
    constructor; [|exact Hrs]. cbn [fst snd]. destruct r as [p|err]; [auto|]. destruct Hr as (-> & -> & _). auto. }
  intros Hf. specialize (G no_methods). assert (H0 : bio_ok no_methods).
  { split; [apply NoDup_nil_2|intros k p Hin; inversion Hin|intros p t E; cbn in E; rewrite lookup_empty in E; discriminate]. }
  specialize (G H0 Hf). destruct (bio_methods calls no_methods) as [rs s]. destruct G as ([H1 H2 H3] & _ & Hr). split_and!.
  - eapply Forall2_impl; [|exact Hr]. intros c [p|err]; auto.
  - exact H1.
  - clear Hr Hf. revert H1 H2. clear. intros H1 H2. induction (bs_reg s) as [|[k p] reg IH]; [apply NoDup_nil_2|]. cbn [map fst snd] in *.
    apply list.NoDup_cons in H1 as [Hn H1]. apply list.NoDup_cons. split.
    + intros Hin. apply list_elem_of_In, in_map_iff in Hin as ([k' p'] & E & Hin). cbn in E. subst p'. apply list_elem_of_In in Hin.
      pose proof (H2 k p ltac:(left)) as E1. pose proof (H2 k' p ltac:(right; exact Hin)) as E2. rewrite E1 in E2. injection E2 as ->.
      apply Hn, list_elem_of_In, in_map_iff. exists (k', p). split; [reflexivity|apply list_elem_of_In, Hin].
    + apply IH; [exact H1|]. intros k' p' Hin. apply H2. right. exact Hin.
  - intros p t E. destruct (H3 p t E) as [k Hin]. apply list_elem_of_In, in_map_iff. exists (k, p). split; [reflexivity|apply list_elem_of_In, Hin].
Qed.
