(* ===== verification/Tls.v ===== *)
(** * TLS (src/src/transport/tls.rs, and wrap_tls_io in src/src/transport/hyper_http.rs)

    The TLS stream of the exporter: the context built from the directives, one
    session per connection with its certificate checks, and the stream that
    hyper polls.  OpenSSL is not part of the program: what its configuration calls return is an
    input, and an [SSL_connect], [SSL_read], [SSL_write] or
    [SSL_shutdown] is a program of calls to the two BIO callbacks, which are the code's; the class
    [OpenSslLaws] states what its manual promises about the result. *)
From S2P Require Import Prelude DataModel StdText CertTable Endpoint Outcome Conn.

(** ** The context *)

Definition TLS1_2_VERSION : Z := 771.
Inductive verify_mode := SSL_VERIFY_NONE | SSL_VERIFY_PEER.

(** [src/src/transport/tls.rs: TlsConfig] *)
Record tls_config := mk_tls {
  ca_file : option (list Z); client_cert : option (list Z); client_key : option (list Z); insecure : bool
}.

(** An [SSL_CTX]: the minimum protocol version, the verification mode, the loaded trust anchors
    ([Some None] is the system's store) and the client's certificate and key. *)
Record ssl_ctx := mk_ctx {
  cx_min_proto : Z; cx_verify : verify_mode; cx_trust : option (option (list Z)); cx_client : option (list Z * list Z)
}.

(** The objects OpenSSL has allocated and not yet freed, and the one-shot warning. *)
Record ledger := mk_ledger { lg_ctxs : Z; lg_ssls : Z; lg_warned : bool; lg_warnings : Z }.
Definition ctx_new (l : ledger) : ledger := mk_ledger (lg_ctxs l + 1) (lg_ssls l) (lg_warned l) (lg_warnings l).
Definition ssl_new (l : ledger) : ledger := mk_ledger (lg_ctxs l) (lg_ssls l + 1) (lg_warned l) (lg_warnings l).
Definition ssl_free (l : ledger) : ledger := mk_ledger (lg_ctxs l) (lg_ssls l - 1) (lg_warned l) (lg_warnings l).

(** [SslCtx::drop].
    [src/src/transport/tls.rs: 147-158 SslCtx] *)
Definition ctx_free (l : ledger) : ledger := mk_ledger (lg_ctxs l - 1) (lg_ssls l) (lg_warned l) (lg_warnings l).

(** The warning is given once per process.
    [src/src/transport/tls.rs: 224-229 TlsConfig::build_ctx] *)
Definition warn_insecure (l : ledger) : ledger :=
  if lg_warned l then l else mk_ledger (lg_ctxs l) (lg_ssls l) true (lg_warnings l + 1).

(** What OpenSSL returns while a context is configured. *)
Record ctx_answers := mk_ca {
  ca_new : bool; ca_min_proto : Z; ca_load : list Z -> Z; ca_default : Z;
  ca_use_cert : list Z -> Z; ca_use_key : list Z -> Z; ca_check_key : Z
}.

(** A path with an interior NUL is refused.
    [src/src/transport/tls.rs: to_cstring] *)
Definition to_cstring (s : list Z) : list Z + transport_error :=
  if existsb (Z.eqb 0) s then inr TlsConfig else inl s.

(** [src/src/transport/tls.rs: 235-265 TlsConfig::build_ctx] *)
Definition load_trust (A : ctx_answers) (self : tls_config) : option (list Z) + transport_error :=
  match ca_file self with
  | Some path =>
      match to_cstring path with
      | inr e => inr e
      | inl c_path => if negb (ca_load A c_path =? 1) then inr TlsConfig else inl (Some c_path)
      end
  | None => if negb (ca_default A =? 1) then inr TlsConfig else inl None
  end.

(** [src/src/transport/tls.rs: 268-309 TlsConfig::build_ctx] *)
Definition load_client (A : ctx_answers) (self : tls_config) : option (list Z * list Z) + transport_error :=
  match client_cert self, client_key self with
  | Some cert, Some key =>
      match to_cstring cert, to_cstring key with
      | inl c_cert, inl c_key =>
          if negb (ca_use_cert A c_cert =? 1) then inr TlsConfig
          else if negb (ca_use_key A c_key =? 1) then inr TlsConfig
          else if negb (ca_check_key A =? 1) then inr TlsConfig
          else inl (Some (c_cert, c_key))
      | _, _ => inr TlsConfig
      end
  | _, _ => inl None
  end.

(** The configuration of the context that is already owned.
    [src/src/transport/tls.rs: 211-312 TlsConfig::build_ctx] *)
Definition configure_ctx (A : ctx_answers) (self : tls_config) (l : ledger) : (ssl_ctx + transport_error) * ledger :=
  if negb (ca_min_proto A =? 1) then (inr TlsConfig, l) else
  let '(verified, l) :=
    if insecure self then (inl (SSL_VERIFY_NONE, None), warn_insecure l)
    else match load_trust A self with
         | inl t => (inl (SSL_VERIFY_PEER, Some t), l)
         | inr e => (inr e, l)
         end in
  match verified with
  | inr e => (inr e, l)
  | inl (mode, trust) =>
      match load_client A self with
      | inr e => (inr e, l)
      | inl client => (inl (mk_ctx TLS1_2_VERSION mode trust client), l)
      end
  end.

(** An early return drops the owned context.
    [src/src/transport/tls.rs: TlsConfig::build_ctx] *)
Definition build_ctx (A : ctx_answers) (self : tls_config) (l : ledger) : (ssl_ctx + transport_error) * ledger :=
  if negb (ca_new A) then (inr TlsConfig, l) else
  match configure_ctx A self (ctx_new l) with
  | (inl c, l) => (inl c, l)
  | (inr e, l) => (inr e, ctx_free l)
  end.

(** ** A session *)

(** What is set on an [SSL] before its handshake: the server name sent, the name or the address the
    peer's certificate must carry, and the protocols offered. *)
Record session := mk_ssl {
  sl_ctx : ssl_ctx; sl_sni : option (list Z); sl_host : option (list Z); sl_ip : option (list Z); sl_alpn : option (list Z)
}.

Record ssl_answers := mk_sa {
  sa_method : bool; sa_new : bool; sa_bio : bool; sa_set1_host : list Z -> Z; sa_set1_ip : list Z -> Z; sa_set_alpn : list Z -> Z
}.

(** A surrounding pair of brackets is dropped first.
    [src/src/transport/tls.rs: is_ip_literal] *)
Definition tls_is_ip_literal (host : list Z) : bool :=
  let h := match strip_prefix $"[" host with
           | Some s => if bool_decide (list.last s = Some 93) then take (length s - 1) s else host
           | None => host
           end in
  is_ip_literal h.

(** [src/src/transport/tls.rs: TlsNgxConnIo::new] *)
Definition tls_new (A : ssl_answers) (ctx : ssl_ctx) (server_name : list Z) (verify_hostname : bool) (l : ledger)
    : (session + transport_error) * ledger :=
  if negb (sa_method A) then (inr TlsConfig, l) else
  if negb (sa_new A) then (inr TlsConfig, l) else
  let l := ssl_new l in
  if negb (sa_bio A) then (inr TlsConfig, ssl_free l) else
  let sni := if negb (tls_is_ip_literal server_name)
             then match to_cstring server_name with inl c => Some c | inr _ => None end
             else None in
  if verify_hostname then
    if negb (sa_set1_host A server_name =? 1) then (inr TlsConfig, ssl_free l)
    else (inl (mk_ssl ctx sni (Some server_name) None None), l)
  else (inl (mk_ssl ctx sni None None None), l).

(** [src/src/transport/hyper_http.rs: install_ip_verify] *)
Definition install_ip_verify (A : ssl_answers) (s : session) (ip_str : list Z) : session + transport_error :=
  if existsb (Z.eqb 0) ip_str then inr Connection
  else if negb (sa_set1_ip A ip_str =? 1) then inr Connection
  else inl (mk_ssl (sl_ctx s) (sl_sni s) (sl_host s) (Some ip_str) (sl_alpn s)).

(** One length-prefixed name; the return code is inverted.
    [src/src/transport/hyper_http.rs: set_alpn] *)
Definition set_alpn (A : ssl_answers) (s : session) (proto : list Z) : session + transport_error :=
  let wire := (blen proto mod 256) :: proto in
  if negb (sa_set_alpn A wire =? 0) then inr Connection
  else inl (mk_ssl (sl_ctx s) (sl_sni s) (sl_host s) (sl_ip s) (Some wire)).

(** The settings after [TlsNgxConnIo::new].
    [src/src/transport/hyper_http.rs: 2025-2035 wrap_tls_io] *)
Definition finish_session (A : ssl_answers) (is_ip insecure : bool) (host_str : list Z) (alpn : option (list Z)) (s : session)
    : session + transport_error :=
  match (if is_ip && negb insecure then install_ip_verify A s host_str else inl s) with
  | inr e => inr e
  | inl s => match alpn with Some proto => set_alpn A s proto | None => inl s end
  end.

(** An error drops the stream: its session is freed and the raw connection, which it
    owns, is closed.
    [src/src/transport/hyper_http.rs: wrap_tls_io] *)
Definition wrap_tls_io (A : ssl_answers) (ctx : ssl_ctx) (insecure : bool) (host_str : list Z) (alpn : option (list Z))
    (raw : conn_io) (l : ledger) (n : ngx_side) : (session * conn_io + transport_error) * ledger * ngx_side :=
  let is_ip := is_ip_literal host_str in
  let verify_hostname := negb insecure && negb is_ip in
  match tls_new A ctx host_str verify_hostname l with
  | (inr _, l) => (inr Connection, l, snd (close (raw, n)))
  | (inl s, l) =>
      match finish_session A is_ip insecure host_str alpn s with
      | inr e => (inr e, ssl_free l, snd (close (raw, n)))
      | inl s => (inl (s, raw), l, n)
      end
  end.

(** What a context built from the configuration checks. *)
Definition ctx_of (self : tls_config) (c : ssl_ctx) : Prop :=
  cx_min_proto c = TLS1_2_VERSION /\
  cx_verify c = (if insecure self then SSL_VERIFY_NONE else SSL_VERIFY_PEER) /\
  cx_trust c = (if insecure self then None else Some (ca_file self)) /\
  cx_client c = match client_cert self, client_key self with Some cert, Some key => Some (cert, key) | _, _ => None end.

Lemma to_cstring_ok s c : to_cstring s = inl c -> c = s.
Proof. unfold to_cstring. case_if; [discriminate|]. intros [= <-]. reflexivity. Qed.

Lemma load_client_spec A self r : load_client A self = r ->
  match r with
  | inl c => c = match client_cert self, client_key self with Some cert, Some key => Some (cert, key) | _, _ => None end
  | inr e => e = TlsConfig
  end.
Proof.
  intros <-. unfold load_client. destruct (client_cert self) as [cert|], (client_key self) as [key|]; auto.
  destruct (to_cstring cert) eqn:Ec, (to_cstring key) eqn:Ek; auto. repeat case_if; auto.
  apply to_cstring_ok in Ec as ->. apply to_cstring_ok in Ek as ->. reflexivity.
Qed.

Lemma load_trust_spec A self r : load_trust A self = r -> match r with inl t => t = ca_file self | inr e => e = TlsConfig end.
Proof.
  intros <-. unfold load_trust. destruct (ca_file self) as [path|]; [|case_if; auto].
  destruct (to_cstring path) as [c|e] eqn:Ec; [apply to_cstring_ok in Ec as ->; case_if; auto|].
  unfold to_cstring in Ec. destruct (existsb (Z.eqb 0) path); congruence.
Qed.

Lemma configure_ctx_spec A self l r l' : configure_ctx A self l = (r, l') ->
  match r with inl c => ctx_of self c | inr e => e = TlsConfig end /\ lg_ctxs l' = lg_ctxs l /\ lg_ssls l' = lg_ssls l.
Proof.
  unfold configure_ctx. case_if; [intros [= <- <-]; auto|].
  assert (Hw : lg_ctxs (warn_insecure l) = lg_ctxs l /\ lg_ssls (warn_insecure l) = lg_ssls l)
    by (unfold warn_insecure; destruct (lg_warned l); auto).
  pose proof (load_client_spec A self _ eq_refl) as Hc. pose proof (load_trust_spec A self _ eq_refl) as Ht.
  destruct (insecure self) eqn:Ei.
  - destruct (load_client A self); intros [= <- <-]; (split; [|exact Hw]); [|exact Hc]. unfold ctx_of. rewrite Ei. auto.
  - destruct (load_trust A self) as [t|e]; [|intros [= <- <-]; auto]. subst t.
    destruct (load_client A self); intros [= <- <-]; (split; [|auto]); [|exact Hc]. unfold ctx_of. rewrite Ei. auto.
Qed.

Lemma build_ctx_spec A self l r l' : build_ctx A self l = (r, l') ->
  lg_ssls l' = lg_ssls l /\
  match r with inl c => ctx_of self c /\ lg_ctxs l' = lg_ctxs l + 1 | inr e => e = TlsConfig /\ lg_ctxs l' = lg_ctxs l end.
Proof.
  unfold build_ctx. case_if; [intros [= <- <-]; auto|].
  destruct (configure_ctx A self (ctx_new l)) as [[c|e] l1] eqn:Ec; apply configure_ctx_spec in Ec as (Hr & H1 & H2);
    cbn in H1, H2; intros [= <- <-]; cbn; split_and!; auto; lia.
Qed.

(** The checks of a session for [host], and what it sends before them. *)
Definition checks (insecure : bool) (host : list Z) (alpn : option (list Z)) (s : session) : Prop :=
  sl_host s = (if insecure || is_ip_literal host then None else Some host) /\
  sl_ip s = (if insecure || negb (is_ip_literal host) then None else Some host) /\
  sl_alpn s = (fun proto => (blen proto mod 256) :: proto) <$> alpn /\
  (forall name, sl_sni s = Some name -> name = host /\ is_ip_literal name = false).

Lemma tls_is_ip_literal_plain host : is_ip_literal host = true -> tls_is_ip_literal host = true.
Proof.
  intros H. unfold tls_is_ip_literal. destruct (strip_prefix $"[" host) as [s|] eqn:E; [|exact H].
  apply strip_prefix_spec in E. subst host. change ($"[" ++ s) with (91 :: s) in H.
  unfold is_ip_literal, is_ipv4 in H. destruct (15 <? blen (91 :: s)); discriminate H.
Qed.

Lemma tls_new_spec A ctx host v l r l' : tls_new A ctx host v l = (r, l') ->
  match r with
  | inl s => lg_ssls l' = lg_ssls l + 1 /\ sl_ctx s = ctx /\ sl_host s = (if v then Some host else None) /\ sl_ip s = None /\ sl_alpn s = None /\
      (forall name, sl_sni s = Some name -> name = host /\ is_ip_literal name = false)
  | inr e => lg_ssls l' = lg_ssls l
  end /\ lg_ctxs l' = lg_ctxs l.
Proof.
  unfold tls_new. set (sni := if negb (tls_is_ip_literal host) then _ else _).
  assert (Hs : forall name, sni = Some name -> name = host /\ is_ip_literal name = false).
  { intros name. unfold sni. case_if; [|discriminate]. destruct (to_cstring host) as [c|] eqn:Ec; [|discriminate].
    apply to_cstring_ok in Ec as ->. intros [= <-]. split; [reflexivity|].
    destruct (is_ip_literal host) eqn:Ei; [|reflexivity]. apply tls_is_ip_literal_plain in Ei. zify_bool. congruence. }
  repeat case_if; intros [= <- <-]; cbn; split_and!; auto; lia.
Qed.

Lemma install_ip_verify_spec A s ip : match install_ip_verify A s ip with
  | inl s' => s' = mk_ssl (sl_ctx s) (sl_sni s) (sl_host s) (Some ip) (sl_alpn s)
  | inr e => e = Connection
  end.
Proof. unfold install_ip_verify. repeat case_if; reflexivity. Qed.

Lemma set_alpn_spec A s proto : match set_alpn A s proto with
  | inl s' => s' = mk_ssl (sl_ctx s) (sl_sni s) (sl_host s) (sl_ip s) (Some ((blen proto mod 256) :: proto))
  | inr e => e = Connection
  end.
Proof. unfold set_alpn. repeat case_if; reflexivity. Qed.

(** A wrapped connection has its checks; a failure leaves no session and no connection. *)
Lemma wrap_tls_io_spec A ctx insecure host alpn raw l n r l' n' : wrap_tls_io A ctx insecure host alpn raw l n = (r, l', n') ->
  lg_ctxs l' = lg_ctxs l /\
  match r with
  | inl (s, io) => io = raw /\ n' = n /\ lg_ssls l' = lg_ssls l + 1 /\ sl_ctx s = ctx /\ checks insecure host alpn s
  | inr e => e = Connection /\ n' = snd (close (raw, n)) /\ lg_ssls l' = lg_ssls l
  end.
Proof.
  unfold wrap_tls_io. destruct (tls_new A ctx host _ l) as [[s|e] l1] eqn:En; apply tls_new_spec in En as [Hn Hc].
  2: { intros [= <- <- <-]. auto. }
  destruct Hn as (Hl & Hctx & Hh & Hip & Ha & Hs). unfold finish_session.
  pose proof (install_ip_verify_spec A s host) as Hi.
  set (s1 := if is_ip_literal host && negb insecure then _ else _).
  assert (H1 : match s1 with
    | inl s' => s' = mk_ssl (sl_ctx s) (sl_sni s) (sl_host s) (if insecure || negb (is_ip_literal host) then None else Some host) (sl_alpn s)
    | inr e => e = Connection end).
  { unfold s1. destruct (is_ip_literal host), insecure; cbn in *; auto; destruct s; cbn in *; congruence. }
  assert (Hhost : sl_host s = if insecure || is_ip_literal host then None else Some host).
  { rewrite Hh. destruct insecure, (is_ip_literal host); reflexivity. }
  destruct s1 as [s1|e1]; [|intros [= <- <- <-]; subst; cbn; split_and!; auto; lia].
  destruct alpn as [proto|].
  - pose proof (set_alpn_spec A s1 proto) as Hp. destruct (set_alpn A s1 proto) as [s2|e2]; intros [= <- <- <-]; subst;
      cbn; split_and!; auto; [|lia]. split_and!; cbn; auto.
  - intros [= <- <- <-]. subst. cbn. split_and!; auto. split_and!; cbn; auto.
Qed.

(** ** The stream *)

(** [src/src/transport/tls.rs: HandshakeState] *)
Inductive handshake_state := HsPending | HsDone.

(** The pointers the callbacks go through: whether the inner stream is published, and the waker of the published context.
    [src/src/transport/tls.rs: BioCtx] *)
Record bio_ctx := mk_bio { bc_inner : bool; bc_cx : option Z }.

(** [src/src/transport/tls.rs: BioCtx::new] *)
Definition bio_null : bio_ctx := mk_bio false None.

(** What a callback gives back to OpenSSL: its return value, the bytes it put into the buffer, and the BIO's retry flag. *)
Record bio_answer := mk_ba { ba_ret : Z; ba_data : list Z; ba_retry : bool }.

(** One [SSL_*] call: reads and writes of the BIO, then the return value, what
    [SSL_get_error] says about it, the plaintext it delivered and the protocol's new state. *)
Inductive ssl_prog (P : Type) :=
  | SslRet (rc err : Z) (out : list Z) (p : P)
  | BioRead (len : Z) (k : bio_answer -> ssl_prog P)
  | BioWrite (data : list Z) (k : bio_answer -> ssl_prog P).
Arguments SslRet {P}. Arguments BioRead {P}. Arguments BioWrite {P}.

Definition SSL_ERROR_SSL : Z := 1.
Definition SSL_ERROR_WANT_READ : Z := 2.
Definition SSL_ERROR_WANT_WRITE : Z := 3.
Definition SSL_ERROR_SYSCALL : Z := 5.
Definition SSL_ERROR_ZERO_RETURN : Z := 6.

Class OpenSsl (P : Type) := {
  SSL_connect : session -> P -> ssl_prog P;
  SSL_read : session -> Z -> P -> ssl_prog P;
  SSL_write : session -> list Z -> P -> ssl_prog P;
  SSL_shutdown : session -> P -> ssl_prog P;
  (* [SSL_get1_peer_certificate] and the certificate's [notAfter] *)
  peer_not_after : P -> option (option (Z * Z))
}.

(** ** What OpenSSL promises *)

Inductive bio_dir := DirRead | DirWrite.

(** [SSL_get_error]: WANT_READ is returned when the last operation was a read from a BIO that asked for a retry,
    WANT_WRITE when it was such a write. *)
Fixpoint wants_last {P} (last : option bio_dir) (p : ssl_prog P) : Prop :=
  match p with
  | SslRet rc err _ _ =>
      (err = SSL_ERROR_WANT_READ -> last = Some DirRead) /\ (err = SSL_ERROR_WANT_WRITE -> last = Some DirWrite)
  | BioRead _ k => forall a, wants_last (if ba_retry a then Some DirRead else None) (k a)
  | BioWrite _ k => forall a, wants_last (if ba_retry a then Some DirWrite else None) (k a)
  end.

Fixpoint returns {P} (Q : Z -> Z -> list Z -> Prop) (p : ssl_prog P) : Prop :=
  match p with
  | SslRet rc err out _ => Q rc err out
  | BioRead _ k | BioWrite _ k => forall a, returns Q (k a)
  end.

(** [SSL_read]: a positive result is the number of bytes delivered. *)
Class OpenSslLaws (P : Type) `{OpenSsl P} : Prop := {
  connect_wants ssl p : wants_last None (SSL_connect ssl p);
  read_wants ssl len p : wants_last None (SSL_read ssl len p);
  write_wants ssl data p : wants_last None (SSL_write ssl data p);
  read_delivers ssl len p : returns (fun rc _ out => 0 < rc -> blen out = rc) (SSL_read ssl len p)
}.

(** The kernel's answers to the reads and the writes of the connection, in order. *)
Record network := mk_net { nt_read : nat -> read_input; nt_send : nat -> Z }.

Inductive ssl_call := CallConnect (rc : Z) | CallRead (rc err : Z) | CallWrite (data : list Z) (rc : Z) | CallShutdown.

(** Around a stream: nginx, how many answers of the network were used, the collector-certificate gauge, and
    the [SSL_*] calls so far. *)
Record tls_world := mk_tw { tw_ngx : ngx_side; tw_time : nat; tw_not_after : Z; tw_calls : list ssl_call }.

(** [src/src/transport/tls.rs: TlsNgxConnIo] *)
Record tls_io (P : Type) := mk_tio {
  ti_inner : conn_io; ti_ssl : session; ti_proto : P; ti_bio : bio_ctx; ti_handshake : handshake_state
}.
Arguments mk_tio {P}. Arguments ti_inner {P}. Arguments ti_ssl {P}. Arguments ti_proto {P}. Arguments ti_bio {P}. Arguments ti_handshake {P}.

Section stream.
Context {P : Type} `{OpenSsl P} (net : network).
Abbreviation tstate := (tls_io P * tls_world)%type.

(** [src/src/transport/tls.rs: bio_read] *)
Definition bio_read (b : bio_ctx) (len : Z) (t : nat) (s : state) : bio_answer * nat * state :=
  match bc_inner b, bc_cx b with
  | true, Some w =>
      if len <=? 0 then (mk_ba (-1) [] false, t, s) else
      match poll_read w (nt_read net t) s with
      | (Ready (inl bytes), s) => (mk_ba (blen bytes) bytes false, S t, s)
      | (Ready (inr _), s) => (mk_ba (-1) [] false, S t, s)
      | (Pending, s) => (mk_ba (-1) [] true, S t, s)
      end
  | _, _ => (mk_ba (-1) [] false, t, s)
  end.

(** [src/src/transport/tls.rs: bio_write] *)
Definition bio_write (b : bio_ctx) (data : list Z) (t : nat) (s : state) : bio_answer * nat * state :=
  match bc_inner b, bc_cx b with
  | true, Some w =>
      if blen data <=? 0 then (mk_ba (-1) [] false, t, s) else
      match poll_write w (nt_send net t) s with
      | (Ready (inl n), s) => (mk_ba (if n =? 0 then -1 else n) [] false, S t, s)
      | (Ready (inr _), s) => (mk_ba (-1) [] false, S t, s)
      | (Pending, s) => (mk_ba (-1) [] true, S t, s)
      end
  | _, _ => (mk_ba (-1) [] false, t, s)
  end.

(** OpenSSL runs, calling back into the inner stream. *)
Fixpoint run_ssl (b : bio_ctx) (p : ssl_prog P) (t : nat) (s : state) : Z * Z * list Z * P * nat * state :=
  match p with
  | SslRet rc err out p => (rc, err, out, p, t, s)
  | BioRead len k => let '(a, t, s) := bio_read b len t s in run_ssl b (k a) t s
  | BioWrite data k => let '(a, t, s) := bio_write b data t s in run_ssl b (k a) t s
  end.

(** Publishes the inner stream and the context, runs one [SSL_*] call, clears them.
    [src/src/transport/tls.rs: TlsNgxConnIo::with_published] *)
Definition with_published (w : Z) (op : session -> P -> ssl_prog P) (s : tstate) : Z * Z * list Z * tstate :=
  let '(io, tw) := s in
  let '(rc, err, out, p, t, (inner, n)) :=
    run_ssl (mk_bio true (Some w)) (op (ti_ssl io) (ti_proto io)) (tw_time tw) (ti_inner io, tw_ngx tw) in
  (rc, err, out,
   (mk_tio inner (ti_ssl io) p bio_null (ti_handshake io), mk_tw n t (tw_not_after tw) (tw_calls tw))).

Definition log_call (c : ssl_call) (s : tstate) : tstate :=
  (fst s, mk_tw (tw_ngx (snd s)) (tw_time (snd s)) (tw_not_after (snd s)) (tw_calls (snd s) ++ [c])).

(** [src/src/transport/tls.rs: TlsNgxConnIo::map_ssl_err] *)
Definition map_ssl_err {A} (err : Z) : poll A :=
  if (err =? SSL_ERROR_WANT_READ) || (err =? SSL_ERROR_WANT_WRITE) then Pending
  else if err =? SSL_ERROR_ZERO_RETURN then Ready (inr UnexpectedEof)
  else Ready (inr OtherError).

(** [src/src/transport/tls.rs: TlsNgxConnIo::poll_handshake] *)
Definition poll_handshake (w : Z) (s : tstate) : poll unit * tstate :=
  match ti_handshake (fst s) with
  | HsDone => (Ready (inl tt), s)
  | HsPending =>
      let '(rc, err, _, s) := with_published w SSL_connect s in
      let '(io, tw) := log_call (CallConnect rc) s in
      if rc =? 1 then
        let not_after := match peer_not_after (ti_proto io) with
                         | Some t => default (tw_not_after tw) (asn1_time_to_unix t)
                         | None => tw_not_after tw
                         end in
        (Ready (inl tt), (mk_tio (ti_inner io) (ti_ssl io) (ti_proto io) (ti_bio io) HsDone,
                          mk_tw (tw_ngx tw) (tw_time tw) not_after (tw_calls tw)))
      else (map_ssl_err err, (io, tw))
  end.

Definition C_INT_MAX : Z := 2147483647.

(** The bytes appended to a buffer with [cap] bytes left.
    [src/src/transport/tls.rs: 847-910 TlsNgxConnIo::poll_read] *)
Definition tls_poll_read (w cap : Z) (s : tstate) : poll (list Z) * tstate :=
  match poll_handshake w s with
  | (Ready (inl _), s) =>
      if cap =? 0 then (Ready (inl []), s) else
      let want := Z.min cap C_INT_MAX in
      let '(n, err, out, s) := with_published w (fun ssl => SSL_read ssl want) s in
      let s := log_call (CallRead n err) s in
      if 0 <? n then (Ready (inl (take (Z.to_nat n) out)), s)
      else if (err =? SSL_ERROR_WANT_READ) || (err =? SSL_ERROR_WANT_WRITE) then (Pending, s)
      else if err =? SSL_ERROR_ZERO_RETURN then (Ready (inl []), s)
      else (map_ssl_err err, s)
  | (Ready (inr e), s) => (Ready (inr e), s)
  | (Pending, s) => (Pending, s)
  end.

(** [src/src/transport/tls.rs: 914-944 TlsNgxConnIo::poll_write] *)
Definition tls_poll_write (w : Z) (data : list Z) (s : tstate) : poll Z * tstate :=
  match poll_handshake w s with
  | (Ready (inl _), s) =>
      match data with
      | [] => (Ready (inl 0), s)
      | _ =>
          let sent := take (Z.to_nat (Z.min (blen data) C_INT_MAX)) data in
          let '(n, err, _, s) := with_published w (fun ssl => SSL_write ssl sent) s in
          let s := log_call (CallWrite sent n) s in
          if 0 <? n then (Ready (inl n), s) else (map_ssl_err err, s)
      end
  | (Ready (inr e), s) => (Ready (inr e), s)
  | (Pending, s) => (Pending, s)
  end.

Definition on_inner (f : state -> state) (s : tstate) : tstate :=
  let '(io, tw) := s in
  let '(inner, n) := f (ti_inner io, tw_ngx tw) in
  (mk_tio inner (ti_ssl io) (ti_proto io) (ti_bio io) (ti_handshake io), mk_tw n (tw_time tw) (tw_not_after tw) (tw_calls tw)).

(** One [close_notify] at best, then the connection is closed.
    [src/src/transport/tls.rs: 952-968 TlsNgxConnIo::poll_shutdown] *)
Definition tls_poll_shutdown (w : Z) (s : tstate) : tstate :=
  let s := match ti_handshake (fst s) with
           | HsDone => let '(_, _, _, s) := with_published w SSL_shutdown s in log_call CallShutdown s
           | HsPending => s
           end in
  on_inner poll_shutdown s.

(** The session is freed, and with it the BIO; then the inner stream is dropped.
    [src/src/transport/tls.rs: 971-988 TlsNgxConnIo] *)
Definition tls_drop (s : tstate) (l : ledger) : tstate * ledger := (on_inner close s, ssl_free l).

(** What hyper and nginx may do to a stream, in any order. *)
Inductive tls_op :=
  | THandshake (w : Z) | TRead (w cap : Z) | TWrite (w : Z) (data : list Z) | TShutdown (w : Z) | TInner (o : conn_op).

Definition tls_step (o : tls_op) (s : tstate) : tstate :=
  match o with
  | THandshake w => snd (poll_handshake w s)
  | TRead w cap => snd (tls_poll_read w cap s)
  | TWrite w data => snd (tls_poll_write w data s)
  | TShutdown w => tls_poll_shutdown w s
  | TInner o => on_inner (conn_step o) s
  end.
Definition tls_run (ops : list tls_op) (s : tstate) : tstate := foldl (fun s o => tls_step o s) s ops.

(** ** Every SSL call *)

(** The inner connection and nginx. *)
Definition inner_of (s : tstate) : state := (ti_inner (fst s), tw_ngx (snd s)).

Lemma bio_read_pending w len t s a t' s' : bio_read (mk_bio true (Some w)) len t s = (a, t', s') ->
  ba_retry a = true -> rev_waker (fst s') = Some w /\ pc_connection (fst s') <> None.
Proof.
  unfold bio_read. cbn [bc_inner bc_cx]. case_if; [intros [= <- <- <-]; discriminate|].
  destruct (poll_read w (nt_read net t) s) as [[|[]] s1] eqn:Ep; intros [= <- <- <-]; try discriminate.
  intros _. exact (poll_read_pending _ _ _ _ Ep).
Qed.

Lemma bio_write_pending w data t s a t' s' : bio_write (mk_bio true (Some w)) data t s = (a, t', s') ->
  ba_retry a = true -> wev_waker (fst s') = Some w /\ pc_connection (fst s') <> None.
Proof.
  unfold bio_write. cbn [bc_inner bc_cx]. case_if; [intros [= <- <- <-]; discriminate|].
  destruct (poll_write w (nt_send net t) s) as [[|[]] s1] eqn:Ep; intros [= <- <- <-]; try discriminate.
  intros _. exact (poll_write_pending _ _ _ _ Ep).
Qed.

Lemma bio_read_quiet b len t s : nx_woken (snd (snd (bio_read b len t s))) = nx_woken (snd s).
Proof.
  unfold bio_read. destruct (bc_inner b), (bc_cx b) as [w|]; try reflexivity. case_if; [reflexivity|].
  pose proof (poll_quiet (OpRead w (nt_read net t)) s) as Q. cbn [conn_step] in Q.
  destruct (poll_read w (nt_read net t) s) as [[|[]] s1]; cbn; apply Q; discriminate.
Qed.

Lemma bio_write_quiet b data t s : nx_woken (snd (snd (bio_write b data t s))) = nx_woken (snd s).
Proof.
  unfold bio_write. destruct (bc_inner b), (bc_cx b) as [w|]; try reflexivity. case_if; [reflexivity|].
  pose proof (poll_quiet (OpWrite w (nt_send net t)) s) as Q. cbn [conn_step] in Q.
  destruct (poll_write w (nt_send net t) s) as [[|[]] s1]; cbn; apply Q; discriminate.
Qed.

(** After a WANT_READ the reader's waker is stored, after a WANT_WRITE the writer's. *)
Lemma run_wants w p : forall last t s,
  wants_last last p ->
  (last = Some DirRead -> rev_waker (fst s) = Some w /\ pc_connection (fst s) <> None) ->
  (last = Some DirWrite -> wev_waker (fst s) = Some w /\ pc_connection (fst s) <> None) ->
  forall rc err out p' t' s', run_ssl (mk_bio true (Some w)) p t s = (rc, err, out, p', t', s') ->
  (err = SSL_ERROR_WANT_READ -> rev_waker (fst s') = Some w /\ pc_connection (fst s') <> None) /\
  (err = SSL_ERROR_WANT_WRITE -> wev_waker (fst s') = Some w /\ pc_connection (fst s') <> None) /\
  nx_woken (snd s') = nx_woken (snd s).
Proof.
  induction p as [rc0 err0 out0 p0|len k IH|data k IH]; intros last t s Hp Hr Hw rc err out p' t' s'; cbn [run_ssl].
  - intros [= <- <- <- <- <- <-]. destruct Hp as [H1 H2]. split_and!; [intros He; apply Hr, H1, He|intros He; apply Hw, H2, He|reflexivity].
  - pose proof (bio_read_quiet (mk_bio true (Some w)) len t s) as Q.
    destruct (bio_read _ len t s) as [[a t1] s1] eqn:E. cbn [snd] in Q. rewrite <- Q. intros Hrun.
    refine (IH a _ t1 s1 (Hp a) _ _ _ _ _ _ _ _ Hrun); destruct (ba_retry a) eqn:Ea; try discriminate; intros _.
    eapply bio_read_pending; eassumption.
  - pose proof (bio_write_quiet (mk_bio true (Some w)) data t s) as Q.
    destruct (bio_write _ data t s) as [[a t1] s1] eqn:E. cbn [snd] in Q. rewrite <- Q. intros Hrun.
    refine (IH a _ t1 s1 (Hp a) _ _ _ _ _ _ _ _ Hrun); destruct (ba_retry a) eqn:Ea; try discriminate; intros _.
    eapply bio_write_pending; eassumption.
Qed.

(** OpenSSL touches the connection only through its reads and writes. *)
Lemma conn_run_app ops1 ops2 s : conn_run (ops1 ++ ops2) s = conn_run ops2 (conn_run ops1 s).
Proof. unfold conn_run. apply foldl_app. Qed.

Definition reached (s s' : state) : Prop := exists ops, s' = conn_run ops s.
Lemma reached_refl s : reached s s. Proof. exists []. reflexivity. Qed.
Lemma reached_trans s1 s2 s3 : reached s1 s2 -> reached s2 s3 -> reached s1 s3.
Proof. intros [o1 ->] [o2 ->]. exists (o1 ++ o2). symmetry. apply conn_run_app. Qed.
Lemma reached_step o s : reached s (conn_step o s). Proof. exists [o]. reflexivity. Qed.

Lemma bio_read_reached b len t s : reached s (snd (bio_read b len t s)).
Proof.
  unfold bio_read. destruct (bc_inner b), (bc_cx b) as [w|]; try apply reached_refl. case_if; [apply reached_refl|].
  pose proof (reached_step (OpRead w (nt_read net t)) s) as R. cbn [conn_step] in R.
  destruct (poll_read w (nt_read net t) s) as [[|[]] s1]; exact R.
Qed.
Lemma bio_write_reached b data t s : reached s (snd (bio_write b data t s)).
Proof.
  unfold bio_write. destruct (bc_inner b), (bc_cx b) as [w|]; try apply reached_refl. case_if; [apply reached_refl|].
  pose proof (reached_step (OpWrite w (nt_send net t)) s) as R. cbn [conn_step] in R.
  destruct (poll_write w (nt_send net t) s) as [[|[]] s1]; exact R.
Qed.

Lemma run_reached b p : forall t s, reached s (snd (run_ssl b p t s)).
Proof.
  induction p as [rc err out p|len k IH|data k IH]; intros t s; cbn [run_ssl].
  - apply reached_refl.
  - pose proof (bio_read_reached b len t s) as R. destruct (bio_read b len t s) as [[a t1] s1]. exact (reached_trans _ _ _ R (IH a t1 s1)).
  - pose proof (bio_write_reached b data t s) as R. destruct (bio_write b data t s) as [[a t1] s1]. exact (reached_trans _ _ _ R (IH a t1 s1)).
Qed.

Lemma run_returns Q b p : returns Q p -> forall t s rc err out p' t' s',
  run_ssl b p t s = (rc, err, out, p', t', s') -> Q rc err out.
Proof.
  induction p as [rc0 err0 out0 p0|len k IH|data k IH]; intros Hp t s rc err out p' t' s'; cbn [run_ssl].
  - intros [= <- <- <- <- <- <-]. exact Hp.
  - destruct (bio_read b len t s) as [[a t1] s1]. apply IH, Hp.
  - destruct (bio_write b data t s) as [[a t1] s1]. apply IH, Hp.
Qed.

(** ** The calls of a stream *)

Definition is_app (c : ssl_call) : bool := match c with CallConnect _ => false | _ => true end.

(** Failed connects, then, once one succeeds, application calls only. *)
Definition calls_ordered (h : handshake_state) (calls : list ssl_call) : Prop :=
  exists failed app, Forall (fun rc => rc <> 1) failed /\ forallb is_app app = true /\
    calls = map CallConnect failed ++ match h with HsPending => [] | HsDone => CallConnect 1 :: app end.

Record tls_inv (ssl : session) (g0 : Z) (s0 : state) (s : tstate) : Prop := {
  inv_ssl : ti_ssl (fst s) = ssl;
  inv_bio : ti_bio (fst s) = bio_null;
  inv_calls : calls_ordered (ti_handshake (fst s)) (tw_calls (snd s));
  inv_gauge : ti_handshake (fst s) = HsPending -> tw_not_after (snd s) = g0;
  inv_inner : reached s0 (inner_of s)
}.

Lemma calls_connect rc calls : calls_ordered HsPending calls ->
  calls_ordered (if rc =? 1 then HsDone else HsPending) (calls ++ [CallConnect rc]).
Proof.
  intros (failed & app & Hf & _ & ->). rewrite app_nil_r. destruct (rc =? 1) eqn:Erc; zify_bool.
  - exists failed, []. subst rc. auto.
  - exists (failed ++ [rc]), []. rewrite Forall_app, map_app, app_nil_r. repeat split; auto.
Qed.

Lemma calls_app c calls : is_app c = true -> calls_ordered HsDone calls -> calls_ordered HsDone (calls ++ [c]).
Proof.
  intros Hc (failed & app & Hf & Ha & ->). exists failed, (app ++ [c]). rewrite forallb_app. cbn. rewrite Ha, Hc, <- app_assoc. auto.
Qed.

Lemma published_inv ssl g0 s0 w op s : tls_inv ssl g0 s0 s ->
  let '(_, _, _, s') := with_published w op s in
  tls_inv ssl g0 s0 s' /\ ti_handshake (fst s') = ti_handshake (fst s) /\ tw_calls (snd s') = tw_calls (snd s).
Proof.
  intros [H1 H2 H3 H4 H5]. destruct s as [io tw]. unfold with_published.
  pose proof (run_reached (mk_bio true (Some w)) (op (ti_ssl io) (ti_proto io)) (tw_time tw) (ti_inner io, tw_ngx tw)) as R.
  destruct (run_ssl _ _ _ _) as [[[[[rc err] out] p] t] [inner n]]. cbn in *. split; [|auto].
  split; cbn; auto. exact (reached_trans _ _ _ H5 R).
Qed.

Lemma map_ssl_err_fails A err (a : A) : map_ssl_err err = Ready (inl a) -> False.
Proof. unfold map_ssl_err. repeat case_if; discriminate. Qed.

Lemma handshake_inv ssl g0 s0 w s : tls_inv ssl g0 s0 s ->
  let '(r, s') := poll_handshake w s in
  tls_inv ssl g0 s0 s' /\ (forall u, r = Ready (inl u) -> ti_handshake (fst s') = HsDone).
Proof.
  intros Hi. unfold poll_handshake. destruct (ti_handshake (fst s)) eqn:Eh; [|auto].
  pose proof (published_inv ssl g0 s0 w SSL_connect s Hi) as Hp.
  destruct (with_published w SSL_connect s) as [[[rc err] out] [io tw]]. destruct Hp as ([H1 H2 H3 H4 H5] & Hh & Hc).
  cbn in *. rewrite Hh, Eh in H3, H4. apply (calls_connect rc) in H3. destruct (rc =? 1) eqn:Erc; cbn.
  - split; [|reflexivity]. split; cbn; auto; discriminate.
  - split; [|intros u Hu; destruct (map_ssl_err_fails _ _ _ Hu)]. split; cbn; auto; rewrite ?Hh, ?Eh; auto.
Qed.

(** An application call after the handshake. *)
Lemma app_call_inv ssl g0 s0 w op c s : tls_inv ssl g0 s0 s -> ti_handshake (fst s) = HsDone -> (forall rc err, is_app (c rc err) = true) ->
  let '(rc, err, _, s') := with_published w op s in tls_inv ssl g0 s0 (log_call (c rc err) s').
Proof.
  intros Hi Hd Hc. pose proof (published_inv ssl g0 s0 w op s Hi) as Hp.
  destruct (with_published w op s) as [[[rc err] out] s']. destruct Hp as ([H1 H2 H3 H4 H5] & Hh & _).
  split; cbn; auto. rewrite Hh, Hd in H3 |- *. apply calls_app; auto.
Qed.

Lemma on_inner_inv ssl g0 s0 f s : (forall s, reached s (f s)) -> tls_inv ssl g0 s0 s -> tls_inv ssl g0 s0 (on_inner f s).
Proof.
  intros Hf [H1 H2 H3 H4 H5]. destruct s as [io tw]. unfold on_inner. pose proof (Hf (ti_inner io, tw_ngx tw)) as R.
  destruct (f (ti_inner io, tw_ngx tw)) as [inner n]. split; cbn in *; auto. exact (reached_trans _ _ _ H5 R).
Qed.

Lemma step_inv ssl g0 s0 o s : tls_inv ssl g0 s0 s -> tls_inv ssl g0 s0 (tls_step o s).
Proof.
  intros Hi. destruct o as [w|w cap|w data|w|o]; cbn [tls_step].
  - pose proof (handshake_inv ssl g0 s0 w s Hi) as Hh. destruct (poll_handshake w s). apply Hh.
  - unfold tls_poll_read. pose proof (handshake_inv ssl g0 s0 w s Hi) as Hh. destruct (poll_handshake w s) as [r s1].
    destruct Hh as [Hi1 Hd]. destruct r as [|[u|e]]; [exact Hi1| |exact Hi1]. case_if; [exact Hi1|].
    pose proof (app_call_inv ssl g0 s0 w (fun ssl => SSL_read ssl (Z.min cap C_INT_MAX)) CallRead s1 Hi1 (Hd u eq_refl) (fun _ _ => eq_refl)) as Ha.
    destruct (with_published w _ s1) as [[[n err] out] s2]. repeat case_if; exact Ha.
  - unfold tls_poll_write. pose proof (handshake_inv ssl g0 s0 w s Hi) as Hh. destruct (poll_handshake w s) as [r s1].
    destruct Hh as [Hi1 Hd]. destruct r as [|[u|e]]; [exact Hi1| |exact Hi1]. destruct data as [|b data]; [exact Hi1|].
    set (sent := take _ _).
    pose proof (app_call_inv ssl g0 s0 w (fun ssl => SSL_write ssl sent) (fun n _ => CallWrite sent n) s1 Hi1 (Hd u eq_refl) (fun _ _ => eq_refl)) as Ha.
    destruct (with_published w _ s1) as [[[n err] out] s2]. case_if; exact Ha.
  - unfold tls_poll_shutdown. apply on_inner_inv; [intros; exact (reached_step OpShutdown _)|].
    destruct (ti_handshake (fst s)) eqn:Eh; [exact Hi|].
    pose proof (app_call_inv ssl g0 s0 w SSL_shutdown (fun _ _ => CallShutdown) s Hi Eh (fun _ _ => eq_refl)) as Ha.
    destruct (with_published w _ s) as [[[n err] out] s2]. exact Ha.
  - apply on_inner_inv; [intros; apply reached_step|exact Hi].
Qed.

Lemma run_inv ssl g0 s0 ops : forall s, tls_inv ssl g0 s0 s -> tls_inv ssl g0 s0 (tls_run ops s).
Proof. induction ops as [|o ops IH]; intros s Hi; [exact Hi|]. exact (IH _ (step_inv _ _ _ o s Hi)). Qed.

Definition wants (err : Z) : bool := (err =? SSL_ERROR_WANT_READ) || (err =? SSL_ERROR_WANT_WRITE).

(** The task is woken by the next read event whatever is written meanwhile, or by the next write event whatever is read. *)
Definition will_wake (w : Z) (s : state) : Prop :=
  (forall ops, forallb keeps_read ops = true ->
     nx_woken (snd (conn_step OpReadEvent (conn_run ops s))) = nx_woken (snd (conn_run ops s)) ++ [w]) \/
  (forall ops, forallb keeps_write ops = true ->
     nx_woken (snd (conn_step OpWriteEvent (conn_run ops s))) = nx_woken (snd (conn_run ops s)) ++ [w]).

Lemma published_wants w op s rc err out s' :
  wants_last None (op (ti_ssl (fst s)) (ti_proto (fst s))) -> with_published w op s = (rc, err, out, s') ->
  (wants err = true -> will_wake w (inner_of s')) /\ nx_woken (tw_ngx (snd s')) = nx_woken (tw_ngx (snd s)).
Proof.
  destruct s as [io tw]. unfold with_published. cbn [fst snd]. intros Hp.
  destruct (run_ssl _ _ _ _) as [[[[[rc1 err1] out1] p1] t1] [inner n]] eqn:Er. intros [= <- <- <- <-].
  assert (Hr : None = Some DirRead -> rev_waker (ti_inner io) = Some w /\ pc_connection (ti_inner io) <> None) by discriminate.
  assert (Hw : None = Some DirWrite -> wev_waker (ti_inner io) = Some w /\ pc_connection (ti_inner io) <> None) by discriminate.
  destruct (run_wants _ _ None _ (ti_inner io, tw_ngx tw) Hp Hr Hw _ _ _ _ _ _ Er) as (Hwr & Hww & Hq).
  split; [|exact Hq]. unfold wants. intros Hwant. apply orb_true_iff in Hwant as [Hwant|Hwant]; zify_bool.
  - left. intros ops Hops. apply read_wait; [exact Hops|apply Hwr, Hwant|apply Hwr, Hwant].
  - right. intros ops Hops. apply write_wait; [exact Hops|apply Hww, Hwant|apply Hww, Hwant].
Qed.

Lemma map_ssl_err_pending A err : map_ssl_err (A := A) err = Pending -> wants err = true.
Proof. unfold map_ssl_err, wants. case_if; [auto|]. case_if; discriminate. Qed.

Context `{!OpenSslLaws P}.

Lemma handshake_wakes w s r s' : poll_handshake w s = (r, s') ->
  (r = Pending -> will_wake w (inner_of s')) /\ nx_woken (tw_ngx (snd s')) = nx_woken (tw_ngx (snd s)).
Proof.
  unfold poll_handshake. destruct (ti_handshake (fst s)); [|intros [= <- <-]; split; [discriminate|reflexivity]].
  destruct (with_published w SSL_connect s) as [[[rc err] out] s1] eqn:Ep.
  destruct (published_wants _ _ _ _ _ _ _ (connect_wants _ _) Ep) as [Hw Hq].
  cbn [log_call]. case_if; intros [= <- <-]; (split; [|exact Hq]); [discriminate|].
  intros Hr. exact (Hw (map_ssl_err_pending _ _ Hr)).
Qed.

Lemma read_wakes w cap s r s' : tls_poll_read w cap s = (r, s') ->
  (r = Pending -> will_wake w (inner_of s')) /\ nx_woken (tw_ngx (snd s')) = nx_woken (tw_ngx (snd s)).
Proof.
  unfold tls_poll_read. destruct (poll_handshake w s) as [h s1] eqn:Eh. apply handshake_wakes in Eh as [Hh Hq].
  destruct h as [|[|]]; [intros [= <- <-]; auto| |intros [= <- <-]; split; [discriminate|exact Hq]].
  case_if; [intros [= <- <-]; split; [discriminate|exact Hq]|].
  destruct (with_published w _ s1) as [[[n err] out] s2] eqn:Ep.
  destruct (published_wants _ _ _ _ _ _ _ (read_wants _ _ _) Ep) as [Hw Hq2]. rewrite Hq in Hq2.
  repeat case_if; intros [= <- <-]; (split; [|exact Hq2]); try discriminate; intros Hr; apply Hw;
    [unfold wants; assumption|exact (map_ssl_err_pending _ _ Hr)].
Qed.

Lemma write_wakes w data s r s' : tls_poll_write w data s = (r, s') ->
  (r = Pending -> will_wake w (inner_of s')) /\ nx_woken (tw_ngx (snd s')) = nx_woken (tw_ngx (snd s)).
Proof.
  unfold tls_poll_write. destruct (poll_handshake w s) as [h s1] eqn:Eh. apply handshake_wakes in Eh as [Hh Hq].
  destruct h as [|[|]]; [intros [= <- <-]; auto| |intros [= <- <-]; split; [discriminate|exact Hq]].
  destruct data as [|b data]; [intros [= <- <-]; split; [discriminate|exact Hq]|].
  destruct (with_published w _ s1) as [[[n err] out] s2] eqn:Ep.
  destruct (published_wants _ _ _ _ _ _ _ (write_wants _ _ _) Ep) as [Hw Hq2]. rewrite Hq in Hq2.
  case_if; intros [= <- <-]; (split; [|exact Hq2]); [discriminate|]. intros Hr. apply Hw, (map_ssl_err_pending _ _ Hr).
Qed.
End stream.

Section claims.
Context {P : Type} `{OpenSsl P} `{!OpenSslLaws P} (net : network).

Lemma read_end w cap (s : tls_io P * tls_world) s' : 0 < cap -> tls_poll_read net w cap s = (Ready (inl []), s') ->
  exists n, n <= 0 /\ list.last (tw_calls (snd s')) = Some (CallRead n SSL_ERROR_ZERO_RETURN).
Proof.
  intros Hcap. unfold tls_poll_read. destruct (poll_handshake net w s) as [[|[u|e]] s1]; try discriminate.
  destruct (cap =? 0) eqn:Ec; [zify_bool; lia|]. destruct s1 as [io tw]. unfold with_published.
  destruct (run_ssl net _ _ _ _) as [[[[[n err] out] p] t] [inner ng]] eqn:Er.
  pose proof (run_returns net _ _ _ (read_delivers _ _ _) _ _ _ _ _ _ _ _ Er) as Hd. cbn in Hd.
  destruct (0 <? n) eqn:En; zify_bool.
  - intros [= Ht _]. specialize (Hd En). unfold blen in Hd. assert (length (take (Z.to_nat n) out) = 0%nat) as Hl by (rewrite Ht; reflexivity).
    rewrite length_take in Hl. lia.
  - case_if; [discriminate|]. destruct (err =? SSL_ERROR_ZERO_RETURN) eqn:Ee; zify_bool.
    + intros [= <-]. exists n. split; [lia|]. cbn. rewrite list.last_snoc, Ee. reflexivity.
    + intros Hm. injection Hm as Hm _. destruct (map_ssl_err_fails _ _ _ Hm).
Qed.
End claims.

(** C29 (safety). A TLS stream in the hands of hyper and nginx, whatever they do with it and
    whatever OpenSSL and the network answer.  Application data is read or written only after a successful handshake, which
    happens at most once; the pointers for the callbacks are cleared
    outside an OpenSSL call; the session keeps the certificate checks it was
    created with; the collector's expiry time is recorded only by
    a successful handshake; the raw connection sees only the operations of a connection, so it
    is never leaked or closed twice either; and an end of stream is reported only after the peer's
    [close_notify], so a cut connection is never taken for a complete answer.
    Dropping the stream frees its session and closes its connection.
    About: poll_handshake, tls_poll_read, tls_poll_write, tls_poll_shutdown, tls_drop, with_published, bio_read, bio_write,
    map_ssl_err, tls_io, handshake_state, bio_ctx. *)
Theorem tls_stream_safe {P : Type} `{OpenSsl P} `{!OpenSslLaws P} net ssl (p0 : P) raw tw ops l :
  tw_calls tw = [] ->
  let s := tls_run net ops (mk_tio raw ssl p0 bio_null HsPending, tw) in
  calls_ordered (ti_handshake (fst s)) (tw_calls (snd s)) /\
  ti_bio (fst s) = bio_null /\ ti_ssl (fst s) = ssl /\
  (ti_handshake (fst s) = HsPending -> tw_not_after (snd s) = tw_not_after tw) /\
  (exists inner_ops, inner_of s = conn_run inner_ops (raw, tw_ngx tw)) /\
  (forall w cap s', 0 < cap -> tls_poll_read net w cap s = (Ready (inl []), s') ->
     exists n, n <= 0 /\ list.last (tw_calls (snd s')) = Some (CallRead n SSL_ERROR_ZERO_RETURN)) /\
  (let '(s', l') := tls_drop s l in
   pc_connection (ti_inner (fst s')) = None /\ inner_of s' = close (inner_of s) /\ lg_ssls l' = lg_ssls l - 1).
Proof.
  intros Hc s.
  assert (Hi : tls_inv ssl (tw_not_after tw) (raw, tw_ngx tw) s).
  { apply run_inv. split; cbn; auto; [|apply reached_refl]. rewrite Hc. exists [], []. auto. }
  destruct Hi as [H1 H2 H3 H4 H5]. split_and!; auto.
  - intros w cap s'. apply read_end.
  - unfold tls_drop, on_inner, inner_of. destruct s as [io t]. cbn [fst snd].
    destruct (close (ti_inner io, tw_ngx t)) as [inner n] eqn:Ec. cbn. split_and!; auto.
    unfold close in Ec. cbn [fst] in Ec. destruct (pc_connection (ti_inner io)) eqn:Ek; injection Ec as <- <-; auto.
Qed.

(** C30 (liveness). A pending TLS operation is woken.  When a handshake, a
    read or a write over TLS reports that it waits, OpenSSL's last callback has stored
    the caller's waker in the connection, so the event of that direction wakes the caller, whatever the other
    direction does meanwhile; and no TLS operation wakes a task by itself.
    About: poll_handshake, tls_poll_read, tls_poll_write, with_published, bio_read, bio_write, map_ssl_err, poll_read, poll_write. *)
Theorem tls_pending_is_woken {P : Type} `{OpenSsl P} `{!OpenSslLaws P} net w (s : tls_io P * tls_world) :
  (forall r s', poll_handshake net w s = (r, s') ->
     (r = Pending -> will_wake w (inner_of s')) /\ nx_woken (tw_ngx (snd s')) = nx_woken (tw_ngx (snd s))) /\
  (forall cap r s', tls_poll_read net w cap s = (r, s') ->
     (r = Pending -> will_wake w (inner_of s')) /\ nx_woken (tw_ngx (snd s')) = nx_woken (tw_ngx (snd s))) /\
  (forall data r s', tls_poll_write net w data s = (r, s') ->
     (r = Pending -> will_wake w (inner_of s')) /\ nx_woken (tw_ngx (snd s')) = nx_woken (tw_ngx (snd s))).
Proof.
  split_and!.
  - intros r s'. exact (handshake_wakes net w s r s').
  - intros cap r s'. exact (read_wakes net w cap s r s').
  - intros data r s'. exact (write_wakes net w data s r s').
Qed.

(** ** A toy protocol: a hello each way, then records that are passed on; a record of type 21 closes. *)
#[local] Instance toy_ssl : OpenSsl unit := {
  SSL_connect _ p := BioWrite [22] (fun a =>
    if ba_retry a then SslRet (-1) SSL_ERROR_WANT_WRITE [] p
    else BioRead 5 (fun a =>
      if ba_retry a then SslRet (-1) SSL_ERROR_WANT_READ [] p
      else if 0 <? ba_ret a then SslRet 1 0 [] p else SslRet (-1) SSL_ERROR_SYSCALL [] p));
  SSL_read _ len p := BioRead len (fun a =>
    if ba_retry a then SslRet (-1) SSL_ERROR_WANT_READ [] p
    else match ba_data a with
         | [] => SslRet 0 SSL_ERROR_SYSCALL [] p
         | b :: _ => if b =? 21 then SslRet 0 SSL_ERROR_ZERO_RETURN [] p else SslRet (blen (ba_data a)) 0 (ba_data a) p
         end);
  SSL_write _ data p := BioWrite data (fun a =>
    if ba_retry a then SslRet (-1) SSL_ERROR_WANT_WRITE [] p
    else if 0 <? ba_ret a then SslRet (ba_ret a) 0 [] p else SslRet (-1) SSL_ERROR_SYSCALL [] p);
  SSL_shutdown _ p := BioWrite [21] (fun _ => SslRet 0 0 [] p);
  peer_not_after _ := Some (Some (20000, 5))
}.

#[local] Instance toy_laws : OpenSslLaws unit.
Proof.
  assert (W : forall last rc err out, (err = SSL_ERROR_WANT_READ -> last = Some DirRead) ->
    (err = SSL_ERROR_WANT_WRITE -> last = Some DirWrite) -> wants_last last (SslRet rc err out tt)) by (split; assumption).
  split; intros ssl; [intros []|intros len []|intros data []|intros len []]; cbn [SSL_connect SSL_read SSL_write toy_ssl wants_last returns];
    intros a; destruct (ba_retry a).
  1, 3, 5: apply W; intros He; first [reflexivity|discriminate He].
  - intros a'. destruct (ba_retry a'); [|case_if]; apply W; intros He; first [reflexivity|discriminate He].
  - destruct (ba_data a); [|case_if]; apply W; intros He; discriminate He.
  - case_if; apply W; intros He; discriminate He.
  - cbn. lia.
  - destruct (ba_data a); [|case_if]; cbn; lia.
Qed.

Definition toy_session : session := mk_ssl (mk_ctx TLS1_2_VERSION SSL_VERIFY_PEER (Some None) None) (Some $"otel") (Some $"otel") None None.
Definition toy_world : tls_world := mk_tw (mk_ngx 8 [7] [] [] [] 0) 0 0 [].
(** The hello goes out; its answer is not there yet, then arrives; then data, then an alert. *)
Definition toy_net : network :=
  mk_net (fun t => match t with
                   | 1%nat => mk_rin false NGX_AGAIN [] 0 true true false
                   | 3%nat => mk_rin false 1 [22] 0 true false true
                   | 4%nat => mk_rin false 2 [23; 65] 0 true false false
                   | _ => mk_rin false 1 [21] 0 true false false
                   end)
         (fun _ => 1).
Definition toy_start : tls_io unit * tls_world := (mk_tio (mk_io (Some 7) None None) toy_session tt bio_null HsPending, toy_world).

Lemma tls_stream_safe_witness :
  let s := tls_run toy_net [TRead 1 100; TInner OpReadEvent; TRead 1 100] toy_start in
  tw_calls (snd s) = [CallConnect (-1); CallConnect 1; CallRead 2 0] /\ tw_not_after (snd s) = 1728000005 /\
  calls_ordered (ti_handshake (fst s)) (tw_calls (snd s)) /\
  exists n, n <= 0 /\
    list.last (tw_calls (snd (snd (tls_poll_read toy_net 1 100 s)))) = Some (CallRead n SSL_ERROR_ZERO_RETURN).
Proof.
  destruct (tls_stream_safe toy_net toy_session tt (mk_io (Some 7) None None) toy_world
    [TRead 1 100; TInner OpReadEvent; TRead 1 100] (mk_ledger 0 1 false 0) eq_refl) as (Ho & _ & _ & _ & _ & He & _).
  split; [vm_compute; reflexivity|]. split; [vm_compute; reflexivity|]. split; [exact Ho|].
  eapply (He 1 100); [lia|]. vm_compute. reflexivity.
Defined.

Lemma tls_pending_is_woken_witness :
  exists s', tls_poll_read toy_net 1 100 toy_start = (Pending, s') /\ will_wake 1 (inner_of s').
Proof.
  destruct (tls_pending_is_woken toy_net 1 toy_start) as (_ & Hr & _).
  eexists. split; [vm_compute; reflexivity|]. exact (proj1 (Hr 100 _ _ eq_refl) eq_refl).
Defined.
