(* ===== verification/SslQueue.v ===== *)
(** * OpenSSL's error queue (src/src/transport/tls.rs)

    Each thread has one queue of errors, shared by all of its connections.  The manual of [SSL_get_error] asks that it be empty before
    every [SSL_*] call; [Tls] takes that for granted.  Here the queue is state: what [openssl_err] reports and
    leaves, how the three polls of a stream classify a call's result against the queue, and which operations of the code keep it empty. *)
From S2P Require Import Prelude DataModel StdText Conn Tls.

(** ** The queue *)

(** [ERR_get_error] removes the earliest entry; 0 is the answer of an empty queue. *)
Definition ERR_get_error (q : list Z) : Z * list Z := match q with [] => (0, []) | code :: q => (code, q) end.

(** [while ERR_get_error() != 0 {}]
    [src/src/transport/tls.rs: 180-180 openssl_err] *)
Fixpoint drain_queue (q : list Z) : list Z :=
  match q with [] => [] | code :: q => if code =? 0 then q else drain_queue q end.

(** [{:x}] of an unsigned number of at most [fuel] digits. *)
Definition hex_digit (d : Z) : Z := if d <? 10 then 48 + d else 87 + d.
Fixpoint hex_digits (fuel : nat) (n : Z) (acc : list Z) : list Z :=
  match fuel with
  | O => acc
  | S fuel => let acc := hex_digit (n mod 16) :: acc in if n / 16 =? 0 then acc else hex_digits fuel (n / 16) acc
  end.

Section reasons.
(** [ERR_reason_error_string]: the text of a code, if it has one. *)
Context (ERR_reason_error_string : Z -> option (list Z)).

(** [src/src/transport/tls.rs: openssl_err] *)
Definition openssl_err (q : list Z) : list Z * list Z :=
  let '(code, q) := ERR_get_error q in
  if code =? 0 then ($"no OpenSSL error on queue", q) else
  let msg := match ERR_reason_error_string code with
             | None => $"OpenSSL error 0x" ++ hex_digits 16 code []
             | Some s => from_utf8_lossy s
             end in
  (msg, drain_queue q).

(** *** One call and its classification *)

(** What an [SSL_*] call returns: its result, what [SSL_get_error] makes of it when nothing was on the queue before, and the errors
    it puts there. *)
Record ssl_return := mk_ret { sr_rc : Z; sr_err : Z; sr_pushed : list Z }.

(** [SSL_get_error] looks at the queue first; [by_queue] is its verdict on the earliest entry. *)
Context (by_queue : Z -> Z).
Definition SSL_get_error (q : list Z) (i : ssl_return) : Z := match q with [] => sr_err i | code :: _ => by_queue code end.

(** What the caller of a poll gets: the result, a wait, the peer's end of the stream, or a failure with its text. *)
Inductive verdict := Done (rc : Z) | Waits | PeerClosed | Fails (err : Z) (detail : list Z).

Definition is_want (err : Z) : bool := (err =? SSL_ERROR_WANT_READ) || (err =? SSL_ERROR_WANT_WRITE).

(** [src/src/transport/tls.rs: TlsNgxConnIo::map_ssl_err] *)
Definition queue_ssl_err (i : ssl_return) (q : list Z) : verdict * list Z :=
  let err := SSL_get_error q i in
  if is_want err then (Waits, q)
  else if err =? SSL_ERROR_ZERO_RETURN then (PeerClosed, q)
  else let '(detail, q) := openssl_err q in (Fails err detail, q).

(** The operations of a stream that call OpenSSL. *)
Inductive queue_op := QConnect (i : ssl_return) | QRead (i : ssl_return) | QWrite (i : ssl_return) | QShutdown (i : ssl_return).

(** [src/src/transport/tls.rs: 766-822 TlsNgxConnIo::poll_handshake] *)
Definition queue_connect (i : ssl_return) (q : list Z) : verdict * list Z :=
  let q := q ++ sr_pushed i in
  if sr_rc i =? 1 then (Done 1, q) else queue_ssl_err i q.

(** [src/src/transport/tls.rs: 873-909 TlsNgxConnIo::poll_read] *)
Definition queue_read (i : ssl_return) (q : list Z) : verdict * list Z :=
  let q := q ++ sr_pushed i in
  if 0 <? sr_rc i then (Done (sr_rc i), q) else
  let err := SSL_get_error q i in
  if is_want err then (Waits, q) else if err =? SSL_ERROR_ZERO_RETURN then (PeerClosed, q) else queue_ssl_err i q.

(** [src/src/transport/tls.rs: 932-943 TlsNgxConnIo::poll_write] *)
Definition queue_write (i : ssl_return) (q : list Z) : verdict * list Z :=
  let q := q ++ sr_pushed i in
  if 0 <? sr_rc i then (Done (sr_rc i), q) else queue_ssl_err i q.

(** The result of [SSL_shutdown] is ignored, and the queue with it.
    [src/src/transport/tls.rs: 952-968 TlsNgxConnIo::poll_shutdown] *)
Definition queue_shutdown (i : ssl_return) (q : list Z) : verdict * list Z := (Done 0, q ++ sr_pushed i).

Definition queue_step (o : queue_op) (q : list Z) : verdict * list Z :=
  match o with QConnect i => queue_connect i q | QRead i => queue_read i q | QWrite i => queue_write i q | QShutdown i => queue_shutdown i q end.

Fixpoint queue_run (ops : list queue_op) (q : list Z) : list verdict * list Z :=
  match ops with
  | [] => ([], q)
  | o :: ops => let '(v, q) := queue_step o q in let '(vs, q) := queue_run ops q in (v :: vs, q)
  end.

(** What OpenSSL's manual says of a call: errors are put on the queue, with codes that are not 0, only by a call that failed for good. *)
Record call_ok (i : ssl_return) : Prop := {
  co_codes : Forall (fun c => c <> 0) (sr_pushed i);
  co_fatal : sr_pushed i <> [] -> sr_rc i <= 0 /\ is_want (sr_err i) = false /\ sr_err i <> SSL_ERROR_ZERO_RETURN
}.

(** A shutdown that leaves nothing behind. *)
Definition op_ok (o : queue_op) : Prop :=
  match o with QConnect i | QRead i | QWrite i => call_ok i | QShutdown i => sr_pushed i = [] end.

Lemma drain_queue_all q : Forall (fun c => c <> 0) q -> drain_queue q = [].
Proof. induction 1 as [|c q Hc _ IH]; [reflexivity|]. cbn. rewrite (proj2 (Z.eqb_neq _ _) Hc). exact IH. Qed.

(** [openssl_err] reports the earliest error and leaves none. *)
Lemma openssl_err_exact q : Forall (fun c => c <> 0) q ->
  snd (openssl_err q) = [] /\
  fst (openssl_err q) = match q with
    | [] => $"no OpenSSL error on queue"
    | c :: _ => match ERR_reason_error_string c with Some s => from_utf8_lossy s | None => $"OpenSSL error 0x" ++ hex_digits 16 c [] end
    end.
Proof.
  intros Hq. unfold openssl_err. destruct Hq as [|c q Hc Hq]; [split; reflexivity|]. cbn [ERR_get_error].
  rewrite (proj2 (Z.eqb_neq _ _) Hc). split; [apply drain_queue_all, Hq|reflexivity].
Qed.

Context (by_queue_fatal : forall code, by_queue code = SSL_ERROR_SSL \/ by_queue code = SSL_ERROR_SYSCALL).

Lemma by_queue_final code : is_want (by_queue code) = false /\ (by_queue code =? SSL_ERROR_ZERO_RETURN) = false.
Proof using by_queue_fatal. destruct (by_queue_fatal code) as [->| ->]; split; reflexivity. Qed.

Lemma queue_err_clean i q : Forall (fun c => c <> 0) q -> (q <> [] -> sr_err i <> SSL_ERROR_ZERO_RETURN /\ is_want (sr_err i) = false) ->
  snd (queue_ssl_err i q) = [].
Proof using by_queue_fatal.
  intros Hq Hf. unfold queue_ssl_err. destruct q as [|c q]; cbn [SSL_get_error].
  - destruct (is_want _); [reflexivity|]. destruct (_ =? _); reflexivity.
  - destruct (by_queue_final c) as [-> ->]. destruct (openssl_err_exact _ Hq) as [E _]. destruct (openssl_err _). exact E.
Qed.

Lemma op_clean o : op_ok o -> snd (queue_step o []) = [].
Proof using by_queue_fatal.
  assert (G : forall i, call_ok i -> snd (queue_ssl_err i (sr_pushed i)) = []).
  { intros i [Hc Hf]. apply queue_err_clean; [exact Hc|]. intros Hp. apply Hf in Hp. tauto. }
  assert (D : forall i, call_ok i -> 0 < sr_rc i -> sr_pushed i = []).
  { intros i [_ Hf] Hr. destruct (sr_pushed i); [reflexivity|]. destruct Hf as [H0 _]; [discriminate|lia]. }
  destruct o as [i|i|i|i]; cbn [queue_step op_ok]; intros Hi; unfold queue_connect, queue_read, queue_write, queue_shutdown; cbn [app]; [| | |exact Hi].
  - destruct (Z.eqb_spec (sr_rc i) 1); cbn [snd]; [apply D; [exact Hi|lia]|apply G, Hi].
  - destruct (Z.ltb_spec 0 (sr_rc i)); cbn [snd]; [apply D; [exact Hi|lia]|]. specialize (G i Hi). unfold queue_ssl_err in *.
    destruct (is_want _); [exact G|]. destruct (_ =? _); exact G.
  - destruct (Z.ltb_spec 0 (sr_rc i)); cbn [snd]; [apply D; [exact Hi|lia]|apply G, Hi].
Qed.

(** The queue is empty before and after every operation of the streams of a thread, however they are interleaved, as long as no [SSL_shutdown] leaves an error
    behind; each result is then judged by its own call alone. *)
Theorem queue_kept_empty ops : Forall op_ok ops -> queue_run ops [] = (map (fun o => fst (queue_step o [])) ops, []).
Proof using by_queue_fatal.
  induction 1 as [|o ops Ho _ IH]; [reflexivity|]. cbn [queue_run map]. pose proof (op_clean o Ho) as E.
  destruct (queue_step o []) as [v q]. cbn [fst snd] in *. subst q. rewrite IH. reflexivity.
Qed.

(** An error that a shutdown leaves behind is charged to the next operation of any stream: a read or write that only has to wait fails, with the text of the shutdown's error. *)
Theorem shutdown_error_misread i j code rest :
  sr_pushed i = code :: rest -> Forall (fun c => c <> 0) (code :: rest) -> sr_rc j <= 0 -> sr_err j = SSL_ERROR_WANT_READ -> sr_pushed j = [] ->
  queue_run [QRead j] [] = ([Waits], []) /\
  queue_run [QShutdown i; QRead j] [] = ([Done 0; Fails (by_queue code) (fst (openssl_err (code :: rest)))], []).
Proof using by_queue_fatal.
  intros Hi Hc Hr He Hj. cbn [queue_run queue_step]. unfold queue_read, queue_shutdown. rewrite Hi, Hj, (proj2 (Z.ltb_ge _ _) Hr). cbn [app]. rewrite app_nil_r.
  unfold queue_ssl_err. cbn [SSL_get_error]. rewrite He. split; [reflexivity|]. destruct (by_queue_final code) as [-> ->].
  destruct (openssl_err_exact _ Hc) as [E _]. destruct (openssl_err (code :: rest)) as [d q]. cbn [fst snd] in *. subst q. reflexivity.
Qed.
End reasons.

(** Two streams: one waits for bytes, the other fails for good, and the first goes on waiting. *)
Definition waiting_call : ssl_return := mk_ret (-1) SSL_ERROR_WANT_READ [].
Definition broken_call : ssl_return := mk_ret (-1) SSL_ERROR_SSL [167772450; 167772451].
Definition always_ssl (code : Z) : Z := SSL_ERROR_SSL.

Lemma queue_kept_empty_witness :
  queue_run (fun _ => None) always_ssl [QRead waiting_call; QWrite broken_call; QRead waiting_call] [] =
  ([Waits; Fails SSL_ERROR_SSL $"OpenSSL error 0xa000122"; Waits], []).
Proof.
  rewrite (queue_kept_empty (fun _ => None) always_ssl (fun _ => or_introl eq_refl)); [reflexivity|].
  assert (W : call_ok waiting_call) by (split; [constructor|intros []; reflexivity]).
  assert (B : call_ok broken_call) by (split; [repeat constructor; discriminate|intros _; cbn; split_and!; (reflexivity || discriminate || lia)]).
  apply Forall_cons_2; [exact W|]. apply Forall_cons_2; [exact B|]. apply Forall_cons_2; [exact W|]. apply Forall_nil_2.
Defined.

Lemma shutdown_error_misread_witness :
  queue_run (fun _ => None) always_ssl [QShutdown broken_call; QRead waiting_call] [] =
  ([Done 0; Fails SSL_ERROR_SSL $"OpenSSL error 0xa000122"], []).
Proof.
  refine (proj2 (shutdown_error_misread (fun _ => None) always_ssl (fun _ => or_introl eq_refl) broken_call waiting_call 167772450 [167772451]
    eq_refl _ _ eq_refl eq_refl)); [repeat constructor; discriminate|cbn; lia].
Defined.
