(* ===== verification/Transport.v ===== *)
(** * Transports (src/src/transport/hyper_http.rs, src/src/transport/grpc/transport.rs, src/src/drain/mod.rs)

    How a batch reaches the collector: the HTTP/1.1 transport, which opens a
    connection for every batch, the gRPC transport, which keeps one per signal, and the start
    of [export_loop], which builds one of them from the configuration.  Connections and TLS are
    those of their own components.  hyper and tonic are not part of the program: what
    their futures answer is an input, and their header, URI and protobuf parsers are arguments. *)
From stdpp Require Import gmap.
From S2P Require Import Prelude DataModel StdText Config Endpoint Outcome Conn Tls.

(** ** Connections, with or without TLS *)

(** What [connect_io] returns.
    [src/src/transport/hyper_http.rs: TlsOrPlain] *)
Inductive stream := Plain (io : conn_io) | OverTls (ssl : session) (io : conn_io).

Definition stream_io (st : stream) : conn_io := match st with Plain io => io | OverTls _ io => io end.

(** The objects around a transport: OpenSSL's and nginx's. *)
Abbreviation outside := (ledger * ngx_side)%type.

(** What opening a stream sees. *)
Record open_env := mk_oe { oe_waker : Z; oe_connect : connect_env; oe_ssl : ssl_answers }.

Definition open_stream (e : open_env) (alpn : option (list Z)) (endpoint : parsed_endpoint) (tls : option (ssl_ctx * bool)) (o : outside)
    : option ((stream + transport_error) * outside) :=
  let '(l, n) := o in
  match connect (oe_waker e) (oe_connect e) endpoint n with
  | None => None
  | Some (inr err, n) => Some (inr err, (l, n))
  | Some (inl raw, n) =>
      match tls with
      | Some (ctx, insecure) =>
          match wrap_tls_io (oe_ssl e) ctx insecure (strip_v6_brackets (host_str endpoint)) alpn raw l n with
          | (inl (ssl, io), l, n) => Some (inl (OverTls ssl io), (l, n))
          | (inr err, l, n) => Some (inr err, (l, n))
          end
      | None => Some (inl (Plain raw), (l, n))
      end
  end.

(** The last owner is gone, after hyper has used the connection for [ops]. *)
Definition release (ops : list conn_op) (st : stream) (o : outside) : outside :=
  (match st with OverTls _ _ => ssl_free (fst o) | Plain _ => fst o end, snd (close (conn_run ops (stream_io st, snd o)))).

(** ** HTTP *)

(** [src/src/transport/hyper_http.rs: HyperHttpTransport] *)
Record http_transport := mk_ht {
  ht_endpoint : parsed_endpoint; ht_headers : list (list Z * list Z);
  ht_metrics_path : list Z; ht_logs_path : list Z; ht_traces_path : list Z; ht_tls : option (ssl_ctx * bool)
}.

(** [src/src/transport/hyper_http.rs: HyperHttpTransport::with_connector] *)
Definition http_with_connector (endpoint_str : list Z) (headers : list (list Z * list Z)) : http_transport + transport_error :=
  match parse_endpoint endpoint_str with
  | None => inr InvalidEndpoint
  | Some endpoint =>
      let '(metrics_path, logs_path, traces_path) := derive_signal_paths (base_path endpoint) in
      inl (mk_ht endpoint headers metrics_path logs_path traces_path None)
  end.

(** [src/src/transport/hyper_http.rs: HyperHttpTransport::set_tls] *)
Definition http_set_tls (ctx : ssl_ctx) (insecure : bool) (t : http_transport) : http_transport :=
  mk_ht (ht_endpoint t) (ht_headers t) (ht_metrics_path t) (ht_logs_path t) (ht_traces_path t) (Some (ctx, insecure)).
(** [src/src/transport/hyper_http.rs: HyperHttpTransport::set_metrics_path] *)
Definition set_metrics_path (path : list Z) (t : http_transport) : http_transport :=
  mk_ht (ht_endpoint t) (ht_headers t) path (ht_logs_path t) (ht_traces_path t) (ht_tls t).
(** [src/src/transport/hyper_http.rs: HyperHttpTransport::set_logs_path] *)
Definition set_logs_path (path : list Z) (t : http_transport) : http_transport :=
  mk_ht (ht_endpoint t) (ht_headers t) (ht_metrics_path t) path (ht_traces_path t) (ht_tls t).
(** [src/src/transport/hyper_http.rs: HyperHttpTransport::set_traces_path] *)
Definition set_traces_path (path : list Z) (t : http_transport) : http_transport :=
  mk_ht (ht_endpoint t) (ht_headers t) (ht_metrics_path t) (ht_logs_path t) path (ht_tls t).

(** HTTP/1.1 offers no protocol.
    [src/src/transport/hyper_http.rs: 1877-1890 HyperHttpTransport::connect_io] *)
Definition http_connect_io (e : open_env) (t : http_transport) (o : outside) : option ((stream + transport_error) * outside) :=
  open_stream e None (ht_endpoint t) (ht_tls t) o.

(** hyper's parsers: a header name comes back in lower case, [None] is invalid. *)
Record http_lib := mk_hl { hl_name : list Z -> option (list Z); hl_value : list Z -> bool; hl_uri : list Z -> bool }.

Record http_request := mk_rq { rq_method : list Z; rq_path : list Z; rq_headers : gmap (list Z) (list Z); rq_body : list Z }.

Definition insert_header (hl : http_lib) (m : gmap (list Z) (list Z)) (kv : list Z * list Z) : gmap (list Z) (list Z) :=
  match hl_name hl kv.1 with
  | Some name => if hl_value hl kv.2 then <[name := kv.2]> m else m
  | None => m
  end.

(** A bad path has already spoilt the builder; the configured headers come last.
    [src/src/transport/hyper_http.rs: 2164-2197 http_post_raw] *)
Definition build_request (hl : http_lib) (authority http_path : list Z) (extra_headers : list (list Z * list Z)) (body : list Z)
    : http_request + transport_error :=
  if negb (hl_uri hl http_path) then inr Connection else
  if negb (hl_value hl authority) then inr Connection else
  let hdrs : gmap (list Z) (list Z) :=
    <[$"connection" := $"close"]> (<[$"content-length" := fmt_dec (blen body)]>
    (<[$"content-type" := $"application/x-protobuf"]> (<[$"host" := authority]> ∅))) in
  inl (mk_rq $"POST" http_path (foldl (insert_header hl) hdrs extra_headers) body).

(** One poll of the connection's driver and one of the response. *)
Inductive driver_poll := DrvPending | DrvDone | DrvError.
Record response := mk_rs { rs_status : Z; rs_retry_after : option (list Z) }.
Inductive response_poll := RespPending | RespReady (r : response) | RespError.

(** [None] while the response is awaited; a finished driver is not polled again.
    [src/src/transport/hyper_http.rs: drive_to_response] *)
Fixpoint drive_to_response (conn_done : bool) (polls : list (driver_poll * response_poll)) : option (response + unit) :=
  match polls with
  | [] => None
  | (c, r) :: polls =>
      let driven := if conn_done then Some true
                    else match c with DrvError => None | DrvDone => Some true | DrvPending => Some false end in
      match driven with
      | None => Some (inr tt)
      | Some conn_done =>
          match r with
          | RespReady resp => Some (inl resp)
          | RespError => Some (inr tt)
          | RespPending => drive_to_response conn_done polls
          end
      end
  end.

(** [src/src/transport/hyper_http.rs: 2219-2219 MAX_BODY] *)
Definition MAX_BODY : Z := 65536.

(** Collecting the body: its bytes, an error, or [None] when it does not end. *)
Abbreviation collected := (option (list Z + unit)).

(** What an exchange sees: whether hyper's handshake succeeds, the polls, the body, and what hyper does with the connection. *)
Record exchange_env := mk_xe { xe_handshake : bool; xe_polls : list (driver_poll * response_poll); xe_body : collected; xe_ops : list conn_op }.

(** [None] while it waits.
    [src/src/transport/hyper_http.rs: 2199-2229 http_post_raw] *)
Definition exchange (x : exchange_env) : option (response * list Z + transport_error) :=
  if negb (xe_handshake x) then Some (inr Connection) else
  match drive_to_response false (xe_polls x) with
  | None => None
  | Some (inr _) => Some (inr Connection)
  | Some (inl resp) =>
      match xe_body x with
      | None => None
      | Some (inr _) => Some (inr BodyRead)
      | Some (inl b) => Some (inl (resp, if MAX_BODY <? blen b then take (Z.to_nat MAX_BODY) b else b))
      end
  end.

(** The stream, which the call owns, is released when the call returns or is dropped.  The last component
    is the request that went to hyper.
    [src/src/transport/hyper_http.rs: http_post_raw] *)
Definition http_post_raw (hl : http_lib) (x : exchange_env) (io : stream) (authority http_path : list Z)
    (extra_headers : list (list Z * list Z)) (body : list Z) (o : outside)
    : option (response * list Z + transport_error) * outside * option http_request :=
  match build_request hl authority http_path extra_headers body with
  | inr e => (Some (inr e), release [] io o, None)
  | inl req => (exchange x, release (xe_ops x) io o, Some req)
  end.

Section senders.
(** The generated protobuf decoders: responses, [google.rpc.Status], [google.rpc.RetryInfo], and requests
    ([decode_request] says whether the bytes are an [Export*ServiceRequest]). *)
Context (hl : http_lib).
Context (decode_response : otlp_signal -> list Z -> option (option Z)).
Context (decode_status : list Z -> option (list (list Z * list Z))).
Context (decode_retry_info : list Z -> option (option (Z * Z))).
Context (decode_request : otlp_signal -> list Z -> bool).

(** [src/src/transport/hyper_http.rs: 1897-1936 HyperHttpTransport::send] *)
Definition http_path_of (signal : otlp_signal) (t : http_transport) : list Z :=
  match signal with SigMetrics => ht_metrics_path t | SigLogs => ht_logs_path t | SigTraces => ht_traces_path t end.

(** [send], [send_logs] and [send_traces].
    [src/src/transport/hyper_http.rs: 1897-1939 HyperHttpTransport::send] *)
Definition http_send (e : open_env) (x : exchange_env) (now_ns : Z) (signal : otlp_signal) (bytes : list Z) (t : http_transport) (o : outside)
    : option (option (delivery_outcome + transport_error) * outside * option (stream * http_request)) :=
  match http_connect_io e t o with
  | None => None
  | Some (inr err, o) => Some (Some (inr err), o, None)
  | Some (inl io, o) =>
      let authority := endpoint_authority (ht_endpoint t) in
      let '(r, o, req) := http_post_raw hl x io authority (http_path_of signal t) (ht_headers t) bytes o in
      let r := match r with
               | Some (inl (resp, body)) =>
                   Some (inl (http_response_to_outcome decode_response now_ns (rs_status resp) (rs_retry_after resp) body signal))
               | Some (inr err) => Some (inr err)
               | None => None
               end in
      Some (r, o, (fun q => (io, q)) <$> req)
  end.

(** [send_to_path]: a success is a 2xx status.
    [src/src/transport/hyper_http.rs: HyperHttpTransport::send_to_path] *)
Definition send_to_path (e : open_env) (x : exchange_env) (path bytes : list Z) (t : http_transport) (o : outside)
    : option (option (unit + transport_error) * outside) :=
  match http_connect_io e t o with
  | None => None
  | Some (inr err, o) => Some (Some (inr err), o)
  | Some (inl io, o) =>
      let '(r, o, _) := http_post_raw hl x io (endpoint_authority (ht_endpoint t)) path (ht_headers t) bytes o in
      Some (match r with
            | Some (inl (resp, _)) =>
                if (200 <=? rs_status resp) && (rs_status resp <? 300) then Some (inl tt) else Some (inr (HttpStatus (rs_status resp)))
            | Some (inr err) => Some (inr err)
            | None => None
            end, o)
  end.

(** ** gRPC *)

(** A detached task of the event loop that drives one HTTP/2 connection and owns its stream: the one spawned on the
    handshake's connection and those hyper starts through [NgxExecutor] count as one.
    [src/src/transport/grpc/transport.rs: 244-249 GrpcTransport::send] *)
Record driver := mk_driver { dr_id : nat; dr_stream : stream }.
(** The detached drivers that still run, and how many were ever spawned. *)
Record tasks := mk_tasks { tk_next : nat; tk_drivers : list driver }.
Definition no_tasks : tasks := mk_tasks 0 [].

(** [ngx::async_::spawn(conn).detach()].
    [src/src/transport/grpc/transport.rs: 244-249 GrpcTransport::send] *)
Definition spawn_driver (io : stream) (tk : tasks) : nat * tasks :=
  (tk_next tk, mk_tasks (S (tk_next tk)) (mk_driver (tk_next tk) io :: tk_drivers tk)).

(** The future of a driver resolves when hyper is done with its connection, for whatever reason and at any wait; the task and the stream
    are dropped then, after hyper has used the connection for [ops]. *)
Fixpoint end_driver (id : nat) (ops : list conn_op) (ds : list driver) (o : outside) : list driver * outside :=
  match ds with
  | [] => ([], o)
  | d :: ds =>
      if Nat.eqb (dr_id d) id then (ds, release ops (dr_stream d) o)
      else let '(ds, o) := end_driver id ops ds o in (d :: ds, o)
  end.
Fixpoint end_drivers (ended : list (nat * list conn_op)) (tk : tasks) (o : outside) : tasks * outside :=
  match ended with
  | [] => (tk, o)
  | (id, ops) :: ended =>
      let '(ds, o) := end_driver id ops (tk_drivers tk) o in end_drivers ended (mk_tasks (tk_next tk) ds) o
  end.

(** A cached client is a handle on a driver's connection.
    [src/src/transport/grpc/transport.rs: GrpcTransport] *)
Record grpc_transport := mk_gt {
  gt_endpoint : parsed_endpoint; gt_origin : list Z;
  gt_client : option nat; gt_logs_client : option nat; gt_traces_client : option nat;
  gt_tls : option (ssl_ctx * bool)
}.

(** [src/src/transport/grpc/transport.rs: GrpcTransport::with_connector] *)
Definition grpc_with_connector (endpoint_str : list Z) : grpc_transport + transport_error :=
  match parse_endpoint endpoint_str with
  | None => inr InvalidEndpoint
  | Some endpoint =>
      match (match endpoint with
             | EHttp host port _ => Some ($"http://" ++ host ++ $":" ++ fmt_dec port)
             | EHttps host port _ => Some ($"https://" ++ host ++ $":" ++ fmt_dec port)
             | EUnix _ _ => None
             end) with
      | None => inr InvalidEndpoint
      | Some origin => if negb (hl_uri hl origin) then inr InvalidEndpoint else inl (mk_gt endpoint origin None None None None)
      end
  end.

(** [src/src/transport/grpc/transport.rs: GrpcTransport::set_tls] *)
Definition grpc_set_tls (ctx : ssl_ctx) (insecure : bool) (t : grpc_transport) : grpc_transport :=
  mk_gt (gt_endpoint t) (gt_origin t) (gt_client t) (gt_logs_client t) (gt_traces_client t) (Some (ctx, insecure)).

(** HTTP/2 over TLS must be negotiated.
    [src/src/transport/grpc/transport.rs: 192-202 GrpcTransport::connect_io] *)
Definition grpc_connect_io (e : open_env) (t : grpc_transport) (o : outside) : option ((stream + transport_error) * outside) :=
  open_stream e (Some $"h2") (gt_endpoint t) (gt_tls t) o.

(** The client of a signal.
    [src/src/transport/grpc/transport.rs: GrpcTransport] *)
Definition client_of (signal : otlp_signal) (t : grpc_transport) : option nat :=
  match signal with SigMetrics => gt_client t | SigLogs => gt_logs_client t | SigTraces => gt_traces_client t end.
Definition set_client (signal : otlp_signal) (c : option nat) (t : grpc_transport) : grpc_transport :=
  match signal with
  | SigMetrics => mk_gt (gt_endpoint t) (gt_origin t) c (gt_logs_client t) (gt_traces_client t) (gt_tls t)
  | SigLogs => mk_gt (gt_endpoint t) (gt_origin t) (gt_client t) c (gt_traces_client t) (gt_tls t)
  | SigTraces => mk_gt (gt_endpoint t) (gt_origin t) (gt_client t) (gt_logs_client t) c (gt_tls t)
  end.

(** The answer to an [Export] call: the [rejected_*] field of [partial_success], a status, or none before the caller
    gives up. *)
Inductive rpc_answer :=
  | RpcOk (partial_success : option Z)
  | RpcStatus (code : grpc_code) (pushback : option (list Z)) (details : list Z)
  | RpcWaiting.

(** What a call sees: whether the HTTP/2 handshake succeeds ([None] when the caller gives up on it) and the answer. *)
Record call_env := mk_ce { cl_handshake : option bool; cl_answer : rpc_answer }.

(** The client is built when there is none, on a connection whose driver is spawned.  Up to the end of the handshake
    the future owns the stream.  [None] inside means that the handshake is still awaited.
    [src/src/transport/grpc/transport.rs: 228-256 GrpcTransport::send] *)
Definition ensure_client (e : open_env) (ce : call_env) (signal : otlp_signal) (t : grpc_transport) (tk : tasks) (o : outside)
    : option (option (grpc_transport + transport_error) * tasks * outside) :=
  match client_of signal t with
  | Some _ => Some (Some (inl t), tk, o)
  | None =>
      match grpc_connect_io e t o with
      | None => None
      | Some (inr err, o) => Some (Some (inr err), tk, o)
      | Some (inl io, o) =>
          match cl_handshake ce with
          | None => Some (None, tk, release [] io o)
          | Some false => Some (Some (inr Connection), tk, release [] io o)
          | Some true => let '(id, tk) := spawn_driver io tk in Some (Some (inl (set_client signal (Some id) t)), tk, o)
          end
      end
  end.

(** The client is taken out for the call and put back after a successful one; otherwise the handle is dropped, and its
    connection is left to its driver.  [send], [send_logs] and [send_traces] alike.  The last component is the
    client that made the call.
    [src/src/transport/grpc/transport.rs: 213-445 GrpcTransport::send] *)
Definition grpc_send (e : open_env) (ce : call_env) (signal : otlp_signal) (bytes : list Z) (t : grpc_transport) (tk : tasks) (o : outside)
    : option (option (delivery_outcome + transport_error) * grpc_transport * tasks * outside * option nat) :=
  if negb (decode_request signal bytes) then Some (Some (inr Connection), t, tk, o, None) else
  match ensure_client e ce signal t tk o with
  | None => None
  | Some (None, tk, o) => Some (None, t, tk, o, None)
  | Some (Some (inr err), tk, o) => Some (Some (inr err), t, tk, o, None)
  | Some (Some (inl t), tk, o) =>
      let client := client_of signal t in
      let t := set_client signal None t in
      match cl_answer ce with
      | RpcOk partial_success =>
          let rejected := default 0 ((fun n => if 0 <? n then n else 0) <$> partial_success) in
          Some (Some (inl (if 0 <? rejected then PartialReject rejected else Accepted)), set_client signal client t, tk, o, client)
      | RpcStatus code pushback details =>
          Some (Some (inl (grpc_status_to_outcome decode_status decode_retry_info code pushback details)), t, tk, o, client)
      | RpcWaiting => Some (None, t, tk, o, client)
      end
  end.

(** ** The transport of the export loop *)

(** [src/src/drain/mod.rs: ExportTransport] *)
Inductive export_transport := XHttp (t : http_transport) | XGrpc (t : grpc_transport).

(** The signal of a batch.
    [src/src/drain/mod.rs: ExportTransport::send_pdata] *)
Definition signal_of (p : pdata) : otlp_signal :=
  match p with PMetrics _ => SigMetrics | PLogs _ => SigLogs | PSpans _ => SigTraces end.

Record send_env := mk_se { sv_open : open_env; sv_http : exchange_env; sv_call : call_env; sv_now : Z }.

(** [src/src/drain/mod.rs: 173-231 ExportTransport::send_pdata] *)
Definition send_pdata (e : send_env) (p : pdata) (bytes : list Z) (x : export_transport) (tk : tasks) (o : outside)
    : option (option (delivery_outcome + transport_error) * export_transport * tasks * outside) :=
  match x with
  | XHttp t =>
      match http_send (sv_open e) (sv_http e) (sv_now e) (signal_of p) bytes t o with
      | Some (r, o, _) => Some (r, XHttp t, tk, o)
      | None => None
      end
  | XGrpc t =>
      match grpc_send (sv_open e) (sv_call e) (signal_of p) bytes t tk o with
      | Some (r, t, tk, o, _) => Some (r, XGrpc t, tk, o)
      | None => None
      end
  end.

(** [src/src/drain/mod.rs: grpc_ignored_endpoint_names] *)
Definition grpc_ignored_endpoint_names (metrics logs traces : list Z) : list (list Z) :=
  (if blen metrics =? 0 then [] else [$"metrics"]) ++
  (if blen logs =? 0 then [] else [$"logs"]) ++ (if blen traces =? 0 then [] else [$"traces"]).

(** Headers that are not UTF-8 are dropped.
    [src/src/drain/mod.rs: 495-503 export_loop] *)
Definition utf8_headers (l : list (list Z * list Z)) : list (list Z * list Z) :=
  omap (fun kv => k ← from_utf8 kv.1; v ← from_utf8 kv.2; Some (k, v)) l.

Definition non_empty (b : list Z) : option (list Z) :=
  match from_utf8 b with Some s => if blen s =? 0 then None else Some s | None => None end.

(** [src/src/drain/mod.rs: 512-525 export_loop] *)
Definition exporter_tls_config (x : exporter_config) : tls_config :=
  mk_tls (non_empty (xc_trusted_cert x)) (non_empty (xc_ssl_cert x)) (non_empty (xc_ssl_cert_key x)) (ssl_verify_off x).

(** An override is used when it is set and UTF-8.
    [src/src/drain/mod.rs: 617-622 export_loop] *)
Definition override_path (set : list Z -> http_transport -> http_transport) (endpoint : list Z) (t : http_transport) : http_transport :=
  if blen endpoint =? 0 then t else match from_utf8 endpoint with Some s => set (extract_http_path s) t | None => t end.

(** [src/src/drain/mod.rs: 616-635 export_loop] *)
Definition apply_overrides (x : exporter_config) (t : http_transport) : http_transport :=
  override_path set_traces_path (xc_traces_endpoint x)
    (override_path set_logs_path (xc_logs_endpoint x) (override_path set_metrics_path (xc_metrics_endpoint x) t)).

(** What [export_loop] sets up: the transport, the host of the certificate gauge, the signals it warns about. *)
Record started := mk_started { st_transport : export_transport; st_host : list Z; st_warned : list (list Z) }.

(** The transport of the configured protocol; a context that finds no transport is dropped.
    [src/src/drain/mod.rs: 540-589 export_loop] *)
Definition choose_transport (amcf : main_config) (endpoint_str : list Z) (tls : option (ssl_ctx * bool)) : option export_transport :=
  match effective_protocol amcf with
  | OtlpHttp =>
      match http_with_connector endpoint_str (utf8_headers (mc_exporter_headers amcf)) with
      | inl t => Some (XHttp (apply_overrides (mc_exporter amcf) (match tls with Some (ctx, insecure) => http_set_tls ctx insecure t | None => t end)))
      | inr _ => None
      end
  | OtlpGrpc =>
      match grpc_with_connector endpoint_str with
      | inl t => Some (XGrpc (match tls with Some (ctx, insecure) => grpc_set_tls ctx insecure t | None => t end))
      | inr _ => None
      end
  end.

(** The start of the export loop; [None] when it returns at once.
    [src/src/drain/mod.rs: 467-635 export_loop] *)
Definition start_export (A : ctx_answers) (amcf : main_config) (l : ledger) : option started * ledger :=
  let x := mc_exporter amcf in
  match from_utf8 (xc_endpoint x) with
  | None => (None, l)
  | Some endpoint_str =>
      let collector_host := match parse_endpoint endpoint_str with Some ep => host_str ep | None => [] end in
      let '(tls, l) :=
        if starts_with HTTPS_SCHEME endpoint_str then
          match build_ctx A (exporter_tls_config x) l with
          | (inl ctx, l) => (Some (Some (ctx, ssl_verify_off x)), l)
          | (inr _, l) => (None, l)
          end
        else (Some None, l) in
      match tls with
      | None => (None, l)
      | Some tls =>
          match choose_transport amcf endpoint_str tls with
          | None => (None, match tls with Some _ => ctx_free l | None => l end)
          | Some t =>
              let warned := match t with
                            | XGrpc _ => grpc_ignored_endpoint_names (xc_metrics_endpoint x) (xc_logs_endpoint x) (xc_traces_endpoint x)
                            | XHttp _ => []
                            end in
              (Some (mk_started t collector_host warned), l)
          end
      end
  end.
End senders.

(** ** Streams *)

Definition sessions (st : stream) : Z := match st with OverTls _ _ => 1 | Plain _ => 0 end.

Lemma open_stream_ledger e alpn ep tls l n r l' n' : open_stream e alpn ep tls (l, n) = Some (r, (l', n')) ->
  lg_ssls l' = lg_ssls l + match r with inl st => sessions st | inr _ => 0 end.
Proof.
  unfold open_stream. destruct (connect _ _ ep n) as [[[raw|err] n1]|]; [| |discriminate].
  2: { intros [= <- <- <-]. lia. }
  destruct tls as [[ctx ins]|]; [|intros [= <- <- <-]; cbn; lia].
  destruct (wrap_tls_io _ _ _ _ _ _ _ _) as [[[[ssl io]|err] l1] n2] eqn:Ew; apply wrap_tls_io_spec in Ew as [_ Hw];
    intros [= <- <- <-]; cbn; lia.
Qed.

(** An opened stream is the caller's, with TLS and its checks exactly when the transport has a context; an error leaves nothing behind. *)
Lemma open_stream_spec e alpn ep tls l n r l' n' : ngx_fresh n -> open_stream e alpn ep tls (l, n) = Some (r, (l', n')) ->
  match r with
  | inl st => owned n (stream_io st, n') /\
      match tls, st with
      | Some (ctx, insecure), OverTls s _ => sl_ctx s = ctx /\ checks insecure (strip_v6_brackets (host_str ep)) alpn s
      | None, Plain _ => True
      | _, _ => False
      end
  | inr err => err = Connection /\ nx_open n' = nx_open n /\ nx_alerts n' = nx_alerts n
  end.
Proof.
  intros Hf. unfold open_stream. pose proof (connect_clean (oe_waker e) (oe_connect e) ep n Hf) as Hc.
  pose proof (connect_owned (oe_waker e) (oe_connect e) ep n) as Ho.
  destruct (connect _ _ ep n) as [[[raw|err] n1]|]; [| |discriminate].
  2: { intros [= <- <- <-]. exact Hc. }
  specialize (Ho _ _ Hf eq_refl). destruct tls as [[ctx ins]|]; [|intros [= <- <- <-]; auto].
  destruct (wrap_tls_io _ _ _ _ _ _ _ _) as [[[[ssl io]|err] l1] n2] eqn:Ew; apply wrap_tls_io_spec in Ew as [_ Hw]; intros [= <- <- <-].
  - destruct Hw as (-> & -> & _ & Hx & Hch). auto.
  - destruct Hw as (-> & -> & _). split; [reflexivity|]. exact (owned_released n (raw, n1) [] Ho).
Qed.

Lemma release_spec n ops st l n' : owned n (stream_io st, n') ->
  nx_open (snd (release ops st (l, n'))) = nx_open n /\ nx_alerts (snd (release ops st (l, n'))) = nx_alerts n.
Proof. intros Ho. exact (owned_released n _ ops Ho). Qed.

Lemma release_ledger ops st o : lg_ssls (fst (release ops st o)) = lg_ssls (fst o) - sessions st.
Proof. destruct o as [l n], st; cbn; lia. Qed.

(** ** The start *)

Lemma https_iff s ep : parse_endpoint s = Some ep -> is_tls ep = starts_with HTTPS_SCHEME s.
Proof.
  unfold parse_endpoint. destruct (strip_prefix HTTP_SCHEME s) as [r|] eqn:Eh.
  { apply strip_prefix_spec in Eh as ->. destruct (split_path r) as [a p], (parse_authority a 80) as [h q]. intros [= <-]. reflexivity. }
  unfold strip_prefix at 1. destruct (starts_with HTTPS_SCHEME s).
  { destruct (split_path _) as [a p], (parse_authority a 443) as [h q]. intros [= <-]. reflexivity. }
  repeat (match goal with |- context [strip_prefix ?p s] => destruct (strip_prefix p s) end); intros [= <-]; reflexivity.
Qed.

Lemma from_utf8_same b s : from_utf8 b = Some s -> s = b.
Proof. unfold from_utf8. case_if; congruence. Qed.

Definition transport_endpoint (x : export_transport) : parsed_endpoint := match x with XHttp t => ht_endpoint t | XGrpc t => gt_endpoint t end.
Definition transport_tls (x : export_transport) : option (ssl_ctx * bool) := match x with XHttp t => ht_tls t | XGrpc t => gt_tls t end.

Lemma override_path_keeps f p t : (forall q t, ht_endpoint (f q t) = ht_endpoint t /\ ht_tls (f q t) = ht_tls t /\ ht_headers (f q t) = ht_headers t) ->
  ht_endpoint (override_path f p t) = ht_endpoint t /\ ht_tls (override_path f p t) = ht_tls t /\ ht_headers (override_path f p t) = ht_headers t.
Proof. intros H. unfold override_path. case_if; [auto|]. destruct (from_utf8 p); auto. Qed.

Lemma apply_overrides_keeps x t :
  ht_endpoint (apply_overrides x t) = ht_endpoint t /\ ht_tls (apply_overrides x t) = ht_tls t /\ ht_headers (apply_overrides x t) = ht_headers t.
Proof.
  assert (H : forall f, In f [set_metrics_path; set_logs_path; set_traces_path] -> forall q t,
    ht_endpoint (f q t) = ht_endpoint t /\ ht_tls (f q t) = ht_tls t /\ ht_headers (f q t) = ht_headers t).
  { intros f [<-|[<-|[<-|[]]]]; auto. }
  unfold apply_overrides.
  destruct (override_path_keeps set_traces_path (xc_traces_endpoint x)
    (override_path set_logs_path (xc_logs_endpoint x) (override_path set_metrics_path (xc_metrics_endpoint x) t)))
    as (-> & -> & ->); [apply H; cbn; auto|].
  destruct (override_path_keeps set_logs_path (xc_logs_endpoint x) (override_path set_metrics_path (xc_metrics_endpoint x) t))
    as (-> & -> & ->); [apply H; cbn; auto|].
  apply override_path_keeps, H. cbn. auto.
Qed.

Lemma choose_transport_spec hl amcf s tls x : choose_transport hl amcf s tls = Some x ->
  parse_endpoint s = Some (transport_endpoint x) /\ transport_tls x = tls /\
  match x with XHttp t => effective_protocol amcf = OtlpHttp | XGrpc _ => effective_protocol amcf = OtlpGrpc end.
Proof.
  unfold choose_transport. destruct (effective_protocol amcf).
  - unfold http_with_connector. destruct (parse_endpoint s) as [ep|]; [|discriminate].
    destruct (derive_signal_paths (base_path ep)) as [[pm pl] pt]. intros [= <-]. cbn [transport_endpoint transport_tls].
    match goal with |- context [apply_overrides _ ?t] => destruct (apply_overrides_keeps (mc_exporter amcf) t) as (-> & -> & _) end.
    destruct tls as [[ctx ins]|]; auto.
  - unfold grpc_with_connector. destruct (parse_endpoint s) as [ep|]; [|discriminate].
    destruct ep as [h p q|h p q|a b]; [| |discriminate]; case_if; try discriminate; intros [= <-]; destruct tls as [[ctx ins]|]; auto.
Qed.

(** The transport that is built: the configured endpoint, and a context exactly for [https://]. *)
Lemma start_export_spec hl A amcf l r l' : start_export hl A amcf l = (r, l') ->
  lg_ssls l' = lg_ssls l /\
  match r with
  | None => lg_ctxs l' = lg_ctxs l
  | Some st =>
      let x := mc_exporter amcf in
      parse_endpoint (xc_endpoint x) = Some (transport_endpoint (st_transport st)) /\
      choose_transport hl amcf (xc_endpoint x) (transport_tls (st_transport st)) = Some (st_transport st) /\
      match transport_tls (st_transport st) with
      | Some (ctx, insecure) => is_tls (transport_endpoint (st_transport st)) = true /\ ctx_of (exporter_tls_config x) ctx /\
          insecure = ssl_verify_off x /\ lg_ctxs l' = lg_ctxs l + 1
      | None => is_tls (transport_endpoint (st_transport st)) = false /\ lg_ctxs l' = lg_ctxs l
      end
  end.
Proof.
  unfold start_export. destruct (from_utf8 (xc_endpoint (mc_exporter amcf))) as [s|] eqn:Eu; [|intros [= <- <-]; auto].
  apply from_utf8_same in Eu as ->. set (s := xc_endpoint (mc_exporter amcf)).
  destruct (starts_with HTTPS_SCHEME s) eqn:Es.
  - destruct (build_ctx A _ l) as [[ctx|e] l1] eqn:Eb; apply build_ctx_spec in Eb as [Hs Hb].
    2: { intros [= <- <-]. destruct Hb. auto. }
    destruct Hb as [Hctx Hl]. destruct (choose_transport hl amcf s _) as [x|] eqn:Ec; intros [= <- <-]; cbn.
    + pose proof Ec as Ec'. apply choose_transport_spec in Ec as (Hp & Ht & _). rewrite Ht. rewrite (https_iff _ _ Hp). auto 10.
    + split; [exact Hs|lia].
  - destruct (choose_transport hl amcf s _) as [x|] eqn:Ec; intros [= <- <-]; cbn; auto.
    pose proof Ec as Ec'. apply choose_transport_spec in Ec as (Hp & Ht & _). rewrite Ht. rewrite (https_iff _ _ Hp). auto 10.
Qed.

(** Opening a connection, by the transport in use. *)
Definition open_connection (e : open_env) (x : export_transport) (o : outside) : option ((stream + transport_error) * outside) :=
  match x with XHttp t => http_connect_io e t o | XGrpc t => grpc_connect_io e t o end.


(** A collector behind TLS, everything succeeding. *)
Definition sample_exporter : exporter_config :=
  mk_xc $"https://otel.example:4318/in" $"ca.pem" [] [] 1 [] $"http://other:9/logs" [].
Definition sample_main : main_config := set_exporter_headers [($"X-Key", $"abc")] (set_exporter sample_exporter main_default).
Definition sample_ctx : ctx_answers := mk_ca true 1 (fun _ => 1) 1 (fun _ => 1) (fun _ => 1) 1.
Definition sample_ledger : ledger := mk_ledger 0 0 false 0.
Definition sample_open : open_env :=
  mk_oe 1 (mk_cenv (Some 8) true (fun _ _ => mk_attempt true []) true
      (fun name port => if bool_decide (name = $"otel.example") && ((port =? 4317) || (port =? 4318)) then Some [mk_attempt true [mk_cin false 3 (0, 0) NGX_OK]] else None))
    (mk_sa true true true (fun _ => 1) (fun _ => 1) (fun _ => 0)).
Definition sample_http : http_lib := mk_hl (fun k => Some (map to_lower k)) (fun _ => true) (fun _ => true).
Definition sample_exchange : exchange_env :=
  mk_xe true [(DrvPending, RespPending); (DrvDone, RespReady (mk_rs 200 None))] (Some (inl [])) [OpWrite 1 30; OpReadEvent].


(** The configured headers have no effect under gRPC. *)
Lemma grpc_ignores_headers hl amcf headers s tls : effective_protocol amcf = OtlpGrpc ->
  choose_transport hl (set_exporter_headers headers amcf) s tls = choose_transport hl amcf s tls.
Proof.
  intros H. unfold choose_transport. change (effective_protocol (set_exporter_headers headers amcf)) with (effective_protocol amcf).
  rewrite H. reflexivity.
Qed.

(** ** HTTP requests *)

(** The value the configuration gives to a header: the last that hyper accepts. *)
Definition configured (hl : http_lib) (headers : list (list Z * list Z)) (name : list Z) : option (list Z) :=
  list.last (omap (fun kv => if bool_decide (hl_name hl kv.1 = Some name) && hl_value hl kv.2 then Some kv.2 else None) headers).

Lemma insert_headers hl name hs : forall m : gmap (list Z) (list Z),
  foldl (insert_header hl) m hs !! name = match configured hl hs name with Some v => Some v | None => m !! name end.
Proof.
  induction hs as [|kv hs IH] using rev_ind; intros m; [reflexivity|]. rewrite foldl_app. cbn [foldl].
  unfold configured. rewrite omap_app, list.last_app. cbn [omap list_omap].
  unfold insert_header at 1. destruct (hl_name hl kv.1) as [k|]; [|rewrite bool_decide_false by discriminate; apply IH].
  destruct (hl_value hl kv.2); [|rewrite andb_false_r; apply IH]. rewrite andb_true_r.
  destruct (decide (k = name)) as [->|Hk].
  - rewrite bool_decide_true by reflexivity. apply lookup_insert_eq.
  - rewrite bool_decide_false by congruence. rewrite lookup_insert_ne by exact Hk. apply IH.
Qed.

(** The headers the code sets itself. *)
Definition own_header (authority body name : list Z) : option (list Z) :=
  if bool_decide (name = $"connection") then Some $"close"
  else if bool_decide (name = $"content-length") then Some (fmt_dec (blen body))
  else if bool_decide (name = $"content-type") then Some $"application/x-protobuf"
  else if bool_decide (name = $"host") then Some authority else None.

Lemma build_request_spec hl authority path headers body q : build_request hl authority path headers body = inl q ->
  rq_method q = $"POST" /\ rq_path q = path /\ rq_body q = body /\
  forall name, rq_headers q !! name = match configured hl headers name with Some v => Some v | None => own_header authority body name end.
Proof.
  unfold build_request. repeat case_if; try discriminate. intros [= <-]. split_and!; try reflexivity. intros name.
  cbn [rq_headers]. rewrite insert_headers. destruct (configured hl headers name); [reflexivity|]. unfold own_header.
  repeat (case_bool_decide; [subst; apply lookup_insert_eq|rewrite lookup_insert_ne by congruence]). apply lookup_empty.
Qed.

Lemma exchange_body x resp body : exchange x = Some (inl (resp, body)) -> blen body <= MAX_BODY.
Proof.
  unfold exchange. case_if; [discriminate|]. destruct (drive_to_response false (xe_polls x)) as [[r|]|]; try discriminate.
  destruct (xe_body x) as [[b|]|]; try discriminate. intros [= <- <-]. case_if; zify_bool; [|lia].
  unfold blen. rewrite length_take. unfold MAX_BODY. lia.
Qed.

(** The path of a signal: the path of its own endpoint, if one is set, else [v1/] under the endpoint's path. *)
Definition signal_endpoint (signal : otlp_signal) (x : exporter_config) : list Z :=
  match signal with SigMetrics => xc_metrics_endpoint x | SigLogs => xc_logs_endpoint x | SigTraces => xc_traces_endpoint x end.
Definition signal_name (signal : otlp_signal) : list Z :=
  match signal with SigMetrics => $"metrics" | SigLogs => $"logs" | SigTraces => $"traces" end.
Definition with_slash (b : list Z) : list Z := if bool_decide (list.last b = Some 47) then b else b ++ $"/".
Definition signal_path (signal : otlp_signal) (x : exporter_config) (ep : parsed_endpoint) : list Z :=
  match non_empty (signal_endpoint signal x) with
  | Some s => extract_http_path s
  | None => with_slash (base_path ep) ++ $"v1/" ++ signal_name signal
  end.

Lemma override_path_non_empty f p t :
  override_path f p t = match non_empty p with Some s => f (extract_http_path s) t | None => t end.
Proof.
  unfold override_path, non_empty. destruct (from_utf8 p) as [s|] eqn:E; [apply from_utf8_same in E as ->|]; case_if; reflexivity.
Qed.

Lemma choose_http hl amcf s tls t : choose_transport hl amcf s tls = Some (XHttp t) ->
  ht_headers t = utf8_headers (mc_exporter_headers amcf) /\
  forall signal, http_path_of signal t = signal_path signal (mc_exporter amcf) (ht_endpoint t).
Proof.
  unfold choose_transport. destruct (effective_protocol amcf); [|destruct (grpc_with_connector hl s); discriminate].
  unfold http_with_connector, derive_signal_paths. destruct (parse_endpoint s) as [ep|]; [|discriminate].
  fold (with_slash (base_path ep)). intros [= <-].
  match goal with |- context [apply_overrides ?x ?t0] => destruct (apply_overrides_keeps x t0) as (He & _ & Hh) end. rewrite He, Hh.
  split; [destruct tls as [[]|]; reflexivity|]. intros signal. unfold apply_overrides, signal_path. rewrite !override_path_non_empty.
  destruct signal; cbn [signal_endpoint signal_name];
    destruct (non_empty (xc_metrics_endpoint _)), (non_empty (xc_logs_endpoint _)), (non_empty (xc_traces_endpoint _)), tls as [[]|];
    cbn; reflexivity.
Qed.

(** The stream a request went over was dialled at an endpoint, with TLS exactly for [https://]. *)
Definition dialled (e : open_env) (ep : parsed_endpoint) (n : ngx_side) (st : stream) : Prop :=
  (exists n1, connect (oe_waker e) (oe_connect e) ep n = Some (inl (stream_io st), n1)) /\
  match st with Plain _ => is_tls ep = false | OverTls _ _ => is_tls ep = true end.

Lemma open_stream_dialled e alpn ep tls l n r : open_stream e alpn ep tls (l, n) = r ->
  match r with
  | None => connect (oe_waker e) (oe_connect e) ep n = None
  | Some (inl st, _) => (exists n1, connect (oe_waker e) (oe_connect e) ep n = Some (inl (stream_io st), n1)) /\
      match st with Plain _ => tls = None | OverTls _ _ => tls <> None end
  | Some (inr _, _) => True
  end.
Proof.
  intros <-. unfold open_stream. destruct (connect _ _ ep n) as [[[raw|err] n1]|] eqn:Ec; [| |reflexivity]; [|exact I].
  destruct tls as [[ctx ins]|]; [|split; [exists n1; reflexivity|reflexivity]].
  destruct (wrap_tls_io _ _ _ _ _ _ _ _) as [[[[ssl io]|err] l1] n2] eqn:Ew; [|exact I]. apply wrap_tls_io_spec in Ew as [_ (-> & _)].
  split; [exists n1; reflexivity|discriminate].
Qed.



(** ** gRPC clients *)

(** The sessions of one connection of a transport. *)
Definition tls_sessions (tls : option (ssl_ctx * bool)) : Z := match tls with Some _ => 1 | None => 0 end.
(** The sessions of the connections that are driven. *)
Definition driver_sessions (ds : list driver) : Z := zsum (map (fun d => sessions (dr_stream d)) ds).

Lemma client_of_set signal signal' c t : client_of signal' (set_client signal c t) =
  if decide (signal = signal') then c else client_of signal' t.
Proof. destruct signal, signal'; reflexivity. Qed.

Lemma set_client_frame signal c t :
  gt_endpoint (set_client signal c t) = gt_endpoint t /\ gt_tls (set_client signal c t) = gt_tls t /\ gt_origin (set_client signal c t) = gt_origin t.
Proof. destruct signal; auto. Qed.

Lemma set_client_same signal t : set_client signal (client_of signal t) t = t.
Proof. destruct signal, t; reflexivity. Qed.

Lemma set_client_twice signal c c' t : set_client signal c (set_client signal c' t) = set_client signal c t.
Proof. destruct signal; reflexivity. Qed.

(** The books of the transport: sessions against drivers, the numbers of the drivers, and what the clients refer to. *)
Record driven (held : Z) (t : grpc_transport) (tk : tasks) (l : ledger) : Prop := {
  dv_sessions : lg_ssls l = held + driver_sessions (tk_drivers tk);
  dv_tls : Forall (fun d => sessions (dr_stream d) = tls_sessions (gt_tls t)) (tk_drivers tk);
  dv_spawned : Forall (fun d => (dr_id d < tk_next tk)%nat) (tk_drivers tk);
  dv_distinct : NoDup (map dr_id (tk_drivers tk));
  dv_clients : forall signal id, client_of signal t = Some id -> (id < tk_next tk)%nat;
  dv_own : forall s1 s2 id, client_of s1 t = Some id -> client_of s2 t = Some id -> s1 = s2
}.

Lemma open_stream_sessions e alpn ep tls o st o' : open_stream e alpn ep tls o = Some (inl st, o') -> sessions st = tls_sessions tls.
Proof.
  destruct o as [l n]. unfold open_stream. destruct (connect _ _ ep n) as [[[raw|err] n1]|]; [|discriminate|discriminate].
  destruct tls as [[ctx ins]|]; [|intros [= <- _]; reflexivity].
  destruct (wrap_tls_io _ _ _ _ _ _ _ _) as [[[[ssl io]|err] l1] n2]; [|discriminate]. intros [= <- _]. reflexivity.
Qed.

(** What finding or making a client does: with a client, nothing; without, at most one driver is added, on a new connection. *)
Lemma ensure_client_spec e ce signal t tk l n r tk' l' n' : ensure_client e ce signal t tk (l, n) = Some (r, tk', (l', n')) ->
  match r with
  | Some (inl t') => exists id, t' = set_client signal (Some id) t /\
      ((client_of signal t = Some id /\ tk' = tk /\ l' = l) \/
       (client_of signal t = None /\ id = tk_next tk /\ exists io, tk' = mk_tasks (S id) (mk_driver id io :: tk_drivers tk) /\
          grpc_connect_io e t (l, n) = Some (inl io, (l', n'))))
  | _ => client_of signal t = None /\ tk' = tk /\ lg_ssls l' = lg_ssls l
  end.
Proof.
  unfold ensure_client. destruct (client_of signal t) as [c|] eqn:Ec.
  - intros [= <- <- <- <-]. exists c. split; [rewrite <- Ec, set_client_same; reflexivity|auto].
  - destruct (grpc_connect_io _ _ _) as [[[io|err] [l1 n1]]|] eqn:Ec0; [| |discriminate];
      pose proof Ec0 as Eo; unfold grpc_connect_io in Eo; apply open_stream_ledger in Eo; cbn in Eo.
    2: { intros [= <- <- <- <-]. split_and!; auto. lia. }
    assert (Hr : lg_ssls (fst (release [] io (l1, n1))) = lg_ssls l) by (rewrite release_ledger; cbn; lia).
    destruct (cl_handshake ce) as [[]|]; [|destruct (release [] io _); intros [= <- <- <- <-]; auto..].
    intros [= <- <- <- <-]. exists (tk_next tk). split; [reflexivity|]. right. split_and!; auto. exists io. auto.
Qed.

Lemma end_driver_perm id ops ds : forall l n, 
  (exists d, dr_id d = id /\ ds ≡ₚ d :: (end_driver id ops ds (l, n)).1 /\
     lg_ssls (end_driver id ops ds (l, n)).2.1 = lg_ssls l - sessions (dr_stream d)) \/
  ((end_driver id ops ds (l, n)) = (ds, (l, n)) /\ id ∉ map dr_id ds).
Proof.
  induction ds as [|d ds IH]; intros l n; [right; split; [reflexivity|apply not_elem_of_nil]|]. cbn [end_driver].
  destruct (Nat.eqb_spec (dr_id d) id) as [E|E].
  - left. exists d. cbn [fst snd]. rewrite release_ledger. auto.
  - destruct (IH l n) as [(d' & Hd & Hp & Hl)|[He Hn]]; destruct (end_driver id ops ds (l, n)) as [ds' [l' n']]; cbn [fst snd] in *.
    + left. exists d'. split_and!; auto. rewrite Hp at 1. apply Permutation_swap.
    + right. injection He as -> -> ->. split; [reflexivity|]. cbn. rewrite not_elem_of_cons. auto.
Qed.

Lemma driver_sessions_perm ds ds' : ds ≡ₚ ds' -> driver_sessions ds = driver_sessions ds'.
Proof. unfold driver_sessions, zsum. induction 1; cbn in *; lia. Qed.

Lemma end_drivers_driven held t ended : forall tk l n, driven held t tk l ->
  driven held t (end_drivers ended tk (l, n)).1 (end_drivers ended tk (l, n)).2.1.
Proof.
  induction ended as [|[id ops] ended IH]; intros tk l n Hd; [exact Hd|]. cbn [end_drivers].
  pose proof (end_driver_perm id ops (tk_drivers tk) l n) as Hp. destruct (end_driver id ops (tk_drivers tk) (l, n)) as [ds [l1 n1]].
  cbn [fst snd] in Hp. apply IH. destruct Hp as [(d & _ & Hp & Hl)|[[= -> -> ->] _]]; [|destruct Hd; split; assumption].
  destruct Hd as [D1 D2 D3 D4 D5 D6]. rewrite (driver_sessions_perm _ _ Hp) in D1. rewrite Hp in D2, D3, D4. cbn in D1, D4.
  apply Forall_cons_iff in D2 as [_ D2]. apply Forall_cons_iff in D3 as [_ D3]. apply list.NoDup_cons in D4 as [_ D4].
  split; cbn; try assumption. unfold driver_sessions in *. cbn in D1. lia.
Qed.

Section grpc_runs.
Context (decode_status : list Z -> option (list (list Z * list Z))).
Context (decode_retry_info : list Z -> option (option (Z * Z))).
Context (decode_request : otlp_signal -> list Z -> bool).

(** What one send does to clients and drivers. *)
Lemma grpc_send_spec e ce signal bytes t tk l n r t' tk' l' n' used :
  grpc_send decode_status decode_retry_info decode_request e ce signal bytes t tk (l, n) = Some (r, t', tk', (l', n'), used) ->
  (exists c, t' = set_client signal c t) /\
  ((tk' = tk /\ lg_ssls l' = lg_ssls l /\ used = (if decode_request signal bytes then client_of signal t else None)) \/
   (client_of signal t = None /\ used = Some (tk_next tk) /\
    exists io, tk' = mk_tasks (S (tk_next tk)) (mk_driver (tk_next tk) io :: tk_drivers tk) /\
      grpc_connect_io e t (l, n) = Some (inl io, (l', n')))) /\
  (decode_request signal bytes = false -> t' = t) /\
  (decode_request signal bytes = true -> client_of signal t' = match cl_answer ce with RpcOk _ => used | _ => None end).
Proof.
  unfold grpc_send. destruct (decode_request signal bytes); cbn [negb].
  2: { intros [= <- <- <- <- <- <-]. split_and!; auto; [|discriminate]. exists (client_of signal t). symmetry. apply set_client_same. }
  destruct (ensure_client e ce signal t tk (l, n)) as [[[[[t1|err]|] tk1] [l1 n1]]|] eqn:Ee; [| | |discriminate]; apply ensure_client_spec in Ee.
  2, 3: intros [= <- <- <- <- <- <-]; destruct Ee as (Ec & -> & Hl); split_and!;
    [exists (client_of signal t); symmetry; apply set_client_same|rewrite Ec; auto|discriminate|intros _; rewrite Ec; destruct (cl_answer ce); reflexivity].
  destruct Ee as (id & -> & Hc). rewrite client_of_set, decide_True, !set_client_twice by reflexivity.
  assert (Hcase : forall tk' l' n', tk' = tk1 -> l' = l1 -> n' = n1 ->
    (tk' = tk /\ lg_ssls l' = lg_ssls l /\ Some id = client_of signal t) \/
    (client_of signal t = None /\ Some id = Some (tk_next tk) /\
      exists io, tk' = mk_tasks (S (tk_next tk)) (mk_driver (tk_next tk) io :: tk_drivers tk) /\
        grpc_connect_io e t (l, n) = Some (inl io, (l', n')))).
  { intros ? ? ? -> -> ->. destruct Hc as [(? & -> & ->)|(? & -> & io & ? & ?)]; [left; auto|right; eauto 10]. }
  destruct (cl_answer ce); intros [= <- <- <- <- <- <-]; rewrite ?set_client_twice; (split; [eexists; reflexivity|]);
    (split; [apply Hcase; reflexivity|]); (split; [discriminate|]); intros _; rewrite client_of_set, decide_True by reflexivity; reflexivity.
Qed.

Lemma grpc_send_driven held e ce signal bytes t tk l n r t' tk' l' n' used : driven held t tk l ->
  grpc_send decode_status decode_retry_info decode_request e ce signal bytes t tk (l, n) = Some (r, t', tk', (l', n'), used) ->
  driven held t' tk' l' /\ gt_endpoint t' = gt_endpoint t /\ gt_tls t' = gt_tls t.
Proof.
  intros [D1 D2 D3 D4 D5 D6] Hs. apply grpc_send_spec in Hs as ([c ->] & Hc & Hf & Hu).
  pose proof (set_client_frame signal c t) as (F1 & F2 & _). split; [|auto].
  assert (Hcl : c = None \/ c = used \/ set_client signal c t = t).
  { destruct (decode_request signal bytes); [|auto]. specialize (Hu eq_refl). rewrite client_of_set, decide_True in Hu by reflexivity.
    destruct (cl_answer ce); auto. }
  assert (Hsame : set_client signal c t = t -> c = client_of signal t)
    by (intros E; rewrite <- E, client_of_set, decide_True; reflexivity).
  destruct Hc as [(-> & Hl & Eu)|(Ec & -> & io & -> & Hopen)].
  - assert (Hin : c = None \/ c = client_of signal t)
      by (destruct Hcl as [|[->|]]; auto; destruct (decode_request signal bytes); rewrite Eu; auto).
    assert (Hcl' : forall s id, client_of s (set_client signal c t) = Some id -> client_of s t = Some id).
    { intros s id. rewrite client_of_set. case_decide; [subst s|auto]. destruct Hin as [-> | ->]; [discriminate|auto]. }
    split; rewrite ?F2; auto; [lia|eauto|eauto].
  - assert (Hcl' : forall s id, client_of s (set_client signal c t) = Some id -> client_of s t = Some id \/ (s = signal /\ id = tk_next tk)).
    { intros s id. rewrite client_of_set. case_decide; [subst s|auto]. destruct Hcl as [->|[->|E]]; [discriminate|intros [= <-]; auto|].
      rewrite (Hsame E), Ec. discriminate. }
    pose proof (open_stream_sessions _ _ _ _ _ _ _ Hopen) as Hio. apply open_stream_ledger in Hopen. cbn in Hopen.
    split; rewrite ?F2; cbn [tk_drivers tk_next].
    + unfold driver_sessions, zsum in *. cbn in *. lia.
    + constructor; auto.
    + constructor; [cbn; lia|]. eapply Forall_impl; [|exact D3]. intros d Hd. cbv beta in *. lia.
    + cbn. constructor; [|exact D4]. intros Hin. apply list_elem_of_fmap in Hin as (d & E & Hd).
      rewrite list.Forall_forall in D3. specialize (D3 _ Hd). cbv beta in D3. lia.
    + intros s id Hs. apply Hcl' in Hs as [Hs|[_ ->]]; [apply D5 in Hs; lia|lia].
    + intros s1 s2 id H1 H2. apply Hcl' in H1, H2.
      destruct H1 as [H1|[-> ->]], H2 as [H2|[-> E]]; eauto; [apply D5 in H1; lia|apply D5 in H2; lia].
Qed.

(** A history of the transport: sends, and drivers that end between them; [None] when a send waits for ever in its connect. *)
Inductive grpc_event := GSend (e : open_env) (ce : call_env) (signal : otlp_signal) (bytes : list Z) | GEnded (id : nat) (ops : list conn_op).
Fixpoint grpc_run (evs : list grpc_event) (t : grpc_transport) (tk : tasks) (o : outside) : option (grpc_transport * tasks * outside) :=
  match evs with
  | [] => Some (t, tk, o)
  | GSend e ce signal bytes :: evs =>
      match grpc_send decode_status decode_retry_info decode_request e ce signal bytes t tk o with
      | Some (_, t, tk, o, _) => grpc_run evs t tk o
      | None => None
      end
  | GEnded id ops :: evs => let '(tk, o) := end_drivers [(id, ops)] tk o in grpc_run evs t tk o
  end.

Lemma grpc_run_spec held evs : forall t tk l n t' tk' l' n', driven held t tk l -> grpc_run evs t tk (l, n) = Some (t', tk', (l', n')) ->
  driven held t' tk' l' /\ gt_endpoint t' = gt_endpoint t /\ gt_tls t' = gt_tls t.
Proof.
  induction evs as [|[e ce signal bytes|id ops] evs IH]; intros t tk l n t' tk' l' n' Hd; cbn [grpc_run].
  - intros [= <- <- <- <-]. auto.
  - destruct (grpc_send _ _ _ e ce signal bytes t tk (l, n)) as [[[[[r t1] tk1] [l1 n1]] used]|] eqn:Es; [|discriminate].
    apply (grpc_send_driven held) in Es as (H1 & H2 & H3); [|exact Hd]. intros Hr. destruct (IH _ _ _ _ _ _ _ _ H1 Hr) as (G1 & G2 & G3).
    split_and!; [exact G1|congruence|congruence].
  - pose proof (end_drivers_driven held t [(id, ops)] tk l n Hd) as Hd'. destruct (end_drivers _ tk (l, n)) as [tk1 [l1 n1]].
    intros Hr. exact (IH _ _ _ _ _ _ _ _ Hd' Hr).
Qed.
End grpc_runs.

Lemma fresh_driven t l : (forall signal, client_of signal t = None) -> driven (lg_ssls l) t no_tasks l.
Proof. intros Hc. split; try constructor; [cbn; lia|intros signal id; rewrite Hc; discriminate|intros s1 s2 id; rewrite Hc; discriminate]. Qed.

Lemma grpc_fresh hl endpoint_str t0 tls : grpc_with_connector hl endpoint_str = inl t0 ->
  let t1 := match tls with Some (ctx, insecure) => grpc_set_tls ctx insecure t0 | None => t0 end in
  parse_endpoint endpoint_str = Some (gt_endpoint t1) /\ gt_tls t1 = tls /\ forall signal, client_of signal t1 = None.
Proof.
  intros Ht0 t1. unfold grpc_with_connector in Ht0. destruct (parse_endpoint endpoint_str) as [ep|]; [|discriminate].
  unfold t1. destruct ep as [h p q|h p q|a b]; [| |discriminate]; destruct (hl_uri hl _); try discriminate; injection Ht0 as <-;
    destruct tls as [[ctx ins]|]; (split_and!; [reflexivity..|]); intros []; reflexivity.
Qed.

Lemma driven_count held t tk l : driven held t tk l -> lg_ssls l = held + tls_sessions (gt_tls t) * Z.of_nat (length (tk_drivers tk)).
Proof.
  intros [-> D _ _ _ _]. unfold driver_sessions, zsum. induction D as [|d ds Hd _ IH]; cbn in *; [lia|]. rewrite Hd. lia.
Qed.

(** Whether a client of the transport uses the connection of a driver; a driver without one is on its way out. *)
Definition in_use (t : grpc_transport) (d : driver) : Prop := exists signal, client_of signal t = Some (dr_id d).
#[export] Instance in_use_dec t d : Decision (in_use t d).
Proof.
  refine (cast_if (decide (gt_client t = Some (dr_id d) \/ gt_logs_client t = Some (dr_id d) \/ gt_traces_client t = Some (dr_id d)))).
  - destruct o as [E|[E|E]]; [exists SigMetrics|exists SigLogs|exists SigTraces]; exact E.
  - intros [[] E]; apply n; auto.
Defined.

(** At most three drivers are in use. *)
Lemma in_use_bound held t tk l : driven held t tk l -> (length (filter (in_use t) (tk_drivers tk)) <= 3)%nat.
Proof.
  intros [_ _ _ D _ _].
  assert (Hn : NoDup (map dr_id (filter (in_use t) (tk_drivers tk)))).
  { eapply sublist_NoDup; [exact D|]. apply (fmap_sublist dr_id), sublist_filter. }
  rewrite <- (length_map dr_id). transitivity (length (omap (fun signal => client_of signal t) [SigMetrics; SigLogs; SigTraces])).
  2: { cbn. destruct (gt_client t), (gt_logs_client t), (gt_traces_client t); cbn; lia. }
  apply submseteq_length, NoDup_submseteq; [exact Hn|]. intros id Hin. apply list_elem_of_fmap in Hin as (d & -> & Hd).
  apply list_elem_of_filter in Hd as [[signal E] _]. apply list_elem_of_omap. exists signal. split; [|exact E].
  destruct signal; set_solver.
Qed.


