(* ===== verification/Smoke.v ===== *)
(** * The gRPC harness (src/src/transport/grpc/smoke.rs and the end of [ngx_otel_init_process] in src/src/lib.rs)

    Builds for tests let one worker try the gRPC pipeline: one unary export, one bidirectional stream with a fixed exchange, and an overload that
    counts in an exported counter how often the peer was too slow.  The peer, hyper and tonic are parameters: what they answer
    is part of the environment of each call, and an answer that never comes is [None].  Lines at debug level are left out. *)
From stdpp Require Import gmap.
From S2P Require Import Prelude DataModel StdText Endpoint Outcome Encoder Conn Tls Transport.

(** ** Errors *)

(** [src/src/transport/grpc/smoke.rs: 131-146 SmokeError] *)
Inductive smoke_error :=
  | SInvalidEndpoint (s : list Z)
  | SConnect (s : list Z)
  | SHandshake (s : list Z)
  | SInvalidOrigin (s : list Z)
  | SGrpcReady (s : list Z)
  | SGrpcCall (s : list Z)
  | SBidiCall (s : list Z)
  | SBidiSendMismatch (sent received : Z).

(** [src/src/transport/grpc/smoke.rs: 148-163 SmokeError::fmt] *)
Definition smoke_display (e : smoke_error) : list Z :=
  match e with
  | SInvalidEndpoint s => $"invalid endpoint: " ++ s
  | SConnect s => $"connect: " ++ s
  | SHandshake s => $"h2 handshake: " ++ s
  | SInvalidOrigin s => $"invalid origin uri: " ++ s
  | SGrpcReady s => $"grpc ready: " ++ s
  | SGrpcCall s => $"grpc unary call: " ++ s
  | SBidiCall s => $"bidi call: " ++ s
  | SBidiSendMismatch sent received => $"bidi send/receive mismatch: sent=" ++ fmt_dec sent ++ $" received=" ++ fmt_dec received
  end.

(** ** The request *)

(** [src/src/transport/grpc/smoke.rs: build_export_request] *)
Definition build_export_request : pb_request pb_metric :=
  [mk_resourced
     (Some (mk_presource [PbKV $"service.name" (Some (PbAny (Some (PbString $"ngx-otel-grpc-smoke"))))] 0))
     [mk_scoped (Some (mk_pscope $"grpc-smoke-in-worker" $"0.1" [] 0))
        [mk_pmetric $"smoke.counter" [] $"1" (Some (PbGauge [mk_pndp [] 0 1000000000 [] 0 (Some (AsDouble (F64 1 1)))])) []] []] []].

Section harness.
Context (hl : http_lib).
(** The texts of the library's errors. *)
Context (debug_error : transport_error -> list Z) (uri_error : list Z -> list Z).

(** ** The connection *)

(** The harness has no resolver.
    [src/src/transport/hyper_http.rs: 1381-1385 NgxConnector::new] *)
Definition without_resolver (e : open_env) : open_env :=
  let c := oe_connect e in
  mk_oe (oe_waker e) (mk_cenv None (ce_pool_ok c) (ce_direct c) (ce_resolve_pool_ok c) (ce_addrs c)) (oe_ssl e).

(** The origin of an endpoint; [use] says what for.
    [src/src/transport/grpc/smoke.rs: 182-206 fire_one_grpc_export] *)
Definition smoke_origin (use : list Z) (endpoint_str : list Z) : parsed_endpoint * list Z + smoke_error :=
  match parse_endpoint endpoint_str with
  | None => inr (SInvalidEndpoint (debug_error InvalidEndpoint))
  | Some endpoint =>
      match endpoint with
      | EHttp host port _ =>
          let origin_str := $"http://" ++ host ++ $":" ++ fmt_dec port in
          if hl_uri hl origin_str then inl (endpoint, origin_str) else inr (SInvalidOrigin (uri_error origin_str))
      | EHttps _ _ _ => inr (SInvalidEndpoint ($"https:// endpoints unsupported for " ++ use ++ $" (use http://host:port)"))
      | EUnix _ _ => inr (SInvalidEndpoint ($"unix sockets unsupported for " ++ use ++ $" (use http://host:port)"))
      end
  end.

(** What a run of the harness meets: the connection, and the text of a failed handshake. *)
Record smoke_env := mk_sme { sk_open : open_env; sk_handshake : option (list Z) }.

(** As in [GrpcTransport], a detached driver gets the connection.
    [src/src/transport/grpc/smoke.rs: 182-251 fire_one_grpc_export] *)
Definition smoke_connect (use : list Z) (endpoint_str : list Z) (e : smoke_env) (tk : tasks) (o : outside) : option ((unit + smoke_error) * tasks * outside) :=
  match smoke_origin use endpoint_str with
  | inr err => Some (inr err, tk, o)
  | inl (endpoint, origin) =>
      match open_stream (without_resolver (sk_open e)) None endpoint None o with
      | None => None
      | Some (inr err, o) => Some (inr (SConnect (debug_error err)), tk, o)
      | Some (inl io, o) =>
          match sk_handshake e with
          | Some text => Some (inr (SHandshake text), tk, release [] io o)
          | None => Some (inl tt, snd (spawn_driver io tk), o)
          end
      end
  end.

(** A call: it succeeds, fails with a status, or is not answered. *)
Inductive call_answer := CallOk | CallErr (status : list Z) | CallWaiting.

(** The client is dropped when the function returns; the driver ends the connection.
    [src/src/transport/grpc/smoke.rs: 178-263 fire_one_grpc_export] *)
Definition fire_one_grpc_export (endpoint_str : list Z) (e : smoke_env) (answer : call_answer) (tk : tasks) (o : outside)
    : option ((unit + smoke_error) * tasks * outside) :=
  match smoke_connect $"gRPC smoke" endpoint_str e tk o with
  | None => None
  | Some (inr err, tk, o) => Some (inr err, tk, o)
  | Some (inl _, tk, o) =>
      match answer with
      | CallWaiting => None
      | CallErr status => Some (inr (SGrpcCall status), tk, o)
      | CallOk => Some (inl tt, tk, o)
      end
  end.

(** ** One bidirectional stream *)

(** What the channel to the request body answers a send, and the messages of the response. *)
Inductive send_answer := SendTaken | SendClosed (text : list Z) | SendRejected (text : list Z).
Inductive inbound := Pong | StreamEnd | StreamError (status : list Z).
Record bidi := mk_bidi { bd_sends : list send_answer; bd_inbound : list inbound; bd_pings : list Z }.

(** Steps of the exchange: they wait, fail or go on. *)
Definition step (A : Type) : Type := bidi -> option ((A + smoke_error) * bidi).
Definition sret {A} (a : A) : step A := fun b => Some (inl a, b).
Definition sfail {A} (e : smoke_error) : step A := fun b => Some (inr e, b).
Definition sbind {A B} (m : step A) (k : A -> step B) : step B :=
  fun b => match m b with
           | None => None
           | Some (inr e, b) => Some (inr e, b)
           | Some (inl a, b) => k a b
           end.
#[local] Notation "'let!' x := m 'in' k" := (sbind m (fun x => k)) (at level 10, x name, k at level 200).

(** [src/src/transport/grpc/smoke.rs: mpsc_send_one] *)
Definition mpsc_send_one (seq : Z) : step unit := fun b =>
  match bd_sends b with
  | [] => None
  | SendClosed t :: l => Some (inr (SBidiCall ($"send channel closed: " ++ t)), mk_bidi l (bd_inbound b) (bd_pings b))
  | SendRejected t :: l => Some (inr (SBidiCall ($"start_send: " ++ t)), mk_bidi l (bd_inbound b) (bd_pings b))
  | SendTaken :: l => Some (inl tt, mk_bidi l (bd_inbound b) (bd_pings b ++ [seq]))
  end.

(** [src/src/transport/grpc/smoke.rs: 390-396 fire_one_bidi_stream] *)
Definition message (phase : list Z) : step (option unit) := fun b =>
  match bd_inbound b with
  | [] => None
  | Pong :: l => Some (inl (Some tt), mk_bidi (bd_sends b) l (bd_pings b))
  | StreamEnd :: l => Some (inl None, mk_bidi (bd_sends b) (StreamEnd :: l) (bd_pings b))
  | StreamError s :: l => Some (inr (SBidiCall (phase ++ $": " ++ s)), mk_bidi (bd_sends b) l (bd_pings b))
  end.

(** [for seq in from..from + n]: the new [sent].
    [src/src/transport/grpc/smoke.rs: 383-386 fire_one_bidi_stream] *)
Fixpoint send_pings (n : nat) (seq sent : Z) : step Z :=
  match n with
  | O => sret sent
  | S n => let! _ := mpsc_send_one seq in send_pings n (seq + 1) (sent + 1)
  end.

(** [while received < target]: the new [received]; the fuel is at least the distance.
    [src/src/transport/grpc/smoke.rs: 389-398 fire_one_bidi_stream] *)
Fixpoint drain_pongs (fuel : nat) (phase : list Z) (target received : Z) : step Z :=
  match fuel with
  | O => sret received
  | S fuel =>
      if received <? target then
        let! m := message phase in
        match m with
        | Some _ => drain_pongs fuel phase target (received + 1)
        | None => sfail (SBidiCall (phase ++ $": stream ended early"))
        end
      else sret received
  end.

(** The three phases and the verdict.
    [src/src/transport/grpc/smoke.rs: 380-443 fire_one_bidi_stream] *)
Definition bidi_exchange : step unit :=
  let! sent := send_pings 3 0 0 in
  let! received := drain_pongs 4 $"Phase A drain" 3 0 in
  let! sent := send_pings 7 3 sent in
  let! received := drain_pongs 8 $"Phase B drain" 10 received in
  let! final_msg := message $"Phase C close" in
  match final_msg with
  | Some _ => sfail (SBidiCall $"Phase C: expected stream end after tx drop, got another pong")
  | None => if negb (sent =? 10) || negb (received =? 10) then sfail (SBidiSendMismatch sent received) else sret tt
  end.

(** [src/src/transport/grpc/smoke.rs: 296-443 fire_one_bidi_stream] *)
Definition fire_one_bidi_stream (endpoint_str : list Z) (e : smoke_env) (answer : call_answer) (b : bidi) (tk : tasks) (o : outside)
    : option ((unit + smoke_error) * bidi * tasks * outside) :=
  match smoke_connect $"bidi smoke" endpoint_str e tk o with
  | None => None
  | Some (inr err, tk, o) => Some (inr err, b, tk, o)
  | Some (inl _, tk, o) =>
      match answer with
      | CallWaiting => None
      | CallErr status => Some (inr (SBidiCall status), b, tk, o)
      | CallOk => (fun '(r, b) => (r, b, tk, o)) <$> bidi_exchange b
      end
  end.

(** ** The overload *)

(** The drain task on the messages that came: the pongs counted, and whether it has ended.
    [src/src/transport/grpc/smoke.rs: 587-606 fire_bidi_overload] *)
Fixpoint drain_task (msgs : list inbound) (received : Z) : Z * bool :=
  match msgs with
  | [] => (received, false)
  | Pong :: msgs => drain_task msgs (received +w64 1)
  | _ :: _ => (received, true)
  end.

(** What the loop sees: the nanoseconds since its start at each look at the clock; at each point where the task gave up control, the messages that came until then
    and whether the channel is open; and the environment variables. *)
Record load_env := mk_load { ld_elapsed : nat -> Z; ld_messages : nat -> list inbound; ld_ready : nat -> bool; ld_var : list Z -> option (list Z) }.
Definition received_ctr (e : load_env) (k : nat) : Z := fst (drain_task (ld_messages e k) 0).
Definition drain_done (e : load_env) (k : nat) : bool := snd (drain_task (ld_messages e k) 0).

(** Its variables, with the number of looks at the clock and of waits so far; [ls_total] is the exported counter [BIDI_BACKPRESSURE_DROPS], and [ls_pings] what was sent. *)
Record load_state := mk_lds { ls_looks : nat; ls_waits : nat; ls_seq : Z; ls_sent : Z; ls_dropped : Z; ls_total : Z; ls_pings : list Z }.

(** [src/src/transport/grpc/smoke.rs: 493-501 fire_bidi_overload] *)
Definition env_or (e : load_env) (name : list Z) (default_value : Z) : Z := default default_value (s ← ld_var e name; parse_u64 s).

(** [src/src/transport/grpc/smoke.rs: 505-507 fire_bidi_overload] *)
Definition inter_send_of (msg_per_sec : Z) : Z := if msg_per_sec =? 0 then 0 else 1000000 / msg_per_sec.

(** [src/src/transport/grpc/smoke.rs: 509-509 WINDOW] *)
Definition WINDOW : Z := 16.

Definition look (s : load_state) : load_state := mk_lds (S (ls_looks s)) (ls_waits s) (ls_seq s) (ls_sent s) (ls_dropped s) (ls_total s) (ls_pings s).
Definition wait (s : load_state) : load_state := mk_lds (ls_looks s) (S (ls_waits s)) (ls_seq s) (ls_sent s) (ls_dropped s) (ls_total s) (ls_pings s).

(** [src/src/transport/grpc/smoke.rs: 633-638 fire_bidi_overload] *)
Definition count_drop (s : load_state) : load_state :=
  mk_lds (ls_looks s) (ls_waits s) (ls_seq s) (ls_sent s) (ls_dropped s + 1) (ls_total s +w64 1) (ls_pings s).

(** The inner loop.
    [src/src/transport/grpc/smoke.rs: 615-640 fire_bidi_overload] *)
Fixpoint await_window (fuel : nat) (e : load_env) (duration : Z) (s : load_state) : option load_state :=
  match fuel with
  | O => None
  | S fuel =>
      let recv := received_ctr e (ls_waits s) in
      let in_flight := sat_sub (ls_sent s) recv in
      if in_flight <? WINDOW then Some s else
      let recv_before := recv in
      let s := wait s in
      let now := ld_elapsed e (ls_looks s) in
      let s := look s in
      if duration <=? now then Some s else
      let recv_after := received_ctr e (ls_waits s) in
      await_window fuel e duration (if recv_after =? recv_before then count_drop s else s)
  end.

(** [src/src/transport/grpc/smoke.rs: 654-657 fire_bidi_overload] *)
Definition send_ping (s : load_state) : load_state :=
  mk_lds (ls_looks s) (ls_waits s) (ls_seq s + 1) (ls_sent s + 1) (ls_dropped s) (ls_total s) (ls_pings s ++ [ls_seq s]).

(** The outer loop.
    [src/src/transport/grpc/smoke.rs: 614-663 fire_bidi_overload] *)
Fixpoint overload_loop (fuel : nat) (e : load_env) (duration inter_send_us : Z) (s : load_state) : option load_state :=
  match fuel with
  | O => None
  | S fuel' =>
      let now := ld_elapsed e (ls_looks s) in
      let s := look s in
      if negb (now <? duration) then Some s else
      match await_window fuel e duration s with
      | None => None
      | Some s =>
          let now := ld_elapsed e (ls_looks s) in
          let s := look s in
          if duration <=? now then Some s else
          let ready := ld_ready e (ls_waits s) in
          let s := wait s in
          if negb ready then Some s else
          let s := send_ping s in
          overload_loop fuel' e duration inter_send_us (if 0 <? inter_send_us then wait s else s)
      end
  end.

(** The wait for the drain task, for at most 5 s.
    [src/src/transport/grpc/smoke.rs: 668-675 fire_bidi_overload] *)
Fixpoint await_drain (fuel : nat) (e : load_env) (drain_deadline : Z) (s : load_state) : option load_state :=
  match fuel with
  | O => None
  | S fuel =>
      if drain_done e (ls_waits s) then Some s else
      let now := ld_elapsed e (ls_looks s) in
      let s := look s in
      if drain_deadline <=? now then Some s else await_drain fuel e drain_deadline (wait s)
  end.

(** [src/src/transport/grpc/smoke.rs: 677-688 fire_bidi_overload] *)
Definition overload_line (e : load_env) (s : load_state) : list Z :=
  let received := received_ctr e (ls_waits s) in
  let elapsed_s := ld_elapsed e (ls_looks s) / 1000000000 in
  $"bidi overload: sent=" ++ fmt_dec (ls_sent s) ++ $" received=" ++ fmt_dec received ++ $" dropped=" ++ fmt_dec (ls_dropped s) ++ $" duration_s=" ++ fmt_dec elapsed_s.

(** From the open stream to the line that is logged.
    [src/src/transport/grpc/smoke.rs: 608-690 fire_bidi_overload] *)
Definition overload (fuel : nat) (ld : load_env) (total : Z) : option (load_state * list Z) :=
  let duration := env_or ld $"BIDI_OVERLOAD_DURATION_S" 60 * 1000000000 in
  let inter_send_us := inter_send_of (env_or ld $"BIDI_OVERLOAD_MESSAGES_PER_SEC" 1000) in
  s ← overload_loop fuel ld duration inter_send_us (mk_lds 0 0 0 0 0 total []);
  let drain_deadline := ld_elapsed ld (ls_looks s) + 5000000000 in
  s ← await_drain fuel ld drain_deadline (look s);
  Some (s, overload_line ld s).

(** [src/src/transport/grpc/smoke.rs: 482-582 fire_bidi_overload] *)
Definition fire_bidi_overload (fuel : nat) (endpoint_str : list Z) (e : smoke_env) (answer : call_answer) (ld : load_env) (total : Z) (tk : tasks) (o : outside)
    : option ((load_state * list Z + smoke_error) * tasks * outside) :=
  match smoke_connect $"bidi overload" endpoint_str e tk o with
  | None => None
  | Some (inr err, tk, o) => Some (inr err, tk, o)
  | Some (inl _, tk, o) =>
      match answer with
      | CallWaiting => None
      | CallErr status => Some (inr (SBidiCall status), tk, o)
      | CallOk => (fun r => (inl r, tk, o)) <$> overload fuel ld total
      end
  end.
End harness.

(** ** The harness in a worker *)

(** [src/src/lib.rs: 1008-1021 GrpcSmokeSpec] *)
Record smoke_spec := mk_spec { sp_endpoint_bytes : list Z; sp_not_utf8_msg : list Z; sp_firing_prefix : list Z; sp_alloc_fail_msg : list Z }.

(** The lines logged, with their levels, and the endpoint of the task that was started.
    [src/src/lib.rs: run_grpc_smoke_harness] *)
Definition run_grpc_smoke_harness (spec : smoke_spec) (alloc_ok : bool) : list (Z * list Z) * option (list Z) :=
  if blen (sp_endpoint_bytes spec) =? 0 then ([], None) else
  match from_utf8 (sp_endpoint_bytes spec) with
  | None => ([(4, sp_not_utf8_msg spec)], None)
  | Some endpoint_owned =>
      let firing := sp_firing_prefix spec ++ $" (endpoint=" ++ endpoint_owned ++ $")" in
      ((6, firing) :: if alloc_ok then [] else [(4, sp_alloc_fail_msg spec)], if alloc_ok then Some endpoint_owned else None)
  end.

(** [src/src/lib.rs: 906-933 ngx_otel_init_process] *)
Definition unary_spec (endpoint : list Z) : smoke_spec :=
  mk_spec endpoint $"grpc smoke: otel_grpc_smoke_endpoint is not valid UTF-8; skipping" $"grpc smoke: firing one unary OTLP/gRPC export"
    $"grpc smoke: pool allocation for smoke task failed".
(** [src/src/lib.rs: 936-966 ngx_otel_init_process] *)
Definition bidi_spec (endpoint : list Z) : smoke_spec :=
  mk_spec endpoint $"bidi smoke: otel_grpc_bidi_smoke_endpoint is not valid UTF-8; skipping" $"bidi smoke: firing one bidi stream"
    $"bidi smoke: pool allocation for bidi task failed".
(** [src/src/lib.rs: 969-1000 ngx_otel_init_process] *)
Definition overload_spec (endpoint : list Z) : smoke_spec :=
  mk_spec endpoint $"bidi overload: otel_grpc_bidi_overload_endpoint is not valid UTF-8; skipping" $"bidi overload: queueing overload task"
    $"bidi overload: pool allocation for overload task failed".

(** What a finished task logs.
    [src/src/lib.rs: 917-931 ngx_otel_init_process] *)
Definition unary_report (r : unit + smoke_error) : list (Z * list Z) :=
  match r with inl _ => [(6, $"grpc smoke: export complete")] | inr e => [(4, $"grpc smoke: export failed: " ++ smoke_display e)] end.
(** [src/src/lib.rs: 947-964 ngx_otel_init_process] *)
Definition bidi_report (r : unit + smoke_error) : list (Z * list Z) :=
  match r with inl _ => [(6, $"bidi smoke: bidi complete (sent=10, received=10)")] | inr e => [(4, $"bidi smoke: bidi failed: " ++ smoke_display e)] end.
(** [src/src/lib.rs: 980-998 ngx_otel_init_process] *)
Definition overload_report (r : load_state * list Z + smoke_error) : list (Z * list Z) :=
  match r with inl (_, line) => [(6, line)] | inr e => [(4, $"bidi overload: failed: " ++ smoke_display e)] end.

Definition NGX_PROCESS_SINGLE : Z := 0.
Definition NGX_PROCESS_WORKER : Z := 3.

(** The three harnesses on the designated worker; [allocs] says whether each task could be kept.
    [src/src/lib.rs: 875-1003 ngx_otel_init_process] *)
Definition init_smoke (process_type worker_num : Z) (endpoints : option (list Z * list Z * list Z)) (log : bool) (allocs : bool * bool * bool)
    : list (Z * list Z) * list (option (list Z)) :=
  let is_designated := ((process_type =? NGX_PROCESS_WORKER) && (worker_num =? 0)) || (process_type =? NGX_PROCESS_SINGLE) in
  match endpoints with
  | Some (unary, bidi, load) =>
      if negb is_designated then ([], []) else
      if negb log then ([(4, $"otel grpc smoke harness: null log pointer; skipping")], []) else
      let '(a1, a2, a3) := allocs in
      let '(l1, t1) := run_grpc_smoke_harness (unary_spec unary) a1 in
      let '(l2, t2) := run_grpc_smoke_harness (bidi_spec bidi) a2 in
      let '(l3, t3) := run_grpc_smoke_harness (overload_spec load) a3 in
      (l1 ++ l2 ++ l3, [t1; t2; t3])
  | None => ([], [])
  end.

(** ** The connection is given back *)

Section harness_proofs.
Context (hl : http_lib) (debug_error : transport_error -> list Z) (uri_error : list Z -> list Z).

Definition given_back (n n' : ngx_side) : Prop := nx_open n' = nx_open n /\ nx_alerts n' = nx_alerts n.

(** What a run leaves: nginx's connections as they were, or one more, which the driver it spawned closes when it ends. *)
Definition left_to_driver (tk : tasks) (n : ngx_side) (tk' : tasks) (l' : ledger) (n' : ngx_side) : Prop :=
  (tk' = tk /\ given_back n n') \/
  exists io, tk' = snd (spawn_driver io tk) /\ forall ops, given_back n (snd (release ops io (l', n'))).

Lemma smoke_connect_spec use s e tk l n r tk' l' n' : ngx_fresh n -> smoke_connect hl debug_error uri_error use s e tk (l, n) = Some (r, tk', (l', n')) ->
  left_to_driver tk n tk' l' n' /\ (r <> inl tt -> tk' = tk).
Proof.
  intros Hf. unfold smoke_connect. destruct (smoke_origin _ _ _ use s) as [[ep origin]|err].
  2: { intros [= <- <- _ <-]. split; [|reflexivity]. left. split; [reflexivity|split; reflexivity]. }
  destruct (open_stream _ None ep None (l, n)) as [[[io|err] [l1 n1]]|] eqn:Eo; [| |discriminate]; apply (open_stream_spec _ _ _ _ _ _ _ _ _ Hf) in Eo.
  - destruct Eo as [Ho _]. destruct (sk_handshake e).
    + intros [= <- <- <- <-]. split; [|reflexivity]. left. split; [reflexivity|exact (release_spec n [] io l1 n1 Ho)].
    + intros [= <- <- <- <-]. split; [|congruence]. right. exists io. split; [reflexivity|]. intros ops. exact (release_spec n ops io l1 n1 Ho).
  - intros [= <- <- _ <-]. split; [|reflexivity]. left. split; [reflexivity|split; apply Eo].
Qed.

Lemma unary_gives_back s e answer tk l n r tk' l' n' : ngx_fresh n ->
  fire_one_grpc_export hl debug_error uri_error s e answer tk (l, n) = Some (r, tk', (l', n')) -> left_to_driver tk n tk' l' n'.
Proof.
  intros Hf. unfold fire_one_grpc_export. destruct (smoke_connect _ _ _ _ _ _ _ _) as [[[[u|err] tk1] [l1 n1]]|] eqn:Ec; [| |discriminate];
    apply smoke_connect_spec in Ec as [Hc _]; try exact Hf; [destruct answer; [| |discriminate]|]; intros [= _ <- <- <-]; exact Hc.
Qed.
Lemma bidi_gives_back s e answer b tk l n r b' tk' l' n' : ngx_fresh n ->
  fire_one_bidi_stream hl debug_error uri_error s e answer b tk (l, n) = Some (r, b', tk', (l', n')) -> left_to_driver tk n tk' l' n'.
Proof.
  intros Hf. unfold fire_one_bidi_stream. destruct (smoke_connect _ _ _ _ _ _ _ _) as [[[[u|err] tk1] [l1 n1]]|] eqn:Ec; [| |discriminate];
    apply smoke_connect_spec in Ec as [Hc _]; try exact Hf; [|intros [= _ _ <- <- <-]; exact Hc].
  destruct answer; [|intros [= _ _ <- <- <-]; exact Hc|discriminate].
  destruct (bidi_exchange b) as [[r0 b0]|]; [|discriminate]. intros [= _ _ <- <- <-]. exact Hc.
Qed.
Lemma overload_gives_back fuel s e answer ld total tk l n r tk' l' n' : ngx_fresh n ->
  fire_bidi_overload hl debug_error uri_error fuel s e answer ld total tk (l, n) = Some (r, tk', (l', n')) -> left_to_driver tk n tk' l' n'.
Proof.
  intros Hf. unfold fire_bidi_overload. destruct (smoke_connect _ _ _ _ _ _ _ _) as [[[[u|err] tk1] [l1 n1]]|] eqn:Ec; [| |discriminate];
    apply smoke_connect_spec in Ec as [Hc _]; try exact Hf; [|intros [= _ <- <- <-]; exact Hc].
  destruct answer; [|intros [= _ <- <- <-]; exact Hc|discriminate].
  destruct (overload fuel ld total); [|discriminate]. intros [= _ <- <- <-]. exact Hc.
Qed.
End harness_proofs.

(** ** The exchange *)

Lemma sbind_ok {A B} (m : step A) (k : A -> step B) b r b' : sbind m k b = Some (inl r, b') -> exists a b1, m b = Some (inl a, b1) /\ k a b1 = Some (inl r, b').
Proof. unfold sbind. destruct (m b) as [[[a|e] b1]|]; [eauto|discriminate|discriminate]. Qed.

(** The numbers from [seq] on. *)
Definition numbers (seq : Z) (n : nat) : list Z := map (fun i => seq + Z.of_nat i) (List.seq 0 n).
Lemma numbers_S seq n : numbers seq (S n) = seq :: numbers (seq + 1) n.
Proof. unfold numbers. cbn [List.seq map]. rewrite <- seq_shift, map_map. f_equal; [lia|]. apply map_ext. intros i. lia. Qed.
Lemma numbers_app seq n m : numbers seq (n + m) = numbers seq n ++ numbers (seq + Z.of_nat n) m.
Proof.
  revert seq. induction n as [|n IH]; intros seq; [cbn [Nat.add Z.of_nat]; rewrite Z.add_0_r; reflexivity|]. cbn [Nat.add]. rewrite !numbers_S, IH. cbn [app]. do 3 f_equal. lia.
Qed.

Lemma send_pings_ok n : forall seq sent b r b', send_pings n seq sent b = Some (inl r, b') ->
  r = sent + Z.of_nat n /\ bd_sends b = replicate n SendTaken ++ bd_sends b' /\ bd_inbound b' = bd_inbound b /\ bd_pings b' = bd_pings b ++ numbers seq n.
Proof.
  induction n as [|n IH]; intros seq sent b r b' E.
  - injection E as <- <-. rewrite app_nil_r. split_and!; [lia|reflexivity..].
  - apply sbind_ok in E as (u & b1 & E1 & E). revert E1. unfold mpsc_send_one. destruct (bd_sends b) as [|[] l]; try discriminate. intros [= _ <-].
    apply IH in E as (-> & E2 & E3 & E4). cbn in E2, E3, E4. rewrite E2, E3, E4, numbers_S, <- app_assoc. split_and!; [lia|reflexivity..].
Qed.

Lemma send_pings_run n : forall seq sent b l, bd_sends b = replicate n SendTaken ++ l ->
  send_pings n seq sent b = Some (inl (sent + Z.of_nat n), mk_bidi l (bd_inbound b) (bd_pings b ++ numbers seq n)).
Proof.
  induction n as [|n IH]; intros seq sent b l E.
  - destruct b as [s i p]. cbn in *. subst l. unfold sret. rewrite Z.add_0_r, app_nil_r. reflexivity.
  - cbn [send_pings]. unfold sbind, mpsc_send_one. rewrite E. cbn [replicate app]. rewrite (IH _ _ _ l) by reflexivity. cbn [bd_inbound bd_pings].
    rewrite numbers_S, <- app_assoc. do 3 f_equal. lia.
Qed.

Lemma drain_pongs_ok fuel : forall phase target received b r b', drain_pongs fuel phase target received b = Some (inl r, b') ->
  received <= target -> target - received <= Z.of_nat fuel ->
  r = target /\ bd_inbound b = replicate (Z.to_nat (target - received)) Pong ++ bd_inbound b' /\ bd_sends b' = bd_sends b /\ bd_pings b' = bd_pings b.
Proof.
  induction fuel as [|fuel IH]; intros phase target received b r b' E Hle Hf; cbn [drain_pongs] in E.
  - injection E as <- <-. assert (target - received = 0) as -> by lia. split_and!; [lia|reflexivity..].
  - destruct (Z.ltb_spec received target) as [Hlt|Hge]; [|injection E as <- <-; assert (target - received = 0) as -> by lia; split_and!; [lia|reflexivity..]].
    apply sbind_ok in E as (m & b1 & E1 & E). revert E1. unfold message. destruct (bd_inbound b) as [|[] l]; try discriminate; intros [= <- <-]; [|discriminate].
    apply IH in E as (-> & E2 & E3 & E4); [|lia|lia]. cbn in E2, E3, E4. split_and!; [reflexivity| |exact E3|exact E4].
    replace (Z.to_nat (target - received)) with (S (Z.to_nat (target - (received + 1)))) by lia. cbn [replicate app]. f_equal. exact E2.
Qed.

Lemma drain_pongs_run fuel : forall phase target received b l, received <= target -> target - received < Z.of_nat fuel ->
  bd_inbound b = replicate (Z.to_nat (target - received)) Pong ++ l ->
  drain_pongs fuel phase target received b = Some (inl target, mk_bidi (bd_sends b) l (bd_pings b)).
Proof.
  induction fuel as [|fuel IH]; intros phase target received b l Hle Hf E; [lia|]. cbn [drain_pongs]. destruct (Z.ltb_spec received target) as [Hlt|Hge].
  - replace (Z.to_nat (target - received)) with (S (Z.to_nat (target - (received + 1)))) in E by lia. cbn [replicate app] in E.
    unfold sbind, message. rewrite E. rewrite (IH _ _ _ _ l); [reflexivity|lia|lia|reflexivity].
  - replace (target - received) with 0 in E by lia. destruct b as [s i p]. cbn in E. subst i. unfold sret. do 3 f_equal. lia.
Qed.

(** Only the verdict can be a mismatch. *)
Lemma sbind_err {A B} (m : step A) (k : A -> step B) b e b' : sbind m k b = Some (inr e, b') ->
  m b = Some (inr e, b') \/ exists a b1, m b = Some (inl a, b1) /\ k a b1 = Some (inr e, b').
Proof. unfold sbind. destruct (m b) as [[[a|e0] b1]|]; [eauto|intros [= -> ->]; auto|discriminate]. Qed.

Definition bidi_call {A} (m : step A) : Prop := forall b e b', m b = Some (inr e, b') -> exists s, e = SBidiCall s.
Lemma message_call phase : bidi_call (message phase).
Proof. intros b e b'. unfold message. destruct (bd_inbound b) as [|[] l]; try discriminate. intros [= <- _]. eauto. Qed.
Lemma send_pings_call n : forall seq sent, bidi_call (send_pings n seq sent).
Proof.
  induction n as [|n IH]; intros seq sent b e b'; [discriminate|]. intros [E|(u & b1 & _ & E)]%sbind_err; [|exact (IH _ _ _ _ _ E)].
  revert E. unfold mpsc_send_one. destruct (bd_sends b) as [|[] l]; try discriminate; intros [= <- _]; eauto.
Qed.
Lemma drain_pongs_call fuel phase target : forall received, bidi_call (drain_pongs fuel phase target received).
Proof.
  induction fuel as [|fuel IH]; intros received b e b'; [discriminate|]. cbn [drain_pongs]. destruct (received <? target); [|discriminate].
  intros [E|(m & b1 & _ & E)]%sbind_err; [exact (message_call _ _ _ _ E)|]. destruct m; [exact (IH _ _ _ _ E)|]. injection E as <- _. eauto.
Qed.

(** The exchange succeeds exactly when the channel takes ten pings and the peer answers ten pongs and then ends the stream; the pings are then
    numbered from 0 to 9.  The counts at its end always agree: it never reports a mismatch. *)
Theorem bidi_exchange_exact b :
  ((exists b', bidi_exchange b = Some (inl tt, b')) <->
   exists l m, bd_sends b = replicate 10 SendTaken ++ l /\ bd_inbound b = replicate 10 Pong ++ StreamEnd :: m) /\
  (forall b', bidi_exchange b = Some (inl tt, b') -> bd_pings b' = bd_pings b ++ [0; 1; 2; 3; 4; 5; 6; 7; 8; 9]) /\
  forall x y b', bidi_exchange b <> Some (inr (SBidiSendMismatch x y), b').
Proof.
  assert (Hok : forall b', bidi_exchange b = Some (inl tt, b') ->
    (exists l m, bd_sends b = replicate 10 SendTaken ++ l /\ bd_inbound b = replicate 10 Pong ++ StreamEnd :: m) /\ bd_pings b' = bd_pings b ++ numbers 0 10).
  { intros b' E. apply sbind_ok in E as (s1 & b1 & (-> & A1 & A2 & A3)%send_pings_ok & E). apply sbind_ok in E as (r1 & b2 & E2 & E).
    apply drain_pongs_ok in E2 as (-> & B1 & B2 & B3); [|lia|lia]. apply sbind_ok in E as (s2 & b3 & (-> & C1 & C2 & C3)%send_pings_ok & E).
    apply sbind_ok in E as (r2 & b4 & E4 & E). apply drain_pongs_ok in E4 as (-> & D1 & D2 & D3); [|lia|lia]. apply sbind_ok in E as (f & b5 & E5 & E).
    revert E5. unfold message. destruct (bd_inbound b4) as [|[] m] eqn:Em; try discriminate; intros [= <- <-]; [discriminate|]. cbn in E. injection E as <-. cbn [bd_pings]. split.
    - exists (bd_sends b4), m. rewrite A1, <- B2, C1, <- D2, <- A2, B1, <- C2, D1, !app_assoc, <- !replicate_add. split; reflexivity.
    - rewrite D3, C3, B3, A3, <- app_assoc. reflexivity. }
  split_and!.
  - split; [intros [b' E]; apply (Hok b' E)|]. intros (l & m & E1 & E2). unfold bidi_exchange, sbind at 1.
    rewrite (send_pings_run 3 0 0 b (replicate 7 SendTaken ++ l)) by exact E1. unfold sbind at 1.
    rewrite (drain_pongs_run 4 _ 3 0 _ (replicate 7 Pong ++ StreamEnd :: m)); [|lia|lia|exact E2]. unfold sbind at 1.
    rewrite (send_pings_run 7 3 _ _ l) by reflexivity. unfold sbind at 1. cbn [bd_inbound bd_sends bd_pings].
    rewrite (drain_pongs_run 8 _ 10 3 _ (StreamEnd :: m)); [|lia|lia|reflexivity]. eexists. reflexivity.
  - intros b' E. rewrite (proj2 (Hok b' E)). reflexivity.
  - intros x y b' E. apply sbind_err in E as [E|(s1 & b1 & (-> & _)%send_pings_ok & E)]; [apply send_pings_call in E as [s [=]]|].
    apply sbind_err in E as [E|(r1 & b2 & E2 & E)]; [apply drain_pongs_call in E as [s [=]]|]. apply drain_pongs_ok in E2 as (-> & _); [|lia|lia].
    apply sbind_err in E as [E|(s2 & b3 & (-> & _)%send_pings_ok & E)]; [apply send_pings_call in E as [s [=]]|].
    apply sbind_err in E as [E|(r2 & b4 & E2 & E)]; [apply drain_pongs_call in E as [s [=]]|]. apply drain_pongs_ok in E2 as (-> & _); [|lia|lia].
    apply sbind_err in E as [E|(f & b5 & _ & E)]; [apply message_call in E as [s [=]]|]. destruct f; discriminate.
Qed.

(** ** The overload *)

(** A run as time goes on: messages only come, fewer than 2^64; the clock never goes back. *)
Record load_wf (e : load_env) : Prop := {
  lw_messages k : ld_messages e k `prefix_of` ld_messages e (S k);
  lw_few k : Z.of_nat (length (ld_messages e k)) <= u64_max;
  lw_clock k : ld_elapsed e k <= ld_elapsed e (S k)
}.

(** The drain task counts the pongs before the end. *)
Fixpoint pongs (msgs : list inbound) : Z := match msgs with Pong :: msgs => 1 + pongs msgs | _ => 0 end.
Lemma pongs_bound msgs : 0 <= pongs msgs <= Z.of_nat (length msgs).
Proof. induction msgs as [|[] msgs IH]; cbn [pongs length]; lia. Qed.
Lemma pongs_app msgs msgs' : pongs msgs <= pongs (msgs ++ msgs').
Proof. pose proof (pongs_bound msgs'). induction msgs as [|[] msgs IH]; cbn; lia. Qed.
Lemma drain_task_pongs msgs : forall r, 0 <= r -> r + Z.of_nat (length msgs) <= u64_max -> fst (drain_task msgs r) = r + pongs msgs.
Proof.
  induction msgs as [|[] msgs IH]; intros r Hr Hb; cbn [drain_task pongs fst]; try lia. cbn [length] in Hb. rewrite u64_small, IH by lia. lia.
Qed.

Section overload_proofs.
Context (e : load_env) (wf : load_wf e).

Lemma received_pongs k : received_ctr e k = pongs (ld_messages e k).
Proof. unfold received_ctr. rewrite drain_task_pongs by (pose proof (lw_few e wf k); lia). lia. Qed.
Lemma received_mono k k' : (k <= k')%nat -> received_ctr e k <= received_ctr e k'.
Proof.
  induction 1 as [|k' _ IH]; [lia|]. etransitivity; [exact IH|]. rewrite !received_pongs. destruct (lw_messages e wf k') as [new ->]. apply pongs_app.
Qed.
Lemma clock_mono k k' : (k <= k')%nat -> ld_elapsed e k <= ld_elapsed e k'.
Proof. induction 1 as [|k' _ IH]; [lia|]. pose proof (lw_clock e wf k'). lia. Qed.

(** The pings are numbered, the exported counter moves with the drops, and at most a window of pings is unanswered. *)
Record load_ok (total : Z) (s : load_state) : Prop := {
  lo_seq : ls_seq s = ls_sent s;
  lo_sent : ls_sent s = Z.of_nat (length (ls_pings s));
  lo_pings : ls_pings s = numbers 0 (length (ls_pings s));
  lo_dropped : 0 <= ls_dropped s;
  lo_total : ls_total s = u64 (total + ls_dropped s);
  lo_window : ls_sent s <= received_ctr e (ls_waits s) + WINDOW
}.

Lemma ok_look total s : load_ok total s -> load_ok total (look s).
Proof. intros []. split; assumption. Qed.
Lemma ok_wait total s : load_ok total s -> load_ok total (wait s).
Proof. intros []. split; try assumption. cbn. pose proof (received_mono (ls_waits s) (S (ls_waits s)) ltac:(lia)). lia. Qed.
Lemma ok_drop total s : load_ok total s -> load_ok total (count_drop s).
Proof. intros []. split; try assumption; cbn; [lia|]. rewrite lo_total0. unfold u64, wrap. rewrite Zplus_mod_idemp_l. f_equal. lia. Qed.
Lemma ok_send total s : load_ok total s -> ls_sent s < received_ctr e (ls_waits s) + WINDOW -> load_ok total (send_ping s).
Proof.
  intros [] Hw. split; cbn [ls_seq ls_sent ls_pings ls_dropped ls_total ls_waits send_ping]; try assumption; try lia.
  - rewrite length_app. cbn [length]. lia.
  - rewrite length_app. cbn [length]. rewrite numbers_app, <- lo_pings0, lo_seq0, lo_sent0. f_equal. unfold numbers. cbn [List.seq map]. f_equal. lia.
Qed.

(** The inner loop ends with a free place in the window, or when time is up. *)
Lemma await_window_ok fuel total duration : forall s s', await_window fuel e duration s = Some s' -> load_ok total s ->
  load_ok total s' /\ (ls_looks s <= ls_looks s')%nat /\ (ls_sent s' < received_ctr e (ls_waits s') + WINDOW \/ duration <= ld_elapsed e (ls_looks s')).
Proof.
  induction fuel as [|fuel IH]; intros s s' E Hok; [discriminate|]. cbn [await_window] in E. cbv zeta in E.
  destruct (Z.ltb_spec (sat_sub (ls_sent s) (received_ctr e (ls_waits s))) WINDOW) as [Hlt|Hge].
  - injection E as <-. split_and!; [exact Hok|lia|]. left. unfold sat_sub in Hlt. lia.
  - cbn [ls_looks ls_waits wait look] in E. destruct (Z.leb_spec duration (ld_elapsed e (ls_looks s))) as [Hd|Hd].
    + injection E as <-. split_and!; [apply ok_look, ok_wait, Hok|cbn; lia|]. right. cbn. pose proof (lw_clock e wf (ls_looks s)). lia.
    + apply IH in E as (H1 & H2 & H3); [|destruct (_ =? _); [apply ok_drop|]; apply ok_look, ok_wait, Hok]. split_and!; [exact H1| |exact H3].
      revert H2. destruct (_ =? _); cbn; lia.
Qed.

Lemma overload_loop_ok fuel total duration inter : forall s s', overload_loop fuel e duration inter s = Some s' -> load_ok total s -> load_ok total s' /\ (ls_looks s <= ls_looks s')%nat.
Proof.
  induction fuel as [|fuel IH]; intros s s' E Hok; [discriminate|]. cbn [overload_loop] in E. cbv zeta in E.
  destruct (ld_elapsed e (ls_looks s) <? duration); cbn [negb] in E; [|injection E as <-; split; [apply ok_look, Hok|cbn; lia]].
  destruct (await_window (S fuel) e duration (look s)) as [s1|] eqn:Ew; [|discriminate]. apply (await_window_ok _ total) in Ew as (H1 & H2 & H3); [|apply ok_look, Hok]. cbn [ls_looks look] in H2.
  destruct (Z.leb_spec duration (ld_elapsed e (ls_looks s1))) as [Hd|Hd]; [injection E as <-; split; [apply ok_look, H1|cbn; lia]|].
  destruct H3 as [H3|H3]; [|lia].
  destruct (ld_ready e (ls_waits (look s1))); cbn [negb] in E; [|injection E as <-; split; [apply ok_wait, ok_look, H1|cbn; lia]].
  assert (Hs : load_ok total (send_ping (wait (look s1)))).
  { apply ok_send; [apply ok_wait, ok_look, H1|]. cbn. pose proof (received_mono (ls_waits s1) (S (ls_waits s1)) ltac:(lia)). lia. }
  apply IH in E as [H4 H5]; [|destruct (0 <? inter); [apply ok_wait|]; exact Hs]. split; [exact H4|]. revert H5. destruct (0 <? inter); cbn; lia.
Qed.

Lemma await_drain_ok fuel total deadline : forall s s', await_drain fuel e deadline s = Some s' -> load_ok total s -> load_ok total s'.
Proof.
  induction fuel as [|fuel IH]; intros s s' E Hok; [discriminate|]. cbn [await_drain] in E. cbv zeta in E. destruct (drain_done e (ls_waits s)); [injection E as <-; exact Hok|].
  destruct (deadline <=? _); [injection E as <-; apply ok_look, Hok|]. apply IH in E; [exact E|]. apply ok_wait, ok_look, Hok.
Qed.

(** *** Termination *)

Lemma await_window_ends duration k fuel : duration <= ld_elapsed e k -> forall s, (0 < fuel)%nat -> (k < ls_looks s + fuel)%nat -> is_Some (await_window fuel e duration s).
Proof.
  intros Hk. induction fuel as [|fuel IH]; intros s Hf Hl; [lia|]. cbn [await_window]. cbv zeta. case_if; [eauto|]. cbn [ls_looks ls_waits wait look].
  destruct (Z.leb_spec duration (ld_elapsed e (ls_looks s))) as [Hd|Hd]; [eauto|].
  assert (Hlt : (ls_looks s < k)%nat) by (destruct (Nat.lt_ge_cases (ls_looks s) k) as [|Hge]; [assumption|pose proof (clock_mono _ _ Hge); lia]).
  apply IH; [lia|]. destruct (_ =? _); cbn; lia.
Qed.

Lemma overload_loop_ends duration inter k fuel : duration <= ld_elapsed e k -> forall s, (0 < fuel)%nat -> (k < ls_looks s + fuel)%nat ->
  is_Some (overload_loop fuel e duration inter s).
Proof.
  intros Hk. induction fuel as [|fuel IH]; intros s Hf Hl; [lia|]. cbn [overload_loop]. cbv zeta.
  destruct (Z.ltb_spec (ld_elapsed e (ls_looks s)) duration) as [Hd|Hd]; cbn [negb]; [|eauto].
  assert (Hlt : (ls_looks s < k)%nat) by (destruct (Nat.lt_ge_cases (ls_looks s) k) as [|Hge]; [assumption|pose proof (clock_mono _ _ Hge); lia]).
  destruct (await_window_ends duration k (S fuel) Hk (look s) ltac:(lia) ltac:(cbn; lia)) as [s1 Ew]. rewrite Ew.
  assert (Hg : (ls_looks (look s) <= ls_looks s1)%nat).
  { clear -Ew. revert Ew. generalize (look s), (S fuel). intros s0 f. revert s0. induction f as [|f IH]; intros s0 E; [discriminate|]. cbn [await_window] in E. cbv zeta in E.
    destruct (_ <? WINDOW); [injection E as <-; lia|]. cbn [ls_looks ls_waits wait look] in E. destruct (duration <=? _); [injection E as <-; cbn; lia|]. apply IH in E. revert E. destruct (_ =? _); cbn; lia. }
  cbn [ls_looks look] in Hg. case_if; [eauto|]. destruct (ld_ready e _); cbn [negb]; [|eauto]. apply IH; [lia|]. destruct (0 <? inter); cbn; lia.
Qed.

Lemma await_drain_ends deadline k fuel : deadline <= ld_elapsed e k -> forall s, (0 < fuel)%nat -> (k < ls_looks s + fuel)%nat -> is_Some (await_drain fuel e deadline s).
Proof.
  intros Hk. induction fuel as [|fuel IH]; intros s Hf Hl; [lia|]. cbn [await_drain]. cbv zeta. destruct (drain_done _ _); [eauto|].
  destruct (Z.leb_spec deadline (ld_elapsed e (ls_looks s))) as [Hd|Hd]; [eauto|].
  assert (Hlt : (ls_looks s < k)%nat) by (destruct (Nat.lt_ge_cases (ls_looks s) k) as [|Hge]; [assumption|pose proof (clock_mono _ _ Hge); lia]).
  apply IH; [lia|]. cbn. lia.
Qed.

(** The overload ends whenever the clock goes on for as long as was asked and then 5 s more.  It has then sent pings numbered from 0 without a gap, with never
    more than a window of them unanswered, and moved the exported counter by exactly the drops that it reports. *)
Theorem overload_exact total last pace : in_u 64 total ->
  env_or e $"BIDI_OVERLOAD_DURATION_S" 60 * 1000000000 <= ld_elapsed e last -> (forall j, ld_elapsed e j + 5000000000 <= ld_elapsed e (j + pace)) ->
  exists s, overload (S (last + pace)) e total = Some (s, overload_line e s) /\ load_ok total s.
Proof.
  intros Ht Hl Hp. unfold overload. set (duration := env_or e _ _ * _) in *. set (inter := inter_send_of _). set (s0 := mk_lds 0 0 0 0 0 total []).
  assert (H0 : load_ok total s0).
  { split; try reflexivity; cbn [ls_total ls_dropped ls_sent ls_waits s0]; [rewrite Z.add_0_r; symmetry; apply u64_small; unfold in_u, u64_max in *; lia|]. rewrite received_pongs. pose proof (pongs_bound (ld_messages e 0)). unfold WINDOW. lia. }
  destruct (overload_loop_ends duration inter last (S (last + pace)) Hl s0 ltac:(lia) ltac:(cbn; lia)) as [s1 E1]. rewrite E1. cbn [mbind option_bind].
  apply (overload_loop_ok _ total) in E1 as [H1 _]; [|exact H0].
  destruct (await_drain_ends (ld_elapsed e (ls_looks s1) + 5000000000) _ (S (last + pace)) (Hp (ls_looks s1)) (look s1) ltac:(lia) ltac:(cbn; lia)) as [s2 E2]. rewrite E2. cbn [mbind option_bind].
  exists s2. split; [reflexivity|]. apply (await_drain_ok _ _ _ _ _ E2), ok_look, H1.
Qed.
End overload_proofs.

(** ** Examples *)

(** The clock moves 10 ms at each look, for one second; the peer never answers: a window of pings, and then only drops. *)
Definition silent_load : load_env :=
  mk_load (fun k => Z.of_nat k * 10000000) (fun _ => []) (fun _ => true) (fun name => if bytes_eqb name $"BIDI_OVERLOAD_DURATION_S" then Some $"1" else None).

Lemma silent_load_wf : load_wf silent_load.
Proof. split; intros k; cbn [silent_load ld_messages ld_elapsed length]; [reflexivity|unfold u64_max; lia|lia]. Qed.

Lemma overload_exact_witness : exists s, overload (S (100 + 500)) silent_load 7 = Some (s, overload_line silent_load s) /\
  load_ok silent_load 7 s /\ ls_sent s = 16 /\ ls_total s = 7 + ls_dropped s /\ ls_dropped s = 67.
Proof.
  destruct (overload_exact silent_load silent_load_wf 7 100 500) as (s & E & H); [vm_compute; intuition congruence|vm_compute; congruence| |].
  - intros j. cbn [silent_load ld_elapsed]. lia.
  - exists s. split; [exact E|]. split; [exact H|]. assert (E' : fst <$> overload (S (100 + 500)) silent_load 7 = Some s) by (rewrite E; reflexivity).
    clear E H. vm_compute in E'. injection E' as <-. vm_compute. auto.
Defined.

Lemma bidi_exchange_exact_witness : exists b', bidi_exchange (mk_bidi (replicate 12 SendTaken) (replicate 10 Pong ++ [StreamEnd]) []) = Some (inl tt, b').
Proof. apply (bidi_exchange_exact _). exists [SendTaken; SendTaken], []. split; reflexivity. Defined.
