(* ===== verification/Drain.v ===== *)
(** * The export loop (src/src/drain/mod.rs, src/src/drain/graceful.rs)

    The exporter's periodic work: retry a lane's queue, collect a fresh batch,
    send it and apply the verdict; and the final drain on quit.  Everything the
    exporter awaits or shares with other processes (clock, signal flags,
    transport, shared-memory zones) is a [World]: a send or a sleep may change
    any of it, because workers and the master run meanwhile.  The encoders and
    the metric sources, which read the process's counters, are parameters of the world; collection from the rings is
    the code of [Collect]. *)
From S2P Require Import Prelude Ring DataModel AccessLog Coalesce ErrorLog Processor Collect Outcome Backoff Control.

(** ** The world of the exporter *)

(** Result of a send raced against its deadline. *)
Inductive send_result := SOk (o : delivery_outcome) | SErr (e : transport_error) | SDeadline.

Class World (W : Type) := {
  ngx_current_msec : W -> Z;
  now_unix_nano : W -> Z;
  ngx_quit : W -> bool;
  ngx_terminate : W -> bool;
  control : W -> option control_shm;
  set_control : control_shm -> W -> W;
  logs_zone : W -> option (list worker_zone);
  set_logs_zone : list worker_zone -> W -> W;
  spans_zone : W -> option (list ring);
  set_spans_zone : list ring -> W -> W;
  collect_all_sources : counters -> W -> batch * W;
  send : lane -> list Z -> Z -> W -> send_result * W;
  sleep : Z -> W -> W
}.

(** ** Configuration and local state *)

(** The fields of [MainConfig] the loop reads; the two zone counts are the
    fall-back results of [logs_n_workers_from_zone] and [spans_n_workers_from_zone]. *)
Record export_config := mk_export_config {
  ec_resource : resource_config;
  ec_metrics_enabled : bool;
  ec_any_log_export : bool;
  ec_error_log_enabled : bool;
  ec_retry_depth : Z;
  ec_interval_ms : Z;
  ec_n_active_workers : Z;
  ec_logs_zone_workers : Z;
  ec_spans_zone_workers : Z;
  ec_processor : processor
}.

(** Locals of [export_loop] and the process's counters. *)
Record exporter := mk_exporter {
  q_metrics : retry_queue;
  q_logs : retry_queue;
  q_spans : retry_queue;
  bo_metrics : signal_backoff;
  bo_logs : signal_backoff;
  bo_spans : signal_backoff;
  periodic_abdicated : bool;
  crash_counter_reset : bool;
  stats : counters
}.

Definition lane_queue (l : lane) (x : exporter) : retry_queue :=
  match l with LMetrics => q_metrics x | LLogs => q_logs x | LSpans => q_spans x end.
Definition lane_backoff (l : lane) (x : exporter) : signal_backoff :=
  match l with LMetrics => bo_metrics x | LLogs => bo_logs x | LSpans => bo_spans x end.

Definition set_lane (l : lane) (q : retry_queue) (b : signal_backoff) (c : counters) (x : exporter)
    : exporter :=
  match l with
  | LMetrics => mk_exporter q (q_logs x) (q_spans x) b (bo_logs x) (bo_spans x)
                  (periodic_abdicated x) (crash_counter_reset x) c
  | LLogs => mk_exporter (q_metrics x) q (q_spans x) (bo_metrics x) b (bo_spans x)
               (periodic_abdicated x) (crash_counter_reset x) c
  | LSpans => mk_exporter (q_metrics x) (q_logs x) q (bo_metrics x) (bo_logs x) b
                (periodic_abdicated x) (crash_counter_reset x) c
  end.

Definition set_stats (c : counters) (x : exporter) : exporter :=
  mk_exporter (q_metrics x) (q_logs x) (q_spans x) (bo_metrics x) (bo_logs x) (bo_spans x)
    (periodic_abdicated x) (crash_counter_reset x) c.
Definition set_abdicated (a : bool) (x : exporter) : exporter :=
  mk_exporter (q_metrics x) (q_logs x) (q_spans x) (bo_metrics x) (bo_logs x) (bo_spans x)
    a (crash_counter_reset x) (stats x).
Definition set_crash_reset (a : bool) (x : exporter) : exporter :=
  mk_exporter (q_metrics x) (q_logs x) (q_spans x) (bo_metrics x) (bo_logs x) (bo_spans x)
    (periodic_abdicated x) a (stats x).

(** [store] of the collectors' drop counts.
    [src/src/drain/mod.rs: 991-996 periodic_tick] *)
Definition store_log_drops (d : logs_drop_counts) (c : counters) : counters :=
  mk_counters (DROPPED_RECORDS c) (PERMANENT_REJECTED c) (PARTIAL_REJECTED c)
    (UNAUTHORIZED_REJECTED c) (SEND_FAILURES c) (LOGS_SEND_FAILURES c) (TRACES_SEND_FAILURES c)
    (access_dropped d) (error_dropped d)
    (if 0 <? error_coalesced_orphaned d
     then ERROR_LOGS_COALESCED_ORPHANED c +w64 error_coalesced_orphaned d
     else ERROR_LOGS_COALESCED_ORPHANED c)
    (TRACES_DROPPED_RECORDS c) (UNAUTHORIZED_LOG_LAST_MSEC c) (cred_lines c).
(** [src/src/drain/mod.rs: 1077-1077 periodic_tick] *)
Definition store_span_drops (d : Z) (c : counters) : counters :=
  mk_counters (DROPPED_RECORDS c) (PERMANENT_REJECTED c) (PARTIAL_REJECTED c)
    (UNAUTHORIZED_REJECTED c) (SEND_FAILURES c) (LOGS_SEND_FAILURES c) (TRACES_SEND_FAILURES c)
    (ACCESS_LOGS_DROPPED c) (ERROR_LOGS_DROPPED c) (ERROR_LOGS_COALESCED_ORPHANED c) d
    (UNAUTHORIZED_LOG_LAST_MSEC c) (cred_lines c).

(** Budgets and intervals, in milliseconds. *)

(** [src/src/drain/mod.rs: GRACEFUL_DRAIN_PER_ATTEMPT_BUDGET] *)
Definition GRACEFUL_DRAIN_PER_ATTEMPT_BUDGET : Z := 2000.
(** [src/src/drain/mod.rs: PERIODIC_SEND_BUDGET] *)
Definition PERIODIC_SEND_BUDGET : Z := 15000.
(** [src/src/drain/mod.rs: SHUTDOWN_POLL_INTERVAL] *)
Definition SHUTDOWN_POLL_INTERVAL : Z := 250.

(** [src/src/drain/mod.rs: get_n_workers] *)
Definition get_n_workers (n_active from_zone : Z) : nat :=
  Z.to_nat (if 0 <? n_active then n_active else from_zone).

(** [src/src/drain/mod.rs: count_data_points] *)
Definition count_data_points (b : batch) : Z :=
  zsum (map (fun m => match m_data m with
                      | MHistogram _ pts => Z.of_nat (length pts)
                      | MExponentialHistogram _ pts => Z.of_nat (length pts)
                      | MSum _ _ pts => Z.of_nat (length pts)
                      | MGauge pts => Z.of_nat (length pts)
                      end) (b_metrics b)).

(** [src/src/drain/mod.rs: count_pdata_records] *)
Definition count_pdata_records (pd : pdata) : Z :=
  match pd with
  | PMetrics b => count_data_points b
  | PLogs b => Z.of_nat (length (lb_logs b))
  | PSpans b => Z.of_nat (length (sb_spans b))
  end.

(** [src/src/drain/mod.rs: ExportTransport::send_pdata] *)
Definition pdata_lane (pd : pdata) : lane :=
  match pd with PMetrics _ => LMetrics | PLogs _ => LLogs | PSpans _ => LSpans end.

(** [src/src/drain/mod.rs: ShutdownKind] *)
Inductive shutdown_kind := SkNone | SkExiting | SkTerminate.

Section export.
Context {W : Type} `{World W}.
(** The OTLP encoders of [encode_pdata]. *)
Context (encode : pdata -> list Z).

(** [src/src/drain/mod.rs: shutdown_requested] *)
Definition shutdown_requested (w : W) : bool := ngx_quit w || ngx_terminate w.

(** ** One retry pass *)

(** The loop over the snapshot of a lane's queue; [q] collects what is queued
    again, [now_msec] is the clock at the start of the pass.
    [src/src/drain/mod.rs: 1367-1447 drain_retry_queue_once_with_timer] *)
Fixpoint retry_loop (l : lane) (depth now_msec : Z) (snapshot : retry_queue) (drain_failed : bool)
    (q : retry_queue) (b : signal_backoff) (c : counters) (w : W)
    : retry_queue * signal_backoff * counters * W :=
  match snapshot with
  | [] => (q, b, c, w)
  | (bytes, n) :: rest =>
      let requeue c := let '(_, q, c) := enqueue_with_eviction q bytes n depth c in (q, c) in
      if drain_failed then
        let '(q, c) := requeue c in
        retry_loop l depth now_msec rest true q b c w
      else
        let '(r, w) := send l bytes PERIODIC_SEND_BUDGET w in
        match r with
        | SOk outcome =>
            let '(action, b, c) := apply_delivery_outcome outcome b now_msec (ngx_current_msec w) c in
            match action with
            | Release => retry_loop l depth now_msec rest false q b c w
            | Requeue =>
                let '(q, c) := requeue (bump_failure l c) in
                retry_loop l depth now_msec rest true q b c w
            | Drop => retry_loop l depth now_msec rest false q b c w
            end
        | SErr e =>
            let c := bump_failure l c in
            if is_permanent_rejection e then retry_loop l depth now_msec rest true q b c w
            else let '(q, c) := requeue c in retry_loop l depth now_msec rest true q b c w
        | SDeadline =>
            let '(q, c) := requeue (bump_failure l c) in
            retry_loop l depth now_msec rest true q b c w
        end
  end.

(** [src/src/drain/mod.rs: drain_retry_queue_once_with_timer] *)
Definition drain_retry_queue_once_with_timer (l : lane) (depth now_msec : Z) (x : exporter) (w : W)
    : exporter * W :=
  let '(q, b, c, w) :=
    retry_loop l depth now_msec (lane_queue l x) false [] (lane_backoff l x) (stats x) w in
  (set_lane l q b c x, w).

(** [src/src/drain/mod.rs: drain_retry_queue_once] *)
Definition drain_retry_queue_once (l : lane) (depth : Z) (x : exporter) (w : W) : exporter * W :=
  drain_retry_queue_once_with_timer l depth (ngx_current_msec w) x w.

(** ** A fresh batch *)

(** [src/src/drain/mod.rs: send_fresh_batch] *)
Definition send_fresh_batch (pd : pdata) (depth : Z) (x : exporter) (w : W) : exporter * W :=
  let l := pdata_lane pd in
  let n_records := count_pdata_records pd in
  if n_records =? 0 then (x, w) else
  let bytes := encode pd in
  let '(r, w) := send l bytes PERIODIC_SEND_BUDGET w in
  let failed :=
    let '(_, q, c) := enqueue_with_eviction (lane_queue l x) bytes n_records depth (stats x) in
    set_lane l q (lane_backoff l x) (bump_failure l c) x in
  match r with
  | SOk outcome =>
      let '(_, b, q, c) := apply_fresh_send_outcome outcome (lane_backoff l x) (lane_queue l x) bytes
                             n_records depth l (ngx_current_msec w) (stats x) in
      (set_lane l q b c x, w)
  | SErr _ => (failed, w)
  | SDeadline => (failed, w)
  end.

(** ** Collection steps *)

(** Pop the logs zone, if mapped, store the drop counts and return the batch.
    [src/src/drain/mod.rs: 971-997 periodic_tick] *)
Definition collect_logs (cfg : export_config) (x : exporter) (w : W) : option pdata * exporter * W :=
  match logs_zone w with
  | None => (None, x, w)
  | Some zone =>
      let n := get_n_workers (ec_n_active_workers cfg) (ec_logs_zone_workers cfg) in
      let '(b, drops, zone') :=
        collect_log_records (ec_resource cfg) (ec_error_log_enabled cfg) zone n (now_unix_nano w) in
      (Some (PLogs b), set_stats (store_log_drops drops (stats x)) x, set_logs_zone zone' w)
  end.

(** [src/src/drain/mod.rs: 1059-1078 periodic_tick] *)
Definition collect_spans (cfg : export_config) (x : exporter) (w : W) : option pdata * exporter * W :=
  match spans_zone w with
  | None => (None, x, w)
  | Some zone =>
      let n := get_n_workers (ec_n_active_workers cfg) (ec_spans_zone_workers cfg) in
      let '(b, d, zone') := collect_span_records (ec_resource cfg) zone n (now_unix_nano w) in
      (Some (PSpans b), set_stats (store_span_drops d (stats x)) x, set_spans_zone zone' w)
  end.

(** ** Graceful drain *)

(** The flush loop of one lane: one bounded attempt per batch, stop at the
    first failure and credit what is still queued.
    [src/src/drain/graceful.rs: 339-366 graceful_drain] *)
Fixpoint flush_queue (l : lane) (q : retry_queue) (c : counters) (w : W) : counters * W :=
  match q with
  | [] => (c, w)
  | (bytes, _) :: rest =>
      let '(r, w) := send l bytes GRACEFUL_DRAIN_PER_ATTEMPT_BUDGET w in
      match r with
      | SOk _ => flush_queue l rest c w
      | SErr _ | SDeadline => (snd (account_drops_and_clear rest c), w)
      end
  end.

(** [src/src/drain/graceful.rs: 339-366 graceful_drain] *)
Definition flush_lane (l : lane) (x : exporter) (w : W) : exporter * W :=
  let '(c, w) := flush_queue l (lane_queue l x) (stats x) w in
  (set_lane l [] (lane_backoff l x) c x, w).

(** The final batch is sent once; its result only decides the log line.
    [src/src/drain/graceful.rs: 393-419 graceful_drain] *)
Definition send_final (p : processor) (pd : option pdata) (w : W) : W :=
  match process p <$> pd with
  | Some pd => if 0 <? count_pdata_records pd
               then snd (send (pdata_lane pd) (encode pd) GRACEFUL_DRAIN_PER_ATTEMPT_BUDGET w)
               else w
  | None => w
  end.

(** [src/src/drain/graceful.rs: graceful_drain] *)
Definition graceful_drain (cfg : export_config) (my_gen : Z) (x : exporter) (w : W) : exporter * W :=
  let has_successor := successor_announced (control w) my_gen in
  let '(x, w) :=
    if ec_metrics_enabled cfg then
      let '(x, w) := flush_lane LMetrics x w in
      let '(b, w) := collect_all_sources (stats x) w in
      (x, send_final (ec_processor cfg) (Some (PMetrics b)) w)
    else (x, w) in
  let '(x, w) := flush_lane LLogs x w in
  let '(x, w) :=
    if negb has_successor && (ec_any_log_export cfg || ec_error_log_enabled cfg) then
      let '(pd, x, w) := collect_logs cfg x w in (x, send_final (ec_processor cfg) pd w)
    else (x, w) in
  let '(x, w) := flush_lane LSpans x w in
  if negb has_successor then
    let '(pd, x, w) := collect_spans cfg x w in (x, send_final (ec_processor cfg) pd w)
  else (x, w).

(** ** One export interval *)

(** Which shutdown an inter-send check reports.
    [src/src/drain/mod.rs: 956-960 periodic_tick] *)
Definition stop_kind (w : W) : shutdown_kind := if ngx_terminate w then SkTerminate else SkExiting.

(** [src/src/drain/mod.rs: 933-946 periodic_tick] *)
Definition retry_unless (deferred : bool) (l : lane) (depth : Z) (x : exporter) (w : W) : exporter * W :=
  if deferred then (x, w) else drain_retry_queue_once l depth x w.

(** [src/src/drain/mod.rs: 997-1012 periodic_tick] *)
Definition send_collected (p : processor) (r : option pdata * exporter * W) (depth : Z) : exporter * W :=
  match r with
  | (Some pd, x, w) => send_fresh_batch (process p pd) depth x w
  | (None, x, w) => (x, w)
  end.

(** The spans of a sub-interval, decided by the same clock as its logs.
    [src/src/drain/mod.rs: 1030-1095 periodic_tick] *)
Definition spans_chunk (cfg : export_config) (now_msec : Z) (x : exporter) (w : W) : shutdown_kind * exporter * W :=
  let depth := ec_retry_depth cfg in
  let spans_deferred := is_deferred (bo_spans x) now_msec in
  let '(x, w) := retry_unless spans_deferred LSpans depth x w in
  if shutdown_requested w then (stop_kind w, x, w) else
  let '(x, w) :=
    if negb (periodic_abdicated x) && negb spans_deferred
    then send_collected (ec_processor cfg) (collect_spans cfg x w) depth else (x, w) in
  (SkNone, x, w).

(** The part of a sub-interval wake after the sleep; [SkNone] continues the loop.
    [src/src/drain/mod.rs: 875-1095 periodic_tick sub-interval] *)
Definition tick_chunk (cfg : export_config) (my_gen : Z) (x : exporter) (w : W)
    : shutdown_kind * exporter * W :=
  let depth := ec_retry_depth cfg in
  if ngx_terminate w then (SkTerminate, x, w) else
  if ngx_quit w then (SkExiting, x, w) else
  let x := if negb (periodic_abdicated x) && successor_announced (control w) my_gen
           then set_abdicated true x else x in
  let now_msec := ngx_current_msec w in
  let logs_deferred := is_deferred (bo_logs x) now_msec in
  let '(x, w) := retry_unless logs_deferred LLogs depth x w in
  if shutdown_requested w then (stop_kind w, x, w) else
  let '(x, w) :=
    if negb (periodic_abdicated x) && negb logs_deferred
       && (ec_any_log_export cfg || ec_error_log_enabled cfg)
    then send_collected (ec_processor cfg) (collect_logs cfg x w) depth else (x, w) in
  if shutdown_requested w then (stop_kind w, x, w) else
  spans_chunk cfg now_msec x w.

(** [while slept < interval]; [None] when the fuel runs out.
    [src/src/drain/mod.rs: 872-1095 periodic_tick] *)
Fixpoint sleep_loop (fuel : nat) (cfg : export_config) (my_gen slept : Z) (x : exporter) (w : W)
    : option (shutdown_kind * exporter * W) :=
  if ec_interval_ms cfg <=? slept then Some (SkNone, x, w) else
  match fuel with
  | O => None
  | S fuel' =>
      let chunk := Z.min (ec_interval_ms cfg - slept) SHUTDOWN_POLL_INTERVAL in
      let w := sleep chunk w in
      match tick_chunk cfg my_gen x w with
      | (SkNone, x, w) => sleep_loop fuel' cfg my_gen (slept + chunk) x w
      | stop => Some stop
      end
  end.

(** One wake per [SHUTDOWN_POLL_INTERVAL], the last one shorter. *)
Definition tick_fuel (cfg : export_config) : nat :=
  Z.to_nat (ec_interval_ms cfg / SHUTDOWN_POLL_INTERVAL + 1).

Definition CRASH_WINDOW_NS : Z := CRASH_WINDOW_SECS * 1000000000.

(** The crash-loop reset after a healthy window.
    [src/src/drain/mod.rs: 1152-1180 periodic_tick] *)
Definition healthy_reset (healthy_since_ns : Z) (x : exporter) (w : W) : exporter * W :=
  if negb (crash_counter_reset x)
     && (CRASH_WINDOW_NS <=? sat_sub (now_unix_nano w) healthy_since_ns)
  then (set_crash_reset true x,
        match control w with Some c => set_control (set_crash 0 0 c) w | None => w end)
  else (x, w).

(** The metrics lane at the end of the interval.
    [src/src/drain/mod.rs: 1182-1249 periodic_tick] *)
Definition metrics_lane (cfg : export_config) (x : exporter) (w : W) : exporter * W :=
  let deferred := is_deferred (bo_metrics x) (ngx_current_msec w) in
  let '(x, w) := if ec_metrics_enabled cfg && negb deferred
                 then drain_retry_queue_once LMetrics (ec_retry_depth cfg) x w else (x, w) in
  if shutdown_requested w then (x, w) else
  if negb (ec_metrics_enabled cfg) then (x, w) else
  let '(b, w) := collect_all_sources (stats x) w in
  let metrics_pd := process (ec_processor cfg) (PMetrics b) in
  if negb deferred then send_fresh_batch metrics_pd (ec_retry_depth cfg) x w else (x, w).

(** What an interval does after its sleep.  Without the test-support feature [QuitDefer] is inert.
    [src/src/drain/mod.rs: 1098-1249 periodic_tick] *)
Definition tick_end (cfg : export_config) (my_gen healthy_since_ns : Z) (stop : shutdown_kind) (x : exporter) (w : W)
    : shutdown_kind * exporter * W :=
  let terminate := match stop with SkTerminate => true | _ => false end in
  let exiting := match stop with SkExiting => true | _ => false end in
  if terminate || ngx_terminate w then (SkTerminate, x, w) else
  if exiting || ngx_quit w then
    let '(x, w) := graceful_drain cfg my_gen x w in (SkExiting, x, w)
  else
    let w := match control w with
             | Some c => set_control (set_version (version c +w64 1) c) w
             | None => w
             end in
    let '(x, w) := healthy_reset healthy_since_ns x w in
    let '(x, w) := metrics_lane cfg x w in
    (SkNone, x, w).

(** [src/src/drain/mod.rs: periodic_tick] *)
Definition periodic_tick (cfg : export_config) (my_gen healthy_since_ns : Z) (x : exporter) (w : W)
    : option (shutdown_kind * exporter * W) :=
  '(stop, x, w) ← sleep_loop (tick_fuel cfg) cfg my_gen 0 x w;
  Some (tick_end cfg my_gen healthy_since_ns stop x w).

(** ** The loop *)

(** Where the export task is: ended by a signal, or still running. *)
Inductive loop_end := Terminated | Drained | Running.

(** The [loop] of [export_loop], watched for at most [fuel] intervals.
    [src/src/drain/mod.rs: 744-817 export_loop] *)
Fixpoint export_iterations (fuel : nat) (cfg : export_config) (my_gen healthy_since_ns : Z)
    (x : exporter) (w : W) : option (loop_end * exporter * W) :=
  if ngx_terminate w then Some (Terminated, x, w) else
  if ngx_quit w then let '(x, w) := graceful_drain cfg my_gen x w in Some (Drained, x, w) else
  match fuel with
  | O => Some (Running, x, w)
  | S fuel' =>
      '(stop, x, w) ← periodic_tick cfg my_gen healthy_since_ns x w;
      match stop with
      | SkTerminate => Some (Terminated, x, w)
      | SkExiting => Some (Drained, x, w)
      | SkNone => export_iterations fuel' cfg my_gen healthy_since_ns x w
      end
  end.

(** State at the start of the loop; the generation is read from the control page.
    [src/src/drain/mod.rs: 660-707 export_loop] *)
Definition initial_exporter : exporter :=
  mk_exporter [] [] [] backoff_default backoff_default backoff_default false false zero_counters.
(** [src/src/drain/mod.rs: 648-651 export_loop] *)
Definition startup_gen (w : W) : Z := match control w with Some c => successor_gen c | None => 0 end.

(** ** Properties of a lane *)

(** The verdicts that settle a batch: it is never sent again. *)
Definition settles (o : delivery_outcome) : bool :=
  match o with Retryable _ => false | _ => true end.

(** [handled l budget q w w']: the batches of [q] are sent one after the other
    from [w], each gets an answer accepted by [ok], and [w'] is reached. *)
Inductive handled (ok : delivery_outcome -> bool) (l : lane) (budget : Z) : retry_queue -> W -> W -> Prop :=
  | handled_nil w : handled ok l budget [] w w
  | handled_cons bytes n rest o w w1 w2 :
      send l bytes budget w = (SOk o, w1) -> ok o = true -> handled ok l budget rest w1 w2 ->
      handled ok l budget ((bytes, n) :: rest) w w2.

Definition stats_ok (c : counters) : Prop := in_u 64 (DROPPED_RECORDS c).

Lemma apply_outcome_dropped o b now lnow c action b' c' :
  apply_delivery_outcome o b now lnow c = (action, b', c') ->
  DROPPED_RECORDS c' = DROPPED_RECORDS c /\ (action = Requeue <-> settles o = false).
Proof.
  destruct o; cbn; intros [= <- <- <-]; try (split; [reflexivity|split; congruence]).
  unfold maybe_log_unauthorized. case_if; (split; [reflexivity|split; congruence]).
Qed.

Lemma bump_failure_dropped l c : DROPPED_RECORDS (bump_failure l c) = DROPPED_RECORDS c.
Proof. reflexivity. Qed.

(** After a failure the rest of the snapshot is queued again, unsent. *)
Lemma retry_loop_failed l depth now rest : forall q b c w,
  queue_bounded depth (q ++ rest) -> stats_ok c ->
  retry_loop l depth now rest true q b c w = (q ++ rest, b, c, w).
Proof.
  induction rest as [|[bytes n] rest IH]; intros q b c w Hq Hc; [rewrite app_nil_r; reflexivity|].
  cbn [retry_loop]. assert (Hq1 : queue_bounded depth (q ++ [(bytes, n)]))
    by (unfold queue_bounded in *; rewrite length_app in *; cbn [length] in *; lia).
  assert (Hq0 : queue_bounded depth q)
    by (unfold queue_bounded in *; rewrite length_app in *; cbn [length] in *; lia).
  pose proof (enqueue_keep q bytes n depth c Hq0 Hc) as E.
  destruct (enqueue_with_eviction q bytes n depth c) as [[r q'] c'].
  destruct (keep_all depth _ Hq1) as [K1 K2]. rewrite K1, K2 in E. destruct E as (-> & -> & ->).
  rewrite add_dropped_0 by exact Hc. rewrite IH; rewrite <- ?app_assoc; auto.
Qed.

(** Queueing again the batch in hand and then the rest of the snapshot. *)
Lemma retry_requeue l depth now bytes n rest b c w :
  queue_bounded depth ((bytes, n) :: rest) -> stats_ok c ->
  (let '(q, c) := let '(_, q, c) := enqueue_with_eviction [] bytes n depth c in (q, c) in
   retry_loop l depth now rest true q b c w) = ((bytes, n) :: rest, b, c, w).
Proof.
  intros Hq Hc. pose proof (enqueue_keep [] bytes n depth c) as E.
  destruct (enqueue_with_eviction [] bytes n depth c) as [[r q'] c'].
  specialize (E ltac:(unfold queue_bounded; cbn; lia) Hc).
  destruct (keep_all depth [(bytes, n)]) as [K1 K2]; [unfold queue_bounded; cbn; lia|].
  cbn [app] in E. rewrite K1, K2 in E. destruct E as (-> & -> & ->).
  rewrite add_dropped_0 by exact Hc. rewrite (retry_loop_failed l depth now rest [(bytes, n)]); auto.
Qed.

(** What a pass leaves behind, given the batch that stopped it. *)
Definition after_stop (r : send_result) (rest : retry_queue) : option retry_queue :=
  match r with
  | SOk o => if settles o then None else Some rest
  | SErr e => Some (if is_permanent_rejection e then drop 1 rest else rest)
  | SDeadline => Some rest
  end.

Lemma retry_loop_spec l depth now snapshot : forall b c w, queue_bounded depth snapshot -> stats_ok c ->
  let '(q', _, c', w') := retry_loop l depth now snapshot false [] b c w in
  DROPPED_RECORDS c' = DROPPED_RECORDS c /\
  exists done rest w1, snapshot = done ++ rest /\ handled settles l PERIODIC_SEND_BUDGET done w w1 /\
    match rest with
    | [] => q' = [] /\ w' = w1
    | (bytes, _) :: _ => exists r, send l bytes PERIODIC_SEND_BUDGET w1 = (r, w') /\ after_stop r rest = Some q'
    end.
Proof.
  induction snapshot as [|[bytes n] rest IH]; intros b c w Hq Hc.
  { cbn. split; [reflexivity|]. exists [], [], w. split_and!; auto. constructor. }
  assert (Hr : queue_bounded depth rest) by (unfold queue_bounded in *; cbn [length] in *; lia).
  cbn [retry_loop]. destruct (send l bytes PERIODIC_SEND_BUDGET w) as [r w1] eqn:Es.
  assert (Hstop : forall q' c', after_stop r ((bytes, n) :: rest) = Some q' -> DROPPED_RECORDS c' = DROPPED_RECORDS c ->
    DROPPED_RECORDS c' = DROPPED_RECORDS c /\
    exists done rest0 w0, (bytes, n) :: rest = done ++ rest0 /\
      handled settles l PERIODIC_SEND_BUDGET done w w0 /\
      match rest0 with
      | [] => q' = [] /\ w1 = w0
      | (bytes, _) :: _ => exists r, send l bytes PERIODIC_SEND_BUDGET w0 = (r, w1) /\ after_stop r rest0 = Some q'
      end).
  { intros q' c' Ha Hd. split; [exact Hd|]. exists [], ((bytes, n) :: rest), w.
    split_and!; [reflexivity|constructor|]. exists r. auto. }
  destruct r as [o|e|].
  - destruct (apply_delivery_outcome o b now (ngx_current_msec w1) c) as [[action b'] c'] eqn:Ea.
    pose proof (apply_outcome_dropped _ _ _ _ _ _ _ _ Ea) as [Hd Hact].
    assert (Hc' : stats_ok c') by (unfold stats_ok in *; rewrite Hd; exact Hc).
    destruct action.
    1,3: assert (Hs : settles o = true) by (destruct (settles o); [reflexivity|];
           exfalso; discriminate (proj2 Hact eq_refl));
         specialize (IH b' c' w1 Hr Hc');
         destruct (retry_loop l depth now rest false [] b' c' w1) as [[[q2 b2] c2] w2];
         destruct IH as (I1 & done & rest0 & w0 & -> & I2 & I3);
         (split; [congruence|]); exists ((bytes, n) :: done), rest0, w0;
         split_and!; [reflexivity|econstructor; eauto|exact I3].
    rewrite retry_requeue by (exact Hq || exact Hc').
    apply Hstop; [|rewrite bump_failure_dropped; exact Hd].
    cbn. rewrite (proj1 Hact eq_refl). reflexivity.
  - destruct (is_permanent_rejection e) eqn:Ep.
    + rewrite (retry_loop_failed l depth now rest []) by (exact Hr || exact Hc).
      apply Hstop; [cbn; rewrite Ep; reflexivity|reflexivity].
    + rewrite retry_requeue by (exact Hq || exact Hc).
      apply Hstop; [cbn; rewrite Ep; reflexivity|reflexivity].
  - rewrite retry_requeue by (exact Hq || exact Hc). apply Hstop; reflexivity.
Qed.

Lemma lane_queue_set l l' q b c x :
  lane_queue l' (set_lane l q b c x) = match l, l' with
    | LMetrics, LMetrics | LLogs, LLogs | LSpans, LSpans => q
    | _, _ => lane_queue l' x
    end.
Proof. destruct l, l'; reflexivity. Qed.

Lemma stats_set_lane l q b c x : stats (set_lane l q b c x) = c.
Proof. destruct l; reflexivity. Qed.

Lemma abdicated_set_lane l q b c x : periodic_abdicated (set_lane l q b c x) = periodic_abdicated x.
Proof. destruct l; reflexivity. Qed.

(** C10 (functional). A retry pass over a bounded queue sends the batches oldest
    first until one fails; every earlier one got a settling verdict, and the
    queue afterwards is exactly the failed batch and all later ones in their
    order (without the failed one when the transport reported a 4xx): no batch
    is lost, duplicated or reordered, nothing is evicted, and the other lanes
    are untouched.
    About: drain_retry_queue_once, drain_retry_queue_once_with_timer, apply_delivery_outcome, enqueue_with_eviction, is_permanent_rejection. *)
Theorem retry_pass_exact l depth x w :
  queue_bounded depth (lane_queue l x) -> stats_ok (stats x) ->
  let '(x', w') := drain_retry_queue_once l depth x w in
  DROPPED_RECORDS (stats x') = DROPPED_RECORDS (stats x) /\
  (forall l', l' <> l -> lane_queue l' x' = lane_queue l' x) /\
  exists done rest w1, lane_queue l x = done ++ rest /\
    handled settles l PERIODIC_SEND_BUDGET done w w1 /\
    match rest with
    | [] => lane_queue l x' = [] /\ w' = w1
    | (bytes, _) :: _ =>
        exists r, send l bytes PERIODIC_SEND_BUDGET w1 = (r, w') /\ after_stop r rest = Some (lane_queue l x')
    end.
Proof.
  intros Hq Hc. unfold drain_retry_queue_once, drain_retry_queue_once_with_timer.
  pose proof (retry_loop_spec l depth (ngx_current_msec w) _ (lane_backoff l x) (stats x) w Hq Hc) as S.
  destruct (retry_loop _ _ _ _ _ _ _ _ _) as [[[q' b'] c'] w']. destruct S as [S1 S2].
  rewrite stats_set_lane. split_and!; [exact S1| |].
  - intros l' Hl. rewrite lane_queue_set. destruct l, l'; congruence || reflexivity.
  - rewrite lane_queue_set. destruct l; exact S2.
Qed.

(** The bound survives a pass: the queue only shrinks. *)
Lemma after_stop_le r rest q : after_stop r rest = Some q -> (length q <= length rest)%nat.
Proof.
  destruct r as [o|e|]; cbn.
  - destruct (settles o); [discriminate|]. intros [= <-]. lia.
  - intros [= <-]. destruct (is_permanent_rejection e); [rewrite length_drop|]; lia.
  - intros [= <-]. lia.
Qed.

(** The failure path of a fresh batch. *)
Lemma fresh_queued depth x bytes n l : queue_bounded depth (lane_queue l x) -> stats_ok (stats x) ->
  let '(_, q, c) := enqueue_with_eviction (lane_queue l x) bytes n depth (stats x) in
  q = keep depth (lane_queue l x ++ [(bytes, n)]) /\
  DROPPED_RECORDS c =
    DROPPED_RECORDS (stats x) +w64 queue_records (evicted depth (lane_queue l x ++ [(bytes, n)])).
Proof.
  intros Hq Hc. pose proof (enqueue_keep (lane_queue l x) bytes n depth (stats x) Hq Hc) as E.
  destruct (enqueue_with_eviction _ _ _ _ _) as [[r q] c]. destruct E as (-> & -> & ->). auto.
Qed.

(** A freshly collected batch is sent at most once: an empty
    one not at all; after a settling verdict the lane's queue is unchanged; after
    a retryable verdict, a transport error or a timeout the batch is appended to
    the queue, which keeps its newest batches and credits the records of the
    evicted one as dropped. *)
Theorem fresh_batch_exact pd depth x w :
  let l := pdata_lane pd in
  let n := count_pdata_records pd in
  let q := lane_queue l x in
  queue_bounded depth q -> stats_ok (stats x) ->
  let '(x', w') := send_fresh_batch pd depth x w in
  if n =? 0 then x' = x /\ w' = w else
  exists r, send l (encode pd) PERIODIC_SEND_BUDGET w = (r, w') /\
    let settled := match r with SOk o => settles o | _ => false end in
    if settled then lane_queue l x' = q /\ DROPPED_RECORDS (stats x') = DROPPED_RECORDS (stats x)
    else lane_queue l x' = keep depth (q ++ [(encode pd, n)]) /\
         DROPPED_RECORDS (stats x') =
           DROPPED_RECORDS (stats x) +w64 queue_records (evicted depth (q ++ [(encode pd, n)])).
Proof.
  intros l n q Hq Hc. unfold send_fresh_batch. fold n l.
  destruct (n =? 0); [auto|].
  destruct (send l (encode pd) PERIODIC_SEND_BUDGET w) as [r w'].
  pose proof (fresh_queued depth x (encode pd) n l Hq Hc) as F.
  destruct r as [o|e|].
  - unfold apply_fresh_send_outcome, handle_fresh_send_outcome.
    destruct (apply_delivery_outcome o _ _ _ _) as [[action b'] c'] eqn:Ea.
    pose proof (apply_outcome_dropped _ _ _ _ _ _ _ _ Ea) as [Hd Hact].
    assert (Hc' : in_u 64 (DROPPED_RECORDS c')) by (rewrite Hd; exact Hc).
    pose proof (enqueue_keep (lane_queue l x) (encode pd) n depth c' Hq Hc') as E.
    destruct action.
    1,3: exists (SOk o); split; [reflexivity|]; rewrite lane_queue_set, stats_set_lane;
         (assert (Hs : settles o = true) by (destruct (settles o); [reflexivity|];
            exfalso; discriminate (proj2 Hact eq_refl)));
         cbv zeta; rewrite Hs; destruct l; auto.
    destruct (enqueue_with_eviction (lane_queue l x) (encode pd) n depth c') as [[r q2] c2].
    destruct E as (-> & -> & ->). exists (SOk o). split; [reflexivity|]. cbv zeta.
    rewrite (proj1 Hact eq_refl), lane_queue_set, stats_set_lane, bump_failure_dropped.
    cbn [DROPPED_RECORDS add_dropped]. rewrite Hd. destruct l; auto.
  - destruct (enqueue_with_eviction _ _ _ _ _) as [[r q2] c2]. destruct F as [-> F].
    exists (SErr e). split; [reflexivity|]. cbv zeta. rewrite lane_queue_set, stats_set_lane. destruct l; auto.
  - destruct (enqueue_with_eviction _ _ _ _ _) as [[r q2] c2]. destruct F as [-> F].
    exists SDeadline. split; [reflexivity|]. cbv zeta. rewrite lane_queue_set, stats_set_lane. destruct l; auto.
Qed.

(** ** The final flush *)

Lemma account_drops_dropped q c : stats_ok c ->
  DROPPED_RECORDS (snd (account_drops_and_clear q c)) = DROPPED_RECORDS c +w64 queue_records q.
Proof.
  intros Hc. unfold account_drops_and_clear. cbn [snd]. case_if.
  - cbn [DROPPED_RECORDS add_dropped]. unfold wrap. rewrite Zplus_mod_idemp_r. reflexivity.
  - assert (E0 : u64 (queue_records q) = 0) by (pose proof (u64_range (queue_records q)); lia).
    unfold wrap in *. rewrite Zplus_mod, E0, Z.add_0_r, Zmod_mod. symmetry. apply wrap_small. exact Hc.
Qed.

Definition is_failure (r : send_result) : bool := match r with SOk _ => false | _ => true end.

(** On quit a lane's queue is flushed oldest first with one
    bounded attempt per batch, and ends empty: up to the first failed send every
    batch was answered by the collector; the batches still queued behind the
    failed one are credited as dropped, and the failed batch itself is credited
    nowhere. *)
Theorem flush_accounting l x w :
  stats_ok (stats x) ->
  let '(x', w') := flush_lane l x w in
  lane_queue l x' = [] /\
  exists done rest w1, lane_queue l x = done ++ rest /\
    handled (fun _ => true) l GRACEFUL_DRAIN_PER_ATTEMPT_BUDGET done w w1 /\
    match rest with
    | [] => w' = w1 /\ DROPPED_RECORDS (stats x') = DROPPED_RECORDS (stats x)
    | (bytes, _) :: behind =>
        exists r, send l bytes GRACEFUL_DRAIN_PER_ATTEMPT_BUDGET w1 = (r, w') /\ is_failure r = true /\
        DROPPED_RECORDS (stats x') = DROPPED_RECORDS (stats x) +w64 queue_records behind
    end.
Proof.
  intros Hc. unfold flush_lane.
  enough (F : forall q w, let '(c', w') := flush_queue l q (stats x) w in
    exists done rest w1, q = done ++ rest /\
      handled (fun _ => true) l GRACEFUL_DRAIN_PER_ATTEMPT_BUDGET done w w1 /\
      match rest with
      | [] => w' = w1 /\ DROPPED_RECORDS c' = DROPPED_RECORDS (stats x)
      | (bytes, _) :: behind =>
          exists r, send l bytes GRACEFUL_DRAIN_PER_ATTEMPT_BUDGET w1 = (r, w') /\ is_failure r = true /\
          DROPPED_RECORDS c' = DROPPED_RECORDS (stats x) +w64 queue_records behind
      end).
  { specialize (F (lane_queue l x) w). destruct (flush_queue _ _ _ _) as [c' w'].
    rewrite lane_queue_set, stats_set_lane. destruct l; (split; [reflexivity|exact F]). }
  clear w. induction q as [|[bytes n] rest IH]; intros w.
  { cbn. exists [], [], w. split_and!; auto. constructor. }
  cbn [flush_queue]. destruct (send l bytes GRACEFUL_DRAIN_PER_ATTEMPT_BUDGET w) as [r w1] eqn:Es.
  assert (Hstop : is_failure r = true ->
    exists done rest0 w0, (bytes, n) :: rest = done ++ rest0 /\
      handled (fun _ => true) l GRACEFUL_DRAIN_PER_ATTEMPT_BUDGET done w w0 /\
      match rest0 with
      | [] => w1 = w0 /\ DROPPED_RECORDS (snd (account_drops_and_clear rest (stats x))) = DROPPED_RECORDS (stats x)
      | (bytes, _) :: behind =>
          exists r, send l bytes GRACEFUL_DRAIN_PER_ATTEMPT_BUDGET w0 = (r, w1) /\ is_failure r = true /\
          DROPPED_RECORDS (snd (account_drops_and_clear rest (stats x))) =
            DROPPED_RECORDS (stats x) +w64 queue_records behind
      end).
  { intros Hf. exists [], ((bytes, n) :: rest), w. split_and!; [reflexivity|constructor|].
    exists r. split_and!; auto using account_drops_dropped. }
  destruct r as [o|e|]; [|apply Hstop; reflexivity|apply Hstop; reflexivity].
  specialize (IH w1). destruct (flush_queue l rest (stats x) w1) as [c' w'].
  destruct IH as (done & rest0 & w0 & -> & I2 & I3).
  exists ((bytes, n) :: done), rest0, w0. split_and!; [reflexivity|econstructor; eauto|exact I3].
Qed.

(** ** The interval: bounded queues and termination *)

Definition exporter_ok (depth : Z) (x : exporter) : Prop :=
  (forall l, queue_bounded depth (lane_queue l x)) /\ stats_ok (stats x).

Lemma set_lane_ok l depth q b c x :
  exporter_ok depth x -> queue_bounded depth q -> stats_ok c -> exporter_ok depth (set_lane l q b c x).
Proof.
  intros [Hq _] Hb Hc. split; [|rewrite stats_set_lane; exact Hc].
  intros l'. rewrite lane_queue_set. destruct l, l'; auto.
Qed.

Lemma set_stats_ok depth c x : exporter_ok depth x -> DROPPED_RECORDS c = DROPPED_RECORDS (stats x) ->
  exporter_ok depth (set_stats c x).
Proof. intros [Hq Hc] E. split; [exact Hq|]. unfold stats_ok in *. cbn. rewrite E. exact Hc. Qed.

Lemma enqueue_ok q bytes n depth c : queue_bounded depth q -> stats_ok c ->
  let '(_, q', c') := enqueue_with_eviction q bytes n depth c in queue_bounded depth q' /\ stats_ok c'.
Proof.
  intros Hq Hc. pose proof (enqueue_keep q bytes n depth c Hq Hc) as E.
  destruct (enqueue_with_eviction q bytes n depth c) as [[r q'] c']. destruct E as (-> & _ & ->).
  split; [apply keep_bounded|apply add_dropped_in_u].
Qed.

Lemma retry_ok l depth x w : exporter_ok depth x ->
  exporter_ok depth (fst (drain_retry_queue_once l depth x w)).
Proof.
  intros [Hq Hc]. unfold drain_retry_queue_once, drain_retry_queue_once_with_timer.
  pose proof (retry_loop_spec l depth (ngx_current_msec w) _ (lane_backoff l x) (stats x) w (Hq l) Hc) as S.
  destruct (retry_loop _ _ _ _ _ _ _ _ _) as [[[q' b'] c'] w'].
  destruct S as (S1 & done & rest & w1 & E & _ & S3). cbn [fst].
  apply set_lane_ok; [split; assumption| |unfold stats_ok in *; rewrite S1; exact Hc].
  specialize (Hq l). rewrite E in Hq. unfold queue_bounded in *. rewrite length_app in Hq.
  destruct rest as [|[bytes n] rest]; [destruct S3 as [-> _]; cbn; lia|].
  destruct S3 as (r & _ & S3). apply after_stop_le in S3. lia.
Qed.

Lemma fresh_ok pd depth x w : exporter_ok depth x -> exporter_ok depth (fst (send_fresh_batch pd depth x w)).
Proof.
  intros Hx. pose proof Hx as [Hq Hc]. unfold send_fresh_batch. case_if; [exact Hx|].
  set (l := pdata_lane pd) in *.
  destruct (send l (encode pd) PERIODIC_SEND_BUDGET w) as [[o|e|] w'].
  - unfold apply_fresh_send_outcome, handle_fresh_send_outcome.
    destruct (apply_delivery_outcome o _ _ _ _) as [[action b'] c'] eqn:Ea.
    pose proof (apply_outcome_dropped _ _ _ _ _ _ _ _ Ea) as [Hd _].
    assert (Hc' : stats_ok c') by (unfold stats_ok in *; rewrite Hd; exact Hc).
    destruct action; cbn [fst]; try (apply set_lane_ok; auto; fail).
    pose proof (enqueue_ok (lane_queue l x) (encode pd) (count_pdata_records pd) depth c' (Hq l) Hc') as Q.
    destruct (enqueue_with_eviction _ _ _ _ _) as [[r q2] c2]. cbn [fst]. apply set_lane_ok; tauto.
  - pose proof (enqueue_ok (lane_queue l x) (encode pd) (count_pdata_records pd) depth (stats x) (Hq l) Hc) as Q.
    destruct (enqueue_with_eviction _ _ _ _ _) as [[r q2] c2]. cbn [fst]. apply set_lane_ok; tauto.
  - pose proof (enqueue_ok (lane_queue l x) (encode pd) (count_pdata_records pd) depth (stats x) (Hq l) Hc) as Q.
    destruct (enqueue_with_eviction _ _ _ _ _) as [[r q2] c2]. cbn [fst]. apply set_lane_ok; tauto.
Qed.

Lemma collect_logs_ok cfg depth x w : exporter_ok depth x ->
  exporter_ok depth (snd (fst (collect_logs cfg x w))).
Proof.
  intros Hx. unfold collect_logs. destruct (logs_zone w); [|exact Hx].
  destruct (collect_log_records _ _ _ _ _) as [[b d] z]. cbn [fst snd].
  apply set_stats_ok; [exact Hx|reflexivity].
Qed.

Lemma collect_spans_ok cfg depth x w : exporter_ok depth x ->
  exporter_ok depth (snd (fst (collect_spans cfg x w))).
Proof.
  intros Hx. unfold collect_spans. destruct (spans_zone w); [|exact Hx].
  destruct (collect_span_records _ _ _ _) as [[b d] z]. cbn [fst snd].
  apply set_stats_ok; [exact Hx|reflexivity].
Qed.

Lemma send_collected_ok p r depth : exporter_ok depth (snd (fst r)) ->
  exporter_ok depth (fst (send_collected p r depth)).
Proof. destruct r as [[[pd|] x] w]; cbn; intros Hx; [apply fresh_ok|]; exact Hx. Qed.

Lemma retry_unless_ok d l depth x w : exporter_ok depth x ->
  exporter_ok depth (fst (retry_unless d l depth x w)).
Proof. intros. unfold retry_unless. destruct d; [assumption|apply retry_ok; assumption]. Qed.

Lemma flush_lane_ok l depth x w : exporter_ok depth x -> exporter_ok depth (fst (flush_lane l x w)).
Proof.
  intros [Hq Hc]. unfold flush_lane.
  assert (F : forall q w, stats_ok (fst (flush_queue l q (stats x) w))).
  { induction q as [|[bytes n] rest IH]; intros v; [exact Hc|]. cbn [flush_queue].
    destruct (send _ _ _ _) as [[o|e|] w1]; [apply IH| |];
      cbn [fst]; unfold stats_ok; rewrite account_drops_dropped by exact Hc; apply wrap_range; lia. }
  specialize (F (lane_queue l x) w). destruct (flush_queue _ _ _ _) as [c' w']. cbn [fst] in *.
  apply set_lane_ok; [split; assumption|unfold queue_bounded; cbn; lia|exact F].
Qed.
#[local] Hint Resolve retry_ok fresh_ok collect_logs_ok collect_spans_ok send_collected_ok
  retry_unless_ok flush_lane_ok : otel.

(** Name the exporter and world a step returns, keeping its invariant. *)
Ltac step H :=
  match type of H with exporter_ok ?d (fst ?t) => destruct t as [?x ?w]; cbn [fst] in H end.

Lemma tick_chunk_ok cfg my_gen x w : exporter_ok (ec_retry_depth cfg) x ->
  exporter_ok (ec_retry_depth cfg) (snd (fst (tick_chunk cfg my_gen x w))).
Proof.
  intros Hx. unfold tick_chunk, spans_chunk. set (d := ec_retry_depth cfg) in *.
  do 2 (case_if; [exact Hx|]).
  set (x0 := if negb (periodic_abdicated x) && successor_announced (control w) my_gen
             then set_abdicated true x else x).
  assert (H0 : exporter_ok d x0) by (subst x0; case_if; exact Hx). clearbody x0. clear Hx.
  pose proof (retry_unless_ok (is_deferred (bo_logs x0) (ngx_current_msec w)) LLogs d x0 w H0) as H1.
  step H1. case_if; [exact H1|].
  match goal with |- context [let '(_, _) := ?t in _] =>
    assert (H2 : exporter_ok d (fst t)) by (case_if; [auto with otel|exact H1]) end.
  step H2. case_if; [exact H2|].
  match goal with |- context [retry_unless ?b LSpans d ?x ?w] =>
    pose proof (retry_unless_ok b LSpans d x w H2) as H3 end.
  step H3. case_if; [exact H3|].
  match goal with |- context [let '(_, _) := ?t in _] =>
    assert (H4 : exporter_ok d (fst t)) by (case_if; [auto with otel|exact H3]) end.
  step H4. exact H4.
Qed.

Lemma graceful_ok cfg my_gen depth x w : exporter_ok depth x ->
  exporter_ok depth (fst (graceful_drain cfg my_gen x w)).
Proof.
  intros Hx. unfold graceful_drain. set (hs := successor_announced _ _).
  match goal with |- context [let '(_, _) := ?t in _] =>
    assert (H1 : exporter_ok depth (fst t)) end.
  { case_if; [|exact Hx]. pose proof (flush_lane_ok LMetrics depth x w Hx) as H1. step H1.
    destruct (collect_all_sources _ _). exact H1. }
  step H1. pose proof (flush_lane_ok LLogs depth x0 w0 H1) as H2. step H2.
  match goal with |- context [let '(_, _) := ?t in _] =>
    assert (H3 : exporter_ok depth (fst t)) end.
  { case_if; [|exact H2]. pose proof (collect_logs_ok cfg depth x1 w1 H2) as Hl.
    destruct (collect_logs cfg x1 w1) as [[pd x2] w2]. exact Hl. }
  step H3. pose proof (flush_lane_ok LSpans depth x2 w2 H3) as H4. step H4.
  case_if; [|exact H4]. pose proof (collect_spans_ok cfg depth x3 w3 H4) as H5.
  destruct (collect_spans cfg x3 w3) as [[pd x4] w4]. exact H5.
Qed.

Lemma sleep_loop_total fuel cfg my_gen : forall slept x w,
  exporter_ok (ec_retry_depth cfg) x -> ec_interval_ms cfg - slept <= Z.of_nat fuel * 250 ->
  exists k x' w', sleep_loop fuel cfg my_gen slept x w = Some (k, x', w') /\
    exporter_ok (ec_retry_depth cfg) x'.
Proof.
  induction fuel as [|fuel IH]; intros slept x w Hx Hf; cbn [sleep_loop].
  - rewrite (proj2 (Z.leb_le _ _)) by lia. eauto.
  - case_if; [eauto|]. set (w1 := sleep _ w).
    pose proof (tick_chunk_ok cfg my_gen x w1 Hx) as H1.
    destruct (tick_chunk cfg my_gen x w1) as [[k x'] w']. cbn [fst snd] in H1.
    destruct k; [|eauto|eauto]. apply IH; [exact H1|]. unfold SHUTDOWN_POLL_INTERVAL. lia.
Qed.

Lemma tick_total cfg my_gen since x w :
  0 <= ec_interval_ms cfg -> exporter_ok (ec_retry_depth cfg) x ->
  exists k x' w', periodic_tick cfg my_gen since x w = Some (k, x', w') /\
    exporter_ok (ec_retry_depth cfg) x'.
Proof.
  intros Hi Hx. unfold periodic_tick, tick_end.
  destruct (sleep_loop_total (tick_fuel cfg) cfg my_gen 0 x w Hx) as (k & x1 & w1 & -> & H1).
  { unfold tick_fuel, SHUTDOWN_POLL_INTERVAL. rewrite Z2Nat.id by zdiv. zdiv. }
  cbn [mbind option_bind]. case_if; [eauto|]. case_if.
  - pose proof (graceful_ok cfg my_gen _ x1 w1 H1) as HA. step HA. eauto.
  - set (w2 := match control w1 with Some c => _ | None => w1 end). clearbody w2.
    assert (HA : exporter_ok (ec_retry_depth cfg) (fst (healthy_reset since x1 w2)))
      by (unfold healthy_reset; case_if; exact H1).
    step HA.
    assert (HB : exporter_ok (ec_retry_depth cfg) (fst (metrics_lane cfg x0 w0))).
    { unfold metrics_lane.
      match goal with |- context [let '(_, _) := ?t in _] =>
        assert (HB : exporter_ok (ec_retry_depth cfg) (fst t)) by (case_if; [auto with otel|exact HA]) end.
      step HB. do 2 (case_if; [exact HB|]). destruct (collect_all_sources _ _).
      case_if; [auto with otel|exact HB]. }
    step HB. eauto.
Qed.

(** C11 (termination). Every export interval ends, whatever the collector
    answers and whatever the other processes do: the wake-up loop needs at most
    one wake per 250 ms of the interval, and afterwards each of the three retry
    queues still holds at most [max 1 depth] batches.
    About: periodic_tick, tick_chunk, drain_retry_queue_once, send_fresh_batch, graceful_drain, SHUTDOWN_POLL_INTERVAL. *)
Theorem periodic_tick_total cfg my_gen since x w :
  0 <= ec_interval_ms cfg -> exporter_ok (ec_retry_depth cfg) x ->
  exists k x' w', periodic_tick cfg my_gen since x w = Some (k, x', w') /\
    forall l, queue_bounded (ec_retry_depth cfg) (lane_queue l x').
Proof.
  intros Hi Hx. destruct (tick_total cfg my_gen since x w Hi Hx) as (k & x' & w' & E & H1 & _). eauto.
Qed.

(** ** Abdication *)

(** Worlds reachable by waiting, sending, collecting metrics and writing the control page, without
    popping a ring or resetting a coalescer table. *)
Inductive quiet (w : W) : W -> Prop :=
  | quiet_refl : quiet w w
  | quiet_send l bytes budget w' : quiet w w' -> quiet w (snd (send l bytes budget w'))
  | quiet_sleep ms w' : quiet w w' -> quiet w (sleep ms w')
  | quiet_control c w' : quiet w w' -> quiet w (set_control c w')
  | quiet_collect c w' : quiet w w' -> quiet w (snd (collect_all_sources c w')).
#[local] Hint Constructors quiet : otel.

Lemma quiet_send_eq w l bytes budget w1 r w2 :
  quiet w w1 -> send l bytes budget w1 = (r, w2) -> quiet w w2.
Proof. intros Hq E. replace w2 with (snd (send l bytes budget w1)) by (rewrite E; reflexivity). auto with otel. Qed.

Lemma retry_loop_quiet l depth now w snapshot : forall failed q b c w1, quiet w w1 ->
  quiet w (snd (retry_loop l depth now snapshot failed q b c w1)).
Proof.
  induction snapshot as [|[bytes n] rest IH]; intros failed q b c w1 Hw; [exact Hw|].
  cbn [retry_loop]. destruct failed.
  { destruct (enqueue_with_eviction _ _ _ _ _) as [[r q2] c2]. auto. }
  destruct (send l bytes PERIODIC_SEND_BUDGET w1) as [r w2] eqn:Es.
  pose proof (quiet_send_eq _ _ _ _ _ _ _ Hw Es) as Hw2. destruct r as [o|e|].
  - destruct (apply_delivery_outcome _ _ _ _ _) as [[action b'] c']. destruct action; auto.
    destruct (enqueue_with_eviction _ _ _ _ _) as [[r q2] c2]. auto.
  - case_if; [auto|]. destruct (enqueue_with_eviction _ _ _ _ _) as [[r q2] c2]. auto.
  - destruct (enqueue_with_eviction _ _ _ _ _) as [[r q2] c2]. auto.
Qed.

(** A step keeps the latch and stays quiet. *)
Definition calm (w : W) (x : exporter) (r : exporter * W) : Prop :=
  quiet w (snd r) /\ periodic_abdicated (fst r) = periodic_abdicated x.

Lemma retry_calm l depth x w w1 : quiet w w1 -> calm w x (drain_retry_queue_once l depth x w1).
Proof.
  intros Hw. unfold calm, drain_retry_queue_once, drain_retry_queue_once_with_timer.
  pose proof (retry_loop_quiet l depth (ngx_current_msec w1) w (lane_queue l x) false []
    (lane_backoff l x) (stats x) w1 Hw) as Q.
  destruct (retry_loop _ _ _ _ _ _ _ _ _) as [[[q b] c] w2]. split; [exact Q|apply abdicated_set_lane].
Qed.

Lemma retry_unless_calm d l depth x w w1 : quiet w w1 -> calm w x (retry_unless d l depth x w1).
Proof. intros Hw. unfold retry_unless. destruct d; [split; auto|apply retry_calm; exact Hw]. Qed.

Lemma fresh_calm pd depth x w w1 : quiet w w1 -> calm w x (send_fresh_batch pd depth x w1).
Proof.
  intros Hw. unfold send_fresh_batch. case_if; [split; auto|].
  destruct (send _ _ _ w1) as [r w2] eqn:Es. pose proof (quiet_send_eq _ _ _ _ _ _ _ Hw Es) as Hw2.
  destruct r as [o|e|].
  - destruct (apply_fresh_send_outcome _ _ _ _ _ _ _ _ _) as [[[a b] q] c].
    split; [exact Hw2|apply abdicated_set_lane].
  - destruct (enqueue_with_eviction _ _ _ _ _) as [[r q2] c2]. split; [exact Hw2|apply abdicated_set_lane].
  - destruct (enqueue_with_eviction _ _ _ _ _) as [[r q2] c2]. split; [exact Hw2|apply abdicated_set_lane].
Qed.

Lemma tick_chunk_quiet cfg my_gen x w w1 : periodic_abdicated x = true -> quiet w w1 ->
  let '(_, x', w') := tick_chunk cfg my_gen x w1 in periodic_abdicated x' = true /\ quiet w w'.
Proof.
  intros Ha Hw. unfold tick_chunk, spans_chunk. do 2 (case_if; [auto|]). rewrite Ha. cbn [negb andb].
  pose proof (retry_unless_calm (is_deferred (bo_logs x) (ngx_current_msec w1)) LLogs
    (ec_retry_depth cfg) x w w1 Hw) as [Q1 A1].
  destruct (retry_unless _ _ _ _ _) as [x1 w2]. cbn [fst snd] in *. rewrite Ha in A1.
  case_if; [auto|]. rewrite A1. cbn [negb andb]. case_if; [auto|].
  pose proof (retry_unless_calm (is_deferred (bo_spans x1) (ngx_current_msec w1)) LSpans
    (ec_retry_depth cfg) x1 w w2 Q1) as [Q2 A2].
  destruct (retry_unless _ _ _ _ _) as [x2 w3]. cbn [fst snd] in *. rewrite A1 in A2.
  case_if; [auto|]. rewrite A2. cbn [negb andb]. auto.
Qed.

Lemma sleep_loop_quiet fuel cfg my_gen w : forall slept x w1 k x' w',
  periodic_abdicated x = true -> quiet w w1 ->
  sleep_loop fuel cfg my_gen slept x w1 = Some (k, x', w') -> periodic_abdicated x' = true /\ quiet w w'.
Proof.
  induction fuel as [|fuel IH]; intros slept x w1 k x' w' Ha Hw; cbn [sleep_loop].
  - case_if; [intros [= <- <- <-]; auto|discriminate].
  - case_if; [intros [= <- <- <-]; auto|].
    pose proof (tick_chunk_quiet cfg my_gen x w
      (sleep (Z.min (ec_interval_ms cfg - slept) SHUTDOWN_POLL_INTERVAL) w1) Ha
      ltac:(auto with otel)) as T.
    destruct (tick_chunk _ _ _ _) as [[k1 x1] w2]. destruct T as [T1 T2].
    destruct k1; [apply IH; assumption| |]; intros [= <- <- <-]; auto.
Qed.

Lemma flush_lane_quiet l x w w1 : quiet w w1 -> quiet w (snd (flush_lane l x w1)).
Proof.
  intros Hw. unfold flush_lane.
  assert (F : forall q c w1, quiet w w1 -> quiet w (snd (flush_queue l q c w1))).
  { clear. induction q as [|[bytes n] rest IH]; intros c w1 Hw; [exact Hw|]. cbn [flush_queue].
    destruct (send l bytes _ w1) as [r w2] eqn:Es. pose proof (quiet_send_eq _ _ _ _ _ _ _ Hw Es).
    destruct r; auto. }
  specialize (F (lane_queue l x) (stats x) w1 Hw). destruct (flush_queue _ _ _ _). exact F.
Qed.

Lemma send_final_quiet p pd w w1 : quiet w w1 -> quiet w (send_final p pd w1).
Proof. intros. unfold send_final. destruct (process p <$> pd); [case_if|]; auto with otel. Qed.

Lemma graceful_quiet cfg my_gen x w w1 : quiet w w1 -> successor_announced (control w1) my_gen = true ->
  quiet w (snd (graceful_drain cfg my_gen x w1)).
Proof.
  intros Hw Hs. unfold graceful_drain. rewrite Hs. cbn [negb andb].
  match goal with |- context [let '(_, _) := ?t in _] => assert (H1 : quiet w (snd t)) end.
  { case_if; [|exact Hw]. pose proof (flush_lane_quiet LMetrics x w w1 Hw) as F.
    destruct (flush_lane _ _ _) as [x2 w2]. cbn [snd] in F. apply (quiet_collect _ (stats x2)) in F.
    destruct (collect_all_sources (stats x2) w2) as [b w3]. apply send_final_quiet. exact F. }
  destruct (if ec_metrics_enabled cfg then _ else _) as [x2 w2]. cbn [snd] in H1.
  pose proof (flush_lane_quiet LLogs x2 w w2 H1) as F2. destruct (flush_lane LLogs x2 w2) as [x3 w3].
  pose proof (flush_lane_quiet LSpans x3 w w3 F2) as F3. destruct (flush_lane LSpans x3 w3) as [x4 w4].
  exact F3.
Qed.

Lemma metrics_lane_calm cfg x w w1 : quiet w w1 -> calm w x (metrics_lane cfg x w1).
Proof.
  intros Hw. unfold metrics_lane.
  match goal with |- context [let '(_, _) := ?t in _] => assert (H1 : calm w x t) end.
  { case_if; [apply retry_calm; exact Hw|split; auto]. }
  destruct (if _ && _ then _ else _) as [x1 w2]. destruct H1 as [Q1 A1]. cbn [fst snd] in *.
  do 2 (case_if; [split; auto|]). apply (quiet_collect _ (stats x1)) in Q1.
  destruct (collect_all_sources (stats x1) w2) as [b w3]. cbn [snd] in Q1. case_if; [|split; auto].
  destruct (fresh_calm (process (ec_processor cfg) (PMetrics b)) (ec_retry_depth cfg) x1 w w3 Q1) as [Q2 A2].
  split; [exact Q2|congruence].
Qed.

(** An interval of an exporter that has handed over. *)
Lemma tick_quiet cfg my_gen since x w w1 k x' w' : periodic_abdicated x = true -> quiet w w1 ->
  periodic_tick cfg my_gen since x w1 = Some (k, x', w') ->
  match k with
  | SkExiting => exists x2 w2, periodic_abdicated x2 = true /\ quiet w w2 /\ graceful_drain cfg my_gen x2 w2 = (x', w')
  | _ => periodic_abdicated x' = true /\ quiet w w'
  end.
Proof.
  intros Ha Hq. unfold periodic_tick, tick_end.
  destruct (sleep_loop (tick_fuel cfg) cfg my_gen 0 x w1) as [[[k1 x1] w2]|] eqn:El; [|discriminate].
  destruct (sleep_loop_quiet _ _ _ w _ _ _ _ _ _ Ha Hq El) as [A1 Q1].
  cbn [mbind option_bind]. case_if; [intros [= <- <- <-]; auto|]. case_if.
  { destruct (graceful_drain cfg my_gen x1 w2) as [x3 w3] eqn:Eg. intros [= <- <- <-]. eauto. }
  set (w3 := match control w2 with Some c => _ | None => w2 end).
  assert (Q2 : quiet w w3) by (subst w3; destruct (control w2); auto with otel). clearbody w3.
  assert (HR : calm w x1 (healthy_reset since x1 w3)).
  { unfold healthy_reset. case_if; [|split; auto]. split; [|reflexivity]. cbn [snd].
    destruct (control w3); auto with otel. }
  destruct (healthy_reset since x1 w3) as [x2 w4]. destruct HR as [Q3 A3]. cbn [fst snd] in *.
  destruct (metrics_lane_calm cfg x2 w w4 Q3) as [Q4 A4].
  destruct (metrics_lane cfg x2 w4) as [x3 w5]. intros [= <- <- <-]. cbn [fst snd] in *.
  split; [congruence|exact Q4].
Qed.

Lemma iterations_quiet fuel cfg my_gen since w : forall x w1 e x' w', periodic_abdicated x = true -> quiet w w1 ->
  export_iterations fuel cfg my_gen since x w1 = Some (e, x', w') ->
  match e with
  | Drained => exists x2 w2, periodic_abdicated x2 = true /\ quiet w w2 /\ graceful_drain cfg my_gen x2 w2 = (x', w')
  | _ => periodic_abdicated x' = true /\ quiet w w'
  end.
Proof.
  induction fuel as [|fuel IH]; intros x w1 e x' w' Ha Hq; cbn [export_iterations]; (case_if; [intros [= <- <- <-]; auto|]);
    (case_if; [destruct (graceful_drain cfg my_gen x w1) as [x2 w2] eqn:Eg; intros [= <- <- <-]; eauto|]); [intros [= <- <- <-]; auto|].
  destruct (periodic_tick cfg my_gen since x w1) as [[[k x1] w2]|] eqn:Et; [|discriminate]. cbn [mbind option_bind].
  apply (tick_quiet _ _ _ _ w) in Et; [|assumption..]. destruct k; [destruct Et; apply IH; assumption|intros [= <- <- <-]; exact Et..].
Qed.

(** C12 (safety). An exporter that has seen its successor leaves the rings alone.  A wake that finds a successor announced, and neither a quit nor a termination, sets the latch and pops
    nothing.  Once the latch is set, the exporter pops no ring and resets no coalescer table for any number of intervals, and the latch stays set, whatever
    happens to the announcement meanwhile, a roll-back included.  If a quit ends the run, all that can follow is one final drain; the final drain too leaves the rings alone if a successor
    is announced when it starts.
    About: export_iterations, periodic_tick, tick_chunk, spans_chunk, graceful_drain, successor_announced. *)
Theorem abdicated_exporter_never_pops fuel cfg my_gen since x w :
  (successor_announced (control w) my_gen = true -> ngx_quit w = false -> ngx_terminate w = false ->
     let '(_, x', w') := tick_chunk cfg my_gen x w in periodic_abdicated x' = true /\ quiet w w') /\
  (forall e x' w', periodic_abdicated x = true -> export_iterations fuel cfg my_gen since x w = Some (e, x', w') ->
     match e with
     | Drained => exists x2 w2, periodic_abdicated x2 = true /\ quiet w w2 /\ graceful_drain cfg my_gen x2 w2 = (x', w') /\
                    (successor_announced (control w2) my_gen = true -> quiet w w')
     | _ => periodic_abdicated x' = true /\ quiet w w'
     end) /\
  (successor_announced (control w) my_gen = true -> quiet w (snd (graceful_drain cfg my_gen x w))).
Proof.
  split_and!.
  - intros Hs Hn Ht. set (x0 := set_abdicated true x).
    assert (E : tick_chunk cfg my_gen x w = tick_chunk cfg my_gen (if periodic_abdicated x then x else x0) w).
    { destruct (periodic_abdicated x) eqn:Ea; [reflexivity|]. unfold tick_chunk. rewrite Hn, Ht, Hs, Ea. reflexivity. }
    rewrite E. apply tick_chunk_quiet; [destruct (periodic_abdicated x) eqn:Ea; [exact Ea|reflexivity]|constructor].
  - intros e x' w' Ha Er. apply (iterations_quiet _ _ _ _ w) in Er; [|assumption|constructor]. destruct e; [exact Er| |exact Er].
    destruct Er as (x2 & w2 & A2 & Q2 & Eg). exists x2, w2. split_and!; [assumption..|].
    intros Hs. pose proof (graceful_quiet cfg my_gen x2 w w2 Q2 Hs) as G. rewrite Eg in G. exact G.
  - intros Hs. apply graceful_quiet; auto with otel.
Qed.
End export.

(** ** A scripted world

    The collector answers from a script, every send takes 10 ms, the quit flag
    is raised at a given time, and other processes are idle. *)
Record script := mk_script {
  sc_msec : Z;
  sc_replies : list send_result;
  sc_sent : list (lane * list Z);
  sc_quit_at : Z;
  sc_control : option control_shm;
  sc_logs : option (list worker_zone);
  sc_spans : option (list ring)
}.

#[export] Instance script_world : World script := {
  ngx_current_msec := sc_msec;
  now_unix_nano := fun w => sc_msec w * 1000000;
  ngx_quit := fun w => sc_quit_at w <=? sc_msec w;
  ngx_terminate := fun _ => false;
  control := sc_control;
  set_control := fun c w => mk_script (sc_msec w) (sc_replies w) (sc_sent w) (sc_quit_at w) (Some c)
                              (sc_logs w) (sc_spans w);
  logs_zone := sc_logs;
  set_logs_zone := fun z w => mk_script (sc_msec w) (sc_replies w) (sc_sent w) (sc_quit_at w)
                                (sc_control w) (Some z) (sc_spans w);
  spans_zone := sc_spans;
  set_spans_zone := fun z w => mk_script (sc_msec w) (sc_replies w) (sc_sent w) (sc_quit_at w)
                                 (sc_control w) (sc_logs w) (Some z);
  collect_all_sources := fun _ w => (mk_batch (mk_resource []) batch_scope [], w);
  send := fun l bytes _ w =>
    (match sc_replies w with r :: _ => r | [] => SOk Accepted end,
     mk_script (sc_msec w + 10) (drop 1 (sc_replies w)) (sc_sent w ++ [(l, bytes)]) (sc_quit_at w)
       (sc_control w) (sc_logs w) (sc_spans w));
  sleep := fun ms w => mk_script (sc_msec w + ms) (sc_replies w) (sc_sent w) (sc_quit_at w)
                         (sc_control w) (sc_logs w) (sc_spans w)
}.

Definition sample_config : export_config :=
  mk_export_config (mk_resource_config [] [] 1) true true true 4 1000 1 1 1 (Noop NoopProcessor).
Definition sample_encode (pd : pdata) : list Z := [count_pdata_records pd].
Definition idle_world (replies : list send_result) : script :=
  mk_script 1000 replies [] 100000 (Some (mk_control 0 0 0 0 1 0))
    (Some [mk_zone (fresh_ring 64) (fresh_ring 64) empty_table]) (Some [fresh_ring 64]).
Definition queued_logs : exporter :=
  set_lane LLogs [([1], 5); ([2], 6); ([3], 7); ([4], 8)] backoff_default zero_counters initial_exporter.

Lemma queued_logs_ok : exporter_ok 4 queued_logs.
Proof. split; [intros []; unfold queue_bounded; cbn; lia|unfold stats_ok, in_u; cbn; lia]. Qed.

(** The collector accepts the first batch, rejects the second for good and then fails. *)
Lemma retry_pass_exact_witness :
  let w := idle_world [SOk Accepted; SOk Permanent; SErr Connection] in
  lane_queue LLogs (fst (drain_retry_queue_once LLogs 4 queued_logs w)) = [([3], 7); ([4], 8)] /\
  DROPPED_RECORDS (stats (fst (drain_retry_queue_once LLogs 4 queued_logs w))) = 0.
Proof.
  intros w. split; [vm_compute; reflexivity|].
  pose proof (retry_pass_exact LLogs 4 queued_logs w (proj1 queued_logs_ok LLogs) (proj2 queued_logs_ok)) as T.
  destruct (drain_retry_queue_once LLogs 4 queued_logs w). exact (proj1 T).
Defined.

Definition log_batch (n : nat) : pdata :=
  PLogs (mk_logs_batch (mk_resource []) batch_scope (replicate n (orphan_record 0 1 4 1))).

(** A full queue: the oldest batch makes room for the timed-out one. *)
Lemma fresh_batch_exact_witness :
  let x' := fst (send_fresh_batch sample_encode (log_batch 3) 4 queued_logs (idle_world [SDeadline])) in
  lane_queue LLogs x' = [([2], 6); ([3], 7); ([4], 8); ([3], 3)] /\ DROPPED_RECORDS (stats x') = 5.
Proof.
  pose proof (fresh_batch_exact sample_encode (log_batch 3) 4 queued_logs (idle_world [SDeadline])
    (proj1 queued_logs_ok LLogs) (proj2 queued_logs_ok)) as T.
  destruct (send_fresh_batch sample_encode (log_batch 3) 4 queued_logs (idle_world [SDeadline])) as [x' w'].
  cbn [fst]. change (count_pdata_records (log_batch 3) =? 0) with false in T. cbv iota in T.
  change (pdata_lane (log_batch 3)) with LLogs in T.
  destruct T as (r & Es & T). injection Es as <- _. destruct T as [-> ->].
  vm_compute. auto.
Defined.

(** The second attempt times out: the records of the two batches behind are
    credited, the six of the failed batch are not. *)
Lemma flush_accounting_witness :
  let x' := fst (flush_lane LLogs queued_logs (idle_world [SOk Accepted; SDeadline])) in
  lane_queue LLogs x' = [] /\ DROPPED_RECORDS (stats x') = 15.
Proof.
  pose proof (flush_accounting LLogs queued_logs (idle_world [SOk Accepted; SDeadline]) (proj2 queued_logs_ok)) as T.
  cbv zeta. split; [|vm_compute; reflexivity].
  destruct (flush_lane LLogs queued_logs (idle_world [SOk Accepted; SDeadline])) as [x' w'].
  exact (proj1 T).
Defined.

Lemma periodic_tick_total_witness :
  exists k x' w', periodic_tick sample_encode sample_config 1 0 queued_logs (idle_world []) = Some (k, x', w') /\
    forall l, queue_bounded 4 (lane_queue l x').
Proof.
  exact (periodic_tick_total sample_encode sample_config 1 0 queued_logs (idle_world []) ltac:(cbn; lia)
    queued_logs_ok).
Defined.

(** Generation 0 finds generation 1 announced: its queue is flushed and the rings are left alone. *)
Lemma abdicated_exporter_never_pops_witness : exists x2 w2,
  quiet (idle_world []) w2 /\
  (let '(x', w') := graceful_drain sample_encode sample_config 0 x2 w2 in
   export_iterations sample_encode 200 sample_config 0 0 (set_abdicated true queued_logs) (idle_world []) = Some (Drained, x', w') /\
   (successor_announced (control w2) 0 = true -> quiet (idle_world []) w')) /\
  sc_spans (snd (graceful_drain sample_encode sample_config 0 x2 w2)) = Some [fresh_ring 64].
Proof.
  assert (E : exists x' w', export_iterations sample_encode 200 sample_config 0 0 (set_abdicated true queued_logs) (idle_world []) = Some (Drained, x', w') /\
    sc_spans w' = Some [fresh_ring 64]).
  { destruct (export_iterations sample_encode 200 sample_config 0 0 (set_abdicated true queued_logs) (idle_world [])) as [[[e x'] w']|] eqn:E;
      assert (C : (fun '(e, _, w') => (e, sc_spans w')) <$> export_iterations sample_encode 200 sample_config 0 0 (set_abdicated true queued_logs) (idle_world []) =
        Some (Drained, Some [fresh_ring 64])) by (vm_compute; reflexivity); rewrite E in C; [|discriminate]. injection C as -> C. eauto. }
  destruct E as (x' & w' & E & Es).
  destruct (proj1 (proj2 (abdicated_exporter_never_pops sample_encode 200 sample_config 0 0 (set_abdicated true queued_logs) (idle_world [])))
    Drained x' w' eq_refl E) as (x2 & w2 & _ & Q2 & Eg & Hs). exists x2, w2. rewrite Eg. auto.
Defined.
