(* ===== verification/Sources.v ===== *)
(** * The metric batch (src/src/drain/mod.rs, src/src/drain/self_metrics.rs, src/src/metric_source/)

    The exporter's own counters, nginx's connection counters, the error-log
    rate and the certificate gauges, and [collect_all_sources], which puts
    them together with the request metrics of Aggregate into one batch. *)
From S2P Require Import Prelude Ring Histogram DataModel StdText Producer AccessLog Traceparent Slots SpanRecord.
From S2P Require Import Coalesce ErrorLog Collect Backoff ShmLayout CertTable Endpoint Config Control Finalize.
From S2P Require Import Location SpanStart Request Aggregate Encoder.

(** ** Single-point metrics *)

(** [src/src/drain/mod.rs: monotonic_sum_metric] *)
Definition monotonic_sum_metric (name desc unit : list Z) (value start now : Z) : metric :=
  mk_metric name desc unit (MSum TCumulative true [mk_ndp [] start now (AsInt value)]).

(** [src/src/drain/mod.rs: gauge_metric] *)
Definition gauge_metric (name desc unit : list Z) (value now : Z) : metric :=
  mk_metric name desc unit (MGauge [mk_ndp [] 0 now (AsInt value)]).

(** [i64::try_from(v).unwrap_or(i64::MAX)].
    [src/src/drain/self_metrics.rs: counter_to_i64] *)
Definition counter_to_i64 (v : Z) : Z := if v <=? i64_max then v else i64_max.

(** [src/src/drain/mod.rs: collector_cert_gauge] *)
Definition collector_cert_gauge (not_after now : Z) (server_address : list Z) : metric :=
  mk_metric $"ngx_otel.tls.collector_cert.not_after"
    $"Collector TLS certificate notAfter (Unix epoch seconds), captured post-handshake; absent before the first TLS handshake and on plaintext (http://) endpoints"
    $"s" (MGauge [mk_ndp [KV $"server.address" (VString server_address)] 0 now (AsInt not_after)]).

(** ** nginx's counters *)

(** The seven [ngx_stat_*] words.
    [src/src/metric_source/stub_status.rs: read_stats] *)
Record ngx_stats := mk_stats {
  st_accepted : Z; st_handled : Z; st_requests : Z; st_active : Z; st_reading : Z; st_writing : Z; st_waiting : Z
}.

(** [src/src/metric_source/stub_status.rs: gauge_metric] *)
Definition stub_gauge_metric (name desc unit : list Z) (value now : Z) : metric :=
  mk_metric name desc unit (MGauge [mk_ndp [] 0 now (AsInt (as_i64 value))]).

(** [src/src/metric_source/stub_status.rs: StubStatusSource::collect] *)
Definition stub_collect (s : ngx_stats) (start now : Z) : list metric :=
  [monotonic_sum_metric $"nginx.connections.accepted" $"Total accepted connections" $"{connection}" (as_i64 (st_accepted s)) start now;
   monotonic_sum_metric $"nginx.connections.handled" $"Total handled connections" $"{connection}" (as_i64 (st_handled s)) start now;
   monotonic_sum_metric $"nginx.requests.total" $"Total HTTP requests processed" $"{request}" (as_i64 (st_requests s)) start now;
   stub_gauge_metric $"nginx.connections.active" $"Active connections (reading + writing + waiting)" $"{connection}" (st_active s) now;
   stub_gauge_metric $"nginx.connections.reading" $"Connections reading request headers" $"{connection}" (st_reading s) now;
   stub_gauge_metric $"nginx.connections.writing" $"Connections writing responses" $"{connection}" (st_writing s) now;
   stub_gauge_metric $"nginx.connections.waiting" $"Idle keep-alive connections" $"{connection}" (st_waiting s) now].

(** ** The exporter's counters *)

(** The counters of Backoff and two more statics. *)
Record self_stats := mk_self {
  ss_counters : counters;
  BIDI_BACKPRESSURE_DROPS : Z;
  EXPORTER_RESTARTS : Z
}.

(** [src/src/drain/self_metrics.rs: SelfMetricsSource::collect] *)
Definition self_collect (s : self_stats) (interval_ms start now : Z) : list metric :=
  let c := ss_counters s in
  let sum name desc unit v := monotonic_sum_metric name desc unit (counter_to_i64 v) start now in
  [sum $"ngx_otel.dropped_records"
     $"Records from any signal (metrics, logs, spans) dropped because the per-signal retry buffer was full or a drain-abort discarded queued batches"
     $"{record}" (DROPPED_RECORDS c);
   sum $"ngx_otel.send_failures" $"Cumulative export send failures since worker startup" $"{failure}" (SEND_FAILURES c);
   sum $"ngx_otel.bidi_backpressure_drops" $"Bidi outbound messages dropped due to channel backpressure" $"{message}" (BIDI_BACKPRESSURE_DROPS s);
   sum $"ngx_otel.logs.access.dropped_records" $"Access log records dropped because the per-worker ring was full" $"{record}" (ACCESS_LOGS_DROPPED c);
   sum $"ngx_otel.logs.error.dropped_records" $"Error log records dropped because the per-worker ring was full" $"{record}" (ERROR_LOGS_DROPPED c);
   sum $"ngx_otel.logs.error.coalesced_orphaned_records"
     $"Error log coalesced-count occurrences orphaned because the verbatim ring sample was dropped (ring full); a synthetic record is emitted per orphaned slot so backends still receive the occurrence count"
     $"{record}" (ERROR_LOGS_COALESCED_ORPHANED c);
   sum $"ngx_otel.logs.send_failures" $"Cumulative logs transport send failures since exporter startup" $"{failure}" (LOGS_SEND_FAILURES c);
   sum $"ngx_otel.traces.dropped_records" $"Span records dropped because the per-worker spans ring was full" $"{record}" (TRACES_DROPPED_RECORDS c);
   gauge_metric $"ngx_otel.export_interval" $"Configured metric export interval" $"s" (counter_to_i64 (interval_ms / 1000)) now;
   gauge_metric $"ngx_otel.exporter.restarts"
     $"Prior exporter crashes in the current crash-loop window at this process start (0 = clean start; nginx request handling is never affected by the exporter crash-loop state)"
     $"{crash}" (counter_to_i64 (EXPORTER_RESTARTS s)) now;
   sum $"ngx_otel.delivery.permanent_rejected"
     $"Batches the peer rejected as permanently unacceptable (e.g. HTTP 400/413, gRPC INVALID_ARGUMENT/INTERNAL/UNIMPLEMENTED); dropped and never retried"
     $"{batch}" (PERMANENT_REJECTED c);
   sum $"ngx_otel.delivery.partial_rejected"
     $"Individual records the peer reported it dropped on an otherwise-accepted batch (OTLP partial_success / gRPC partial-success body); the batch is released, only the reported rejected count is accumulated here"
     $"{record}" (PARTIAL_REJECTED c);
   sum $"ngx_otel.delivery.unauthorized"
     $"Batches dropped because the peer reported an authentication or authorization failure (HTTP 401/403, gRPC UNAUTHENTICATED/PERMISSION_DENIED); same drop policy as permanent_rejected (no retry, no backoff, no auto-pause) but kept in a distinct counter for observability — a non-zero value indicates a credential or permission problem on the exporter endpoint"
     $"{batch}" (UNAUTHORIZED_REJECTED c)].

(** ** Error-log rates *)

(** [src/src/shm/mod.rs: SEVERITY_CLASS_NAMES] *)
Definition SEVERITY_CLASS_NAMES : list (list Z) := [$"fatal"; $"error"; $"warn"; $"info"; $"debug"].

(** [i64::saturating_add]. *)
Definition sat_add_i64 (a b : Z) : Z := Z.max (- i64_max - 1) (Z.min i64_max (a + b)).

(** One worker's counters added to the totals.
    [src/src/drain/mod.rs: 2296-2298 collect_error_rate_metric] *)
Definition add_rates (totals rates : list Z) : list Z :=
  zip_with (fun t n => sat_add_i64 t (counter_to_i64 n)) totals rates.

(** [src/src/drain/mod.rs: collect_error_rate_metric] *)
Definition collect_error_rate_metric (blocks : list worker_slots) (start now : Z) : metric :=
  let totals := foldl add_rates (replicate N_SEVERITY_CLASSES 0) (map error_rate_counters blocks) in
  mk_metric $"ngx_otel.error_log.events" $"Error log events counted by severity class" $"{error}"
    (MSum TCumulative true
       (zip_with (fun name t => mk_ndp [KV $"severity_class" (VString name)] start now (AsInt t)) SEVERITY_CLASS_NAMES totals)).

(** ** The batch *)

(** What a collection reads: whether nginx has the stub_status counters, the
    counters themselves, the clock at each reading, the metrics zone's blocks, and the collector's
    certificate ([0]: none seen). *)
Record source_env := mk_senv {
  se_stat_stub : bool;
  se_stats : ngx_stats;
  se_self : self_stats;
  se_now : Z -> Z;
  se_now_secs : Z;
  se_blocks : list worker_slots;
  se_collector_not_after : Z;
  se_master_pid : Z
}.

Section sources.
(** [size_of::<ngx_slab_pool_t>()] *)
Context (data_offset : Z).

(** The blocks of the zone that are read.
    [src/src/drain/mod.rs: 1571-1577 collect_all_sources] *)
Definition metrics_n_workers (c : main_config) : Z :=
  match mc_shm_zone c with Some z => Z.max 1 (sat_sub (z_size z) data_offset / slots_size) | None => 0 end.

(** The batch, and the zone afterwards.
    [src/src/drain/mod.rs: collect_all_sources] *)
Definition collect_all_sources (c : main_config) (e : source_env) (worker_start_ns : Z) (collector_host : list Z)
    : batch * list worker_slots :=
  let stub := if se_stat_stub e then stub_collect (se_stats e) worker_start_ns (se_now e 0) else [] in
  let n := Z.to_nat (metrics_n_workers c) in
  let '(instrumented, blocks) :=
    match shm_base data_offset c with
    | Some _ =>
        let '(ms, done) := instrumented_collect (status_code_class_enabled c) (Some c) worker_start_ns (se_now e 1) (take n (se_blocks e)) in
        (ms, done ++ drop n (se_blocks e))
    | None => ([], se_blocks e)
    end in
  let self := self_collect (se_self e) (interval_ms c) worker_start_ns (se_now e 2) in
  let rates :=
    if mc_error_log_enabled c then
      match shm_base data_offset c with
      | Some _ => [collect_error_rate_metric (take n blocks) worker_start_ns (se_now e 3)]
      | None => []
      end
    else [] in
  let certs := cert_collect_at (mc_cert_table c) (as_i64 (se_now_secs e)) (se_now e 4) in
  let collector :=
    if se_collector_not_after e =? 0 then []
    else [collector_cert_gauge (se_collector_not_after e) (se_now e 5) collector_host] in
  (mk_batch (mk_resource (build_resource_attrs (mk_resource_config (mc_service_name c) (mc_resource_attrs c) (se_master_pid e))))
     batch_scope (stub ++ instrumented ++ self ++ rates ++ certs ++ collector), blocks).
End sources.

(** ** Every batch is well formed *)

Definition int_in (lo hi : Z) (v : number_value) : Prop := match v with AsInt i => lo <= i <= hi | AsDouble _ => False end.

(** The protocol's rules for the kinds of metric that are exported. *)
Definition metric_wf (start : Z) (m : metric) : Prop :=
  m_name m <> [] /\
  match m_data m with
  | MSum t monotonic pts =>
      t = TCumulative /\ monotonic = true /\ pts <> [] /\ Forall (fun p => int_in 0 i64_max (ndp_value p) /\ ndp_start p = start) pts
  | MGauge pts => pts <> [] /\ Forall (fun p => int_in (- i64_max - 1) i64_max (ndp_value p)) pts
  | MHistogram t pts => t = TCumulative /\ pts <> [] /\ Forall (fun p => is_Some (convert_hdp p) /\ hdp_start p = start) pts
  | MExponentialHistogram t pts =>
      t = TCumulative /\
      Forall (fun p => length (edp_positive_bucket_counts p) = 192%nat /\ edp_scale p = 3 /\ edp_positive_offset p = -160 /\
                       edp_start p = start) pts
  end.

Lemma counter_to_i64_range v : 0 <= v -> 0 <= counter_to_i64 v <= i64_max.
Proof. intros. unfold counter_to_i64. case_if; unfold i64_max in *; lia. Qed.

Lemma as_i64_range v : in_u 64 v -> - i64_max - 1 <= as_i64 v <= i64_max.
Proof. unfold in_u, as_i64, i64_max. intros. case_if; unfold i64_max in *; lia. Qed.

Lemma sum_wf name desc unit v start now : name <> [] -> 0 <= v <= i64_max -> metric_wf start (monotonic_sum_metric name desc unit v start now).
Proof. intros Hn Hv. split; [exact Hn|]. cbn. split_and!; try reflexivity; [discriminate|]. constructor; [|constructor]. cbn. auto. Qed.

Lemma gauge_wf name desc unit v start now : name <> [] -> - i64_max - 1 <= v <= i64_max -> metric_wf start (gauge_metric name desc unit v now).
Proof. intros Hn Hv. split; [exact Hn|]. cbn. split; [discriminate|]. constructor; [|constructor]. exact Hv. Qed.

(** The counters are machine words, and nginx has not counted [2^63] connections. *)
Record env_wf (e : source_env) : Prop := {
  ew_sums : Forall (fun v => 0 <= v <= i64_max) [st_accepted (se_stats e); st_handled (se_stats e); st_requests (se_stats e)];
  ew_gauges : Forall (in_u 64) [st_active (se_stats e); st_reading (se_stats e); st_writing (se_stats e); st_waiting (se_stats e)];
  ew_self : let c := ss_counters (se_self e) in
    Forall (fun v => 0 <= v) [DROPPED_RECORDS c; SEND_FAILURES c; BIDI_BACKPRESSURE_DROPS (se_self e); ACCESS_LOGS_DROPPED c;
      ERROR_LOGS_DROPPED c; ERROR_LOGS_COALESCED_ORPHANED c; LOGS_SEND_FAILURES c; TRACES_DROPPED_RECORDS c;
      EXPORTER_RESTARTS (se_self e); PERMANENT_REJECTED c; PARTIAL_REJECTED c; UNAUTHORIZED_REJECTED c];
  ew_rates : Forall (fun s => length (error_rate_counters s) = N_SEVERITY_CLASSES /\ Forall (fun v => 0 <= v) (error_rate_counters s)) (se_blocks e);
  ew_collector : - i64_max - 1 <= se_collector_not_after e <= i64_max
}.

(** Certificate dates and the clock are far from the ends of [i64]. *)
Definition dates_wf (now_secs : Z) (certs : list cert_info) : Prop :=
  0 <= now_secs <= 2 ^ 61 /\
  Forall (fun x => - 2 ^ 61 <= ci_not_after_unix x <= 2 ^ 61 /\ - 2 ^ 61 <= ci_not_before_unix x <= 2 ^ 61) certs.

(** Discharge the range hypotheses of a list of single-point metrics. *)
Ltac each_metric tac := repeat (apply Forall_cons_iff; split; [tac|]); try apply Forall_nil_2.

Lemma stub_wf e start now : env_wf e -> Forall (metric_wf start) (stub_collect (se_stats e) start now).
Proof.
  intros []. rewrite !Forall_cons_iff in ew_sums0. rewrite !Forall_cons_iff in ew_gauges0. destruct ew_sums0 as (A1 & A2 & A3 & _), ew_gauges0 as (G1 & G2 & G3 & G4 & _).
  assert (Has : forall v, 0 <= v <= i64_max -> 0 <= as_i64 v <= i64_max) by (intros v Hv; unfold as_i64; case_if; lia).
  unfold stub_collect. each_metric ltac:(first [apply sum_wf; [discriminate|auto] | apply (gauge_wf _ _ _ (as_i64 _)); [discriminate|apply as_i64_range; assumption]]).
Qed.

Lemma self_wf e interval start now : env_wf e -> 0 <= interval -> Forall (metric_wf start) (self_collect (se_self e) interval start now).
Proof.
  intros [] Hi. cbv zeta in ew_self0. rewrite !Forall_cons_iff in ew_self0. destruct_and? ew_self0.
  assert (Hg : forall v, 0 <= v -> - i64_max - 1 <= counter_to_i64 v <= i64_max).
  { intros v Hv. pose proof (counter_to_i64_range v Hv). unfold i64_max in *. lia. }
  unfold self_collect. cbv zeta.
  each_metric ltac:(first [apply sum_wf; [discriminate|apply counter_to_i64_range; assumption]
    | apply gauge_wf; [discriminate|apply Hg; first [assumption|apply Z.div_pos; lia]]]).
Qed.

Lemma cert_wf certs now_secs now start : dates_wf now_secs certs -> Forall (metric_wf start) (cert_collect_at certs (as_i64 now_secs) now).
Proof.
  intros [Hn Hc]. unfold cert_collect_at. destruct certs as [|c0 certs]; [constructor|]. set (l := c0 :: certs) in *.
  assert (Hp : forall f, (forall x, - 2 ^ 61 <= ci_not_after_unix x <= 2 ^ 61 /\ - 2 ^ 61 <= ci_not_before_unix x <= 2 ^ 61 ->
    - i64_max - 1 <= f x <= i64_max) -> forall name desc, name <> [] -> metric_wf start (cert_gauge name desc (cert_points l now f))).
  { intros f Hf name desc Hne. split; [exact Hne|]. cbn [cert_gauge m_data]. split; [discriminate|].
    unfold cert_points. apply Forall_map. eapply Forall_impl; [|exact Hc]. intros x Hx. apply Hf, Hx. }
  assert (Hs : as_i64 now_secs = now_secs) by (unfold as_i64; rewrite (proj2 (Z.leb_le _ _)) by (unfold i64_max; lia); reflexivity).
  rewrite Hs. each_metric ltac:(apply Hp; [intros x Hx; cbv beta; unfold i64_max; lia|discriminate]).
Qed.

Lemma rates_wf blocks start now : Forall (fun s => length (error_rate_counters s) = N_SEVERITY_CLASSES /\ Forall (fun v => 0 <= v) (error_rate_counters s)) blocks ->
  metric_wf start (collect_error_rate_metric blocks start now).
Proof.
  intros Hb. split; [discriminate|]. cbn [collect_error_rate_metric m_data]. split_and!; try reflexivity.
  - intros E. apply (f_equal length) in E. rewrite length_zip_with in E.
    assert (Hl : length (foldl add_rates (replicate N_SEVERITY_CLASSES 0) (map error_rate_counters blocks)) = N_SEVERITY_CLASSES).
    { clear E. assert (Hg : forall acc, length acc = N_SEVERITY_CLASSES -> length (foldl add_rates acc (map error_rate_counters blocks)) = N_SEVERITY_CLASSES);
        [|apply Hg; reflexivity].
      induction Hb as [|s blocks [Hs _] _ IH]; intros acc Ha; cbn; [exact Ha|]. apply IH. unfold add_rates. rewrite length_zip_with, Ha, Hs. reflexivity. }
    rewrite Hl in E. discriminate.
  - set (totals := foldl _ _ _). assert (Ht : Forall (fun t => 0 <= t <= i64_max) totals).
    { unfold totals. assert (Hg : forall acc, Forall (fun t => 0 <= t <= i64_max) acc -> Forall (fun t => 0 <= t <= i64_max)
        (foldl add_rates acc (map error_rate_counters blocks))); [|apply Hg, Forall_replicate; unfold i64_max; lia].
      induction Hb as [|s blocks [_ Hs] _ IH]; intros acc Ha; cbn; [exact Ha|]. apply IH. unfold add_rates.
      clear -Ha Hs. revert Hs. generalize (error_rate_counters s). induction Ha as [|t acc Ht _ IHa]; intros [|v vs] Hs; cbn; constructor.
      - apply Forall_cons_iff in Hs as [Hv _]. pose proof (counter_to_i64_range v Hv). unfold sat_add_i64. lia.
      - apply IHa. apply Forall_cons_iff in Hs as [_ Hs]. exact Hs. }
    clearbody totals. generalize SEVERITY_CLASS_NAMES. revert totals Ht.
    induction totals as [|t totals IH]; intros Ht [|n names]; cbn; constructor.
    + apply Forall_cons_iff in Ht as [Ht _]. cbn. auto.
    + apply IH. apply Forall_cons_iff in Ht as [_ Ht]. exact Ht.
Qed.

(** *** The request metrics, whatever the blocks hold *)

Definition exp_shape (x : exp_agg) : Prop := length (fst (fst (fst x))) = 192%nat.
Definition hist_shape (n : Z) (x : hist_agg) : Prop := length (fst (fst x)) = Z.to_nat n.
Definition agg_shape (a : worker_agg) : Prop :=
  Forall exp_shape (combo_agg a) /\ Forall exp_shape (route_agg a) /\ Forall exp_shape (upstream_agg a) /\
  (hist_shape N_BYTES_BUCKETS (req_bytes a) /\ hist_shape N_BYTES_BUCKETS (resp_bytes a) /\
   hist_shape N_BYTES_BUCKETS (up_bytes a) /\ hist_shape N_BYTES_BUCKETS (up_bytes_sent a)) /\
  hist_shape N_DURATION_BUCKETS (up_resp a) /\ hist_shape N_DURATION_BUCKETS (up_hdr a) /\ hist_shape N_DURATION_BUCKETS (up_conn a).

Lemma length_add_counts a b : length (add_counts a b) = length a.
Proof. revert b. induction a as [|x a IH]; intros [|y b]; cbn; auto. Qed.

Lemma add_exp_shape x y : exp_shape x -> exp_shape (add_exp x y).
Proof. unfold exp_shape. destruct x as [[[b z] s] n], y as [[[b' z'] s'] n']. cbn. rewrite length_add_counts. auto. Qed.

Lemma add_histogram_shape n x y : hist_shape n x -> hist_shape n (add_histogram x y).
Proof. unfold hist_shape. destruct x as [[b s] k], y as [[b' s'] k']. cbn. rewrite length_add_counts. auto. Qed.

Lemma add_block_shape a s : agg_shape a -> agg_shape (add_block a s).
Proof.
  intros (H1 & H2 & H3 & (H4 & H5 & H6 & H7) & H8 & H9 & H10).
  assert (Hz : forall (l : list exp_agg) (hs : list exp_slot), Forall exp_shape l -> Forall exp_shape (zip_with (fun x h => add_exp x (exp_snapshot h)) l hs)).
  { intros l hs Hl. revert hs. induction Hl as [|x l Hx _ IH]; intros [|h hs]; cbn; constructor; auto. apply add_exp_shape, Hx. }
  unfold agg_shape, add_block. cbn. split_and!; auto using add_histogram_shape.
Qed.

Lemma aggregate_shape blocks : agg_shape (foldl add_block agg_zero blocks).
Proof.
  induction blocks as [|s blocks IH] using rev_ind.
  - unfold agg_shape, agg_zero. cbn. split_and!; try reflexivity; apply Forall_replicate; reflexivity.
  - rewrite foldl_app. cbn. apply add_block_shape, IH.
Qed.

Lemma make_exp_dp_wf x attrs exs start now p : exp_shape x -> make_exp_dp x attrs exs start now = Some p ->
  length (edp_positive_bucket_counts p) = 192%nat /\ edp_scale p = 3 /\ edp_positive_offset p = -160 /\ edp_start p = start.
Proof. intros Hx. destruct x as [[[b z] s] n]. cbn. case_if; [discriminate|]. intros [= <-]. cbn. auto. Qed.

Lemma nth_shape l i : Forall exp_shape l -> exp_shape (nth i l exp_none).
Proof.
  intros H. destruct (decide (i < length l)%nat); [|rewrite nth_overflow by lia; reflexivity].
  rewrite List.Forall_forall in H. apply H, nth_In. assumption.
Qed.

Lemma omap_wf {A} (f : A -> option exp_data_point) start l :
  (forall a p, f a = Some p -> length (edp_positive_bucket_counts p) = 192%nat /\ edp_scale p = 3 /\ edp_positive_offset p = -160 /\ edp_start p = start) ->
  Forall (fun p => length (edp_positive_bucket_counts p) = 192%nat /\ edp_scale p = 3 /\ edp_positive_offset p = -160 /\ edp_start p = start) (omap f l).
Proof. intros H. induction l as [|a l IH]; cbn; [constructor|]. destruct (f a) eqn:E; [constructor; eauto|exact IH]. Qed.

Lemma hist_metric_wf name desc unit data sum bounds start now n : name <> [] -> hist_shape n data -> Z.of_nat (length bounds) = n - 1 -> n <= 100 ->
  metric_wf start (hist_metric_with_sum (mk_spec name desc unit TCumulative) data sum bounds start now).
Proof.
  intros Hn Hs Hb Hsmall. destruct data as [[b s] k]. split; [exact Hn|]. cbn. split_and!; [reflexivity|discriminate|].
  constructor; [|constructor]. split; [|reflexivity]. unfold convert_hdp, hist_shape, sat_add64 in *. cbn in *.
  rewrite (proj2 (Z.eqb_eq _ _)) by (unfold u64_max; lia). cbn. eauto.
Qed.

Lemma foldl_add_shape l x : exp_shape x -> exp_shape (foldl add_exp x l).
Proof. revert x. induction l as [|y l IH]; intros x Hx; cbn; [exact Hx|]. apply IH, add_exp_shape, Hx. Qed.

Lemma instrumented_wf scc c start now blocks : Forall (metric_wf start) (fst (instrumented_collect scc c start now blocks)).
Proof.
  unfold instrumented_collect. rewrite aggregate_split. cbn [fst].
  destruct (aggregate_shape blocks) as (H1 & H2 & H3 & (H4 & H5 & H6 & H7) & H8 & H9 & H10).
  set (a := foldl add_block agg_zero blocks) in *. clearbody a. set (exs := concat _). clearbody exs.
  each_metric idtac.
  1:{ split; [discriminate|]. unfold build_duration_metric. cbn [exp_metric m_data]. split; [reflexivity|]. destruct scc.
      - apply omap_wf. intros [[m cl] p] dp. apply make_exp_dp_wf, nth_shape, H1.
      - pose proof (foldl_add_shape (combo_agg a) exp_none eq_refl) as Hf. destruct (foldl add_exp exp_none (combo_agg a)) as [[[b z] s] n].
        constructor; [|constructor]. cbn. auto. }
  1,2: split; [discriminate|]; cbn [build_route_metric build_upstream_duration_metric exp_metric m_data]; split; [reflexivity|];
    apply omap_wf; intros k dp; apply make_exp_dp_wf, nth_shape; assumption.
  all: eapply hist_metric_wf; [discriminate|eassumption|reflexivity|discriminate].
Qed.

Definition instrumented_names : list (list Z) :=
  [$"http.server.request.duration"; $"nginx.http.request.duration.by_route"; $"nginx.http.request.duration.by_upstream";
   $"http.server.request.body.size"; $"http.server.response.body.size"; $"nginx.upstream.response.duration";
   $"nginx.upstream.header.duration"; $"nginx.upstream.connect.duration"; $"nginx.upstream.bytes.received"; $"nginx.upstream.bytes.sent"].

Lemma instrumented_names_ok scc c start now blocks : map m_name (fst (instrumented_collect scc c start now blocks)) = instrumented_names.
Proof.
  unfold instrumented_collect. rewrite aggregate_split. cbn [fst map]. unfold hist_metric, hist_metric_with_sum.
  destruct (foldl add_block agg_zero blocks) as [? ? ? [[? ?] ?] [[? ?] ?] [[? ?] ?] [[? ?] ?] [[? ?] ?] [[? ?] ?] [[? ?] ?]]. reflexivity.
Qed.

(** *** Names *)

Definition stub_names : list (list Z) :=
  [$"nginx.connections.accepted"; $"nginx.connections.handled"; $"nginx.requests.total"; $"nginx.connections.active";
   $"nginx.connections.reading"; $"nginx.connections.writing"; $"nginx.connections.waiting"].
Definition self_names : list (list Z) :=
  [$"ngx_otel.dropped_records"; $"ngx_otel.send_failures"; $"ngx_otel.bidi_backpressure_drops"; $"ngx_otel.logs.access.dropped_records";
   $"ngx_otel.logs.error.dropped_records"; $"ngx_otel.logs.error.coalesced_orphaned_records"; $"ngx_otel.logs.send_failures";
   $"ngx_otel.traces.dropped_records"; $"ngx_otel.export_interval"; $"ngx_otel.exporter.restarts"; $"ngx_otel.delivery.permanent_rejected";
   $"ngx_otel.delivery.partial_rejected"; $"ngx_otel.delivery.unauthorized"].

(** The names of a batch, by what is switched on. *)
Definition batch_names (stub zone rates certs collector : bool) : list (list Z) :=
  (if stub then stub_names else []) ++ (if zone then instrumented_names else []) ++ self_names ++
  (if rates && zone then [$"ngx_otel.error_log.events"] else []) ++
  (if certs then [NOT_AFTER; NOT_BEFORE; TIME_TO_EXPIRATION] else []) ++
  (if collector then [$"ngx_otel.tls.collector_cert.not_after"] else []).

Lemma batch_names_NoDup stub zone rates certs collector : NoDup (batch_names stub zone rates certs collector).
Proof. apply (bool_decide_unpack _). destruct stub, zone, rates, certs, collector; vm_compute; exact I. Qed.

Lemma certs_names certs now_secs now : map m_name (cert_collect_at certs now_secs now) =
  if match certs with [] => false | _ => true end then [NOT_AFTER; NOT_BEFORE; TIME_TO_EXPIRATION] else [].
Proof. destruct certs; reflexivity. Qed.

Definition is_present {A} (o : option A) : bool := match o with Some _ => true | None => false end.

(** The rates read the blocks after the reservoirs were reset. *)
Lemma rates_after_reset e n blocks : env_wf e -> blocks = map reset_block (take n (se_blocks e)) ++ drop n (se_blocks e) ->
  Forall (fun s => length (error_rate_counters s) = N_SEVERITY_CLASSES /\ Forall (fun v => 0 <= v) (error_rate_counters s)) (take n blocks).
Proof.
  intros [] ->. apply Forall_take, Forall_app. split; [|apply Forall_drop; assumption].
  apply Forall_map. apply Forall_take. assumption.
Qed.

(** C38 (type). Every metric batch the exporter assembles is well formed.  Its metrics have
    distinct names, exactly those of the sources that are switched on; every counter is a cumulative
    monotonic sum whose value is a non-negative [i64], with the exporter's
    start time; every gauge is an [i64]; every explicit histogram point
    satisfies the protocol's bucket rule, so the encoder drops none; every exponential
    point has the 192 buckets its scale and offset describe.  A series that
    has no source is absent, not zero.
    About: collect_all_sources, self_collect, stub_collect, collect_error_rate_metric, cert_collect_at, collector_cert_gauge,
    counter_to_i64, monotonic_sum_metric, instrumented_collect, convert_hdp, metrics_n_workers. *)
Theorem metric_batch_wellformed data_offset c e start host :
  env_wf e -> dates_wf (se_now_secs e) (mc_cert_table c) -> 0 <= mc_metric_interval_ms c ->
  let b := fst (collect_all_sources data_offset c e start host) in
  let names := map m_name (b_metrics b) in
  names = batch_names (se_stat_stub e) (is_present (shm_base data_offset c)) (mc_error_log_enabled c)
            (match mc_cert_table c with [] => false | _ => true end) (negb (se_collector_not_after e =? 0)) /\
  NoDup names /\ Forall (metric_wf start) (b_metrics b).
Proof.
  intros He Hd Hi b names.
  assert (Hn : names = batch_names (se_stat_stub e) (is_present (shm_base data_offset c)) (mc_error_log_enabled c)
    (match mc_cert_table c with [] => false | _ => true end) (negb (se_collector_not_after e =? 0))).
  { unfold names, b, collect_all_sources, batch_names.
    destruct (shm_base data_offset c); cbn [is_present].
    - pose proof (instrumented_names_ok (status_code_class_enabled c) (Some c) start (se_now e 1) (take (Z.to_nat (metrics_n_workers data_offset c)) (se_blocks e))) as Hnm.
      destruct (instrumented_collect _ _ _ _ _) as [ms done]. cbn [fst] in Hnm |- *. cbn [b_metrics]. rewrite !map_app, certs_names, Hnm.
      destruct (se_stat_stub e), (mc_error_log_enabled c), (se_collector_not_after e =? 0); reflexivity.
    - cbn [fst b_metrics]. rewrite !map_app, certs_names.
      destruct (se_stat_stub e), (mc_error_log_enabled c), (se_collector_not_after e =? 0); reflexivity. }
  split; [exact Hn|]. split; [rewrite Hn; apply batch_names_NoDup|].
  unfold b, collect_all_sources. set (n := Z.to_nat (metrics_n_workers data_offset c)).
  assert (Hint : 0 <= interval_ms c) by (unfold interval_ms, DEFAULT_INTERVAL_MS; case_if; lia).
  assert (Hcol : Forall (metric_wf start) (if se_collector_not_after e =? 0 then []
    else [collector_cert_gauge (se_collector_not_after e) (se_now e 5) host])).
  { case_if; [constructor|]. constructor; [|constructor]. split; [discriminate|]. split; [discriminate|].
    constructor; [|constructor]. apply (ew_collector e He). }
  assert (Hstub : Forall (metric_wf start) (if se_stat_stub e then stub_collect (se_stats e) start (se_now e 0) else []))
    by (case_if; [apply stub_wf; exact He|constructor]).
  destruct (shm_base data_offset c).
  - pose proof (instrumented_wf (status_code_class_enabled c) (Some c) start (se_now e 1) (take n (se_blocks e))) as Hw.
    pose proof (rates_after_reset e n (map reset_block (take n (se_blocks e)) ++ drop n (se_blocks e)) He eq_refl) as Hr.
    assert (Hdone : snd (instrumented_collect (status_code_class_enabled c) (Some c) start (se_now e 1) (take n (se_blocks e))) =
      map reset_block (take n (se_blocks e))) by (unfold instrumented_collect; rewrite aggregate_split; reflexivity).
    destruct (instrumented_collect _ _ _ _ _) as [ms done]. cbn [fst snd b_metrics] in *. subst done.
    rewrite !Forall_app. split_and!; auto using self_wf, cert_wf.
    case_if; [|constructor]. constructor; [|constructor]. apply rates_wf, Hr.
  - cbn [fst b_metrics app]. rewrite !Forall_app. split_and!; auto using self_wf, cert_wf. case_if; constructor.
Qed.

(** A sample: all sources on, two workers. *)
Definition sample_sources : source_env :=
  mk_senv true (mk_stats 10 10 30 2 0 1 1) (mk_self (mk_counters 1 0 2 0 3 4 5 6 7 8 9 0 0) 0 1) (fun _ => 1700000000000000000) 1700000000
    [zero_block; zero_block] 1800000000 77.

Lemma metric_batch_wellformed_witness :
  let c := set_error_log true 4 served_conf in
  length (b_metrics (fst (collect_all_sources 200 c sample_sources 5 $"collector"))) = 32%nat /\
  NoDup (map m_name (b_metrics (fst (collect_all_sources 200 c sample_sources 5 $"collector")))).
Proof.
  destruct (metric_batch_wellformed 200 (set_error_log true 4 served_conf) sample_sources 5 $"collector") as (E & Hn & _).
  - split; cbn; repeat constructor; vm_compute; try congruence; discriminate.
  - split; [vm_compute; split; congruence|constructor].
  - vm_compute. discriminate.
  - split; [|exact Hn]. rewrite <- (length_map m_name), E. vm_compute. reflexivity.
Defined.

(** The failures of the traces lane are counted and never reported: no metric depends on them. *)
Example traces_send_failures_unreported s c n interval start now :
  ss_counters s = c ->
  let c' := mk_counters (DROPPED_RECORDS c) (PERMANENT_REJECTED c) (PARTIAL_REJECTED c) (UNAUTHORIZED_REJECTED c) (SEND_FAILURES c)
              (LOGS_SEND_FAILURES c) n (ACCESS_LOGS_DROPPED c) (ERROR_LOGS_DROPPED c) (ERROR_LOGS_COALESCED_ORPHANED c)
              (TRACES_DROPPED_RECORDS c) (UNAUTHORIZED_LOG_LAST_MSEC c) (cred_lines c) in
  self_collect (mk_self c' (BIDI_BACKPRESSURE_DROPS s) (EXPORTER_RESTARTS s)) interval start now = self_collect s interval start now.
Proof. intros <-. reflexivity. Qed.
