(* ===== verification/Run.v ===== *)
(** * Runs of the export loop (src/src/drain/mod.rs, src/src/drain/graceful.rs)

    The loop of [Drain] as a transition system: [periodic_step] has one step per thing an export interval
    does, [drain_step] one per thing the final drain does, and every run of
    [export_iterations] is a sequence of the former followed, after a quit, by a sequence of the latter.  Invariants of the
    exporter are then shown step by step. *)
From stdpp Require Import relations.
From S2P Require Import Prelude Ring DataModel AccessLog Coalesce ErrorLog Processor Collect Outcome Backoff Control Drain.

Section run.
Context {W : Type} `{World W}.
Context (encode : pdata -> list Z).
Context (cfg : export_config) (my_gen : Z).

Implicit Types (x : exporter) (w : W) (s : exporter * W).

Definition fresh_metrics x w : exporter * W :=
  let '(b, w) := collect_all_sources (stats x) w in
  send_fresh_batch encode (process (ec_processor cfg) (PMetrics b)) (ec_retry_depth cfg) x w.

(** The last batches of the drain, once it is decided that this exporter collects them. *)
Definition final_metrics x w : exporter * W :=
  let '(b, w) := collect_all_sources (stats x) w in
  (x, send_final encode (ec_processor cfg) (Some (PMetrics b)) w).
(** [src/src/drain/graceful.rs: 370-421 graceful_drain] *)
Definition final_logs x w : exporter * W :=
  let '(pd, x, w) := collect_logs cfg x w in (x, send_final encode (ec_processor cfg) pd w).
(** [src/src/drain/graceful.rs: 456-496 graceful_drain] *)
Definition final_spans x w : exporter * W :=
  let '(pd, x, w) := collect_spans cfg x w in (x, send_final encode (ec_processor cfg) pd w).

(** What an export interval does, one thing at a time. *)
Inductive periodic_step : exporter * W -> exporter * W -> Prop :=
  | ps_sleep ms x w : periodic_step (x, w) (x, sleep ms w)
  | ps_latch x w : successor_announced (control w) my_gen = true -> periodic_step (x, w) (set_abdicated true x, w)
  | ps_retry l x w : periodic_step (x, w) (drain_retry_queue_once l (ec_retry_depth cfg) x w)
  | ps_logs x w : periodic_abdicated x = false ->
      periodic_step (x, w) (send_collected encode (ec_processor cfg) (collect_logs cfg x w) (ec_retry_depth cfg))
  | ps_spans x w : periodic_abdicated x = false ->
      periodic_step (x, w) (send_collected encode (ec_processor cfg) (collect_spans cfg x w) (ec_retry_depth cfg))
  | ps_heartbeat c x w : control w = Some c ->
      periodic_step (x, w) (x, set_control (set_version (version c +w64 1) c) w)
  | ps_healthy since x w : periodic_step (x, w) (healthy_reset since x w)
  | ps_look x w : ec_metrics_enabled cfg = true -> is_deferred (bo_metrics x) (ngx_current_msec w) = true ->
      periodic_step (x, w) (x, snd (collect_all_sources (stats x) w))
  | ps_metrics x w : ec_metrics_enabled cfg = true -> periodic_step (x, w) (fresh_metrics x w).

(** What the final drain does. *)
Inductive drain_step : exporter * W -> exporter * W -> Prop :=
  | ds_flush l x w : drain_step (x, w) (flush_lane l x w)
  | ds_metrics x w : ec_metrics_enabled cfg = true -> drain_step (x, w) (final_metrics x w)
  | ds_logs x w : drain_step (x, w) (final_logs x w)
  | ds_spans x w : drain_step (x, w) (final_spans x w).

#[local] Hint Constructors periodic_step drain_step : otel.

(** Every optional part of the code is at most one step. *)
Lemma maybe_step (R : relation (exporter * W)) (b : bool) s (r : exporter * W) :
  (b = true -> R s r) -> rtc R s (if b then r else s).
Proof. intros HR. destruct b; [apply rtc_once, HR; reflexivity|apply rtc_refl]. Qed.

(** Name the pair a step returns. *)
Ltac name_step Hs :=
  match type of Hs with rtc _ _ ?t => destruct t as [?x ?w] end.

Lemma chunk_steps x w k x' w' : tick_chunk encode cfg my_gen x w = (k, x', w') -> rtc periodic_step (x, w) (x', w').
Proof.
  unfold tick_chunk, spans_chunk. set (d := ec_retry_depth cfg).
  do 2 (case_if; [intros [= <- <- <-]; reflexivity|]).
  set (x0 := if negb (periodic_abdicated x) && successor_announced (control w) my_gen then set_abdicated true x else x).
  assert (S0 : rtc periodic_step (x, w) (x0, w)).
  { subst x0. case_if; [|reflexivity]. apply rtc_once. zify_bool. auto with otel. }
  clearbody x0.
  assert (S1 : rtc periodic_step (x, w) (retry_unless (is_deferred (bo_logs x0) (ngx_current_msec w)) LLogs d x0 w)).
  { etrans; [exact S0|]. unfold retry_unless. destruct (is_deferred _ _); [reflexivity|apply rtc_once, ps_retry]. }
  name_step S1. case_if; [intros [= <- <- <-]; exact S1|].
  match goal with |- context [let '(_, _) := ?t in _] => assert (S2 : rtc periodic_step (x, w) t) end.
  { etrans; [exact S1|]. apply maybe_step. intros G. apply ps_logs. zify_bool. auto. }
  name_step S2. case_if; [intros [= <- <- <-]; exact S2|].
  match goal with |- context [retry_unless ?b LSpans d ?x ?w] => assert (S3 : rtc periodic_step (x, w) (retry_unless b LSpans d x w)) end.
  { unfold retry_unless. destruct (is_deferred _ _); [reflexivity|apply rtc_once, ps_retry]. }
  match type of S3 with rtc _ _ ?t => assert (S4 : rtc periodic_step (x, w) t) by (etrans; [exact S2|exact S3]) end. clear S3.
  name_step S4. case_if; [intros [= <- <- <-]; exact S4|].
  match goal with |- context [let '(_, _) := ?t in _] => assert (S5 : rtc periodic_step (x, w) t) end.
  { etrans; [exact S4|]. apply maybe_step. intros G. apply ps_spans. zify_bool. auto. }
  name_step S5. intros [= <- <- <-]. exact S5.
Qed.

Lemma sleep_steps fuel : forall slept x w k x' w',
  sleep_loop encode fuel cfg my_gen slept x w = Some (k, x', w') -> rtc periodic_step (x, w) (x', w').
Proof.
  induction fuel as [|fuel IH]; intros slept x w k x' w'; cbn [sleep_loop].
  - case_if; [intros [= <- <- <-]; reflexivity|discriminate].
  - case_if; [intros [= <- <- <-]; reflexivity|].
    set (w1 := sleep _ w). assert (S1 : rtc periodic_step (x, w) (x, w1)) by (apply rtc_once; constructor).
    destruct (tick_chunk encode cfg my_gen x w1) as [[k1 x1] w2] eqn:Ech. apply chunk_steps in Ech.
    destruct k1; [intros Er; apply IH in Er| |]; [etrans; [exact S1|etrans; eassumption]| |];
      intros [= <- <- <-]; etrans; eassumption.
Qed.

(** The final drain: the metrics first, then the rings. *)
Lemma graceful_split x w : exists s, rtc drain_step s (graceful_drain encode cfg my_gen x w) /\
  s = (if ec_metrics_enabled cfg then let '(x, w) := flush_lane LMetrics x w in final_metrics x w else (x, w)).
Proof.
  unfold graceful_drain. set (hs := successor_announced _ _).
  assert (E : (if ec_metrics_enabled cfg then let '(x, w) := flush_lane LMetrics x w in
      let '(b, w) := collect_all_sources (stats x) w in (x, send_final encode (ec_processor cfg) (Some (PMetrics b)) w) else (x, w)) =
    (if ec_metrics_enabled cfg then let '(x, w) := flush_lane LMetrics x w in final_metrics x w else (x, w))) by reflexivity.
  rewrite E. clear E. destruct (if ec_metrics_enabled cfg then _ else _) as [x0 w0]. exists (x0, w0). split; [|reflexivity].
  pose proof (rtc_once _ _ (ds_flush LLogs x0 w0)) as S2. name_step S2.
  match goal with |- context [let '(_, _) := ?t in _] => assert (S3 : rtc drain_step (x0, w0) t) end.
  { etrans; [exact S2|]. apply maybe_step. intros _. apply ds_logs. }
  name_step S3.
  match type of S3 with rtc _ _ (?x, ?w) => assert (S4 : rtc drain_step (x0, w0) (flush_lane LSpans x w)) by (eapply rtc_r; [exact S3|constructor]) end.
  name_step S4. etrans; [exact S4|]. apply maybe_step. intros _. apply ds_spans.
Qed.

Lemma graceful_steps x w : rtc drain_step (x, w) (graceful_drain encode cfg my_gen x w).
Proof.
  destruct (graceful_split x w) as (s & Hs & ->). etrans; [|exact Hs]. case_if; [|reflexivity].
  eapply rtc_l; [apply (ds_flush LMetrics)|]. destruct (flush_lane LMetrics x w) as [x1 w1]. apply rtc_once, ds_metrics. assumption.
Qed.

Lemma metrics_lane_steps x w : rtc periodic_step (x, w) (metrics_lane encode cfg x w).
Proof.
  unfold metrics_lane. destruct (is_deferred (bo_metrics x) (ngx_current_msec w)) eqn:Ed; cbn [negb]; rewrite ?andb_false_r, ?andb_true_r.
  - do 2 (case_if; [reflexivity|]). zify_bool. pose proof (ps_look x w ltac:(assumption) Ed) as L.
    destruct (collect_all_sources (stats x) w) as [b w1]. apply rtc_once. exact L.
  - match goal with |- context [let '(_, _) := ?t in _] => assert (S1 : rtc periodic_step (x, w) t) end.
    { apply maybe_step. intros _. apply ps_retry. }
    name_step S1. etrans; [exact S1|]. do 2 (case_if; [reflexivity|]). zify_bool.
    pose proof (ps_metrics x0 w0 ltac:(assumption)) as M. unfold fresh_metrics in M.
    destruct (collect_all_sources (stats x0) w0) as [b w1]. apply rtc_once. exact M.
Qed.

(** One interval is periodic steps, followed by drain steps if a quit was seen. *)
Lemma tick_steps since x w k x' w' : periodic_tick encode cfg my_gen since x w = Some (k, x', w') ->
  exists s, rtc periodic_step (x, w) s /\
    match k with SkExiting => rtc drain_step s (x', w') | _ => s = (x', w') end.
Proof.
  unfold periodic_tick, tick_end. destruct (sleep_loop _ _ _ _ _ _ _) as [[[k1 x1] w1]|] eqn:El; [|discriminate].
  apply sleep_steps in El. cbn [mbind option_bind]. case_if; [intros [= <- <- <-]; eauto|]. case_if.
  - pose proof (graceful_steps x1 w1) as G. destruct (graceful_drain _ _ _ _ _). intros [= <- <- <-]. eauto.
  - set (w2 := match control w1 with Some c => _ | None => w1 end).
    assert (S2 : rtc periodic_step (x, w) (x1, w2)).
    { subst w2. destruct (control w1) as [c|] eqn:Ec; [|exact El].
      eapply rtc_r; [exact El|]. apply ps_heartbeat. exact Ec. }
    clearbody w2.
    assert (S3 : rtc periodic_step (x, w) (healthy_reset since x1 w2)) by (eapply rtc_r; [exact S2|constructor]).
    destruct (healthy_reset since x1 w2) as [x2 w3].
    pose proof (metrics_lane_steps x2 w3) as S4. destruct (metrics_lane _ _ _ _) as [x3 w4].
    intros [= <- <- <-]. exists (x3, w4). split; [etrans; eassumption|reflexivity].
Qed.

(** The whole loop: periodic steps, and drain steps after a quit. *)
Lemma iterations_steps fuel since : forall x w e x' w',
  export_iterations encode fuel cfg my_gen since x w = Some (e, x', w') ->
  exists s, rtc periodic_step (x, w) s /\
    match e with Drained => rtc drain_step s (x', w') | _ => s = (x', w') end.
Proof.
  induction fuel as [|fuel IH]; intros x w e x' w'; cbn [export_iterations];
    (case_if; [intros [= <- <- <-]; exists (x, w); auto using rtc_refl|]);
    (case_if; [pose proof (graceful_steps x w) as G; destruct (graceful_drain _ _ _ _ _); intros [= <- <- <-]; exists (x, w); auto using rtc_refl|]).
  { intros [= <- <- <-]. exists (x, w). auto using rtc_refl. }
  destruct (periodic_tick _ _ _ _ _ _) as [[[k x1] w1]|] eqn:Et; [|discriminate].
  apply tick_steps in Et as (s & S1 & S2). cbn [mbind option_bind].
  destruct k; [subst s|intros [= <- <- <-]; eauto|intros [= <- <- <-]; eauto].
  intros Er. apply IH in Er as (s & S3 & S4). exists s. split; [etrans; eassumption|exact S4].
Qed.

(** Enough fuel for one interval is enough for all: watching the loop never fails. *)
Lemma iterations_total fuel since : forall x w,
  0 <= ec_interval_ms cfg -> exporter_ok (ec_retry_depth cfg) x ->
  exists e x' w', export_iterations encode fuel cfg my_gen since x w = Some (e, x', w').
Proof.
  induction fuel as [|fuel IH]; intros x w Hi Hx; cbn [export_iterations]; (case_if; [eauto|]);
    (case_if; [destruct (graceful_drain _ _ _ _ _); eauto|]); [eauto|].
  destruct (tick_total encode cfg my_gen since x w Hi Hx) as (k & x1 & w1 & -> & H1). cbn [mbind option_bind].
  destruct k; eauto.
Qed.

(** ** The bound on the queues, step by step *)

Lemma periodic_step_ok s s' : exporter_ok (ec_retry_depth cfg) (fst s) -> periodic_step s s' ->
  exporter_ok (ec_retry_depth cfg) (fst s').
Proof.
  intros Hx Hs. destruct Hs as [ms x w|x w _|l x w|x w _|x w _|c x w _|since x w|x w _|x w _]; cbn [fst] in *; try exact Hx.
  - apply retry_ok. exact Hx.
  - apply send_collected_ok, collect_logs_ok. exact Hx.
  - apply send_collected_ok, collect_spans_ok. exact Hx.
  - unfold healthy_reset. case_if; exact Hx.
  - unfold fresh_metrics. destruct (collect_all_sources _ _). apply fresh_ok. exact Hx.
Qed.

Lemma drain_step_ok depth s s' : exporter_ok depth (fst s) -> drain_step s s' -> exporter_ok depth (fst s').
Proof.
  intros Hx Hs. destruct Hs as [l x w|x w _|x w|x w]; cbn [fst] in *.
  - apply flush_lane_ok. exact Hx.
  - unfold final_metrics. destruct (collect_all_sources _ _). exact Hx.
  - unfold final_logs. pose proof (collect_logs_ok cfg depth x w Hx). destruct (collect_logs _ _ _) as [[? ?] ?]. assumption.
  - unfold final_spans. pose proof (collect_spans_ok cfg depth x w Hx). destruct (collect_spans _ _ _) as [[? ?] ?]. assumption.
Qed.

(** ** The end of a drain *)

(** A run that has drained ended with the final drain. *)
Lemma iterations_drained fuel since : forall x w x' w',
  export_iterations encode fuel cfg my_gen since x w = Some (Drained, x', w') ->
  exists x1 w1, rtc periodic_step (x, w) (x1, w1) /\ graceful_drain encode cfg my_gen x1 w1 = (x', w').
Proof.
  assert (Ht : forall x w x' w', periodic_tick encode cfg my_gen since x w = Some (SkExiting, x', w') ->
    exists x1 w1, rtc periodic_step (x, w) (x1, w1) /\ graceful_drain encode cfg my_gen x1 w1 = (x', w')).
  { intros x w x' w'. unfold periodic_tick, tick_end. destruct (sleep_loop _ _ _ _ _ _ _) as [[[k x1] w1]|] eqn:El; [|discriminate].
    apply sleep_steps in El. cbn [mbind option_bind]. case_if; [discriminate|]. case_if.
    - destruct (graceful_drain encode cfg my_gen x1 w1) as [x2 w2] eqn:Eg. intros [= <- <-]. eauto.
    - destruct (healthy_reset _ _ _). destruct (metrics_lane _ _ _ _). discriminate. }
  induction fuel as [|fuel IH]; intros x w x' w'; cbn [export_iterations]; (case_if; [discriminate|]);
    (case_if; [destruct (graceful_drain encode cfg my_gen x w) as [x1 w1] eqn:Eg; intros [= <- <-]; exists x, w; split; [reflexivity|exact Eg]|]); [discriminate|].
  destruct (periodic_tick _ _ _ _ _ _) as [[[k x1] w1]|] eqn:Et; [|discriminate]. cbn [mbind option_bind].
  destruct k; [|intros [= <- <-]; eauto|discriminate]. apply tick_steps in Et as (s & S1 & ->). intros (x2 & w2 & S2 & Eg)%IH. exists x2, w2. split; [etrans; eassumption|exact Eg].
Qed.

Lemma flush_lane_empty l x w : lane_queue l (fst (flush_lane l x w)) = [].
Proof. unfold flush_lane. destruct (flush_queue _ _ _ _). cbn [fst]. rewrite lane_queue_set. destruct l; reflexivity. Qed.

Lemma flush_lane_other l l' x w : l' <> l -> lane_queue l' (fst (flush_lane l x w)) = lane_queue l' x.
Proof. intros. unfold flush_lane. destruct (flush_queue _ _ _ _). cbn [fst]. rewrite lane_queue_set. destruct l, l'; congruence || reflexivity. Qed.

(** Nothing stays queued after the final drain; the metrics lane is drained if metrics are on. *)
Lemma graceful_empty x w l : l <> LMetrics \/ ec_metrics_enabled cfg = true ->
  lane_queue l (fst (graceful_drain encode cfg my_gen x w)) = [].
Proof.
  intros Hl. unfold graceful_drain.
  match goal with |- context [let '(_, _) := ?t in _] => assert (Q1 : ec_metrics_enabled cfg = true -> lane_queue LMetrics (fst t) = []) end.
  { intros ->. pose proof (flush_lane_empty LMetrics x w) as F. destruct (flush_lane LMetrics x w) as [x1 w1].
    destruct (collect_all_sources _ w1). exact F. }
  destruct (if ec_metrics_enabled cfg then _ else _) as [x1 w1]. cbn [fst] in Q1.
  pose proof (flush_lane_empty LLogs x1 w1) as Q2. pose proof (flush_lane_other LLogs LMetrics x1 w1 ltac:(discriminate)) as O2.
  destruct (flush_lane LLogs x1 w1) as [x2 w2]. cbn [fst] in Q2, O2.
  match goal with |- context [let '(_, _) := ?t in _] => assert (Q3 : forall l, lane_queue l (fst t) = lane_queue l x2) end.
  { intros l'. case_if; [|reflexivity]. unfold collect_logs. destruct (logs_zone w2); [|destruct l'; reflexivity].
    destruct (collect_log_records _ _ _ _ _) as [[? ?] ?]. destruct l'; reflexivity. }
  destruct (if negb _ && _ then _ else _) as [x3 w3]. cbn [fst] in Q3.
  pose proof (flush_lane_empty LSpans x3 w3) as Q4. pose proof (fun l N => flush_lane_other LSpans l x3 w3 N) as O4.
  destruct (flush_lane LSpans x3 w3) as [x4 w4]. cbn [fst] in Q4, O4.
  assert (Q5 : lane_queue l x4 = []).
  { destruct l; [rewrite O4, Q3, O2 by discriminate; apply Q1; destruct Hl; [congruence|assumption]|rewrite O4, Q3 by discriminate; exact Q2|exact Q4]. }
  case_if; [|exact Q5]. unfold collect_spans. destruct (spans_zone w4); [|exact Q5].
  destruct (collect_span_records _ _ _ _) as [[? ?] ?]. destruct l; exact Q5.
Qed.
End run.

(** ** Invariants of the world under a run *)

(** A property that survives whatever the exporter does, the collections taken as a whole. *)
Class WorldKeeps {W : Type} `{World W} (cfg : export_config) (P : W -> Prop) := {
  keeps_control c w : P w -> P (set_control c w);
  keeps_sources c w : P w -> P (snd (collect_all_sources c w));
  keeps_send l bytes budget w : P w -> P (snd (send l bytes budget w));
  keeps_sleep ms w : P w -> P (sleep ms w);
  keeps_logs x w : P w -> P (snd (collect_logs cfg x w));
  keeps_spans x w : P w -> P (snd (collect_spans cfg x w))
}.

Section keeps.
Context {W : Type} `{World W} (encode : pdata -> list Z) (cfg : export_config) (my_gen : Z) (P : W -> Prop) `{!WorldKeeps cfg P}.

Lemma retry_keeps l depth x w : P w -> P (snd (drain_retry_queue_once l depth x w)).
Proof.
  unfold drain_retry_queue_once, drain_retry_queue_once_with_timer.
  assert (L : forall now snapshot failed q b c w, P w -> P (snd (retry_loop l depth now snapshot failed q b c w))).
  { intros now. induction snapshot as [|[bytes n] rest IH]; intros failed q b c w' Hw; [exact Hw|]. cbn [retry_loop].
    destruct failed; [destruct (enqueue_with_eviction _ _ _ _ _) as [[? ?] ?]; apply IH, Hw|].
    pose proof (keeps_send (cfg := cfg) l bytes PERIODIC_SEND_BUDGET w' Hw) as Hs. destruct (send _ _ _ w') as [[o|e|] w1]; cbn [snd] in Hs.
    - destruct (apply_delivery_outcome _ _ _ _ _) as [[[] ?] ?]; try (apply IH, Hs). destruct (enqueue_with_eviction _ _ _ _ _) as [[? ?] ?]. apply IH, Hs.
    - case_if; [apply IH, Hs|]. destruct (enqueue_with_eviction _ _ _ _ _) as [[? ?] ?]. apply IH, Hs.
    - destruct (enqueue_with_eviction _ _ _ _ _) as [[? ?] ?]. apply IH, Hs. }
  intros Hw. specialize (L (ngx_current_msec w) (lane_queue l x) false [] (lane_backoff l x) (stats x) w Hw).
  destruct (retry_loop _ _ _ _ _ _ _ _ _) as [[[? ?] ?] ?]. exact L.
Qed.

Lemma fresh_keeps pd depth x w : P w -> P (snd (send_fresh_batch encode pd depth x w)).
Proof.
  intros Hw. unfold send_fresh_batch. case_if; [exact Hw|]. pose proof (keeps_send (cfg := cfg) (pdata_lane pd) (encode pd) PERIODIC_SEND_BUDGET w Hw) as Hs.
  destruct (send _ _ _ w) as [[o|e|] w1]; [|exact Hs..]. destruct (apply_fresh_send_outcome _ _ _ _ _ _ _ _ _) as [[[? ?] ?] ?]. exact Hs.
Qed.

Lemma flush_keeps l x w : P w -> P (snd (flush_lane l x w)).
Proof.
  intros Hw. unfold flush_lane.
  assert (L : forall q c w, P w -> P (snd (flush_queue l q c w))).
  { induction q as [|[bytes n] rest IH]; intros c w' Hw'; [exact Hw'|]. cbn [flush_queue].
    pose proof (keeps_send (cfg := cfg) l bytes GRACEFUL_DRAIN_PER_ATTEMPT_BUDGET w' Hw') as Hs. destruct (send _ _ _ w') as [[o|e|] w1]; [apply IH, Hs|exact Hs..]. }
  specialize (L (lane_queue l x) (stats x) w Hw). destruct (flush_queue _ _ _ _). exact L.
Qed.

Lemma final_keeps p pd w : P w -> P (send_final encode p pd w).
Proof. intros Hw. unfold send_final. destruct (process p <$> pd); [|exact Hw]. case_if; [apply (keeps_send (cfg := cfg)), Hw|exact Hw]. Qed.

Lemma collected_keeps p r depth : P (snd r) -> P (snd (send_collected encode p r depth)).
Proof. destruct r as [[[pd|] x] w]; [apply fresh_keeps|auto]. Qed.

Lemma periodic_keeps s s' : P (snd s) -> periodic_step encode cfg my_gen s s' -> P (snd s').
Proof.
  intros Hw Hs. destruct Hs as [ms x w|x w _|l x w|x w _|x w _|c x w _|since x w|x w _|x w _]; cbn [snd] in *; try exact Hw.
  - apply (keeps_sleep (cfg := cfg)), Hw.
  - apply retry_keeps, Hw.
  - apply collected_keeps, (keeps_logs (cfg := cfg)), Hw.
  - apply collected_keeps, (keeps_spans (cfg := cfg)), Hw.
  - apply (keeps_control (cfg := cfg)), Hw.
  - unfold healthy_reset. case_if; [|exact Hw]. destruct (control w); [apply (keeps_control (cfg := cfg))|]; exact Hw.
  - apply (keeps_sources (cfg := cfg)), Hw.
  - unfold fresh_metrics. pose proof (keeps_sources (cfg := cfg) (stats x) w Hw) as Hc. destruct (collect_all_sources _ w). apply fresh_keeps, Hc.
Qed.

Lemma drain_keeps s s' : P (snd s) -> drain_step encode cfg s s' -> P (snd s').
Proof.
  intros Hw Hs. destruct Hs as [l x w|x w _|x w|x w]; cbn [snd] in *.
  - apply flush_keeps, Hw.
  - unfold final_metrics. pose proof (keeps_sources (cfg := cfg) (stats x) w Hw) as Hc. destruct (collect_all_sources _ w). apply final_keeps, Hc.
  - unfold final_logs. pose proof (keeps_logs (cfg := cfg) x w Hw) as Hc. destruct (collect_logs _ x w) as [[? ?] ?]. apply final_keeps, Hc.
  - unfold final_spans. pose proof (keeps_spans (cfg := cfg) x w Hw) as Hc. destruct (collect_spans _ x w) as [[? ?] ?]. apply final_keeps, Hc.
Qed.

Lemma iterations_keep fuel since x w e x' w' : P w -> export_iterations encode fuel cfg my_gen since x w = Some (e, x', w') -> P w'.
Proof.
  intros Hw E. apply iterations_steps in E as (s & Hp & Hd).
  assert (L : forall (R : relation (exporter * W)), (forall s s', P (snd s) -> R s s' -> P (snd s')) -> forall s s', rtc R s s' -> P (snd s) -> P (snd s')).
  { intros R HR s1 s2 Hr. induction Hr as [|s1 s2 s3 H1 _ IH]; [auto|]. intros Hs. apply IH. eapply HR; eassumption. }
  pose proof (L _ periodic_keeps _ _ Hp Hw) as Hs. destruct e; [subst s; exact Hs| |subst s; exact Hs].
  exact (L _ drain_keeps _ _ Hd Hs).
Qed.
End keeps.
