(* ===== verification/Ledger.v ===== *)
(** * Accounting for every batch (src/src/drain/mod.rs, src/src/drain/graceful.rs)

    A world that writes down what the exporter does in it: [history W] behaves as [W] and also keeps
    the list of collections and sends.  [history_erases] says that watching changes nothing; the other theorems relate
    what was collected to what was answered, given up, evicted or is still queued, and the process's counters to the
    answers. *)
From stdpp Require Import relations.
From S2P Require Import Prelude Ring DataModel Producer AccessLog Coalesce ErrorLog Processor Collect Outcome Backoff Control Drain Run.

#[export] Instance lane_eq_dec : EqDecision lane.
Proof. solve_decision. Defined.

(** ** Worlds that behave alike *)

(** A map of worlds that commutes with everything the exporter can do. *)
Class WorldHom {A B : Type} `{World A} `{World B} (f : A -> B) := {
  hom_msec a : ngx_current_msec (f a) = ngx_current_msec a;
  hom_nano a : now_unix_nano (f a) = now_unix_nano a;
  hom_quit a : ngx_quit (f a) = ngx_quit a;
  hom_terminate a : ngx_terminate (f a) = ngx_terminate a;
  hom_control a : control (f a) = control a;
  hom_set_control c a : set_control c (f a) = f (set_control c a);
  hom_logs a : logs_zone (f a) = logs_zone a;
  hom_set_logs z a : set_logs_zone z (f a) = f (set_logs_zone z a);
  hom_spans a : spans_zone (f a) = spans_zone a;
  hom_set_spans z a : set_spans_zone z (f a) = f (set_spans_zone z a);
  hom_collect c a : collect_all_sources c (f a) = prod_map id f (collect_all_sources c a);
  hom_send l bytes budget a : send l bytes budget (f a) = prod_map id f (send l bytes budget a);
  hom_sleep ms a : sleep ms (f a) = f (sleep ms a)
}.

Section hom.
Context {A B : Type} `{World A} `{World B} (f : A -> B) `{!WorldHom f}.
Context (encode : pdata -> list Z) (cfg : export_config) (my_gen : Z).
Implicit Types (x : exporter) (a : A).

(** Push [f] outwards through the operations of a world. *)
Ltac push_hom :=
  rewrite ?(hom_msec (f := f)), ?(hom_nano (f := f)), ?(hom_quit (f := f)), ?(hom_terminate (f := f)), ?(hom_control (f := f)),
    ?(hom_set_control (f := f)), ?(hom_logs (f := f)), ?(hom_set_logs (f := f)), ?(hom_spans (f := f)), ?(hom_set_spans (f := f)),
    ?(hom_collect (f := f)), ?(hom_send (f := f)), ?(hom_sleep (f := f)).

Abbreviation over := (prod_map id f).

(** An optional part of the code commutes, and its result gets a name. *)
Ltac hom_branch :=
  match goal with |- (let '(_, _) := ?u in _) = over (let '(_, _) := ?t in _) =>
    let Eb := fresh "Eb" in
    assert (Eb : u = over t); [|rewrite Eb; clear Eb; destruct t as [?x ?a]; cbn [prod_map fst snd id]]
  end.

Lemma shutdown_requested_hom a : shutdown_requested (f a) = shutdown_requested a.
Proof. unfold shutdown_requested. push_hom. reflexivity. Qed.
Lemma stop_kind_hom a : stop_kind (f a) = stop_kind a.
Proof. unfold stop_kind. push_hom. reflexivity. Qed.

Lemma retry_loop_hom l depth now snapshot : forall failed q b c a,
  retry_loop l depth now snapshot failed q b c (f a) = over (retry_loop l depth now snapshot failed q b c a).
Proof.
  induction snapshot as [|[bytes n] rest IH]; intros failed q b c a; [reflexivity|]. cbn [retry_loop].
  destruct failed; [destruct (enqueue_with_eviction _ _ _ _ _) as [[? ?] ?]; apply IH|].
  push_hom. destruct (send l bytes _ a) as [[o|e|] a1]; cbn [prod_map fst snd id]; push_hom.
  - destruct (apply_delivery_outcome _ _ _ _ _) as [[[] ?] ?]; rewrite ?IH; try reflexivity.
    destruct (enqueue_with_eviction _ _ _ _ _) as [[? ?] ?]. apply IH.
  - case_if; [apply IH|]. destruct (enqueue_with_eviction _ _ _ _ _) as [[? ?] ?]. apply IH.
  - destruct (enqueue_with_eviction _ _ _ _ _) as [[? ?] ?]. apply IH.
Qed.

Lemma retry_hom l depth x a : drain_retry_queue_once l depth x (f a) = over (drain_retry_queue_once l depth x a).
Proof.
  unfold drain_retry_queue_once, drain_retry_queue_once_with_timer. push_hom. rewrite retry_loop_hom.
  destruct (retry_loop _ _ _ _ _ _ _ _ _) as [[[? ?] ?] ?]. reflexivity.
Qed.

Lemma retry_unless_hom d l depth x a : retry_unless d l depth x (f a) = over (retry_unless d l depth x a).
Proof. unfold retry_unless. destruct d; [reflexivity|apply retry_hom]. Qed.

Lemma fresh_hom pd depth x a : send_fresh_batch encode pd depth x (f a) = over (send_fresh_batch encode pd depth x a).
Proof.
  unfold send_fresh_batch. case_if; [reflexivity|]. push_hom.
  destruct (send _ _ _ a) as [[o|e|] a1]; cbn [prod_map fst snd id]; push_hom; [|reflexivity..].
  destruct (apply_fresh_send_outcome _ _ _ _ _ _ _ _ _) as [[[? ?] ?] ?]. reflexivity.
Qed.

Lemma collect_logs_hom x a : collect_logs cfg x (f a) = over (collect_logs cfg x a).
Proof.
  unfold collect_logs. push_hom. destruct (logs_zone a); [|reflexivity].
  destruct (collect_log_records _ _ _ _ _) as [[? ?] ?]. push_hom. reflexivity.
Qed.
Lemma collect_spans_hom x a : collect_spans cfg x (f a) = over (collect_spans cfg x a).
Proof.
  unfold collect_spans. push_hom. destruct (spans_zone a); [|reflexivity].
  destruct (collect_span_records _ _ _ _) as [[? ?] ?]. push_hom. reflexivity.
Qed.

Lemma send_collected_hom p pd x a depth :
  send_collected encode p (pd, x, f a) depth = over (send_collected encode p (pd, x, a) depth).
Proof. destruct pd; [apply fresh_hom|reflexivity]. Qed.

Lemma flush_lane_hom l x a : flush_lane l x (f a) = over (flush_lane l x a).
Proof.
  unfold flush_lane.
  assert (F : forall q c a, flush_queue l q c (f a) = over (flush_queue l q c a)).
  { induction q as [|[bytes n] rest IH]; intros c b; [reflexivity|]. cbn [flush_queue]. push_hom.
    destruct (send _ _ _ b) as [[o|e|] b1]; cbn [prod_map fst snd id]; [apply IH|reflexivity..]. }
  rewrite F. destruct (flush_queue _ _ _ _). reflexivity.
Qed.

Lemma send_final_hom p pd a : send_final encode p pd (f a) = f (send_final encode p pd a).
Proof.
  unfold send_final. destruct (process p <$> pd); [|reflexivity]. case_if; [|reflexivity]. push_hom.
  destruct (send _ _ _ a). reflexivity.
Qed.

Lemma graceful_hom x a : graceful_drain encode cfg my_gen x (f a) = over (graceful_drain encode cfg my_gen x a).
Proof.
  unfold graceful_drain. push_hom.
  hom_branch.
  { case_if; [|reflexivity]. rewrite flush_lane_hom. destruct (flush_lane LMetrics x a) as [x1 a1]. cbn [prod_map fst snd id]. push_hom.
    destruct (collect_all_sources _ a1). cbn [prod_map fst snd id]. rewrite send_final_hom. reflexivity. }
  rewrite flush_lane_hom. destruct (flush_lane LLogs _ _) as [x2 a2]. cbn [prod_map fst snd id].
  hom_branch.
  { case_if; [|reflexivity]. rewrite collect_logs_hom. destruct (collect_logs cfg x2 a2) as [[? ?] ?].
    cbn [prod_map fst snd id]. rewrite send_final_hom. reflexivity. }
  rewrite flush_lane_hom. destruct (flush_lane LSpans _ _) as [x4 a4]. cbn [prod_map fst snd id].
  case_if; [|reflexivity]. rewrite collect_spans_hom. destruct (collect_spans cfg x4 a4) as [[? ?] ?].
  cbn [prod_map fst snd id]. rewrite send_final_hom. reflexivity.
Qed.

Lemma chunk_hom x a : tick_chunk encode cfg my_gen x (f a) = over (tick_chunk encode cfg my_gen x a).
Proof.
  unfold tick_chunk, spans_chunk. push_hom. do 2 (case_if; [reflexivity|]).
  set (x0 := if negb (periodic_abdicated x) && successor_announced (control a) my_gen then _ else _). clearbody x0.
  rewrite retry_unless_hom. destruct (retry_unless _ LLogs _ _ _) as [x1 a1]. cbn [prod_map fst snd id].
  rewrite shutdown_requested_hom, stop_kind_hom. case_if; [reflexivity|].
  hom_branch.
  { case_if; [|reflexivity]. rewrite collect_logs_hom. destruct (collect_logs cfg x1 a1) as [[? ?] ?]. apply send_collected_hom. }
  rewrite shutdown_requested_hom, stop_kind_hom. case_if; [reflexivity|].
  rewrite retry_unless_hom. destruct (retry_unless _ LSpans _ _ _) as [x3 a3]. cbn [prod_map fst snd id].
  rewrite shutdown_requested_hom, stop_kind_hom. case_if; [reflexivity|].
  hom_branch.
  { case_if; [|reflexivity]. rewrite collect_spans_hom. destruct (collect_spans cfg x3 a3) as [[? ?] ?]. apply send_collected_hom. }
  reflexivity.
Qed.

Lemma sleep_loop_hom fuel : forall slept x a,
  sleep_loop encode fuel cfg my_gen slept x (f a) = over <$> sleep_loop encode fuel cfg my_gen slept x a.
Proof.
  induction fuel as [|fuel IH]; intros slept x a; cbn [sleep_loop]; (case_if; [reflexivity|]); [reflexivity|].
  push_hom. rewrite chunk_hom. destruct (tick_chunk _ _ _ _ _) as [[[] x1] a1]; cbn [prod_map fst snd id]; [apply IH|reflexivity..].
Qed.

Lemma metrics_lane_hom x a : metrics_lane encode cfg x (f a) = over (metrics_lane encode cfg x a).
Proof.
  unfold metrics_lane. push_hom.
  hom_branch. { case_if; [apply retry_hom|reflexivity]. } rewrite shutdown_requested_hom.
  do 2 (case_if; [reflexivity|]). push_hom. destruct (collect_all_sources _ _) as [b a2]. cbn [prod_map fst snd id].
  case_if; [apply fresh_hom|reflexivity].
Qed.

Lemma tick_hom since x a : periodic_tick encode cfg my_gen since x (f a) = over <$> periodic_tick encode cfg my_gen since x a.
Proof.
  unfold periodic_tick, tick_end. rewrite sleep_loop_hom. destruct (sleep_loop _ _ _ _ _ _ _) as [[[k x1] a1]|]; [|reflexivity].
  cbn [fmap option_fmap option_map mbind option_bind prod_map fst snd id]. push_hom. case_if; [reflexivity|]. case_if.
  { rewrite graceful_hom. destruct (graceful_drain _ _ _ _ _). reflexivity. }
  replace (match control a1 with Some c => set_control (set_version (version c +w64 1) c) (f a1) | None => f a1 end)
    with (f (match control a1 with Some c => set_control (set_version (version c +w64 1) c) a1 | None => a1 end))
    by (destruct (control a1); [push_hom|]; reflexivity).
  set (a2 := match control a1 with Some c => _ | None => a1 end). clearbody a2.
  assert (Er : healthy_reset since x1 (f a2) = over (healthy_reset since x1 a2)).
  { unfold healthy_reset. push_hom. case_if; [|reflexivity]. destruct (control a2); [push_hom|]; reflexivity. }
  rewrite Er. destruct (healthy_reset since x1 a2) as [x2 a3]. cbn [prod_map fst snd id]. rewrite metrics_lane_hom.
  destruct (metrics_lane _ _ _ _). reflexivity.
Qed.

(** The loop cannot tell alike worlds apart. *)
Lemma iterations_hom fuel since : forall x a,
  export_iterations encode fuel cfg my_gen since x (f a) = over <$> export_iterations encode fuel cfg my_gen since x a.
Proof.
  induction fuel as [|fuel IH]; intros x a; cbn [export_iterations]; push_hom; (case_if; [reflexivity|]);
    (case_if; [rewrite graceful_hom; destruct (graceful_drain _ _ _ _ _); reflexivity|]); [reflexivity|].
  rewrite tick_hom. destruct (periodic_tick _ _ _ _ _ _) as [[[[] x1] a1]|]; cbn; [apply IH|reflexivity..].
Qed.
End hom.

(** ** A world that remembers *)

(** What came of a send, with the clock when it began and when it ended. *)
Record reply := mk_reply { rp_before : Z; rp_result : send_result; rp_after : Z }.

(** What the exporter did: emptied the rings as they stood at a time, looked at the metrics, made a send, or slept. *)
Inductive event :=
  | EvLogs (zone : list worker_zone) (now : Z)
  | EvSpans (zone : list ring) (now : Z)
  | EvMetrics (b : batch) (now_msec : Z)
  | EvSent (l : lane) (bytes : list Z) (budget : Z) (a : reply)
  | EvSlept (ms : Z).

Record history (W : Type) := mk_history { actual : W; events : list event }.
Arguments mk_history {W} _ _.
Arguments actual {W} _.
Arguments events {W} _.

Definition remember {W} (ev : event) (f : W -> W) (h : history W) : history W :=
  mk_history (f (actual h)) (events h ++ [ev]).
Definition keep_events {W} (f : W -> W) (h : history W) : history W := mk_history (f (actual h)) (events h).

#[export] Instance history_world {W} `{World W} : World (history W) := {
  ngx_current_msec h := ngx_current_msec (actual h);
  now_unix_nano h := now_unix_nano (actual h);
  ngx_quit h := ngx_quit (actual h);
  ngx_terminate h := ngx_terminate (actual h);
  control h := control (actual h);
  set_control c := keep_events (set_control c);
  logs_zone h := logs_zone (actual h);
  set_logs_zone z h := remember (EvLogs (default [] (logs_zone (actual h))) (now_unix_nano (actual h))) (set_logs_zone z) h;
  spans_zone h := spans_zone (actual h);
  set_spans_zone z h := remember (EvSpans (default [] (spans_zone (actual h))) (now_unix_nano (actual h))) (set_spans_zone z) h;
  collect_all_sources c h :=
    let '(b, w) := collect_all_sources c (actual h) in (b, mk_history w (events h ++ [EvMetrics b (ngx_current_msec (actual h))]));
  send l bytes budget h :=
    let '(r, w) := send l bytes budget (actual h) in
    (r, mk_history w (events h ++ [EvSent l bytes budget (mk_reply (ngx_current_msec (actual h)) r (ngx_current_msec w))]));
  sleep ms := remember (EvSlept ms) (sleep ms)
}.

#[export] Instance actual_hom {W} `{World W} : WorldHom (actual (W := W)).
Proof.
  split; intros; cbn; try reflexivity.
  - destruct (collect_all_sources c (actual a)). reflexivity.
  - destruct (send l bytes budget (actual a)). reflexivity.
Qed.

(** Watching commutes with a change of world. *)
Definition history_map {A B} (f : A -> B) (h : history A) : history B := mk_history (f (actual h)) (events h).
#[export] Instance history_hom {A B} `{World A} `{World B} (f : A -> B) `{!WorldHom f} : WorldHom (history_map f).
Proof.
  split; intros; cbn; unfold remember, keep_events, history_map; cbn;
    rewrite ?(hom_msec (f := f)), ?(hom_nano (f := f)), ?(hom_quit (f := f)), ?(hom_terminate (f := f)), ?(hom_control (f := f)), ?(hom_set_control (f := f)),
      ?(hom_logs (f := f)), ?(hom_set_logs (f := f)), ?(hom_spans (f := f)), ?(hom_set_spans (f := f)), ?(hom_sleep (f := f)); try reflexivity.
  - rewrite (hom_collect (f := f)). destruct (collect_all_sources c (actual a)). reflexivity.
  - rewrite (hom_send (f := f)). destruct (send l bytes budget (actual a)). cbn. rewrite ?(hom_msec (f := f)). reflexivity.
Qed.

Definition observe {W} (w : W) : history W := mk_history w [].

(** The times the exporter gave way to the others: it sent or slept. *)
Definition is_wait (ev : event) : bool := match ev with EvSent _ _ _ _ | EvSlept _ => true | _ => false end.
Definition waits (evs : list event) : nat := length (List.filter is_wait evs).

(** The batches of metrics that were made, each with the number of waits before it. *)
Fixpoint metric_looks (k : nat) (evs : list event) : list (nat * batch) :=
  match evs with
  | [] => []
  | EvMetrics b _ :: evs => (k, b) :: metric_looks k evs
  | ev :: evs => metric_looks (if is_wait ev then S k else k) evs
  end.

Lemma waits_app evs evs' : waits (evs ++ evs') = (waits evs + waits evs')%nat.
Proof. unfold waits. rewrite List.filter_app, length_app. reflexivity. Qed.

Lemma metric_looks_app evs evs' : forall k, metric_looks k (evs ++ evs') = metric_looks k evs ++ metric_looks (k + waits evs) evs'.
Proof.
  induction evs as [|ev evs IH]; intros k; [cbn; rewrite Nat.add_0_r; reflexivity|].
  destruct ev; cbn [metric_looks app is_wait]; rewrite IH; unfold waits; cbn [List.filter is_wait length]; rewrite ?Nat.add_succ_r; reflexivity.
Qed.

Lemma metric_looks_In b t evs : EvMetrics b t ∈ evs -> exists k, (k, b) ∈ metric_looks 0 evs.
Proof.
  intros (pre & post & ->)%list_elem_of_split. rewrite metric_looks_app. cbn [metric_looks]. exists (0 + waits pre)%nat. apply elem_of_app. right. left.
Qed.

(** What the transports promise: an HTTP status is always a verdict ([SOk]), never a transport error. *)
Class StatusIsVerdict (W : Type) `{World W} :=
  status_is_verdict l bytes budget (w : W) e : fst (send l bytes budget w) = SErr e -> is_permanent_rejection e = false.

#[export] Instance history_status {W} `{StatusIsVerdict W} : StatusIsVerdict (history W).
Proof.
  intros l bytes budget h e. cbn. destruct (send l bytes budget (actual h)) as [r w] eqn:E. cbn. intros ->.
  apply (status_is_verdict l bytes budget (actual h)). rewrite E. reflexivity.
Qed.

Section accounts.
Context {W : Type} `{StatusIsVerdict W}.
Context (encode : pdata -> list Z) (cfg : export_config).
Implicit Types (x : exporter) (h : history W) (l : lane) (evs : list event).

(** ** Reading the history *)

(** The batch that a collection makes, as it would be queued; an empty one is not sent. *)
Definition batch_of (pd : pdata) : retry_queue :=
  if count_pdata_records pd =? 0 then [] else [(encode pd, count_pdata_records pd)].

Definition collected_logs (zone : list worker_zone) (now : Z) : pdata :=
  process (ec_processor cfg) (PLogs (collect_log_records (ec_resource cfg) (ec_error_log_enabled cfg) zone
    (get_n_workers (ec_n_active_workers cfg) (ec_logs_zone_workers cfg)) now).1.1).
Definition collected_spans (zone : list ring) (now : Z) : pdata :=
  process (ec_processor cfg) (PSpans (collect_span_records (ec_resource cfg) zone
    (get_n_workers (ec_n_active_workers cfg) (ec_spans_zone_workers cfg)) now).1.1).

(** The batches that a lane was given. *)
Definition offered_by l (ev : event) : retry_queue :=
  match ev, l with
  | EvLogs zone now, LLogs => batch_of (collected_logs zone now)
  | EvSpans zone now, LSpans => batch_of (collected_spans zone now)
  | EvMetrics b _, LMetrics => batch_of (process (ec_processor cfg) (PMetrics b))
  | _, _ => []
  end.
Definition offered l evs : retry_queue := evs ≫= offered_by l.

Definition settling (r : send_result) : bool := match r with SOk o => settles o | _ => false end.

(** The batches the collector took or refused for good. *)
Definition settled_by l (ev : event) : list (list Z) :=
  match ev with
  | EvSent l' bytes _ a => if bool_decide (l' = l) && settling (rp_result a) then [bytes] else []
  | _ => []
  end.
Definition settled l evs : list (list Z) := evs ≫= settled_by l.

(** The batches given up: those whose send failed in the final drain. *)
Definition gives_up (budget : Z) (r : send_result) : bool :=
  negb (settling r) && (budget =? GRACEFUL_DRAIN_PER_ATTEMPT_BUDGET).
Definition given_up_by l (ev : event) : list (list Z) :=
  match ev with
  | EvSent l' bytes budget a => if bool_decide (l' = l) && gives_up budget (rp_result a) then [bytes] else []
  | _ => []
  end.
Definition given_up l evs : list (list Z) := evs ≫= given_up_by l.

(** All the bodies sent on a lane. *)
Definition sent_by l (ev : event) : list (list Z) :=
  match ev with EvSent l' bytes _ _ => if bool_decide (l' = l) then [bytes] else [] | _ => [] end.
Definition sent l evs : list (list Z) := evs ≫= sent_by l.

(** The counters of verdicts, and what a send outside the final drain adds to each. *)
Inductive verdict_counter := CPermanent | CPartial | CUnauthorized | CFailures (l : lane).
Definition counter_of (k : verdict_counter) (c : counters) : Z :=
  match k with
  | CPermanent => PERMANENT_REJECTED c
  | CPartial => PARTIAL_REJECTED c
  | CUnauthorized => UNAUTHORIZED_REJECTED c
  | CFailures LMetrics => SEND_FAILURES c
  | CFailures LLogs => LOGS_SEND_FAILURES c
  | CFailures LSpans => TRACES_SEND_FAILURES c
  end.
Definition adds (k : verdict_counter) l (r : send_result) : Z :=
  match k, r with
  | CPermanent, SOk Permanent => 1
  | CPartial, SOk (PartialReject n) => n
  | CUnauthorized, SOk Unauthorized => 1
  | CFailures l', _ => if bool_decide (l = l') && negb (settling r) then 1 else 0
  | _, _ => 0
  end.
Definition counted (k : verdict_counter) (ev : event) : Z :=
  match ev with
  | EvSent l _ budget a => if budget =? PERIODIC_SEND_BUDGET then adds k l (rp_result a) else 0
  | _ => 0
  end.
Definition tally (k : verdict_counter) evs : Z := zsum (map (counted k) evs).

(** *** When the metrics lane is deferred *)

(** The clock readings at the sends of a lane. *)
Definition readings_of l (ev : event) : list Z :=
  match ev with EvSent l' _ _ a => if bool_decide (l' = l) then [rp_before a; rp_after a] else [] | _ => [] end.
Definition readings l evs : list Z := evs ≫= readings_of l.

(** What an answer makes of a lane's backoff when it is counted from [basis]. *)
Definition after_answer (o : delivery_outcome) (basis : Z) (bo : signal_backoff) : signal_backoff :=
  (apply_delivery_outcome o bo basis 0 zero_counters).1.2.

(** The answers outside the final drain. *)
Definition answer_on l (ev : event) : option delivery_outcome :=
  match ev with
  | EvSent l' _ budget a =>
      if bool_decide (l' = l) && (budget =? PERIODIC_SEND_BUDGET) then match rp_result a with SOk o => Some o | _ => None end else None
  | _ => None
  end.

(** The backoff of a lane as its answers leave it: each counts from a clock reading at a send of the lane up to then. *)
Inductive deferral l : list event -> signal_backoff -> Prop :=
  | df_start : deferral l [] backoff_default
  | df_answer evs bo ev o basis : deferral l evs bo -> answer_on l ev = Some o -> basis ∈ readings l (evs ++ [ev]) ->
      deferral l (evs ++ [ev]) (after_answer o basis bo)
  | df_other evs bo ev : deferral l evs bo -> answer_on l ev = None -> deferral l (evs ++ [ev]) bo.

(** The batches given to the metrics lane: every one that is made, but for those made while the lane's backoff is running. *)
Inductive metrics_given : list event -> retry_queue -> Prop :=
  | mg_start : metrics_given [] []
  | mg_taken evs F ev : metrics_given evs F -> metrics_given (evs ++ [ev]) (F ++ offered_by LMetrics ev)
  | mg_deferred evs F b now_msec bo : metrics_given evs F -> deferral LMetrics evs bo -> is_deferred bo now_msec = true ->
      metrics_given (evs ++ [EvMetrics b now_msec]) F.

(** ** The law of one step and of many *)

(** [cong]: the same [u64]. *)
Definition cong (a b : Z) : Prop := wrap 64 a = wrap 64 b.

#[export] Instance cong_equiv : Equivalence cong.
Proof. split; [intros a; reflexivity|intros a b; symmetry; assumption|intros a b c; unfold cong; congruence]. Qed.
#[export] Instance cong_add : Proper (cong ==> cong ==> cong) Z.add.
Proof. intros a a' E b b' E'. unfold cong, wrap in *. rewrite Zplus_mod, E, E', <- Zplus_mod. reflexivity. Qed.
Lemma cong_wrap a : cong (wrap 64 a) a.
Proof. apply wrap_wrap. Qed.

(** What happened on one lane: [F] was given to it, [S] was settled, [U] given up, [C] dropped and credited. *)
Record lane_flow l evs (q q' F S U C : retry_queue) : Prop := {
  lf_fresh : F `sublist_of` offered l evs;
  lf_all : l <> LMetrics -> F = offered l evs;
  lf_settled : map fst S = settled l evs;
  lf_given_up : map fst U = given_up l evs;
  lf_balance : q ++ F ≡ₚ S ++ U ++ C ++ q';
  lf_sent bytes : bytes ∈ sent l evs -> bytes ∈ map fst (q ++ F)
}.

(** The budgets of the sends; the exporter sleeps only where it sends with the periodic one. *)
Definition sends_within (B : Z -> Prop) evs : Prop :=
  Forall (fun ev => match ev with EvSent _ _ budget _ => B budget | EvSlept _ => B PERIODIC_SEND_BUDGET | _ => True end) evs.

(** The metrics lane is given [F] on the way. *)
Definition paced (F : retry_queue) (s s' : exporter * history W) : Prop :=
  deferral LMetrics (events (snd s)) (bo_metrics (fst s)) ->
  deferral LMetrics (events (snd s')) (bo_metrics (fst s')) /\
  forall F0, metrics_given (events (snd s)) F0 -> metrics_given (events (snd s')) (F0 ++ F).

Lemma metrics_given_app evs evs' F : metrics_given evs F -> metrics_given (evs ++ evs') (F ++ offered LMetrics evs').
Proof.
  revert evs F. induction evs' as [|ev evs' IH]; intros evs F Hg; [rewrite !app_nil_r; exact Hg|].
  rewrite (cons_middle ev evs evs'). rewrite app_assoc. unfold offered in *. rewrite bind_cons, app_assoc. apply IH, mg_taken, Hg.
Qed.

(** All that is made is given. *)
Lemma paced_taken evs x h x' h' : events h' = events h ++ evs ->
  (deferral LMetrics (events h) (bo_metrics x) -> deferral LMetrics (events h ++ evs) (bo_metrics x')) ->
  paced (offered LMetrics evs) (x, h) (x', h').
Proof. intros E Hd Hd0. cbn [fst snd] in *. rewrite E. split; [auto|]. intros F0. apply metrics_given_app. Qed.

(** Events that answer nothing on the metrics lane. *)
Lemma deferral_quiet l evs evs' bo : Forall (fun ev => answer_on l ev = None) evs' -> deferral l evs bo -> deferral l (evs ++ evs') bo.
Proof.
  intros Hq. revert evs. induction Hq as [|ev evs' He _ IH]; intros evs Hd; [rewrite app_nil_r; exact Hd|].
  rewrite (cons_middle ev evs evs'), app_assoc. apply IH, df_other; assumption.
Qed.

(** A part of a run whose sends have budgets in [B]. *)
Definition flow (B : Z -> Prop) (s s' : exporter * history W) : Prop :=
  exists evs, events (snd s') = events (snd s) ++ evs /\ sends_within B evs /\
  exists F S U C : lane -> retry_queue,
    (forall l, lane_flow l evs (lane_queue l (fst s)) (lane_queue l (fst s')) (F l) (S l) (U l) (C l)) /\
    cong (DROPPED_RECORDS (stats (fst s')))
      (DROPPED_RECORDS (stats (fst s)) + (queue_records (C LMetrics) + queue_records (C LLogs) + queue_records (C LSpans))) /\
    (forall k, cong (counter_of k (stats (fst s'))) (counter_of k (stats (fst s)) + tally k evs)) /\
    paced (F LMetrics) s s'.

Lemma tally_app k evs evs' : tally k (evs ++ evs') = tally k evs + tally k evs'.
Proof. unfold tally. rewrite map_app. apply zsum_app. Qed.

Lemma lane_flow_nil l q : lane_flow l [] q q [] [] [] [].
Proof. split; try reflexivity; [rewrite app_nil_r; reflexivity|]. intros bytes Hin. inversion Hin. Qed.

Lemma lane_flow_kept l evs q q' F S U C : lane_flow l evs q q' F S U C -> forall b, b ∈ map fst q' -> b ∈ map fst (q ++ F).
Proof. intros [_ _ _ _ B _] b Hb. rewrite B, !map_app, !elem_of_app. auto. Qed.

Lemma lane_flow_app l evs evs' q q1 q2 F S U C F' S' U' C' :
  lane_flow l evs q q1 F S U C -> lane_flow l evs' q1 q2 F' S' U' C' ->
  lane_flow l (evs ++ evs') q q2 (F ++ F') (S ++ S') (U ++ U') (C ++ C').
Proof.
  intros HA [B1 B2 B3 B4 B5 B6]. pose proof (lane_flow_kept _ _ _ _ _ _ _ _ HA) as HK. destruct HA as [A1 A2 A3 A4 A5 A6].
  split; unfold offered, settled, given_up, sent in *; rewrite ?bind_app, ?map_app.
  - apply sublist_app; assumption.
  - intros Hl. rewrite A2, B2 by exact Hl. reflexivity.
  - congruence.
  - congruence.
  - rewrite app_assoc, A5. rewrite <- !app_assoc. etrans; [|do 3 apply Permutation_app_head; rewrite Permutation_app_comm; reflexivity].
    rewrite B5. solve_Permutation.
  - intros bytes. rewrite !elem_of_app. rewrite map_app in A6, B6, HK. setoid_rewrite elem_of_app in A6. setoid_rewrite elem_of_app in B6.
    setoid_rewrite elem_of_app in HK. intros [Hb|Hb]; [apply A6 in Hb; tauto|]. apply B6 in Hb as [Hb|Hb]; [apply HK in Hb|]; tauto.
Qed.

#[export] Instance flow_preorder B : PreOrder (flow B).
Proof.
  split.
  - intros [x h]. exists []. rewrite app_nil_r. split; [reflexivity|]. split; [constructor|].
    exists (fun _ => []), (fun _ => []), (fun _ => []), (fun _ => []). split; [intros; apply lane_flow_nil|].
    cbn. split; [rewrite Z.add_0_r; reflexivity|]. split; [intros k; rewrite Z.add_0_r; reflexivity|].
    intros Hd. split; [exact Hd|]. intros F0. rewrite app_nil_r. auto.
  - intros s1 s2 s3 (e1 & E1 & B1 & F1 & S1 & U1 & C1 & L1 & D1 & K1 & P1) (e2 & E2 & B2 & F2 & S2 & U2 & C2 & L2 & D2 & K2 & P2).
    exists (e1 ++ e2). split; [rewrite E2, E1, app_assoc; reflexivity|]. split; [apply Forall_app; auto|].
    exists (fun l => F1 l ++ F2 l), (fun l => S1 l ++ S2 l), (fun l => U1 l ++ U2 l), (fun l => C1 l ++ C2 l).
    split_and!; [intros l; eapply lane_flow_app; eauto| | |].
    + rewrite D2, D1, !queue_records_app. unfold cong. f_equal. lia.
    + intros k. rewrite K2, K1, tally_app. unfold cong. f_equal. lia.
    + intros Hd. destruct (P1 Hd) as [Hd1 G1]. destruct (P2 Hd1) as [Hd2 G2]. split; [exact Hd2|]. intros F0 Hg. rewrite app_assoc. auto.
Qed.

Lemma flow_weaken (B B' : Z -> Prop) s s' : (forall b, B b -> B' b) -> flow B s s' -> flow B' s s'.
Proof.
  intros HB (evs & E & Hs & R). exists evs. split_and!; auto. eapply Forall_impl; [|exact Hs]. intros []; auto.
Qed.

(** ** Single steps *)

(** Nothing of a lane is touched. *)
Lemma flow_none B evs x h x' h' :
  events h' = events h ++ evs -> sends_within B evs -> (forall l, settled l evs = [] /\ given_up l evs = [] /\ sent l evs = [] /\ (l <> LMetrics -> offered l evs = [])) ->
  (forall l, lane_queue l x' = lane_queue l x) -> DROPPED_RECORDS (stats x') = DROPPED_RECORDS (stats x) ->
  (forall k, counter_of k (stats x') = counter_of k (stats x)) -> (forall k, tally k evs = 0) ->
  paced [] (x, h) (x', h') -> flow B (x, h) (x', h').
Proof.
  intros E Hb He Hq Hd Hk Ht Hp. exists evs. split; [exact E|]. split; [exact Hb|].
  exists (fun _ => []), (fun _ => []), (fun _ => []), (fun _ => []). cbn [fst snd]. split_and!.
  - intros l. destruct (He l) as (E1 & E2 & E4 & E3). split; rewrite ?E1, ?E2, ?E4, ?Hq, ?app_nil_r; try reflexivity; [apply sublist_nil_l| |].
    + intros Hl. rewrite E3 by exact Hl. reflexivity.
    + intros bytes Hin. inversion Hin.
  - rewrite Hd. cbn. rewrite Z.add_0_r. reflexivity.
  - intros k. rewrite Hk, Ht, Z.add_0_r. reflexivity.
  - exact Hp.
Qed.

Lemma flow_same B x h x' h' : events h' = events h -> (forall l, lane_queue l x' = lane_queue l x) ->
  bo_metrics x' = bo_metrics x -> stats x' = stats x -> flow B (x, h) (x', h').
Proof.
  intros E Hq Hbo Hs. apply (flow_none B []); rewrite ?app_nil_r, ?Hs; auto; [constructor|].
  intros Hd. cbn [fst snd] in *. rewrite E, Hbo. split; [exact Hd|]. intros F0. rewrite app_nil_r. auto.
Qed.

Lemma slept_flow ms x h : flow (eq PERIODIC_SEND_BUDGET) (x, h) (x, sleep ms h).
Proof.
  apply (flow_none _ [EvSlept ms]); try reflexivity; [repeat constructor|intros l; destruct l; auto|].
  apply (paced_taken [EvSlept ms]); [reflexivity|]. apply deferral_quiet. repeat constructor.
Qed.

(** One lane is touched. *)
Lemma flow_one B l evs F S U C x h x' h' :
  events h' = events h ++ evs -> sends_within B evs -> (forall l', l' <> l -> lane_queue l' x' = lane_queue l' x) ->
  (forall l', l' <> l -> offered l' evs = [] /\ settled l' evs = [] /\ given_up l' evs = [] /\ sent l' evs = []) ->
  lane_flow l evs (lane_queue l x) (lane_queue l x') F S U C ->
  cong (DROPPED_RECORDS (stats x')) (DROPPED_RECORDS (stats x) + queue_records C) ->
  (forall k, cong (counter_of k (stats x')) (counter_of k (stats x) + tally k evs)) ->
  F = offered l evs -> (deferral LMetrics (events h) (bo_metrics x) -> deferral LMetrics (events h ++ evs) (bo_metrics x')) ->
  flow B (x, h) (x', h').
Proof.
  intros E Hb Hq He Hl Hd Hk HF Hp. exists evs. split; [exact E|]. split; [exact Hb|].
  set (only (q : retry_queue) l' := if decide (l' = l) then q else []).
  exists (only F), (only S), (only U), (only C). cbn [fst snd]. split_and!; [| |exact Hk|].
  - intros l'. unfold only. destruct (decide (l' = l)) as [->|Hn]; [exact Hl|].
    destruct (He l' Hn) as (E1 & E2 & E3 & E4). rewrite (Hq l' Hn). split; rewrite ?E1, ?E2, ?E3, ?E4, ?app_nil_r; try reflexivity.
    intros bytes Hin. inversion Hin.
  - rewrite Hd. unfold only. destruct l; repeat (destruct (decide _); try congruence); unfold cong; f_equal; cbn; lia.
  - replace (only F LMetrics) with (offered LMetrics evs); [apply paced_taken; assumption|].
    unfold only. destruct (decide (LMetrics = l)) as [<-|Hn]; [congruence|apply He; exact Hn].
Qed.

(** Sends of one lane. *)
Definition sends l (budget : Z) (rs : list (list Z * reply)) : list event :=
  map (fun '(bytes, a) => EvSent l bytes budget a) rs.

Lemma sends_cons l budget bytes a rs : sends l budget ((bytes, a) :: rs) = EvSent l bytes budget a :: sends l budget rs.
Proof. reflexivity. Qed.

Lemma sends_budget l budget rs : sends_within (eq budget) (sends l budget rs).
Proof. apply Forall_map, Forall_forall. intros [bytes r] _. reflexivity. Qed.

Lemma sends_offer l l' budget rs : offered l' (sends l budget rs) = [].
Proof. induction rs as [|[bytes r] rs IH]; [reflexivity|]. destruct l'; exact IH. Qed.

Lemma sends_other l l' budget rs : l' <> l ->
  offered l' (sends l budget rs) = [] /\ settled l' (sends l budget rs) = [] /\ given_up l' (sends l budget rs) = [] /\
  sent l' (sends l budget rs) = [].
Proof.
  intros Hn. split; [apply sends_offer|]. induction rs as [|[bytes r] rs (I1 & I2 & I3)]; [auto|].
  rewrite sends_cons. cbn. rewrite bool_decide_eq_false_2 by congruence. auto.
Qed.

Lemma sends_sent l budget rs : sent l (sends l budget rs) = map fst rs.
Proof.
  induction rs as [|[bytes r] rs IH]; [reflexivity|]. rewrite sends_cons. unfold sent in *. rewrite bind_cons, IH. cbn.
  rewrite bool_decide_eq_true_2 by reflexivity. reflexivity.
Qed.

Lemma settled_cons l bytes budget a evs :
  settled l (EvSent l bytes budget a :: evs) = (if settling (rp_result a) then [bytes] else []) ++ settled l evs.
Proof. cbn. rewrite bool_decide_eq_true_2 by reflexivity. reflexivity. Qed.
Lemma given_up_cons l bytes budget a evs :
  given_up l (EvSent l bytes budget a :: evs) = (if gives_up budget (rp_result a) then [bytes] else []) ++ given_up l evs.
Proof. cbn. rewrite bool_decide_eq_true_2 by reflexivity. reflexivity. Qed.

(** The clock is read before a send and after it. *)
Definition timed h (r : send_result) h' : reply := mk_reply (ngx_current_msec h) r (ngx_current_msec h').

Lemma send_events l bytes budget h r h' : send l bytes budget h = (r, h') ->
  events h' = events h ++ sends l budget [(bytes, timed h r h')].
Proof. cbn. destruct (send l bytes budget (actual h)). intros [= <- <-]. reflexivity. Qed.

(** Sends on another lane, or in the final drain, do not change the deferral of the metrics lane. *)
Lemma sends_quiet l budget rs : l <> LMetrics \/ budget <> PERIODIC_SEND_BUDGET -> Forall (fun ev => answer_on LMetrics ev = None) (sends l budget rs).
Proof.
  intros Hl. apply Forall_map, Forall_forall. intros [bytes a] _. cbn. destruct Hl as [Hl|Hl]; [rewrite bool_decide_eq_false_2 by exact Hl; reflexivity|].
  rewrite (proj2 (Z.eqb_neq _ _) Hl), andb_false_r. reflexivity.
Qed.

(** Batches that were all answered: each was settled, or given up if the budget is that of the final drain. *)
Lemma handled_sends ok l budget q h h' : handled ok l budget q h h' ->
  (budget = GRACEFUL_DRAIN_PER_ATTEMPT_BUDGET \/ forall o, ok o = true -> settles o = true) ->
  exists rs S U, events h' = events h ++ sends l budget rs /\ q ≡ₚ S ++ U /\
    map fst S = settled l (sends l budget rs) /\ map fst U = given_up l (sends l budget rs) /\
    ((forall o, ok o = true -> settles o = true) -> U = []) /\ map fst rs = map fst q.
Proof.
  intros Hh Hb. induction Hh as [h|bytes n rest o h h1 h2 Es Ho Hh (rs & S & U & I1 & I2 & I3 & I4 & I5 & I6)].
  { exists [], [], []. rewrite app_nil_r. auto 7. }
  apply send_events in Es. exists ((bytes, timed h (SOk o) h1) :: rs).
  assert (E : events h2 = events h ++ sends l budget ((bytes, timed h (SOk o) h1) :: rs)) by (rewrite I1, Es, <- app_assoc; reflexivity).
  rewrite sends_cons, settled_cons, given_up_cons, <- I3, <- I4, <- sends_cons. unfold gives_up. cbn [settling timed rp_result].
  destruct (settles o) eqn:Eo; cbn [negb andb app].
  - exists ((bytes, n) :: S), U. cbn. split_and!; auto. congruence.
  - destruct Hb as [->|Hb]; [|rewrite (Hb o Ho) in Eo; discriminate].
    exists S, ((bytes, n) :: U). cbn. split_and!; auto; [rewrite I2; apply Permutation_middle| |congruence].
    intros Hs. rewrite (Hs o Ho) in Eo. discriminate.
Qed.

(** ** Counters of verdicts *)

Lemma enqueue_counter k q bytes n depth c : let '(_, _, c') := enqueue_with_eviction q bytes n depth c in
  counter_of k c' = counter_of k c.
Proof. unfold enqueue_with_eviction. case_if; [destruct q as [|[? ?] ?]|]; destruct k as [| | |[]]; reflexivity. Qed.

Lemma bump_counter l k c r : settling r = false -> (forall o, r = SOk o -> exists hint, o = Retryable hint) ->
  cong (counter_of k (bump_failure l c)) (counter_of k c + adds k l r).
Proof.
  intros Hr Ho.
  assert (Ha : adds k l r = match k with CFailures l' => if bool_decide (l = l') then 1 else 0 | _ => 0 end).
  { destruct r as [o| |]; [destruct (Ho o eq_refl) as [hint ->]| |]; destruct k; cbn; rewrite ?andb_true_r; reflexivity. }
  rewrite Ha. destruct k as [| | |[]]; destruct l; cbn; rewrite ?Z.add_0_r, ?cong_wrap, ?Z.add_0_r; reflexivity.
Qed.

Lemma apply_counter l k o b now lnow c action b' c' : apply_delivery_outcome o b now lnow c = (action, b', c') ->
  cong (counter_of k (match action with Requeue => bump_failure l c' | _ => c' end)) (counter_of k c + adds k l (SOk o)).
Proof.
  destruct o; cbn; intros [= <- <- <-].
  1,2,4: destruct k as [| | |l']; cbn; rewrite ?andb_false_r, ?Z.add_0_r, ?cong_wrap, ?Z.add_0_r; try reflexivity; destruct l'; reflexivity.
  - apply bump_counter; [reflexivity|]. intros o [= <-]. eauto.
  - unfold maybe_log_unauthorized. destruct k as [| | |l']; case_if; cbn; rewrite ?andb_false_r, ?Z.add_0_r, ?cong_wrap, ?Z.add_0_r;
      try reflexivity; destruct l'; reflexivity.
Qed.

Lemma retry_loop_tally l depth now snapshot : forall failed q b c h,
  let '(_, _, c', h') := retry_loop l depth now snapshot failed q b c h in
  exists evs, events h' = events h ++ evs /\ forall k, cong (counter_of k c') (counter_of k c + tally k evs).
Proof.
  induction snapshot as [|[bytes n] rest IH]; intros failed q b c h; cbn [retry_loop].
  { exists []. rewrite app_nil_r. split; [reflexivity|]. intros k. unfold tally. cbn. rewrite Z.add_0_r. reflexivity. }
  (** The rest of the loop after a queueing, and after a send. *)
  assert (Hq : forall q b c h, let '(_, _, c', h') := (let '(q, c) := (let '(_, q, c) := enqueue_with_eviction q bytes n depth c in (q, c)) in
                 retry_loop l depth now rest true q b c h) in
    exists evs, events h' = events h ++ evs /\ forall k, cong (counter_of k c') (counter_of k c + tally k evs)).
  { clear -IH. intros q b c h. pose proof (fun k => enqueue_counter k q bytes n depth c) as Ek.
    destruct (enqueue_with_eviction _ _ _ _ _) as [[? q'] c1]. specialize (IH true q' b c1 h).
    destruct (retry_loop _ _ _ _ _ _ _ _ _) as [[[? ?] ?] ?]. setoid_rewrite Ek in IH. exact IH. }
  destruct failed; [apply Hq|]. clear -IH Hq.
  destruct (send l bytes PERIODIC_SEND_BUDGET h) as [r h1] eqn:Es. apply send_events in Es.
  assert (Hc : forall c1 (t : retry_queue * signal_backoff * counters * history W),
    (forall k, cong (counter_of k c1) (counter_of k c + adds k l r)) ->
    (let '(_, _, c', h') := t in exists evs, events h' = events h1 ++ evs /\ forall k, cong (counter_of k c') (counter_of k c1 + tally k evs)) ->
    let '(_, _, c', h') := t in exists evs, events h' = events h ++ evs /\ forall k, cong (counter_of k c') (counter_of k c + tally k evs)).
  { intros c1 [[[q' b'] c'] h'] Hk (evs & E & Ht). exists (sends l PERIODIC_SEND_BUDGET [(bytes, timed h r h1)] ++ evs).
    split; [rewrite E, Es, app_assoc; reflexivity|]. intros k. rewrite Ht, Hk, tally_app. unfold tally at 2. cbn. rewrite Z.add_0_r, Z.add_assoc. reflexivity. }
  destruct r as [o|e|].
  - destruct (apply_delivery_outcome _ _ _ _ _) as [[action b'] c'] eqn:Ea.
    pose proof (fun k => apply_counter l k _ _ _ _ _ _ _ _ Ea) as Hk.
    destruct action; (eapply Hc; [exact Hk|]); [apply IH|apply Hq|apply IH].
  - assert (Hk : forall k, cong (counter_of k (bump_failure l c)) (counter_of k c + adds k l (SErr e))) by (intros; apply bump_counter; [reflexivity|discriminate]).
    case_if; (eapply Hc; [exact Hk|]); [apply IH|apply Hq].
  - eapply Hc; [intros k; apply bump_counter; [reflexivity|discriminate]|apply Hq].
Qed.

Lemma after_answer_eq o bo now lnow c action bo' c' : apply_delivery_outcome o bo now lnow c = (action, bo', c') -> bo' = after_answer o now bo.
Proof. destruct o; cbn; intros [= _ <- _]; reflexivity. Qed.

Lemma answered_deferral bytes h r h1 bo o basis : r = SOk o -> basis = ngx_current_msec h \/ basis = ngx_current_msec h1 \/ basis ∈ readings LMetrics (events h) ->
  deferral LMetrics (events h) bo ->
  deferral LMetrics (events h ++ sends LMetrics PERIODIC_SEND_BUDGET [(bytes, timed h r h1)]) (after_answer o basis bo).
Proof.
  intros -> Hb Hd. apply df_answer; [exact Hd|reflexivity|]. unfold readings. rewrite bind_app. apply elem_of_app.
  change (basis ∈ readings LMetrics (events h) \/ basis ∈ [ngx_current_msec h; ngx_current_msec h1]). rewrite !elem_of_cons. tauto.
Qed.

(** A retry pass counts from the clock at its start, which is the reading before its first send. *)
Lemma retry_deferral depth now snapshot : forall failed q bo c h,
  failed = true \/ now = ngx_current_msec h \/ now ∈ readings LMetrics (events h) -> deferral LMetrics (events h) bo ->
  let '(_, bo', _, h') := retry_loop LMetrics depth now snapshot failed q bo c h in deferral LMetrics (events h') bo'.
Proof.
  induction snapshot as [|[bytes n] rest IH]; intros failed q bo c h Hn Hd; cbn [retry_loop]; [exact Hd|].
  assert (Hq : forall q bo c h, deferral LMetrics (events h) bo ->
    let '(_, bo', _, h') := (let '(q, c) := (let '(_, q, c) := enqueue_with_eviction q bytes n depth c in (q, c)) in retry_loop LMetrics depth now rest true q bo c h) in
    deferral LMetrics (events h') bo').
  { intros q' bo' c' h' Hd'. destruct (enqueue_with_eviction _ _ _ _ _) as [[? ?] ?]. apply IH; auto. }
  destruct failed; [apply Hq, Hd|]. destruct Hn as [|Hn]; [discriminate|].
  destruct (send LMetrics bytes PERIODIC_SEND_BUDGET h) as [r h1] eqn:Es. apply send_events in Es.
  destruct r as [o|e|].
  2,3: assert (Hd1 : deferral LMetrics (events h1) bo) by (rewrite Es; apply df_other; [exact Hd|reflexivity]).
  - destruct (apply_delivery_outcome _ _ _ _ _) as [[action bo'] c'] eqn:Ea. apply after_answer_eq in Ea as ->.
    assert (Hd1 : deferral LMetrics (events h1) (after_answer o now bo)) by (rewrite Es; apply answered_deferral; tauto).
    assert (Hn1 : now ∈ readings LMetrics (events h1)).
    { rewrite Es. unfold readings. rewrite bind_app, elem_of_app. destruct Hn as [->|Hn]; [right; cbn; left|left; exact Hn]. }
    destruct action; [apply IH; auto|apply Hq, Hd1|apply IH; auto].
  - case_if; [apply IH; auto|apply Hq, Hd1].
  - apply Hq, Hd1.
Qed.

(** A retry pass: the batch that stops it is still queued. *)
Lemma retry_flow l depth x h : exporter_ok depth x -> flow (eq PERIODIC_SEND_BUDGET) (x, h) (drain_retry_queue_once l depth x h).
Proof.
  intros [Hq Hc]. unfold drain_retry_queue_once, drain_retry_queue_once_with_timer.
  pose proof (retry_loop_spec l depth (ngx_current_msec h) _ (lane_backoff l x) (stats x) h (Hq l) Hc) as Sp.
  pose proof (retry_loop_tally l depth (ngx_current_msec h) (lane_queue l x) false [] (lane_backoff l x) (stats x) h) as Ta.
  assert (Df : deferral LMetrics (events h) (bo_metrics x) -> l = LMetrics ->
    let '(_, bo', _, h') := retry_loop l depth (ngx_current_msec h) (lane_queue l x) false [] (lane_backoff l x) (stats x) h in deferral LMetrics (events h') bo').
  { intros Hd ->. apply retry_deferral; auto. }
  destruct (retry_loop _ _ _ _ _ _ _ _ _) as [[[q' b'] c'] h'].
  destruct Sp as (Hd & done & rest & h1 & Eq & Hh & Hrest). destruct Ta as (evs & Ee & Ht).
  apply handled_sends in Hh as (rs & S & U & E1 & P1 & ES & EU & HU & ER); [|right; auto].
  rewrite (HU (fun _ H => H)) in *. clear HU. rewrite app_nil_r in P1.
  assert (Hflow : exists rs' U', events h' = events h ++ sends l PERIODIC_SEND_BUDGET rs' /\
    lane_flow l (sends l PERIODIC_SEND_BUDGET rs') (lane_queue l x) q' [] S U' []).
  { destruct rest as [|[bytes n] rest].
    - destruct Hrest as [-> ->]. exists rs, []. split; [exact E1|]. rewrite app_nil_r in Eq.
      split; rewrite ?sends_offer, ?app_nil_r, ?sends_sent, ?ER; auto; rewrite Eq; auto.
    - destruct Hrest as (r & Es & Hr). pose proof (status_is_verdict l bytes PERIODIC_SEND_BUDGET h1) as Hst.
      rewrite Es in Hst. cbn [fst] in Hst. apply send_events in Es. set (a := timed h1 r h') in *. exists (rs ++ [(bytes, a)]).
      assert (E2 : sends l PERIODIC_SEND_BUDGET (rs ++ [(bytes, a)]) = sends l PERIODIC_SEND_BUDGET rs ++ [EvSent l bytes PERIODIC_SEND_BUDGET a])
        by apply map_app.
      exists []. split; [rewrite Es, E1, E2, app_assoc; reflexivity|].
      split; rewrite ?sends_offer; try reflexivity; rewrite ?E2; unfold settled, given_up in *; rewrite ?bind_app, <- ?ES, <- ?EU.
      + fold (settled l [EvSent l bytes PERIODIC_SEND_BUDGET a]). rewrite settled_cons. change (rp_result a) with r.
        assert (settling r = false) as -> by (destruct r as [o| |]; cbn in *; [destruct (settles o)|..]; congruence). rewrite app_nil_r. reflexivity.
      + fold (given_up l [EvSent l bytes PERIODIC_SEND_BUDGET a]). rewrite given_up_cons. unfold gives_up. rewrite andb_false_r. reflexivity.
      + rewrite Eq, P1, !app_nil_r. destruct r as [o|e|]; cbn in Hr |- *.
        * destruct (settles o); [discriminate|]. injection Hr as <-. reflexivity.
        * rewrite (Hst e eq_refl) in Hr. injection Hr as <-. reflexivity.
        * injection Hr as <-. reflexivity.
      + intros b. rewrite <- E2, sends_sent, map_app, ER, Eq, app_nil_r, map_app. cbn. rewrite !elem_of_app, !elem_of_cons, elem_of_nil. tauto. }
  destruct Hflow as (rs' & U' & E2 & Hl).
  assert (evs = sends l PERIODIC_SEND_BUDGET rs') as -> by (apply (app_inv_head (events h)); congruence).
  eapply (flow_one _ l); rewrite ?stats_set_lane; [exact E2|apply sends_budget| |intros; apply sends_other; assumption| | |exact Ht|symmetry; apply sends_offer|].
  - intros l' Hn. rewrite lane_queue_set. destruct l, l'; congruence || reflexivity.
  - rewrite lane_queue_set. destruct l; exact Hl.
  - rewrite Hd. cbn. rewrite Z.add_0_r. reflexivity.
  - intros Hdf. destruct (decide (l = LMetrics)) as [->|Hn]; [rewrite <- E2; apply Df; auto|].
    replace (bo_metrics (set_lane l q' b' c' x)) with (bo_metrics x) by (destruct l; [congruence|reflexivity..]).
    apply deferral_quiet; [apply sends_quiet; auto|exact Hdf].
Qed.

(** ** A collection and the send of its batch *)

Definition is_collection (ev : event) : bool := match ev with EvSent _ _ _ _ | EvSlept _ => false | _ => true end.

Lemma collection_silent ev : is_collection ev = true ->
  (forall l, settled_by l ev = [] /\ given_up_by l ev = [] /\ sent_by l ev = []) /\ forall k, counted k ev = 0.
Proof. destruct ev; try discriminate; auto. Qed.

(** [x] and [h] are [x0] and [h0] right after the collection [ev] of [pd]. *)
Record collects (ev : event) (pd : pdata) x0 h0 x h : Prop := {
  co_kind : is_collection ev = true;
  co_events : events h = events h0 ++ [ev];
  co_queue l : lane_queue l x = lane_queue l x0;
  co_dropped : DROPPED_RECORDS (stats x) = DROPPED_RECORDS (stats x0);
  co_counters k : counter_of k (stats x) = counter_of k (stats x0);
  co_backoff : bo_metrics x = bo_metrics x0;
  co_offers l : offered_by l ev = if decide (l = pdata_lane pd) then batch_of pd else []
}.

(** The batch is sent once ([rs] has at most one element), settled or given up, or else queued. *)
Lemma collected_flow ev pd x0 h0 x h budget rs q C x' h' :
  let l := pdata_lane pd in
  collects ev pd x0 h0 x h -> events h' = events h ++ sends l budget rs ->
  (forall l', l' <> l -> lane_queue l' x' = lane_queue l' x) -> lane_queue l x' = q ->
  (exists S U, lane_queue l x ++ batch_of pd ≡ₚ S ++ U ++ C ++ q /\
    map fst S = settled l (sends l budget rs) /\ map fst U = given_up l (sends l budget rs)) -> map fst rs ⊆ map fst (batch_of pd) ->
  cong (DROPPED_RECORDS (stats x')) (DROPPED_RECORDS (stats x) + queue_records C) ->
  (forall k, cong (counter_of k (stats x')) (counter_of k (stats x) + tally k (sends l budget rs))) ->
  (deferral LMetrics (events h) (bo_metrics x) -> deferral LMetrics (events h') (bo_metrics x')) ->
  flow (eq budget) (x0, h0) (x', h').
Proof.
  intros l [Hk He Hq Hd Hc Hbo Ho] E Hl <- (S & U & P & ES & EU) HR HD HT HP. destruct (collection_silent ev Hk) as [Hs Hn].
  eapply (flow_one _ l (ev :: sends l budget rs) (batch_of pd) S U C).
  - rewrite E, He, <- app_assoc. reflexivity.
  - constructor; [destruct ev; try discriminate; exact I|apply sends_budget].
  - intros l' N. rewrite (Hl l' N). apply Hq.
  - intros l' N. destruct (sends_other l l' budget rs N) as (O1 & O2 & O3 & O4). destruct (Hs l') as (S1 & S2 & S3).
    unfold offered, settled, given_up, sent in *. rewrite !bind_cons, O1, O2, O3, O4, S1, S2, S3, Ho, decide_False by exact N. auto.
  - pose proof (sends_offer l l budget rs) as O1. pose proof (sends_sent l budget rs) as O4. destruct (Hs l) as (S1 & S2 & S3).
    unfold offered, settled, given_up, sent in *.
    split; unfold offered, settled, given_up, sent; rewrite ?bind_cons, ?O1, ?O4, ?S1, ?S2, ?S3, ?Ho, ?decide_True by reflexivity; rewrite ?app_nil_r; auto.
    + rewrite <- Hq. exact P.
    + intros b Hb. rewrite map_app, elem_of_app. right. apply HR. exact Hb.
  - rewrite HD, Hd. reflexivity.
  - intros k. rewrite HT, Hc. unfold tally. cbn [map zsum]. rewrite Hn. reflexivity.
  - unfold offered. rewrite bind_cons. fold (offered l (sends l budget rs)). rewrite sends_offer, Ho, decide_True, app_nil_r by reflexivity. reflexivity.
  - intros Hdf. replace (events h0 ++ ev :: sends l budget rs) with (events h') by (rewrite E, He, <- app_assoc; reflexivity). apply HP.
    rewrite He, Hbo. apply df_other; [exact Hdf|]. destruct ev; try discriminate; reflexivity.
Qed.

Lemma fresh_counters pd depth x h k : count_pdata_records pd <> 0 ->
  let '(x', h') := send_fresh_batch encode pd depth x h in
  forall r, fst (send (pdata_lane pd) (encode pd) PERIODIC_SEND_BUDGET h) = r ->
  cong (counter_of k (stats x')) (counter_of k (stats x) + adds k (pdata_lane pd) r).
Proof.
  intros Hn. unfold send_fresh_batch. rewrite (proj2 (Z.eqb_neq _ _) Hn).
  set (l := pdata_lane pd). destruct (send l (encode pd) PERIODIC_SEND_BUDGET h) as [r h1]. cbn [fst].
  assert (Hf : forall c r, settling r = false -> (forall o, r = SOk o -> exists hint, o = Retryable hint) ->
    let '(_, q, c') := enqueue_with_eviction (lane_queue l x) (encode pd) (count_pdata_records pd) depth c in
    cong (counter_of k (bump_failure l c')) (counter_of k c + adds k l r)).
  { intros c r0 Hr Ho. pose proof (enqueue_counter k (lane_queue l x) (encode pd) (count_pdata_records pd) depth c) as Ek.
    destruct (enqueue_with_eviction _ _ _ _ _) as [[? ?] c']. rewrite <- Ek. apply bump_counter; assumption. }
  destruct r as [o|e|].
  - unfold apply_fresh_send_outcome, handle_fresh_send_outcome.
    destruct (apply_delivery_outcome _ _ _ _ _) as [[action b'] c'] eqn:Ea. pose proof (apply_counter l k _ _ _ _ _ _ _ _ Ea) as Hk.
    destruct action.
    1,3: rewrite stats_set_lane; intros ? <-; exact Hk.
    pose proof (enqueue_counter k (lane_queue l x) (encode pd) (count_pdata_records pd) depth c') as Ek.
    destruct (enqueue_with_eviction _ _ _ _ _) as [[? ?] c2]. rewrite stats_set_lane. intros ? <-. rewrite <- Hk.
    destruct k as [| | |[]]; cbn in Ek |- *; rewrite Ek; reflexivity.
  - specialize (Hf (stats x) (SErr e) eq_refl ltac:(discriminate)).
    destruct (enqueue_with_eviction _ _ _ _ _) as [[? ?] c2]. rewrite stats_set_lane. intros ? <-. exact Hf.
  - specialize (Hf (stats x) SDeadline eq_refl ltac:(discriminate)).
    destruct (enqueue_with_eviction _ _ _ _ _) as [[? ?] c2]. rewrite stats_set_lane. intros ? <-. exact Hf.
Qed.

Lemma fresh_other pd depth x h l : l <> pdata_lane pd ->
  lane_queue l (fst (send_fresh_batch encode pd depth x h)) = lane_queue l x.
Proof.
  intros Hn. unfold send_fresh_batch. case_if; [reflexivity|].
  assert (Hs : forall q b c, lane_queue l (set_lane (pdata_lane pd) q b c x) = lane_queue l x)
    by (intros; rewrite lane_queue_set; destruct (pdata_lane pd), l; congruence || reflexivity).
  destruct (send _ _ _ h) as [[o|e|] h1].
  - destruct (apply_fresh_send_outcome _ _ _ _ _ _ _ _ _) as [[[? ?] ?] ?]. apply Hs.
  - destruct (enqueue_with_eviction _ _ _ _ _) as [[? ?] ?]. apply Hs.
  - destruct (enqueue_with_eviction _ _ _ _ _) as [[? ?] ?]. apply Hs.
Qed.

Lemma tally_send l budget bytes a k : tally k (sends l budget [(bytes, a)]) = if budget =? PERIODIC_SEND_BUDGET then adds k l (rp_result a) else 0.
Proof. unfold tally. cbn. rewrite Z.add_0_r. reflexivity. Qed.

(** A fresh send counts from the clock at its end. *)
Lemma fresh_deferral pd depth x h : deferral LMetrics (events h) (bo_metrics x) ->
  let '(x', h') := send_fresh_batch encode pd depth x h in deferral LMetrics (events h') (bo_metrics x').
Proof.
  intros Hd. unfold send_fresh_batch. case_if; [exact Hd|]. set (l := pdata_lane pd). clearbody l.
  destruct (send l (encode pd) PERIODIC_SEND_BUDGET h) as [r h1] eqn:Es. apply send_events in Es.
  assert (Hs : forall q bo c, l <> LMetrics \/ (r = SDeadline \/ exists e, r = SErr e) /\ bo = lane_backoff l x -> deferral LMetrics (events h1) (bo_metrics (set_lane l q bo c x))).
  { intros q bo c Hl. rewrite Es. destruct (decide (l = LMetrics)) as [->|Hn].
    - destruct Hl as [Hl|[Hr ->]]; [congruence|]. apply df_other; [exact Hd|]. destruct Hr as [->|[e ->]]; reflexivity.
    - replace (bo_metrics (set_lane l q bo c x)) with (bo_metrics x) by (destruct l; [congruence|reflexivity..]). apply deferral_quiet; [apply sends_quiet; auto|exact Hd]. }
  destruct r as [o|e|].
  - unfold apply_fresh_send_outcome, handle_fresh_send_outcome.
    destruct (apply_delivery_outcome _ _ _ _ _) as [[action bo'] c'] eqn:Ea. apply after_answer_eq in Ea as ->.
    assert (G : forall q c, deferral LMetrics (events h1) (bo_metrics (set_lane l q (after_answer o (ngx_current_msec h1) (lane_backoff l x)) c x))).
    { intros q c. destruct (decide (l = LMetrics)) as [->|Hn]; [|apply Hs; auto]. rewrite Es. apply answered_deferral; auto. }
    destruct action; [apply G| |apply G]. destruct (enqueue_with_eviction _ _ _ _ _) as [[? ?] ?]. apply G.
  - destruct (enqueue_with_eviction _ _ _ _ _) as [[? ?] ?]. apply Hs. eauto.
  - destruct (enqueue_with_eviction _ _ _ _ _) as [[? ?] ?]. apply Hs. eauto.
Qed.

(** A fresh batch: settled, or queued at the cost of the oldest. *)
Lemma fresh_flow ev pd depth x0 h0 x h : collects ev pd x0 h0 x h -> exporter_ok depth x ->
  flow (eq PERIODIC_SEND_BUDGET) (x0, h0) (send_fresh_batch encode pd depth x h).
Proof.
  intros Hco [Hq Hc]. pose proof (fresh_batch_exact encode pd depth x h (Hq _) Hc) as Fx.
  pose proof (fun l => fresh_other pd depth x h l) as Fo. pose proof (fun k => fresh_counters pd depth x h k) as Fc. pose proof (fresh_deferral pd depth x h) as Fd.
  destruct (send_fresh_batch encode pd depth x h) as [x' h']. cbn [fst] in Fo.
  set (l := pdata_lane pd) in *. pose proof (eq_refl (batch_of pd)) as B. unfold batch_of at 2 in B.
  destruct (count_pdata_records pd =? 0) eqn:En; zify_bool.
  - destruct Fx as [-> ->]. eapply (collected_flow ev pd x0 h0 x h PERIODIC_SEND_BUDGET [] _ []); [exact Hco|symmetry; apply app_nil_r|auto|reflexivity| |apply list_subseteq_nil| | |].
    + exists [], []. rewrite B, app_nil_r. auto.
    + cbn. rewrite Z.add_0_r. reflexivity.
    + intros k. cbn. rewrite Z.add_0_r. reflexivity.
    + auto.
  - destruct Fx as (r & Es & Fx). cbv zeta in Fx. specialize (fun k => Fc k En r). rewrite Es in Fc. apply send_events in Es.
    change (match r with SOk o => settles o | _ => false end) with (settling r) in Fx.
    set (all := lane_queue l x ++ [(encode pd, count_pdata_records pd)]) in *.
    eapply (collected_flow ev pd x0 h0 x h PERIODIC_SEND_BUDGET [(encode pd, timed h r h')] _ (if settling r then [] else evicted depth all));
      [exact Hco|exact Es|exact Fo|reflexivity| |rewrite B; reflexivity| |intros k; rewrite tally_send; apply Fc; reflexivity|exact Fd].
    + fold l. rewrite B. fold all. exists (if settling r then [(encode pd, count_pdata_records pd)] else []), [].
      rewrite sends_cons, settled_cons, given_up_cons. unfold gives_up. rewrite andb_false_r. cbn [timed rp_result].
      destruct (settling r); destruct Fx as [-> _]; (split; [|split; reflexivity]); cbn [app].
      * apply Permutation_app_comm.
      * rewrite keep_evicted. reflexivity.
    + destruct (settling r); destruct Fx as [_ ->]; [cbn; rewrite Z.add_0_r; reflexivity|]. apply cong_wrap.
Qed.

(** The final batch of a lane: settled or given up. *)
Lemma final_flow ev pd x0 h0 x h : collects ev (process (ec_processor cfg) pd) x0 h0 x h ->
  flow (eq GRACEFUL_DRAIN_PER_ATTEMPT_BUDGET) (x0, h0) (x, send_final encode (ec_processor cfg) (Some pd) h).
Proof.
  intros Hco. unfold send_final. cbn [fmap option_fmap option_map]. set (pd' := process _ pd) in *. set (l := pdata_lane pd') in *.
  assert (Hn : 0 <= count_pdata_records pd').
  { destruct pd' as [b| |]; cbn; [|lia..]. apply zsum_nonneg, Forall_map, Forall_forall. intros m _. destruct (m_data m); lia. }
  pose proof (eq_refl (batch_of pd')) as B. unfold batch_of at 2 in B. case_if.
  - rewrite (proj2 (Z.eqb_neq _ _)) in B by lia. destruct (send l (encode pd') _ h) as [r h'] eqn:Es. apply send_events in Es. cbn [snd].
    eapply (collected_flow ev pd' x0 h0 x h GRACEFUL_DRAIN_PER_ATTEMPT_BUDGET [(encode pd', timed h r h')] _ []);
      [exact Hco|exact Es|auto|reflexivity| |rewrite B; reflexivity|cbn; rewrite Z.add_0_r; reflexivity|intros k; rewrite tally_send; cbn; rewrite Z.add_0_r; reflexivity|
       intros Hd; rewrite Es; apply deferral_quiet; [apply sends_quiet; right; discriminate|exact Hd]].
    fold l. exists (if settling r then batch_of pd' else []), (if settling r then [] else batch_of pd').
    rewrite sends_cons, settled_cons, given_up_cons, B. unfold gives_up. rewrite andb_true_r. cbn [timed rp_result].
    destruct (settling r); cbn [app map fst negb]; (split; [apply Permutation_app_comm|split; reflexivity]).
  - rewrite (proj2 (Z.eqb_eq _ _)) in B by lia.
    eapply (collected_flow ev pd' x0 h0 x h GRACEFUL_DRAIN_PER_ATTEMPT_BUDGET [] _ []); [exact Hco|symmetry; apply app_nil_r|auto|reflexivity| |apply list_subseteq_nil| | |].
    + exists [], []. rewrite B, app_nil_r. auto.
    + cbn. rewrite Z.add_0_r. reflexivity.
    + intros k. cbn. rewrite Z.add_0_r. reflexivity.
    + auto.
Qed.

(** The final flush of a lane. *)
Lemma flush_counters l q k : forall c h, counter_of k (fst (flush_queue l q c h)) = counter_of k c.
Proof.
  induction q as [|[bytes n] rest IH]; intros c h; [reflexivity|]. cbn [flush_queue].
  destruct (send _ _ _ h) as [[o|e|] h1]; [apply IH| |]; unfold account_drops_and_clear; cbn [fst snd]; case_if; destruct k as [| | |[]]; reflexivity.
Qed.

Lemma tally_graceful l rs k : tally k (sends l GRACEFUL_DRAIN_PER_ATTEMPT_BUDGET rs) = 0.
Proof. induction rs as [|[bytes r] rs IH]; [reflexivity|]. exact IH. Qed.

Lemma flush_flow l x h : stats_ok (stats x) -> flow (eq GRACEFUL_DRAIN_PER_ATTEMPT_BUDGET) (x, h) (flush_lane l x h).
Proof.
  intros Hc. pose proof (flush_accounting l x h Hc) as Fa.
  assert (Fk : forall k, counter_of k (stats (fst (flush_lane l x h))) = counter_of k (stats x)).
  { intros k. unfold flush_lane. rewrite <- (flush_counters l (lane_queue l x) k (stats x) h).
    destruct (flush_queue _ _ _ _). cbn [fst]. rewrite stats_set_lane. reflexivity. }
  assert (Fo : forall l', l' <> l -> lane_queue l' (fst (flush_lane l x h)) = lane_queue l' x).
  { intros l' Hn. unfold flush_lane. destruct (flush_queue _ _ _ _). cbn [fst]. rewrite lane_queue_set.
    destruct l, l'; congruence || reflexivity. }
  assert (Fb : bo_metrics (fst (flush_lane l x h)) = bo_metrics x).
  { unfold flush_lane. destruct (flush_queue _ _ _ _). destruct l; reflexivity. }
  destruct (flush_lane l x h) as [x' h']. cbn [fst] in *. destruct Fa as (E0 & done & rest & h1 & Eq & Hh & Hrest).
  apply handled_sends in Hh as (rs & S & U & E1 & P1 & ES & EU & _ & ER); [|left; reflexivity].
  assert (Hflow : exists rs' U' C, events h' = events h ++ sends l GRACEFUL_DRAIN_PER_ATTEMPT_BUDGET rs' /\
    lane_flow l (sends l GRACEFUL_DRAIN_PER_ATTEMPT_BUDGET rs') (lane_queue l x) [] [] S U' C /\
    cong (DROPPED_RECORDS (stats x')) (DROPPED_RECORDS (stats x) + queue_records C)).
  { destruct rest as [|[bytes n] rest].
    - destruct Hrest as [-> Hd]. exists rs, U, []. rewrite app_nil_r in Eq. split_and!; [exact E1| |rewrite Hd; cbn; rewrite Z.add_0_r; reflexivity].
      split; rewrite ?sends_offer, ?app_nil_r, ?sends_sent, ?ER; auto; rewrite Eq; auto.
    - destruct Hrest as (r & Es & Hf & Hd). apply send_events in Es. set (a := timed h1 r h') in *. exists (rs ++ [(bytes, a)]), (U ++ [(bytes, n)]), rest.
      assert (E2 : sends l GRACEFUL_DRAIN_PER_ATTEMPT_BUDGET (rs ++ [(bytes, a)]) = sends l GRACEFUL_DRAIN_PER_ATTEMPT_BUDGET rs ++ [EvSent l bytes GRACEFUL_DRAIN_PER_ATTEMPT_BUDGET a])
        by apply map_app.
      assert (Hr : settling r = false) by (destruct r; [discriminate|reflexivity..]).
      split_and!; [rewrite Es, E1, E2, app_assoc; reflexivity| |rewrite Hd; apply cong_wrap].
      split; rewrite ?sends_offer; try reflexivity; rewrite ?E2; unfold settled, given_up in *; rewrite ?bind_app, <- ?ES, <- ?EU, ?map_app.
      + fold (settled l [EvSent l bytes GRACEFUL_DRAIN_PER_ATTEMPT_BUDGET a]). rewrite settled_cons. change (rp_result a) with r. rewrite Hr, app_nil_r. reflexivity.
      + fold (given_up l [EvSent l bytes GRACEFUL_DRAIN_PER_ATTEMPT_BUDGET a]). rewrite given_up_cons. unfold gives_up. change (rp_result a) with r. rewrite Hr. reflexivity.
      + rewrite Eq, P1, !app_nil_r. rewrite <- !app_assoc. reflexivity.
      + intros b. rewrite <- E2, sends_sent, map_app, ER, Eq, app_nil_r, map_app. cbn. rewrite !elem_of_app, !elem_of_cons, elem_of_nil. tauto. }
  destruct Hflow as (rs' & U' & C & E2 & Hl & Hd).
  eapply (flow_one _ l); [exact E2|apply sends_budget|exact Fo|intros; apply sends_other; assumption|rewrite E0; exact Hl|exact Hd| |symmetry; apply sends_offer|].
  - intros k. rewrite Fk, tally_graceful, Z.add_0_r. reflexivity.
  - rewrite Fb. apply deferral_quiet, sends_quiet. right. discriminate.
Qed.

(** ** The collections *)

Lemma process_lane p pd : pdata_lane (process p pd) = pdata_lane pd.
Proof. rewrite process_retain. destruct pd; reflexivity. Qed.

Lemma offers_lane l pd (b : retry_queue) :
  match l, pdata_lane pd with LMetrics, LMetrics | LLogs, LLogs | LSpans, LSpans => b | _, _ => [] end =
  (if decide (l = pdata_lane pd) then b else []).
Proof. destruct (decide _) as [->|Hn]; [destruct (pdata_lane pd); reflexivity|destruct l, (pdata_lane pd); congruence]. Qed.

Lemma collect_logs_collects x h :
  match collect_logs cfg x h with
  | (Some pd, x', h') => exists ev, collects ev (process (ec_processor cfg) pd) x h x' h'
  | (None, x', h') => x' = x /\ h' = h
  end.
Proof.
  unfold collect_logs. cbn [logs_zone history_world]. destruct (logs_zone (actual h)) as [zone|] eqn:Ez; [|auto].
  destruct (collect_log_records _ _ _ _ _) as [[b d] z] eqn:Ec. eexists (EvLogs zone (now_unix_nano h)).
  split; [reflexivity|cbn; rewrite Ez; reflexivity|intros []; reflexivity|reflexivity|intros [| | |[]]; reflexivity|reflexivity|].
  intros l. rewrite <- offers_lane, process_lane. cbn [pdata_lane offered_by]. unfold collected_logs. rewrite Ec. destruct l; reflexivity.
Qed.

Lemma collect_spans_collects x h :
  match collect_spans cfg x h with
  | (Some pd, x', h') => exists ev, collects ev (process (ec_processor cfg) pd) x h x' h'
  | (None, x', h') => x' = x /\ h' = h
  end.
Proof.
  unfold collect_spans. cbn [spans_zone history_world]. destruct (spans_zone (actual h)) as [zone|] eqn:Ez; [|auto].
  destruct (collect_span_records _ _ _ _) as [[b d] z] eqn:Ec. eexists (EvSpans zone (now_unix_nano h)).
  split; [reflexivity|cbn; rewrite Ez; reflexivity|intros []; reflexivity|reflexivity|intros [| | |[]]; reflexivity|reflexivity|].
  intros l. rewrite <- offers_lane, process_lane. cbn [pdata_lane offered_by]. unfold collected_spans. rewrite Ec. destruct l; reflexivity.
Qed.

Lemma collect_metrics_collects x h : let '(b, h') := collect_all_sources (stats x) h in
  collects (EvMetrics b (ngx_current_msec h)) (process (ec_processor cfg) (PMetrics b)) x h x h'.
Proof.
  cbn [collect_all_sources history_world]. destruct (collect_all_sources (stats x) (actual h)) as [b w]. split; try reflexivity.
  intros l. rewrite <- offers_lane, process_lane. destruct l; reflexivity.
Qed.

(** ** Steps and runs *)

Lemma look_flow B x h : is_deferred (bo_metrics x) (ngx_current_msec h) = true -> flow B (x, h) (x, snd (collect_all_sources (stats x) h)).
Proof.
  intros Hd. pose proof (collect_metrics_collects x h) as Hc. destruct (collect_all_sources (stats x) h) as [b h']. cbn [snd].
  destruct Hc as [_ E _ _ _ _ _]. eapply (flow_none B [EvMetrics b _]); auto; [exact E|repeat constructor| |].
  - intros l. split_and!; [reflexivity..|]. destruct l; [congruence|reflexivity..].
  - intros Hdf. cbn [fst snd] in *. rewrite E. split; [apply df_other; [exact Hdf|reflexivity]|]. intros F0 Hg. rewrite app_nil_r. eapply mg_deferred; eassumption.
Qed.

Lemma collected_fresh r x h : (match r with
    | (Some pd, x', h') => exists ev, collects ev (process (ec_processor cfg) pd) x h x' h'
    | (None, x', h') => x' = x /\ h' = h
    end) -> exporter_ok (ec_retry_depth cfg) (snd (fst r)) ->
  flow (eq PERIODIC_SEND_BUDGET) (x, h) (send_collected encode (ec_processor cfg) r (ec_retry_depth cfg)).
Proof.
  destruct r as [[[pd|] x'] h']; cbn [fst snd]; [intros (ev & Hco) Hx|intros [-> ->] _; reflexivity].
  eapply fresh_flow; eassumption.
Qed.

Lemma collected_final r x h : (match r with
    | (Some pd, x', h') => exists ev, collects ev (process (ec_processor cfg) pd) x h x' h'
    | (None, x', h') => x' = x /\ h' = h
    end) ->
  flow (eq GRACEFUL_DRAIN_PER_ATTEMPT_BUDGET) (x, h) (let '(pd, x, h) := r in (x, send_final encode (ec_processor cfg) pd h)).
Proof.
  destruct r as [[[pd|] x'] h']; [intros (ev & Hco)|intros [-> ->]; reflexivity]. eapply final_flow; eassumption.
Qed.

Lemma periodic_flow my_gen s s' : exporter_ok (ec_retry_depth cfg) (fst s) -> periodic_step encode cfg my_gen s s' ->
  flow (eq PERIODIC_SEND_BUDGET) s s'.
Proof.
  intros Hx Hs. destruct Hs as [ms x h|x h _|l x h|x h _|x h _|c x h _|since x h|x h _ Hd|x h _]; cbn [fst] in Hx.
  - apply slept_flow.
  - apply flow_same; reflexivity || (intros []; reflexivity).
  - apply retry_flow. exact Hx.
  - apply collected_fresh; [apply collect_logs_collects|apply collect_logs_ok; exact Hx].
  - apply collected_fresh; [apply collect_spans_collects|apply collect_spans_ok; exact Hx].
  - apply flow_same; reflexivity.
  - unfold healthy_reset. case_if; [|reflexivity].
    destruct (control h); apply flow_same; reflexivity || (intros []; reflexivity).
  - apply look_flow, Hd.
  - unfold fresh_metrics. pose proof (collect_metrics_collects x h) as Hc. destruct (collect_all_sources (stats x) h) as [b h'].
    eapply fresh_flow; eassumption.
Qed.

Lemma drain_flow s s' : stats_ok (stats (fst s)) -> drain_step encode cfg s s' -> flow (eq GRACEFUL_DRAIN_PER_ATTEMPT_BUDGET) s s'.
Proof.
  intros Hx Hs. destruct Hs as [l x h|x h _|x h|x h]; cbn [fst] in Hx.
  - apply flush_flow. exact Hx.
  - unfold final_metrics. pose proof (collect_metrics_collects x h) as Hc. destruct (collect_all_sources (stats x) h) as [b h'].
    eapply final_flow. exact Hc.
  - apply collected_final, collect_logs_collects.
  - apply collected_final, collect_spans_collects.
Qed.

Lemma periodic_run my_gen s s' : exporter_ok (ec_retry_depth cfg) (fst s) -> rtc (periodic_step encode cfg my_gen) s s' ->
  flow (eq PERIODIC_SEND_BUDGET) s s' /\ exporter_ok (ec_retry_depth cfg) (fst s').
Proof.
  intros Hx Hr. induction Hr as [s|s s1 s2 Hs Hr IH]; [split; [reflexivity|exact Hx]|].
  destruct (IH (periodic_step_ok _ _ _ _ _ Hx Hs)) as [I1 I2]. split; [|exact I2].
  etrans; [eapply periodic_flow; eassumption|exact I1].
Qed.

Lemma drain_run depth s s' : exporter_ok depth (fst s) -> rtc (drain_step encode cfg) s s' ->
  flow (eq GRACEFUL_DRAIN_PER_ATTEMPT_BUDGET) s s' /\ exporter_ok depth (fst s').
Proof.
  intros Hx Hr. induction Hr as [s|s s1 s2 Hs Hr IH]; [split; [reflexivity|exact Hx]|].
  destruct (IH (drain_step_ok _ _ _ _ _ Hx Hs)) as [I1 I2]. split; [|exact I2].
  etrans; [eapply drain_flow; [apply Hx|exact Hs]|exact I1].
Qed.

Lemma run_flow my_gen s s1 s2 : exporter_ok (ec_retry_depth cfg) (fst s) ->
  rtc (periodic_step encode cfg my_gen) s s1 -> rtc (drain_step encode cfg) s1 s2 ->
  flow (fun _ => True) s s2 /\ exporter_ok (ec_retry_depth cfg) (fst s2).
Proof.
  intros Hx Hp Hd. destruct (periodic_run _ _ _ Hx Hp) as [F1 Hx1]. destruct (drain_run _ _ _ Hx1 Hd) as [F2 Hx2].
  split; [|exact Hx2]. etrans; eapply flow_weaken; [|exact F1| |exact F2]; auto.
Qed.

Lemma periodic_given_up l evs : sends_within (eq PERIODIC_SEND_BUDGET) evs -> given_up l evs = [].
Proof.
  induction 1 as [|ev evs He _ IH]; [reflexivity|]. unfold given_up in *. rewrite bind_cons, IH, app_nil_r.
  destruct ev as [| | |l' bytes budget a|]; try reflexivity. subst budget. cbn. unfold gives_up. rewrite !andb_false_r. reflexivity.
Qed.

Lemma initial_ok depth : exporter_ok depth initial_exporter.
Proof. split; [intros []; unfold queue_bounded; cbn; lia|unfold stats_ok, in_u; cbn; lia]. Qed.

Lemma iterations_flow my_gen since fuel h e x' h' :
  export_iterations encode fuel cfg my_gen since initial_exporter h = Some (e, x', h') ->
  flow (match e with Drained => fun _ => True | _ => eq PERIODIC_SEND_BUDGET end) (initial_exporter, h) (x', h') /\
  exporter_ok (ec_retry_depth cfg) x'.
Proof.
  intros E. apply iterations_steps in E as (s & Hp & Hd).
  pose proof (initial_ok (ec_retry_depth cfg)) as Hx.
  destruct e; [subst s; exact (periodic_run my_gen (initial_exporter, h) _ Hx Hp)|exact (run_flow my_gen (initial_exporter, h) _ _ Hx Hp Hd)|].
  subst s. exact (periodic_run my_gen (initial_exporter, h) _ Hx Hp).
Qed.

(** After the last look at the metrics the exporter no longer sleeps. *)
Definition awake (ev : event) : Prop := match ev with EvSlept _ => False | _ => True end.
Definition last_look evs : Prop := exists pre b t post, evs = pre ++ EvMetrics b t :: post /\ Forall awake post.

Lemma drain_awake evs : sends_within (eq GRACEFUL_DRAIN_PER_ATTEMPT_BUDGET) evs -> Forall awake evs.
Proof. apply Forall_impl. intros []; cbn; try exact (fun _ => I). discriminate. Qed.

Lemma graceful_looks my_gen depth x h : exporter_ok depth x -> ec_metrics_enabled cfg = true -> last_look (events (snd (graceful_drain encode cfg my_gen x h))).
Proof.
  intros Hx Hm. destruct (graceful_split encode cfg my_gen x h) as (s & Hs & Es). rewrite Hm in Es.
  destruct (flush_lane LMetrics x h) as [x1 h1] eqn:Ef.
  assert (Hx1 : exporter_ok depth x1) by (pose proof (drain_step_ok encode cfg depth (x, h) _ Hx (ds_flush encode cfg LMetrics x h)) as G; rewrite Ef in G; exact G).
  assert (Hf : exists b post, events (snd s) = events h1 ++ EvMetrics b (ngx_current_msec h1) :: post /\ Forall awake post /\ exporter_ok depth (fst s)).
  { subst s. unfold final_metrics. pose proof (collect_metrics_collects x1 h1) as Hc. destruct (collect_all_sources (stats x1) h1) as [b h2]. cbn [fst snd].
    exists b. unfold send_final. cbn [fmap option_fmap option_map].
    destruct (0 <? _); [|exists []; rewrite (co_events _ _ _ _ _ _ Hc); auto].
    destruct (send _ _ _ h2) as [r h3] eqn:E3. apply send_events in E3. cbn [snd]. rewrite E3, (co_events _ _ _ _ _ _ Hc), <- app_assoc. eexists. split; [reflexivity|].
    split; [repeat constructor|exact Hx1]. }
  destruct Hf as (b & post & E1 & Hp & Hx2). destruct (drain_run depth _ _ Hx2 Hs) as [(evs & E2 & Hw & _) _].
  exists (events h1), b, (ngx_current_msec h1), (post ++ evs). split; [rewrite E2, E1, <- app_assoc; reflexivity|].
  apply Forall_app. split; [exact Hp|apply drain_awake, Hw].
Qed.

(** Watching a run gives the same run, and its history obeys the law. *)
Lemma watched fuel my_gen since w e x' w' :
  export_iterations encode fuel cfg my_gen since initial_exporter w = Some (e, x', w') ->
  exists evs, export_iterations encode fuel cfg my_gen since initial_exporter (observe w) = Some (e, x', mk_history w' evs) /\
    flow (match e with Drained => fun _ => True | _ => eq PERIODIC_SEND_BUDGET end)
      (initial_exporter, observe w) (x', mk_history w' evs) /\
    exporter_ok (ec_retry_depth cfg) x'.
Proof.
  intros E. pose proof (iterations_hom actual encode cfg my_gen fuel since initial_exporter (observe w)) as Eh.
  change (actual (observe w)) with w in Eh. rewrite E in Eh.
  destruct (export_iterations encode fuel cfg my_gen since initial_exporter (observe w)) as [[[e' x1] h']|] eqn:Er; [|discriminate].
  injection Eh as <- <- Ew. destruct h' as [w1 evs]. cbn in Ew. subst w1. exists evs. split; [reflexivity|].
  exact (iterations_flow _ _ _ _ _ _ _ Er).
Qed.

(** A run that has drained made its last batch of metrics in the final drain. *)
Lemma drained_looks fuel my_gen since h x' h' : export_iterations encode fuel cfg my_gen since initial_exporter h = Some (Drained, x', h') ->
  ec_metrics_enabled cfg = true -> last_look (events h').
Proof.
  intros E Hm. apply iterations_drained in E as (x1 & h1 & Hs & Eg). destruct (periodic_run my_gen (initial_exporter, h) _ (initial_ok _) Hs) as [_ Hx].
  pose proof (graceful_looks my_gen _ x1 h1 Hx Hm) as G. rewrite Eg in G. exact G.
Qed.

(** The accounts of a watched run. *)
Lemma batches_accounted fuel my_gen since w e x' w' :
  export_iterations encode fuel cfg my_gen since initial_exporter w = Some (e, x', w') ->
  exists evs, export_iterations encode fuel cfg my_gen since initial_exporter (observe w) = Some (e, x', mk_history w' evs) /\
  exists F S U C : lane -> retry_queue,
    (forall l, F l ≡ₚ S l ++ U l ++ C l ++ lane_queue l x' /\
       map fst (S l) = settled l evs /\ map fst (U l) = given_up l evs /\
       F l `sublist_of` offered l evs /\ (l <> LMetrics -> F l = offered l evs) /\ (l = LMetrics -> metrics_given evs (F l)) /\
       (forall bytes, bytes ∈ sent l evs -> bytes ∈ map fst (F l)) /\
       (e <> Drained -> U l = []) /\
       (e = Drained -> l <> LMetrics \/ ec_metrics_enabled cfg = true -> lane_queue l x' = [])) /\
    DROPPED_RECORDS (stats x') = wrap 64 (queue_records (C LMetrics) + queue_records (C LLogs) + queue_records (C LSpans)).
Proof.
  intros E. destruct (watched _ _ _ _ _ _ _ E) as (evs & Er & (evs' & Ee & Hb & F & S & U & C & Hl & Hd & _ & Hp) & _ & Hc).
  cbn in Ee. subst evs'. exists evs. split; [exact Er|]. exists F, S, U, C. split.
  - intros l. destruct (Hl l) as [A1 A2 A3 A4 A5 A6]. split_and!; auto.
    + destruct l; exact A5.
    + intros ->. destruct (Hp (df_start LMetrics)) as [_ Hg]. exact (Hg [] mg_start).
    + destruct l; exact A6.
    + intros Hn. apply (fmap_nil_inv fst). rewrite <- (periodic_given_up l evs); [exact A4|]. destruct e; [exact Hb|congruence|exact Hb].
    + intros -> Hm. destruct (iterations_drained encode cfg my_gen fuel since _ _ _ _ E) as (x2 & w2 & _ & Eg).
      rewrite <- (graceful_empty encode cfg my_gen x2 w2 l Hm), Eg. reflexivity.
  - cbn [fst] in Hd. rewrite <- (wrap_small 64 (DROPPED_RECORDS _) Hc). exact Hd.
Qed.

(** C3 (invariant). No batch is lost without a trace.  Watch the export loop for any number of intervals in any world in
    which an HTTP status is a verdict.  On each lane, the batches given to it since the start are exactly those the collector
    settled, those given up in the final drain, those credited to the dropped-records counter and those still queued, each
    once, and nothing else is ever sent.  The logs and spans lanes are given every non-empty batch that was taken from the rings, so no record leaves a ring
    unaccounted; the metrics lane is given every non-empty batch of metrics that was made, but for those made while its backoff, as the collector's answers up to then leave it, was
    running.  Before the final drain nothing is given up; after it
    nothing is queued.  The dropped-records counter is exactly the number of records of the credited batches.  And watching
    changes nothing.
    About: export_iterations, periodic_tick, graceful_drain, drain_retry_queue_once, send_fresh_batch, flush_lane, collect_logs, collect_spans, metrics_lane, enqueue_with_eviction, account_drops_and_clear. *)
Theorem every_batch_accounted fuel my_gen since w e x' w' :
  export_iterations encode fuel cfg my_gen since initial_exporter w = Some (e, x', w') ->
  exists evs, export_iterations encode fuel cfg my_gen since initial_exporter (observe w) = Some (e, x', mk_history w' evs) /\
  exists F S U C : lane -> retry_queue,
    (forall l, F l ≡ₚ S l ++ U l ++ C l ++ lane_queue l x' /\
       map fst (S l) = settled l evs /\ map fst (U l) = given_up l evs /\
       F l `sublist_of` offered l evs /\ (l <> LMetrics -> F l = offered l evs) /\ (l = LMetrics -> metrics_given evs (F l)) /\
       (forall bytes, bytes ∈ sent l evs -> bytes ∈ map fst (F l)) /\
       (e <> Drained -> U l = []) /\
       (e = Drained -> l <> LMetrics \/ ec_metrics_enabled cfg = true -> lane_queue l x' = [])) /\
    DROPPED_RECORDS (stats x') = wrap 64 (queue_records (C LMetrics) + queue_records (C LLogs) + queue_records (C LSpans)).
Proof. apply batches_accounted. Qed.

(** C13 (functional). The delivery counters tell the truth.  After any number of intervals, the counters of
    permanently rejected, unauthorised and partially rejected deliveries and the three
    failure counters are, as 64-bit numbers, exactly the sums over the sends made outside the final drain of what their answers stand
    for: one per permanent or unauthorised verdict, the rejected records of a partial success, and one failure per lane for each
    send that did not settle its batch.
    About: export_iterations, apply_delivery_outcome, apply_fresh_send_outcome, counters. *)
Theorem delivery_counters_exact fuel my_gen since w e x' w' :
  export_iterations encode fuel cfg my_gen since initial_exporter w = Some (e, x', w') ->
  exists evs, export_iterations encode fuel cfg my_gen since initial_exporter (observe w) = Some (e, x', mk_history w' evs) /\
  forall k, wrap 64 (counter_of k (stats x')) = wrap 64 (tally k evs).
Proof.
  intros E. destruct (watched _ _ _ _ _ _ _ E) as (evs & Er & (evs' & Ee & _ & _ & _ & _ & _ & _ & _ & Hk & _) & _).
  cbn in Ee. subst evs'. exists evs. split; [exact Er|]. intros k.
  specialize (Hk k). cbn [fst] in Hk. unfold cong in Hk. rewrite Hk. destruct k as [| | |[]]; reflexivity.
Qed.
End accounts.

(** ** A scripted collector *)

(** The scripted world of [Drain] with a transport that keeps its promise. *)
Record honest := mk_honest { script_of : script }.
Definition as_verdict (r : send_result) : send_result :=
  match r with SErr e => if is_permanent_rejection e then SErr Connection else r | _ => r end.

#[export] Instance honest_world : World honest := {
  ngx_current_msec w := ngx_current_msec (script_of w);
  now_unix_nano w := now_unix_nano (script_of w);
  ngx_quit w := ngx_quit (script_of w);
  ngx_terminate w := ngx_terminate (script_of w);
  control w := control (script_of w);
  set_control c w := mk_honest (set_control c (script_of w));
  logs_zone w := logs_zone (script_of w);
  set_logs_zone z w := mk_honest (set_logs_zone z (script_of w));
  spans_zone w := spans_zone (script_of w);
  set_spans_zone z w := mk_honest (set_spans_zone z (script_of w));
  collect_all_sources c w := prod_map id mk_honest (collect_all_sources c (script_of w));
  send l bytes budget w := prod_map as_verdict mk_honest (send l bytes budget (script_of w));
  sleep ms w := mk_honest (sleep ms (script_of w))
}.

#[export] Instance honest_status : StatusIsVerdict honest.
Proof.
  intros l bytes budget w e. cbn. destruct (sc_replies (script_of w)) as [|[o|e'|] rs]; cbn; try discriminate.
  destruct (is_permanent_rejection e') eqn:E; intros [= <-]; [reflexivity|exact E].
Qed.

(** A worker has logged one request; the first send times out, a later one is accepted; a quit arrives at 1400 ms. *)
Definition busy_world (replies : list send_result) : honest :=
  mk_honest (mk_script 1000 replies [] 1400 (Some (mk_control 0 0 0 0 1 0))
    (Some [mk_zone (wrp_ring (snd (emit_access_record (mk_producer (fresh_ring 1024)) sample_req))) (fresh_ring 64) empty_table])
    (Some [fresh_ring 64])).
Abbreviation busy_run replies := (export_iterations sample_encode 5 sample_config 1 0 initial_exporter (busy_world replies)).

Abbreviation busy_history replies := (export_iterations sample_encode 5 sample_config 1 0 initial_exporter (observe (busy_world replies))).

Lemma busy_run_drains replies : replies = [SDeadline] \/ replies = [SOk (PartialReject 7); SDeadline] ->
  exists x' w', busy_run replies = Some (Drained, x', w').
Proof. intros [-> | ->]; vm_compute; eauto. Qed.

Lemma busy_timeout e x' w' evs : busy_history [SDeadline] = Some (e, x', mk_history w' evs) ->
  offered sample_encode sample_config LLogs evs = [([1], 1)] /\ settled LLogs evs = [[1]].
Proof.
  intros E. assert (C : (fun '(_, _, h) => (offered sample_encode sample_config LLogs (events h), settled LLogs (events h))) <$> busy_history [SDeadline]
    = Some ([([1], 1)], [[1]])) by (vm_compute; reflexivity).
  rewrite E in C. injection C as C1 C2. auto.
Qed.

Lemma busy_partial e x' w' evs : busy_history [SOk (PartialReject 7); SDeadline] = Some (e, x', mk_history w' evs) -> tally CPartial evs = 7.
Proof.
  intros E. assert (C : (fun '(_, _, h) => tally CPartial (events h)) <$> busy_history [SOk (PartialReject 7); SDeadline] = Some 7) by (vm_compute; reflexivity).
  rewrite E in C. injection C as C. exact C.
Qed.

Lemma every_batch_accounted_witness : exists evs S U C,
  offered sample_encode sample_config LLogs evs = [([1], 1)] /\ [([1], 1)] ≡ₚ S ++ U ++ C /\ map fst S = [[1]].
Proof.
  destruct (busy_run_drains [SDeadline] (or_introl eq_refl)) as (x' & w' & E).
  destruct (every_batch_accounted sample_encode sample_config 5 1 0 (busy_world [SDeadline]) Drained x' w' E) as (evs & Er & F & S & U & C & Hl & _).
  destruct (Hl LLogs) as (P & ES & _ & _ & EF & _ & _ & _ & EQ). exists evs, (S LLogs), (U LLogs), (C LLogs).
  rewrite EF in P by discriminate. rewrite (EQ eq_refl), app_nil_r in P by (left; discriminate). rewrite ES.
  destruct (busy_timeout _ _ _ _ Er) as [EO ->]. rewrite EO in P. auto.
Defined.

Lemma delivery_counters_exact_witness :
  exists x' w', busy_run [SOk (PartialReject 7); SDeadline] = Some (Drained, x', w') /\
    wrap 64 (counter_of CPartial (stats x')) = 7.
Proof.
  destruct (busy_run_drains [SOk (PartialReject 7); SDeadline] (or_intror eq_refl)) as (x' & w' & E). exists x', w'. split; [exact E|].
  destruct (delivery_counters_exact sample_encode sample_config 5 1 0 _ Drained x' w' E) as (evs & Er & Hk). rewrite Hk.
  rewrite (busy_partial _ _ _ _ Er). reflexivity.
Defined.
