(* ===== verification/Export.v ===== *)
(** * The exporter as a whole (src/src/drain/mod.rs, src/src/drain/graceful.rs)

    The world of [Drain] made of the other components: batches are encoded by [Encoder], metrics come
    from [Sources], and a send is a send of [Transport] raced against its timer, over the connections of [Conn] and
    [Tls].  What the collector, the kernel, nginx and the other processes do is a sequence of [moment]s.  The theorems follow records from the rings
    to the collector and resources over the exporter's life. *)
From stdpp Require Import relations gmap.
From S2P Require Import Prelude Ring DataModel StdText Producer AccessLog Slots Coalesce ErrorLog Processor ShmLayout Endpoint Collect Outcome Backoff Control.
From S2P Require Import Config Encoder Conn Tls Transport Drain Run Ledger.
From S2P Require Sources.

(** ** A send and its timer *)

Section deadline.
Context {A : Type}.

(** One poll: the future first, then the timer; [inr tt] is [DeadlineExceeded].
    [src/src/drain/graceful.rs: 56-69 WithDeadline::poll] *)
Definition with_deadline_poll (fut : option A) (timer : bool) : option (A + unit) :=
  match fut with
  | Some output => Some (inl output)
  | None => if timer then Some (inr tt) else None
  end.

(** Awaiting it: what its two parts answer at each wake of the task.
    [src/src/drain/graceful.rs: with_deadline] *)
Fixpoint with_deadline (wakes : list (option A * bool)) : option (A + unit) :=
  match wakes with
  | [] => None
  | (fut, timer) :: wakes =>
      match with_deadline_poll fut timer with Some r => Some r | None => with_deadline wakes end
  end.

(** The first wake at which either part is ready decides, and the future wins a tie. *)
Lemma with_deadline_spec wakes r : with_deadline wakes = Some r <->
  exists pre fut timer post, wakes = pre ++ (fut, timer) :: post /\ Forall (fun p => p = (None, false)) pre /\
    match r with inl a => fut = Some a | inr _ => fut = None /\ timer = true end.
Proof.
  split.
  - induction wakes as [|[fut timer] wakes IH]; [discriminate|]. cbn [with_deadline]. unfold with_deadline_poll.
    destruct fut as [a|]; [intros [= <-]; exists [], (Some a), timer, wakes; auto|].
    destruct timer; [intros [= <-]; exists [], None, true, wakes; auto|].
    intros E. destruct (IH E) as (pre & fut & timer & post & -> & Hp & Hr). exists ((None, false) :: pre), fut, timer, post. auto.
  - intros (pre & fut & timer & post & -> & Hp & Hr). induction Hp as [|p pre -> _ IH]; [|exact IH]. cbn.
    destruct r as [a|[]]; [subst fut; reflexivity|]. destruct Hr as [-> ->]. reflexivity.
Qed.

(** Once the timer has fired the wait is over. *)
Lemma with_deadline_ends wakes : existsb snd wakes = true -> with_deadline wakes <> None.
Proof.
  induction wakes as [|[fut timer] wakes IH]; [discriminate|]. cbn. unfold with_deadline_poll. destruct fut; [discriminate|].
  destruct timer; [discriminate|exact IH].
Qed.
End deadline.

(** ** The transport of the export loop *)

Definition lane_signal (l : lane) : otlp_signal :=
  match l with LMetrics => SigMetrics | LLogs => SigLogs | LSpans => SigTraces end.

(** What a send answers: ready, or still waiting when the timer fires and the future is dropped. *)
Definition answer (r : option (delivery_outcome + transport_error)) : send_result :=
  match r with Some (inl o) => SOk o | Some (inr e) => SErr e | None => SDeadline end.

Section transport.
Context (hl : http_lib).
Context (decode_response : otlp_signal -> list Z -> option (option Z)).
Context (decode_status : list Z -> option (list (list Z * list Z))).
Context (decode_retry_info : list Z -> option (option (Z * Z))).
Context (decode_request : otlp_signal -> list Z -> bool).

(** A send of a signal raced against its timer.  If the connection was still being opened, dropping the
    future closes it.
    [src/src/drain/mod.rs: 171-233 ExportTransport] *)
Definition transport_send (e : send_env) (signal : otlp_signal) (bytes : list Z) (x : export_transport) (tk : tasks) (o : outside)
    : send_result * export_transport * tasks * outside :=
  match x with
  | XHttp t =>
      match http_send hl decode_response (sv_open e) (sv_http e) (sv_now e) signal bytes t o with
      | Some (r, o, _) => (answer r, x, tk, o)
      | None => (SDeadline, x, tk, (fst o, connect_dropped (oe_waker (sv_open e)) (oe_connect (sv_open e)) (ht_endpoint t) (snd o)))
      end
  | XGrpc t =>
      match grpc_send decode_status decode_retry_info decode_request (sv_open e) (sv_call e) signal bytes t tk o with
      | Some (r, t, tk, o, _) => (answer r, XGrpc t, tk, o)
      | None => (SDeadline, x, tk, (fst o, connect_dropped (oe_waker (sv_open e)) (oe_connect (sv_open e)) (gt_endpoint t) (snd o)))
      end
  end.

(** The three sends, and the senders of the retry queues, which are they.
    [src/src/drain/mod.rs: ExportTransport::send] *)
Definition send_metrics (e : send_env) := transport_send e SigMetrics.
(** [src/src/drain/mod.rs: ExportTransport::send_logs] *)
Definition send_logs (e : send_env) := transport_send e SigLogs.
(** [src/src/drain/mod.rs: ExportTransport::send_traces] *)
Definition send_traces (e : send_env) := transport_send e SigTraces.
(** [src/src/drain/mod.rs: 1261-1299 RetrySend] *)
Definition send_batch (l : lane) (e : send_env) :=
  match l with LMetrics => send_metrics e | LLogs => send_logs e | LSpans => send_traces e end.

Lemma send_batch_signal l e : send_batch l e = transport_send e (lane_signal l).
Proof. destruct l; reflexivity. Qed.

(** ** Errors *)

Lemma open_stream_err e alpn ep tls o err o' : open_stream e alpn ep tls o = Some (inr err, o') -> is_permanent_rejection err = false.
Proof.
  destruct o as [l n]. unfold open_stream. destruct (connect _ _ ep n) as [[[raw|e1] n1]|] eqn:Ec; [| |discriminate].
  - destruct tls as [[ctx insecure]|]; [|discriminate]. destruct (wrap_tls_io _ _ _ _ _ _ _ _) as [[[[s io]|e2] l2] n2] eqn:Ew; [discriminate|].
    intros [= <- _]. apply wrap_tls_io_spec in Ew. destruct Ew as [_ [-> _]]. reflexivity.
  - intros [= <- _]. unfold connect in Ec. assert (e1 = Connection) as ->; [|reflexivity].
    assert (Ht : forall w addrs n e n', try_addrs w addrs n = Some (inr e, n') -> e = Connection).
    { clear. induction addrs as [|a addrs IH]; intros n e n'; cbn [try_addrs]; [congruence|]. case_if; [congruence|].
      destruct (await_connect _ _ _) as [[[u|x] [io n1]]|]; [discriminate|apply IH|discriminate]. }
    unfold connect_dns in Ec. destruct ep; repeat case_if; try congruence;
      repeat match goal with H : context [match ?t with _ => _ end] |- _ => destruct t eqn:?; try congruence end; eauto.
Qed.

Lemma exchange_err x err : exchange x = Some (inr err) -> is_permanent_rejection err = false.
Proof. unfold exchange. repeat case_match; intros [= <-]; reflexivity. Qed.

(** An HTTP status is a verdict, never a transport error. *)
Lemma transport_send_status e signal bytes x tk o err :
  fst (fst (fst (transport_send e signal bytes x tk o))) = SErr err -> is_permanent_rejection err = false.
Proof.
  unfold transport_send. destruct x as [t|t].
  - unfold http_send, http_connect_io. destruct (open_stream _ _ _ _ o) as [[[st|e1] o1]|] eqn:Eo; [| |discriminate]; cbn.
    2: { intros [= <-]. exact (open_stream_err _ _ _ _ _ _ _ Eo). }
    unfold http_post_raw. destruct (build_request hl _ _ _ bytes) as [q|e2] eqn:Eb; cbn.
    + destruct (exchange (sv_http e)) as [[[resp body]|e2]|] eqn:Ex; cbn; try discriminate. intros [= <-]. exact (exchange_err _ _ Ex).
    + intros [= <-]. unfold build_request in Eb. repeat case_match; congruence || (injection Eb as <-; reflexivity).
  - unfold grpc_send. destruct (decode_request signal bytes); cbn [negb]; [|intros [= <-]; reflexivity].
    unfold ensure_client, grpc_connect_io. destruct (client_of signal t).
    { destruct (cl_answer (sv_call e)); cbn; discriminate. }
    destruct (open_stream _ _ _ _ o) as [[[st|e1] o1]|] eqn:Eo; [| |discriminate].
    + destruct (cl_handshake (sv_call e)) as [[]|]; cbn; [|intros [= <-]; reflexivity|discriminate].
      destruct (cl_answer (sv_call e)); cbn; discriminate.
    + intros [= <-]. exact (open_stream_err _ _ _ _ _ _ _ Eo).
Qed.

(** ** Resources *)

Definition is_http (x : export_transport) : bool := match x with XHttp _ => true | XGrpc _ => false end.

(** The books of a transport: over HTTP no session is held between sends, over gRPC the drivers hold them. *)
Definition kept (held : Z) (x : export_transport) (tk : tasks) (l : ledger) : Prop :=
  match x with XHttp _ => tk = no_tasks /\ lg_ssls l = held | XGrpc t => driven held t tk l end.

(** One send, in time or not, leaves the sessions and connections it found, but for those given to drivers. *)
Lemma transport_send_clean held e signal bytes x tk l n r x' tk' l' n' : (is_http x = true -> ngx_fresh n) -> kept held x tk l ->
  transport_send e signal bytes x tk (l, n) = (r, x', tk', (l', n')) ->
  kept held x' tk' l' /\ is_http x' = is_http x /\
  (is_http x = true -> x' = x /\ restored n n') /\
  transport_endpoint x' = transport_endpoint x /\ transport_tls x' = transport_tls x.
Proof.
  intros Hx Hk. unfold transport_send. destruct x as [t|t].
  - pose proof (Hx eq_refl) as Hf. destruct Hk as [-> Hk]. unfold http_send, http_connect_io. destruct (open_stream _ _ _ _ (l, n)) as [[[st|e1] [l1 n1]]|] eqn:Eo.
    + pose proof (open_stream_ledger _ _ _ _ _ _ _ _ _ Eo) as Hl. apply (open_stream_spec _ _ _ _ _ _ _ _ _ Hf) in Eo as [Ho _].
      assert (Hr : forall ops, lg_ssls (fst (release ops st (l1, n1))) = lg_ssls l /\ restored n (snd (release ops st (l1, n1)))).
      { intros ops. split; [rewrite release_ledger; cbn in *; lia|exact (owned_restored n _ ops Ho)]. }
      unfold http_post_raw. destruct (build_request hl _ _ _ bytes) as [q|e2];
        [pose proof (Hr (xe_ops (sv_http e))) as [H1 H2]; destruct (release (xe_ops _) st _)|
         pose proof (Hr []) as [H1 H2]; destruct (release [] st _)]; cbn in *; intros [= <- <- <- <- <-]; cbn; split_and!; auto; lia.
    + pose proof (open_stream_ledger _ _ _ _ _ _ _ _ _ Eo) as Hl. intros [= <- <- <- <- <-]. cbn in *. split_and!; auto; [cbn; lia|]. intros _. split; [reflexivity|].
      unfold open_stream in Eo. destruct (connect _ _ _ n) as [[[raw|e2] n2]|] eqn:Ec; [| |discriminate].
      * destruct (ht_tls t) as [[ctx ins]|]; [|discriminate].
        destruct (wrap_tls_io _ _ _ _ _ _ _ _) as [[[[s io]|e3] l3] n3] eqn:Ew; [discriminate|]. injection Eo as <- <- <-.
        apply wrap_tls_io_spec in Ew as (_ & _ & -> & _). exact (owned_restored n _ [] (connect_owned _ _ _ _ _ _ Hf Ec)).
      * injection Eo as <- <- <-. exact (connect_failed _ _ _ _ _ _ Hf Ec).
    + intros [= <- <- <- <- <-]. cbn. split_and!; auto. intros _. split; [reflexivity|]. apply connect_dropped_clean, Hf.
  - destruct (grpc_send _ _ _ _ _ signal bytes t tk (l, n)) as [[[[[r1 t1] tk1] [l1 n1]] used]|] eqn:Eg; intros [= <- <- <- <- <-]; cbn.
    + apply (grpc_send_driven _ _ _ held) in Eg as (H1 & H2 & H3); [|exact Hk]. split_and!; auto. discriminate.
    + split_and!; auto. discriminate.
Qed.

Lemma end_driver_ctxs id ops ds : forall o, lg_ctxs (end_driver id ops ds o).2.1 = lg_ctxs o.1.
Proof.
  induction ds as [|d ds IH]; intros o; [reflexivity|]. cbn [end_driver]. destruct (Nat.eqb _ _); [destruct o, (dr_stream d); reflexivity|].
  specialize (IH o). destruct (end_driver id ops ds o). exact IH.
Qed.
Lemma end_drivers_ctxs ended : forall tk o, lg_ctxs (end_drivers ended tk o).2.1 = lg_ctxs o.1.
Proof.
  induction ended as [|[id ops] ended IH]; intros tk o; [reflexivity|]. cbn [end_drivers].
  pose proof (end_driver_ctxs id ops (tk_drivers tk) o) as Hc. destruct (end_driver _ _ _ _) as [ds o1]. rewrite IH. exact Hc.
Qed.

Lemma end_drivers_none ended o : end_drivers ended no_tasks o = (no_tasks, o).
Proof. induction ended as [|[id ops] ended IH]; [reflexivity|exact IH]. Qed.

(** Drivers that end give back what they hold. *)
Lemma end_drivers_kept held ended x tk l n tk' l' n' : kept held x tk l -> end_drivers ended tk (l, n) = (tk', (l', n')) ->
  kept held x tk' l' /\ (is_http x = true -> n' = n).
Proof.
  unfold kept. destruct x as [t|t].
  - intros [-> Hl]. rewrite end_drivers_none. intros [= <- <- <-]. auto.
  - intros Hd E. pose proof (end_drivers_driven held t ended tk l n Hd) as H. rewrite E in H. split; [exact H|discriminate].
Qed.

(** No send makes or frees a context. *)
Lemma open_stream_ctxs e alpn ep tls o r o' : open_stream e alpn ep tls o = Some (r, o') -> lg_ctxs (fst o') = lg_ctxs (fst o).
Proof.
  destruct o as [l n]. unfold open_stream. destruct (connect _ _ ep n) as [[[raw|e1] n1]|]; [|intros [= <- <-]; reflexivity|discriminate].
  destruct tls as [[ctx insecure]|]; [|intros [= <- <-]; reflexivity].
  destruct (wrap_tls_io _ _ _ _ _ _ _ _) as [[[[s io]|e2] l2] n2] eqn:Ew; apply wrap_tls_io_spec in Ew as [Ec _]; intros [= <- <-]; exact Ec.
Qed.

Lemma release_ctxs ops st o : lg_ctxs (fst (release ops st o)) = lg_ctxs (fst o).
Proof. destruct o, st; reflexivity. Qed.

Lemma transport_send_ctxs e signal bytes x tk o : lg_ctxs (fst (snd (transport_send e signal bytes x tk o))) = lg_ctxs (fst o).
Proof.
  unfold transport_send. destruct x as [t|t].
  - unfold http_send, http_connect_io. destruct (open_stream _ _ _ _ o) as [[[st|e1] o1]|] eqn:Eo; [| |reflexivity];
      apply open_stream_ctxs in Eo; [|exact Eo]. unfold http_post_raw.
    destruct (build_request hl _ _ _ bytes) as [q|e2]; cbn [fst snd]; rewrite release_ctxs; exact Eo.
  - unfold grpc_send. destruct (decode_request signal bytes); cbn [negb]; [|reflexivity].
    unfold ensure_client, grpc_connect_io. destruct (client_of signal t) as [c|] eqn:Ec.
    { destruct (cl_answer (sv_call e)); reflexivity. }
    destruct (open_stream _ _ _ _ o) as [[[st|e1] o1]|] eqn:Eo; [| |reflexivity]; apply open_stream_ctxs in Eo; [|exact Eo].
    destruct (cl_handshake (sv_call e)) as [[]|]; cbn [spawn_driver fst snd]; [|rewrite release_ctxs; exact Eo..].
    destruct (cl_answer (sv_call e)); exact Eo.
Qed.

End transport.

(** ** The process and its surroundings *)

(** What other processes and the kernel may change while the exporter waits: clocks, signal flags, the control page, the
    zones, nginx's counters, and the expiry of the certificate the collector last showed. *)
Record shared := mk_shared {
  sh_msec : Z; sh_nano : Z; sh_quit : bool; sh_terminate : bool;
  sh_control : control_shm; sh_logs : list worker_zone; sh_spans : list ring; sh_blocks : list worker_slots;
  sh_stats : Sources.ngx_stats; sh_now_secs : Z; sh_clock : Z -> Z; sh_collector_not_after : Z
}.
Definition sh_set_control c s := mk_shared (sh_msec s) (sh_nano s) (sh_quit s) (sh_terminate s) c (sh_logs s) (sh_spans s) (sh_blocks s)
  (sh_stats s) (sh_now_secs s) (sh_clock s) (sh_collector_not_after s).
Definition sh_set_logs z s := mk_shared (sh_msec s) (sh_nano s) (sh_quit s) (sh_terminate s) (sh_control s) z (sh_spans s) (sh_blocks s)
  (sh_stats s) (sh_now_secs s) (sh_clock s) (sh_collector_not_after s).
Definition sh_set_spans z s := mk_shared (sh_msec s) (sh_nano s) (sh_quit s) (sh_terminate s) (sh_control s) (sh_logs s) z (sh_blocks s)
  (sh_stats s) (sh_now_secs s) (sh_clock s) (sh_collector_not_after s).
Definition sh_set_blocks b s := mk_shared (sh_msec s) (sh_nano s) (sh_quit s) (sh_terminate s) (sh_control s) (sh_logs s) (sh_spans s) b
  (sh_stats s) (sh_now_secs s) (sh_clock s) (sh_collector_not_after s).

(** What happens during one wait: what the network and OpenSSL answer a send, which detached drivers come to their end (and how they have used their
    connections), and what everybody else does. *)
Record moment := mk_moment { mo_send : send_env; mo_ended : list (nat * list conn_op); mo_meanwhile : shared -> shared }.

(** What the network does in a moment. *)
Abbreviation network := (send_env * list (nat * list conn_op))%type.

(** The exporter's view: the shared state, its transport, the detached tasks of its event loop, the connections and sessions, and which wait comes next. *)
Record machine := mk_machine { ma_shared : shared; ma_transport : export_transport; ma_tasks : tasks; ma_outside : outside; ma_next : nat }.
Definition on_shared (f : shared -> shared) (m : machine) : machine :=
  mk_machine (f (ma_shared m)) (ma_transport m) (ma_tasks m) (ma_outside m) (ma_next m).
(** The end of a wait. *)
Definition waited (mo : moment) (x : export_transport) (tk : tasks) (o : outside) (m : machine) : machine :=
  let d := end_drivers (mo_ended mo) tk o in mk_machine (mo_meanwhile mo (ma_shared m)) x d.1 d.2 (S (ma_next m)).

(** The code prost generates: the serialisation of the three requests, and whether bytes are one. *)
Class Prost := {
  serialize_metrics : pb_request pb_metric -> list Z;
  serialize_logs : pb_request pb_log -> list Z;
  serialize_traces : pb_request pb_span -> list Z;
  decodes : otlp_signal -> list Z -> bool
}.

(** [src/src/drain/mod.rs: encode_pdata] *)
Definition encode_pdata `{Prost} (data : pdata) : list Z :=
  match data with
  | PMetrics b => serialize_metrics (metrics_request b)
  | PLogs b => serialize_logs (logs_request b)
  | PSpans b => serialize_traces (traces_request b)
  end.

(** prost's promise: what it has written it can read. *)
Class ProstLaws `{Prost} := decodes_own pd : decodes (signal_of pd) (encode_pdata pd) = true.

(** The processor of [export_loop] is built from the empty object, which has no members. *)
Class EmptyObject (J : Type) `{JsonValue J} := { empty_object : J; empty_no_member key : get empty_object key = None }.

Section machine.
Context (hl : http_lib).
Context (decode_response : otlp_signal -> list Z -> option (option Z)).
Context (decode_status : list Z -> option (list (list Z * list Z))).
Context (decode_retry_info : list Z -> option (option (Z * Z))).
Context `{Prost}.
Context {J : Type} `{EmptyObject J}.
(** [size_of::<ngx_slab_pool_t>()], the configuration, whether nginx has stub_status, the master's pid, when the
    exporter started, how often it has restarted, the host of the endpoint, and what will happen. *)
Context (data_offset : Z) (amcf : main_config) (stat_stub : bool) (master_pid : Z) (worker_start_ns : Z) (restarts : Z) (collector_host : list Z).
Context (future : nat -> moment).

(** What the loop reads of the configuration.
    [src/src/drain/mod.rs: 684-714 export_loop] *)
Definition loop_config : export_config :=
  let zone_bytes z := match z with Some z => sat_sub (z_size z) data_offset | None => 0 end in
  mk_export_config (mk_resource_config (mc_service_name amcf) (mc_resource_attrs amcf) master_pid)
    (metrics_enabled amcf) (any_log_export_enabled amcf) (mc_error_log_enabled amcf) (retry_buffer_depth amcf) (interval_ms amcf)
    (mc_n_active_workers amcf)
    (logs_n_workers_from_zone (zone_bytes (mc_logs_shm_zone amcf)) (log_ring_cap amcf))
    (spans_n_workers_from_zone (zone_bytes (mc_spans_shm_zone amcf)) DEFAULT_SPAN_RING_CAP)
    (from_config (empty_object (J := J))).

Definition source_env_of (c : counters) (s : shared) : Sources.source_env :=
  Sources.mk_senv stat_stub (sh_stats s) (Sources.mk_self c 0 restarts) (sh_clock s) (sh_now_secs s) (sh_blocks s) (sh_collector_not_after s) master_pid.

Definition mapped {A} (base : option Z) (v : A) : option A := match base with Some _ => Some v | None => None end.

#[local] Instance machine_world : World machine := {
  ngx_current_msec m := sh_msec (ma_shared m);
  now_unix_nano m := sh_nano (ma_shared m);
  ngx_quit m := sh_quit (ma_shared m);
  ngx_terminate m := sh_terminate (ma_shared m);
  control m := mapped (control_shm_ptr data_offset amcf) (sh_control (ma_shared m));
  set_control c := on_shared (sh_set_control c);
  logs_zone m := mapped (logs_shm_base data_offset amcf) (sh_logs (ma_shared m));
  set_logs_zone z := on_shared (sh_set_logs z);
  spans_zone m := mapped (spans_shm_base data_offset amcf) (sh_spans (ma_shared m));
  set_spans_zone z := on_shared (sh_set_spans z);
  collect_all_sources c m :=
    let '(b, blocks) := Sources.collect_all_sources data_offset amcf (source_env_of c (ma_shared m)) worker_start_ns collector_host in
    (b, on_shared (sh_set_blocks blocks) m);
  send l bytes budget m :=
    let mo := future (ma_next m) in
    let '(r, x, tk, o) := send_batch hl decode_response decode_status decode_retry_info decodes l (mo_send mo) bytes (ma_transport m) (ma_tasks m) (ma_outside m) in
    (r, waited mo x tk o m);
  sleep ms m := waited (future (ma_next m)) (ma_transport m) (ma_tasks m) (ma_outside m) m
}.

#[local] Instance machine_status : StatusIsVerdict machine.
Proof.
  intros l bytes budget m err. cbn. rewrite send_batch_signal.
  pose proof (transport_send_status hl decode_response decode_status decode_retry_info decodes (mo_send (future (ma_next m)))
    (lane_signal l) bytes (ma_transport m) (ma_tasks m) (ma_outside m) err) as Hs.
  destruct (transport_send _ _ _ _ _ _ _ _ _ _ _) as [[[r x] tk] o]. exact Hs.
Qed.

(** ** What the exporter holds *)

(** The exporter's holdings in [m] are those it started with in [m0], but for the sessions of drivers; [held] is what others hold. *)
Record holds (held : Z) (m0 m : machine) : Prop := {
  hold_sessions : kept held (ma_transport m) (ma_tasks m) (fst (ma_outside m));
  hold_contexts : lg_ctxs (fst (ma_outside m)) = lg_ctxs (fst (ma_outside m0));
  hold_kind : is_http (ma_transport m) = is_http (ma_transport m0);
  hold_peer : transport_endpoint (ma_transport m) = transport_endpoint (ma_transport m0) /\
    transport_tls (ma_transport m) = transport_tls (ma_transport m0);
  hold_http : is_http (ma_transport m0) = true ->
    ma_transport m = ma_transport m0 /\ restored (snd (ma_outside m0)) (snd (ma_outside m))
}.

Lemma holds_refl held m : kept held (ma_transport m) (ma_tasks m) (fst (ma_outside m)) -> ngx_fresh (snd (ma_outside m)) -> holds held m m.
Proof. intros Hk Hf. split; auto. intros _. split; [reflexivity|]. apply restored_refl, Hf. Qed.

(** The end of a wait keeps the books. *)
Lemma waited_holds held m0 mo x tk l n m : kept held x tk l ->
  lg_ctxs l = lg_ctxs (fst (ma_outside m0)) -> is_http x = is_http (ma_transport m0) ->
  (transport_endpoint x = transport_endpoint (ma_transport m0) /\ transport_tls x = transport_tls (ma_transport m0)) ->
  (is_http (ma_transport m0) = true -> x = ma_transport m0 /\ restored (snd (ma_outside m0)) n) ->
  holds held m0 (waited mo x tk (l, n) m).
Proof.
  intros Hk Hc Hh Hp Hr. unfold waited. pose proof (end_drivers_ctxs (mo_ended mo) tk (l, n)) as Hc'.
  destruct (end_drivers (mo_ended mo) tk (l, n)) as [tk' [l' n']] eqn:Ee. apply (end_drivers_kept held _ x) in Ee as [Hk' Hn]; [|exact Hk].
  split; cbn [ma_transport ma_tasks ma_outside fst snd] in *; auto; [congruence|]. intros Hx. rewrite Hn by congruence. apply Hr, Hx.
Qed.

#[local] Instance holds_kept cfg held m0 : WorldKeeps cfg (holds held m0).
Proof.
  split; try (intros c m Hm; destruct Hm; split; assumption).
  - intros c m Hm. cbn. destruct (Sources.collect_all_sources _ _ _ _ _). destruct Hm; split; assumption.
  - intros l bytes budget m [K1 K2 K3 [K4 K5] K6]. cbn [send machine_world]. rewrite send_batch_signal.
    pose proof (transport_send_ctxs hl decode_response decode_status decode_retry_info decodes (mo_send (future (ma_next m)))
      (lane_signal l) bytes (ma_transport m) (ma_tasks m) (ma_outside m)) as Gc.
    destruct (transport_send _ _ _ _ _ _ _ _ _ _ _) as [[[r x] tk] [l' n']] eqn:Et. destruct (ma_outside m) as [l0 n0] eqn:Eo.
    apply (transport_send_clean _ _ _ _ _ held) in Et as (G1 & G2 & G3 & G4 & G5); [| |exact K1].
    2: { intros Hh. rewrite K3 in Hh. apply K6 in Hh as [_ Hr]. apply Hr. }
    cbn [snd fst] in *. apply waited_holds; [exact G1|congruence|congruence|split; congruence|].
    intros Hh. pose proof (G3 (eq_trans K3 Hh)) as [-> Hr]. destruct (K6 Hh) as [-> Hr0].
    split; [reflexivity|exact (restored_trans _ _ _ Hr0 Hr)].
  - intros ms m [K1 K2 K3 K4 K6]. cbn [sleep machine_world]. destruct (ma_outside m) as [l0 n0]. apply waited_holds; assumption.
  - intros x m Hm. unfold collect_logs. destruct (logs_zone m); [|exact Hm]. destruct (collect_log_records _ _ _ _ _) as [[? ?] ?]. destruct Hm; split; assumption.
  - intros x m Hm. unfold collect_spans. destruct (spans_zone m); [|exact Hm]. destruct (collect_span_records _ _ _ _) as [[? ?] ?]. destruct Hm; split; assumption.
Qed.

(** The transport the loop starts with keeps nothing yet. *)
Lemma choose_transport_kept amcf' s tls x l : choose_transport hl amcf' s tls = Some x -> kept (lg_ssls l) x no_tasks l.
Proof.
  unfold choose_transport. destruct (effective_protocol amcf').
  - destruct (http_with_connector _ _); [|discriminate]. intros [= <-]. split; reflexivity.
  - destruct (grpc_with_connector hl s) as [t0|] eqn:E; [|discriminate]. intros [= <-].
    apply fresh_driven, (grpc_fresh hl s t0 tls E).
Qed.

(** The drivers no client uses any more. *)
Definition orphans (x : export_transport) (tk : tasks) : list driver :=
  match x with XHttp _ => tk_drivers tk | XGrpc t => filter (fun d => ~ in_use t d) (tk_drivers tk) end.

Lemma kept_count held x tk l : kept held x tk l ->
  lg_ssls l = held + tls_sessions (transport_tls x) * Z.of_nat (length (tk_drivers tk)) /\
  (length (tk_drivers tk) <= 3 + length (orphans x tk))%nat /\ NoDup (map dr_id (tk_drivers tk)).
Proof.
  destruct x as [t|t]; cbn [kept transport_tls orphans]; [intros [-> ->]; cbn; split_and!; [lia|lia|constructor]|].
  intros Hd. split_and!; [exact (driven_count _ _ _ _ Hd)| |apply Hd]. pose proof (in_use_bound _ _ _ _ Hd) as Hb.
  enough (length (tk_drivers tk) = length (filter (in_use t) (tk_drivers tk)) + length (filter (fun d => ~ in_use t d) (tk_drivers tk)))%nat by lia.
  rewrite <- (filter_app_complement (in_use t) (tk_drivers tk)) at 1. apply length_app.
Qed.

(** C14 (safety). However long it runs, the exporter leaks no TLS context, no session but to its gRPC drivers, and over HTTP no connection.  Start the
    loop on the transport the configuration asks for, and let the network, OpenSSL, hyper and the other processes do what
    they like for any number of intervals, with sends that succeed, fail or are dropped by their deadline
    at any await.  At the end, the context made at the start (if the endpoint is [https://]) is the only one, and the transport still talks to
    the configured endpoint with the settings it was built with.  Over HTTP no session is left and every connection that was opened has been closed, exactly once.
    Over gRPC the sessions allocated are one for each connection whose detached driver still runs, each counted once; at most three of these
    connections are in use, one per signal, and the
    others are those of drivers whose client was dropped after a failed or abandoned call and which hyper has not ended yet.  So once
    these have ended there are at most three sessions.
    About: export_iterations, transport_send, send_batch, start_export, http_send, grpc_send, connect_dropped, attempt_dropped. *)
Theorem exporter_leaks_nothing A l0 st l1 cfg fuel my_gen since x m e x' m' :
  start_export hl A amcf l0 = (Some st, l1) -> ma_transport m = st_transport st -> ma_tasks m = no_tasks -> fst (ma_outside m) = l1 ->
  ngx_fresh (snd (ma_outside m)) ->
  export_iterations encode_pdata fuel cfg my_gen since x m = Some (e, x', m') ->
  let '(l', n') := ma_outside m' in
  let drivers := tk_drivers (ma_tasks m') in
  parse_endpoint (xc_endpoint (mc_exporter amcf)) = Some (transport_endpoint (ma_transport m')) /\
  transport_tls (ma_transport m') = transport_tls (st_transport st) /\
  lg_ctxs l' = lg_ctxs l0 + (if is_tls (transport_endpoint (ma_transport m')) then 1 else 0) /\
  (lg_ssls l' = lg_ssls l0 + (if is_tls (transport_endpoint (ma_transport m')) then Z.of_nat (length drivers) else 0) /\
   NoDup (map dr_id drivers) /\ (length drivers <= 3 + length (orphans (ma_transport m') (ma_tasks m')))%nat) /\
  (effective_protocol amcf = OtlpHttp -> lg_ssls l' = lg_ssls l0 /\ drivers = [] /\ ma_transport m' = st_transport st /\
     nx_open n' = nx_open (snd (ma_outside m)) /\ nx_alerts n' = nx_alerts (snd (ma_outside m))).
Proof.
  intros Es Et Ek Eo Hf Er. apply start_export_spec in Es as [Hl (Hp & Hc & Ht)].
  pose proof (choose_transport_kept _ _ _ _ l1 Hc) as Hk. rewrite <- Et, <- Ek, <- Eo in Hk.
  pose proof (iterations_keep _ cfg my_gen (holds _ m) _ _ _ _ _ _ _ (holds_refl _ m Hk Hf) Er) as [K1 K2 K3 [K4 K5] K6].
  apply choose_transport_spec in Hc as (_ & _ & Hx). pose proof (kept_count _ _ _ _ K1) as (C1 & C2 & C3).
  rewrite Et, Eo in *. destruct (ma_outside m') as [l' n']. cbn [fst snd] in *.
  split_and!; try assumption; [congruence| | |].
  - rewrite K2, K4. destruct (transport_tls (st_transport st)) as [[ctx ins]|]; [destruct Ht as (-> & _ & _ & ->)|destruct Ht as (-> & ->)]; lia.
  - rewrite K5 in C1. rewrite C1, K4, Hl. destruct (transport_tls (st_transport st)) as [[ctx ins]|]; destruct Ht as (-> & _); cbn; lia.
  - intros Hh. destruct (st_transport st) as [t|t]; [|congruence]. destruct (K6 eq_refl) as [Em (R1 & R2 & _)]. rewrite Em in *.
    destruct K1 as [-> K1]. split_and!; auto. congruence.
Qed.

(** ** From the rings to the collector *)

(** What was taken from the rings at each collection. *)
Definition taken_logs (ev : event) : list logs_batch :=
  match ev with
  | EvLogs zone now => [(collect_log_records (ec_resource loop_config) (ec_error_log_enabled loop_config) zone
      (get_n_workers (ec_n_active_workers loop_config) (ec_logs_zone_workers loop_config)) now).1.1]
  | _ => []
  end.
Definition taken_spans (ev : event) : list spans_batch :=
  match ev with
  | EvSpans zone now => [(collect_span_records (ec_resource loop_config) zone
      (get_n_workers (ec_n_active_workers loop_config) (ec_spans_zone_workers loop_config)) now).1.1]
  | _ => []
  end.
Definition log_batches (evs : list event) : list logs_batch := filter (fun b => lb_logs b <> []) (evs ≫= taken_logs).
Definition span_batches (evs : list event) : list spans_batch := filter (fun b => sb_spans b <> []) (evs ≫= taken_spans).

(** The processor of the loop lets everything pass. *)
Lemma loop_processor pd : process (ec_processor loop_config) pd = pd.
Proof. cbn [ec_processor loop_config]. unfold from_config. rewrite empty_no_member. reflexivity. Qed.

(** A lane is offered the encodings of the batches taken that are not empty. *)
Lemma offered_taken {B C} l (taken : event -> list B) (items : B -> list C) (pd : B -> pdata) `{!forall b, Decision (items b <> [])} evs :
  (forall ev, offered_by encode_pdata loop_config l ev = taken ev ≫= fun b => batch_of encode_pdata (pd b)) ->
  (forall b, count_pdata_records (pd b) = Z.of_nat (length (items b))) ->
  map fst (offered encode_pdata loop_config l evs) = map (fun b => encode_pdata (pd b)) (filter (fun b => items b <> []) (evs ≫= taken)).
Proof.
  intros Ho Hc. unfold offered. induction evs as [|ev evs IH]; [reflexivity|].
  rewrite !bind_cons, list.filter_app, !map_app, IH, Ho. f_equal. clear IH.
  induction (taken ev) as [|b bs IH]; [reflexivity|]. rewrite bind_cons, map_app, IH, filter_cons. unfold batch_of. rewrite Hc.
  destruct (decide (items b <> [])) as [Hn|Hn]; [destruct (items b); [congruence|reflexivity]|]. apply dec_stable in Hn. rewrite Hn. reflexivity.
Qed.

Lemma offered_logs evs : map fst (offered encode_pdata loop_config LLogs evs) = map (fun b => serialize_logs (logs_request b)) (log_batches evs).
Proof.
  apply (offered_taken LLogs taken_logs lb_logs PLogs); [|reflexivity]. intros [zone now| | | |]; try reflexivity.
  cbn [offered_by taken_logs]. unfold collected_logs. rewrite loop_processor, bind_cons, app_nil_r. reflexivity.
Qed.
Lemma offered_spans evs : map fst (offered encode_pdata loop_config LSpans evs) = map (fun b => serialize_traces (traces_request b)) (span_batches evs).
Proof.
  apply (offered_taken LSpans taken_spans sb_spans PSpans); [|reflexivity]. intros [|zone now| | |]; try reflexivity.
  cbn [offered_by taken_spans]. unfold collected_spans. rewrite loop_processor, bind_cons, app_nil_r. reflexivity.
Qed.

(** Nothing is left out by leaving out the empty batches. *)
Lemma concat_filter {B C} (items : B -> list C) `{!forall b, Decision (items b <> [])} bs :
  concat (map items (filter (fun b => items b <> []) bs)) = concat (map items bs).
Proof.
  induction bs as [|b bs IH]; [reflexivity|]. rewrite filter_cons. destruct (decide _) as [|Hn]; cbn; [rewrite IH; reflexivity|].
  apply dec_stable in Hn. rewrite Hn. exact IH.
Qed.

(** Each batch offered on a lane is of its signal, and has records. *)
Lemma offered_own l evs body n : (body, n) ∈ offered encode_pdata loop_config l evs ->
  0 < n /\ exists pd, body = encode_pdata pd /\ signal_of pd = lane_signal l.
Proof.
  unfold offered. rewrite list_elem_of_bind. intros (ev & Hin & _).
  assert (Hb : forall pd, (body, n) ∈ batch_of encode_pdata pd -> 0 < n /\ body = encode_pdata pd).
  { intros pd. unfold batch_of. case_if; [intros Hb; inversion Hb|]. intros Hb%list_elem_of_singleton. injection Hb as -> ->.
    split; [|reflexivity]. assert (0 <= count_pdata_records pd); [|lia]. destruct pd as [b| |]; cbn; try lia.
    apply zsum_nonneg, Forall_forall. intros z Hz%in_map_iff. destruct Hz as (mt & <- & _). destruct (m_data mt); lia. }
  destruct ev as [zone now|zone now|b t| |]; [| | |inversion Hin|inversion Hin]; destruct l; try (inversion Hin; fail); cbn [offered_by] in Hin;
    unfold collected_logs, collected_spans in Hin; rewrite loop_processor in Hin; apply Hb in Hin as [Hn ->]; eauto.
Qed.

Lemma offered_metrics evs body n : (body, n) ∈ offered encode_pdata loop_config LMetrics evs ->
  exists b t, EvMetrics b t ∈ evs /\ body = serialize_metrics (metrics_request b).
Proof.
  unfold offered. rewrite list_elem_of_bind. intros (ev & Hin & Hev). destruct ev as [| |b t| |]; try (inversion Hin; fail). cbn [offered_by] in Hin.
  rewrite loop_processor in Hin. unfold batch_of in Hin. destruct (count_pdata_records _ =? 0); [inversion Hin|]. apply list_elem_of_singleton in Hin. injection Hin as -> _.
  eauto.
Qed.

Definition records_offered (evs : list event) : Z :=
  queue_records (offered encode_pdata loop_config LMetrics evs) + queue_records (offered encode_pdata loop_config LLogs evs) +
  queue_records (offered encode_pdata loop_config LSpans evs).

Lemma queue_records_perm q q' : q ≡ₚ q' -> queue_records q = queue_records q'.
Proof. unfold queue_records, zsum. induction 1; cbn in *; lia. Qed.

(** The credited batches of a lane are among those offered, and count at least one record each. *)
Lemma credited_bound l evs F S U C Q : F ≡ₚ S ++ U ++ C ++ Q -> F `sublist_of` offered encode_pdata loop_config l evs ->
  0 <= queue_records C <= queue_records (offered encode_pdata loop_config l evs) /\ (queue_records C = 0 -> C = []).
Proof.
  intros Hp Hs. set (O := offered encode_pdata loop_config l evs) in *.
  assert (HO : Forall (fun e => 0 < e.2) O) by (apply Forall_forall; intros [body n] Hin%list_elem_of_In; apply (offered_own l evs body n Hin)).
  apply sublist_submseteq in Hs. apply submseteq_Permutation in Hs as [R HR]. rewrite Hp in HR.
  assert (Hparts : queue_records O = queue_records C + queue_records (S ++ U ++ Q ++ R) /\ Forall (fun e => 0 < e.2) C /\ Forall (fun e => 0 < e.2) (S ++ U ++ Q ++ R)).
  { assert (HP : O ≡ₚ C ++ (S ++ U ++ Q ++ R)) by (rewrite HR; solve_Permutation). rewrite (queue_records_perm _ _ HP), queue_records_app.
    split; [reflexivity|]. rewrite HP in HO. apply Forall_app in HO. exact HO. }
  destruct Hparts as (HE & HC & HX).
  assert (Hpos : forall q : retry_queue, Forall (fun e => 0 < e.2) q -> 0 <= queue_records q /\ (queue_records q = 0 -> q = [])).
  { clear. induction 1 as [|[b n] q Hn _ [IH _]]; [split; [reflexivity|auto]|]. unfold queue_records, zsum in *. cbn in *. split; lia. }
  destruct (Hpos _ HC), (Hpos _ HX). split; [lia|assumption].
Qed.

(** What a watched run delivers. *)
Lemma run_delivers `{!ProstLaws} fuel my_gen since m e x' m' :
  export_iterations encode_pdata fuel loop_config my_gen since initial_exporter m = Some (e, x', m') ->
  exists evs, export_iterations encode_pdata fuel loop_config my_gen since initial_exporter (observe m) = Some (e, x', mk_history m' evs) /\
  (forall l body, body ∈ sent l evs -> decodes (lane_signal l) body = true) /\
  (forall body, body ∈ sent LMetrics evs -> exists b t, EvMetrics b t ∈ evs /\ body = serialize_metrics (metrics_request b)) /\
  concat (map lb_logs (log_batches evs)) = concat (map lb_logs (evs ≫= taken_logs)) /\
  concat (map sb_spans (span_batches evs)) = concat (map sb_spans (evs ≫= taken_spans)) /\
  (forall b, b ∈ log_batches evs -> read_logs (logs_request b) = Some b) /\
  (forall b, b ∈ span_batches evs -> read_spans (traces_request b) = Some b) /\
  (e = Drained -> given_up LLogs evs = [] -> given_up LSpans evs = [] -> DROPPED_RECORDS (stats x') = 0 -> records_offered evs < 2 ^ 64 ->
   settled LLogs evs ≡ₚ map (fun b => serialize_logs (logs_request b)) (log_batches evs) /\
   settled LSpans evs ≡ₚ map (fun b => serialize_traces (traces_request b)) (span_batches evs)).
Proof.
  intros E. destruct (batches_accounted encode_pdata loop_config fuel my_gen since m e x' m' E) as (evs & Er & F & S & U & C & Hl & Hd).
  exists evs. split; [exact Er|]. split_and!.
  - intros l body Hin. destruct (Hl l) as (_ & _ & _ & Hs & _ & _ & Hin' & _). apply Hin' in Hin.
    apply list_elem_of_In, in_map_iff in Hin as ([body' n] & <- & Hin%list_elem_of_In). eapply elem_of_sublist in Hs; [|exact Hin].
    apply offered_own in Hs as (_ & pd & -> & <-). apply decodes_own.
  - intros body Hin. destruct (Hl LMetrics) as (_ & _ & _ & Hs & _ & _ & Hin' & _). apply Hin' in Hin.
    apply list_elem_of_In, in_map_iff in Hin as ([body' n] & <- & Hin%list_elem_of_In). eapply elem_of_sublist in Hs; [|exact Hin].
    exact (offered_metrics evs body' n Hs).
  - apply concat_filter.
  - apply concat_filter.
  - intros b _. apply read_logs_request.
  - intros b _. apply read_traces_request.
  - intros -> Gl Gs Hz Hw.
    destruct (Hl LMetrics) as (P0 & _ & _ & S0 & _). destruct (Hl LLogs) as (P1 & E1 & U1 & S1 & F1 & _ & _ & _ & Q1). destruct (Hl LSpans) as (P2 & E2 & U2 & S2 & F2 & _ & _ & _ & Q2).
    destruct (credited_bound _ _ _ _ _ _ _ P0 S0) as [B0 _]. destruct (credited_bound _ _ _ _ _ _ _ P1 S1) as [B1 C1].
    destruct (credited_bound _ _ _ _ _ _ _ P2 S2) as [B2 C2]. unfold records_offered in Hw. rewrite Hz in Hd. unfold wrap in Hd.
    rewrite Z.mod_small in Hd by lia. rewrite C1, Q1 in P1 by (reflexivity || lia || (left; discriminate)).
    rewrite C2, Q2 in P2 by (reflexivity || lia || (left; discriminate)). rewrite Gl in U1. rewrite Gs in U2. apply fmap_nil_inv in U1, U2.
    rewrite U1, !app_nil_r in P1. rewrite U2, !app_nil_r in P2.
    rewrite <- E1, <- E2, <- offered_logs, <- offered_spans, <- F1, <- F2 by discriminate. rewrite P1, P2. split; reflexivity.
Qed.

Lemma run_looks fuel my_gen since m x' m' evs :
  export_iterations encode_pdata fuel loop_config my_gen since initial_exporter (observe m) = Some (Drained, x', mk_history m' evs) ->
  ec_metrics_enabled loop_config = true -> last_look evs.
Proof. intros E Hm. exact (drained_looks encode_pdata loop_config fuel my_gen since _ _ _ E Hm). Qed.

(** C7 (functional). Records go from the rings to the collector, and the exporter knows when one did not.  Run the loop as configured with
    any transport, network, collector and workers, and watch it.  Every body that is sent is a prost message of the signal it is sent for, so
    gRPC never refuses it locally; a metrics body is the request of a batch that was collected.  The batches of logs (and of spans) that were made hold exactly the records taken from the rings, in
    order, and a collector that follows the protocol reads each of them back from its request.  If the loop
    came to its final drain, no send of that drain failed and the counter of dropped records is zero, then
    the bodies that the collector settled are exactly the serialised requests of all these batches, each once: nothing was lost, invented or settled twice.
    About: export_iterations, loop_config, encode_pdata, collect_logs, collect_spans, logs_request, traces_request, from_config, graceful_drain, transport_send. *)
Theorem records_reach_collector `{!ProstLaws} fuel my_gen since m e x' m' :
  export_iterations encode_pdata fuel loop_config my_gen since initial_exporter m = Some (e, x', m') ->
  exists evs, export_iterations encode_pdata fuel loop_config my_gen since initial_exporter (observe m) = Some (e, x', mk_history m' evs) /\
  (forall l body, body ∈ sent l evs -> decodes (lane_signal l) body = true) /\
  (forall body, body ∈ sent LMetrics evs -> exists b t, EvMetrics b t ∈ evs /\ body = serialize_metrics (metrics_request b)) /\
  concat (map lb_logs (log_batches evs)) = concat (map lb_logs (evs ≫= taken_logs)) /\
  concat (map sb_spans (span_batches evs)) = concat (map sb_spans (evs ≫= taken_spans)) /\
  (forall b, b ∈ log_batches evs -> read_logs (logs_request b) = Some b) /\
  (forall b, b ∈ span_batches evs -> read_spans (traces_request b) = Some b) /\
  (e = Drained -> given_up LLogs evs = [] -> given_up LSpans evs = [] -> DROPPED_RECORDS (stats x') = 0 -> records_offered evs < 2 ^ 64 ->
   settled LLogs evs ≡ₚ map (fun b => serialize_logs (logs_request b)) (log_batches evs) /\
   settled LSpans evs ≡ₚ map (fun b => serialize_traces (traces_request b)) (span_batches evs)).
Proof. apply run_delivers. Qed.
End machine.

(** ** A collector behind TLS *)

#[export] Instance json_empty : EmptyObject json := { empty_object := JObject []; empty_no_member := fun _ => eq_refl }.

Definition request_items {A} (q : pb_request A) : Z := Z.of_nat (length (concat (map sd_items (concat (map rd_scopes q))))).

(** A serialisation with the promise: the signal and the number of items. *)
#[export] Instance toy_prost : Prost := {
  serialize_metrics q := [1; request_items q];
  serialize_logs q := [2; request_items q];
  serialize_traces q := [3; request_items q];
  decodes signal bytes := match signal, bytes with SigMetrics, [1; _] | SigLogs, [2; _] | SigTraces, [3; _] => true | _, _ => false end
}.
#[export] Instance toy_prost_laws : ProstLaws.
Proof. intros []; reflexivity. Qed.

(** The configuration of [Transport]'s example with zones for one worker. *)
Definition live_main : main_config :=
  set_n_active_workers 1 (set_any_log_export true (set_metric_interval_ms 1000 (set_control_shm_zone (Some (Config.mk_zone 4096 8192))
    (set_logs_shm_zone (Some (Config.mk_zone 65536 65536)) (set_spans_shm_zone (Some (Config.mk_zone 131072 65536)) sample_main))))).

(** Time passes and a quit arrives; the third wait is a send whose connect never completes. *)
Definition tick_on (s : shared) : shared :=
  mk_shared (sh_msec s + 100) (sh_nano s + 100000000) (1500 <=? sh_msec s) false (sh_control s) (sh_logs s) (sh_spans s) (sh_blocks s)
    (sh_stats s) (sh_now_secs s) (sh_clock s) (sh_collector_not_after s).
Definition stuck_open : open_env :=
  mk_oe 1 (mk_cenv (Some 8) true (fun _ _ => mk_attempt true []) true (fun _ _ => Some [mk_attempt true [mk_cin false 3 (0, 0) NGX_AGAIN]])) (oe_ssl sample_open).
Definition live_moment (stuck : nat) (k : nat) : moment :=
  mk_moment (mk_se (if bool_decide (k = stuck) then stuck_open else sample_open) sample_exchange (mk_ce (Some true) (RpcOk None)) 0) [] tick_on.

Definition live_shared : shared :=
  mk_shared 1000 5 false false (mk_control 0 0 0 0 1 0)
    [Collect.mk_zone (wrp_ring (snd (emit_access_record (mk_producer (fresh_ring 1024)) sample_req))) (fresh_ring 64) empty_table]
    [fresh_ring 64] [] (Sources.mk_stats 0 0 0 0 0 0 0) 0 (fun k => k) 0.
Definition live_machine (st : started) (l : ledger) : machine := mk_machine live_shared (st_transport st) no_tasks (l, quiet_ngx) 0.
Definition live_world (stuck : nat) : World machine :=
  machine_world sample_http (fun _ _ => None) (fun _ => None) (fun _ => None) 0 live_main false 7 0 0 $"otel.example" (live_moment stuck).
Definition live_config : export_config := loop_config (J := json) 0 live_main 7.

Abbreviation live_on m := (@export_iterations machine (live_world 1) encode_pdata 5 live_config 1 0 initial_exporter m).
Abbreviation live_watched m :=
  (@export_iterations (history machine) (@history_world machine (live_world 1)) encode_pdata 5 live_config 1 0 initial_exporter (observe m)).

(** The first send of the logs hangs in its connect and is dropped; the batch is retried. *)
Lemma live_drains : exists st l1, start_export sample_http sample_ctx live_main sample_ledger = (Some st, l1) /\
  exists x' m', live_on (live_machine st l1) = Some (Drained, x', m').
Proof. do 2 eexists. split; [vm_compute; reflexivity|]. vm_compute. eauto. Qed.

Lemma live_history st l1 e x' m' evs : start_export sample_http sample_ctx live_main sample_ledger = (Some st, l1) ->
  live_watched (live_machine st l1) = Some (e, x', mk_history m' evs) ->
  (given_up LLogs evs, given_up LSpans evs, DROPPED_RECORDS (stats x'), records_offered (J := json) 0 live_main 7 evs <? 2 ^ 64,
   map (fun b => length (lb_logs b)) (log_batches (J := json) 0 live_main 7 evs), length (sent LLogs evs)) = ([], [], 0, true, [1%nat], 2%nat).
Proof.
  intros Es E. assert (C : match start_export sample_http sample_ctx live_main sample_ledger with
    | (Some st, l1) => (fun '(_, x', h) => (given_up LLogs (events h), given_up LSpans (events h), DROPPED_RECORDS (stats x'),
        records_offered (J := json) 0 live_main 7 (events h) <? 2 ^ 64,
        map (fun b => length (lb_logs b)) (log_batches (J := json) 0 live_main 7 (events h)), length (sent LLogs (events h)))) <$> live_watched (live_machine st l1)
    | _ => None end = Some ([], [], 0, true, [1%nat], 2%nat)) by (vm_compute; reflexivity).
  rewrite Es, E in C. injection C as -> -> -> -> -> ->. reflexivity.
Qed.

Lemma exporter_leaks_nothing_witness : exists st l1 x' m',
  start_export sample_http sample_ctx live_main sample_ledger = (Some st, l1) /\ live_on (live_machine st l1) = Some (Drained, x', m') /\
  lg_ctxs (fst (ma_outside m')) = 1 /\ lg_ssls (fst (ma_outside m')) = 0 /\ nx_open (snd (ma_outside m')) = [3].
Proof.
  destruct live_drains as (st & l1 & Es & x' & m' & E). exists st, l1, x', m'. split; [exact Es|]. split; [exact E|].
  assert (Hf : ngx_fresh quiet_ngx) by (repeat constructor).
  pose proof (exporter_leaks_nothing sample_http (fun _ _ => None) (fun _ => None) (fun _ => None) 0 live_main false 7 0 0 $"otel.example" (live_moment 1)
    sample_ctx sample_ledger st l1 live_config 5 1 0 initial_exporter (live_machine st l1) Drained x' m' Es eq_refl eq_refl eq_refl Hf E) as H.
  destruct (ma_outside m') as [l' n']. destruct H as (Hp & _ & Hc & _ & Hh). destruct (Hh eq_refl) as (Hs & _ & _ & Ho & _).
  cbn [fst snd]. split_and!; [|exact Hs|exact Ho]. rewrite Hc. revert Hp. generalize (transport_endpoint (ma_transport m')). intros ep Hp. vm_compute in Hp. injection Hp as <-. reflexivity.
Defined.

Lemma records_reach_collector_witness : exists st l1 evs b,
  start_export sample_http sample_ctx live_main sample_ledger = (Some st, l1) /\
  log_batches (J := json) 0 live_main 7 evs = [b] /\ length (lb_logs b) = 1%nat /\ settled LLogs evs = [serialize_logs (logs_request b)] /\ length (sent LLogs evs) = 2%nat.
Proof.
  destruct live_drains as (st & l1 & Es & x' & m' & E).
  destruct (records_reach_collector (J := json) sample_http (fun _ _ => None) (fun _ => None) (fun _ => None) 0 live_main false 7 0 0 $"otel.example" (live_moment 1)
    5 1 0 (live_machine st l1) Drained x' m' E) as (evs & Er & _ & _ & _ & _ & _ & _ & Hd).
  pose proof (live_history st l1 Drained x' m' evs Es Er) as Hh. injection Hh as G1 G2 G3 G4 G5 G6.
  destruct (Hd eq_refl G1 G2 G3 ltac:(apply Z.ltb_lt; exact G4)) as [Hl _].
  destruct (log_batches (J := json) 0 live_main 7 evs) as [|b [|b' bs]] eqn:Eb; [discriminate| |discriminate].
  exists st, l1, evs, b. split; [exact Es|]. split; [exact Eb|]. injection G5 as Gb. split; [exact Gb|]. split; [|exact G6].
  cbn in Hl. apply Permutation_singleton_r in Hl. exact Hl.
Defined.
