(* ===== verification/Peer.v ===== *)
(** * Peer addresses (src/src/transport/hyper_http.rs)

    What a connect to an IP literal hands to [connect(2)]: the parser of [core::net] with its
    values (that of [Endpoint] only recognises), the two socket addresses as they lie in memory, and the name for nginx's debug log.
    The theorem follows an address from the text of the configuration to what the kernel reads. *)
From S2P Require Import Prelude DataModel StdText Endpoint Outcome.

(** ** [core::net]'s parser, with values *)

Inductive ip_addr := V4 (octets : list Z) | V6 (octets : list Z).

Definition octet_value (l : list Z) : option (Z * list Z) :=
  let '(n, v, r) := read_digits dec_digit 10 4 0 l in
  if (n =? 0)%nat || (3 <? n)%nat || (255 <? v) then None
  else if (1 <? n)%nat && (byte_at l 0 =? 48) then None
  else Some (v, r).

Definition ipv4_value (l : list Z) : option (list Z * list Z) :=
  '(a, l) ← octet_value l; l ← read_char 46 l; '(b, l) ← octet_value l; l ← read_char 46 l;
  '(c, l) ← octet_value l; l ← read_char 46 l; '(d, l) ← octet_value l; Some ([a; b; c; d], l).

Definition group_value (l : list Z) : option (Z * list Z) :=
  let '(n, v, r) := read_digits hex_digit 16 5 0 l in
  if (n =? 0)%nat || (4 <? n)%nat then None else Some (v, r).

Definition separated {A} (i : nat) (p : list Z -> option (A * list Z)) (l : list Z) : option (A * list Z) :=
  if (i =? 0)%nat then p l else l' ← read_char 58 l; p l'.

(** The groups read, whether the last two were an IPv4 address, the rest. *)
Fixpoint groups_value (fuel i limit : nat) (l : list Z) : list Z * bool * list Z :=
  match fuel with
  | O => ([], false, l)
  | S fuel' =>
      if (limit <=? i)%nat then ([], false, l) else
      match (if (i <? limit - 1)%nat then separated i ipv4_value l else None) with
      | Some (o, r) => ([be_val (take 2 o); be_val (drop 2 o)], true, r)
      | None =>
          match separated i group_value l with
          | Some (g, r) => let '(gs, v4, r) := groups_value fuel' (S i) limit r in (g :: gs, v4, r)
          | None => ([], false, l)
          end
      end
  end.

Definition ipv6_value (l : list Z) : option (list Z * list Z) :=
  let '(head, v4, r) := groups_value 8 0 8 l in
  if (length head =? 8)%nat then Some (head, r)
  else if v4 then None
  else r ← read_char 58 r; r ← read_char 58 r;
       let '(tail, _, r) := groups_value 8 0 (8 - (length head + 1)) r in
       Some (head ++ replicate (8 - length tail - length head) 0 ++ tail, r).

(** [host_str.parse::<std::net::IpAddr>()] *)
Definition parse_ip (l : list Z) : option ip_addr :=
  match ipv4_value l with
  | Some (o, r) => if blen r =? 0 then Some (V4 o) else None
  | None =>
      match ipv6_value l with
      | Some (gs, r) => if blen r =? 0 then Some (V6 (concat (map (be_bytes 2) gs))) else None
      | None => None
      end
  end.

Example parsed_ips :
  map parse_ip [$"127.0.0.1"; $"::1"; $"2001:DB8::ff00:10.0.0.1"; $"1.2.3.4.5"; $"1.2.3.4::"; $"localhost"]
  = [Some (V4 [127; 0; 0; 1]); Some (V6 [0; 0; 0; 0; 0; 0; 0; 0; 0; 0; 0; 0; 0; 0; 0; 1]);
     Some (V6 [32; 1; 13; 184; 0; 0; 0; 0; 0; 0; 255; 0; 10; 0; 0; 1]); None; None; None].
Proof. vm_compute. reflexivity. Qed.

(** It accepts what [Endpoint]'s recogniser accepts. *)
Lemma octet_reads l : read_octet l = snd <$> octet_value l.
Proof. unfold read_octet, octet_value. destruct (read_digits _ _ _ _ _) as [[n v] r]. repeat case_match; reflexivity. Qed.

Lemma group_reads l : read_group l = snd <$> group_value l.
Proof. unfold read_group, group_value. destruct (read_digits _ _ _ _ _) as [[n v] r]. case_match; reflexivity. Qed.

Lemma ipv4_reads l : read_ipv4 l = snd <$> ipv4_value l.
Proof.
  unfold read_ipv4, ipv4_value. rewrite octet_reads. destruct (octet_value l) as [[a r]|]; cbn; [|reflexivity].
  destruct (read_char 46 r) as [r1|]; cbn; [|reflexivity]. rewrite octet_reads. destruct (octet_value r1) as [[b r2]|]; cbn; [|reflexivity].
  destruct (read_char 46 r2) as [r3|]; cbn; [|reflexivity]. rewrite octet_reads. destruct (octet_value r3) as [[c r4]|]; cbn; [|reflexivity].
  destruct (read_char 46 r4) as [r5|]; cbn; [|reflexivity]. rewrite octet_reads. destruct (octet_value r5) as [[d r6]|]; reflexivity.
Qed.

Lemma separated_reads {A} i (q : list Z -> option (list Z)) (p : list Z -> option (A * list Z)) l :
  (forall l, q l = snd <$> p l) -> read_separated i q l = snd <$> separated i p l.
Proof. intros E. unfold read_separated, separated. case_match; [apply E|]. destruct (read_char 58 l); [apply E|reflexivity]. Qed.

Lemma groups_read fuel : forall i limit l,
  read_groups fuel i limit l = (let '(gs, v4, r) := groups_value fuel i limit l in ((i + length gs)%nat, v4, r)).
Proof.
  induction fuel as [|fuel IH]; intros i limit l; cbn [read_groups groups_value]; [rewrite Nat.add_0_r; reflexivity|].
  case_match; [rewrite Nat.add_0_r; reflexivity|]. rewrite (separated_reads i read_ipv4 ipv4_value) by apply ipv4_reads.
  rewrite (separated_reads i read_group group_value) by apply group_reads.
  set (v := if (i <? limit - 1)%nat then separated i ipv4_value l else None).
  replace (if (i <? limit - 1)%nat then snd <$> separated i ipv4_value l else None) with (snd <$> v) by (unfold v; case_match; reflexivity).
  destruct v as [[o r]|]; cbn; [reflexivity|].
  destruct (separated i group_value l) as [[g r]|]; cbn; [|rewrite Nat.add_0_r; reflexivity].
  rewrite IH. destruct (groups_value fuel (S i) limit r) as [[gs v4] r']. cbn [length]. f_equal. f_equal. lia.
Qed.

Lemma read_digits_spec digit radix : (forall b d, digit b = Some d -> 0 <= d < radix) -> forall fuel acc l n v r, 0 <= acc ->
  read_digits digit radix fuel acc l = (n, v, r) ->
  0 <= v < (acc + 1) * radix ^ Z.of_nat n /\ exists d, l = d ++ r /\ blen d = Z.of_nat n.
Proof.
  intros Hd. induction fuel as [|fuel IH]; intros acc [|b l] n v r Ha; cbn [read_digits]; try (intros [= <- <- <-]; split; [cbn; lia|exists []; auto]).
  destruct (digit b) as [d|] eqn:Ed; [|intros [= <- <- <-]; split; [cbn; lia|exists []; auto]]. apply Hd in Ed.
  destruct (read_digits digit radix fuel (acc * radix + d) l) as [[n1 v1] r1] eqn:E. intros [= <- <- <-].
  apply IH in E as (Hv & d' & -> & Hl); [|nia]. split; [|exists (b :: d'); rewrite blen_cons; split; [reflexivity|lia]].
  split; [lia|]. rewrite Nat2Z.inj_succ, Z.pow_succ_r by lia. assert (0 < radix ^ Z.of_nat n1) by (apply Z.pow_pos_nonneg; lia). nia.
Qed.

Lemma dec_digit_range b d : dec_digit b = Some d -> 0 <= d < 10.
Proof. unfold dec_digit, is_digit. case_if; [intros [= <-]; lia|discriminate]. Qed.
Lemma hex_digit_range b d : hex_digit b = Some d -> 0 <= d < 16.
Proof. unfold hex_digit, is_digit. repeat case_if; try discriminate; intros [= <-]; lia. Qed.

Lemma octet_consumes l v r : octet_value l = Some (v, r) -> 0 <= v < 256 /\ exists d, l = d ++ r /\ 1 <= blen d <= 3.
Proof.
  unfold octet_value. destruct (read_digits _ _ _ _ _) as [[n v1] r1] eqn:E.
  apply (read_digits_spec _ _ dec_digit_range) in E as (Hv & d & -> & Hd); [|lia].
  destruct (_ || (255 <? v1)) eqn:E1; [discriminate|]. apply orb_false_iff in E1 as [[E2 E3]%orb_false_iff E4].
  apply Nat.eqb_neq in E2. apply Nat.ltb_ge in E3. apply Z.ltb_ge in E4. case_match; [discriminate|].
  intros [= <- <-]. split; [lia|]. exists d. split; [reflexivity|lia].
Qed.

Lemma group_range l v r : group_value l = Some (v, r) -> 0 <= v < 65536.
Proof.
  unfold group_value. destruct (read_digits _ _ _ _ _) as [[n v1] r1] eqn:E.
  apply (read_digits_spec _ _ hex_digit_range) in E as (Hv & _); [|lia].
  destruct (_ || (4 <? n)%nat) eqn:E1; [discriminate|]. apply orb_false_iff in E1 as [_ E3]. apply Nat.ltb_ge in E3.
  intros [= <- <-]. split; [lia|]. eapply Z.lt_le_trans; [apply Hv|]. change 65536 with (16 ^ 4). rewrite Z.add_0_l, Z.mul_1_l.
  apply Z.pow_le_mono_r; lia.
Qed.

Lemma ipv4_consumes l o r : ipv4_value l = Some (o, r) -> bytes_ok o /\ length o = 4%nat /\ blen l <= blen r + 15.
Proof.
  assert (Hc : forall l r, read_char 46 l = Some r -> blen l = 1 + blen r).
  { intros [|b k] k'; [discriminate|]. cbn. case_if; [|discriminate]. intros [= <-]. apply blen_cons. }
  unfold ipv4_value. intros E. repeat (apply bind_Some in E as ([? ?] & ?E & E) || apply bind_Some in E as (? & ?E & E)).
  injection E as <- <-.
  repeat match goal with
  | H : octet_value _ = Some _ |- _ => apply octet_consumes in H as (? & ? & -> & ?)
  | H : read_char 46 _ = Some _ |- _ => apply Hc in H; rewrite ?blen_app in H
  end.
  rewrite ?blen_app in *. split; [repeat constructor; unfold is_byte; lia|]. split; [reflexivity|lia].
Qed.

Lemma separated_from {A} i (p : list Z -> option (A * list Z)) l a r : separated i p l = Some (a, r) -> exists l', p l' = Some (a, r).
Proof. unfold separated. case_match; [eauto|]. destruct (read_char 58 l); [eauto|discriminate]. Qed.

Lemma groups_bound fuel : forall i limit l gs v4 r, (i <= limit)%nat -> groups_value fuel i limit l = (gs, v4, r) ->
  (i + length gs <= limit)%nat /\ Forall (fun g => 0 <= g < 65536) gs.
Proof.
  induction fuel as [|fuel IH]; intros i limit l gs v4 r Hi; cbn [groups_value]; [intros [= <- <- <-]; cbn; split; [lia|constructor]|].
  destruct (limit <=? i)%nat eqn:El; [intros [= <- <- <-]; cbn; split; [lia|constructor]|]. apply Nat.leb_gt in El.
  destruct (if (i <? limit - 1)%nat then separated i ipv4_value l else None) as [[o r1]|] eqn:E4.
  - destruct (i <? limit - 1)%nat eqn:Ei; [|discriminate]. apply Nat.ltb_lt in Ei. apply separated_from in E4 as [l' E4].
    apply ipv4_consumes in E4 as (Ho & Hl & _). intros [= <- <- <-]. cbn [length]. split; [lia|].
    assert (R : forall k, bytes_ok k -> length k = 2%nat -> 0 <= be_val k < 65536).
    { intros k Hk Hk'. pose proof (be_val_range k Hk) as Hr. unfold blen in Hr. rewrite Hk' in Hr. exact Hr. }
    destruct (proj1 (Forall_app is_byte (take 2 o) (drop 2 o))) as [H1 H2]; [rewrite take_drop; exact Ho|].
    repeat constructor; apply R; auto; rewrite ?length_take, ?length_drop, Hl; reflexivity.
  - destruct (separated i group_value l) as [[g r1]|] eqn:Eg; [|intros [= <- <- <-]; cbn; split; [lia|constructor]].
    apply separated_from in Eg as [l' Eg]. apply group_range in Eg.
    destruct (groups_value fuel (S i) limit r1) as [[gs1 v1] r2] eqn:E. intros [= <- <- <-].
    apply IH in E as [H1 H2]; [|lia]. cbn [length]. split; [lia|]. constructor; assumption.
Qed.

Ltac both_or_neither := split; [discriminate || (intros _; eexists; reflexivity)|reflexivity || intros [? [=]]].

(** The parser accepts what the recogniser does, and the address has the size of its family. *)
Lemma parse_ip_literal l : is_ip_literal l = true <-> is_Some (parse_ip l).
Proof.
  unfold is_ip_literal, is_ipv4, parse_ip. rewrite ipv4_reads. destruct (ipv4_value l) as [[o r]|] eqn:E4; cbn [fmap option_fmap option_map snd].
  - assert (E6 : is_ipv6 l = false).
    { unfold is_ipv6. rewrite groups_read. cbn [groups_value]. change (8 <=? 0)%nat with false. change (0 <? 8 - 1)%nat with true. cbv iota.
      unfold separated at 1. change (0 =? 0)%nat with true. cbv iota. rewrite E4. reflexivity. }
    rewrite E6, orb_false_r. apply ipv4_consumes in E4 as (_ & _ & Hl). destruct (blen r =? 0) eqn:Er; [|destruct (15 <? blen l); both_or_neither].
    rewrite (proj2 (Z.ltb_ge _ _)) by (zify_bool; lia). both_or_neither.
  - replace (if 15 <? blen l then false else false) with false by (case_match; reflexivity). cbn [orb].
    unfold is_ipv6, ipv6_value. rewrite groups_read. destruct (groups_value 8 0 8 l) as [[head v4] r]. cbn [Nat.add].
    destruct (length head =? 8)%nat; [destruct (blen r =? 0); both_or_neither|].
    destruct v4; [both_or_neither|]. destruct (read_char 58 r) as [r1|]; cbn [mbind option_bind]; [|both_or_neither].
    destruct (read_char 58 r1) as [r2|]; cbn [mbind option_bind]; [|both_or_neither].
    rewrite groups_read. destruct (groups_value 8 0 _ r2) as [[tail v] r3]. cbn.
    destruct (blen r3 =? 0); both_or_neither.
Qed.

(** ** Socket addresses *)

(** What [ngx_event_connect_peer] gets. *)
Record peer := mk_peer { pc_sockaddr : list Z; pc_socklen : Z; pc_name : list Z }.

Section sockaddr.
(** The byte order of the machine and the values of [AF_INET] and [AF_INET6]. *)
Context (big_endian : bool) (AF_INET AF_INET6 : Z).

(** An integer of [n] bytes in memory. *)
Definition ne_bytes (n : nat) (v : Z) : list Z := if big_endian then be_bytes n v else le_bytes n v.
(** [from_ne_bytes] *)
Definition ne_val (l : list Z) : Z := if big_endian then be_val l else le_val l.
(** [u16::to_be] *)
Definition to_be16 (v : Z) : Z := ne_val (be_bytes 2 v).

Definition sizeof_sockaddr_in : Z := 16.
Definition sizeof_sockaddr_in6 : Z := 28.

(** The family, the port, the address and eight zeros.
    [src/src/transport/hyper_http.rs: build_ipv4_sockaddr] *)
Definition build_ipv4_sockaddr (alloc : bool) (v4 : list Z) (port : Z) : list Z + transport_error :=
  if negb alloc then inr Connection
  else inl (ne_bytes 2 AF_INET ++ ne_bytes 2 (to_be16 port) ++ ne_bytes 4 (ne_val v4) ++ replicate 8 0).

(** The family, the port, the flow information, the address and the scope.
    [src/src/transport/hyper_http.rs: build_ipv6_sockaddr] *)
Definition build_ipv6_sockaddr (alloc : bool) (v6 : list Z) (port : Z) : list Z + transport_error :=
  if negb alloc then inr Connection
  else inl (ne_bytes 2 AF_INET6 ++ ne_bytes 2 (to_be16 port) ++ ne_bytes 4 0 ++ v6 ++ ne_bytes 4 0).

(** [src/src/transport/hyper_http.rs: build_pc_name] *)
Definition build_pc_name (alloc_data alloc_name : bool) (host : list Z) (port : Z) : list Z + transport_error :=
  let s := host ++ $":" ++ fmt_dec port in
  if negb alloc_data then inr Connection else if negb alloc_name then inr Connection else inl s.

(** What the allocations for a connect give. *)
Record allocs := mk_allocs { al_sockaddr : bool; al_data : bool; al_name : bool }.

(** The peer of an IP literal; [None]: the name is resolved.
    [src/src/transport/hyper_http.rs: 1415-1458 NgxConnector::connect] *)
Definition literal_peer (alloc : allocs) (host : list Z) (port : Z) : option (peer + transport_error) :=
  match parse_ip (strip_v6_brackets host) with
  | None => None
  | Some ip =>
      let '(sockaddr, socklen) := match ip with
        | V4 v4 => (build_ipv4_sockaddr (al_sockaddr alloc) v4 port, sizeof_sockaddr_in)
        | V6 v6 => (build_ipv6_sockaddr (al_sockaddr alloc) v6 port, sizeof_sockaddr_in6)
        end in
      Some (match sockaddr with
        | inr e => inr e
        | inl sockaddr =>
            match build_pc_name (al_data alloc) (al_name alloc) host port with
            | inr e => inr e
            | inl name => inl (mk_peer sockaddr socklen name)
            end
        end)
  end.

(** What the kernel reads of [len] bytes: the length must be the family's; ports and addresses are in network order. *)
Definition kernel_reads (sa : list Z) (len : Z) : option (ip_addr * Z) :=
  let port := be_val (take 2 (drop 2 sa)) in
  if (ne_val (take 2 sa) =? AF_INET) && (len =? 16) && (blen sa =? 16) then Some (V4 (take 4 (drop 4 sa)), port)
  else if (ne_val (take 2 sa) =? AF_INET6) && (len =? 28) && (blen sa =? 28) && (be_val (take 4 (drop 4 sa)) =? 0) && (be_val (drop 24 sa) =? 0)
  then Some (V6 (take 16 (drop 8 sa)), port)
  else None.

Lemma ne_val_bytes n v : 0 <= v < 256 ^ Z.of_nat n -> ne_val (ne_bytes n v) = v.
Proof. unfold ne_val, ne_bytes. destruct big_endian; [apply be_val_be_bytes_small|apply le_val_le_bytes_small]. Qed.

Lemma ne_bytes_val l : bytes_ok l -> ne_bytes (length l) (ne_val l) = l.
Proof.
  intros Hl. unfold ne_val, ne_bytes, le_val, le_bytes. destruct big_endian; [apply be_bytes_be_val, Hl|].
  rewrite <- (length_reverse l), be_bytes_be_val, reverse_involutive; [reflexivity|]. unfold bytes_ok in *. rewrite Forall_reverse. exact Hl.
Qed.

Lemma length_ne_bytes n v : length (ne_bytes n v) = n.
Proof. unfold ne_bytes. destruct big_endian; [apply length_be_bytes|apply length_le_bytes]. Qed.

(** The port is written in network order whatever the machine's. *)
Lemma port_bytes port : 0 <= port < 65536 -> ne_bytes 2 (to_be16 port) = be_bytes 2 port.
Proof.
  intros Hp. unfold to_be16. rewrite <- (length_be_bytes 2 port) at 1. apply ne_bytes_val, be_bytes_ok.
Qed.

Definition family_ok : Prop := 0 <= AF_INET < 65536 /\ 0 <= AF_INET6 < 65536 /\ AF_INET <> AF_INET6.

(** The size of an address is its family's. *)
Definition ip_ok (ip : ip_addr) : Prop :=
  match ip with V4 o => bytes_ok o /\ length o = 4%nat | V6 o => bytes_ok o /\ length o = 16%nat end.

Lemma ipv4_read v4 port : family_ok -> 0 <= port < 65536 -> ip_ok (V4 v4) ->
  exists sa, build_ipv4_sockaddr true v4 port = inl sa /\ kernel_reads sa sizeof_sockaddr_in = Some (V4 v4, port).
Proof.
  intros (H1 & H2 & H3) Hp (Ho & Hl). eexists. split; [reflexivity|]. rewrite port_bytes by exact Hp.
  rewrite <- Hl at 1. rewrite ne_bytes_val by exact Ho. unfold kernel_reads, sizeof_sockaddr_in.
  pose proof (ne_val_bytes 2 AF_INET H1) as Ef. pose proof (be_val_be_bytes_small 2 port Hp) as Ep.
  destruct v4 as [|a [|b [|c [|d []]]]]; try discriminate.
  destruct (ne_bytes 2 AF_INET) as [|f1 [|f2 []]] eqn:E; try (apply (f_equal length) in E; rewrite length_ne_bytes in E; discriminate).
  destruct (be_bytes 2 port) as [|p1 [|p2 []]] eqn:Eb; try (apply (f_equal length) in Eb; rewrite length_be_bytes in Eb; discriminate).
  cbn [app take drop]. rewrite Ef, Ep, Z.eqb_refl. reflexivity.
Qed.

Lemma ipv6_read v6 port : family_ok -> 0 <= port < 65536 -> ip_ok (V6 v6) ->
  exists sa, build_ipv6_sockaddr true v6 port = inl sa /\ kernel_reads sa sizeof_sockaddr_in6 = Some (V6 v6, port).
Proof.
  intros (H1 & H2 & H3) Hp (Ho & Hl). eexists. split; [reflexivity|]. rewrite port_bytes by exact Hp. unfold kernel_reads, sizeof_sockaddr_in6.
  pose proof (ne_val_bytes 2 AF_INET6 H2) as Ef. pose proof (be_val_be_bytes_small 2 port Hp) as Ep.
  assert (E0 : ne_bytes 4 0 = [0; 0; 0; 0]) by (unfold ne_bytes; destruct big_endian; reflexivity). rewrite E0.
  do 16 (destruct v6 as [|? v6]; [discriminate|]). destruct v6; [|discriminate].
  destruct (ne_bytes 2 AF_INET6) as [|f1 [|f2 []]] eqn:E; try (apply (f_equal length) in E; rewrite length_ne_bytes in E; discriminate).
  destruct (be_bytes 2 port) as [|p1 [|p2 []]] eqn:Eb; try (apply (f_equal length) in Eb; rewrite length_be_bytes in Eb; discriminate).
  cbn [app take drop]. rewrite Ef, Ep, Z.eqb_refl. rewrite (proj2 (Z.eqb_neq _ _)) by congruence. reflexivity.
Qed.

Lemma parse_ip_ok l ip : parse_ip l = Some ip -> ip_ok ip.
Proof.
  unfold parse_ip. destruct (ipv4_value l) as [[o r]|] eqn:E4.
  - apply ipv4_consumes in E4 as (Ho & Hl & _). case_match; [|discriminate]. intros [= <-]. split; assumption.
  - unfold ipv6_value. destruct (groups_value 8 0 8 l) as [[head v4] r] eqn:Eh. apply groups_bound in Eh as [B1 F1]; [|lia].
    assert (Hg : forall gs, length gs = 8%nat -> ip_ok (V6 (concat (map (be_bytes 2) gs)))).
    { intros gs Hl. split.
      - apply Forall_concat, Forall_forall. intros k (g & <- & _)%in_map_iff. apply be_bytes_ok.
      - clear - Hl. assert (length (concat (map (be_bytes 2) gs)) = (2 * length gs)%nat) as ->; [|lia].
        clear Hl. induction gs as [|g gs IH]; [reflexivity|]. cbn [map concat]. rewrite length_app, length_be_bytes, IH. cbn. lia. }
    destruct (length head =? 8)%nat eqn:El.
    { apply Nat.eqb_eq in El. case_match; [|discriminate]. intros [= <-]. apply Hg, El. }
    apply Nat.eqb_neq in El. destruct v4; [discriminate|]. destruct (read_char 58 r) as [r1|]; [|discriminate]. cbn [mbind option_bind].
    destruct (read_char 58 r1) as [r2|]; [|discriminate]. cbn [mbind option_bind].
    destruct (groups_value 8 0 _ r2) as [[tail v] r3] eqn:Et. apply groups_bound in Et as [B2 F2]; [|lia].
    case_match; [|discriminate]. intros [= <-]. apply Hg. rewrite !length_app, length_replicate. lia.
Qed.

(** An IP literal is dialled as parsed; a name is not dialled here. *)
Lemma literal_peer_spec alloc host port : family_ok -> 0 <= port < 65536 ->
  (literal_peer alloc host port = None <-> is_ip_literal (strip_v6_brackets host) = false) /\
  (forall ip, parse_ip (strip_v6_brackets host) = Some ip ->
     if al_sockaddr alloc && al_data alloc && al_name alloc then
       exists sa len, literal_peer alloc host port = Some (inl (mk_peer sa len (host ++ $":" ++ fmt_dec port))) /\
         kernel_reads sa len = Some (ip, port)
     else literal_peer alloc host port = Some (inr Connection)).
Proof.
  intros Hf Hp. unfold literal_peer. split.
  - pose proof (parse_ip_literal (strip_v6_brackets host)) as Hi. destruct (parse_ip _) as [ip|].
    + assert (Ht : is_ip_literal (strip_v6_brackets host) = true) by (apply Hi; eexists; reflexivity). rewrite Ht.
      destruct ip; cbn; split; discriminate.
    + split; [|reflexivity]. intros _. destruct (is_ip_literal _); [|reflexivity]. destruct (proj1 Hi eq_refl). discriminate.
  - intros ip Ei. rewrite Ei. pose proof (parse_ip_ok _ _ Ei) as Ho. destruct alloc as [[] b c]; cbn [al_sockaddr al_data al_name andb].
    2: { destruct ip; reflexivity. }
    destruct ip as [o|o]; [destruct (ipv4_read o port Hf Hp Ho) as (sa & -> & Hk)|destruct (ipv6_read o port Hf Hp Ho) as (sa & -> & Hk)];
      unfold build_pc_name; destruct b, c; cbn [negb andb]; try reflexivity; eexists _, _; (split; [reflexivity|exact Hk]).
Qed.
End sockaddr.

(** ** Addresses as they are written *)

(** [format!] of an [Ipv4Addr]. *)
Definition fmt_ipv4 (o : list Z) : list Z :=
  match o with a :: o => fmt_dec a ++ concat (map (fun b => 46 :: fmt_dec b) o) | [] => [] end.

(** Digits in a radix. *)
Fixpoint to_digits (radix : Z) (ch : Z -> Z) (fuel : nat) (n : Z) (acc : list Z) : list Z :=
  match fuel with
  | O => acc
  | S fuel' =>
      let acc := ch (n mod radix) :: acc in
      if n / radix =? 0 then acc else to_digits radix ch fuel' (n / radix) acc
  end.

(** The full form of an IPv6 address: its eight groups in hexadecimal. *)
Definition hex_char (d : Z) : Z := if d <? 10 then 48 + d else 87 + d.
Definition fmt_hex (n : Z) : list Z := to_digits 16 hex_char 4 n [].
Definition fmt_groups (gs : list Z) : list Z :=
  match gs with g :: gs => fmt_hex g ++ concat (map (fun g => 58 :: fmt_hex g) gs) | [] => [] end.

Definition stops (digit : Z -> option Z) (rest : list Z) : Prop := match rest with b :: _ => digit b = None | [] => True end.
Definition digits_value (digit : Z -> option Z) (radix : Z) (acc : Z) (ds : list Z) : Z :=
  foldl (fun acc b => acc * radix + default 0 (digit b)) acc ds.

Lemma read_digits_all digit radix ds rest : stops digit rest -> Forall (fun b => is_Some (digit b)) ds -> forall fuel acc,
  (length ds < fuel)%nat -> read_digits digit radix fuel acc (ds ++ rest) = (length ds, digits_value digit radix acc ds, rest).
Proof.
  intros Hs. induction 1 as [|b ds [d Hd] _ IH]; intros fuel acc Hf; cbn [length] in Hf; (destruct fuel as [|fuel]; [lia|]); cbn [app read_digits].
  - destruct rest as [|b rest]; [reflexivity|]. cbn in Hs. rewrite Hs. reflexivity.
  - rewrite Hd, (IH fuel (acc * radix + d)) by lia. unfold digits_value. cbn [foldl]. rewrite Hd. reflexivity.
Qed.

(** [ds] is [n] written without superfluous zeros. *)
Record writes (digit : Z -> option Z) (radix n : Z) (ds : list Z) : Prop := {
  wr_some : ds <> [];
  wr_digits : Forall (fun b => is_Some (digit b)) ds;
  wr_value acc : digits_value digit radix acc ds = acc * radix ^ blen ds + n;
  wr_short k : 0 < k -> n < radix ^ k -> blen ds <= k;
  wr_lead : 1 < blen ds -> digit (byte_at ds 0) <> Some 0
}.

Lemma to_digits_app radix ch fuel : forall n acc, to_digits radix ch fuel n acc = to_digits radix ch fuel n [] ++ acc.
Proof.
  induction fuel as [|fuel IH]; intros n acc; cbn [to_digits]; [reflexivity|]. case_match; [reflexivity|].
  rewrite IH, (IH _ [_]), <- app_assoc. reflexivity.
Qed.

Lemma to_digits_writes digit ch radix fuel : 2 <= radix -> (forall d, 0 <= d < radix -> digit (ch d) = Some d) ->
  forall n, 0 <= n < radix ^ Z.of_nat (S fuel) -> writes digit radix n (to_digits radix ch (S fuel) n []).
Proof.
  intros Hr Hc. induction fuel as [|fuel IH]; intros n Hn.
  - assert (Hs : n < radix) by (change (Z.of_nat 1) with 1 in Hn; rewrite Z.pow_1_r in Hn; lia). cbn [to_digits].
    rewrite Z.div_small, Z.mod_small by lia. change (0 =? 0) with true. cbv iota. pose proof (Hc n ltac:(lia)) as E.
    split; [discriminate|repeat constructor; eauto| |intros; unfold blen; cbn; lia|unfold blen; cbn; lia].
    intros acc. unfold digits_value. cbn [foldl]. rewrite E. unfold blen. cbn. lia.
  - pose proof (Z.mod_pos_bound n radix ltac:(lia)) as Hm. pose proof (Hc _ Hm) as E. pose proof (Z.div_mod n radix ltac:(lia)) as Ed.
    change (to_digits radix ch (S (S fuel)) n []) with
      (if n / radix =? 0 then [ch (n mod radix)] else to_digits radix ch (S fuel) (n / radix) [ch (n mod radix)]).
    destruct (n / radix =? 0) eqn:E0; zify_bool.
    + split; [discriminate|repeat constructor; eauto| |intros; unfold blen; cbn; lia|unfold blen; cbn; lia].
      intros acc. unfold digits_value. cbn [foldl]. rewrite E. unfold blen. cbn. lia.
    + assert (Hq : 0 <= n / radix < radix ^ Z.of_nat (S fuel)).
      { split; [apply Z.div_pos; lia|]. apply Z.div_lt_upper_bound; [lia|]. rewrite <- Z.pow_succ_r by lia. rewrite <- Nat2Z.inj_succ. lia. }
      destruct (IH _ Hq) as [W1 W2 W3 W4 W5]. rewrite to_digits_app. set (ds := to_digits radix ch (S fuel) (n / radix) []) in *.
      assert (Hl : blen (ds ++ [ch (n mod radix)]) = blen ds + 1) by (rewrite blen_app; reflexivity).
      split.
      * destruct ds; discriminate.
      * apply Forall_app. split; [exact W2|repeat constructor; eauto].
      * intros acc. unfold digits_value in *. rewrite foldl_app, W3. cbn [foldl]. rewrite E, Hl, Z.pow_add_r by (try apply blen_nonneg; lia). cbn [default]. unfold from_option, id. lia.
      * intros k Hk Hnk. rewrite Hl. destruct (Z.eq_dec k 1) as [->|Hk1].
        { rewrite Z.pow_1_r in Hnk. rewrite Z.div_small in E0 by lia. lia. }
        assert (blen ds <= k - 1); [|lia]. apply W4; [lia|]. apply Z.div_lt_upper_bound; [lia|]. rewrite <- Z.pow_succ_r by lia. replace (Z.succ (k - 1)) with k by lia. exact Hnk.
      * intros _. destruct ds as [|b ds'] eqn:Eds; [congruence|]. change (byte_at ((b :: ds') ++ [ch (n mod radix)]) 0) with b.
        destruct ds' as [|b' ds'']; [|apply W5; rewrite !blen_cons; pose proof (blen_nonneg ds''); lia].
        specialize (W3 0). unfold digits_value in W3. cbn in W3. intros Eb. rewrite Eb in W3. cbn in W3. lia.
Qed.

Lemma dec_digits_to fuel : forall n acc, dec_digits fuel n acc = to_digits 10 (fun d => 48 + d) fuel n acc.
Proof. induction fuel as [|fuel IH]; intros n acc; cbn [dec_digits to_digits]; [reflexivity|]. rewrite IH. reflexivity. Qed.

Lemma fmt_dec_writes n : 0 <= n < 10 ^ 20 -> writes dec_digit 10 n (fmt_dec n).
Proof.
  intros Hn. unfold fmt_dec. rewrite (proj2 (Z.ltb_ge n 0)) by lia. rewrite dec_digits_to. apply to_digits_writes; [lia| |exact Hn].
  intros d Hd. unfold dec_digit, is_digit. case_if; [f_equal; lia|lia].
Qed.

Lemma fmt_hex_writes n : 0 <= n < 65536 -> writes hex_digit 16 n (fmt_hex n).
Proof.
  intros Hn. apply to_digits_writes; [lia| |exact Hn]. intros d Hd. unfold hex_digit, hex_char, is_digit. repeat case_if; try lia; f_equal; lia.
Qed.

Lemma octet_text v rest : 0 <= v < 256 -> stops dec_digit rest -> octet_value (fmt_dec v ++ rest) = Some (v, rest).
Proof.
  intros Hv Hs. destruct (fmt_dec_writes v ltac:(lia)) as [W1 W2 W3 W4 W5]. set (ds := fmt_dec v) in *.
  pose proof (W4 3 ltac:(lia) ltac:(cbn; lia)) as Hl. unfold blen in *. assert (H0 : (0 < length ds)%nat) by (destruct ds; [congruence|cbn; lia]).
  unfold octet_value. rewrite (read_digits_all dec_digit 10 ds rest Hs W2) by lia. rewrite (W3 0).
  rewrite (proj2 (Nat.eqb_neq _ _)), (proj2 (Nat.ltb_ge 3 _)), (proj2 (Z.ltb_ge 255 _)) by lia. cbn [orb].
  destruct ((1 <? length ds)%nat && (byte_at (ds ++ rest) 0 =? 48)) eqn:E; [|reflexivity].
  apply andb_true_iff in E as [E1 E2]. apply Nat.ltb_lt in E1. apply Z.eqb_eq in E2. exfalso. apply W5; [lia|].
  destruct ds as [|b ds']; [congruence|]. change (b = 48) in E2. change (dec_digit b = Some 0). rewrite E2. reflexivity.
Qed.

Lemma group_text v rest : 0 <= v < 65536 -> stops hex_digit rest -> group_value (fmt_hex v ++ rest) = Some (v, rest).
Proof.
  intros Hv Hs. destruct (fmt_hex_writes v Hv) as [W1 W2 W3 W4 _]. set (ds := fmt_hex v) in *.
  pose proof (W4 4 ltac:(lia) ltac:(cbn; lia)) as Hl. unfold blen in *. assert (H0 : (0 < length ds)%nat) by (destruct ds; [congruence|cbn; lia]).
  unfold group_value. rewrite (read_digits_all hex_digit 16 ds rest Hs W2) by lia. rewrite (W3 0).
  rewrite (proj2 (Nat.eqb_neq _ _)), (proj2 (Nat.ltb_ge 4 _)) by lia. reflexivity.
Qed.

Lemma parse_fmt_ipv4 o : bytes_ok o -> length o = 4%nat -> parse_ip (fmt_ipv4 o) = Some (V4 o).
Proof.
  intros Ho Hl. destruct o as [|a [|b [|c [|d []]]]]; try discriminate. 
  inversion_clear Ho as [|? ? Ha Ho1]. inversion_clear Ho1 as [|? ? Hb Ho2]. inversion_clear Ho2 as [|? ? Hc Ho3]. inversion_clear Ho3 as [|? ? Hd _].
  unfold fmt_ipv4, parse_ip, ipv4_value. cbn [map concat]. rewrite app_nil_r.
  rewrite octet_text by (exact Ha || reflexivity). cbn [mbind option_bind app]. cbn [read_char]. change (46 =? 46) with true. cbv iota. cbn [mbind option_bind].
  rewrite octet_text by (exact Hb || reflexivity). cbn [mbind option_bind app]. cbn [read_char]. change (46 =? 46) with true. cbv iota. cbn [mbind option_bind].
  rewrite octet_text by (exact Hc || reflexivity). cbn [mbind option_bind app]. cbn [read_char]. change (46 =? 46) with true. cbv iota. cbn [mbind option_bind].
  rewrite <- (app_nil_r (fmt_dec d)), octet_text by (exact Hd || exact I). reflexivity.
Qed.

(** No dot, no IPv4 address. *)
Lemma ipv4_dot l x : ipv4_value l = Some x -> In 46 l.
Proof.
  unfold ipv4_value. intros E. apply bind_Some in E as ([a r] & Eo & E). apply bind_Some in E as (r1 & Ec & _).
  apply octet_consumes in Eo as (_ & d & -> & _). destruct r as [|b r]; [discriminate|]. cbn in Ec.
  destruct (Z.eqb_spec b 46) as [->|]; [|discriminate]. apply in_or_app. right. left. reflexivity.
Qed.

Lemma writes_no digit radix n ds c : digit c = None -> writes digit radix n ds -> ~ In c ds.
Proof. intros Hc [_ W _ _ _] Hin. rewrite List.Forall_forall in W. destruct (W c Hin). congruence. Qed.

Lemma groups_no_dot gs : Forall (fun g => 0 <= g < 65536) gs -> ~ In 46 (concat (map (fun g => 58 :: fmt_hex g) gs)).
Proof.
  induction 1 as [|g gs Hg _ IH]; [auto|]. cbn [map concat]. rewrite in_app_iff. intros [[E|Hin]|Hin]; [discriminate| |tauto].
  exact (writes_no hex_digit 16 g _ 46 eq_refl (fmt_hex_writes g Hg) Hin).
Qed.

Lemma separated_dotless i l : (i <> 0)%nat -> ~ In 46 l -> separated i ipv4_value l = None.
Proof.
  intros Hi Hn. unfold separated. rewrite (proj2 (Nat.eqb_neq i 0)) by exact Hi. destruct l as [|b l]; [reflexivity|]. cbn [read_char].
  case_match; [|reflexivity]. cbn. destruct (ipv4_value l) eqn:E; [|reflexivity]. apply ipv4_dot in E. exfalso. apply Hn. right. exact E.
Qed.

Lemma stops_groups gs : stops hex_digit (concat (map (fun g => 58 :: fmt_hex g) gs)).
Proof. destruct gs; [exact I|reflexivity]. Qed.

(** Reading the groups after the first. *)
Lemma groups_text fuel : forall i gs, (i <> 0)%nat -> (i + length gs = 8)%nat -> (length gs <= fuel)%nat -> Forall (fun g => 0 <= g < 65536) gs ->
  groups_value fuel i 8 (concat (map (fun g => 58 :: fmt_hex g) gs)) = (gs, false, []).
Proof.
  induction fuel as [|fuel IH]; intros i gs Hi Hl Hf Hg; [destruct gs; [reflexivity|cbn in Hf; lia]|].
  destruct gs as [|g gs]; cbn [length] in *.
  { cbn [groups_value]. rewrite (proj2 (Nat.leb_le 8 i)) by lia. reflexivity. }
  cbn [groups_value]. rewrite (proj2 (Nat.leb_gt 8 i)) by lia. rewrite separated_dotless by (exact Hi || apply groups_no_dot, Hg).
  replace (if (i <? 8 - 1)%nat then None else None) with (@None (list Z * list Z)) by (case_match; reflexivity).
  unfold separated. rewrite (proj2 (Nat.eqb_neq i 0)) by exact Hi. cbn [map concat app read_char]. change (58 =? 58) with true. cbn [mbind option_bind].
  inversion_clear Hg as [|? ? Hg1 Hg2]. rewrite group_text by (exact Hg1 || apply stops_groups). rewrite IH by (lia || exact Hg2). reflexivity.
Qed.

Lemma parse_fmt_groups gs : length gs = 8%nat -> Forall (fun g => 0 <= g < 65536) gs ->
  parse_ip (fmt_groups gs) = Some (V6 (concat (map (be_bytes 2) gs))).
Proof.
  intros Hl Hg. destruct gs as [|g gs]; [discriminate|]. cbn [fmt_groups]. inversion_clear Hg as [|? ? Hg1 Hg2].
  set (rest := concat (map (fun g => 58 :: fmt_hex g) gs)).
  assert (E4 : ipv4_value (fmt_hex g ++ rest) = None).
  { destruct (ipv4_value (fmt_hex g ++ rest)) eqn:E; [|reflexivity]. apply ipv4_dot, in_app_iff in E as [E|E]; exfalso.
    - exact (writes_no hex_digit 16 g _ 46 eq_refl (fmt_hex_writes g Hg1) E).
    - exact (groups_no_dot gs Hg2 E). }
  unfold parse_ip. rewrite E4. unfold ipv6_value.
  assert (Eg : groups_value 8 0 8 (fmt_hex g ++ rest) = (g :: gs, false, [])).
  { change (groups_value 8 0 8 (fmt_hex g ++ rest)) with (match ipv4_value (fmt_hex g ++ rest) with
      | Some (o, r) => ([be_val (take 2 o); be_val (drop 2 o)], true, r)
      | None => match group_value (fmt_hex g ++ rest) with
                | Some (g, r) => let '(gs, v4, r) := groups_value 7 1 8 r in (g :: gs, v4, r)
                | None => ([], false, fmt_hex g ++ rest) end end).
    rewrite E4, group_text by (exact Hg1 || apply stops_groups). unfold rest. rewrite groups_text; [reflexivity|lia|cbn in Hl; lia|cbn in Hl; lia|exact Hg2]. }
  rewrite Eg. rewrite Hl. reflexivity.
Qed.

(** ** Endpoints with an address and a port *)

Lemma find_byte_absent c l : ~ In c l -> find_byte c l = None.
Proof.
  induction l as [|b l IH]; [reflexivity|]. cbn. intros Hn. destruct (Z.eqb_spec b c); [tauto|]. rewrite IH by tauto. reflexivity.
Qed.
Lemma find_byte_first c l k : ~ In c l -> find_byte c (l ++ c :: k) = Some (blen l).
Proof.
  induction l as [|b l IH]; cbn [app find_byte]; [rewrite Z.eqb_refl; reflexivity|]. cbn [In]. intros Hn.
  destruct (Z.eqb_spec b c); [tauto|]. rewrite IH by tauto. cbn. rewrite blen_cons. f_equal. lia.
Qed.
Lemma rfind_byte_last c l k : ~ In c k -> rfind_byte c (l ++ c :: k) = Some (blen l).
Proof.
  intros Hn. unfold rfind_byte. rewrite reverse_app, reverse_cons, <- app_assoc. cbn [app].
  rewrite find_byte_first by (rewrite <- list_elem_of_In, elem_of_reverse, list_elem_of_In; exact Hn). cbn. f_equal.
  rewrite blen_app, blen_cons. unfold blen. rewrite length_reverse. lia.
Qed.

(** What [format!] writes, [parse] reads. *)
Lemma parse_fmt_dec max port : 0 <= port <= max -> max < 10 ^ 20 -> parse_unsigned max (fmt_dec port) = Some port.
Proof.
  intros Hp Hmax. pose proof (fmt_dec_writes port ltac:(lia)) as W.
  assert (Hx : ~ In 43 (fmt_dec port)) by exact (writes_no _ _ _ _ 43 eq_refl W). destruct W as [W1 W2 W3 _ _]. specialize (W3 0).
  set (ds := fmt_dec port) in *. unfold parse_unsigned.
  assert (Ed : digits_val max 0 ds = Some port).
  { apply digits_val_spec; [lia|]. assert (Hdig : forall b, is_Some (dec_digit b) -> is_digit b = true) by (intros b [d Hd]; unfold dec_digit in Hd; destruct (is_digit b); [reflexivity|discriminate]).
    split; [apply forallb_forall; intros b Hb; apply Hdig; rewrite List.Forall_forall in W2; exact (W2 b Hb)|]. split; [|lia].
    rewrite Z.mul_0_l, Z.add_0_l in W3. rewrite <- W3. unfold digits_value.
    assert (Hf : forall acc, foldl (fun acc b => acc * 10 + default 0 (dec_digit b)) acc ds = foldl (fun a b => a * 10 + (b - 48)) acc ds); [|apply Hf].
    clear - W2 Hdig. induction W2 as [|b ds Hb _ IH]; intros acc; cbn [foldl]; [reflexivity|]. rewrite IH. unfold dec_digit at 1. rewrite (Hdig b Hb). reflexivity. }
  destruct ds as [|b ds]; [congruence|]. inversion_clear W2 as [|? ? [d Hb] _].
  assert (Hr : 48 <= b <= 57) by (revert Hb; unfold dec_digit, is_digit; case_if; [lia|discriminate]).
  assert (Hc : b = 48 \/ b = 49 \/ b = 50 \/ b = 51 \/ b = 52 \/ b = 53 \/ b = 54 \/ b = 55 \/ b = 56 \/ b = 57) by lia.
  destruct Hc as [->|[->|[->|[->|[->|[->|[->|[->|[->| ->]]]]]]]]]; exact Ed.
Qed.

Lemma port_text port : 0 <= port < 65536 -> parse_u16 (fmt_dec port) = Some port /\ ~ In 58 (fmt_dec port) /\ ~ In 47 (fmt_dec port).
Proof.
  intros Hp. pose proof (fmt_dec_writes port ltac:(lia)) as W. split; [apply parse_fmt_dec; lia|].
  split; [exact (writes_no _ _ _ _ 58 eq_refl W)|exact (writes_no _ _ _ _ 47 eq_refl W)].
Qed.

(** A host without a colon, or in brackets, followed by its port. *)
Definition plain_host (host : list Z) : Prop := ~ In 58 host /\ ~ In 47 host /\ byte_at host 0 <> 91.

Lemma authority_plain host port d : host <> [] -> plain_host host -> 0 <= port < 65536 ->
  parse_authority (host ++ 58 :: fmt_dec port) d = (host, port).
Proof.
  intros Hne (_ & _ & H91) Hp. destruct (port_text port Hp) as (Ep & H58 & _). unfold parse_authority, search_start.
  assert (Es : starts_with $"[" (host ++ 58 :: fmt_dec port) = false).
  { destruct host as [|b host]; [congruence|]. unfold starts_with. change (length $"[") with 1%nat. cbn [app take].
    apply bool_decide_eq_false. intros [= Eb]. exact (H91 Eb). }
  rewrite Es. change (drop (Z.to_nat 0) (host ++ 58 :: fmt_dec port)) with (host ++ 58 :: fmt_dec port).
  rewrite rfind_byte_last by exact H58. cbv zeta. rewrite Z.add_0_l. unfold blen.
  rewrite Nat2Z.id, take_app_length. replace (Z.to_nat (Z.of_nat (length host) + 1)) with (length (host ++ [58])) by (rewrite length_app; cbn; lia).
  replace (host ++ 58 :: fmt_dec port) with ((host ++ [58]) ++ fmt_dec port) by (rewrite <- app_assoc; reflexivity).
  rewrite drop_app_length, Ep. reflexivity.
Qed.

Lemma authority_brackets inner port d : ~ In 93 inner -> 0 <= port < 65536 ->
  parse_authority (91 :: inner ++ 93 :: 58 :: fmt_dec port) d = (91 :: inner ++ [93], port).
Proof.
  intros H93 Hp. destruct (port_text port Hp) as (Ep & H58 & _). unfold parse_authority, search_start.
  set (a := 91 :: inner ++ 93 :: 58 :: fmt_dec port).
  assert (Es : starts_with $"[" a = true) by reflexivity. rewrite Es.
  assert (Ef : find_byte 93 a = Some (1 + blen inner)).
  { change a with ((91 :: inner) ++ 93 :: 58 :: fmt_dec port). rewrite find_byte_first, blen_cons by (cbn [In]; intros [E|E]; [discriminate|tauto]). reflexivity. }
  rewrite Ef. assert (Ea : a = (91 :: inner ++ [93]) ++ 58 :: fmt_dec port) by (unfold a; rewrite <- app_comm_cons, <- app_assoc; reflexivity).
  assert (El : Z.to_nat (1 + blen inner + 1) = length (91 :: inner ++ [93])) by (unfold blen; cbn [length]; rewrite length_app; cbn [length]; lia).
  rewrite El, Ea, drop_app_length. pose proof (rfind_byte_last 58 [] (fmt_dec port) H58) as Er. cbn [app] in Er. rewrite Er. cbv zeta.
  replace (1 + blen inner + 1 + blen []) with (blen (91 :: inner ++ [93])) by (unfold blen; cbn [length]; rewrite length_app; cbn [length]; lia).
  unfold blen at 1 2. rewrite Nat2Z.id, take_app_length.
  replace (Z.to_nat (Z.of_nat (length (91 :: inner ++ [93])) + 1)) with (length ((91 :: inner ++ [93]) ++ [58])) by (rewrite length_app; cbn [length]; lia).
  replace ((91 :: inner ++ [93]) ++ 58 :: fmt_dec port) with (((91 :: inner ++ [93]) ++ [58]) ++ fmt_dec port) by (rewrite <- app_assoc; reflexivity).
  rewrite drop_app_length, Ep. reflexivity.
Qed.

Lemma split_path_none a : ~ In 47 a -> split_path a = (a, $"/").
Proof. intros H. unfold split_path. rewrite find_byte_absent by exact H. reflexivity. Qed.

Lemma http_parses rest authority path host port : split_path rest = (authority, path) -> parse_authority authority 80 = (host, port) ->
  parse_endpoint ($"http://" ++ rest) = Some (EHttp host port path).
Proof.
  intros Es Ea. unfold parse_endpoint. assert (E : strip_prefix HTTP_SCHEME ($"http://" ++ rest) = Some rest) by reflexivity.
  rewrite E, Es, Ea. reflexivity.
Qed.

(** [dials text alloc ip port]: the exporter configured with [text] connects to [ip] and [port]. *)
Definition dials (big_endian : bool) (AF_INET AF_INET6 : Z) (text : list Z) (ip : ip_addr) (port : Z) : Prop :=
  exists host path sa len name, parse_endpoint text = Some (EHttp host port path) /\
    literal_peer big_endian AF_INET AF_INET6 (mk_allocs true true true) host port = Some (inl (mk_peer sa len name)) /\
    kernel_reads big_endian AF_INET AF_INET6 sa len = Some (ip, port) /\ name = host ++ $":" ++ fmt_dec port.

Lemma dials_literal big_endian AF_INET AF_INET6 text host path ip port :
  family_ok AF_INET AF_INET6 -> 0 <= port < 65536 -> parse_endpoint text = Some (EHttp host port path) -> parse_ip (strip_v6_brackets host) = Some ip ->
  dials big_endian AF_INET AF_INET6 text ip port.
Proof.
  intros Hf Hp Et Ei. destruct (literal_peer_spec big_endian _ _ (mk_allocs true true true) host port Hf Hp) as [_ Hs].
  destruct (Hs ip Ei) as (sa & len & El & Ek). exists host, path, sa, len. eexists. split_and!; [exact Et|exact El|exact Ek|reflexivity].
Qed.

Lemma strip_plain host : byte_at host 0 <> 91 -> strip_v6_brackets host = host.
Proof.
  intros H. unfold strip_v6_brackets. replace (starts_with $"[" host) with false; [reflexivity|]. symmetry.
  destruct host as [|b host]; [reflexivity|]. apply bool_decide_eq_false. intros [= E]. exact (H E).
Qed.
Lemma strip_brackets inner : strip_v6_brackets (91 :: inner ++ [93]) = inner.
Proof.
  unfold strip_v6_brackets. change (starts_with $"[" (91 :: inner ++ [93])) with true. rewrite bool_decide_true by (rewrite app_comm_cons, last_snoc; reflexivity).
  cbn [andb]. unfold slice, sub. rewrite blen_cons, blen_app. change (blen [93]) with 1. change (Z.to_nat 1) with 1%nat. cbn [drop].
  replace (Z.to_nat (1 + (blen inner + 1) - 1 - 1)) with (length inner) by (unfold blen; lia). apply take_app_length.
Qed.

Lemma ipv4_host o : bytes_ok o -> length o = 4%nat -> fmt_ipv4 o <> [] /\ plain_host (fmt_ipv4 o).
Proof.
  intros Ho Hl. destruct o as [|a o]; [discriminate|]. inversion_clear Ho as [|? ? Ha Ho'].
  assert (Hr : forall v, is_byte v -> 0 <= v < 10 ^ 20) by (intros v Hv; unfold is_byte in Hv; lia).
  assert (Hno : forall c, dec_digit c = None -> c <> 46 -> ~ In c (fmt_ipv4 (a :: o))).
  { intros c Hc Hc'. cbn [fmt_ipv4]. rewrite in_app_iff. intros [Hin|Hin]; [exact (writes_no _ _ _ _ c Hc (fmt_dec_writes a (Hr a Ha)) Hin)|].
    clear - Ho' Hin Hc Hc' Hr. induction Ho' as [|b o Hb _ IH]; [exact Hin|]. cbn [map concat] in Hin. rewrite in_app_iff in Hin.
    destruct Hin as [[E|Hin]|Hin]; [congruence| |tauto]. exact (writes_no _ _ _ _ c Hc (fmt_dec_writes b (Hr b Hb)) Hin). }
  pose proof (wr_some _ _ _ _ (fmt_dec_writes a (Hr a Ha))) as Hne.
  split; [cbn [fmt_ipv4]; destruct (fmt_dec a); [congruence|discriminate]|]. split; [apply Hno; [reflexivity|lia]|]. split; [apply Hno; [reflexivity|lia]|].
  intros E. apply (Hno 91); [reflexivity|lia|]. cbn [fmt_ipv4] in *. destruct (fmt_dec a) as [|b ds]; [congruence|]. left. exact E.
Qed.

Lemma groups_host gs c : Forall (fun g => 0 <= g < 65536) gs -> hex_digit c = None -> c <> 58 -> ~ In c (fmt_groups gs).
Proof.
  intros Hg Hc Hn. destruct gs as [|g gs]; [auto|]. cbn [fmt_groups]. inversion_clear Hg as [|? ? H1 H2]. rewrite in_app_iff.
  intros [Hin|Hin]; [exact (writes_no _ _ _ _ c Hc (fmt_hex_writes g H1) Hin)|].
  induction H2 as [|b gs Hb _ IH]; [exact Hin|]. cbn [map concat] in Hin. rewrite in_app_iff in Hin.
  destruct Hin as [[E|Hin]|Hin]; [congruence| |tauto]. exact (writes_no _ _ _ _ c Hc (fmt_hex_writes b Hb) Hin).
Qed.

(** C32 (roundtrip). The exporter connects to the address that is written in its configuration.  For every
    IPv4 address in dotted decimal, and every IPv6 address as eight groups in brackets, with every port, the endpoint [http://address:port]
    is taken as an address (never given to the resolver), and the bytes and the length handed to [connect(2)] are read
    by the kernel as exactly that address and that port, whatever the byte order of the machine; the name for
    the debug log is the address and port as written.  In general, a host is resolved if and only if it is
    no IP literal, and a failed allocation is a connection error.
    About: literal_peer, build_ipv4_sockaddr, build_ipv6_sockaddr, build_pc_name, parse_endpoint, parse_authority, strip_v6_brackets, is_ip_literal. *)
Theorem address_reaches_kernel big_endian AF_INET AF_INET6 o gs port :
  family_ok AF_INET AF_INET6 -> bytes_ok o -> length o = 4%nat -> Forall (fun g => 0 <= g < 65536) gs -> length gs = 8%nat -> 0 <= port < 65536 ->
  dials big_endian AF_INET AF_INET6 ($"http://" ++ fmt_ipv4 o ++ $":" ++ fmt_dec port) (V4 o) port /\
  dials big_endian AF_INET AF_INET6 ($"http://[" ++ fmt_groups gs ++ $"]:" ++ fmt_dec port) (V6 (concat (map (be_bytes 2) gs))) port /\
  (forall host alloc, (literal_peer big_endian AF_INET AF_INET6 alloc host port = None <-> is_ip_literal (strip_v6_brackets host) = false) /\
     (is_ip_literal (strip_v6_brackets host) = true -> al_sockaddr alloc && al_data alloc && al_name alloc = false ->
        literal_peer big_endian AF_INET AF_INET6 alloc host port = Some (inr Connection))).
Proof.
  intros Hf Ho Hl Hg Hgl Hp. destruct (port_text port Hp) as (_ & _ & H47). split_and!.
  - destruct (ipv4_host o Ho Hl) as (Hne & Hplain). pose proof Hplain as (_ & Hs & H91).
    assert (E : parse_endpoint ($"http://" ++ fmt_ipv4 o ++ $":" ++ fmt_dec port) = Some (EHttp (fmt_ipv4 o) port $"/")).
    { eapply http_parses; [apply split_path_none; rewrite !in_app_iff; intros [E|[[E|[]]|E]]; [tauto|discriminate|tauto]|apply authority_plain; assumption]. }
    eapply dials_literal; [exact Hf|exact Hp|exact E|]. rewrite strip_plain by exact H91. apply parse_fmt_ipv4; assumption.
  - pose proof (groups_host gs 93 Hg eq_refl ltac:(lia)) as H93. pose proof (groups_host gs 47 Hg eq_refl ltac:(lia)) as Hs.
    assert (E : parse_endpoint ($"http://[" ++ fmt_groups gs ++ $"]:" ++ fmt_dec port) = Some (EHttp (91 :: fmt_groups gs ++ [93]) port $"/")).
    { change ($"http://[" ++ fmt_groups gs ++ $"]:" ++ fmt_dec port) with ($"http://" ++ (91 :: fmt_groups gs ++ 93 :: 58 :: fmt_dec port)).
      eapply http_parses; [apply split_path_none; cbn [In]; rewrite in_app_iff; cbn [In]; intros [E|[E|[E|[E|E]]]]; tauto || discriminate|apply authority_brackets; assumption]. }
    eapply dials_literal; [exact Hf|exact Hp|exact E|]. rewrite strip_brackets. apply parse_fmt_groups; assumption.
  - intros host alloc. destruct (literal_peer_spec big_endian _ _ alloc host port Hf Hp) as [H1 H2]. split; [exact H1|].
    intros Hi Ha. destruct (proj1 (parse_ip_literal _) Hi) as [ip Ei]. specialize (H2 ip Ei). rewrite Ha in H2. exact H2.
Qed.

Lemma address_reaches_kernel_witness :
  dials false 2 10 $"http://10.0.7.255:4318" (V4 [10; 0; 7; 255]) 4318 /\
  dials false 2 10 $"http://[2001:db8:0:0:0:0:0:1]:4317" (V6 [32; 1; 13; 184; 0; 0; 0; 0; 0; 0; 0; 0; 0; 0; 0; 1]) 4317.
Proof.
  assert (Hf : family_ok 2 10) by (unfold family_ok; lia).
  assert (Ho : bytes_ok [10; 0; 7; 255]) by (repeat constructor; unfold is_byte; lia).
  assert (Hg : Forall (fun g => 0 <= g < 65536) [8193; 3512; 0; 0; 0; 0; 0; 1]) by (repeat constructor; lia).
  split.
  - exact (proj1 (address_reaches_kernel false 2 10 [10; 0; 7; 255] [8193; 3512; 0; 0; 0; 0; 0; 1] 4318 Hf Ho eq_refl Hg eq_refl ltac:(lia))).
  - exact (proj1 (proj2 (address_reaches_kernel false 2 10 [10; 0; 7; 255] [8193; 3512; 0; 0; 0; 0; 0; 1] 4317 Hf Ho eq_refl Hg eq_refl ltac:(lia)))).
Defined.
