(* ===== verification/Registration.v ===== *)
(** * The module in nginx (src/src/lib.rs, src/src/config/mod.rs, src/src/cert_table.rs)

    How nginx loads the module: the variables added before the configuration is read, the phase
    handlers added after it, the search for the ssl module, and [boot], the whole load from [preconfiguration] to
    [init_module] as nginx drives it.  Also the two directives and the status page of builds with [test-support]. *)
From S2P Require Import Prelude DataModel StdText ConfigParse Ring ShmLayout Config Control Finalize Directives SpanStart Endpoint Peer.

(** ** Variables *)

Inductive getter := GetTraceId | GetSpanId | GetParentId | GetParentSampled.

(** What a variable's handler computes. *)
Definition get_variable (g : getter) (buf : bool) (r : request) : option (list Z) * request :=
  match g with
  | GetTraceId => otel_var_get_trace_id buf r
  | GetSpanId => otel_var_get_span_id buf r
  | GetParentId => otel_var_get_parent_id buf r
  | GetParentSampled => otel_var_get_parent_sampled r
  end.

(** The calls of [ngx_http_add_variable], each followed by the assignment of its handler. *)
Definition module_variables : list (list Z * getter) :=
  [($"otel_trace_id", GetTraceId); ($"otel_span_id", GetSpanId); ($"otel_parent_id", GetParentId); ($"otel_parent_sampled", GetParentSampled)].

(** [add_variable] is [ngx_http_add_variable]: whether it returned a variable. *)
Fixpoint add_variables (add_variable : list Z -> bool) (todo : list (list Z * getter)) (done : list (list Z * getter))
    : bool * list (list Z * getter) :=
  match todo with
  | [] => (true, done)
  | (name, g) :: todo => if add_variable name then add_variables add_variable todo (done ++ [(name, g)]) else (false, done)
  end.

(** [true] is [NGX_OK].
    [src/src/lib.rs: HttpOtelModule::preconfiguration] *)
Definition preconfiguration (add_variable : list Z -> bool) : bool * list (list Z * getter) :=
  add_variables add_variable module_variables [].

(** ** Phase handlers *)

(** [SpanStartHandler] runs in the rewrite phase, [LogPhaseHandler] in the log phase. *)
Inductive http_phase := Rewrite | Log.

(** [add_phase] is [add_phase_handler]: whether the handler was added.
    [src/src/lib.rs: HttpOtelModule::postconfiguration] *)
Definition module_postconfiguration (data_offset : Z) (env : post_env) (add_phase : http_phase -> bool) (c : main_config)
    : bool * post_state * list http_phase :=
  match postconfiguration data_offset env c with
  | Err s => (false, s, [])
  | Ok s =>
      if is_configured (ps_conf s) && negb (add_phase Rewrite) then (false, s, [])
      else
        let phases := if is_configured (ps_conf s) then [Rewrite] else [] in
        if is_configured (ps_conf s) && negb (add_phase Log) then (false, s, phases)
        else (true, s, if is_configured (ps_conf s) then phases ++ [Log] else phases)
  end.

(** ** Lookups in nginx's structures *)

(** [worker_processes] of the core configuration; [None] if there is none yet.
    [src/src/shm/mod.rs: wp_from_cycle] *)
Definition wp_from_cycle (core_conf : option Z) : option Z :=
  match core_conf with Some wp => if 1 <=? wp then Some wp else None | None => None end.

(** An entry of [cycle->modules]; [None] is a null pointer. *)
Record ngx_module := mk_module { md_type : Z; md_name : option (list Z); md_ctx_index : Z }.
Definition NGX_HTTP_MODULE : Z := 1347703880.

(** [src/src/cert_table.rs: find_http_ssl_ctx_index] *)
Fixpoint find_http_ssl_ctx_index (modules : list (option ngx_module)) : option Z :=
  match modules with
  | [] => None
  | None :: modules => find_http_ssl_ctx_index modules
  | Some m :: modules =>
      match md_name m with
      | Some name =>
          if negb (md_type m =? NGX_HTTP_MODULE) then find_http_ssl_ctx_index modules
          else if bytes_eqb name $"ngx_http_ssl_module" then Some (md_ctx_index m)
          else find_http_ssl_ctx_index modules
      | None => find_http_ssl_ctx_index modules
      end
  end.

(** The address of a worker's block.
    [src/src/shm/mod.rs: worker_slots] *)
Definition worker_slots_addr (base_addr worker_id : Z) : Z := base_addr + worker_id * slots_size.

(** ** Loading *)

(** What nginx answers while it loads the module. *)
Record boot_env := mk_boot {
  bo_add_variable : list Z -> bool;
  bo_post : post_env;
  bo_add_phase : http_phase -> bool;
  bo_init : init_env;
  bo_control : option control_shm      (* the control page, once the zones are mapped *)
}.

(** The state after the load, successful or not. *)
Record booted := mk_booted {
  bt_ok : bool; bt_variables : list (list Z * getter); bt_zones : list registration; bt_phases : list http_phase;
  bt_conf : main_config; bt_forked : bool
}.

(** The hooks of the module in nginx's order; [c] is the configuration the directives left.
    [src/src/lib.rs: 67-102 NGX_HTTP_OTEL_MODULE_CTX] *)
Definition boot (data_offset : Z) (e : boot_env) (c : main_config) : booted :=
  match preconfiguration (bo_add_variable e) with
  | (false, vars) => mk_booted false vars [] [] c false
  | (true, vars) =>
      match module_postconfiguration data_offset (bo_post e) (bo_add_phase e) c with
      | (false, s, phases) => mk_booted false vars (ps_regs s) phases (ps_conf s) false
      | (true, s, phases) =>
          let '(ok, conf, _, forked, _) := ngx_otel_init_module data_offset (bo_init e) (Some (ps_conf s)) (bo_control e) in
          mk_booted ok vars (ps_regs s) phases (default (ps_conf s) conf) forked
      end
  end.

(** ** What a load leaves *)

Lemma add_variables_spec add_variable todo : forall done,
  if forallb (fun v => add_variable (fst v)) todo then add_variables add_variable todo done = (true, done ++ todo)
  else exists pre, pre `prefix_of` todo /\ add_variables add_variable todo done = (false, done ++ pre).
Proof.
  induction todo as [|[name g] todo IH]; intros done; cbn [forallb add_variables fst]; [rewrite app_nil_r; reflexivity|].
  destruct (add_variable name); cbn [andb]; [|exists []; rewrite app_nil_r; split; [apply prefix_nil|reflexivity]].
  specialize (IH (done ++ [(name, g)])). destruct (forallb _ todo).
  - rewrite IH, <- app_assoc. reflexivity.
  - destruct IH as (pre & Hp & ->). exists ((name, g) :: pre). split; [apply prefix_cons, Hp|]. rewrite <- app_assoc. reflexivity.
Qed.

(** The finalisation keeps the exporter block. *)
Lemma post_exporter data_offset env c s : postconfiguration data_offset env c = Ok s -> mc_exporter (ps_conf s) = mc_exporter c.
Proof.
  intros Hok. destruct (is_configured c) eqn:Hc.
  - pose proof (post_spec data_offset env c Hc) as H. rewrite Hok in H. destruct H as (_ & _ & _ & ->).
    rewrite build_tables_frame by reflexivity.
    assert (Hw : mc_exporter (with_resolver env c) = mc_exporter c)
      by (unfold with_resolver; destruct (needs_dns c); [destruct (resolver_info env) as [[? ?]|]|]; reflexivity).
    rewrite <- Hw. generalize (with_resolver env c). intros c'. unfold needed_zones, stores.
    destruct (metrics_enabled c), (wants_logs c); reflexivity.
  - unfold postconfiguration in Hok. rewrite Hc in Hok. cbn [negb] in Hok. injection Hok as <-. destruct (pe_old env); reflexivity.
Qed.

(** Whether this process, with this configuration, has to start an exporter. *)
Definition starts_exporter (e : init_env) (c : main_config) : bool := is_configured c && ie_master e && negb (ie_test_config e).

Lemma init_module_spec data_offset e c ctrl :
  let '(ok, conf, _, forked, _) := ngx_otel_init_module data_offset e (Some c) ctrl in
  if starts_exporter e c then
    ok = forked /\ (forked = true <-> is_Some (check_zone_sizing data_offset (ie_worker_processes e) c) /\
      ie_spawn e (if ie_reload e then NGX_PROCESS_JUST_RESPAWN else NGX_PROCESS_RESPAWN) = true)
  else ok = true /\ forked = false.
Proof.
  unfold ngx_otel_init_module, starts_exporter. destruct (ie_master e); cbn [negb]; [|rewrite andb_false_r; split; reflexivity].
  destruct (ie_test_config e); cbn [negb]; [rewrite andb_false_r; split; reflexivity|]. destruct (is_configured c); cbn [negb andb]; [|split; reflexivity].
  destruct (check_zone_sizing _ _ c) as [c'|].
  - unfold spawn_exporter_for_cycle. destruct (ie_spawn e _); (split; [reflexivity|]).
    + split; [|reflexivity]. intros _. split; [eauto|reflexivity].
    + split; [discriminate|]. intros [_ ?]. discriminate.
  - split; [reflexivity|]. split; [discriminate|]. intros [[? ?] _]. discriminate.
Qed.

(** C26 (invariant). The module is loaded completely or starts nothing.  Whatever configuration was read and whatever
    nginx answers: an exporter process exists after the load if and only if the load succeeded, in the master, for a
    configuration with an exporter block, and not under [nginx -t]; a load that fails at any hook leaves none.
    After a successful load the four variables are there, each with its own getter; with an exporter block the span is started in the rewrite
    phase and finished in the log phase, and all the zones are registered; without one there is no handler, no zone and
    no process, so an unconfigured module costs a request nothing.  And a load fails only for a reason: a variable or a handler
    that nginx refuses, a configuration that the finalisation refuses, zones too small for the workers, or a failed fork.
    About: boot, preconfiguration, module_postconfiguration, postconfiguration, ngx_otel_init_module, check_zone_sizing, spawn_exporter_for_cycle. *)
Theorem load_is_all_or_nothing data_offset e c :
  let b := boot data_offset e c in
  (bt_forked b = true <-> bt_ok b = true /\ starts_exporter (bo_init e) c = true) /\
  (bt_ok b = true -> bt_variables b = module_variables /\
     if is_configured c then bt_phases b = [Rewrite; Log] /\ bt_zones b = needed_zones data_offset (bo_post e) c
     else bt_phases b = [] /\ bt_zones b = []) /\
  (bt_ok b = false ->
     (exists v, In v module_variables /\ bo_add_variable e (fst v) = false) \/
     is_configured c = true /\
       (acceptable data_offset (bo_post e) c = false \/ bo_add_phase e Rewrite = false \/ bo_add_phase e Log = false \/
        starts_exporter (bo_init e) c = true /\
          (check_zone_sizing data_offset (ie_worker_processes (bo_init e)) (bt_conf b) = None \/
           ie_spawn (bo_init e) (if ie_reload (bo_init e) then NGX_PROCESS_JUST_RESPAWN else NGX_PROCESS_RESPAWN) = false))).
Proof.
  unfold boot, preconfiguration. pose proof (add_variables_spec (bo_add_variable e) module_variables []) as Hv.
  destruct (forallb _ module_variables) eqn:Ef.
  2: { destruct Hv as (pre & _ & ->). cbn. split_and!; [split; [discriminate|intros [? _]; discriminate]|discriminate|]. intros _. left.
       apply not_true_iff_false in Ef. rewrite forallb_forall in Ef. destruct (bo_add_variable e $"otel_trace_id") eqn:E1; [|eexists; split; [left; reflexivity|exact E1]].
       destruct (bo_add_variable e $"otel_span_id") eqn:E2; [|eexists; split; [right; left; reflexivity|exact E2]].
       destruct (bo_add_variable e $"otel_parent_id") eqn:E3; [|eexists; split; [do 2 right; left; reflexivity|exact E3]].
       destruct (bo_add_variable e $"otel_parent_sampled") eqn:E4; [|eexists; split; [do 3 right; left; reflexivity|exact E4]].
       exfalso. apply Ef. intros v [<-|[<-|[<-|[<-|[]]]]]; assumption. }
  rewrite Hv. cbn [app]. unfold module_postconfiguration. pose proof (post_exporter data_offset (bo_post e) c) as Hx.
  pose proof (post_spec data_offset (bo_post e) c) as Hs.
  assert (Hu : is_configured c = false -> exists s, postconfiguration data_offset (bo_post e) c = Ok s /\ ps_regs s = []).
  { intros Hc. unfold postconfiguration. rewrite Hc. cbn [negb]. eexists. split; [reflexivity|]. destruct (pe_old _); reflexivity. }
  destruct (postconfiguration data_offset (bo_post e) c) as [s|s].
  2: { cbn. split_and!; [split; [discriminate|intros [? _]; discriminate]|discriminate|]. intros _. right.
       destruct (is_configured c); [|destruct (Hu eq_refl) as (? & ? & _); discriminate]. split; [reflexivity|]. left. apply (Hs eq_refl). }
  assert (Hc : is_configured (ps_conf s) = is_configured c) by (unfold is_configured; rewrite (Hx s eq_refl); reflexivity).
  rewrite Hc. pose proof (init_module_spec data_offset (bo_init e) (ps_conf s) (bo_control e)) as Hi.
  unfold starts_exporter in *. rewrite Hc in Hi.
  destruct (is_configured c) eqn:Ec; cbn [andb] in *.
  - destruct (Hs eq_refl) as (_ & Hr & _). destruct (bo_add_phase e Rewrite) eqn:E1; cbn [negb].
    2: { cbn. split_and!; [split; [discriminate|intros [? _]; discriminate]|discriminate|]. auto. }
    destruct (bo_add_phase e Log) eqn:E2; cbn [negb].
    2: { cbn. split_and!; [split; [discriminate|intros [? _]; discriminate]|discriminate|]. auto 6. }
    destruct (ngx_otel_init_module _ _ _ _) as [[[[ok conf] ctrl] forked] logs] eqn:Ei. cbn [bt_forked bt_ok bt_variables bt_phases bt_zones bt_conf].
    destruct (ie_master (bo_init e) && negb (ie_test_config (bo_init e))) eqn:Em; [|destruct Hi as [-> ->]; split_and!; try discriminate; auto; split; intros; discriminate || intuition discriminate].
    destruct Hi as [-> Hi]. split_and!; [tauto|auto|]. intros ->. right. split; [reflexivity|]. do 3 right. split; [reflexivity|].
    destruct (check_zone_sizing data_offset (ie_worker_processes (bo_init e)) (ps_conf s)) as [c'|] eqn:Ez.
    + right. apply not_true_iff_false. intros Hsp. destruct Hi as [_ Hi]. discriminate Hi. split; [eauto|exact Hsp].
    + left. apply andb_true_iff in Em as [E3 E4]. unfold ngx_otel_init_module in Ei. rewrite E3 in Ei. apply negb_true_iff in E4. rewrite E4, Hc, Ez in Ei. cbn in Ei.
      injection Ei as <- _ _. exact Ez.
  - destruct (Hu eq_refl) as (s' & [= <-] & Hr). destruct (ngx_otel_init_module _ _ _ _) as [[[[ok conf] ctrl] forked] logs].
    destruct Hi as [-> ->]. cbn. rewrite Hr. split_and!; auto; [split; intros; discriminate || intuition discriminate|discriminate].
Qed.

Example boots :
  let e forks := mk_boot (fun _ => true) sample_env (fun _ => true) (sample_init forks) None in
  (bt_ok (boot 200 (e true) sample_conf), bt_forked (boot 200 (e true) sample_conf), bt_ok (boot 200 (e false) sample_conf)) = (true, true, false).
Proof. vm_compute. reflexivity. Qed.

(** The index is that of the first HTTP module with the name. *)
Lemma ssl_index_first modules i : find_http_ssl_ctx_index modules = Some i <->
  exists pre m post, modules = pre ++ Some m :: post /\ md_ctx_index m = i /\
    md_type m = NGX_HTTP_MODULE /\ md_name m = Some $"ngx_http_ssl_module" /\
    Forall (fun x => forall m, x = Some m -> md_type m <> NGX_HTTP_MODULE \/ md_name m <> Some $"ngx_http_ssl_module") pre.
Proof.
  assert (D : forall m, (md_type m = NGX_HTTP_MODULE /\ md_name m = Some $"ngx_http_ssl_module") \/
    (md_type m <> NGX_HTTP_MODULE \/ md_name m <> Some $"ngx_http_ssl_module")).
  { intros m. destruct (decide (md_type m = NGX_HTTP_MODULE)), (decide (md_name m = Some $"ngx_http_ssl_module")); auto. }
  assert (S1 : forall m k, md_type m = NGX_HTTP_MODULE -> md_name m = Some $"ngx_http_ssl_module" -> find_http_ssl_ctx_index (Some m :: k) = Some (md_ctx_index m)).
  { intros m k E1 E2. cbn [find_http_ssl_ctx_index]. rewrite E1, E2. reflexivity. }
  assert (S2 : forall m k, md_type m <> NGX_HTTP_MODULE \/ md_name m <> Some $"ngx_http_ssl_module" -> find_http_ssl_ctx_index (Some m :: k) = find_http_ssl_ctx_index k).
  { intros m k H. cbn [find_http_ssl_ctx_index]. destruct (md_name m) as [name|]; [|reflexivity]. case_if; [reflexivity|].
    destruct (bytes_eqb name _) eqn:En; [|reflexivity]. apply bytes_eqb_eq in En. destruct H; congruence. }
  split.
  - induction modules as [|[m|] modules IH]; [discriminate| |].
    + destruct (D m) as [[E1 E2]|Hn].
      * rewrite S1 by assumption. intros [= <-]. exists [], m, modules. split_and!; auto.
      * rewrite S2 by exact Hn. intros E. destruct (IH E) as (pre & m' & post & -> & H1 & H2 & H3 & H4). exists (Some m :: pre), m', post.
        split_and!; auto. constructor; [intros ? [= <-]; exact Hn|exact H4].
    + intros E. destruct (IH E) as (pre & m' & post & -> & H1 & H2 & H3 & H4). exists (None :: pre), m', post. split_and!; auto.
  - intros (pre & m & post & -> & <- & H1 & H2 & H3). induction H3 as [|[m'|] pre Hm _ IH]; [apply S1; assumption| |exact IH].
    cbn [app]. rewrite S2 by (apply Hm; reflexivity). exact IH.
Qed.

(** ** Builds with [test-support] *)

(** [otel_log_ring_size]: the stored size is the second component, 0 if unset.
    [src/src/config/directives.rs: cmd_set_log_ring_size] *)
Definition cmd_set_log_ring_size (args : list token) (log_ring_size : Z) : option (conf_result * Z * list Z) :=
  if 0 <? log_ring_size then Some (already_set_error, log_ring_size, []) else
  raw ← args !! 1%nat;
  Some (match parse_size_bytes raw with
        | Some n =>
            if 0 <? n then
              match align_ring_size n with
              | None => (NGX_CONF_ERROR, log_ring_size, [NGX_LOG_EMERG])
              | Some aligned => (NGX_CONF_OK, aligned, if aligned =? n then [] else [NGX_LOG_WARN])
              end
            else (NGX_CONF_ERROR, log_ring_size, [NGX_LOG_EMERG])
        | None => (NGX_CONF_ERROR, log_ring_size, [NGX_LOG_EMERG])
        end).

(** A size is taken once, as the next multiple of 8, with a warning if that is another number. *)
Lemma log_ring_size_aligned raw rest size logs : cmd_set_log_ring_size ($"otel_log_ring_size" :: raw :: rest) 0 = Some (NGX_CONF_OK, size, logs) ->
  exists n, parse_size_bytes raw = Some n /\ 0 < n <= size /\ size < n + 8 /\ size mod 8 = 0 /\ (logs = [] <-> size = n) /\
  forall args, cmd_set_log_ring_size args size = Some (already_set_error, size, []).
Proof.
  unfold cmd_set_log_ring_size at 1. cbn [lookup list_lookup mbind option_bind]. change (0 <? 0) with false. cbv iota.
  destruct (parse_size_bytes raw) as [n|]; [|discriminate]. destruct (0 <? n) eqn:En; [|discriminate]. zify_bool.
  destruct (align_ring_size n) as [m|] eqn:Ea; [|discriminate]. apply align_ring_size_spec in Ea as [H1 H2]; [|lia].
  intros [= <- <-]. exists n. split_and!; auto; try lia; [destruct (Z.eqb_spec m n); split; congruence || discriminate|].
  intros args. unfold cmd_set_log_ring_size. rewrite (proj2 (Z.ltb_lt 0 m)) by lia. reflexivity.
Qed.

(** What the status page shows. *)
Record status_view := mk_view {
  vw_version : Z; vw_last_beat_msec : Z; vw_now_msec : Z; vw_successor_gen : Z; vw_spans_dropped : Z; vw_access_dropped : Z; vw_error_dropped : Z
}.

(** The control page, if mapped; the drop counters of the [n_workers] workers, [u64] sums.
    [src/src/lib.rs: 1103-1153 otel_status_content_handler] *)
Definition status_of (ctrl : option control_shm) (n_workers : nat) (logs : option (list (ring * ring))) (spans : option (list ring)) (now_msec : Z) : status_view :=
  let '(v, beat, gen) := match ctrl with Some c => (version c, last_beat_msec c, successor_gen c) | None => (0, 0, 0) end in
  let sum f := u64 (zsum (map f (take n_workers (default [] logs)))) in
  mk_view v beat now_msec gen (u64 (zsum (map drop_count (take n_workers (default [] spans)))))
    (sum (fun w => drop_count (fst w))) (sum (fun w => drop_count (snd w))).

(** [src/src/lib.rs: 1157-1160 otel_status_content_handler] *)
Definition status_body (v : status_view) : list Z :=
  fmt_dec (vw_version v) ++ [10] ++ $"last_beat_msec=" ++ fmt_dec (vw_last_beat_msec v) ++ [10] ++
  $"now_msec=" ++ fmt_dec (vw_now_msec v) ++ [10] ++ $"successor_gen=" ++ fmt_dec (vw_successor_gen v) ++ [10] ++
  $"spans_dropped=" ++ fmt_dec (vw_spans_dropped v) ++ [10] ++ $"access_dropped=" ++ fmt_dec (vw_access_dropped v) ++ [10] ++
  $"error_dropped=" ++ fmt_dec (vw_error_dropped v) ++ [10].

(** What nginx answers while the page is sent. *)
Record page_env := mk_page { pg_send_header : Z; pg_header_only : bool; pg_buffer : bool; pg_chain : bool; pg_filter : Z }.
Definition NGX_OK : Z := 0.
Definition NGX_ERROR : Z := -1.
Definition NGX_HTTP_INTERNAL_SERVER_ERROR : Z := 500.

(** The result, the declared length, and the body given to the filters, if any.
    [src/src/lib.rs: otel_status_content_handler] *)
Definition otel_status_content_handler (e : page_env) (v : status_view) : Z * Z * option (list Z) :=
  let body := status_body v in
  let content_length_n := blen body in
  if pg_send_header e =? NGX_ERROR then (pg_send_header e, content_length_n, None)
  else if pg_header_only e then (NGX_OK, content_length_n, None)
  else if negb (pg_buffer e) then (NGX_HTTP_INTERNAL_SERVER_ERROR, content_length_n, None)
  else if negb (pg_chain e) then (NGX_HTTP_INTERNAL_SERVER_ERROR, content_length_n, None)
  else (pg_filter e, content_length_n, Some body).

(** The reader of the page: the version, then lines of a key and a number. *)
Definition read_line (key l : list Z) : option (Z * list Z) :=
  i ← find_byte 10 l; v ← strip_prefix key (take (Z.to_nat i) l); n ← parse_u64 v; Some (n, drop (Z.to_nat (i + 1)) l).
Definition read_status (l : list Z) : option status_view :=
  '(a, l) ← read_line [] l; '(b, l) ← read_line $"last_beat_msec=" l; '(c, l) ← read_line $"now_msec=" l; '(d, l) ← read_line $"successor_gen=" l;
  '(e, l) ← read_line $"spans_dropped=" l; '(f, l) ← read_line $"access_dropped=" l; '(g, l) ← read_line $"error_dropped=" l;
  if blen l =? 0 then Some (mk_view a b c d e f g) else None.

Lemma read_line_text key n rest : ~ In 10 key -> in_u 64 n -> read_line key (key ++ fmt_dec n ++ [10] ++ rest) = Some (n, rest).
Proof.
  intros Hk Hn. unfold in_u in Hn. change (2 ^ 64) with 18446744073709551616 in Hn.
  pose proof (fmt_dec_writes n ltac:(lia)) as W. pose proof (writes_no _ _ _ _ 10 eq_refl W) as H10.
  unfold read_line. rewrite app_assoc. change ([10] ++ rest) with (10 :: rest). rewrite find_byte_first by (rewrite in_app_iff; tauto).
  cbn [mbind option_bind]. unfold blen. rewrite Nat2Z.id, take_app_length.
  assert (Es : strip_prefix key (key ++ fmt_dec n) = Some (fmt_dec n)).
  { unfold strip_prefix, starts_with. rewrite take_app_length, drop_app_length. rewrite (proj2 (bytes_eqb_eq key key) eq_refl). reflexivity. }
  rewrite Es. cbn [mbind option_bind]. unfold parse_u64. rewrite parse_fmt_dec by (unfold u64_max; lia). cbn [mbind option_bind].
  replace (Z.to_nat (Z.of_nat (length (key ++ fmt_dec n)) + 1)) with (length ((key ++ fmt_dec n) ++ [10])) by (rewrite !length_app; cbn [length]; lia).
  change (10 :: rest) with ([10] ++ rest). rewrite app_assoc, drop_app_length. reflexivity.
Qed.

Definition view_ok (v : status_view) : Prop :=
  in_u 64 (vw_version v) /\ in_u 64 (vw_last_beat_msec v) /\ in_u 64 (vw_now_msec v) /\ in_u 64 (vw_successor_gen v) /\
  in_u 64 (vw_spans_dropped v) /\ in_u 64 (vw_access_dropped v) /\ in_u 64 (vw_error_dropped v).

(** The page says what the handler saw, and is as long as the header says. *)
Theorem status_page_reads_back e v : view_ok v ->
  let '(rc, len, body) := otel_status_content_handler e v in
  match body with Some b => rc = pg_filter e /\ len = blen b /\ read_status b = Some v | None => len = blen (status_body v) end.
Proof.
  intros (H1 & H2 & H3 & H4 & H5 & H6 & H7).
  assert (Hr : read_status (status_body v) = Some v).
  { unfold read_status, status_body. change (fmt_dec (vw_version v)) with ([] ++ fmt_dec (vw_version v)). rewrite <- (app_assoc []).
    do 6 (rewrite read_line_text by (assumption || (cbn; intuition discriminate)); cbn [mbind option_bind]).
    rewrite <- (app_nil_r [10]). rewrite read_line_text by (assumption || (cbn; intuition discriminate)). destruct v. reflexivity. }
  unfold otel_status_content_handler. repeat case_if; auto.
Qed.
