(* ===== verification/System.v ===== *)
(** * Workers, exporter and collector together

    The machine of [Export] with the workers in it: while the exporter waits, worker processes write access records and spans into
    their rings.  The theorem follows every record from the worker that wrote it to the body the collector took: it is dropped and
    counted, still in its ring, or in exactly one batch, and the records of a worker stay in order. *)
From stdpp Require Import relations gmap.
From S2P Require Import Prelude Ring DataModel StdText Producer AccessLog Slots SpanRecord Coalesce ErrorLog Processor ShmLayout Endpoint Collect Outcome Backoff Control.
From S2P Require Import Config Encoder Conn Tls Transport Drain Run Ledger Export.
From S2P Require Sources.

(** ** A zone of rings *)

(** The records of one worker in a list of writes. *)
Definition of_worker {R} (w : nat) (es : list (nat * R)) : list R := map snd (filter (fun e => fst e = w) es).

Definition drops (rings : list ring) : Z := zsum (map drop_count rings).

Section zone.
(** Records of one kind, how they are serialised, and the function with which a worker writes one. *)
Context {R : Type} (bytes : R -> list Z) (wf : R -> Prop).
Context (emit : worker_ring_producer -> R -> bool * worker_ring_producer) (emit_pushes : forall p rec, emit p rec = worker_ring_push p (bytes rec)).

(** Worker [w] writes a record into its ring; whether it was taken. *)
Definition worker_emit (rings : list ring) (e : nat * R) : bool * list ring :=
  match rings !! fst e with
  | Some r => let '(ok, p) := emit (mk_producer r) (snd e) in (ok, <[fst e := wrp_ring p]> rings)
  | None => (false, rings)
  end.

(** A sequence of writes: the writes that were taken, and the rings. *)
Fixpoint emit_all (rings : list ring) (es : list (nat * R)) : list (nat * R) * list ring :=
  match es with
  | [] => ([], rings)
  | e :: es =>
      let '(ok, rings) := worker_emit rings e in
      let '(taken, rings) := emit_all rings es in
      (if ok then e :: taken else taken, rings)
  end.

(** The bytes a record takes in a ring. *)
Definition cost (e : nat * R) : Z := 4 + blen (bytes (snd e)).
Definition volume (es : list (nat * R)) : Z := zsum (map cost es).

Definition holds_records (r : ring) (recs : list R) : Prop := ring_ok r (map bytes recs) /\ Forall wf recs.

(** What the rings hold, with [written] bytes at most behind each write offset. *)
Record zone_holds (rings : list ring) (written : Z) (recss : list (list R)) : Prop := {
  zh_rings : Forall2 holds_records rings recss;
  zh_offsets : Forall (fun r => write_offset r <= written) rings
}.

Lemma cost_pos e : 4 <= cost e.
Proof. unfold cost. pose proof (blen_nonneg (bytes (snd e))). lia. Qed.
Lemma volume_app es es' : volume (es ++ es') = volume es + volume es'.
Proof. unfold volume. rewrite map_app, zsum_app. reflexivity. Qed.
Lemma volume_nonneg es : 0 <= volume es.
Proof. unfold volume. apply zsum_nonneg, Forall_forall. intros z (e & <- & _)%in_map_iff. pose proof (cost_pos e). lia. Qed.

Lemma push_offset r rec ok r' : 0 <= write_offset r -> push r rec = (ok, r') -> write_offset r' <= write_offset r + (4 + blen rec).
Proof using.
  intros H0. pose proof (blen_nonneg rec). unfold push. case_if; [intros [= <- <-]; lia|]. case_if; intros [= <- <-]; cbn; [lia|].
  apply Z.mod_le; lia.
Qed.

Lemma drops_insert rings i r r' : rings !! i = Some r -> drops (<[i := r']> rings) = drops rings - drop_count r + drop_count r'.
Proof using.
  intros E. pose proof (lookup_lt_Some _ _ _ E) as Hl. rewrite insert_take_drop by exact Hl. rewrite <- (take_drop_middle rings i r E) at 3.
  unfold drops. rewrite !map_app, !zsum_app. cbn [map]. unfold zsum. cbn. lia.
Qed.

Lemma of_worker_app w (es es' : list (nat * R)) : of_worker w (es ++ es') = of_worker w es ++ of_worker w es'.
Proof using. unfold of_worker. rewrite list.filter_app, map_app. reflexivity. Qed.
Lemma of_worker_one w (e : nat * R) : of_worker w [e] = if decide (fst e = w) then [snd e] else [].
Proof using. unfold of_worker. rewrite filter_cons. destruct (decide _); reflexivity. Qed.

Lemma nth_insert (recss : list (list R)) i w recs : (i < length recss)%nat ->
  nth w (<[i := recs]> recss) [] = if decide (i = w) then recs else nth w recss [].
Proof using.
  intros Hi. rewrite !nth_lookup. destruct (decide (i = w)) as [->|Hn]; [rewrite list_lookup_insert_eq by exact Hi|rewrite list_lookup_insert_ne by exact Hn]; reflexivity.
Qed.

Lemma nth_map_nil (f : list R -> list R) w recss : f [] = [] -> nth w (map f recss) [] = f (nth w recss []).
Proof using. intros E. rewrite <- E at 1. apply map_nth. Qed.

(** One write appends the record to its worker's, or counts it as dropped. *)
Lemma worker_emit_spec rings written recss e :
  zone_holds rings written recss -> (fst e < length rings)%nat -> wf (snd e) -> written + cost e <= u64_max ->
  let '(ok, rings') := worker_emit rings e in
  length rings' = length rings /\
  exists recss', zone_holds rings' (written + cost e) recss' /\
    (forall w, nth w recss' [] = nth w recss [] ++ if ok then of_worker w [e] else []) /\
    cong (drops rings' + if ok then 1 else 0) (drops rings + 1).
Proof.
  intros [Hr Ho] Hi Hw Hv. unfold worker_emit. destruct (lookup_lt_is_Some_2 rings (fst e) Hi) as [r Er]. rewrite Er.
  destruct (Forall2_lookup_l _ _ _ _ _ Hr Er) as (recs & Es & [Hok Hwf]).
  pose proof (Forall_lookup_1 _ _ _ _ Ho Er) as Hle. cbv beta in Hle.
  assert (Hrd : write_offset r + (4 + blen (bytes (snd e))) <= u64_max) by (unfold cost in Hv; lia).
  pose proof (push_refines_queue r _ (bytes (snd e)) Hok Hrd) as Hp.
  rewrite emit_pushes. unfold worker_ring_push. cbn [wrp_ring].
  destruct (push r (bytes (snd e))) as [ok r'] eqn:Ep. cbn [wrp_ring].
  pose proof (push_offset r _ _ _ ltac:(destruct (ok_off _ _ Hok); lia) Ep) as Hoff. fold (cost e) in Hoff.
  split; [apply length_insert|]. unfold push_spec in Hp. cbn [fst snd] in Hp. pose proof (cost_pos e) as Hc.
  assert (Hoffs : Forall (fun r => write_offset r <= written + cost e) (<[fst e := r']> rings)).
  { apply Forall_insert; [eapply Forall_impl; [|exact Ho]; intros; cbv beta in *; lia|lia]. }
  destruct (blen (enc _) + _ <=? _).
  - destruct Hp as (-> & Hok' & _ & Hd). exists (<[fst e := recs ++ [snd e]]> recss). split_and!.
    + split; [|exact Hoffs]. apply Forall2_insert; [exact Hr|]. split; [rewrite map_app; exact Hok'|apply Forall_app; auto].
    + intros w. rewrite nth_insert, of_worker_one by (eapply lookup_lt_Some, Es). destruct (decide _) as [<-|]; [|rewrite app_nil_r; reflexivity].
      rewrite nth_lookup, Es. reflexivity.
    + rewrite (drops_insert _ _ _ _ Er). unfold drop_count. rewrite Hd. unfold cong. f_equal. lia.
  - destruct Hp as [[= -> ->] Hok']. exists recss. split_and!.
    + split; [|exact Hoffs]. rewrite <- (list_insert_id recss (fst e) recs Es). apply Forall2_insert; [exact Hr|]. split; [exact Hok'|exact Hwf].
    + intros w. rewrite app_nil_r. reflexivity.
    + rewrite Z.add_0_r, (drops_insert _ _ _ _ Er). unfold drop_count. cbn [dropped set_dropped].
      rewrite (cong_wrap (dropped r + 1)). unfold cong. f_equal. lia.
Qed.

(** A sequence of writes: every record is held, in order, or counted. *)
Lemma emit_all_spec es : forall rings written recss,
  zone_holds rings written recss -> Forall (fun e => (fst e < length rings)%nat /\ wf (snd e)) es -> written + volume es <= u64_max ->
  let '(taken, rings') := emit_all rings es in
  length rings' = length rings /\ taken `sublist_of` es /\
  exists recss', zone_holds rings' (written + volume es) recss' /\ (forall w, nth w recss' [] = nth w recss [] ++ of_worker w taken) /\
    cong (drops rings' + Z.of_nat (length taken)) (drops rings + Z.of_nat (length es)).
Proof.
  induction es as [|e es IH]; intros rings written recss Hz He Hv; cbn [emit_all].
  - split_and!; [reflexivity|reflexivity|]. exists recss. unfold volume. cbn. rewrite Z.add_0_r. split_and!; [exact Hz| |reflexivity].
    intros w. rewrite app_nil_r. reflexivity.
  - inversion_clear He as [|? ? [Hi Hw] He']. change (volume (e :: es)) with (cost e + volume es) in *. pose proof (volume_nonneg es) as Hvn.
    pose proof (worker_emit_spec rings written recss e Hz Hi Hw ltac:(lia)) as Hs. destruct (worker_emit rings e) as [ok rings1].
    destruct Hs as (Hl & recss1 & Hz1 & Hc1 & Hd1). specialize (IH rings1 _ recss1 Hz1). rewrite Hl in IH. specialize (IH He' ltac:(lia)).
    destruct (emit_all rings1 es) as [taken rings2]. destruct IH as (Hl2 & Hsub & recss2 & Hz2 & Hc2 & Hd2).
    split; [congruence|]. split; [destruct ok; [apply sublist_skip|apply sublist_cons]; exact Hsub|]. exists recss2.
    split; [rewrite Z.add_assoc; exact Hz2|]. split.
    + intros w. rewrite Hc2, Hc1, <- app_assoc. destruct ok; [rewrite <- of_worker_app|]; reflexivity.
    + replace (Z.of_nat (length (if ok then e :: taken else taken))) with (Z.of_nat (length taken) + if ok then 1 else 0) by (destruct ok; cbn [length]; lia).
      rewrite Z.add_assoc, Hd2. cbn [length]. rewrite Nat2Z.inj_succ, <- Z.add_1_l, Z.add_assoc, <- Hd1. unfold cong. f_equal. lia.
Qed.

(** The exporter's side: a pass changes neither write offsets nor drop counters. *)
Lemma pop_all_frame n : forall r, write_offset (snd (pop_all n r)) = write_offset r /\ dropped (snd (pop_all n r)) = dropped r.
Proof using.
  induction n as [|n IH]; intros r; cbn [pop_all]; [auto|]. destruct (pop_into r []) as [[ok r'] out] eqn:E.
  assert (F : write_offset r' = write_offset r /\ dropped r' = dropped r).
  { revert E. unfold pop_into. repeat case_if; intros [= _ <- _]; auto. }
  destruct ok; [|exact F]. destruct (IH r') as [H1 H2]. destruct (pop_all n r') as [recs r'']. cbn [snd] in *. destruct F. split; congruence.
Qed.

Lemma pop_zone k rings written recss : zone_holds rings written recss ->
  zone_holds (map (fun r => snd (pop_all k r)) rings) written (map (drop k) recss) /\
  drops (map (fun r => snd (pop_all k r)) rings) = drops rings.
Proof.
  intros [Hr Ho]. split; [split|].
  - apply Forall2_fmap_2. eapply Forall2_impl; [|exact Hr]. intros r recs [Hok Hwf]. destruct (pop_all_split k r _ Hok) as (r' & E & Hok').
    rewrite E. split; [rewrite <- (skipn_map bytes); exact Hok'|apply Forall_drop, Hwf].
  - apply Forall_map. eapply Forall_impl; [|exact Ho]. intros r Hle. cbv beta in *. cbn. rewrite (proj1 (pop_all_frame _ r)). exact Hle.
  - unfold drops. rewrite map_map. f_equal. apply map_ext. intros r. apply pop_all_frame.
Qed.

(** ** The flow of records through a zone *)

(** With [n] rings that held [before] at first, with [lost] drops counted and [start] bytes behind the offsets: the writes [es] since then, those that were
    taken, what each collection took of each worker's records ([chunks]), and what is [left]. *)
Record flows (n : nat) (start lost : Z) (before : list (list R)) (rings : list ring) (es taken : list (nat * R))
    (chunks : list (list (list R))) (left : list (list R)) : Prop := {
  fl_rings : length rings = n;
  fl_taken : taken `sublist_of` es;
  fl_left : zone_holds rings (start + volume es) left;
  fl_order w : concat (map (fun c => nth w c []) chunks) ++ nth w left [] = nth w before [] ++ of_worker w taken;
  fl_drops : cong (drops rings + Z.of_nat (length taken)) (lost + Z.of_nat (length es))
}.

Lemma flows_start n start before rings : length rings = n -> zone_holds rings start before ->
  flows n start (drops rings) before rings [] [] [] before.
Proof.
  intros Hl Hz. split; [exact Hl|constructor|unfold volume; cbn; rewrite Z.add_0_r; exact Hz|intros w; symmetry; apply app_nil_r|reflexivity].
Qed.

Lemma flows_emit n start lost before rings es taken chunks left es' :
  flows n start lost before rings es taken chunks left -> Forall (fun e => (fst e < n)%nat /\ wf (snd e)) es' -> start + volume (es ++ es') <= u64_max ->
  let '(taken', rings') := emit_all rings es' in
  exists left', flows n start lost before rings' (es ++ es') (taken ++ taken') chunks left'.
Proof.
  intros [Hl Hs Hz Hf Hd] He. rewrite volume_app. intros Hv. pose proof (emit_all_spec es' _ _ _ Hz) as Ha. rewrite Hl in Ha.
  specialize (Ha He ltac:(lia)). destruct (emit_all rings es') as [taken' rings']. destruct Ha as (Hl' & Hs' & left' & Hz' & Hc' & Hd').
  exists left'. split; [exact Hl'|apply sublist_app; assumption|rewrite volume_app, Z.add_assoc; exact Hz'| |].
  - intros w. rewrite Hc', app_assoc, Hf, of_worker_app, app_assoc. reflexivity.
  - rewrite !length_app, !Nat2Z.inj_add, (Z.add_comm (Z.of_nat (length taken))), Z.add_assoc, Hd'.
    rewrite <- Z.add_assoc, (Z.add_comm (Z.of_nat (length es'))), Z.add_assoc, Hd, Z.add_assoc. reflexivity.
Qed.

Lemma flows_collect k n start lost before rings es taken chunks left :
  flows n start lost before rings es taken chunks left ->
  flows n start lost before (map (fun r => snd (pop_all k r)) rings) es taken (chunks ++ [map (take k) left]) (map (drop k) left).
Proof.
  intros [Hl Hs Hz Hf Hd]. destruct (pop_zone k _ _ _ Hz) as [Hz' Hd']. split; [rewrite length_map; exact Hl|exact Hs|exact Hz'| |rewrite Hd'; exact Hd].
  intros w. rewrite map_app, concat_app. cbn [map concat]. rewrite app_nil_r, <- app_assoc, <- Hf. f_equal.
  rewrite !nth_map_nil by (apply take_nil || apply drop_nil). apply take_drop.
Qed.
End zone.

(** ** The two collections *)

Lemma collect_spans_zone cfg rings now written recss : zone_holds span_bytes span_wf rings written recss ->
  let '(b, _, rings') := collect_span_records cfg rings (length rings) now in
  rings' = map (fun r => snd (pop_all 2500 r)) rings /\ sb_spans b = map expected_span (concat (map (take 2500) recss)).
Proof.
  intros [Hr _]. pose proof (collect_spans_exact cfg now rings recss Hr) as Hc.
  assert (Hz : snd (collect_span_records cfg rings (length rings) now) = map (fun r => snd (pop_all MAX_SPAN_RECORDS_PER_WORKER_PER_DRAIN r)) rings).
  { unfold collect_span_records. rewrite each_worker_map, take_ge, drop_ge, app_nil_r by lia. cbn [snd]. apply map_ext. intros r.
    destruct (pop_all _ r). reflexivity. }
  destruct (collect_span_records cfg rings (length rings) now) as [[b d] rings']. split; [exact Hz|]. destruct Hc as [-> _].
  rewrite concat_map, map_map. reflexivity.
Qed.

(** An access record among the log records of a batch; the others come from the error log. *)
Definition is_access (lr : log_record) : Prop := lr_event_name lr = $"http.access".
#[export] Instance is_access_dec lr : Decision (is_access lr).
Proof. apply _. Defined.

Lemma filter_none {A} (P : A -> Prop) `{!forall a, Decision (P a)} l : Forall (fun a => ~ P a) l -> filter P l = [].
Proof. induction 1; [reflexivity|]. rewrite filter_cons_False by assumption. assumption. Qed.

Lemma filter_all {A} (P : A -> Prop) `{!forall a, Decision (P a)} l : Forall P l -> filter P l = l.
Proof. induction 1; [reflexivity|]. rewrite filter_cons_True by assumption. congruence. Qed.

(** Whatever the error rings hold, it does not become access records. *)
Lemma error_logs_not_access now wz : Forall (fun lr => ~ is_access lr) (fst (fst (fst (drain_errors now wz)))) /\ wz_access (snd (drain_errors now wz)) = wz_access wz.
Proof.
  unfold drain_errors. destruct (drain_coalesce_table _) as [tbl counts]. destruct (pop_all _ _) as [recs r].
  assert (Hf : forall logs consumed, Forall (fun lr => ~ is_access lr) logs ->
    Forall (fun lr => ~ is_access lr) (fst (foldl (error_step now (counts_map_of counts)) (logs, consumed) recs))).
  { induction recs as [|buf recs IH]; intros logs consumed Hl; [exact Hl|]. cbn [foldl]. unfold error_step at 2, parse_error_record_consuming.
    destruct (parse_error_record buf now _) as [lr|] eqn:E; [|apply IH, Hl].
    assert (Hn : ~ is_access lr).
    { revert E. unfold parse_error_record. repeat case_if; try discriminate. destruct (nginx_to_otel _). intros [= <-]. unfold is_access. cbn. discriminate. }
    destruct (be_val _ =? 0); apply IH, Forall_app; auto. }
  specialize (Hf [] ∅ (List.Forall_nil _)). destruct (foldl _ _ recs) as [logs consumed]. split; [|reflexivity]. cbn [fst] in *. apply Forall_app. split; [exact Hf|].
  apply Forall_map, Forall_forall. intros [[h sev] c] _. unfold is_access. cbn. discriminate.
Qed.

Lemma collect_logs_zone cfg errors zone now written reqss : zone_holds access_bytes req_wf (map wz_access zone) written reqss ->
  let '(b, _, zone') := collect_log_records cfg errors zone (length zone) now in
  map wz_access zone' = map (fun r => snd (pop_all 2500 r)) (map wz_access zone) /\
  filter is_access (lb_logs b) = map (fun q => access_log_record q now) (concat (map (take 2500) reqss)).
Proof.
  intros [Hr _]. apply (proj1 (Forall2_fmap_l wz_access (holds_records access_bytes req_wf) zone reqss)) in Hr. pose proof (collect_access_exact cfg now zone reqss Hr) as Hc.
  assert (Hz : map wz_access (snd (collect_log_records cfg false zone (length zone) now)) =
    map (fun r => snd (pop_all MAX_ACCESS_RECORDS_PER_WORKER_PER_DRAIN r)) (map wz_access zone)).
  { unfold collect_log_records. rewrite each_worker_map, take_ge, drop_ge, app_nil_r by lia. cbn [snd]. rewrite !map_map. apply map_ext. intros wz.
    unfold drain_access. destruct (pop_all _ _). reflexivity. }
  assert (Ha : forall l, filter is_access (map (fun q => access_log_record q now) l) = map (fun q => access_log_record q now) l).
  { intros l. apply filter_all, Forall_map, Forall_forall. intros. reflexivity. }
  assert (Hm : concat (map (fun reqs => map (fun q => access_log_record q now) (take 2500 reqs)) reqss) =
    map (fun q => access_log_record q now) (concat (map (take 2500) reqss))) by (rewrite concat_map, map_map; reflexivity).
  destruct errors.
  - unfold collect_log_records in *. destruct (each_worker _ _ zone) as [acc zone1] eqn:E1. cbn [fst snd] in Hz.
    destruct Hc as (Hb & _). cbn [lb_logs] in Hb.
    assert (Hl : length zone1 = length zone) by (rewrite <- (length_map wz_access), Hz, !length_map; reflexivity).
    rewrite each_worker_map, take_ge, drop_ge, app_nil_r by lia. cbn [lb_logs]. split.
    + etransitivity; [|exact Hz]. rewrite map_map. apply map_ext. intros wz. pose proof (proj2 (error_logs_not_access now wz)) as Hw.
      destruct (drain_errors now wz) as [[[l d] o] wz']. exact Hw.
    + rewrite list.filter_app, Hb, Hm, Ha, filter_none; [apply app_nil_r|].
      apply Forall_concat, Forall_map, Forall_map, Forall_forall. intros wz _. pose proof (proj1 (error_logs_not_access now wz)) as Hw.
      revert Hw. destruct (drain_errors now wz) as [[[l d] o] wz']. auto.
  - destruct (collect_log_records cfg false zone (length zone) now) as [[b d] zone']. split; [exact Hz|]. destruct Hc as (-> & _).
    rewrite Hm. apply Ha.
Qed.

(** A collection keeps the number of blocks. *)
Lemma each_worker_length {S O} (f : S -> O * S) k zone : length (snd (each_worker k f zone)) = length zone.
Proof. rewrite each_worker_map. cbn [snd]. rewrite length_app, length_map, length_take, length_drop. lia. Qed.
Lemma collect_logs_length cfg errors k now zone : length (snd (collect_log_records cfg errors zone k now)) = length zone.
Proof.
  unfold collect_log_records. pose proof (each_worker_length (fun wz => let '(l, d, wz') := drain_access now wz in ((l, d), wz')) k zone) as H1.
  destruct (each_worker k _ zone) as [acc zone1]. cbn [snd] in H1. destruct errors; [|exact H1].
  pose proof (each_worker_length (fun wz => let '(l, d, o, wz') := drain_errors now wz in ((l, d, o), wz')) k zone1) as H2.
  destruct (each_worker k _ zone1) as [errs zone2]. cbn [snd] in *. lia.
Qed.
Lemma collect_spans_length cfg k now zone : length (snd (collect_span_records cfg zone k now)) = length zone.
Proof.
  unfold collect_span_records. match goal with |- context [each_worker k ?f zone] => pose proof (each_worker_length f k zone) as H1 end.
  destruct (each_worker k _ zone) as [acc zone1]. exact H1.
Qed.

(** ** The system *)

Abbreviation emit_spans := (emit_all (emit_span_record (P := worker_ring_producer))).
Abbreviation emit_accesses := (emit_all (emit_access_record (P := worker_ring_producer))).

Section system.
Context (hl : http_lib).
Context (decode_response : otlp_signal -> list Z -> option (option Z)).
Context (decode_status : list Z -> option (list (list Z * list Z))).
Context (decode_retry_info : list Z -> option (option (Z * Z))).
Context `{Prost}.
Context {J : Type} `{EmptyObject J}.
Context (data_offset : Z) (amcf : main_config) (stat_stub : bool) (master_pid : Z) (worker_start_ns : Z) (restarts : Z) (collector_host : list Z).
(** At each wait: what the network does, and what happens meanwhile. *)
Context (sends : nat -> network) (meanwhile : nat -> shared -> shared).

Definition system_future (k : nat) : moment := mk_moment (sends k).1 (sends k).2 (meanwhile k).

#[local] Instance system_world : World machine :=
  machine_world hl decode_response decode_status decode_retry_info data_offset amcf stat_stub master_pid worker_start_ns restarts collector_host system_future.

(** What is written before the [k]-th wait. *)
Definition written {R} (news : nat -> list (nat * R)) (k : nat) : list (nat * R) := concat (map news (seq 0 k)).

Lemma written_S {R} (news : nat -> list (nat * R)) k : written news (S k) = written news k ++ news k.
Proof using. unfold written. rewrite seq_S, map_app, concat_app. cbn. rewrite app_nil_r. reflexivity. Qed.

(** What the workers promise: meanwhile [n] of them write these well-formed spans and access records into their rings, and nobody else changes those rings, as
    long as the shared memory is [good], which neither they nor the exporter spoil. *)
Class Workers (n : nat) (good : shared -> Prop) (new_spans : nat -> list (nat * span_record)) (new_accesses : nat -> list (nat * sampled_request)) := {
  wk_spans_wf k : Forall (fun e => (fst e < n)%nat /\ span_wf (snd e)) (new_spans k);
  wk_accesses_wf k : Forall (fun e => (fst e < n)%nat /\ req_wf (snd e)) (new_accesses k);
  wk_spans k s : good s -> sh_spans (meanwhile k s) = snd (emit_spans (sh_spans s) (new_spans k));
  wk_accesses k s : good s -> map wz_access (sh_logs (meanwhile k s)) = snd (emit_accesses (map wz_access (sh_logs s)) (new_accesses k));
  wk_good k s : good s -> good (meanwhile k s);
  wk_control c s : good s -> good (sh_set_control c s);
  wk_set_logs z s : good s -> length z = length (sh_logs s) -> good (sh_set_logs z s);
  wk_set_spans z s : good s -> length z = length (sh_spans s) -> good (sh_set_spans z s);
  wk_blocks c s : good s -> good (sh_set_blocks (snd (Sources.collect_all_sources data_offset amcf
    (source_env_of stat_stub master_pid restarts c s) worker_start_ns collector_host)) s)
}.

Context (n : nat) (good : shared -> Prop) (new_spans : nat -> list (nat * span_record)) (new_accesses : nat -> list (nat * sampled_request)).
Context `{!Workers n good new_spans new_accesses}.

(** The machine with a note of the writes that the rings took. *)
Record noted := mk_noted { nt_machine : machine; nt_spans : list (nat * span_record); nt_accesses : list (nat * sampled_request) }.
Definition note (f : machine -> machine) (g : noted) : noted := mk_noted (f (nt_machine g)) (nt_spans g) (nt_accesses g).
Definition note_wait (m : machine) (g : noted) : noted :=
  let m0 := nt_machine g in
  mk_noted m (nt_spans g ++ fst (emit_spans (sh_spans (ma_shared m0)) (new_spans (ma_next m0))))
    (nt_accesses g ++ fst (emit_accesses (map wz_access (sh_logs (ma_shared m0))) (new_accesses (ma_next m0)))).

#[local] Instance noted_world : World noted := {
  ngx_current_msec g := ngx_current_msec (nt_machine g);
  now_unix_nano g := now_unix_nano (nt_machine g);
  ngx_quit g := ngx_quit (nt_machine g);
  ngx_terminate g := ngx_terminate (nt_machine g);
  control g := control (nt_machine g);
  set_control c := note (set_control c);
  logs_zone g := logs_zone (nt_machine g);
  set_logs_zone z := note (set_logs_zone z);
  spans_zone g := spans_zone (nt_machine g);
  set_spans_zone z := note (set_spans_zone z);
  collect_all_sources c g := let '(b, m) := collect_all_sources c (nt_machine g) in (b, note (fun _ => m) g);
  send l bytes budget g := let '(r, m) := send l bytes budget (nt_machine g) in (r, note_wait m g);
  sleep ms g := note_wait (sleep ms (nt_machine g)) g
}.

#[local] Instance noted_hom : WorldHom nt_machine.
Proof.
  split; intros; try reflexivity; [cbn [collect_all_sources noted_world]; destruct (collect_all_sources c (nt_machine a)); reflexivity|].
  cbn [send noted_world]. destruct (send l bytes budget (nt_machine a)). reflexivity.
Qed.

(** ** Where every record is *)

Abbreviation exporter_config := (loop_config (J := J) data_offset amcf master_pid).
(** The spans, and the access records, of all batches. *)
Definition exported_spans (evs : list event) : list span := concat (map sb_spans (span_batches (J := J) data_offset amcf master_pid evs)).
Definition exported_accesses (evs : list event) : list log_record :=
  filter is_access (concat (map lb_logs (log_batches (J := J) data_offset amcf master_pid evs))).

(** As many rings are read as there are workers. *)
Context (spans_read : get_n_workers (ec_n_active_workers exporter_config) (ec_spans_zone_workers exporter_config) = n).
Context (logs_read : get_n_workers (ec_n_active_workers exporter_config) (ec_logs_zone_workers exporter_config) = n).

Section placed.
(** One kind of record: its rings, its writes, the note of those taken, and how a batch shows it. *)
Context {R X : Type} (bytes : R -> list Z) (wf : R -> Prop) (emit : worker_ring_producer -> R -> bool * worker_ring_producer).
Context (emit_pushes : forall p rec, emit p rec = worker_ring_push p (bytes rec)).
Context (rings : shared -> list ring) (news : nat -> list (nat * R)) (taken : noted -> list (nat * R)).
Context (exported : list event -> list X) (render : Z -> R -> X) (exported_app : forall evs evs', exported (evs ++ evs') = exported evs ++ exported evs').
Context (news_wf : forall k, Forall (fun e => (fst e < n)%nat /\ wf (snd e)) (news k)).
Context (start lost : Z) (before : list (list R)).

Definition shown (timed : list (Z * list (list R))) : list X := concat (map (fun c => map (render (fst c)) (concat (snd c))) timed).

Definition placed (h : history noted) : Prop :=
  let m := nt_machine (actual h) in let es := written news (ma_next m) in
  start + volume bytes es <= u64_max ->
  exists timed left, flows bytes wf n start lost before (rings (ma_shared m)) es (taken (actual h)) (map snd timed) left /\
    exported (events h) = shown timed.

Lemma placed_wait h h' evs :
  placed h -> exported evs = [] -> events h' = events h ++ evs ->
  ma_next (nt_machine (actual h')) = S (ma_next (nt_machine (actual h))) ->
  let '(took, rings') := emit_all emit (rings (ma_shared (nt_machine (actual h)))) (news (ma_next (nt_machine (actual h)))) in
  taken (actual h') = taken (actual h) ++ took -> rings (ma_shared (nt_machine (actual h'))) = rings' -> placed h'.
Proof using emit_pushes exported_app news_wf.
  clear spans_read logs_read. destruct h as [g evs0]. unfold placed at 1. cbn [actual events]. intros Hp Hev He Hk.
  destruct (emit_all _ _ _) as [took rings'] eqn:Ee. intros Ht Hr. unfold placed. rewrite He, Hk, Ht, Hr, written_S, volume_app. intros Hv.
  pose proof (volume_nonneg bytes (news (ma_next (nt_machine g)))). destruct Hp as (timed & left & Hf & Hx); [lia|].
  pose proof (flows_emit bytes wf emit emit_pushes _ _ _ _ _ _ _ _ _ _ Hf (news_wf (ma_next (nt_machine g))) ltac:(rewrite volume_app; exact Hv)) as Hf'.
  rewrite Ee in Hf'. destruct Hf' as [left' Hf']. exists timed, left'. split; [exact Hf'|]. rewrite exported_app, Hev, app_nil_r. exact Hx.
Qed.

(** Anything that touches neither the rings, the waits nor the note. *)
Lemma placed_frame h h' evs :
  placed h -> rings (ma_shared (nt_machine (actual h'))) = rings (ma_shared (nt_machine (actual h))) ->
  ma_next (nt_machine (actual h')) = ma_next (nt_machine (actual h)) -> taken (actual h') = taken (actual h) ->
  events h' = events h ++ evs -> exported evs = [] -> placed h'.
Proof using exported_app. unfold placed. intros Hp -> -> -> -> Hev. rewrite exported_app, Hev, app_nil_r. exact Hp. Qed.

Lemma placed_collect now h h' evs :
  placed h -> ma_next (nt_machine (actual h')) = ma_next (nt_machine (actual h)) -> taken (actual h') = taken (actual h) -> events h' = events h ++ evs ->
  (forall w left, length (rings (ma_shared (nt_machine (actual h)))) = n -> zone_holds bytes wf (rings (ma_shared (nt_machine (actual h)))) w left ->
     rings (ma_shared (nt_machine (actual h'))) = map (fun r => snd (pop_all 2500 r)) (rings (ma_shared (nt_machine (actual h)))) /\
     exported evs = map (render now) (concat (map (take 2500) left))) ->
  placed h'.
Proof using exported_app.
  unfold placed. intros Hp -> -> -> Hc Hv. destruct (Hp Hv) as (timed & left & Hf & Hx).
  destruct (Hc _ left (fl_rings _ _ _ _ _ _ _ _ _ _ _ Hf) (fl_left _ _ _ _ _ _ _ _ _ _ _ Hf)) as [Hr He].
  exists (timed ++ [(now, map (take 2500) left)]), (map (drop 2500) left). rewrite Hr, map_app. split; [apply flows_collect, Hf|].
  rewrite exported_app, Hx, He. unfold shown. rewrite map_app, concat_app. cbn. rewrite app_nil_r. reflexivity.
Qed.
End placed.

Abbreviation spans_placed := (placed span_bytes span_wf sh_spans new_spans nt_spans exported_spans (fun _ => expected_span)).
Abbreviation accesses_placed :=
  (placed access_bytes req_wf (fun s => map wz_access (sh_logs s)) new_accesses nt_accesses exported_accesses (fun now q => access_log_record q now)).

Lemma exported_spans_app evs evs' : exported_spans (evs ++ evs') = exported_spans evs ++ exported_spans evs'.
Proof using. unfold exported_spans, span_batches. rewrite !concat_filter, bind_app, map_app, concat_app. reflexivity. Qed.
Lemma exported_accesses_app evs evs' : exported_accesses (evs ++ evs') = exported_accesses evs ++ exported_accesses evs'.
Proof using. unfold exported_accesses, log_batches. rewrite !concat_filter, bind_app, map_app, concat_app, list.filter_app. reflexivity. Qed.

(** Where the records are, on good memory. *)
Definition in_place (start lost lost' : Z) (before : list (list span_record)) (before' : list (list sampled_request)) (h : history noted) : Prop :=
  good (ma_shared (nt_machine (actual h))) /\ spans_placed start lost before h /\ accesses_placed start lost' before' h.

(** A wait that the exporter makes. *)
Lemma in_place_wait start lost lost' before before' h m' evs :
  ma_next m' = S (ma_next (nt_machine (actual h))) ->
  ma_shared m' = meanwhile (ma_next (nt_machine (actual h))) (ma_shared (nt_machine (actual h))) ->
  exported_spans evs = [] -> exported_accesses evs = [] ->
  in_place start lost lost' before before' h -> in_place start lost lost' before before' (mk_history (note_wait m' (actual h)) (events h ++ evs)).
Proof using Workers0.
  intros Hk Hs Hes Hea (Hg & Hp & Ha). split; [cbn [actual note_wait nt_machine]; rewrite Hs; apply wk_good, Hg|]. split.
  - pose proof (placed_wait span_bytes span_wf emit_span_record (fun _ _ => eq_refl) sh_spans new_spans nt_spans exported_spans (fun _ => expected_span)
      exported_spans_app wk_spans_wf start lost before h (mk_history (note_wait m' (actual h)) (events h ++ evs)) evs Hp Hes eq_refl Hk) as Hw.
    destruct (emit_spans _ _) as [took rings'] eqn:Ee. apply Hw; cbn [actual note_wait nt_spans nt_machine]; [rewrite Ee; reflexivity|].
    rewrite Hs, wk_spans, Ee by exact Hg. reflexivity.
  - pose proof (placed_wait access_bytes req_wf emit_access_record (fun _ _ => eq_refl) (fun s => map wz_access (sh_logs s)) new_accesses nt_accesses exported_accesses
      (fun now q => access_log_record q now) exported_accesses_app wk_accesses_wf start lost' before' h (mk_history (note_wait m' (actual h)) (events h ++ evs)) evs Ha Hea eq_refl Hk) as Hw.
    destruct (emit_accesses _ _) as [took rings'] eqn:Ee. apply Hw; cbn [actual note_wait nt_accesses nt_machine]; [rewrite Ee; reflexivity|].
    rewrite Hs, wk_accesses, Ee by exact Hg. reflexivity.
Qed.

(** Anything that touches neither rings, waits nor notes. *)
Lemma in_place_frame start lost lost' before before' h h' evs :
  (good (ma_shared (nt_machine (actual h))) -> good (ma_shared (nt_machine (actual h')))) ->
  sh_spans (ma_shared (nt_machine (actual h'))) = sh_spans (ma_shared (nt_machine (actual h))) ->
  sh_logs (ma_shared (nt_machine (actual h'))) = sh_logs (ma_shared (nt_machine (actual h))) ->
  ma_next (nt_machine (actual h')) = ma_next (nt_machine (actual h)) -> nt_spans (actual h') = nt_spans (actual h) ->
  nt_accesses (actual h') = nt_accesses (actual h) -> events h' = events h ++ evs -> exported_spans evs = [] -> exported_accesses evs = [] ->
  in_place start lost lost' before before' h -> in_place start lost lost' before before' h'.
Proof using.
  intros Hg Hs Hl Hk Ht Ht' He Hes Hea (H2 & Hp & Ha). split; [apply Hg, H2|].
  split; eapply placed_frame; eauto using exported_spans_app, exported_accesses_app. cbv beta. rewrite Hl. reflexivity.
Qed.

#[local] Instance in_place_kept start lost lost' before before' : WorldKeeps exporter_config (in_place start lost lost' before before').
Proof.
  split.
  - intros c h. apply (in_place_frame _ _ _ _ _ h _ []); try reflexivity; [apply wk_control|]. cbn. rewrite app_nil_r. reflexivity.
  - intros c h. cbn [collect_all_sources history_world noted_world system_world machine_world].
    pose proof (wk_blocks c (ma_shared (nt_machine (actual h)))) as Hb.
    destruct (Sources.collect_all_sources _ _ _ _ _) as [b blocks]. apply (in_place_frame _ _ _ _ _ h _ [EvMetrics b (sh_msec (ma_shared (nt_machine (actual h))))]); try reflexivity. exact Hb.
  - intros l bytes budget h. cbn [send history_world noted_world system_world machine_world].
    destruct (send_batch _ _ _ _ _ _ _ _ _ _ _) as [[[r x] tk] o]. cbn [snd]. apply in_place_wait; reflexivity.
  - intros ms h. apply in_place_wait; reflexivity.
  - intros x h (Hg & Hp & Ha). unfold collect_logs. destruct h as [[m ts ta] evs].
    destruct (logs_zone (mk_history (mk_noted m ts ta) evs)) as [zone|] eqn:Ez; [|split_and!; assumption].
    assert (Em : Some zone = mapped (logs_shm_base data_offset amcf) (sh_logs (ma_shared m))) by (symmetry; exact Ez).
    unfold mapped in Em. destruct (logs_shm_base data_offset amcf) eqn:Eb; [|discriminate]. injection Em as ->.
    change (now_unix_nano (mk_history (mk_noted m ts ta) evs)) with (sh_nano (ma_shared m)).
    destruct (collect_log_records _ _ _ _ _) as [[b d] zone'] eqn:Ec. cbn [snd]. split_and!.
    + apply wk_set_logs; [exact Hg|]. pose proof (collect_logs_length (ec_resource exporter_config) (ec_error_log_enabled exporter_config)
        (get_n_workers (ec_n_active_workers exporter_config) (ec_logs_zone_workers exporter_config)) (sh_nano (ma_shared m)) (sh_logs (ma_shared m))) as Hl.
      rewrite Ec in Hl. exact Hl.
    + eapply (placed_frame _ _ _ _ _ _ _ exported_spans_app); [exact Hp|reflexivity..].
    + eapply (placed_collect _ _ _ _ _ _ _ exported_accesses_app _ _ _ (sh_nano (ma_shared m))); [exact Ha|reflexivity..|].
      intros w left Hl Hz. cbn in Hl, Hz. rewrite length_map in Hl.
      pose proof (collect_logs_zone (ec_resource exporter_config) (ec_error_log_enabled exporter_config) _ (sh_nano (ma_shared m)) _ _ Hz) as Hc.
      rewrite Hl, <- logs_read, Ec in Hc. split; [exact (proj1 Hc)|]. unfold exported_accesses, log_batches. rewrite concat_filter. cbn.
      rewrite Eb. cbn. cbn in Ec. rewrite Ec. cbn. rewrite app_nil_r. exact (proj2 Hc).
  - intros x h (Hg & Hp & Ha). unfold collect_spans. destruct h as [[m ts ta] evs].
    destruct (spans_zone (mk_history (mk_noted m ts ta) evs)) as [zone|] eqn:Ez; [|split_and!; assumption].
    assert (Em : Some zone = mapped (spans_shm_base data_offset amcf) (sh_spans (ma_shared m))) by (symmetry; exact Ez).
    unfold mapped in Em. destruct (spans_shm_base data_offset amcf) eqn:Eb; [|discriminate]. injection Em as ->.
    change (now_unix_nano (mk_history (mk_noted m ts ta) evs)) with (sh_nano (ma_shared m)).
    destruct (collect_span_records _ _ _ _) as [[b d] zone'] eqn:Ec. cbn [snd]. split_and!.
    + apply wk_set_spans; [exact Hg|]. pose proof (collect_spans_length (ec_resource exporter_config)
        (get_n_workers (ec_n_active_workers exporter_config) (ec_spans_zone_workers exporter_config)) (sh_nano (ma_shared m)) (sh_spans (ma_shared m))) as Hl.
      rewrite Ec in Hl. exact Hl.
    + eapply (placed_collect _ _ _ _ _ _ _ exported_spans_app _ _ _ (sh_nano (ma_shared m))); [exact Hp|reflexivity..|].
      intros w left Hl Hz. cbn in Hl, Hz. pose proof (collect_spans_zone (ec_resource exporter_config) _ (sh_nano (ma_shared m)) _ _ Hz) as Hc.
      rewrite Hl, <- spans_read, Ec in Hc. split; [exact (proj1 Hc)|]. unfold exported_spans, span_batches. rewrite concat_filter. cbn.
      rewrite Eb. cbn. cbn in Ec. rewrite Ec. cbn. rewrite app_nil_r. exact (proj2 Hc).
    + eapply (placed_frame _ _ _ _ _ _ _ exported_accesses_app); [exact Ha|reflexivity..].
Qed.

(** Where each record that is written during a run ends up. *)
Lemma records_accounted `{!ProstLaws} fuel my_gen since m e x' m' start spans0 accesses0 :
  ma_next m = 0%nat -> good (ma_shared m) -> length (sh_spans (ma_shared m)) = n -> length (sh_logs (ma_shared m)) = n ->
  zone_holds span_bytes span_wf (sh_spans (ma_shared m)) start spans0 ->
  zone_holds access_bytes req_wf (map wz_access (sh_logs (ma_shared m))) start accesses0 ->
  export_iterations encode_pdata fuel exporter_config my_gen since initial_exporter m = Some (e, x', m') ->
  let spans := written new_spans (ma_next m') in let accesses := written new_accesses (ma_next m') in
  start + volume span_bytes spans <= u64_max -> start + volume access_bytes accesses <= u64_max ->
  exists evs, export_iterations encode_pdata fuel exporter_config my_gen since initial_exporter (observe m) = Some (e, x', mk_history m' evs) /\
  let logs_sent := log_batches (J := J) data_offset amcf master_pid evs in
  let spans_sent := span_batches (J := J) data_offset amcf master_pid evs in
  (exists taken timed left,
     flows span_bytes span_wf n start (drops (sh_spans (ma_shared m))) spans0 (sh_spans (ma_shared m')) spans taken (map snd timed) left /\
     concat (map sb_spans spans_sent) = shown (fun _ => expected_span) timed) /\
  (exists taken timed left,
     flows access_bytes req_wf n start (drops (map wz_access (sh_logs (ma_shared m)))) accesses0 (map wz_access (sh_logs (ma_shared m'))) accesses taken (map snd timed) left /\
     filter is_access (concat (map lb_logs logs_sent)) = shown (fun now q => access_log_record q now) timed) /\
  (forall b, b ∈ logs_sent -> read_logs (logs_request b) = Some b) /\ (forall b, b ∈ spans_sent -> read_spans (traces_request b) = Some b) /\
  (e = Drained -> given_up LLogs evs = [] -> given_up LSpans evs = [] -> DROPPED_RECORDS (stats x') = 0 ->
   records_offered (J := J) data_offset amcf master_pid evs < 2 ^ 64 ->
   settled LLogs evs ≡ₚ map (fun b => serialize_logs (logs_request b)) logs_sent /\
   settled LSpans evs ≡ₚ map (fun b => serialize_traces (traces_request b)) spans_sent).
Proof.
  intros E0 Hg Hn Hn' Hz Hz' Er spans accesses Hv Hv'. apply run_delivers in Er as (evs & Er & _ & _ & _ & _ & Hb & Hb' & Hd); [|assumption].
  pose proof (iterations_hom (history_map nt_machine) encode_pdata exporter_config my_gen fuel since initial_exporter (observe (mk_noted m [] []))) as Hh.
  apply (eq_trans (eq_sym Er)) in Hh.
  destruct (export_iterations encode_pdata fuel exporter_config my_gen since initial_exporter (observe (mk_noted m [] []))) as [[[e1 x1] h]|] eqn:En; [|discriminate].
  assert (Hp : in_place start (drops (sh_spans (ma_shared m))) (drops (map wz_access (sh_logs (ma_shared m)))) spans0 accesses0 (observe (mk_noted m [] []))).
  { unfold in_place, placed, observe. cbn [actual events nt_machine nt_spans nt_accesses]. rewrite E0. split; [exact Hg|].
    split; intros _; [exists [], spans0|exists [], accesses0]; (split; [apply flows_start|reflexivity]); rewrite ?length_map; assumption. }
  apply (iterations_keep _ _ _ _ _ _ _ _ _ _ _ Hp) in En as (_ & Kp & Ka). cbn in Hh. injection Hh as -> -> Em Ee. unfold placed in Kp, Ka.
  rewrite <- Em, <- Ee in Kp, Ka. exists evs. split; [exact Er|]. cbv zeta. split_and!; [|  |exact Hb|exact Hb'|exact Hd].
  - destruct (Kp Hv) as (timed & left & Hf & Hx). exists (nt_spans (actual h)), timed, left. split; [exact Hf|exact Hx].
  - destruct (Ka Hv') as (timed & left & Hf & Hx). exists (nt_accesses (actual h)), timed, left. split; [exact Hf|exact Hx].
Qed.
End system.

