(* ===== verification/Serve.v ===== *)
(** * Serving requests while the exporter works

    The workers of [System] run the module's log-phase handler ([Request]) on the requests they finish: each call
    reads and writes the worker's block of the metrics zone and its two rings.  The theorem follows a
    finished request to the body the collector took. *)
From stdpp Require Import relations gmap.
From S2P Require Import Prelude Ring Histogram DataModel StdText Producer AccessLog Slots SpanRecord Coalesce ErrorLog Processor ShmLayout Endpoint Collect Outcome Backoff Control.
From S2P Require Import Config Location SpanStart Request Aggregate Encoder Conn Tls Transport Drain Run Ledger Export System.
From S2P Require Sources.

(** ** One request *)

(** A finished request, as the worker that served it sees the world; its liveness latch is private memory. *)
Record job := mk_job { jb_env : log_env; jb_latch : Z; jb_request : log_request }.
Definition jb_worker (j : job) : nat := Z.to_nat (le_worker (jb_env j)).

(** A worker's part of the shared memory. *)
Definition memory_of (s : shared) (w : nat) (latch : Z) : option worker_mem :=
  block ← sh_blocks s !! w; logs ← sh_logs s !! w; spans ← sh_spans s !! w;
  Some (mk_wm block (wz_access logs) spans latch []).
Definition put_memory (w : nat) (m : worker_mem) (s : shared) : shared :=
  sh_set_blocks (<[w := wm_slots m]> (sh_blocks s))
    (sh_set_logs (alter (fun wz => Collect.mk_zone (wm_access m) (wz_error wz) (wz_coalesce wz)) w (sh_logs s))
      (sh_set_spans (<[w := wm_spans m]> (sh_spans s)) s)).

(** Good memory: a block and two rings per worker, and the blocks have their shape. *)
Record well_shaped (n : nat) (s : shared) : Prop := {
  ws_spans : length (sh_spans s) = n;
  ws_logs : length (sh_logs s) = n;
  ws_blocks : length (sh_blocks s) = n;
  ws_slots : Forall slots_wf (sh_blocks s)
}.

(** Writes in sequence. *)
Lemma emit_all_app {R} emit (es es' : list (nat * R)) : forall rings,
  snd (emit_all emit rings (es ++ es')) = snd (emit_all emit (snd (emit_all emit rings es)) es').
Proof.
  induction es as [|e es IH]; intros rings; [reflexivity|]. cbn [app emit_all]. destruct (worker_emit emit rings e) as [ok rings1].
  specialize (IH rings1). destruct (emit_all emit rings1 (es ++ es')), (emit_all emit rings1 es). cbn [snd] in *. exact IH.
Qed.
Lemma emit_one {R} emit (bytes : R -> list Z) rings w r rec : (forall p rec, emit p rec = worker_ring_push p (bytes rec)) -> rings !! w = Some r ->
  snd (emit_all emit rings [(w, rec)]) = <[w := snd (push r (bytes rec))]> rings.
Proof.
  intros Hp Hr. cbn [emit_all]. unfold worker_emit. cbn [fst snd]. rewrite Hr, Hp. unfold worker_ring_push. cbn [wrp_ring].
  destruct (push r (bytes rec)) as [[] r']; reflexivity.
Qed.

Lemma access_alter g zone : forall w,
  map wz_access (alter (fun wz => Collect.mk_zone g (wz_error wz) (wz_coalesce wz)) w zone) = <[w := g]> (map wz_access zone).
Proof. induction zone as [|wz zone IH]; intros [|w]; cbn; try reflexivity. f_equal. apply IH. Qed.

Section serve.
Context (data_offset : Z) (amcf : main_config).

Definition serve (s : shared) (j : job) : shared :=
  match memory_of s (jb_worker j) (jb_latch j) with
  | None => s
  | Some m => match log_phase_handler data_offset (jb_env j) (Some amcf) (jb_request j) m with
              | Some m => put_memory (jb_worker j) m s
              | None => s
              end
  end.
Definition serve_all (js : list job) (s : shared) : shared := foldl serve s js.

(** The records that requests offer, with their workers. *)
Definition spans_of (js : list job) : list (nat * span_record) :=
  omap (fun j => pair (jb_worker j) <$> offered_span data_offset (jb_env j) amcf (jb_request j)) js.
Definition accesses_of (js : list job) : list (nat * sampled_request) :=
  omap (fun j => pair (jb_worker j) <$> offered_access data_offset (jb_env j) amcf (jb_request j)) js.

(** The rings after the handler: it offers each what the request has for it. *)
Definition after_offer {R} (bytes : R -> list Z) (rec : option R) (r : ring) : ring :=
  match rec with Some rec => snd (push r (bytes rec)) | None => r end.

Lemma handler_rings e r m m' : le_worker e < min_indexed_worker_capacity data_offset amcf ->
  log_phase_handler data_offset e (Some amcf) r m = Some m' ->
  wm_access m' = after_offer access_bytes (offered_access data_offset e amcf r) (wm_access m) /\
  wm_spans m' = after_offer span_bytes (offered_span data_offset e amcf r) (wm_spans m).
Proof.
  intros Hw. unfold log_phase_handler, resolve_worker_slot. rewrite (proj2 (Z.leb_gt _ _)) by lia.
  set (m0 := match shm_base data_offset amcf with None => _ | Some _ => _ end).
  assert (Hm0 : forall m1, m0 = Some m1 -> wm_access m1 = wm_access m /\ wm_spans m1 = wm_spans m).
  { unfold m0. intros m1. destruct (shm_base data_offset amcf); [|intros [= <-]; auto].
    destruct (record_request_metrics _ _ _ _ _); [intros [= <-]; auto|discriminate]. }
  destruct m0 as [m1|]; [|discriminate]. destruct (Hm0 m1 eq_refl) as [<- <-]. cbn [mbind option_bind].
  rewrite (surjective_pairing (read_request_detail r _)). fold (emit_of e amcf r).
  assert (Ha : let m2 := maybe_emit_access_log data_offset e (emit_of e amcf r) (check_export_selected e r amcf) m1 in
    wm_access m2 = after_offer access_bytes (offered_access data_offset e amcf r) (wm_access m1) /\ wm_spans m2 = wm_spans m1).
  { unfold maybe_emit_access_log, offered_access. cbn [ec_amcf emit_of]. destruct (check_export_selected e r amcf); cbn [negb]; [|split; reflexivity].
    destruct (logs_shm_base data_offset amcf); cbn [fmap option_fmap option_map]; [|split; reflexivity].
    unfold emit_access_record, after_offer. cbn [lp_push ring_log_producer]. unfold worker_ring_push. cbn [wrp_ring].
    destruct (push (wm_access m1) _) as [[] g]; cbn [negb wrp_ring snd]; [split; reflexivity|].
    destruct (on_drop_frame e (Request.set_access g m1)) as (_ & -> & ->). split; reflexivity. }
  destruct Ha as [Ha1 Ha2]. set (m2 := maybe_emit_access_log _ _ _ _ _) in *. rewrite <- Ha1, <- Ha2. clearbody m2. clear Ha1 Ha2.
  unfold maybe_emit_span, offered_span. cbn [ec_r ec_amcf ec_meta emit_of]. destruct (sampled_ctx r) as [x|]; [|intros [= <-]; split; reflexivity].
  set (m3 := match shm_base data_offset amcf with Some _ => _ | None => _ end).
  assert (Hm3 : forall m4, m3 = Some m4 -> wm_access m4 = wm_access m2 /\ wm_spans m4 = wm_spans m2).
  { unfold m3. intros m4. destruct (shm_base data_offset amcf); [|intros [= <-]; auto].
    destruct (write_exemplar _ _ _); [intros [= <-]; auto|discriminate]. }
  destruct m3 as [m4|]; [|discriminate]. destruct (Hm3 m4 eq_refl) as [<- <-]. cbn [mbind option_bind].
  destruct (spans_shm_base data_offset amcf); cbn [fmap option_fmap option_map]; [|intros [= <-]; split; reflexivity].
  unfold emit_span_record, after_offer. cbn [lp_push ring_log_producer]. unfold worker_ring_push. cbn [wrp_ring].
  destruct (push (wm_spans m4) _) as [[] g]; cbn [negb wrp_ring snd]; intros [= <-]; [split; reflexivity|].
  destruct (on_drop_frame e (Request.set_spans g m4)) as (_ & -> & ->). split; reflexivity.
Qed.

(** A request that nginx can serve on one of [n] workers. *)
Record job_ok (n : nat) (j : job) : Prop := {
  jo_request : request_wf (jb_request j);
  jo_worker : 0 <= le_worker (jb_env j) < Z.of_nat n;
  jo_capacity : le_worker (jb_env j) < min_indexed_worker_capacity data_offset amcf
}.
Context (tables : tables_ok amcf).

(** Serving writes what the request offers, and keeps the memory in shape. *)
Lemma serve_spec n s j : well_shaped n s -> job_ok n j ->
  sh_spans (serve s j) = snd (emit_spans (sh_spans s) (spans_of [j])) /\
  map wz_access (sh_logs (serve s j)) = snd (emit_accesses (map wz_access (sh_logs s)) (accesses_of [j])) /\ well_shaped n (serve s j).
Proof.
  intros [Hs Hl Hb Hw] [Hr Hj Hc]. assert (Hi : (jb_worker j < n)%nat) by (unfold jb_worker; lia). unfold serve, memory_of.
  destruct (lookup_lt_is_Some_2 (sh_blocks s) (jb_worker j) ltac:(lia)) as [block Eb]. destruct (lookup_lt_is_Some_2 (sh_logs s) (jb_worker j) ltac:(lia)) as [wz El].
  destruct (lookup_lt_is_Some_2 (sh_spans s) (jb_worker j) ltac:(lia)) as [r Er]. rewrite Eb, El, Er. cbn [mbind option_bind].
  pose proof (Forall_lookup_1 _ _ _ _ Hw Eb) as Hsw. set (m := mk_wm block (wz_access wz) r (jb_latch j) []).
  destruct (handler_block data_offset (jb_env j) amcf (jb_request j) m tables Hsw ltac:(lia)) as (m' & E & _ & Hsw').
  rewrite E. apply handler_rings in E as [Ea Es]; [|exact Hc]. cbn [wm_access wm_spans m] in Ea, Es. split_and!.
  - cbn [put_memory sh_spans sh_set_blocks sh_set_logs sh_set_spans]. rewrite Es. unfold spans_of. cbn [omap list_omap].
    destruct (offered_span _ _ _ _) as [rec|]; cbn [fmap option_fmap option_map after_offer].
    + symmetry. apply emit_one; [reflexivity|exact Er].
    + apply list_insert_id, Er.
  - cbn [put_memory sh_logs sh_set_blocks sh_set_logs sh_set_spans]. rewrite Ea. unfold accesses_of. cbn [omap list_omap].
    rewrite access_alter. assert (Em : map wz_access (sh_logs s) !! jb_worker j = Some (wz_access wz)) by (rewrite list_lookup_fmap, El; reflexivity).
    destruct (offered_access _ _ _ _) as [rec|]; cbn [fmap option_fmap option_map after_offer].
    + symmetry. apply emit_one; [reflexivity|exact Em].
    + apply list_insert_id, Em.
  - cbn. split; cbn; rewrite ?length_insert, ?length_alter; try assumption. apply Forall_insert; assumption.
Qed.

Lemma spans_of_cons j js : spans_of (j :: js) = spans_of [j] ++ spans_of js.
Proof. unfold spans_of. cbn. destruct (offered_span _ _ _ _); reflexivity. Qed.
Lemma accesses_of_cons j js : accesses_of (j :: js) = accesses_of [j] ++ accesses_of js.
Proof. unfold accesses_of. cbn. destruct (offered_access _ _ _ _); reflexivity. Qed.

Lemma serve_all_spec n js : forall s, well_shaped n s -> Forall (job_ok n) js ->
  sh_spans (serve_all js s) = snd (emit_spans (sh_spans s) (spans_of js)) /\
  map wz_access (sh_logs (serve_all js s)) = snd (emit_accesses (map wz_access (sh_logs s)) (accesses_of js)) /\ well_shaped n (serve_all js s).
Proof.
  induction js as [|j js IH]; intros s Hs Hj; [split_and!; [reflexivity..|exact Hs]|]. inversion_clear Hj as [|? ? Hj1 Hj2].
  destruct (serve_spec n s j Hs Hj1) as (E1 & E2 & Hs1). destruct (IH (serve s j) Hs1 Hj2) as (I1 & I2 & I3).
  change (serve_all (j :: js) s) with (serve_all js (serve s j)). rewrite spans_of_cons, accesses_of_cons, !emit_all_app, <- E1, <- E2. auto.
Qed.

Lemma offers_wf n js : Forall (job_ok n) js ->
  Forall (fun e => (fst e < n)%nat /\ span_wf (snd e)) (spans_of js) /\ Forall (fun e => (fst e < n)%nat /\ req_wf (snd e)) (accesses_of js).
Proof.
  assert (Hw : forall j, job_ok n j -> (jb_worker j < n)%nat) by (intros j [_ Hj _]; unfold jb_worker; lia).
  induction 1 as [|j js Hj _ [IH1 IH2]]; [split; constructor|]. rewrite spans_of_cons, accesses_of_cons.
  split; apply Forall_app; (split; [|assumption]); unfold spans_of, accesses_of; cbn.
  - destruct (offered_span _ _ _ _) as [rec|] eqn:E; constructor; [|constructor]. split; [apply Hw, Hj|]. revert E. unfold offered_span.
    destruct (sampled_ctx _) eqn:Ex; [|discriminate]. destruct (spans_shm_base _ _); [|discriminate]. intros [= <-]. apply span_rec_wf; [apply Hj|exact Ex].
  - destruct (offered_access _ _ _ _) as [rec|] eqn:E; constructor; [|constructor]. split; [apply Hw, Hj|]. revert E. unfold offered_access.
    destruct (check_export_selected _ _ _); [|discriminate]. destruct (logs_shm_base _ _); [|discriminate]. intros [= <-]. apply access_record_wf, Hj.
Qed.

(** Collecting the metrics keeps the blocks in shape. *)
Lemma sources_shape n e start host s : well_shaped n s -> Sources.se_blocks e = sh_blocks s ->
  well_shaped n (sh_set_blocks (snd (Sources.collect_all_sources data_offset amcf e start host)) s).
Proof.
  intros [Hs Hl Hb Hw] Ee.
  assert (Hreset : forall blocks, snd (aggregate_worker_slots blocks) = map reset_block blocks).
  { intros blocks. unfold aggregate_worker_slots. assert (G : forall agg exs done,
      snd (foldl (fun '(agg, exs, done) s => (add_block agg s, exs ++ block_exemplars s, done ++ [reset_block s])) (agg, exs, done) blocks) = done ++ map reset_block blocks).
    { induction blocks as [|b blocks IH]; intros agg exs done; cbn [foldl map]; [symmetry; apply app_nil_r|]. rewrite IH, <- app_assoc. reflexivity. }
    apply G. }
  assert (Hx : snd (Sources.collect_all_sources data_offset amcf e start host) =
    match shm_base data_offset amcf with
    | Some _ => map reset_block (take (Z.to_nat (Sources.metrics_n_workers data_offset amcf)) (sh_blocks s)) ++ drop (Z.to_nat (Sources.metrics_n_workers data_offset amcf)) (sh_blocks s)
    | None => sh_blocks s end).
  { unfold Sources.collect_all_sources. rewrite Ee. destruct (shm_base data_offset amcf); [|reflexivity]. unfold instrumented_collect.
    rewrite <- Hreset. destruct (aggregate_worker_slots _) as [[agg exs] done]. reflexivity. }
  rewrite Hx. split; cbn; [exact Hs|exact Hl| |]; destruct (shm_base data_offset amcf); try assumption.
  - rewrite length_app, length_map, <- length_app, take_drop. exact Hb.
  - rewrite <- (take_drop (Z.to_nat (Sources.metrics_n_workers data_offset amcf)) (sh_blocks s)) in Hw. apply Forall_app in Hw as [H1 H2]. apply Forall_app. split; [|exact H2].
    apply Forall_map. eapply Forall_impl; [|exact H1]. intros b (L1 & L2 & L3 & L4). unfold slots_wf. cbn. rewrite length_map. auto.
Qed.
End serve.

(** ** From the request to the collector *)

Section requests.
Context (hl : http_lib).
Context (decode_response : otlp_signal -> list Z -> option (option Z)).
Context (decode_status : list Z -> option (list (list Z * list Z))).
Context (decode_retry_info : list Z -> option (option (Z * Z))).
Context `{Prost}.
Context {J : Type} `{EmptyObject J}.
Context (data_offset : Z) (amcf : main_config) (stat_stub : bool) (master_pid : Z) (worker_start_ns : Z) (restarts : Z) (collector_host : list Z).
(** At each wait: what the network answers, the requests that are finished, and whatever else happens. *)
Context (sends : nat -> network) (jobs : nat -> list job) (others : nat -> shared -> shared).

Definition requests_meanwhile (k : nat) (s : shared) : shared := others k (serve_all data_offset amcf (jobs k) s).

#[local] Instance requests_world : World machine :=
  system_world hl decode_response decode_status decode_retry_info data_offset amcf stat_stub master_pid worker_start_ns restarts collector_host sends requests_meanwhile.

Abbreviation exporter_config := (loop_config (J := J) data_offset amcf master_pid).

Context (n : nat) (tables : tables_ok amcf).
Context (spans_read : get_n_workers (ec_n_active_workers exporter_config) (ec_spans_zone_workers exporter_config) = n).
Context (logs_read : get_n_workers (ec_n_active_workers exporter_config) (ec_logs_zone_workers exporter_config) = n).
Context (jobs_ok : forall k, Forall (job_ok data_offset amcf n) (jobs k)).
(** The rest of the system may write error logs, metrics of other origin and the control page; it keeps the workers' rings. *)
Context (others_frame : forall k s, well_shaped n s ->
  sh_spans (others k s) = sh_spans s /\ map wz_access (sh_logs (others k s)) = map wz_access (sh_logs s) /\ well_shaped n (others k s)).

#[local] Instance serving_workers :
  Workers data_offset amcf stat_stub master_pid worker_start_ns restarts collector_host requests_meanwhile n (well_shaped n)
    (fun k => spans_of data_offset amcf (jobs k)) (fun k => accesses_of data_offset amcf (jobs k)).
Proof.
  split.
  - intros k. apply offers_wf; auto.
  - intros k. apply offers_wf; auto.
  - intros k s Hs. destruct (serve_all_spec data_offset amcf tables n (jobs k) s Hs (jobs_ok k)) as (E & _ & Hs').
    unfold requests_meanwhile. destruct (others_frame k _ Hs') as (-> & _). exact E.
  - intros k s Hs. destruct (serve_all_spec data_offset amcf tables n (jobs k) s Hs (jobs_ok k)) as (_ & E & Hs').
    unfold requests_meanwhile. destruct (others_frame k _ Hs') as (_ & -> & _). exact E.
  - intros k s Hs. apply others_frame. apply serve_all_spec; auto.
  - intros c s []. split; assumption.
  - intros z s [] Hz. split; try assumption. cbn. congruence.
  - intros z s [] Hz. split; try assumption. cbn. congruence.
  - intros c s Hs. apply sources_shape; [exact Hs|reflexivity].
Qed.

(** C2 (invariant). No record of a request is lost without a trace between the worker and the collector.  Let the workers finish any requests
    at any moment the exporter waits, each through the log-phase handler, and let the rest of the system do anything that leaves their rings
    alone, in particular write error logs.  Run the loop as configured with any network and collector, until less than 2^64 bytes were
    written.  Then each access record and span that a request offered was either taken by its worker's ring or counted there as
    dropped; for each worker, what the collections took of its records, followed by what is still in its ring, is what the
    ring held at first followed by what it took since, in order; the spans and access records of the batches are exactly those that
    the collections took; each batch can be read back from its request; and if the loop came to its final drain, no send
    of that drain failed and the counter of dropped records is zero, the collector settled the request of each batch, once.
    About: log_phase_handler, maybe_emit_access_log, maybe_emit_span, emit_span_record, emit_access_record, push, export_iterations, collect_logs, collect_spans,
    collect_log_records, collect_span_records, loop_config, encode_pdata, logs_request, traces_request. *)
Theorem every_request_accounted `{!ProstLaws} fuel my_gen since m e x' m' start spans0 accesses0 :
  ma_next m = 0%nat -> well_shaped n (ma_shared m) ->
  zone_holds span_bytes span_wf (sh_spans (ma_shared m)) start spans0 ->
  zone_holds access_bytes req_wf (map wz_access (sh_logs (ma_shared m))) start accesses0 ->
  export_iterations encode_pdata fuel exporter_config my_gen since initial_exporter m = Some (e, x', m') ->
  let spans := written (fun k => spans_of data_offset amcf (jobs k)) (ma_next m') in
  let accesses := written (fun k => accesses_of data_offset amcf (jobs k)) (ma_next m') in
  start + volume span_bytes spans <= u64_max -> start + volume access_bytes accesses <= u64_max ->
  exists evs, export_iterations encode_pdata fuel exporter_config my_gen since initial_exporter (observe m) = Some (e, x', mk_history m' evs) /\
  let logs_sent := log_batches (J := J) data_offset amcf master_pid evs in
  let spans_sent := span_batches (J := J) data_offset amcf master_pid evs in
  (exists taken timed left,
     flows span_bytes span_wf n start (drops (sh_spans (ma_shared m))) spans0 (sh_spans (ma_shared m')) spans taken (map snd timed) left /\
     concat (map sb_spans spans_sent) = shown (fun _ => expected_span) timed) /\
  (exists taken timed left,
     flows access_bytes req_wf n start (drops (map wz_access (sh_logs (ma_shared m)))) accesses0 (map wz_access (sh_logs (ma_shared m'))) accesses taken (map snd timed) left /\
     filter is_access (concat (map lb_logs logs_sent)) = shown (fun now q => access_log_record q now) timed) /\
  (forall b, b ∈ logs_sent -> read_logs (logs_request b) = Some b) /\ (forall b, b ∈ spans_sent -> read_spans (traces_request b) = Some b) /\
  (e = Drained -> given_up LLogs evs = [] -> given_up LSpans evs = [] -> DROPPED_RECORDS (stats x') = 0 ->
   records_offered (J := J) data_offset amcf master_pid evs < 2 ^ 64 ->
   settled LLogs evs ≡ₚ map (fun b => serialize_logs (logs_request b)) logs_sent /\
   settled LSpans evs ≡ₚ map (fun b => serialize_traces (traces_request b)) spans_sent).
Proof.
  intros E0 Hw. apply records_accounted with (good := well_shaped n); try apply Hw; assumption || apply _.
Qed.
End requests.

(** ** Two requests, and room for one span *)

Definition busy_main : main_config :=
  set_logs_shm_zone (Some (Config.mk_zone 65536 (logs_zone_size_for 0 1 DEFAULT_LOG_RING_CAP)))
    (set_spans_shm_zone (Some (Config.mk_zone 131072 (spans_zone_size_for 0 1 DEFAULT_SPAN_RING_CAP))) live_main).
Definition busy_job : job := mk_job (mk_lenv 0 (1700000001 * 1000000000) 5000000 (fun _ => None) (fun _ => None) None 0) 0 served_request.
Definition busy_jobs (k : nat) : list job := if bool_decide (k = 0)%nat then [busy_job; busy_job] else [].
Definition busy_others (_ : nat) (s : shared) : shared := tick_on s.
Definition busy_sends (k : nat) : network := (mo_send (live_moment 1 k), []).
Definition busy_shared : shared := sh_set_blocks [zero_block] (sh_set_spans [fresh_ring 256] live_shared).
Definition busy_machine (st : started) (l : ledger) : machine := mk_machine busy_shared (st_transport st) no_tasks (l, quiet_ngx) 0.
Definition busy_world : World machine :=
  requests_world sample_http (fun _ _ => None) (fun _ => None) (fun _ => None) 0 busy_main false 7 0 0 $"otel.example" busy_sends busy_jobs busy_others.
Definition busy_config : export_config := loop_config (J := json) 0 busy_main 7.
Abbreviation busy_on m := (@export_iterations machine busy_world encode_pdata 5 busy_config 1 0 initial_exporter m).
Abbreviation busy_watched m :=
  (@export_iterations (history machine) (@history_world machine busy_world) encode_pdata 5 busy_config 1 0 initial_exporter (observe m)).

Lemma busy_drains : exists st l1, start_export sample_http sample_ctx busy_main sample_ledger = (Some st, l1) /\
  exists x' m', busy_on (busy_machine st l1) = Some (Drained, x', m') /\ ma_next m' = 7%nat.
Proof. do 2 eexists. split; [vm_compute; reflexivity|]. vm_compute. eauto. Qed.

(** What was left behind, and the number of spans and logs in each batch. *)
Definition busy_summary (x : exporter) (evs : list event) : (list (list Z) * list (list Z)) * (Z * bool) * (list nat * list nat) :=
  ((given_up LLogs evs, given_up LSpans evs), (DROPPED_RECORDS (stats x), records_offered (J := json) 0 busy_main 7 evs <? 2 ^ 64),
   (map (fun b => length (sb_spans b)) (span_batches (J := json) 0 busy_main 7 evs), map (fun b => length (lb_logs b)) (log_batches (J := json) 0 busy_main 7 evs))).

Lemma busy_history st l1 e x' m' evs : start_export sample_http sample_ctx busy_main sample_ledger = (Some st, l1) ->
  busy_watched (busy_machine st l1) = Some (e, x', mk_history m' evs) -> busy_summary x' evs = (([], []), (0, true), ([1%nat], [3%nat])).
Proof.
  intros Es E. assert (C : match start_export sample_http sample_ctx busy_main sample_ledger with
    | (Some st, l1) => (fun '(_, x', h) => busy_summary x' (events h)) <$> busy_watched (busy_machine st l1)
    | _ => None end = Some (([], []), (0, true), ([1%nat], [3%nat]))) by (vm_compute; reflexivity).
  rewrite Es, E in C. apply Some_inj in C. exact C.
Qed.

Lemma busy_job_ok : job_ok 0 busy_main 1 busy_job.
Proof.
  split; [|split; vm_compute; congruence|vm_compute; reflexivity].
  split; [cbn; split_and!; try (vm_compute; reflexivity); split; vm_compute; congruence| |vm_compute; discriminate].
  split; intros sa [= <-]; split; vm_compute; congruence.
Qed.
Lemma busy_jobs_ok k : Forall (job_ok 0 busy_main 1) (busy_jobs k).
Proof. unfold busy_jobs. case_bool_decide; repeat (constructor; try apply busy_job_ok). Qed.
Lemma busy_tables : tables_ok busy_main.
Proof.
  split; [exact (empty_names_ok ROUTE_CAP ROUTE_NAME_MAX ltac:(vm_compute; discriminate))
         |exact (empty_names_ok UPSTREAM_CAP UPSTREAM_NAME_MAX ltac:(vm_compute; discriminate))].
Qed.
Lemma busy_shape : well_shaped 1 busy_shared.
Proof. split; [reflexivity..|]. constructor; [apply zero_block_wf|constructor]. Qed.
Lemma busy_frame k s : well_shaped 1 s ->
  sh_spans (busy_others k s) = sh_spans s /\ map wz_access (sh_logs (busy_others k s)) = map wz_access (sh_logs s) /\ well_shaped 1 (busy_others k s).
Proof. intros []. split_and!; [reflexivity..|]. split; assumption. Qed.

Lemma busy_spans_held : zone_holds span_bytes span_wf (sh_spans busy_shared) 1000 [[]].
Proof. split; constructor; [apply fresh_holds_spans; unfold u32_max; lia|constructor|vm_compute; congruence|constructor]. Qed.
Lemma busy_accesses_held : zone_holds access_bytes req_wf (map wz_access (sh_logs busy_shared)) 1000 [[sample_req]].
Proof.
  split; constructor; [|constructor|vm_compute; congruence|constructor]. split.
  - exact (worker_ring_push_law (mk_producer (fresh_ring 1024)) [] (access_bytes sample_req) ltac:(apply fresh_ring_ok; unfold u32_max; lia) ltac:(vm_compute; congruence)).
  - constructor; [|constructor]. split; vm_compute; intuition congruence.
Qed.

Lemma every_request_accounted_witness : exists st l1 evs spans logs,
  start_export sample_http sample_ctx busy_main sample_ledger = (Some st, l1) /\
  span_batches (J := json) 0 busy_main 7 evs = [spans] /\ length (sb_spans spans) = 1%nat /\
  log_batches (J := json) 0 busy_main 7 evs = [logs] /\ length (lb_logs logs) = 3%nat /\
  settled LSpans evs = [serialize_traces (traces_request spans)] /\ settled LLogs evs = [serialize_logs (logs_request logs)].
Proof.
  destruct busy_drains as (st & l1 & Es & x' & m' & E & En).
  destruct (every_request_accounted (J := json) sample_http (fun _ _ => None) (fun _ => None) (fun _ => None) 0 busy_main false 7 0 0 $"otel.example"
    busy_sends busy_jobs busy_others 1 busy_tables eq_refl eq_refl busy_jobs_ok busy_frame
    5 1 0 (busy_machine st l1) Drained x' m' 1000 [[]] [[sample_req]] eq_refl busy_shape busy_spans_held busy_accesses_held E
    ltac:(rewrite En; vm_compute; congruence) ltac:(rewrite En; vm_compute; congruence)) as (evs & Er & _ & _ & _ & _ & Hd).
  pose proof (busy_history st l1 Drained x' m' evs Es Er) as Hh. unfold busy_summary in Hh. injection Hh as G1 G2 G3 G4 G5 G6.
  destruct (Hd eq_refl G1 G2 G3 ltac:(apply Z.ltb_lt; exact G4)) as [Hl Hs].
  destruct (span_batches (J := json) 0 busy_main 7 evs) as [|b [|b' bs]] eqn:Eb; [discriminate| |discriminate].
  destruct (log_batches (J := json) 0 busy_main 7 evs) as [|c [|c' cs]] eqn:Ec; [discriminate| |discriminate].
  exists st, l1, evs, b, c. injection G5 as Gb. injection G6 as Gc. cbn in Hl, Hs. apply Permutation_singleton_r in Hl, Hs.
  split_and!; assumption.
Defined.
