(* ===== verification/Meter.v ===== *)
(** * From the requests to the exported metrics

    The system of [Serve] with a metrics zone: while the exporter waits, workers finish requests and count them in their
    blocks; at each interval the exporter sums the blocks.  The theorem says what every batch of metrics counts, over a run of any length. *)
From stdpp Require Import relations gmap sorting.
From S2P Require Import Prelude Ring Histogram DataModel StdText Producer AccessLog Slots SpanRecord Coalesce ErrorLog Processor ShmLayout Endpoint Collect Outcome Backoff Control.
From S2P Require Import Config Location SpanStart Request Aggregate Encoder Conn Tls Transport Drain Run Ledger Export System Serve.
From S2P Require Sources.

(** ** The blocks while requests are served *)

(** The requests of one worker. *)
Definition visits_of (js : list job) (w : nat) : list visit := map (fun j => (jb_env j, jb_request j)) (filter (fun j => jb_worker j = w) js).

Lemma visits_app js js' w : visits_of (js ++ js') w = visits_of js w ++ visits_of js' w.
Proof. unfold visits_of. rewrite list.filter_app, map_app. reflexivity. Qed.

(** A block whose error-log counters were changed. *)
Definition with_error_counts (errs : list Z) (s : worker_slots) : worker_slots :=
  mk_slots (request_duration_combos s) (route_duration_combos s) (upstream_duration_combos s)
    (request_body_bytes s) (response_body_bytes s) (upstream_response_ms s) (upstream_header_ms s)
    (upstream_connect_ms s) (upstream_bytes_received s) (upstream_bytes_sent s) (exemplar_reservoirs s) errs.

Lemma block_inv_errors c all cyc errs s : block_inv c all cyc s -> block_inv c all cyc (with_error_counts errs s).
Proof. intros []. split; assumption. Qed.

(** Each block counts the requests [vs] of its worker. *)
Definition meters (c : main_config) (vs : nat -> list visit) (blocks : list worker_slots) : Prop :=
  forall w b, blocks !! w = Some b -> exists cyc, block_inv c (vs w) cyc b.

Section blocks.
Context (data_offset : Z) (amcf : main_config) (tables : tables_ok amcf) (base : Z) (mapped_zone : shm_base data_offset amcf = Some base).

Lemma serve_meters n s j vs : well_shaped n s -> job_ok data_offset amcf n j -> ids_ok (jb_request j) ->
  meters amcf vs (sh_blocks s) -> meters amcf (fun w => vs w ++ visits_of [j] w) (sh_blocks (serve data_offset amcf s j)).
Proof.
  intros [Hs Hl Hb Hw] [Hr Hj Hc] Hi Hm. assert (Hlt : (jb_worker j < n)%nat) by (unfold jb_worker; lia). unfold serve, memory_of.
  destruct (lookup_lt_is_Some_2 (sh_blocks s) (jb_worker j) ltac:(lia)) as [block Eb]. destruct (lookup_lt_is_Some_2 (sh_logs s) (jb_worker j) ltac:(lia)) as [wz El].
  destruct (lookup_lt_is_Some_2 (sh_spans s) (jb_worker j) ltac:(lia)) as [r Er]. rewrite Eb, El, Er. cbn [mbind option_bind].
  pose proof (Forall_lookup_1 _ _ _ _ Hw Eb) as Hsw. set (m := mk_wm block (wz_access wz) r (jb_latch j) []).
  destruct (handler_block data_offset (jb_env j) amcf (jb_request j) m tables Hsw ltac:(lia)) as (m' & E & _).
  rewrite E. cbn [put_memory sh_blocks sh_set_blocks]. intros w b Hlook.
  assert (Hv : visits_of [j] w = if decide (jb_worker j = w) then [(jb_env j, jb_request j)] else []).
  { unfold visits_of. rewrite filter_cons. destruct (decide _); reflexivity. }
  rewrite Hv. destruct (decide (jb_worker j = w)) as [<-|Hne].
  - rewrite list_lookup_insert_eq in Hlook by lia. injection Hlook as <-. destruct (Hm _ _ Eb) as [cyc Hcyc].
    exists (cyc ++ [(jb_env j, jb_request j)]). apply (block_inv_one data_offset amcf tables base mapped_zone _ _ m); [exact Hcyc|lia|exact Hi|exact E].
  - rewrite list_lookup_insert_ne in Hlook by exact Hne. rewrite app_nil_r. exact (Hm _ _ Hlook).
Qed.

Lemma serve_all_meters n js : forall s vs, well_shaped n s -> Forall (job_ok data_offset amcf n) js -> Forall (fun j => ids_ok (jb_request j)) js ->
  meters amcf vs (sh_blocks s) -> meters amcf (fun w => vs w ++ visits_of js w) (sh_blocks (serve_all data_offset amcf js s)).
Proof.
  induction js as [|j js IH]; intros s vs Hs Hj Hi Hm.
  - intros w b Hb. destruct (Hm w b Hb) as [cyc Hc]. exists cyc. cbn. rewrite app_nil_r. exact Hc.
  - inversion_clear Hj. inversion_clear Hi. change (serve_all data_offset amcf (j :: js) s) with (serve_all data_offset amcf js (serve data_offset amcf s j)).
    destruct (serve_spec data_offset amcf tables n s j Hs ltac:(assumption)) as (_ & _ & Hs1).
    pose proof (IH _ _ Hs1 ltac:(assumption) ltac:(assumption) (serve_meters n s j vs Hs ltac:(assumption) ltac:(assumption) Hm)) as Hm'.
    intros w b Hb. destruct (Hm' w b Hb) as [cyc Hc]. exists cyc. change (j :: js) with ([j] ++ js). rewrite visits_app, app_assoc. exact Hc.
Qed.

(** What a collection makes of them. *)
Lemma sources_meters n e start host vs : Sources.metrics_n_workers data_offset amcf = Z.of_nat n -> length (Sources.se_blocks e) = n ->
  meters amcf vs (Sources.se_blocks e) ->
  let '(b, blocks) := Sources.collect_all_sources data_offset amcf e start host in
  (exists front back now exs, b_metrics b = front ++ expected_metrics amcf start now (status_code_class_enabled amcf) (concat (map vs (seq 0 n))) exs ++ back) /\
  meters amcf vs blocks.
Proof.
  intros Hn Hl Hm. unfold Sources.collect_all_sources. rewrite mapped_zone, Hn, Nat2Z.id, take_ge, drop_ge by lia.
  assert (Hh : exists hist, Forall2 (fun s h => block_inv amcf (fst h) (snd h) s) (Sources.se_blocks e) hist /\ map fst hist = map vs (seq 0 n)).
  { clear -Hl Hm. revert n vs Hl Hm. induction (Sources.se_blocks e) as [|b blocks IH]; intros n vs Hl Hm; cbn in Hl; subst n.
    - exists []. split; [constructor|reflexivity].
    - destruct (IH (length blocks) (fun w => vs (S w)) eq_refl) as (hist & Hh & Eh); [intros w b' Hb; exact (Hm (S w) b' Hb)|].
      destruct (Hm 0%nat b eq_refl) as [cyc Hc]. exists ((vs 0%nat, cyc) :: hist). split; [constructor; assumption|].
      cbn [map seq fst]. f_equal. rewrite Eh, <- seq_shift, map_map. reflexivity. }
  destruct Hh as (hist & Hh & Eh). rewrite (collect_expected amcf _ _ _ _ hist Hh), Eh. rewrite app_nil_r. split.
  - cbn [b_metrics]. do 4 eexists. reflexivity.
  - intros w b Hb. apply list_lookup_fmap_Some in Hb as (b0 & -> & Hb). destruct (Hm w b0 Hb) as [cyc Hc]. exists []. exact (block_inv_reset amcf _ _ _ Hc).
Qed.
End blocks.

(** ** Every batch of metrics *)

(** The requests finished before the [k]-th wait. *)
Definition finished (jobs : nat -> list job) (k : nat) : list job := concat (map jobs (seq 0 k)).

Lemma finished_S jobs k : finished jobs (S k) = finished jobs k ++ jobs k.
Proof. unfold finished. rewrite seq_S, map_app, concat_app. cbn. rewrite app_nil_r. reflexivity. Qed.

Section metrics.
Context (hl : http_lib).
Context (decode_response : otlp_signal -> list Z -> option (option Z)).
Context (decode_status : list Z -> option (list (list Z * list Z))).
Context (decode_retry_info : list Z -> option (option (Z * Z))).
Context `{Prost}.
Context {J : Type} `{EmptyObject J}.
Context (data_offset : Z) (amcf : main_config) (stat_stub : bool) (master_pid : Z) (worker_start_ns : Z) (restarts : Z) (collector_host : list Z).
Context (sends : nat -> network) (jobs : nat -> list job) (others : nat -> shared -> shared).

#[local] Instance metrics_world : World machine :=
  requests_world hl decode_response decode_status decode_retry_info data_offset amcf stat_stub master_pid worker_start_ns restarts collector_host sends jobs others.

Abbreviation exporter_config := (loop_config (J := J) data_offset amcf master_pid).

Context (n : nat) (tables : tables_ok amcf) (base : Z) (mapped_zone : shm_base data_offset amcf = Some base).
Context (blocks_read : Sources.metrics_n_workers data_offset amcf = Z.of_nat n).
Context (jobs_ok : forall k, Forall (job_ok data_offset amcf n) (jobs k)) (jobs_ids : forall k, Forall (fun j => ids_ok (jb_request j)) (jobs k)).
(** The rest of the system keeps the shape of the memory and, in the blocks, changes the error-log counters only. *)
Context (others_shape : forall k s, well_shaped n s -> well_shaped n (others k s)).
Context (others_blocks : forall k s, Forall2 (fun b' b => exists errs, b' = with_error_counts errs b) (sh_blocks (others k s)) (sh_blocks s)).

(** Neither a wait nor a look at the metrics. *)
Definition quiet_event (ev : event) : Prop := match ev with EvLogs _ _ | EvSpans _ _ => True | _ => False end.

Lemma quiet_events evs k : Forall quiet_event evs -> waits evs = 0%nat /\ metric_looks k evs = [].
Proof using. induction 1 as [|ev evs He _ IH]; [auto|]. destruct ev; try contradiction; exact IH. Qed.

(** Collecting logs or spans leaves the blocks and the metrics alone. *)
Definition blocks_kept (h h' : history machine) : Prop :=
  well_shaped n (ma_shared (actual h')) /\ sh_blocks (ma_shared (actual h')) = sh_blocks (ma_shared (actual h)) /\ ma_next (actual h') = ma_next (actual h) /\
  exists evs, events h' = events h ++ evs /\ Forall quiet_event evs.

Lemma blocks_kept_refl h : well_shaped n (ma_shared (actual h)) -> blocks_kept h h.
Proof using. intros Hs. split_and!; [exact Hs|reflexivity..|]. exists []. rewrite app_nil_r. split; [reflexivity|constructor]. Qed.

Lemma logs_frame x h : well_shaped n (ma_shared (actual h)) -> blocks_kept h (snd (collect_logs exporter_config x h)).
Proof using.
  intros Hs. unfold collect_logs. destruct (logs_zone h) as [zone|] eqn:Ez; [|apply blocks_kept_refl, Hs].
  pose proof (collect_logs_length (ec_resource exporter_config) (ec_error_log_enabled exporter_config)
    (get_n_workers (ec_n_active_workers exporter_config) (ec_logs_zone_workers exporter_config)) (now_unix_nano h) zone) as Hl.
  destruct (collect_log_records _ _ _ _ _) as [[b d] zone']. cbn [snd] in *. destruct Hs as [S1 S2 S3 S4].
  assert (Em : Some zone = mapped (logs_shm_base data_offset amcf) (sh_logs (ma_shared (actual h)))) by (symmetry; exact Ez).
  unfold mapped in Em. destruct (logs_shm_base data_offset amcf); [|discriminate]. injection Em as ->.
  split_and!; [|reflexivity..|eexists [_]; split; [reflexivity|repeat constructor]]. split; try assumption. cbn. rewrite <- S2. exact Hl.
Qed.

Lemma spans_frame x h : well_shaped n (ma_shared (actual h)) -> blocks_kept h (snd (collect_spans exporter_config x h)).
Proof using.
  intros Hs. unfold collect_spans. destruct (spans_zone h) as [zone|] eqn:Ez; [|apply blocks_kept_refl, Hs].
  pose proof (collect_spans_length (ec_resource exporter_config)
    (get_n_workers (ec_n_active_workers exporter_config) (ec_spans_zone_workers exporter_config)) (now_unix_nano h) zone) as Hl.
  destruct (collect_span_records _ _ _ _) as [[b d] zone']. cbn [snd] in *. destruct Hs as [S1 S2 S3 S4].
  assert (Em : Some zone = mapped (spans_shm_base data_offset amcf) (sh_spans (ma_shared (actual h)))) by (symmetry; exact Ez).
  unfold mapped in Em. destruct (spans_shm_base data_offset amcf); [|discriminate]. injection Em as ->.
  split_and!; [|reflexivity..|eexists [_]; split; [reflexivity|repeat constructor]]. split; try assumption. cbn. rewrite <- S1. exact Hl.
Qed.

(** The batch counts exactly the requests finished before the [k]-th wait, on any worker. *)
Definition counts (k : nat) (b : batch) : Prop :=
  exists front back now exs, b_metrics b = front ++ expected_metrics amcf worker_start_ns now (status_code_class_enabled amcf)
    (concat (map (visits_of (finished jobs k)) (seq 0 n))) exs ++ back.

Record metered (h : history machine) : Prop := {
  mt_shape : well_shaped n (ma_shared (actual h));
  mt_blocks : meters amcf (visits_of (finished jobs (ma_next (actual h)))) (sh_blocks (ma_shared (actual h)));
  mt_waits : waits (events h) = ma_next (actual h);
  mt_batches : Forall (fun '(k, b) => counts k b) (metric_looks 0 (events h))
}.

(** Anything that leaves blocks and waits alone. *)
Lemma metered_frame h h' evs : metered h -> well_shaped n (ma_shared (actual h')) -> sh_blocks (ma_shared (actual h')) = sh_blocks (ma_shared (actual h)) ->
  ma_next (actual h') = ma_next (actual h) -> events h' = events h ++ evs -> Forall quiet_event evs -> metered h'.
Proof using.
  intros [G1 G2 G3 G4] Hs Hb Hk He Hn. destruct (quiet_events evs (0 + waits (events h)) Hn) as [Q1 Q2].
  split; [exact Hs|rewrite Hb, Hk; exact G2|rewrite Hk, He, waits_app, Q1, Nat.add_0_r; exact G3|]. rewrite He, metric_looks_app, Q2, app_nil_r. exact G4.
Qed.

Lemma metered_wait h m' ev : metered h -> ma_next m' = S (ma_next (actual h)) ->
  ma_shared m' = others (ma_next (actual h)) (serve_all data_offset amcf (jobs (ma_next (actual h))) (ma_shared (actual h))) -> is_wait ev = true ->
  metered (mk_history m' (events h ++ [ev])).
Proof using tables mapped_zone jobs_ok jobs_ids others_shape others_blocks.
  intros [G1 G2 G3 G4] Hk Hs Hn. set (k := ma_next (actual h)) in *.
  pose proof (proj2 (proj2 (serve_all_spec data_offset amcf tables n (jobs k) _ G1 (jobs_ok k)))) as Hw. split; cbn [actual events].
  - rewrite Hs. apply others_shape, Hw.
  - rewrite Hs, Hk. intros w b Hb. destruct (Forall2_lookup_l _ _ _ _ _ (others_blocks k _) Hb) as (b0 & Hb0 & errs & ->).
    destruct (serve_all_meters data_offset amcf tables base mapped_zone n (jobs k) _ _ G1 (jobs_ok k) (jobs_ids k) G2 w b0 Hb0) as [cyc Hc].
    exists cyc. rewrite finished_S, visits_app. apply block_inv_errors, Hc.
  - rewrite Hk, waits_app, G3. unfold waits. cbn [List.filter]. rewrite Hn. cbn [length]. apply Nat.add_1_r.
  - rewrite metric_looks_app. apply Forall_app. split; [exact G4|]. destruct ev; try discriminate; constructor.
Qed.

#[local] Instance metered_kept : WorldKeeps exporter_config metered.
Proof.
  split.
  - intros c h Hh. destruct (mt_shape _ Hh). apply (metered_frame h _ [] Hh); try reflexivity; [split; assumption| |constructor]. cbn. rewrite app_nil_r. reflexivity.
  - intros c h Hh. cbn [collect_all_sources history_world metrics_world requests_world system_world machine_world].
    pose proof (sources_shape data_offset amcf n (source_env_of stat_stub master_pid restarts c (ma_shared (actual h))) worker_start_ns collector_host _ (mt_shape _ Hh) eq_refl) as Hs.
    pose proof (sources_meters data_offset amcf base mapped_zone n (source_env_of stat_stub master_pid restarts c (ma_shared (actual h))) worker_start_ns collector_host _
      blocks_read (ws_blocks _ _ (mt_shape _ Hh)) (mt_blocks _ Hh)) as Hm.
    destruct (Sources.collect_all_sources _ _ _ _ _) as [b blocks]. destruct Hm as [Hb Hm].
    split; [exact Hs|exact Hm| |]; cbn [snd actual events on_shared ma_next].
    + rewrite waits_app. rewrite <- (mt_waits _ Hh). apply Nat.add_0_r.
    + rewrite metric_looks_app. apply Forall_app. split; [apply (mt_batches _ Hh)|]. constructor; [|constructor]. rewrite Nat.add_0_l, (mt_waits _ Hh). exact Hb.
  - intros l bytes budget h Hh. cbn [send history_world metrics_world requests_world system_world machine_world].
    destruct (send_batch _ _ _ _ _ _ _ _ _ _ _) as [[[r x] tk] o]. cbn [snd]. apply metered_wait; [exact Hh|reflexivity..].
  - intros ms h Hh. apply metered_wait; [exact Hh|reflexivity..].
  - intros x h Hh. destruct (logs_frame x h (mt_shape _ Hh)) as (? & ? & ? & evs & ? & ?). eapply metered_frame; eauto.
  - intros x h Hh. destruct (spans_frame x h (mt_shape _ Hh)) as (? & ? & ? & evs & ? & ?). eapply metered_frame; eauto.
Qed.

(** C5 (functional). The metrics the collector gets are those of the requests that were served.  Start the exporter on a fresh zone, let the workers finish any requests at any
    moment it waits, and let the rest of the system write error logs.  Run the loop as configured with any network and collector.  Then each
    batch of metrics that is made counts exactly the requests that were finished, on all workers together, in the waits (sends and sleeps) of the exporter before it: its request
    metrics are those of [expected_metrics], the counts, sums and distributions per location, upstream zone and combination.
    Every body that is sent as metrics, at first or again, is the request of such a batch; and a loop that came to its final drain with metrics switched on made a last batch there, after its last sleep.
    About: export_iterations, log_phase_handler, record_request_metrics, collect_all_sources, instrumented_collect, aggregate_worker_slots, reset_block, encode_pdata, metrics_request, metrics_n_workers. *)
Theorem metrics_count_requests `{!ProstLaws} fuel my_gen since m e x' m' :
  ma_next m = 0%nat -> well_shaped n (ma_shared m) -> sh_blocks (ma_shared m) = replicate n zero_block ->
  export_iterations encode_pdata fuel exporter_config my_gen since initial_exporter m = Some (e, x', m') ->
  exists evs, export_iterations encode_pdata fuel exporter_config my_gen since initial_exporter (observe m) = Some (e, x', mk_history m' evs) /\
  waits evs = ma_next m' /\ Forall (fun '(k, b) => counts k b) (metric_looks 0 evs) /\
  (forall body, body ∈ sent LMetrics evs -> exists k b, (k, b) ∈ metric_looks 0 evs /\ body = serialize_metrics (metrics_request b)) /\
  (e = Drained -> ec_metrics_enabled exporter_config = true -> last_look evs).
Proof.
  intros E0 Hs Hb Er. apply run_delivers in Er as (evs & Er & _ & Hm & _); [|assumption].
  assert (Hp : metered (observe m)).
  { split; cbn [observe actual events]; [exact Hs| |rewrite E0; reflexivity|constructor]. rewrite E0, Hb. intros w b Hw. apply lookup_replicate in Hw as [-> _].
    exists []. apply block_inv_zero. }
  pose proof (iterations_keep _ exporter_config my_gen metered _ _ _ _ _ _ _ Hp Er) as [_ _ K1 K2]. cbn [actual events] in *.
  exists evs. split_and!; try assumption.
  - intros body Hin. destruct (Hm body Hin) as (b & t & Hev & ->). destruct (metric_looks_In b t evs Hev) as [k Hk]. eauto.
  - intros -> Hon. eapply run_looks; eassumption.
Qed.
End metrics.

(** ** A metrics zone for one worker *)

Definition metered_main : main_config := set_shm_zone (Some (Config.mk_zone 4096 (zone_size_for 0 1))) busy_main.
Definition metered_world : World machine :=
  metrics_world sample_http (fun _ _ => None) (fun _ => None) (fun _ => None) 0 metered_main false 7 0 0 $"otel.example" busy_sends busy_jobs busy_others.
Definition metered_config : export_config := loop_config (J := json) 0 metered_main 7.
Abbreviation metered_on m := (@export_iterations machine metered_world encode_pdata 2 metered_config 1 0 initial_exporter m).
Abbreviation metered_watched m :=
  (@export_iterations (history machine) (@history_world machine metered_world) encode_pdata 2 metered_config 1 0 initial_exporter (observe m)).

Lemma metered_drains : exists st l1, start_export sample_http sample_ctx metered_main sample_ledger = (Some st, l1) /\
  exists x' m', metered_on (busy_machine st l1) = Some (Drained, x', m').
Proof.
  assert (C : match start_export sample_http sample_ctx metered_main sample_ledger with
    | (Some st, l1) => (fun '(e, _, _) => e) <$> metered_on (busy_machine st l1) | _ => None end = Some Drained) by (vm_compute; reflexivity).
  destruct (start_export _ _ _ _) as [[st|] l1]; [|discriminate]. exists st, l1. split; [reflexivity|].
  destruct (export_iterations _ _ _ _ _ _ _) as [[[e x'] m']|]; [|discriminate]. injection C as ->. eauto.
Qed.

Lemma metered_sent st l1 e x' m' evs : start_export sample_http sample_ctx metered_main sample_ledger = (Some st, l1) ->
  metered_watched (busy_machine st l1) = Some (e, x', mk_history m' evs) -> (length (sent LMetrics evs), map fst (metric_looks 0 evs)) = (1%nat, [6%nat]).
Proof.
  intros Es E. assert (C : match start_export sample_http sample_ctx metered_main sample_ledger with
    | (Some st, l1) => (fun '(_, _, h) => (length (sent LMetrics (events h)), map fst (metric_looks 0 (events h)))) <$> metered_watched (busy_machine st l1)
    | _ => None end = Some (1%nat, [6%nat])) by (vm_compute; reflexivity).
  rewrite Es, E in C. apply Some_inj in C. exact C.
Qed.

Lemma metered_job_ok : job_ok 0 metered_main 1 busy_job.
Proof. destruct busy_job_ok. split; [assumption..|vm_compute; reflexivity]. Qed.
Lemma metered_jobs_ok k : Forall (job_ok 0 metered_main 1) (busy_jobs k).
Proof. unfold busy_jobs. case_bool_decide; repeat (constructor; try apply metered_job_ok). Qed.
Lemma metered_ids k : Forall (fun j => ids_ok (jb_request j)) (busy_jobs k).
Proof.
  assert (Hj : ids_ok (jb_request busy_job)) by (cbn; split_and!; try reflexivity; repeat constructor; vm_compute; congruence).
  unfold busy_jobs. case_bool_decide; repeat (constructor; try exact Hj).
Qed.
Lemma metered_tables : tables_ok metered_main.
Proof. exact busy_tables. Qed.
Lemma metered_blocks (k : nat) s : Forall2 (fun b' b => exists errs, b' = with_error_counts errs b) (sh_blocks (busy_others k s)) (sh_blocks s).
Proof. cbn. induction (sh_blocks s) as [|b blocks IH]; constructor; [|exact IH]. exists (error_rate_counters b). destruct b. reflexivity. Qed.

Lemma metrics_count_requests_witness : exists st l1 evs b,
  start_export sample_http sample_ctx metered_main sample_ledger = (Some st, l1) /\
  sent LMetrics evs = [serialize_metrics (metrics_request b)] /\ counts metered_main 0 busy_jobs 1 6 b.
Proof.
  destruct metered_drains as (st & l1 & Es & x' & m' & E).
  destruct (metrics_count_requests (J := json) sample_http (fun _ _ => None) (fun _ => None) (fun _ => None) 0 metered_main false 7 0 0 $"otel.example"
    busy_sends busy_jobs busy_others 1 metered_tables 4096 eq_refl eq_refl metered_jobs_ok metered_ids (fun k s Hs => proj2 (proj2 (busy_frame k s Hs))) metered_blocks
    2 1 0 (busy_machine st l1) Drained x' m' eq_refl busy_shape eq_refl E) as (evs & Er & _ & Hc & Hb & _).
  pose proof (metered_sent st l1 Drained x' m' evs Es Er) as Hl. injection Hl as Hl Hk.
  destruct (sent LMetrics evs) as [|body [|body' bodies]] eqn:Eb; [discriminate| |discriminate].
  destruct (Hb body ltac:(left)) as (k & b & Hin & ->). exists st, l1, evs, b. split_and!; [exact Es|exact Eb|].
  destruct (metric_looks 0 evs) as [|[k1 b1] [|]]; [discriminate| |discriminate]. injection Hk as ->.
  apply list_elem_of_singleton in Hin. injection Hin as -> ->. exact (Forall_inv Hc).
Defined.
