(* ===== verification/Lines.v ===== *)
(** * One worker's error log

    What the writer ([ErrorLog]) does with a line, in terms of the worker's coalescer table and error ring, and what a collection
    ([Collect]) makes of them: no line is lost without a trace, and none is counted twice, over any number of lines and collections. *)
From stdpp Require Import gmap.
From S2P Require Import Prelude Ring DataModel AccessLog Coalesce ErrorLog Collect.
From S2P Require Import Ledger.
From S2P Require LogChain System.

(** ** The coalescer and the ring of one worker *)

(** A call of the coalescer tracks the line's template, unless it leaves the line untracked, and no other. *)
Lemma coalesce_tracked t sev buf enabled res t' k s :
  table_ok t -> coalesce t sev buf enabled = Some (res, t') ->
  tracked t' k s <-> tracked t k s \/ k = coalesce_key sev (stable_core buf) /\ s = sev /\ res <> EmitVerbatim 0.
Proof.
  intros Hok E. pose proof (coalesce_key_range sev (stable_core buf)) as Hk. revert E. unfold coalesce. set (key := coalesce_key _ _) in *.
  destruct enabled; [|intros [= <- <-]; tauto]. cbn [negb]. destruct (sev <=? _); [intros [= <- <-]; tauto|].
  destruct (probe_loop_outcome t sev key 0 COALESCE_CAPACITY) as (res1 & t1 & E1 & Ho); try lia; [unfold COALESCE_CAPACITY; lia|].
  rewrite probe_idx_0 in E1 by lia. rewrite E1. intros [= <- <-].
  assert (G : forall d c, res1 <> EmitVerbatim 0 -> ~ occupied t (probe_idx key d) \/ matches t key sev (probe_idx key d) ->
    tracked (<[probe_idx key d := mk_slot key sev c true]> t) k s <-> tracked t k s \/ k = key /\ s = sev /\ res1 <> EmitVerbatim 0).
  { intros d c Hr Hs. assert (Hlt : (probe_idx key d < length t)%nat) by (rewrite (to_len _ Hok); apply probe_idx_lt).
    unfold tracked, occupied, matches in *. split.
    - intros (i & Hi & Oi & M). rewrite !slot_at_insert in * by exact Hlt. destruct (decide _); [right; cbn in *; destruct M as [<- <-]; auto|eauto].
    - intros [(i & Hi & Oi & M1 & M2)|(-> & -> & _)]; [exists i|exists (probe_idx key d)]; rewrite !slot_at_insert by exact Hlt.
      + split; [exact Hi|]. destruct (decide _) as [<-|]; [|auto]. destruct Hs as [Hs|[S1 S2]]; [contradiction|]. cbn. repeat split; congruence || lia.
      + rewrite decide_True by reflexivity. cbn. split; [apply probe_idx_lt|]. repeat split; lia. }
  destruct Ho as [d _ _ Hn|d Hd _ Hocc Hm|_]; [apply G; [intros [= Ek]; lia|auto]| |tauto].
  apply G; [|auto]. rewrite (to_sampled _ Hok _ (probe_idx_lt key d) Hocc). discriminate.
Qed.

(** What the table holds for the template [h]. *)
Definition template_count (h : Z) (t : list slot) : Z := wsum (fun sl => key_hash sl =? h) t.

Lemma template_count_nonneg h t : table_ok t -> 0 <= template_count h t.
Proof.
  intros Hok. apply zsum_nonneg, Forall_map, List.Forall_forall. intros sl Hin. pose proof (table_ok_In t sl Hok Hin). cbn. case_if; lia.
Qed.

(** The template for which a line is counted, 0 for none. *)
Definition template_of (sev : Z) (buf : list Z) (res : coalesce_result) : Z :=
  match res with Coalesced => coalesce_key sev (stable_core buf) | EmitVerbatim h => h end.

Lemma coalesce_counted t sev buf enabled res t' :
  table_ok t -> wsum (fun _ => true) t < u32_max -> coalesce t sev buf enabled = Some (res, t') ->
  let h := template_of sev buf res in
  table_ok t' /\ wsum (fun _ => true) t' <= wsum (fun _ => true) t + 1 /\
  (res = EmitVerbatim 0 \/ h = coalesce_key sev (stable_core buf) /\ HIGH_SEVERITY_THRESHOLD < sev /\ (res = EmitVerbatim h -> ~ tracked t h sev)) /\
  forall k, k <> 0 -> template_count k t' = template_count k t + if h =? k then 1 else 0.
Proof.
  intros Hok Hb E. cbv zeta.
  assert (Hun : EmitVerbatim 0 = res -> t = t' -> table_ok t' /\ wsum (fun _ => true) t' <= wsum (fun _ => true) t + 1 /\
    (res = EmitVerbatim 0 \/ template_of sev buf res = coalesce_key sev (stable_core buf) /\ HIGH_SEVERITY_THRESHOLD < sev /\
       (res = EmitVerbatim (template_of sev buf res) -> ~ tracked t (template_of sev buf res) sev)) /\
    forall k, k <> 0 -> template_count k t' = template_count k t + if template_of sev buf res =? k then 1 else 0).
  { intros <- <-. split_and!; [exact Hok|lia|auto|]. intros k Hk. change (template_of sev buf (EmitVerbatim 0)) with 0. rewrite (proj2 (Z.eqb_neq _ _)) by congruence. lia. }
  destruct enabled; [|cbn in E; injection E as <- <-; apply Hun; reflexivity].
  destruct (Z.leb_spec sev HIGH_SEVERITY_THRESHOLD) as [Hs|Hs].
  { unfold coalesce in E. cbn [negb] in E. rewrite (proj2 (Z.leb_le _ _) Hs) in E. injection E as <- <-. apply Hun; reflexivity. }
  destruct (coalesce_counts t sev buf res t' Hok Hs Hb E) as [Hok' [(-> & Et & _)|[Hr Hw]]]; [apply Hun; auto|]. clear Hun.
  assert (Hh : template_of sev buf res = coalesce_key sev (stable_core buf)) by (destruct Hr as [[-> _]|[-> _]]; reflexivity).
  rewrite Hh. split_and!; [exact Hok'|rewrite Hw by reflexivity; lia| |].
  - right. split_and!; [reflexivity|exact Hs|]. destruct Hr as [[-> _]|[-> Ht]]; [discriminate|auto].
  - intros k _. unfold template_count. rewrite Hw; [reflexivity|]. intros s1 s2 -> _. reflexivity.
Qed.

(** The slots in use. *)
Definition slots_used (t : list slot) : Z := zsum (map (fun sl => if key_hash sl =? 0 then 0 else 1) t).

Lemma zsum_insert {A} (f : A -> Z) l i x x' : l !! i = Some x -> zsum (map f (<[i := x']> l)) = zsum (map f l) - f x + f x'.
Proof.
  intros E. pose proof (lookup_lt_Some _ _ _ E) as Hl. rewrite insert_take_drop by exact Hl. rewrite <- (take_drop_middle l i x E) at 3.
  rewrite !map_app, !zsum_app. cbn [map]. unfold zsum. cbn. lia.
Qed.

(** A slot is taken with each sample that the writer is told to emit. *)
Lemma coalesce_slots t sev buf enabled res t' : table_ok t -> coalesce t sev buf enabled = Some (res, t') ->
  slots_used t' = slots_used t + match res with EmitVerbatim h => if h =? 0 then 0 else 1 | Coalesced => 0 end.
Proof.
  intros Hok E. pose proof (coalesce_key_range sev (stable_core buf)) as Hk. revert E. unfold coalesce. set (key := coalesce_key _ _) in *.
  destruct enabled; [|intros [= <- <-]; cbn; lia]. cbn [negb]. destruct (sev <=? _); [intros [= <- <-]; cbn; lia|].
  destruct (probe_loop_outcome t sev key 0 COALESCE_CAPACITY) as (res1 & t1 & E1 & Ho); try lia; [unfold COALESCE_CAPACITY; lia|].
  rewrite probe_idx_0 in E1 by lia. rewrite E1. intros [= <- <-].
  assert (G : forall d c, slots_used (<[probe_idx key d := mk_slot key sev c true]> t) = slots_used t - (if key_hash (slot_at t (probe_idx key d)) =? 0 then 0 else 1) + 1).
  { intros d c. unfold slots_used. rewrite (zsum_insert _ _ _ (slot_at t (probe_idx key d))); [cbn [key_hash]; rewrite (proj2 (Z.eqb_neq key 0)) by lia; reflexivity|].
    unfold slot_at. rewrite nth_lookup. destruct (lookup_lt_is_Some_2 t (probe_idx key d)) as [sl ->]; [rewrite (to_len _ Hok); apply probe_idx_lt|reflexivity]. }
  unfold occupied in Ho. destruct Ho as [d _ _ Hn|d _ _ Hocc _|_]; [| |cbn; lia].
  - rewrite G, (proj2 (Z.eqb_neq key 0)) by lia. destruct (Z.eqb_spec (key_hash (slot_at t (probe_idx key d))) 0); [lia|tauto].
  - rewrite G, (proj2 (Z.eqb_neq _ _) Hocc), (to_sampled _ Hok _ (probe_idx_lt key d) Hocc). lia.
Qed.

(** ** A line *)

(** A line that a worker logs: the time, the level and the text. *)
Record line := mk_line { ln_worker : nat; ln_now : option (Z * Z); ln_level : Z; ln_buf : list Z }.
Definition line_key (l : line) : Z := coalesce_key (u8 (ln_level l)) (stable_core (ln_buf l)).

(** What becomes of it: it is only counted, or its record goes into the ring or is refused there.  A record has its template, or 0. *)
Inductive fate := Repeated | Recorded (hash : Z) | Refused (hash : Z).

Definition line_template (l : line) (f : fate) : Z := match f with Repeated => line_key l | Recorded h | Refused h => h end.
Definition line_event (l : line) (hash : Z) : error_event := mk_ev (cached_unix_nanos (ln_now l)) (u8 (ln_level l)) hash (ln_buf l).
Definition recorded (l : line) (f : fate) : list error_event := match f with Recorded h => [line_event l h] | _ => [] end.
Definition refused (f : fate) : Z := match f with Refused _ => 1 | _ => 0 end.
(** The first line of its template whose record, the sample, is refused. *)
Definition sample_refused (f : fate) : Z := match f with Refused h => if h =? 0 then 0 else 1 | _ => 0 end.

(** The samples among the records of a ring. *)
Definition samples (es : list error_event) : Z := Z.of_nat (length (filter (fun h => h <> 0) (map ev_hash es))).

Lemma samples_app es es' : samples (es ++ es') = samples es + samples es'.
Proof. unfold samples. rewrite map_app, list.filter_app, length_app. lia. Qed.

(** Lines of the highest severities are never counted with others. *)
Definition fate_ok (l : line) (f : fate) : Prop :=
  line_template l f = 0 \/ line_template l f = line_key l /\ HIGH_SEVERITY_THRESHOLD < u8 (ln_level l).

Lemma cached_nanos_in now : in_u 64 (cached_unix_nanos now).
Proof.
  unfold in_u, cached_unix_nanos. destruct now as [[sec msec]|]; [|lia]. pose proof (u64_range sec). pose proof (u64_range msec).
  unfold sat_add64, sat_mul64, u64_max. lia.
Qed.

(** The bytes of a record in the ring, at most. *)
Definition LINE_COST : Z := 4 + (ERROR_RECORD_HDR + MAX_ERROR_BODY_LEN).

Section worker.
(** A template is the 64-bit hash of severity and text.  Templates of two severities do not collide: [sev_of] is the severity of each. *)
Context (sev_of : Z -> Z).

(** A worker's table and ring: at most one sample of each template is in the ring, and then the template is counted.  The ring is small enough that one
    collection takes it all. *)
Record worker_holds (r : ring) (t : list slot) (es : list error_event) : Prop := {
  wh_ring : ring_ok r (map event_bytes es);
  wh_events : Forall event_wf es;
  wh_cap : cap r <= 24 * 50000;
  wh_table : table_ok t;
  wh_keys k s : tracked t k s -> in_u 64 k /\ s = sev_of k /\ 0 < template_count k t;
  wh_samples : NoDup (filter (fun h => h <> 0) (map ev_hash es));
  wh_sampled h : h ∈ map ev_hash es -> h <> 0 -> tracked t h (sev_of h)
}.

Lemma held_length r t es : worker_holds r t es -> Z.of_nat (length es) <= 50000.
Proof.
  intros []. pose proof (ring_ok_blen _ _ wh_ring0) as Hb. pose proof (ok_used _ _ wh_ring0) as Hu.
  assert (G : 24 * Z.of_nat (length es) <= blen (enc (map event_bytes es))); [|lia].
  clear. induction es as [|e es IH]; [reflexivity|]. cbn [map]. change (enc (event_bytes e :: map event_bytes es)) with (enc_record (event_bytes e) ++ enc (map event_bytes es)).
  rewrite blen_app, blen_enc_record. pose proof (blen_error_bytes (ev_ts e) (ev_level e) (ev_hash e) (ev_body e)) as He. unfold event_bytes at 1.
  unfold ERROR_RECORD_HDR in He. cbn [length]. lia.
Qed.

(** The writer's state as a worker's start wires it. *)
Definition writer_of (floor : Z) (enabled : bool) (rate : option (list Z)) (r : ring) (t : list slot) : writer_state :=
  LogChain.set_wiring true (Some t) (Some r) rate enabled (mk_ws false false floor false None false None None).

(** A ring takes or refuses a record. *)
Lemma push_event r es e : ring_ok r (map event_bytes es) -> write_offset r + LINE_COST <= u64_max ->
  let '(ok, r') := push r (event_bytes e) in
  cap r' = cap r /\ write_offset r' <= write_offset r + LINE_COST /\
  if ok then ring_ok r' (map event_bytes (es ++ [e])) /\ dropped r' = dropped r else ring_ok r' (map event_bytes es) /\ dropped r' = dropped r +w64 1.
Proof.
  intros Hr Ho. pose proof (blen_error_bytes (ev_ts e) (ev_level e) (ev_hash e) (ev_body e)) as He. fold (event_bytes e) in He. unfold LINE_COST in *.
  pose proof (push_refines_queue r _ (event_bytes e) Hr ltac:(lia)) as Hp. pose proof (System.push_offset r (event_bytes e)) as Hoff.
  unfold push_spec in Hp. destruct (push r (event_bytes e)) as [ok r']. cbn [fst snd] in Hp.
  specialize (Hoff ok r' ltac:(destruct (ok_off _ _ Hr); lia) eq_refl). destruct (_ <=? _).
  - destruct Hp as (-> & Hok & Hc & Hd). rewrite map_app. split_and!; try assumption. lia.
  - destruct Hp as [[= -> ->] Hok]. split_and!; try reflexivity; [cbn in *; lia|exact Hok].
Qed.

(** What one line does. *)
Lemma held_line r t es r' tbl' l res f :
  worker_holds r t es -> sev_of (line_key l) = u8 (ln_level l) -> wsum (fun _ => true) t < u32_max ->
  coalesce t (u8 (ln_level l)) (ln_buf l) f = Some (res, tbl') ->
  let h := template_of (u8 (ln_level l)) (ln_buf l) res in
  forall es', (es' = es \/ es' = es ++ [line_event l h] /\ res = EmitVerbatim h) ->
  ring_ok r' (map event_bytes es') -> cap r' = cap r -> worker_holds r' tbl' es'.
Proof.
  intros [Hr He Hc Ht Hk Hs Hd] Hsev Hb Ec h es' Hes Hr' Hcap.
  destruct (coalesce_counted _ _ _ _ _ _ Ht Hb Ec) as (Ht' & _ & Hcase & Hcount). fold h in Hcase, Hcount.
  pose proof (coalesce_key_range (u8 (ln_level l)) (stable_core (ln_buf l))) as Hrange. fold (line_key l) in *.
  assert (Hh : in_u 64 h) by (destruct Hcase as [E|[-> _]]; [unfold h; rewrite E; cbn|]; unfold in_u; lia).
  pose proof (fun k s => coalesce_tracked _ _ _ _ _ _ k s Ht Ec) as Htr. fold (line_key l) in Htr.
  split; [exact Hr'| |lia|exact Ht'| | |].
  - destruct Hes as [->|[-> _]]; [exact He|]. apply Forall_app. split; [exact He|]. constructor; [|constructor]. split; [apply cached_nanos_in|exact Hh].
  - intros k s Hks. apply Htr in Hks as [Hks|(-> & -> & Hne)].
    + destruct (Hk k s Hks) as (H1 & H2 & H3). split_and!; [exact H1|exact H2|]. rewrite Hcount by (destruct Hks as (i & _ & Oi & M & _); congruence). case_if; lia.
    + split_and!; [unfold in_u; lia|congruence|]. destruct Hcase as [E|[E _]]; [congruence|]. rewrite Hcount by lia. rewrite E, Z.eqb_refl.
      pose proof (template_count_nonneg (line_key l) _ Ht). lia.
  - destruct Hes as [->|[-> Hv]]; [exact Hs|]. rewrite map_app, list.filter_app. cbn [map ev_hash line_event]. rewrite filter_cons.
    destruct (decide _) as [H0|_]; [|rewrite app_nil_r; exact Hs]. apply list.NoDup_app. split_and!; [exact Hs| |apply NoDup_singleton].
    intros k Hin Hk'%list_elem_of_singleton. subst k. apply list_elem_of_filter in Hin as [_ Hin]. destruct Hcase as [E|(E & _ & Hn)]; [congruence|].
    apply (Hn Hv). specialize (Hd h Hin H0). rewrite E, Hsev in Hd. rewrite E. exact Hd.
  - intros k Hin H0. apply Htr. assert (Hold : k ∈ map ev_hash es -> tracked t k (sev_of k)) by (intros; apply Hd; assumption).
    destruct Hes as [->|[-> Hv]]; [auto|]. rewrite map_app in Hin. apply elem_of_app in Hin as [Hin|Hin%list_elem_of_singleton]; [auto|]. cbn in Hin. subst k.
    right. destruct Hcase as [E|(E & _)]; [congruence|]. rewrite E. split_and!; [reflexivity|exact Hsev|]. congruence.
Qed.

Lemma writer_line floor enabled rate r t es l :
  worker_holds r t es -> sev_of (line_key l) = u8 (ln_level l) -> wsum (fun _ => true) t < u32_max ->
  write_offset r + LINE_COST <= u64_max -> ln_level l <= floor ->
  let s' := ngx_otel_error_writer true (ln_now l) (writer_of floor enabled rate r t) (ln_level l) (ln_buf l) in
  exists tbl' r' f, coalesce_table s' = Some tbl' /\ error_ring s' = Some r' /\ error_rate s' = bump_rate rate (ln_level l) /\ fate_ok l f /\
  worker_holds r' tbl' (es ++ recorded l f) /\
  write_offset r' <= write_offset r + LINE_COST /\ wsum (fun _ => true) tbl' <= wsum (fun _ => true) t + 1 /\
  (forall h, h <> 0 -> template_count h tbl' = template_count h t + if line_template l f =? h then 1 else 0) /\
  slots_used tbl' - samples (recorded l f) = slots_used t + sample_refused f /\
  dropped r' = (match f with Refused _ => dropped r +w64 1 | _ => dropped r end).
Proof.
  intros Hw Hsev Hb Ho Hf. unfold ngx_otel_error_writer, writer_body, writer_of, LogChain.set_wiring. cbn [cleanup busy level_floor logs_zone negb orb coalesce_table coalesce_enabled error_ring error_rate].
  rewrite (proj2 (Z.ltb_ge _ _) Hf). destruct (coalesce_total t (u8 (ln_level l)) (ln_buf l) enabled) as (res & tbl' & Ec). rewrite Ec.
  destruct (coalesce_counted _ _ _ _ _ _ (wh_table _ _ _ Hw) Hb Ec) as (_ & Hsum & Hcase & Hcount).
  pose proof (coalesce_slots _ _ _ _ _ _ (wh_table _ _ _ Hw) Ec) as Hslots.
  pose proof (held_line r t es) as Hl. specialize (fun r' => Hl r' _ l _ _ Hw Hsev Hb Ec). cbv zeta in Hl.
  assert (Hfate : forall f, line_template l f = template_of (u8 (ln_level l)) (ln_buf l) res -> fate_ok l f).
  { intros f E. unfold fate_ok. rewrite E. destruct Hcase as [->|(-> & Hs & _)]; [left; reflexivity|right; auto]. }
  destruct res as [|h].
  - exists tbl', r, Repeated. cbn. rewrite app_nil_r. split_and!; try reflexivity; [apply Hfate; reflexivity| | |exact Hsum|exact Hcount|unfold samples; cbn; lia].
    + apply Hl; [auto|apply Hw|reflexivity].
    + unfold LINE_COST, ERROR_RECORD_HDR, MAX_ERROR_BODY_LEN. lia.
  - pose proof (push_event r es (line_event l h) (wh_ring _ _ _ Hw) Ho) as Hp. unfold push_error_record. cbn [set_shared coalesce_table error_ring error_rate fmap option_fmap option_map].
    change (error_bytes (cached_unix_nanos (ln_now l)) (u8 (ln_level l)) h (ln_buf l)) with (event_bytes (line_event l h)).
    destruct (push r (event_bytes (line_event l h))) as [[] r']; destruct Hp as (Hc & Hoff & Hok & Hd);
      [exists tbl', r', (Recorded h)|exists tbl', r', (Refused h)]; cbn [recorded line_template]; rewrite ?app_nil_r;
      (split_and!; [reflexivity..|apply Hfate; reflexivity|apply Hl; [auto|exact Hok|exact Hc]|exact Hoff|exact Hsum|exact Hcount| |exact Hd]);
      unfold samples; cbn [map ev_hash line_event sample_refused]; rewrite ?filter_cons; destruct (Z.eqb_spec h 0);
      rewrite ?decide_True, ?decide_False by (auto || tauto); cbn; lia.
Qed.

(** *** A collection *)

(** Each template has one slot. *)
Lemma distinct_keys t : table_ok t -> (forall k s, tracked t k s -> s = sev_of k) -> NoDup (filter (fun h => h <> 0) (map key_hash t)).
Proof.
  intros Hok Hsev.
  assert (Hu : forall i j, (i < length t)%nat -> (j < length t)%nat -> key_hash (slot_at t i) <> 0 -> key_hash (slot_at t i) = key_hash (slot_at t j) -> i = j).
  { pose proof (to_len _ Hok) as Hl. unfold COALESCE_CAPACITY in Hl. rewrite Hl. intros i j Hi Hj H0 E.
    assert (Hs : forall i, (i < 256)%nat -> key_hash (slot_at t i) <> 0 -> severity (slot_at t i) = sev_of (key_hash (slot_at t i))).
    { intros i' Hi' H'. apply Hsev. exists i'. repeat split; assumption. }
    apply (to_unique _ Hok); [assumption..|]. split; [congruence|]. rewrite !Hs by congruence. congruence. }
  clear Hok Hsev. induction t as [|sl t IH]; [constructor|]. cbn [map]. rewrite filter_cons.
  assert (IH' : NoDup (filter (fun h => h <> 0) (map key_hash t))).
  { apply IH. intros i j Hi Hj H0 E. assert (S i = S j); [|lia]. apply Hu; cbn [length]; try lia; assumption. }
  destruct (decide _) as [H0|]; [|exact IH']. apply list.NoDup_cons. split; [|exact IH']. rewrite list_elem_of_filter, list_elem_of_In, in_map_iff.
  intros (_ & sl' & E & Hin). apply (In_nth _ _ empty_slot) in Hin as (j & Hj & <-).
  assert (0%nat = S j); [|lia]. apply Hu; cbn [length]; try lia; [exact H0|]. symmetry. exact E.
Qed.

Lemma drained_keys t : map (fun e => fst (fst e)) (snd (drain_coalesce_table t)) `sublist_of` filter (fun h => h <> 0) (map key_hash t).
Proof.
  unfold drain_coalesce_table. cbn [snd]. induction t as [|sl t IH]; [constructor|]. cbn [map concat]. rewrite map_app, filter_cons. unfold drain_slot at 1.
  destruct (Z.eqb_spec (key_hash sl) 0); cbn [snd]; [rewrite decide_False by tauto; exact IH|]. rewrite decide_True by assumption.
  destruct (0 <? count sl); cbn [map app fst]; [apply sublist_skip|apply sublist_cons]; exact IH.
Qed.

Lemma tracked_In t k s : table_ok t -> tracked t k s <-> exists sl, In sl t /\ key_hash sl = k /\ severity sl = s /\ k <> 0.
Proof.
  intros Hok. pose proof (to_len _ Hok) as Hl. unfold COALESCE_CAPACITY in Hl. split.
  - intros (i & Hi & Oi & M1 & M2). exists (slot_at t i). split_and!; try assumption; [apply nth_In; lia|]. unfold occupied in Oi. congruence.
  - intros (sl & Hin & <- & <- & H0). apply (In_nth _ _ empty_slot) in Hin as (i & Hi & <-). exists i. split_and!; [lia|exact H0|split; reflexivity].
Qed.

Lemma pop_all_cap n : forall r, cap (snd (pop_all n r)) = cap r.
Proof.
  induction n as [|n IH]; intros r; [reflexivity|]. cbn [pop_all]. destruct (pop_into r []) as [[ok r'] out] eqn:E.
  assert (F : cap r' = cap r) by (revert E; unfold pop_into; repeat case_if; intros [= _ <- _]; reflexivity).
  destruct ok; [|exact F]. specialize (IH r'). destruct (pop_all n r'). cbn [snd] in *. congruence.
Qed.

(** A drained table is empty. *)
Lemma drained_sum f t : table_ok t -> wsum f (fst (drain_coalesce_table t)) = 0.
Proof.
  intros Hok. pose proof (drain_table_ok t Hok) as Hd.
  assert (Hz : forall sl, In sl (fst (drain_coalesce_table t)) -> count sl = 0).
  { intros sl Hin. apply (table_ok_In _ sl Hd Hin). apply (In_nth _ _ empty_slot) in Hin as (i & _ & <-). apply drain_key_zero. }
  unfold wsum. induction (fst (drain_coalesce_table t)) as [|sl l IH] in Hz |- *; [reflexivity|]. cbn [map zsum foldr].
  fold (zsum (map (fun s => if f s then count s else 0) l)). rewrite IH, (Hz sl) by (intros; apply Hz; right; assumption) || (left; reflexivity). case_if; reflexivity.
Qed.

(** Distinct elements: those of [l] that are not in [k]. *)
Lemma filter_out_length (l k : list Z) : NoDup l -> NoDup k -> (forall x, x ∈ k -> x ∈ l) -> (length (filter (fun x => x ∉ k) l) + length k = length l)%nat.
Proof.
  intros Hl Hk Hin. rewrite <- (length_app (filter _ l)). apply Permutation_length, NoDup_Permutation; [|exact Hl|].
  - apply list.NoDup_app. split_and!; [apply list.NoDup_filter, Hl| |exact Hk]. intros x Hx. apply list_elem_of_filter in Hx. tauto.
  - intros x. rewrite elem_of_app, list_elem_of_filter. specialize (Hin x). destruct (decide (x ∈ k)); tauto.
Qed.

Lemma used_keys t : slots_used t = Z.of_nat (length (filter (fun h => h <> 0) (map key_hash t))).
Proof.
  unfold slots_used. induction t as [|sl t IH]; [reflexivity|]. cbn [map]. rewrite filter_cons. unfold zsum in *. cbn [foldr]. rewrite IH.
  destruct (Z.eqb_spec (key_hash sl) 0); [rewrite decide_False by tauto|rewrite decide_True by assumption; cbn [length]]; lia.
Qed.

(** A drain reports every slot in use, if all were counted. *)
Lemma drained_all t : (forall sl, In sl t -> key_hash sl <> 0 -> 0 < count sl) ->
  map (fun e => fst (fst e)) (snd (drain_coalesce_table t)) = filter (fun h => h <> 0) (map key_hash t).
Proof.
  unfold drain_coalesce_table. cbn [snd]. induction t as [|sl t IH]; intros Hp; [reflexivity|]. cbn [map concat]. rewrite map_app, filter_cons, IH by (intros; apply Hp; [right|]; assumption).
  unfold drain_slot at 1. destruct (Z.eqb_spec (key_hash sl) 0); cbn [snd]; [rewrite decide_False by tauto; reflexivity|]. rewrite decide_True by assumption.
  rewrite (proj2 (Z.ltb_lt _ _)) by (apply Hp; [left; reflexivity|assumption]). reflexivity.
Qed.

(** As many records stand for lost samples as there are slots in use without a sample in the ring. *)
Lemma orphans_count t es consumed : (forall sl, In sl t -> key_hash sl <> 0 -> 0 < count sl) ->
  NoDup (filter (fun h => h <> 0) (map key_hash t)) -> NoDup (filter (fun h => h <> 0) (map ev_hash es)) ->
  (forall h, h ∈ map ev_hash es -> h <> 0 -> h ∈ map key_hash t) -> (forall h, h <> 0 -> h ∈ consumed <-> In h (map ev_hash es)) ->
  Z.of_nat (length (orphans consumed (snd (drain_coalesce_table t)))) + samples es = slots_used t.
Proof.
  intros Hp Ht He Hin Hcon. rewrite used_keys. unfold samples. rewrite <- (filter_out_length _ _ Ht He).
  - rewrite Nat2Z.inj_add. f_equal. f_equal. rewrite <- (drained_all t Hp). rewrite <- (length_map (fun e => fst (fst e)) (orphans _ _)). f_equal. unfold orphans.
    pose proof (fun h s c => drained_entry t h s c) as Hd. revert Hd. generalize (snd (drain_coalesce_table t)). induction l as [|[[h s] c] cv IH]; intros Hd; [reflexivity|].
    cbn [map fst]. rewrite !filter_cons. cbn [fst snd]. destruct (Hd h s c (or_introl eq_refl)) as (H0 & Hc & _). specialize (IH (fun h' s' c' Hx => Hd h' s' c' (or_intror Hx))).
    assert (E : (0 < c /\ h ∉ consumed) <-> h ∉ filter (fun h => h <> 0) (map ev_hash es)).
    { rewrite list_elem_of_filter, list_elem_of_In, <- (Hcon h H0). tauto. }
    destruct (decide (0 < c /\ h ∉ consumed)), (decide (h ∉ filter _ _)); [|tauto|tauto|exact IH]. cbn [map fst]. f_equal. exact IH.
  - intros h Hh. apply list_elem_of_filter in Hh as [H0 Hh]. apply list_elem_of_filter. auto.
Qed.

Lemma drained_unused now wz : slots_used (wz_coalesce (snd (drain_errors now wz))) = 0.
Proof.
  assert (E : wz_coalesce (snd (drain_errors now wz)) = fst (drain_coalesce_table (wz_coalesce wz))).
  { unfold drain_errors. destruct (drain_coalesce_table _), (pop_all _ _), (foldl _ _ _). reflexivity. }
  rewrite E. clear E. unfold slots_used, drain_coalesce_table. cbn [fst]. rewrite map_map. induction (wz_coalesce wz) as [|sl t IH]; [reflexivity|].
  cbn [map]. unfold zsum in *. cbn [foldr]. rewrite IH. unfold drain_slot. destruct (key_hash sl =? 0) eqn:E0; cbn; [rewrite E0|]; reflexivity.
Qed.

(** What one collection exports of a template is what was counted. *)
Lemma held_collect now wz es : worker_holds (wz_error wz) (wz_coalesce wz) es ->
  let '(logs, _, _, wz') := drain_errors now wz in
  worker_holds (wz_error wz') (wz_coalesce wz') [] /\ write_offset (wz_error wz') = write_offset (wz_error wz) /\ dropped (wz_error wz') = dropped (wz_error wz) /\
  (forall f, wsum f (wz_coalesce wz') = 0) /\
  (forall h, in_u 64 h -> h <> 0 -> zsum (map (occurrences_of h) logs) = template_count h (wz_coalesce wz)) /\
  exists counts lost, logs = map (event_record now counts) es ++ map (fun '(hash, severity, count) => orphan_record now hash severity count) lost /\
    Z.of_nat (length lost) + samples es = slots_used (wz_coalesce wz).
Proof.
  intros Hw. pose proof Hw as [Hr He Hc Ht Hk Hs Hd].
  assert (Hsev : forall k s, tracked (wz_coalesce wz) k s -> s = sev_of k) by (intros k s Hks; apply (Hk k s Hks)).
  pose proof (distinct_keys _ Ht Hsev) as Hdist.
  assert (Hrange : Forall (fun sl => in_u 64 (key_hash sl)) (wz_coalesce wz)).
  { apply Forall_forall. intros sl Hin. destruct (decide (key_hash sl = 0)) as [->|H0]; [unfold in_u; lia|].
    apply (Hk (key_hash sl) (severity sl)). apply tracked_In; [exact Ht|]. eauto. }
  pose proof (coalesced_counts_exact now wz es Hr He (held_length _ _ _ Hw) Hs (sublist_NoDup _ _ Hdist (drained_keys _)) Hrange) as Hex.
  destruct (drain_errors_eq now wz es Hr He) as (r' & Hr' & E); [pose proof (held_length _ _ _ Hw); unfold MAX_ERROR_RECORDS_PER_WORKER_PER_DRAIN; lia|].
  assert (Er : r' = snd (pop_all MAX_ERROR_RECORDS_PER_WORKER_PER_DRAIN (wz_error wz))).
  { apply (f_equal snd) in E. revert E. unfold drain_errors. destruct (drain_coalesce_table _) as [tbl cv]. destruct (pop_all _ _) as [recs r].
    destruct (foldl _ _ _). cbn [snd fst]. intros [= <-]. reflexivity. }
  rewrite E in *. destruct Hex as (Hex & _ & _). set (cv := snd (drain_coalesce_table (wz_coalesce wz))) in *.
  destruct (System.pop_all_frame MAX_ERROR_RECORDS_PER_WORKER_PER_DRAIN (wz_error wz)) as [F1 F2]. rewrite <- Er in F1, F2.
  assert (Hnone : forall k s, ~ tracked (fst (drain_coalesce_table (wz_coalesce wz))) k s).
  { intros k s (i & _ & Oi & _). apply Oi, drain_key_zero. }
  split_and!; [|exact F1|exact F2|intros f; apply drained_sum, Ht| |do 2 eexists; split; [reflexivity|]].
  - split; cbn [wz_error wz_coalesce map]; [exact Hr'|constructor|subst r'; rewrite pop_all_cap; exact Hc|apply drain_table_ok, Ht| |constructor|].
    + intros k s Hks. destruct (Hnone k s Hks).
    + intros h Hin. apply elem_of_nil in Hin. destruct Hin.
  - intros h Hh H0. destruct (decide (h ∈ map key_hash (wz_coalesce wz))) as [Hin|Hout].
    + apply list_elem_of_In, in_map_iff in Hin as (sl & Ek & Hin).
      assert (Hcount : template_count h (wz_coalesce wz) = count sl) by (apply (zsum_key_one key_hash count _ h sl H0 Hin Ek Hdist)).
      rewrite Hcount. assert (Htr : tracked (wz_coalesce wz) h (severity sl)) by (apply tracked_In; eauto). destruct (Hk _ _ Htr) as (_ & _ & Hpos).
      apply (Hex h (severity sl)). unfold cv, drain_coalesce_table. cbn [snd]. apply in_concat. exists (snd (drain_slot sl)). split; [apply (in_map (fun s => snd (drain_slot s))), Hin|].
      unfold drain_slot. rewrite (proj2 (Z.eqb_neq _ _)) by congruence. cbn [snd]. rewrite (proj2 (Z.ltb_lt _ _)) by congruence. left. congruence.
    + unfold template_count, wsum. rewrite zsum_key_none by (rewrite <- list_elem_of_In; exact Hout). rewrite map_app, zsum_app, event_sum by assumption.
      rewrite zsum_key_none, orphan_sum, zsum_key_none; [reflexivity|..]; try assumption.
      * intros ([[h' s'] c'] & Ek & Hin)%in_map_iff. apply list_elem_of_In, list_elem_of_filter in Hin as [_ Hin%list_elem_of_In]. apply drained_entry in Hin as (_ & _ & sl & Hin & Ek').
        apply Hout, list_elem_of_In, in_map_iff. exists sl. cbn in Ek. split; [congruence|exact Hin].
      * apply Forall_forall. intros [[h' s'] c'] (_ & _ & sl & Hin & <-)%drained_entry. exact (proj1 (List.Forall_forall _ _) Hrange sl Hin).
      * rewrite <- list_elem_of_In. intros Hin. apply Hout. apply Hd, tracked_In in Hin as (sl & Hin & Ek & _); [|exact Ht|exact H0]. apply list_elem_of_In, in_map_iff. eauto.
  - apply orphans_count; [|exact Hdist|exact Hs| |intros h H0; apply hashes_consumed, H0].
    + intros sl Hin H0. destruct (Hk (key_hash sl) (severity sl)) as (_ & _ & Hpos); [apply tracked_In; eauto|].
      unfold template_count, wsum in Hpos. rewrite (zsum_key_one key_hash count _ (key_hash sl) sl H0 Hin eq_refl Hdist) in Hpos. exact Hpos.
    + intros h Hin H0. apply Hd, tracked_In in Hin as (sl & Hin & Ek & _); [|exact Ht|exact H0]. apply list_elem_of_In, in_map_iff. eauto.
Qed.

(** ** All workers *)

(** The error ring and the table of each worker. *)
Abbreviation sides := (list (ring * list slot)).
Definition error_sides (zone : list worker_zone) : sides := map (fun wz => (wz_error wz, wz_coalesce wz)) zone.

Definition template_total (h : Z) (ps : sides) : Z := zsum (map (fun p => template_count h (snd p)) ps).
Definition refusals (ps : sides) : Z := System.drops (map fst ps).

(** Lines with their fates: how many are counted for a template, and the records made of them. *)
Definition lines_of (h : Z) (told : list (line * fate)) : Z := zsum (map (fun x => if line_template (fst x) (snd x) =? h then 1 else 0) told).
Definition records_of (told : list (line * fate)) : list error_event := concat (map (fun x => recorded (fst x) (snd x)) told).
Definition refused_of (told : list (line * fate)) : Z := zsum (map (fun x => refused (snd x)) told).
Definition samples_refused (told : list (line * fate)) : Z := zsum (map (fun x => sample_refused (snd x)) told).
(** Templates in the tables whose sample is not in the ring. *)
Definition unsampled (ps : sides) (ess : list (list error_event)) : Z := zsum (map (fun p => slots_used (snd p)) ps) - samples (concat ess).

(** A record that a collection makes of an event: its time, the counts of that collection, and the event. *)
Definition rendered (x : Z * gmap Z Z * error_event) : log_record := event_record (fst (fst x)) (snd (fst x)) (snd x).
Definition rendered_lost (x : Z * (Z * Z * Z)) : log_record := let '(now, (hash, severity, count)) := x in orphan_record now hash severity count.

(** The balance of the error logs.  The rings and tables [ps0] held the events [ess0] at first, with [start] bytes behind each offset and [most] occurrences in each table.  Since then the lines
    [told] were logged and the records [logs] exported; now they are [ps] and hold [ess]. *)
Record balanced (start most : Z) (ps0 : sides) (ess0 : list (list error_event)) (told : list (line * fate)) (logs : list log_record)
    (ps : sides) (ess : list (list error_event)) : Prop := {
  ba_holds : Forall2 (fun p => worker_holds (fst p) (snd p)) ps ess;
  ba_offsets : Forall (fun p => write_offset (fst p) <= start + LINE_COST * Z.of_nat (length told)) ps;
  ba_tables : Forall (fun p => wsum (fun _ => true) (snd p) <= most + Z.of_nat (length told)) ps;
  ba_fates : Forall (fun x => fate_ok (fst x) (snd x)) told;
  ba_templates h : in_u 64 h -> h <> 0 -> zsum (map (occurrences_of h) logs) + template_total h ps = template_total h ps0 + lines_of h told;
  ba_refused : cong (refusals ps) (refusals ps0 + refused_of told);
  ba_records : exists shown lost, logs ≡ₚ map rendered shown ++ map rendered_lost lost /\
    map snd shown ++ concat ess ≡ₚ concat ess0 ++ records_of told /\
    Z.of_nat (length lost) + unsampled ps ess = unsampled ps0 ess0 + samples_refused told
}.

Lemma balanced_start start most ps ess : Forall2 (fun p => worker_holds (fst p) (snd p)) ps ess ->
  Forall (fun p => write_offset (fst p) <= start) ps -> Forall (fun p => wsum (fun _ => true) (snd p) <= most) ps ->
  balanced start most ps ess [] [] ps ess.
Proof.
  intros Hh Ho Hm. split; try assumption.
  - cbn [length]. rewrite Z.mul_0_r, Z.add_0_r. exact Ho.
  - cbn [length]. rewrite Z.add_0_r. exact Hm.
  - constructor.
  - intros h _ _. unfold lines_of. cbn. lia.
  - unfold refused_of. cbn. rewrite Z.add_0_r. reflexivity.
  - exists [], []. split_and!; [reflexivity|apply Permutation_app_comm|]. unfold samples_refused. cbn. lia.
Qed.

#[local] Instance samples_perm : Proper (Permutation ==> eq) samples.
Proof using. intros es es' E. unfold samples. rewrite E. reflexivity. Qed.

Lemma concat_extend (ess : list (list error_event)) i es x : ess !! i = Some es -> concat (<[i := es ++ x]> ess) ≡ₚ concat ess ++ x.
Proof using.
  intros E. pose proof (lookup_lt_Some _ _ _ E) as Hl. rewrite insert_take_drop by exact Hl. rewrite <- (take_drop_middle ess i es E) at 3.
  rewrite !concat_app. cbn [concat]. rewrite <- !app_assoc. do 2 apply Permutation_app_head. apply Permutation_app_comm.
Qed.

(** One line of worker [w]. *)
Lemma balanced_line start most ps0 ess0 told logs ps ess floor enabled rate l r t :
  balanced start most ps0 ess0 told logs ps ess -> ps !! ln_worker l = Some (r, t) -> ln_level l <= floor -> sev_of (line_key l) = u8 (ln_level l) ->
  start + LINE_COST * Z.of_nat (length told + 1) <= u64_max -> most + Z.of_nat (length told + 1) <= u32_max ->
  let s' := ngx_otel_error_writer true (ln_now l) (writer_of floor enabled rate r t) (ln_level l) (ln_buf l) in
  exists f ess', balanced start most ps0 ess0 (told ++ [(l, f)]) logs (<[ln_worker l := (default r (error_ring s'), default t (coalesce_table s'))]> ps) ess'.
Proof.
  intros [Hh Ho Hm Hf Ht Hd (shown & lost & Hl & Hr & Hu)] Ep Hlevel Hsev Hv Hc. cbv zeta.
  destruct (Forall2_lookup_l _ _ _ _ _ Hh Ep) as (es & Es & Hw). cbn [fst snd] in Hw.
  pose proof (Forall_lookup_1 _ _ _ _ Ho Ep) as Hor. pose proof (Forall_lookup_1 _ _ _ _ Hm Ep) as Hmt. cbn [fst snd] in Hor, Hmt.
  destruct (writer_line floor enabled rate r t es l Hw Hsev ltac:(lia) ltac:(lia) Hlevel) as (t' & r' & f & -> & -> & _ & Hfo & Hw' & Hof & Hst & Hct & Hsl & Hdr).
  cbn [default from_option id]. exists f, (<[ln_worker l := es ++ recorded l f]> ess).
  assert (Hlen : Z.of_nat (length (told ++ [(l, f)])) = Z.of_nat (length told) + 1) by (rewrite length_app; cbn [length]; lia). split; rewrite ?Hlen.
  - apply Forall2_insert; [exact Hh|exact Hw'].
  - apply Forall_insert; [|cbn [fst]; lia]. eapply Forall_impl; [|exact Ho]. cbv beta. intros p Hp. unfold LINE_COST, ERROR_RECORD_HDR, MAX_ERROR_BODY_LEN in *. lia.
  - apply Forall_insert; [|cbn [snd]; lia]. eapply Forall_impl; [|exact Hm]. cbv beta. intros p Hp. lia.
  - apply Forall_app. split; [exact Hf|]. constructor; [exact Hfo|constructor].
  - intros h Hh64 H0. unfold template_total, lines_of in *. rewrite (zsum_insert _ _ _ _ _ Ep), map_app, zsum_app. cbn [fst snd map]. specialize (Ht h Hh64 H0).
    rewrite (Hct h H0). unfold zsum in *. cbn [foldr]. lia.
  - unfold refusals, System.drops in *. rewrite map_map in *. rewrite (zsum_insert _ _ _ _ _ Ep). cbn [fst]. unfold refused_of in *. rewrite map_app, zsum_app. cbn [map snd].
    unfold drop_count in *. set (D := zsum (map (fun x : ring * list slot => dropped (fst x)) ps)) in *.
    transitivity (D + refused f); [|rewrite Hd; unfold zsum; cbn [foldr]; unfold cong; f_equal; lia].
    rewrite Hdr. destruct f; cbn [refused]; [unfold cong; f_equal; lia..|]. rewrite (cong_wrap (dropped r + 1)). unfold cong. f_equal. lia.
  - exists shown, lost. split_and!; [exact Hl| |].
    + rewrite (concat_extend _ _ _ _ Es), app_assoc, Hr. unfold records_of. rewrite map_app, concat_app. cbn [map concat fst snd]. rewrite app_nil_r, app_assoc. reflexivity.
    + unfold unsampled, samples_refused in *. rewrite (zsum_insert _ _ _ _ _ Ep), (concat_extend _ _ _ _ Es), samples_app, map_app, zsum_app. cbn [fst snd map].
      unfold zsum in *. cbn [foldr]. lia.
Qed.

(** One collection of all workers. *)
Lemma balanced_collect start most ps0 ess0 told logs zone ess now : balanced start most ps0 ess0 told logs (error_sides zone) ess -> 0 <= most ->
  let drained := map (fun wz => drain_errors now wz) zone in
  exists ess', balanced start most ps0 ess0 told (logs ++ concat (map (fun d => fst (fst (fst d))) drained)) (error_sides (map snd drained)) ess'.
Proof.
  intros [Hh Ho Hm Hf Ht Hd (shown & lost & Hl & Hr & Hu)] Hmost. cbv zeta. unfold error_sides in *. rewrite Forall2_fmap_l in Hh.
  exists (map (fun _ => []) ess).
  assert (G : exists shown' lost', concat (map (fun wz => fst (fst (fst (drain_errors now wz)))) zone) ≡ₚ map rendered shown' ++ map rendered_lost lost' /\ map snd shown' ≡ₚ concat ess /\
    Z.of_nat (length lost') = unsampled (error_sides zone) ess).
  { clear -Hh. induction Hh as [|wz es zone ess Hw _ (shown' & lost' & I1 & I2 & I3)]; [exists [], []; split_and!; constructor|]. cbn [map concat].
    pose proof (held_collect now wz es Hw) as Hc. destruct (drain_errors now wz) as [[[lg d] o] wz']. destruct Hc as (_ & _ & _ & _ & _ & counts & lost1 & -> & Hn). cbn [fst].
    exists (map (fun e => (now, counts, e)) es ++ shown'), (map (fun x => (now, x)) lost1 ++ lost'). rewrite !map_app, !map_map, I1. split_and!.
    - rewrite <- !app_assoc. apply Permutation_app; [reflexivity|]. rewrite app_assoc, (Permutation_app_comm (map _ lost1)), <- app_assoc. apply Permutation_app_head, Permutation_app_tail.
      erewrite map_ext; [reflexivity|]. intros [[h s] c]. reflexivity.
    - cbn. rewrite I2, map_id. reflexivity.
    - rewrite length_app, length_map. unfold unsampled, error_sides in *. cbn [map concat snd]. rewrite samples_app. unfold zsum in *. cbn [foldr]. lia. }
  destruct G as (shown' & lost' & G1 & G2 & G3).
  assert (K : Forall2 (fun wz es => let wz' := snd (drain_errors now wz) in
      worker_holds (wz_error wz') (wz_coalesce wz') [] /\ write_offset (wz_error wz') = write_offset (wz_error wz) /\ dropped (wz_error wz') = dropped (wz_error wz) /\
      (forall f, wsum f (wz_coalesce wz') = 0) /\
      forall h, in_u 64 h -> h <> 0 -> zsum (map (occurrences_of h) (fst (fst (fst (drain_errors now wz))))) = template_count h (wz_coalesce wz)) zone ess).
  { eapply Forall2_impl; [|exact Hh]. intros wz es Hw. pose proof (held_collect now wz es Hw) as Hc. destruct (drain_errors now wz) as [[[lg d] o] wz'].
    cbv zeta. cbn [fst snd]. tauto. }
  rewrite !map_map in *. clear Hh. split.
  - apply Forall2_fmap_2. eapply Forall2_impl; [|exact K]. intros wz es Hk. apply Hk.
  - rewrite Forall_map in Ho |- *. clear -Ho K. induction K as [|wz es zone ess Hk _ IH]; [constructor|]. apply Forall_cons_iff in Ho as [H1 H2]. cbn in H1.
    constructor; [|auto]. unfold compose. cbn [fst snd]. destruct Hk as (_ & -> & _). exact H1.
  - rewrite Forall_map. clear -K Hmost. induction K as [|wz es zone ess Hk _ IH]; [constructor|]. constructor; [|auto]. unfold compose. cbn [fst snd]. destruct Hk as (_ & _ & _ & -> & _). lia.
  - exact Hf.
  - intros h Hh64 H0. rewrite <- (Ht h Hh64 H0). unfold template_total. rewrite map_app, zsum_app, !map_map. cbn [snd].
    assert (E : zsum (map (occurrences_of h) (concat (map (fun wz => fst (fst (fst (drain_errors now wz)))) zone))) +
      zsum (map (fun wz => template_count h (wz_coalesce (snd (drain_errors now wz)))) zone) = zsum (map (fun wz => template_count h (wz_coalesce wz)) zone)); [|lia].
    clear -K Hh64 H0. induction K as [|wz es zone ess Hk _ IH]; [reflexivity|]. cbn [map concat]. rewrite map_app, zsum_app. destruct Hk as (_ & _ & _ & Hz & Hc).
    rewrite (Hc h Hh64 H0). unfold template_count at 2. rewrite (Hz (fun sl => key_hash sl =? h)). unfold zsum in *. cbn [foldr]. lia.
  - rewrite <- Hd. unfold refusals, System.drops. rewrite !map_map. cbn [fst]. clear -K. unfold drop_count.
    induction K as [|wz es zone ess Hk _ IH]; [reflexivity|]. cbn [map]. destruct Hk as (_ & _ & -> & _). unfold zsum in *. cbn [foldr]. rewrite IH. reflexivity.
  - exists (shown ++ shown'), (lost ++ lost'). rewrite !map_app, G1, G2, Hl.
    assert (Ec : concat (map (fun _ => []) ess) = @nil error_event) by (clear; induction ess; auto). split_and!.
    + rewrite <- !app_assoc. apply Permutation_app_head. rewrite !app_assoc. apply Permutation_app_tail, Permutation_app_comm.
    + rewrite Ec, app_nil_r. exact Hr.
    + rewrite length_app, Nat2Z.inj_add, G3, <- Hu. unfold unsampled, error_sides. rewrite !map_map. cbn [snd].
      assert (E : zsum (map (fun wz => slots_used (wz_coalesce (snd (drain_errors now wz)))) zone) = 0).
      { clear. induction zone as [|wz zone IH]; [reflexivity|]. cbn [map]. rewrite drained_unused. exact IH. }
      rewrite E, Ec. change (samples []) with 0. lia.
Qed.
End worker.
