(* ===== verification/Errors.v ===== *)
(** * From the error log to the collector

    The system of [Serve] and [Meter] with the error log in it: while the exporter waits, workers also log error lines, each through the
    writer that the module puts into nginx's log chain ([ErrorLog]).  A line is counted in the worker's coalescer table, recorded in its error
    ring, or refused by a full ring; the collections join the two.  The theorems follow every line to the log records and to the metric that are exported. *)
From stdpp Require Import relations gmap sorting.
From S2P Require Import Prelude Ring Histogram DataModel StdText Producer AccessLog Slots SpanRecord Coalesce ErrorLog Processor ShmLayout Endpoint Collect Outcome Backoff Control.
From S2P Require Import Config Location SpanStart Request Aggregate Encoder Conn Tls Transport Drain Run Ledger Export System Serve Meter Lines.
From S2P Require LogChain Sources.

(** ** Lines in the shared memory *)

Section lines.
Context (data_offset : Z) (amcf : main_config).
Abbreviation floor := (mc_error_log_level amcf).

(** A worker logs a line: the writer reads and writes the worker's block of the logs zone, and its counters in the metrics zone if there is one. *)
Definition log_line (s : shared) (l : line) : shared :=
  match logs_shm_base data_offset amcf, sh_logs s !! ln_worker l, sh_blocks s !! ln_worker l with
  | Some _, Some wz, Some b =>
      let rate := match shm_base data_offset amcf with Some _ => Some (error_rate_counters b) | None => None end in
      let ws := ngx_otel_error_writer true (ln_now l) (writer_of floor (mc_error_log_coalesce amcf) rate (wz_error wz) (wz_coalesce wz)) (ln_level l) (ln_buf l) in
      sh_set_logs (<[ln_worker l := Collect.mk_zone (wz_access wz) (default (wz_error wz) (error_ring ws)) (default (wz_coalesce wz) (coalesce_table ws))]> (sh_logs s))
        (sh_set_blocks (<[ln_worker l := with_error_counts (default (error_rate_counters b) (error_rate ws)) b]> (sh_blocks s)) s)
  | _, _, _ => s
  end.
Definition log_all (ls : list line) (s : shared) : shared := foldl log_line s ls.

(** Lines that the writer does not ignore. *)
Definition admitted (ls : list line) : list line := filter (fun l => ln_level l <= floor) ls.

(** The blocks' request metrics, and all that is not an error log, are left alone. *)
Definition only_errors (s' s : shared) : Prop :=
  sh_spans s' = sh_spans s /\ map wz_access (sh_logs s') = map wz_access (sh_logs s) /\
  Forall2 (fun b' b => exists errs, b' = with_error_counts errs b) (sh_blocks s') (sh_blocks s).

Lemma blocks_refl (bs : list worker_slots) : Forall2 (fun b' b => exists errs, b' = with_error_counts errs b) bs bs.
Proof using. induction bs as [|b bs IH]; constructor; [|exact IH]. exists (error_rate_counters b). destruct b. reflexivity. Qed.

#[export] Instance only_errors_preorder : PreOrder only_errors.
Proof.
  split; [intros s; split_and!; [reflexivity..|apply blocks_refl]|]. intros s1 s2 s3 (A1 & A2 & A3) (B1 & B2 & B3). split_and!; [congruence..|].
  clear -A3 B3. revert A3. generalize (sh_blocks s1). induction B3 as [|b2 b3 bs2 bs3 [e ->] _ IH]; intros bs1 A; inversion A as [|b1 ? ? ? [e' ->]]; subst; constructor; eauto.
Qed.

Lemma log_line_frame s l : only_errors (log_line s l) s.
Proof.
  unfold log_line. destruct (logs_shm_base _ _); [|reflexivity]. destruct (sh_logs s !! ln_worker l) as [wz|] eqn:El; [|reflexivity].
  destruct (sh_blocks s !! ln_worker l) as [b|] eqn:Eb; [|reflexivity]. cbv zeta. set (ws := ngx_otel_error_writer _ _ _ _ _). split_and!; cbn [sh_spans sh_logs sh_blocks sh_set_logs sh_set_blocks].
  - reflexivity.
  - rewrite list_fmap_insert. cbn [wz_access]. apply list_insert_id. rewrite list_lookup_fmap, El. reflexivity.
  - rewrite <- (list_insert_id (sh_blocks s) _ b Eb) at 2. apply Forall2_insert; [apply blocks_refl|eauto].
Qed.
Lemma log_all_frame ls : forall s, only_errors (log_all ls s) s.
Proof. induction ls as [|l ls IH]; intros s; [reflexivity|]. cbn. etransitivity; [apply IH|apply log_line_frame]. Qed.

Lemma only_errors_shaped n s' s : only_errors s' s -> well_shaped n s -> well_shaped n s'.
Proof.
  intros (H1 & H2 & H3) [S1 S2 S3 S4]. split; [congruence| | |].
  - rewrite <- (length_map wz_access), H2, length_map. exact S2.
  - rewrite (Forall2_length H3). exact S3.
  - clear -H3 S4. induction H3 as [|b' b bs' bs [e ->] _ IH]; [constructor|]. apply Forall_cons_iff in S4 as [Hb Hbs]. constructor; [exact Hb|auto].
Qed.

(** Serving requests leaves the error logs alone. *)
Lemma serve_errors s j : error_sides (sh_logs (serve data_offset amcf s j)) = error_sides (sh_logs s).
Proof.
  unfold serve. destruct (memory_of _ _ _) as [m|]; [|reflexivity]. destruct (log_phase_handler _ _ _ _ _) as [m'|]; [|reflexivity].
  cbn [put_memory sh_logs sh_set_blocks sh_set_logs sh_set_spans]. unfold error_sides. generalize (jb_worker j).
  induction (sh_logs s) as [|wz zone IH]; intros [|w]; cbn; try reflexivity. f_equal. apply IH.
Qed.
Lemma serve_all_errors js : forall s, error_sides (sh_logs (serve_all data_offset amcf js s)) = error_sides (sh_logs s).
Proof. induction js as [|j js IH]; intros s; [reflexivity|]. exact (eq_trans (IH _) (serve_errors s j)). Qed.

(** A line that may be logged on one of [n] workers. *)
Context (sev_of : Z -> Z) (base : Z) (logs_mapped : logs_shm_base data_offset amcf = Some base).
Definition line_ok (n : nat) (l : line) : Prop := (ln_worker l < n)%nat /\ sev_of (line_key l) = u8 (ln_level l).

Lemma balanced_lines n start most ps0 ess0 logs ls : forall s told ess,
  balanced sev_of start most ps0 ess0 told logs (error_sides (sh_logs s)) ess -> well_shaped n s -> Forall (line_ok n) ls ->
  start + LINE_COST * Z.of_nat (length told + length (admitted ls)) <= u64_max -> most + Z.of_nat (length told + length (admitted ls)) <= u32_max ->
  exists new ess', map fst new = admitted ls /\ balanced sev_of start most ps0 ess0 (told ++ new) logs (error_sides (sh_logs (log_all ls s))) ess'.
Proof.
  induction ls as [|l ls IH]; intros s told ess Hb Hs Hl Hv Hc; [exists [], ess; rewrite app_nil_r; auto|].
  apply Forall_cons_iff in Hl as [[Hw Hsev] Hl]. change (log_all (l :: ls) s) with (log_all ls (log_line s l)).
  pose proof (only_errors_shaped n _ _ (log_line_frame s l) Hs) as Hs'. pose proof Hs as [_ S2 S3 _].
  destruct (lookup_lt_is_Some_2 (sh_logs s) (ln_worker l) ltac:(lia)) as [wz El]. destruct (lookup_lt_is_Some_2 (sh_blocks s) (ln_worker l) ltac:(lia)) as [b Eb].
  assert (Ep : error_sides (sh_logs s) !! ln_worker l = Some (wz_error wz, wz_coalesce wz)) by (unfold error_sides; rewrite list_lookup_fmap, El; reflexivity).
  assert (Hlog : exists rate, let ws := ngx_otel_error_writer true (ln_now l) (writer_of floor (mc_error_log_coalesce amcf) rate (wz_error wz) (wz_coalesce wz)) (ln_level l) (ln_buf l) in
    error_sides (sh_logs (log_line s l)) = <[ln_worker l := (default (wz_error wz) (error_ring ws), default (wz_coalesce wz) (coalesce_table ws))]> (error_sides (sh_logs s))).
  { exists (match shm_base data_offset amcf with Some _ => Some (error_rate_counters b) | None => None end). cbv zeta. unfold log_line. rewrite logs_mapped, El, Eb. cbn [sh_logs sh_set_logs]. unfold error_sides. rewrite list_fmap_insert. cbn [wz_error wz_coalesce]. reflexivity. }
  destruct Hlog as [rate Hlog]. cbv zeta in Hlog. unfold admitted in *. rewrite filter_cons in *. destruct (decide (ln_level l <= floor)) as [Hle|Hgt].
  - cbn [length] in *. destruct (balanced_line sev_of start most ps0 ess0 told logs _ ess floor (mc_error_log_coalesce amcf) rate l _ _ Hb Ep Hle Hsev) as (f & ess1 & Hb1);
      [unfold LINE_COST, ERROR_RECORD_HDR, MAX_ERROR_BODY_LEN in *; lia|lia|]. cbv zeta in Hb1. rewrite <- Hlog in Hb1.
    destruct (IH _ _ _ Hb1 Hs' Hl) as (new & ess' & En & Hb'); [rewrite length_app; cbn [length]; unfold LINE_COST, ERROR_RECORD_HDR, MAX_ERROR_BODY_LEN in *; lia..|].
    exists ((l, f) :: new), ess'. cbn [map fst]. rewrite En. split; [reflexivity|]. rewrite <- app_assoc in Hb'. exact Hb'.
  - apply (IH _ _ ess); try assumption. rewrite Hlog. unfold ngx_otel_error_writer, writer_of. cbn [LogChain.set_wiring cleanup busy level_floor].
    rewrite (proj2 (Z.ltb_lt _ _)) by lia. cbn [error_ring coalesce_table default from_option id]. rewrite list_insert_id by exact Ep. exact Hb.
Qed.
End lines.

(** ** The error-rate metric *)

(** The lines of worker [w] in class [c], and those of all workers. *)
Definition class_of (l : line) : nat := severity_class_index (u8 (ln_level l)).
Definition class_lines (c : nat) (ls : list line) : Z := Z.of_nat (length (filter (fun l => class_of l = c) ls)).
Definition by_worker (w : nat) (ls : list line) : list line := filter (fun l => ln_worker l = w) ls.
Definition rates_of (ls : list line) (w : nat) : list Z := map (fun c => u64 (class_lines c (by_worker w ls))) (seq 0 N_SEVERITY_CLASSES).

Lemma class_lines_app c ls ls' : class_lines c (ls ++ ls') = class_lines c ls + class_lines c ls'.
Proof. unfold class_lines. rewrite list.filter_app, length_app. lia. Qed.
Lemma class_lines_one c l : class_lines c [l] = if decide (class_of l = c) then 1 else 0.
Proof. unfold class_lines. rewrite filter_cons. destruct (decide _); reflexivity. Qed.
Lemma class_lines_bound c w ls : 0 <= class_lines c (by_worker w ls) <= Z.of_nat (length ls).
Proof. unfold class_lines, by_worker. pose proof (length_filter (fun l => class_of l = c) (filter (fun l => ln_worker l = w) ls)). pose proof (length_filter (fun l => ln_worker l = w) ls). lia. Qed.

(** One line bumps the counter of its class. *)
Lemma rates_bump ls l : bump_rate (Some (rates_of ls (ln_worker l))) (ln_level l) = Some (rates_of (ls ++ [l]) (ln_worker l)).
Proof.
  unfold bump_rate. cbn [fmap option_fmap option_map]. f_equal. apply list_eq. intros i. fold (class_of l). unfold rates_of, by_worker.
  rewrite list.filter_app, filter_cons, decide_True by reflexivity. cbn [app]. destruct (decide (class_of l = i)) as [<-|Hne].
  - rewrite list_lookup_alter_eq, !list_lookup_fmap. destruct (seq 0 N_SEVERITY_CLASSES !! class_of l) as [c|] eqn:E; [|reflexivity].
    apply lookup_seq in E as [-> _]. cbn [fmap option_fmap option_map]. rewrite class_lines_app, class_lines_one, decide_True by reflexivity. f_equal. unfold u64, wrap. rewrite Zplus_mod_idemp_l. reflexivity.
  - rewrite list_lookup_alter_ne, !list_lookup_fmap by exact Hne. destruct (seq 0 N_SEVERITY_CLASSES !! i) as [c|] eqn:E; [|reflexivity].
    apply lookup_seq in E as [-> _]. cbn [fmap option_fmap option_map]. rewrite class_lines_app, class_lines_one, decide_False by exact Hne. rewrite Z.add_0_r. reflexivity.
Qed.

Lemma rates_other ls l w : ln_worker l <> w -> rates_of (ls ++ [l]) w = rates_of ls w.
Proof. intros Hne. unfold rates_of, by_worker. rewrite list.filter_app, filter_cons, decide_False by exact Hne. rewrite app_nil_r. reflexivity. Qed.

(** The counters of [n] workers. *)
Definition rates_are (n : nat) (ls : list line) (blocks : list worker_slots) : Prop := map error_rate_counters blocks = map (rates_of ls) (seq 0 n).

Lemma rates_lookup n ls blocks w b : rates_are n ls blocks -> blocks !! w = Some b -> error_rate_counters b = rates_of ls w.
Proof.
  intros E Hb. apply (f_equal (fun l => l !! w)) in E. rewrite !list_lookup_fmap, Hb in E. destruct (seq 0 n !! w) as [i|] eqn:Ei; [|discriminate].
  apply lookup_seq in Ei as [-> _]. injection E as ->. reflexivity.
Qed.

Lemma rates_zero n : rates_are n [] (replicate n zero_block).
Proof. unfold rates_are. generalize 0%nat. induction n as [|n IH]; intros i; [reflexivity|]. cbn [replicate seq map]. f_equal. apply IH. Qed.

(** The sum over all workers, as the exporter computes it. *)
Lemma add_rates_exact ls ws : forall g, (forall c, 0 <= g c) -> (forall c, g c + zsum (map (fun w => class_lines c (by_worker w ls)) ws) <= i64_max) ->
  foldl Sources.add_rates (map g (seq 0 N_SEVERITY_CLASSES)) (map (rates_of ls) ws) =
  map (fun c => g c + zsum (map (fun w => class_lines c (by_worker w ls)) ws)) (seq 0 N_SEVERITY_CLASSES).
Proof.
  induction ws as [|w ws IH]; intros g Hg Hb; cbn [map foldl]; [apply map_ext; intros c; cbn; lia|].
  assert (Hn : forall c, 0 <= zsum (map (fun w => class_lines c (by_worker w ls)) ws)).
  { intros c. apply zsum_nonneg, Forall_map, Forall_forall. intros w' _. apply class_lines_bound with (w := w'). }
  assert (Hb' : forall c, g c + (class_lines c (by_worker w ls) + zsum (map (fun w => class_lines c (by_worker w ls)) ws)) <= i64_max) by exact Hb.
  assert (E : Sources.add_rates (map g (seq 0 N_SEVERITY_CLASSES)) (rates_of ls w) = map (fun c => g c + class_lines c (by_worker w ls)) (seq 0 N_SEVERITY_CLASSES)).
  { unfold Sources.add_rates, rates_of. generalize (seq 0 N_SEVERITY_CLASSES). induction l as [|c l IHl]; [reflexivity|]. cbn. f_equal; [|exact IHl].
    pose proof (class_lines_bound c w ls). specialize (Hb' c). specialize (Hn c). specialize (Hg c). unfold Sources.sat_add_i64, Sources.counter_to_i64, i64_max in *.
    rewrite u64_small by (unfold u64_max; lia). rewrite (proj2 (Z.leb_le _ _)) by lia. lia. }
  rewrite E, IH.
  - apply map_ext. intros c. change (zsum (?x :: ?l)) with (x + zsum l). lia.
  - intros c. pose proof (class_lines_bound c w ls). specialize (Hg c). lia.
  - intros c. specialize (Hb' c). lia.
Qed.

Lemma zsum_plus {A} (f g : A -> Z) l : zsum (map (fun x => f x + g x) l) = zsum (map f l) + zsum (map g l).
Proof. unfold zsum. induction l as [|x l IH]; cbn; lia. Qed.
Lemma zsum_only x : forall n i, zsum (map (fun w => if decide (x = w) then 1 else 0) (seq i n)) = if decide (i <= x < i + n)%nat then 1 else 0.
Proof.
  unfold zsum. induction n as [|n IH]; intros i; cbn [seq map foldr]; [rewrite decide_False by lia; reflexivity|]. rewrite IH.
  repeat case_decide; lia.
Qed.

(** Lines on one of [n] workers are the lines of all workers. *)
Lemma class_lines_split n c ls : Forall (fun l => (ln_worker l < n)%nat) ls -> zsum (map (fun w => class_lines c (by_worker w ls)) (seq 0 n)) = class_lines c ls.
Proof.
  induction 1 as [|l ls Hl _ IH].
  - unfold class_lines, by_worker. cbn. induction (seq 0 n) as [|w l IH]; [reflexivity|exact IH].
  - change (l :: ls) with ([l] ++ ls). rewrite class_lines_app, class_lines_one, <- IH.
    rewrite (map_ext _ (fun w => class_lines c (by_worker w [l]) + class_lines c (by_worker w ls))), zsum_plus
      by (intros w; unfold by_worker; rewrite list.filter_app, class_lines_app; reflexivity).
    f_equal. transitivity (zsum (map (fun w => if decide (ln_worker l = w) then (if decide (class_of l = c) then 1 else 0) else 0) (seq 0 n))).
    + f_equal. apply map_ext. intros w. unfold by_worker. rewrite filter_cons. destruct (decide (ln_worker l = w)); [apply class_lines_one|reflexivity].
    + destruct (decide (class_of l = c)); [rewrite zsum_only, decide_True by lia; reflexivity|]. clear. unfold zsum. induction (seq 0 n) as [|w l' IH']; [reflexivity|]. cbn. rewrite IH'. destruct (decide _); reflexivity.
Qed.

(** The metric for these lines. *)
Definition expected_rates (ls : list line) (start now : Z) : metric :=
  mk_metric $"ngx_otel.error_log.events" $"Error log events counted by severity class" $"{error}"
    (MSum TCumulative true
       (zip_with (fun name c => mk_ndp [KV $"severity_class" (VString name)] start now (AsInt (class_lines c ls))) Sources.SEVERITY_CLASS_NAMES (seq 0 N_SEVERITY_CLASSES))).

Lemma rate_metric_exact n ls blocks start now : rates_are n ls blocks -> Forall (fun l => (ln_worker l < n)%nat) ls -> Z.of_nat (length ls) <= i64_max ->
  Sources.collect_error_rate_metric blocks start now = expected_rates ls start now.
Proof.
  intros Hr Hl Hb. unfold Sources.collect_error_rate_metric, expected_rates. rewrite Hr.
  change (replicate N_SEVERITY_CLASSES 0) with (map (fun _ : nat => 0) (seq 0 N_SEVERITY_CLASSES)). rewrite add_rates_exact; [|lia|].
  - rewrite (map_ext _ (fun c => class_lines c ls)) by (intros c; rewrite class_lines_split by exact Hl; lia). reflexivity.
  - intros c. rewrite class_lines_split by exact Hl. unfold class_lines. pose proof (length_filter (fun l => class_of l = c) ls). lia.
Qed.

Lemma app_middle {A} (a b c d e : list A) : a ++ b ++ c ++ d ++ e = (a ++ b ++ c) ++ d ++ e.
Proof. rewrite <- !app_assoc. reflexivity. Qed.

Section rates.
Context (data_offset : Z) (amcf : main_config) (base logs_base : Z).
Context (zone_mapped : shm_base data_offset amcf = Some base) (logs_mapped : logs_shm_base data_offset amcf = Some logs_base).

Lemma log_line_rates n s l ls : well_shaped n s -> (ln_worker l < n)%nat -> rates_are n ls (sh_blocks s) ->
  rates_are n (ls ++ admitted amcf [l]) (sh_blocks (log_line data_offset amcf s l)).
Proof.
  intros [_ S2 S3 _] Hw Hr. destruct (lookup_lt_is_Some_2 (sh_logs s) (ln_worker l) ltac:(lia)) as [wz El]. destruct (lookup_lt_is_Some_2 (sh_blocks s) (ln_worker l) ltac:(lia)) as [b Eb].
  pose proof (rates_lookup _ _ _ _ _ Hr Eb) as Erb. unfold log_line. rewrite logs_mapped, zone_mapped, El, Eb, Erb. cbn [sh_blocks sh_set_logs sh_set_blocks].
  set (w0 := writer_of _ _ _ _ _). destruct (error_writer_filter true (ln_now l) w0 (ln_level l) (ln_buf l)) as (F1 & F2 & _).
  unfold rates_are, admitted. rewrite list_fmap_insert, Hr, filter_cons. cbn [error_rate_counters with_error_counts].
  destruct (decide (ln_level l <= mc_error_log_level amcf)) as [Hle|Hgt].
  - rewrite (proj1 (F2 ltac:(cbn; rewrite (proj2 (Z.ltb_ge _ _)) by lia; reflexivity))). cbn [w0 writer_of LogChain.set_wiring error_rate]. rewrite rates_bump. cbn [default from_option id].
    apply list_eq. intros w. destruct (decide (ln_worker l = w)) as [<-|Hne].
    + rewrite list_lookup_insert_eq by (rewrite length_map, length_seq; exact Hw). rewrite list_lookup_fmap, lookup_seq_lt by exact Hw. reflexivity.
    + rewrite list_lookup_insert_ne by exact Hne. rewrite !list_lookup_fmap. destruct (seq 0 n !! w) as [i|] eqn:Ei; [|reflexivity]. apply lookup_seq in Ei as [-> _].
      cbn [fmap option_fmap option_map]. rewrite rates_other by exact Hne. reflexivity.
  - rewrite F1 by (cbn; rewrite (proj2 (Z.ltb_lt _ _)) by lia; reflexivity). rewrite app_nil_r. cbn [w0 writer_of LogChain.set_wiring error_rate default from_option id].
    apply list_insert_id. rewrite list_lookup_fmap, lookup_seq_lt by exact Hw. reflexivity.
Qed.

Lemma log_all_rates n lns : forall s ls, well_shaped n s -> Forall (fun l => (ln_worker l < n)%nat) lns -> rates_are n ls (sh_blocks s) ->
  rates_are n (ls ++ admitted amcf lns) (sh_blocks (log_all data_offset amcf lns s)).
Proof.
  induction lns as [|l lns IH]; intros s ls Hs Hl Hr; [rewrite app_nil_r; exact Hr|]. apply Forall_cons_iff in Hl as [Hw Hl].
  change (l :: lns) with ([l] ++ lns). unfold admitted. rewrite list.filter_app, app_assoc.
  exact (IH _ _ (only_errors_shaped n _ _ (log_line_frame data_offset amcf s l) Hs) Hl (log_line_rates n s l ls Hs Hw Hr)).
Qed.

Lemma serve_rates n s j (tables : tables_ok amcf) : well_shaped n s -> job_ok data_offset amcf n j ->
  map error_rate_counters (sh_blocks (serve data_offset amcf s j)) = map error_rate_counters (sh_blocks s).
Proof.
  intros [Hs Hl Hb Hw] [Hr Hj Hc]. unfold serve, memory_of. assert (Hi : (jb_worker j < n)%nat) by (unfold jb_worker; lia).
  destruct (lookup_lt_is_Some_2 (sh_blocks s) (jb_worker j) ltac:(lia)) as [block Eb]. destruct (lookup_lt_is_Some_2 (sh_logs s) (jb_worker j) ltac:(lia)) as [wz El].
  destruct (lookup_lt_is_Some_2 (sh_spans s) (jb_worker j) ltac:(lia)) as [r Er]. rewrite Eb, El, Er. cbn [mbind option_bind].
  pose proof (Forall_lookup_1 _ _ _ _ Hw Eb) as Hsw. set (m := mk_wm block (wz_access wz) r (jb_latch j) []).
  destruct (handler_block data_offset (jb_env j) amcf (jb_request j) m tables Hsw ltac:(lia)) as (m' & E & Ha & _). rewrite E.
  cbn [put_memory sh_blocks sh_set_blocks]. rewrite list_fmap_insert. apply list_insert_id. rewrite list_lookup_fmap, Eb. cbn [fmap option_fmap option_map]. f_equal.
  revert Ha. unfold block_after. rewrite zone_mapped. cbv zeta. destruct (sampled_ctx _) as [x|]; [|intros ->; reflexivity].
  unfold write_exemplar. case_if; [|discriminate]. intros [= <-]. reflexivity.
Qed.

Lemma serve_all_rates n (tables : tables_ok amcf) js : forall s, well_shaped n s -> Forall (job_ok data_offset amcf n) js ->
  map error_rate_counters (sh_blocks (serve_all data_offset amcf js s)) = map error_rate_counters (sh_blocks s).
Proof.
  induction js as [|j js IH]; intros s Hs Hj; [reflexivity|]. apply Forall_cons_iff in Hj as [Hj1 Hj2].
  exact (eq_trans (IH _ (proj2 (proj2 (serve_spec data_offset amcf tables n s j Hs Hj1))) Hj2) (serve_rates n s j tables Hs Hj1)).
Qed.

(** What the exporter collects. *)
Lemma sources_rates n e start host ls : mc_error_log_enabled amcf = true -> Sources.metrics_n_workers data_offset amcf = Z.of_nat n -> length (Sources.se_blocks e) = n ->
  rates_are n ls (Sources.se_blocks e) -> Forall (fun l => (ln_worker l < n)%nat) ls ->
  let '(b, blocks) := Sources.collect_all_sources data_offset amcf e start host in
  (Z.of_nat (length ls) <= i64_max -> exists front back now, b_metrics b = front ++ [expected_rates ls start now] ++ back) /\ rates_are n ls blocks.
Proof.
  intros He Hn Hl Hr Hw. unfold Sources.collect_all_sources. rewrite zone_mapped, He, Hn, Nat2Z.id, take_ge, drop_ge by lia.
  destruct (instrumented_collect _ _ _ _ _) as [ms done] eqn:Ei.
  assert (Ed : done = map reset_block (Sources.se_blocks e)).
  { apply (f_equal snd) in Ei. cbn [snd] in Ei. rewrite <- Ei. unfold instrumented_collect. rewrite aggregate_split. reflexivity. }
  assert (Hd : rates_are n ls done) by (rewrite Ed; unfold rates_are; rewrite map_map; exact Hr).
  rewrite app_nil_r. split; [|exact Hd]. intros Hb. rewrite take_ge by (rewrite Ed, length_map; lia). rewrite (rate_metric_exact n ls) by assumption.
  cbn [b_metrics]. do 3 eexists. apply app_middle.
Qed.
End rates.

(** ** One collection *)

Lemma access_records_are lr b now : parse_access_record b now = Some lr -> is_access lr.
Proof. unfold parse_access_record. intros E. repeat case_match; try discriminate; injection E as <-; reflexivity. Qed.

(** The error records of a collection are those of the workers' drains. *)
Lemma collect_logs_errors cfg zone now :
  let '(b, _, zone') := collect_log_records cfg true zone (length zone) now in
  exists zone1, error_sides zone1 = error_sides zone /\ let drained := map (fun wz => drain_errors now wz) zone1 in
    error_sides zone' = error_sides (map snd drained) /\ filter (fun lr => ~ is_access lr) (lb_logs b) = concat (map (fun d => fst (fst (fst d))) drained).
Proof.
  unfold collect_log_records. rewrite each_worker_map, take_ge, drop_ge, app_nil_r by lia.
  set (zone1 := map _ zone). assert (Hl : length zone1 = length zone) by apply length_map.
  assert (E1 : error_sides zone1 = error_sides zone).
  { unfold zone1, error_sides. rewrite map_map. apply map_ext. intros wz. unfold drain_access. destruct (pop_all _ _). reflexivity. }
  rewrite each_worker_map, take_ge, drop_ge, app_nil_r by lia. exists zone1. split; [exact E1|]. cbv zeta. cbn [lb_logs]. split.
  - f_equal. rewrite map_map. apply map_ext. intros wz. destruct (drain_errors now wz) as [[[l d] o] wz']. reflexivity.
  - rewrite list.filter_app, !map_map, filter_none, filter_all; [cbn [app]; f_equal; apply map_ext; intros wz; destruct (drain_errors now wz) as [[[l d] o] wz']; reflexivity| |].
    + apply Forall_concat, Forall_map, Forall_forall. intros wz _. cbv beta. pose proof (proj1 (error_logs_not_access now wz)) as Hw. destruct (drain_errors now wz) as [[[l d] o] wz']. exact Hw.
    + apply Forall_concat, Forall_map, Forall_forall. intros wz _. unfold drain_access. cbv beta. destruct (pop_all _ _) as [recs r]. cbn [fst].
      apply Forall_forall. intros lr Hin. apply list_elem_of_In, list_elem_of_omap in Hin as (b & _ & E). intros Hn. apply Hn. exact (access_records_are _ _ _ E).
Qed.

(** ** The system with error logs *)

(** The lines logged before the [k]-th wait. *)
Definition logged (lines : nat -> list line) (k : nat) : list line := concat (map lines (seq 0 k)).

Lemma logged_S lines k : logged lines (S k) = logged lines k ++ lines k.
Proof. unfold logged. rewrite seq_S, map_app, concat_app. cbn. rewrite app_nil_r. reflexivity. Qed.

Section errors.
Context (hl : http_lib).
Context (decode_response : otlp_signal -> list Z -> option (option Z)).
Context (decode_status : list Z -> option (list (list Z * list Z))).
Context (decode_retry_info : list Z -> option (option (Z * Z))).
Context `{Prost}.
Context {J : Type} `{EmptyObject J}.
Context (data_offset : Z) (amcf : main_config) (stat_stub : bool) (master_pid : Z) (worker_start_ns : Z) (restarts : Z) (collector_host : list Z).
(** At each wait: the network, the requests that are finished, the lines that are logged, and the clocks, the flags and the control page. *)
Context (sends : nat -> network) (jobs : nat -> list job) (lines : nat -> list line) (rest : nat -> shared -> shared).

Definition logging_others (k : nat) (s : shared) : shared := rest k (log_all data_offset amcf (lines k) s).

#[local] Instance errors_world : World machine :=
  requests_world hl decode_response decode_status decode_retry_info data_offset amcf stat_stub master_pid worker_start_ns restarts collector_host sends jobs logging_others.

Abbreviation exporter_config := (loop_config (J := J) data_offset amcf master_pid).
(** The error records of all batches. *)
Definition exported_errors (evs : list event) : list log_record :=
  filter (fun lr => ~ is_access lr) (concat (map lb_logs (log_batches (J := J) data_offset amcf master_pid evs))).

Lemma exported_errors_app evs evs' : exported_errors (evs ++ evs') = exported_errors evs ++ exported_errors evs'.
Proof using. unfold exported_errors, log_batches. rewrite !concat_filter, bind_app, map_app, concat_app, list.filter_app. reflexivity. Qed.

Context (n : nat) (tables : tables_ok amcf).
Context (logs_read : get_n_workers (ec_n_active_workers exporter_config) (ec_logs_zone_workers exporter_config) = n).
Context (errors_on : mc_error_log_enabled amcf = true) (logs_base : Z) (logs_mapped : logs_shm_base data_offset amcf = Some logs_base).
Context (jobs_ok : forall k, Forall (job_ok data_offset amcf n) (jobs k)).
(** The key of a template hashes its severity too; lines of two severities do not share a key by a collision of that hash. *)
Context (sev_of : Z -> Z) (lines_ok : forall k, Forall (line_ok sev_of n) (lines k)).
Context (rest_frame : forall k s, sh_spans (rest k s) = sh_spans s /\ sh_logs (rest k s) = sh_logs s /\ sh_blocks (rest k s) = sh_blocks s).

Lemma rest_shaped k s : well_shaped n s -> well_shaped n (rest k s).
Proof using rest_frame. intros []. destruct (rest_frame k s) as (E1 & E2 & E3). split; rewrite ?E1, ?E2, ?E3; assumption. Qed.

(** Error logs leave what [Serve] and [Meter] rely on: their theorems hold of this system too. *)
Lemma logging_frame k s : only_errors (logging_others k s) s.
Proof using rest_frame.
  unfold logging_others. destruct (rest_frame k (log_all data_offset amcf (lines k) s)) as (E1 & E2 & E3).
  destruct (log_all_frame data_offset amcf (lines k) s) as (F1 & F2 & F3). unfold only_errors. rewrite E1, E2, E3. auto.
Qed.

Section balance.
Context (start most : Z) (ps0 : list (ring * list slot)) (ess0 : list (list error_event)) (most_pos : 0 <= most).

(** The lines counted so far. *)
Abbreviation counted k := (admitted amcf (logged lines k)).

Definition in_balance (h : history machine) : Prop :=
  well_shaped n (ma_shared (actual h)) /\
  let ls := counted (ma_next (actual h)) in
  (start + LINE_COST * Z.of_nat (length ls) <= u64_max -> most + Z.of_nat (length ls) <= u32_max ->
   exists told ess, map fst told = ls /\ balanced sev_of start most ps0 ess0 told (exported_errors (events h)) (error_sides (sh_logs (ma_shared (actual h)))) ess).

Lemma balance_frame h h' evs : in_balance h -> well_shaped n (ma_shared (actual h')) ->
  error_sides (sh_logs (ma_shared (actual h'))) = error_sides (sh_logs (ma_shared (actual h))) ->
  ma_next (actual h') = ma_next (actual h) -> events h' = events h ++ evs -> exported_errors evs = [] -> in_balance h'.
Proof using. intros [_ G] Hs He Hk Hev Hn. split; [exact Hs|]. rewrite He, Hk, Hev, exported_errors_app, Hn, app_nil_r. exact G. Qed.

Lemma balance_wait h m' evs : in_balance h -> ma_next m' = S (ma_next (actual h)) ->
  ma_shared m' = logging_others (ma_next (actual h)) (serve_all data_offset amcf (jobs (ma_next (actual h))) (ma_shared (actual h))) -> exported_errors evs = [] ->
  in_balance (mk_history m' (events h ++ evs)).
Proof using tables logs_mapped jobs_ok lines_ok rest_frame.
  clear logs_read errors_on.
  intros [G1 G2] Hk Hs Hn. set (k := ma_next (actual h)) in *.
  pose proof (proj2 (proj2 (serve_all_spec data_offset amcf tables n (jobs k) _ G1 (jobs_ok k)))) as Hw. split; cbn [actual events].
  - rewrite Hs. eapply only_errors_shaped; [apply logging_frame|exact Hw].
  - rewrite Hs, Hk, exported_errors_app, Hn, app_nil_r, logged_S. unfold admitted. rewrite list.filter_app, length_app. intros Hv Hc.
    destruct G2 as (told & ess & Et & Hb); [unfold admitted, LINE_COST, ERROR_RECORD_HDR, MAX_ERROR_BODY_LEN in *; lia..|].
    assert (El : length told = length (admitted amcf (logged lines k))) by (rewrite <- Et, length_map; reflexivity).
    rewrite <- (serve_all_errors data_offset amcf (jobs k)) in Hb.
    destruct (balanced_lines data_offset amcf sev_of logs_base logs_mapped n _ _ _ _ _ (lines k) _ _ _ Hb Hw (lines_ok k)) as (new & ess' & En & Hb'); [rewrite El; assumption..|].
    exists (told ++ new), ess'. rewrite map_app, Et, En. split; [reflexivity|]. unfold logging_others.
    destruct (rest_frame k (log_all data_offset amcf (lines k) (serve_all data_offset amcf (jobs k) (ma_shared (actual h))))) as (_ & -> & _). exact Hb'.
Qed.

#[local] Instance balance_kept : WorldKeeps exporter_config in_balance.
Proof.
  split.
  - intros c h Hh. apply (balance_frame h _ [] Hh); try reflexivity; [destruct (proj1 Hh); split; assumption|]. cbn. rewrite app_nil_r. reflexivity.
  - intros c h Hh. cbn [collect_all_sources history_world errors_world requests_world system_world machine_world].
    pose proof (sources_shape data_offset amcf n (source_env_of stat_stub master_pid restarts c (ma_shared (actual h))) worker_start_ns collector_host _ (proj1 Hh) eq_refl) as Hs.
    destruct (Sources.collect_all_sources _ _ _ _ _) as [b blocks]. apply (balance_frame h _ [EvMetrics b (sh_msec (ma_shared (actual h)))] Hh); try reflexivity. exact Hs.
  - intros l bytes budget h Hh. cbn [send history_world errors_world requests_world system_world machine_world].
    destruct (send_batch _ _ _ _ _ _ _ _ _ _ _) as [[[r x] tk] o]. cbn [snd]. apply balance_wait; [exact Hh|reflexivity..].
  - intros ms h Hh. apply balance_wait; [exact Hh|reflexivity..].
  - intros x h Hh. unfold collect_logs. destruct (logs_zone h) as [zone|] eqn:Ez; [|exact Hh].
    assert (Em : Some zone = mapped (logs_shm_base data_offset amcf) (sh_logs (ma_shared (actual h)))) by (symmetry; exact Ez).
    rewrite logs_mapped in Em. injection Em as ->. destruct Hh as [[S1 S2 S3 S4] G].
    pose proof (collect_logs_errors (ec_resource exporter_config) (sh_logs (ma_shared (actual h))) (sh_nano (ma_shared (actual h)))) as Hc.
    pose proof (collect_logs_length (ec_resource exporter_config) true n (sh_nano (ma_shared (actual h))) (sh_logs (ma_shared (actual h)))) as Hl.
    change (now_unix_nano h) with (sh_nano (ma_shared (actual h))).
    change (ec_error_log_enabled exporter_config) with (mc_error_log_enabled amcf). rewrite errors_on, logs_read. rewrite S2 in Hc.
    destruct (collect_log_records _ true _ n _) as [[b d] zone'] eqn:Ec. cbn [snd] in *. destruct Hc as (zone1 & E1 & E2 & E3). split.
    + split; try assumption. cbn. congruence.
    + cbn [actual events ma_next]. intros Hv Hm. destruct (G Hv Hm) as (told & ess & Et & Hb). exists told. cbv zeta in Hb. rewrite <- E1 in Hb.
      destruct (balanced_collect _ _ _ _ _ _ _ zone1 ess (sh_nano (ma_shared (actual h))) Hb most_pos) as [ess' Hb']. exists ess'. split; [exact Et|].
      cbv zeta in Hb'. rewrite <- E2, <- E3 in Hb'.
      assert (Ex : exported_errors [EvLogs (sh_logs (ma_shared (actual h))) (sh_nano (ma_shared (actual h)))] = filter (fun lr => ~ is_access lr) (lb_logs b)).
      { unfold exported_errors, log_batches. rewrite concat_filter. cbn [mbind list_bind taken_logs app map concat]. rewrite app_nil_r.
        change (ec_error_log_enabled exporter_config) with (mc_error_log_enabled amcf). rewrite errors_on, logs_read, Ec. reflexivity. }
      rewrite <- Ex, <- exported_errors_app in Hb'.
      assert (Ev : events (set_logs_zone zone' h) = events h ++ [EvLogs (sh_logs (ma_shared (actual h))) (sh_nano (ma_shared (actual h)))]).
      { cbn. rewrite logs_mapped. reflexivity. }
      rewrite Ev. exact Hb'.
  - intros x h Hh. unfold collect_spans. destruct (spans_zone h) as [zone|] eqn:Ez; [|exact Hh].
    pose proof (collect_spans_length (ec_resource exporter_config)
      (get_n_workers (ec_n_active_workers exporter_config) (ec_spans_zone_workers exporter_config)) (now_unix_nano h) zone) as Hl.
    destruct (collect_span_records _ _ _ _) as [[b d] zone']. cbn [snd] in *. destruct (proj1 Hh) as [S1 S2 S3 S4].
    assert (Em : Some zone = mapped (spans_shm_base data_offset amcf) (sh_spans (ma_shared (actual h)))) by (symmetry; exact Ez).
    unfold mapped in Em. destruct (spans_shm_base data_offset amcf); [|discriminate]. injection Em as ->.
    eapply (balance_frame h _ [_] Hh); try reflexivity. split; try assumption. cbn. congruence.
Qed.
End balance.

(** C4 (invariant). No error line is lost without a trace between the worker that logs it and the collector.  Let the workers log any lines at any moment
    the exporter waits, each through the writer of nginx's log chain, while they also finish requests; let no two lines of different severities collide in the 64-bit key that stands for severity and text, let the rings be of the size that one collection
    can take, and run the loop as configured with any network and collector, for fewer than 2^32 lines.  Then each line at or above the configured
    level has one of three fates: it is only counted with its template, its record went into the ring, or the full ring refused its record and counted it.
    For every template, the occurrences that all exported records report, with what the tables still hold, are exactly the lines counted with it, the
    refused samples too; the exported records, with what the rings still hold, are the records that went in, once each, but for those that report the count of a refused
    sample; lines of the severities emerg, alert and crit are never merged; and if the loop came to its final drain with nothing given up, the collector settled all the batches.
    About: ngx_otel_error_writer, writer_body, coalesce, push_error_record, push, drain_errors, drain_coalesce_table, counts_map_of, orphans, parse_error_record,
    collect_log_records, collect_logs, export_iterations, loop_config, logs_request. *)
Theorem every_line_accounted `{!ProstLaws} fuel my_gen since m e x' m' start most ess0 :
  ma_next m = 0%nat -> well_shaped n (ma_shared m) -> 0 <= most ->
  let sides0 := error_sides (sh_logs (ma_shared m)) in
  Forall2 (fun p => worker_holds sev_of (fst p) (snd p)) sides0 ess0 ->
  Forall (fun p => write_offset (fst p) <= start) sides0 -> Forall (fun p => wsum (fun _ => true) (snd p) <= most) sides0 ->
  export_iterations encode_pdata fuel exporter_config my_gen since initial_exporter m = Some (e, x', m') ->
  let ls := admitted amcf (logged lines (ma_next m')) in
  start + LINE_COST * Z.of_nat (length ls) <= u64_max -> most + Z.of_nat (length ls) <= u32_max ->
  exists evs told ess, export_iterations encode_pdata fuel exporter_config my_gen since initial_exporter (observe m) = Some (e, x', mk_history m' evs) /\
  let logs_sent := log_batches (J := J) data_offset amcf master_pid evs in
  map fst told = ls /\ balanced sev_of start most sides0 ess0 told (exported_errors evs) (error_sides (sh_logs (ma_shared m'))) ess /\
  (forall b, b ∈ logs_sent -> read_logs (logs_request b) = Some b) /\
  (e = Drained -> given_up LLogs evs = [] -> given_up LSpans evs = [] -> DROPPED_RECORDS (stats x') = 0 ->
   records_offered (J := J) data_offset amcf master_pid evs < 2 ^ 64 -> settled LLogs evs ≡ₚ map (fun b => serialize_logs (logs_request b)) logs_sent).
Proof.
  intros E0 Hs Hmost sides0 Hh Ho Hm Er ls Hv Hc. apply run_delivers in Er as (evs & Er & _ & _ & _ & _ & Hb & _ & Hd); [|assumption].
  assert (Hp : in_balance start most sides0 ess0 (observe m)).
  { split; [exact Hs|]. cbn [observe actual events]. rewrite E0. intros _ _. exists [], ess0. split; [reflexivity|]. apply balanced_start; assumption. }
  pose proof (balance_kept start most sides0 ess0 Hmost) as Hk.
  destruct (iterations_keep _ exporter_config my_gen _ _ _ _ _ _ _ _ Hp Er) as [_ G]. cbn [actual events] in G.
  destruct (G Hv Hc) as (told & ess & Et & Hbal). exists evs, told, ess. split; [exact Er|]. cbv zeta. split_and!; [exact Et|exact Hbal|exact Hb|]. intros. apply Hd; assumption.
Qed.
(** *** The rates *)

Section rates_run.
Context (base : Z) (zone_mapped : shm_base data_offset amcf = Some base) (blocks_read : Sources.metrics_n_workers data_offset amcf = Z.of_nat n).
Abbreviation counted k := (admitted amcf (logged lines k)).

(** The batch shows the lines logged before the [k]-th wait. *)
Definition shows_rates (k : nat) (b : batch) : Prop := exists front back now, b_metrics b = front ++ [expected_rates (counted k) worker_start_ns now] ++ back.

Definition rated (h : history machine) : Prop :=
  well_shaped n (ma_shared (actual h)) /\ rates_are n (counted (ma_next (actual h))) (sh_blocks (ma_shared (actual h))) /\
  waits (events h) = ma_next (actual h) /\
  (Z.of_nat (length (counted (ma_next (actual h)))) <= i64_max -> Forall (fun '(k, b) => shows_rates k b) (metric_looks 0 (events h))).

Lemma counted_workers k : Forall (fun l => (ln_worker l < n)%nat) (counted k).
Proof using lines_ok.
  clear -lines_ok. apply Forall_forall. intros l Hin. apply list_elem_of_In, list_elem_of_filter in Hin as [_ Hin%list_elem_of_In].
  apply in_concat in Hin as (ls & (i & <- & _)%in_map_iff & Hin). exact (proj1 (proj1 (List.Forall_forall _ _) (lines_ok i) l Hin)).
Qed.

Lemma rated_frame h h' evs : rated h -> well_shaped n (ma_shared (actual h')) -> sh_blocks (ma_shared (actual h')) = sh_blocks (ma_shared (actual h)) ->
  ma_next (actual h') = ma_next (actual h) -> events h' = events h ++ evs -> Forall quiet_event evs -> rated h'.
Proof using.
  intros (_ & G1 & G2 & G3) Hs Hb Hk He Hn. destruct (quiet_events evs (0 + waits (events h)) Hn) as [Q1 Q2].
  split; [exact Hs|]. rewrite Hb, Hk, He, waits_app, Q1, Nat.add_0_r, metric_looks_app, Q2, app_nil_r. auto.
Qed.

Lemma rated_wait h m' ev : rated h -> ma_next m' = S (ma_next (actual h)) ->
  ma_shared m' = logging_others (ma_next (actual h)) (serve_all data_offset amcf (jobs (ma_next (actual h))) (ma_shared (actual h))) -> is_wait ev = true ->
  rated (mk_history m' (events h ++ [ev])).
Proof using tables logs_mapped zone_mapped jobs_ok lines_ok rest_frame.
  clear logs_read errors_on blocks_read. intros (G1 & G2 & G3 & G4) Hk Hs Hn. set (k := ma_next (actual h)) in *.
  pose proof (proj2 (proj2 (serve_all_spec data_offset amcf tables n (jobs k) _ G1 (jobs_ok k)))) as Hw. split_and!; cbn [actual events].
  - rewrite Hs. eapply only_errors_shaped; [apply logging_frame|exact Hw].
  - rewrite Hs, Hk, logged_S. unfold logging_others, admitted. rewrite list.filter_app.
    destruct (rest_frame k (log_all data_offset amcf (lines k) (serve_all data_offset amcf (jobs k) (ma_shared (actual h))))) as (_ & _ & ->).
    apply (log_all_rates data_offset amcf base logs_base zone_mapped logs_mapped n); [exact Hw|eapply Forall_impl; [|apply lines_ok]; intros l []; assumption|].
    unfold rates_are. rewrite (serve_all_rates data_offset amcf base zone_mapped n tables _ _ G1 (jobs_ok k)). exact G2.
  - rewrite Hk, waits_app, G3. unfold waits. cbn [List.filter]. rewrite Hn. cbn [length]. apply Nat.add_1_r.
  - rewrite Hk, logged_S, metric_looks_app. unfold admitted. rewrite list.filter_app, length_app. intros Hb.
    apply Forall_app. split; [apply G4; unfold admitted; lia|]. destruct ev; try discriminate; constructor.
Qed.

#[local] Instance rated_kept : WorldKeeps exporter_config rated.
Proof.
  split.
  - intros c h Hh. apply (rated_frame h _ [] Hh); try reflexivity; [destruct (proj1 Hh); split; assumption| |constructor]. cbn. rewrite app_nil_r. reflexivity.
  - intros c h (G1 & G2 & G3 & G4). cbn [collect_all_sources history_world errors_world requests_world system_world machine_world].
    set (env := source_env_of stat_stub master_pid restarts c (ma_shared (actual h))).
    pose proof (sources_shape data_offset amcf n env worker_start_ns collector_host _ G1 eq_refl) as Hs.
    pose proof (sources_rates data_offset amcf base zone_mapped n env worker_start_ns collector_host _ errors_on blocks_read (ws_blocks _ _ G1) G2 (counted_workers _)) as Hr.
    destruct (Sources.collect_all_sources data_offset amcf env worker_start_ns collector_host) as [b blocks]. split; [exact Hs|]. cbn [snd actual events on_shared ma_next ma_shared sh_blocks sh_set_blocks].
    destruct Hr as [Hb Hr]. split; [exact Hr|]. split; [rewrite waits_app, <- G3; apply Nat.add_0_r|]. intros Hlen.
    rewrite metric_looks_app. apply Forall_app. split; [exact (G4 Hlen)|]. constructor; [|constructor]. rewrite Nat.add_0_l, G3. exact (Hb Hlen).
  - intros l bytes budget h Hh. cbn [send history_world errors_world requests_world system_world machine_world].
    destruct (send_batch _ _ _ _ _ _ _ _ _ _ _) as [[[r x] tk] o]. cbn [snd]. apply rated_wait; [exact Hh|reflexivity..].
  - intros ms h Hh. apply rated_wait; [exact Hh|reflexivity..].
  - intros x h Hh. destruct (logs_frame hl decode_response decode_status decode_retry_info data_offset amcf stat_stub master_pid worker_start_ns restarts collector_host
      sends jobs logging_others n x h (proj1 Hh)) as (? & ? & ? & evs & ? & ?). eapply rated_frame; eauto.
  - intros x h Hh. destruct (spans_frame hl decode_response decode_status decode_retry_info data_offset amcf stat_stub master_pid worker_start_ns restarts collector_host
      sends jobs logging_others n x h (proj1 Hh)) as (? & ? & ? & evs & ? & ?). eapply rated_frame; eauto.
Qed.

End rates_run.
End errors.

(** ** A line repeated, one refused and one that is critical *)

Definition noisy_main : main_config := set_error_log true 5 (set_error_log_coalesce true busy_main).
Definition quiet_line (w : nat) (buf : list Z) : line := mk_line w (Some (1700000001, 250)) 4 buf.
Definition line_c : list Z := $"2024/01/01 00:00:10 [error] 12#12: *9 upstream timed out, client: 1.2.3.4".
Definition line_d : list Z := $"2024/01/01 00:00:11 [crit] 12#12: d".
Definition crit_line : line := mk_line 0 (Some (1700000002, 0)) 3 line_d.
Definition noisy_lines (k : nat) : list line :=
  if bool_decide (k = 0)%nat then [quiet_line 0 line_a; quiet_line 0 line_b; quiet_line 0 line_c] else if bool_decide (k = 3)%nat then [crit_line] else [].
Definition noisy_severity (k : Z) : Z := if k =? line_key crit_line then 3 else 4.
Definition noisy_shared : shared :=
  sh_set_logs [Collect.mk_zone (fresh_ring 1024) (fresh_ring 128) empty_table] busy_shared.
Definition noisy_machine (st : started) (l : ledger) : machine := mk_machine noisy_shared (st_transport st) no_tasks (l, quiet_ngx) 0.
Definition noisy_world : World machine :=
  errors_world sample_http (fun _ _ => None) (fun _ => None) (fun _ => None) 0 noisy_main false 7 0 0 $"otel.example" busy_sends busy_jobs noisy_lines busy_others.
Definition noisy_config : export_config := loop_config (J := json) 0 noisy_main 7.
Abbreviation noisy_on m := (@export_iterations machine noisy_world encode_pdata 5 noisy_config 1 0 initial_exporter m).
Abbreviation noisy_watched m :=
  (@export_iterations (history machine) (@history_world machine noisy_world) encode_pdata 5 noisy_config 1 0 initial_exporter (observe m)).

Lemma noisy_drains : exists st l1, start_export sample_http sample_ctx noisy_main sample_ledger = (Some st, l1) /\
  exists x' m', noisy_on (noisy_machine st l1) = Some (Drained, x', m') /\ ma_next m' = 7%nat.
Proof.
  assert (C : match start_export sample_http sample_ctx noisy_main sample_ledger with
    | (Some st, l1) => (fun '(e, _, m') => (e, ma_next m')) <$> noisy_on (noisy_machine st l1) | _ => None end = Some (Drained, 7%nat)) by (vm_compute; reflexivity).
  destruct (start_export _ _ _ _) as [[st|] l1]; [|discriminate]. exists st, l1. split; [reflexivity|].
  destruct (export_iterations _ _ _ _ _ _ _) as [[[e x'] m']|]; [|discriminate]. injection C as -> E. eauto.
Qed.

(** What is left behind, and how many error records report the two templates and how often. *)
Definition noisy_summary (x : exporter) (evs : list event) : (list (list Z) * list (list Z)) * (Z * bool) * list (Z * Z) :=
  ((given_up LLogs evs, given_up LSpans evs), (DROPPED_RECORDS (stats x), records_offered (J := json) 0 noisy_main 7 evs <? 2 ^ 64),
   map (fun lr => (occurrences_of (line_key (quiet_line 0 line_a)) lr, occurrences_of (line_key (quiet_line 0 line_c)) lr)) (exported_errors (J := json) 0 noisy_main 7 evs)).

Lemma noisy_history st l1 e x' m' evs : start_export sample_http sample_ctx noisy_main sample_ledger = (Some st, l1) ->
  noisy_watched (noisy_machine st l1) = Some (e, x', mk_history m' evs) -> noisy_summary x' evs = (([], []), (0, true), [(2, 0); (0, 1); (0, 0)]).
Proof.
  intros Es E. assert (C : match start_export sample_http sample_ctx noisy_main sample_ledger with
    | (Some st, l1) => (fun '(_, x', h) => noisy_summary x' (events h)) <$> noisy_watched (noisy_machine st l1)
    | _ => None end = Some (([], []), (0, true), [(2, 0); (0, 1); (0, 0)])) by (vm_compute; reflexivity).
  rewrite Es, E in C. apply Some_inj in C. exact C.
Qed.

Lemma noisy_shape : well_shaped 1 noisy_shared.
Proof. destruct busy_shape. split; [assumption|reflexivity|assumption..]. Qed.
Lemma noisy_job_ok : job_ok 0 noisy_main 1 busy_job.
Proof. destruct busy_job_ok. split; [assumption..|vm_compute; reflexivity]. Qed.
Lemma noisy_jobs_ok k : Forall (job_ok 0 noisy_main 1) (busy_jobs k).
Proof. unfold busy_jobs. case_bool_decide; repeat (constructor; try apply noisy_job_ok). Qed.
Lemma noisy_lines_ok k : Forall (line_ok noisy_severity 1) (noisy_lines k).
Proof. unfold noisy_lines. repeat case_bool_decide; repeat (constructor; [split; [cbn; lia|vm_compute; reflexivity]|]); constructor. Qed.

Lemma empty_holds sev_of c : 0 < c <= 24 * 50000 -> worker_holds sev_of (fresh_ring c) empty_table [].
Proof.
  intros Hc. split; cbn [map]; [apply fresh_ring_ok; unfold u32_max; lia|constructor|cbn; lia|exact empty_table_ok| |constructor|].
  - intros k s (sl & Hin & <- & _ & H0)%tracked_In; [|exact empty_table_ok]. apply list_elem_of_In, elem_of_replicate in Hin as [-> _]. destruct (H0 eq_refl).
  - intros h Hin. apply elem_of_nil in Hin. destruct Hin.
Qed.

Lemma every_line_accounted_witness : exists st l1 evs told ess m' b bs,
  start_export sample_http sample_ctx noisy_main sample_ledger = (Some st, l1) /\
  map fst told = [quiet_line 0 line_a; quiet_line 0 line_b; quiet_line 0 line_c; crit_line] /\
  balanced noisy_severity 1000 0 (error_sides (sh_logs noisy_shared)) [[]] told (exported_errors (J := json) 0 noisy_main 7 evs) (error_sides (sh_logs (ma_shared m'))) ess /\
  zsum (map (occurrences_of (line_key (quiet_line 0 line_a))) (exported_errors (J := json) 0 noisy_main 7 evs)) = 2 /\
  log_batches (J := json) 0 noisy_main 7 evs = b :: bs /\ serialize_logs (logs_request b) ∈ settled LLogs evs.
Proof.
  destruct noisy_drains as (st & l1 & Es & x' & m' & E & En).
  destruct (every_line_accounted (J := json) sample_http (fun _ _ => None) (fun _ => None) (fun _ => None) 0 noisy_main false 7 0 0 $"otel.example"
    busy_sends busy_jobs noisy_lines busy_others 1 busy_tables eq_refl eq_refl 65536 eq_refl noisy_jobs_ok noisy_severity noisy_lines_ok (fun _ _ => conj eq_refl (conj eq_refl eq_refl))
    5 1 0 (noisy_machine st l1) Drained x' m' 1000 0 [[]] eq_refl noisy_shape ltac:(lia) ltac:(constructor; [apply empty_holds; lia|constructor])
    ltac:(repeat constructor; vm_compute; congruence) ltac:(repeat constructor; vm_compute; congruence) E
    ltac:(rewrite En; vm_compute; congruence) ltac:(rewrite En; vm_compute; congruence)) as (evs & told & ess & Er & Et & Hb & _ & Hd).
  pose proof (noisy_history st l1 Drained x' m' evs Es Er) as Hh. unfold noisy_summary in Hh. injection Hh as G1 G2 G3 G4 G5.
  specialize (Hd eq_refl G1 G2 G3 ltac:(apply Z.ltb_lt; exact G4)).
  destruct (log_batches (J := json) 0 noisy_main 7 evs) as [|b bs] eqn:Eb; [unfold exported_errors in G5; rewrite Eb in G5; discriminate|].
  exists st, l1, evs, told, ess, m', b, bs. split_and!; [exact Es| |exact Hb| |exact Eb|rewrite Hd; left].
  - rewrite Et, En. vm_compute. reflexivity.
  - apply (f_equal (fun l => zsum (map fst l))) in G5. rewrite map_map in G5. exact G5.
Defined.

(** The same with a metrics zone. *)
Definition rated_main : main_config := set_shm_zone (Some (Config.mk_zone 4096 (zone_size_for 0 1))) noisy_main.
Definition rated_world : World machine :=
  errors_world sample_http (fun _ _ => None) (fun _ => None) (fun _ => None) 0 rated_main false 7 0 0 $"otel.example" busy_sends busy_jobs noisy_lines busy_others.
Definition rated_config : export_config := loop_config (J := json) 0 rated_main 7.
Abbreviation rated_on m := (@export_iterations machine rated_world encode_pdata 2 rated_config 1 0 initial_exporter m).
Abbreviation rated_watched m :=
  (@export_iterations (history machine) (@history_world machine rated_world) encode_pdata 2 rated_config 1 0 initial_exporter (observe m)).

Lemma rated_drains : exists st l1, start_export sample_http sample_ctx rated_main sample_ledger = (Some st, l1) /\
  exists x' m', rated_on (noisy_machine st l1) = Some (Drained, x', m') /\ (ma_next m' <= 8)%nat.
Proof.
  assert (C : match start_export sample_http sample_ctx rated_main sample_ledger with
    | (Some st, l1) => (fun '(e, _, m') => (e, (ma_next m' <=? 8)%nat)) <$> rated_on (noisy_machine st l1) | _ => None end = Some (Drained, true)) by (vm_compute; reflexivity).
  destruct (start_export _ _ _ _) as [[st|] l1]; [|discriminate]. exists st, l1. split; [reflexivity|].
  destruct (export_iterations _ _ _ _ _ _ _) as [[[e x'] m']|]; [|discriminate]. injection C as -> E. apply Nat.leb_le in E. eauto.
Qed.

Lemma rated_batches st l1 e x' m' evs : start_export sample_http sample_ctx rated_main sample_ledger = (Some st, l1) ->
  rated_watched (noisy_machine st l1) = Some (e, x', mk_history m' evs) -> map fst (metric_looks 0 evs) = [6%nat].
Proof.
  intros Es E. assert (C : match start_export sample_http sample_ctx rated_main sample_ledger with
    | (Some st, l1) => (fun '(_, _, h) => map fst (metric_looks 0 (events h))) <$> rated_watched (noisy_machine st l1)
    | _ => None end = Some [6%nat]) by (vm_compute; reflexivity).
  rewrite Es, E in C. apply Some_inj in C. exact C.
Qed.

Lemma rated_job_ok : job_ok 0 rated_main 1 busy_job.
Proof. destruct busy_job_ok. split; [assumption..|vm_compute; reflexivity]. Qed.
Lemma rated_jobs_ok k : Forall (job_ok 0 rated_main 1) (busy_jobs k).
Proof. unfold busy_jobs. case_bool_decide; repeat (constructor; try apply rated_job_ok). Qed.
Lemma noisy_few k : (k <= 8)%nat -> Z.of_nat (length (admitted rated_main (logged noisy_lines k))) <= i64_max.
Proof. intros Hk. do 9 (destruct k as [|k]; [vm_compute; congruence|]). lia. Qed.

